(* ===== verification/_CoqProject ===== *)
-Q . S2P
Prelude.v
Strings.v
Encoding.v
ModelValidation.v
Schema.v
Store.v
Paging.v
Tables.v
Sample.v
Sources.v
Slugs.v
Jobs.v
Runtime.v
Projects.v
Deletion.v
Routing.v
EveEvents.v
Sessions.v
Cron.v
Schedules.v
Deployments.v
RouteWeights.v
Transcript.v
EveVersion.v
GatewayText.v
Gateway.v
GatewayRuns.v
Discovery.v
Dispatcher.v
JobPump.v
Worker.v
Traces.v
Activation.v
Reapers.v
Launch.v
RuntimeJobs.v
JobRuns.v
DispatchCredential.v
ScheduleJob.v
GitImport.v
SourceScan.v
ImportJob.v
BuildDeploy.v
BuildRuns.v
JobRun.v
