(* ===== verification/Prelude.v ===== *)
(** * Eveland: a verification development of its control plane

    Eveland deploys agents: a TypeScript monorepo whose control plane keeps its
    state in PostgreSQL ([packages/db]), decides with pure functions
    ([packages/core]), and serves the agents' traffic through a gateway
    ([apps/gateway]).  This library is a shallow embedding of that core, one
    definition per operation of the source, and the theorems that make it
    correct.  This file is its prelude; the header describes the whole.

    ** How the program is modelled

    - State.  [Store.v]: a [database] is one [gmap] per table, the rows are the
      records of [Schema.v] (columns and enums of [db/src/schema.ts]); a [store]
      is the database with the clock and the number of identifiers drawn.
    - Effects.  An operation is a [Tx A], a function of the store to a [result]
      and a store, written with the monad of [Store.v]; an exception keeps the
      state it was thrown in, and [transaction] rolls the database back.  Query
      helpers ([insert], [update_where], [update_returning], [delete_where],
      [insert_or_ignore]) follow Drizzle's, with the unique indexes of
      [Tables.v] checked on every insert and update.
    - The gateway runs on [Gateway.gateway]: the store, its route cache and the
      log of what it asked of other services.
    - The worker runs on [Worker.world]: the store and the log of its awaited
      calls with their answers.  Between any two calls [others], an arbitrary
      function, rewrites the store, and the host answers each call by an arbitrary
      function of the log: a theorem for every host and every [others] is one for
      every interleaving.  A theorem about a run is a statement about the calls it
      appends, read through the marks of [Traces].
    - The job pump is a machine of its own ([JobPump]): slots, claims and wakes,
      with a step relation.
    - Machine values.  Counters, versions, ports and milliseconds are [Z];
      [Math.imul] and [>>>] of the hash are written out at 32 bits; a JSON
      number is a binary64 of the Standard Library's [SpecFloat].  Text is a
      list of UTF-8 bytes, except the keys of weighted routing, which are
      UTF-16 code units, the unit the code hashes.
    - Code that is not in the repository is a parameter, a class with an executable
      instance on which the witnesses run: [Platform] of [Store.v] (nanoid, the
      payload schemas of zod, cron-parser, the collation, the text of a jsonb),
      [NodePlatform] of [Encoding.v] (HMAC and SHA-256, [JSON.parse], [Number] and
      its text), [UnicodeText] of [Slugs.v], [Locale] of [Discovery.v]
      ([localeCompare]), [Dates] of [DispatchCredential.v] (ISO text), and
      [UrlPlatform] of [GitImport.v] ([new URL]).  What the worker asks of its host
      is [WorkerHost], [LaunchHost], [JobHost], [BuildHost], [GitHost], [SourceHost]
      and [SchedulerChannel]; [AbortSignal] is the signal of a job.

    ** The files

    - [Prelude]: errors, the result monad, lists, options, transition relations.
    - [Strings], [Encoding]: the string functions of JavaScript the code uses;
      URI components, base64url, hexadecimal, with their round trips.
    - [Schema], [Store], [Tables], [Paging], [Sample]: the data model, the monad and
      its laws, the tables and their indexes, walks over pages, sample data.
    - [Sources]: source revisions, the log, session queries
      ([db/src/postgres-job-source-store.ts], [postgres-session-query-store.ts]).
    - [Jobs]: the job queue ([db/src/postgres-job-source-store.ts],
      [core/src/jobs.ts]): enqueue, claim, heartbeat, completion, recovery.
    - [Runtime]: runtime instances and activation leases
      ([db/src/postgres-runtime-store.ts]).
    - [Slugs], [Projects], [Deletion]: projects and their slugs, source preflights,
      git credentials, the deletion of a project and its order
      ([db/src/postgres-project-store.ts], [core/src/ids.ts]).
    - [Routing]: weighted selection and idle bindings ([core/src/routing.ts]).
    - [EveEvents], [Sessions]: event projections ([core/src/eve.ts]); sessions,
      nodes, events, usage and merges ([db/src/postgres-session-store.ts]).
    - [Cron], [Schedules]: schedule sources and ticks
      ([core/src/schedules.ts]); schedules, versions, runs and their dispatch
      ([db/src/postgres-schedule-store.ts]).
    - [Deployments], [RouteWeights]: deployments, agent routes, bindings and
      retention ([db/src/postgres-deployment-routing-store.ts],
      [core/src/ids.ts]); the validity of stored weights.
    - [Transcript]: a session's transcript ([core/src/transcript.ts]).
    - [EveVersion]: the supported window of Eve versions
      ([core/src/eve-compatibility.ts]).
    - [GatewayText], [Gateway], [GatewayRuns]: the gateway's reading and writing
      of requests, its handlers ([apps/gateway/src/]), and what they do.
    - [ModelValidation]: the models a deploy asks for and their suggestions
      ([apps/worker/src/jobs/model-gateway-validation.ts], [core/src/model-gateway.ts]).
    - [Discovery]: discovery manifests ([core/src/discovery.ts]).
    - [Dispatcher]: the readiness of the workflow dispatcher
      ([core/src/workflow-dispatch.ts], [apps/worker/src/runtime/workflow-world.ts]).
    - [JobPump]: the pump that claims and runs jobs
      ([apps/worker/src/runtime/job-pump.ts]).
    - [Worker], [Traces]: the worker's computations, its health gate and ports
      ([apps/worker/src/runtime/health.ts], [ports.ts]); runs as traces of calls.
    - [Activation]: the activation of a deployment
      ([apps/worker/src/runtime/activation-manager.ts]).
    - [Reapers]: the sweeps over idle, orphaned and superseded deployments and over
      abandoned workflow runs ([apps/worker/src/runtime/*-reaper.ts],
      [workflow-run-reconciler.ts]).
    - [Launch]: launch contexts ([apps/worker/src/jobs/deployment-launch-context.ts]).
    - [RuntimeJobs], [JobRuns]: the jobs that restart, ensure, archive and delete
      ([apps/worker/src/jobs/runtime-jobs/]), and what they do.
    - [DispatchCredential], [ScheduleJob]: the credential of a schedule dispatch
      ([core/src/server/scheduler-dispatch.ts]) and the job that dispatches.
    - [GitImport], [SourceScan], [ImportJob]: clones
      ([apps/worker/src/source/importer.ts]), the inspection of a source
      ([source/scan.ts], [core/src/source.ts]), the import job, preflights and what
      expires with them.
    - [BuildDeploy], [BuildRuns]: the job that builds and deploys
      ([apps/worker/src/jobs/process-build-deploy.ts]), and what it does.
    - [JobRun]: a claimed job, its handler and its settlement
      ([apps/worker/src/jobs/process.ts], [job-registry.ts]).

    A file's operations keep the source's names, and its definitions come in the
    source's order where Rocq allows.

    ** What is shown

    - Invariants along every sequence of operations, by induction on a step
      relation: running jobs never conflict; a deployment has one live instance
      except where an update revives a dead one, and live instances have distinct
      ports; a schedule run is dispatched at most
      once; a session's events are numbered without gaps and its counters are
      totals; stored route targets stay ones the selection accepts; preflights stay
      well formed and are consumed at most once; a transcript only grows.
    - Refinement: the claim of a job implements an abstract choice of the least
      claimable row.
    - What an operation answers and writes on each branch, errors included:
      activation, claim of due schedules, completion of a run, retargeting,
      merging of sessions, promotion of a deployment, creation of its key, a
      project from a preflight, the deletion of a project in an order that its
      foreign keys allow.
    - Termination and retries: the retry loop of session identities is one
      transaction, the walk over missed cron ticks is exact, a deployment key is
      drawn at most eight times, an activation settles before its deadline, a clone
      is tried as often as is configured and its directory removed when it fails.
    - The routing hash is 32-bit FNV-1a, and each target owns exactly its weight
      of the ten thousand buckets; the distance of a suggested model is the least
      number of edits.
    - Round trips: session paths, affinity cookies, dispatch credentials, displayed
      transcripts.
    - Composition: a request of the gateway is pinned, create-once operations
      meet at one deployment although the routes change between them, a route
      with a serving target never refuses a new request, and leases are
      accounted for from the activation to the end of the response's stream.
    - The worker's jobs, as traces of calls under any interleaving: an archive
      claims before it removes, a project is forgotten after its artifacts, which are
      those of its deployments and sources, a schedule's lease is settled, a build
      starts, records and promotes only what it built and proved and discards what the
      models refuse, an import records what it scanned and deploys after it, a
      preflight keeps what it completes, a cleanup stays below the data directory,
      and a job is settled as its handler ended, under the fence of its attempt.
    - Flaws of the code are theorems too: a schedule whose tick is held, an
      alias over a preview, a lease lost by an observation that throws, a release
      left by a build that fails before it starts, a deployment left running by a
      job fenced after it recorded it, a token cut in half by a report, an upload
      of which only an inner directory is removed.

    ** Bounds and fuel

    [Jobs.claim_loop] runs at most once per candidate row plus once, each turn
    either ending the loop or failing a row for good;
    [Cron.advance_fuel] bounds the walk over missed ticks by the milliseconds
    between the due tick and now, each tick being later than the last;
    [Worker.wait_fuel] gives a wait one turn per millisecond of its timeout, and a
    pause takes at least one; [ImportJob.cleanup_cursor] has the length of the path,
    which each turn shortens; the masks of [GitImport] have the length of the text;
    [Deployments.claim_key_loop], the clone and the retry loop of [Sessions] have the
    source's attempt limits; every other recursion is structural.

    ** What is left out

    - A transaction is atomic and isolated: interleavings are sequences of whole
      operations.  [FOR UPDATE SKIP LOCKED] is therefore a plain choice, and
      retries on serialization races end in the run that is alone.
    - Foreign keys outside [Deletion] (but the cascade of schedule run sessions;
      there, the cascades into the tables the model lacks), check constraints,
      column ranges and NOTIFY; a query without ORDER BY answers in one fixed
      order; one operation reads one clock value.
    - The query that joins the authentication library's tables
      ([listReleaseSources]) and the human description of a cron expression; the
      registration of the workflow dispatcher is answered by a host.
    - Of the gateway: sockets, the NDJSON heartbeat's timer, the minting of
      Caller Tokens and the decoding of the agent-auth envelope, which are
      arguments of its handlers.  Responses that refuse keep their status and
      error text, not their JSON.
    - Of the worker: what Docker, systemd and git do, which a host answers; the
      build itself; the timer of a job's heartbeat, whose writes are among those of
      the others; spans and metrics; the observability reconcilers.
    - The dashboard, the documentation site, the command-line tools, telemetry, the
      packages that run inside agents and the authentication of users, whose logic
      lies in the libraries and processes they drive. *)

From stdpp Require Export base tactics gmap strings list sorting.
From stdpp Require Import fin_maps.
From Stdlib Require Export ZArith Lia.
From Stdlib Require Export SpecFloat Btauto.

(** ** Errors

    The exceptions the modelled code throws.  [Error] is a plain JavaScript
    [Error] with its message; the other constructors are the error classes
    the callers tell apart, [UniqueViolation] and [ForeignKeyViolation] the
    rejections of Postgres, with the name of the index or constraint. *)
Inductive error :=
  | Error (message : string)
  | RuntimeInstanceDrainingError
  | ProjectRouteNotFoundError
  | DeploymentNotFoundError
  | DeploymentNotPromotableError (message : string)
  | InvalidJobRecordError (message : string)
  | InvalidPayload
  | RequestBodyTooLargeError
  | DownstreamAbortedError
  | AbortError
  | ProjectSlugConflictError
  | ForeignKeyViolation (constraint : string)
  | UniqueViolation (constraint : string).

#[export] Instance error_eq_dec : EqDecision error.
Proof. solve_decision. Defined.

(** ** Results and the state monad of the transactions *)

Inductive result (A : Type) :=
  | Ok (a : A)
  | Err (e : error).
Arguments Ok {_} _.
Arguments Err {_} _.

Definition is_ok {A} (r : result A) : bool :=
  match r with Ok _ => true | Err _ => false end.

(** A computation reads and writes a state [S] and either returns or throws.
    The state after a throw is what the statements before it left behind:
    rolling it back is what [transaction] adds (see [Schema]). *)
Definition M (S A : Type) : Type := S -> result A * S.

Declare Scope eve_scope.
Delimit Scope eve_scope with eve.

Section Monad.
Context {S : Type}.

Definition ret {A} (a : A) : M S A := fun s => (Ok a, s).

Definition throw {A} (e : error) : M S A := fun s => (Err e, s).

Definition bind {A B} (m : M S A) (k : A -> M S B) : M S B :=
  fun s => match m s with
           | (Ok a, s') => k a s'
           | (Err e, s') => (Err e, s')
           end.

(** [try { m } catch (e) { h(e) }] *)
Definition try_catch {A} (m : M S A) (h : error -> M S A) : M S A :=
  fun s => match m s with
           | (Ok a, s') => (Ok a, s')
           | (Err e, s') => h e s'
           end.

Definition lift {A} (r : result A) : M S A := fun s => (r, s).

Definition gets {A} (f : S -> A) : M S A := fun s => (Ok (f s), s).

Definition modify (f : S -> S) : M S unit := fun s => (Ok tt, f s).

(** [if (cond) throw error] *)
Definition throw_if (cond : bool) (e : error) : M S unit :=
  if cond then throw e else ret tt.

(** [if (!x) throw error], continuing with the value of [x]. *)
Definition some_or {A} (o : option A) (e : error) : M S A :=
  match o with Some a => ret a | None => throw e end.

(** [for (const x of xs) { ... }] threading an accumulator. *)
Fixpoint fold_m {A B} (f : B -> A -> M S B) (xs : list A) (b : B) : M S B :=
  match xs with
  | [] => ret b
  | x :: xs => bind (f b x) (fun b' => fold_m f xs b')
  end.

Definition for_m {A} (xs : list A) (f : A -> M S unit) : M S unit :=
  fold_m (fun _ x => f x) xs tt.
End Monad.

Notation "x <- m ;; k" := (bind m (fun x => k))
  (at level 100, m at next level, right associativity) : eve_scope.
Notation "m ;; k" := (bind m (fun _ => k))
  (at level 100, right associativity) : eve_scope.
Open Scope eve_scope.

(** The effect of a run on the state, and its outcome. *)
Definition outcome {S A} (m : M S A) (s : S) : result A := (m s).1.
Definition exec {S A} (m : M S A) (s : S) : S := (m s).2.

Lemma bind_ok {S A B} (m : M S A) (k : A -> M S B) s b s' :
  bind m k s = (Ok b, s') <->
  exists a s1, m s = (Ok a, s1) /\ k a s1 = (Ok b, s').
Proof.
  unfold bind. destruct (m s) as [[a|e] s1]; split.
  - eauto.
  - intros (a' & s1' & [= <- <-] & Hk). exact Hk.
  - discriminate.
  - intros (a' & s1' & [=] & _).
Qed.

(** Running a computation whose first step is known to return. *)
Lemma bind_step {S A B} (m : M S A) (k : A -> M S B) s a s1 :
  m s = (Ok a, s1) -> bind m k s = k a s1.
Proof. unfold bind. by intros ->. Qed.

Lemma bind_err {S A B} (m : M S A) (k : A -> M S B) s e s1 :
  m s = (Err e, s1) -> bind m k s = (Err e, s1).
Proof. unfold bind. by intros ->. Qed.

(** A run of two steps, and of a [try], by how the first one ended. *)
Lemma bind_run {S A B} (m : M S A) (k : A -> M S B) s r s' :
  bind m k s = (r, s') ->
  (exists e, m s = (Err e, s') /\ r = Err e) \/ (exists a s1, m s = (Ok a, s1) /\ k a s1 = (r, s')).
Proof.
  unfold bind. destruct (m s) as [[a|e] s1]; intros Hrun; [right; eauto|left].
  injection Hrun as <- <-. eauto.
Qed.

Lemma try_catch_run {S A} (m : M S A) h s r s' :
  try_catch m h s = (r, s') ->
  (exists a, m s = (Ok a, s') /\ r = Ok a) \/ (exists e s1, m s = (Err e, s1) /\ h e s1 = (r, s')).
Proof.
  unfold try_catch. destruct (m s) as [[a|e] s1]; intros Hrun; [left|right; eauto].
  injection Hrun as <- <-. eauto.
Qed.

Lemma some_or_ok {S A} (o : option A) e (s s' : S) a :
  some_or o e s = (Ok a, s') <-> o = Some a /\ s' = s.
Proof. destruct o; unfold some_or, ret, throw; split; [intros [= -> ->] | intros [[= ->] ->] | discriminate | intros [[=] _]]; done. Qed.

Lemma throw_if_ok {S} b e (s s' : S) u :
  throw_if b e s = (Ok u, s') <-> b = false /\ s' = s.
Proof. destruct u, b; unfold throw_if, ret, throw; split; [discriminate | intros [[=] _] | intros [= ->] | intros [_ ->]]; done. Qed.

(** A loop that returns keeps what each of its turns keeps. *)
Lemma fold_m_ok {S A B} (I : B -> S -> Prop) (f : B -> A -> M S B) xs b s b' s' :
  (forall x b s b' s', x ∈ xs -> I b s -> f b x s = (Ok b', s') -> I b' s') ->
  I b s -> fold_m f xs b s = (Ok b', s') -> I b' s'.
Proof.
  revert b s. induction xs as [|x xs IH]; intros b s Hf Hi Hrun.
  - by injection Hrun as <- <-.
  - apply bind_ok in Hrun as (b1 & s1 & Hx & Hrun). eapply (IH b1 s1); [| |done].
    + intros y b2 s2 b3 s3 Hy. apply Hf. by right.
    + eapply Hf; [by left | done..].
Qed.

(** ** Record update

    [r <| f := v |>] is the record [r] with the field [f] replaced, the
    [{...row, f: v}] of the source and the [.set({...})] of its updates.  A
    record type supports it through an instance of [Eta], the identity
    spelled field by field. *)
Class Eta (R : Type) := eta : R -> R.

Class Setter {R T} (f : R -> T) := set_field : (T -> T) -> R -> R.
Arguments set_field {_ _} f {_} _ _.

Ltac build_setter :=
  match goal with
  | |- @Setter ?R ?T ?f =>
      let i := constr:(_ : Eta R) in
      let e := eval hnf in (i : R -> R) in
      let p := eval pattern f in e in
      match p with
      | ?g _ =>
          let s := constr:(fun u : T -> T => g (fun r : R => u (f r))) in
          let s := eval cbv beta in s in
          exact s
      end
  end.
#[export] Hint Extern 1 (Setter _) => build_setter : typeclass_instances.

Notation "r <| f := v |>" := (set_field f (fun _ => v) r)
  (at level 1, left associativity, format "r  <| f  :=  v |>") : eve_scope.
Notation "r <| f ::= u |>" := (set_field f u r)
  (at level 1, left associativity, format "r  <| f  ::=  u |>") : eve_scope.

(** ** JavaScript numbers, JSON values

    A JavaScript number and a Postgres [double precision] are IEEE binary64
    values: [jsnum] is the Standard Library's [spec_float] with the binary64
    parameters.  Integers that the code only counts with are [Z]. *)
Abbreviation jsnum := spec_float.

Definition js_add (x y : jsnum) : jsnum := SFadd 53 1024 x y.

(** [Number.isFinite] *)
Definition js_is_finite (x : jsnum) : bool :=
  match x with
  | S754_zero _ | S754_finite _ _ _ => true
  | S754_infinity _ | S754_nan => false
  end.

Definition js_zero : jsnum := S754_zero false.

(** The number an integer literal is. *)
Definition json_number (z : Z) : jsnum := binary_normalize 53 1024 z 0 false.

#[export] Instance spec_float_eq_dec : EqDecision spec_float.
Proof. solve_decision. Defined.

Inductive json :=
  | JNull
  | JBool (b : bool)
  | JNum (n : jsnum)
  | JStr (s : string)
  | JArr (l : list json)
  | JObj (fields : list (string * json)).

(** [value[key]] on an object's fields, [None] for [undefined]. *)
Fixpoint field (key : string) (fields : list (string * json)) : option json :=
  match fields with
  | [] => None
  | (k, v) :: fs => if decide (k = key) then Some v else field key fs
  end.

(** [typeof value === "string" ? value : null] *)
Definition json_string (j : option json) : option string :=
  match j with Some (JStr s) => Some s | _ => None end.

(** [(payload as Record)[key]] for a value that may not be an object. *)
Definition json_get (key : string) (j : json) : option json :=
  match j with JObj fs => field key fs | _ => None end.

(** [a ?? b] on nullable values. *)
Definition or_else {A} (a b : option A) : option A := match a with Some _ => a | None => b end.

(** A string that is truthy in JavaScript. *)
Definition truthy (s : option string) : option string :=
  match s with Some EmptyString => None | _ => s end.

(** [JSON.stringify] of a string: quotes, backslashes and control characters
    escaped. *)
Definition hex_digit (n : nat) : Ascii.ascii :=
  Ascii.ascii_of_nat (if n <? 10 then 48 + n else 87 + n).

Definition json_escape (c : Ascii.ascii) : string :=
  let n := Ascii.nat_of_ascii c in
  let backslash (c : nat) :=
    String (Ascii.ascii_of_nat 92) (String (Ascii.ascii_of_nat c) EmptyString) in
  match n with
  | 34 | 92 => backslash n
  | 8 => backslash 98
  | 9 => backslash 116
  | 10 => backslash 110
  | 12 => backslash 102
  | 13 => backslash 114
  | _ =>
      if n <? 32 then
        backslash 117 +:+
        String (hex_digit 0) (String (hex_digit 0)
          (String (hex_digit (n / 16)) (String (hex_digit (n mod 16)) EmptyString)))
      else String c EmptyString
  end.

Fixpoint json_escape_all (s : string) : string :=
  match s with
  | EmptyString => EmptyString
  | String c rest => json_escape c +:+ json_escape_all rest
  end.

Definition json_quote (s : string) : string :=
  let quote := String (Ascii.ascii_of_nat 34) EmptyString in
  quote +:+ json_escape_all s +:+ quote.

(** ** Sorting: the [ORDER BY] of the queries *)
Section OrderBy.
Context {A : Type} (leb : A -> A -> bool).

Definition le_rel (x y : A) : Prop := leb x y = true.

#[export] Instance le_rel_dec : RelDecision le_rel.
Proof. intros x y. unfold le_rel. solve_decision. Defined.

Definition order_by (l : list A) : list A := merge_sort le_rel l.

Lemma order_by_perm l : order_by l ≡ₚ l.
Proof. apply merge_sort_Permutation. Qed.

Lemma elem_of_order_by x l : x ∈ order_by l <-> x ∈ l.
Proof. by rewrite order_by_perm. Qed.

Lemma order_by_sorted l :
  Total le_rel -> Transitive le_rel -> StronglySorted le_rel (order_by l).
Proof. intros. apply StronglySorted_merge_sort; auto. Qed.

(** [ORDER BY ... LIMIT 1] returns a least row. *)
Lemma order_by_head l x :
  Total le_rel -> Transitive le_rel ->
  head (order_by l) = Some x -> x ∈ l /\ forall y, y ∈ l -> leb x y = true.
Proof.
  intros Htot Htrans Hhead. pose proof (order_by_sorted l Htot Htrans) as Hs.
  setoid_rewrite <- elem_of_order_by.
  destruct (order_by l) as [|z zs]; simplify_eq/=.
  split; [set_solver|]. intros y [->|Hy]%elem_of_cons.
  - by destruct (Htot x x).
  - apply StronglySorted_inv in Hs as [_ Hall]. rewrite Forall_forall in Hall.
    by apply Hall.
Qed.

Lemma order_by_head_None l : head (order_by l) = None -> l = [].
Proof.
  intros Hhead. apply Permutation_nil_r. rewrite <- (order_by_perm l).
  by destruct (order_by l).
Qed.
End OrderBy.

(** [asc(column)] and [desc(column)] on an integer or timestamp column. *)
Definition asc_by {A} (f : A -> Z) (a b : A) : bool := Z.leb (f a) (f b).
Definition desc_by {A} (f : A -> Z) (a b : A) : bool := Z.leb (f b) (f a).

#[export] Instance asc_by_total {A} (f : A -> Z) : Total (le_rel (asc_by f)).
Proof. intros a b. unfold le_rel, asc_by. rewrite !Z.leb_le. lia. Qed.
#[export] Instance asc_by_trans {A} (f : A -> Z) : Transitive (le_rel (asc_by f)).
Proof. intros a b c. unfold le_rel, asc_by. rewrite !Z.leb_le. lia. Qed.
#[export] Instance desc_by_total {A} (f : A -> Z) : Total (le_rel (desc_by f)).
Proof. intros a b. unfold le_rel, desc_by. rewrite !Z.leb_le. lia. Qed.
#[export] Instance desc_by_trans {A} (f : A -> Z) : Transitive (le_rel (desc_by f)).
Proof. intros a b c. unfold le_rel, desc_by. rewrite !Z.leb_le. lia. Qed.

(** [ORDER BY column DESC LIMIT 1] returns a row with the greatest value. *)
Lemma desc_head_max {A} (f : A -> Z) l x :
  head (order_by (desc_by f) l) = Some x -> x ∈ l /\ forall y, y ∈ l -> (f y <= f x)%Z.
Proof.
  intros Hh. apply order_by_head in Hh as [Hin Hmax]; [|apply _..]. split; [done|].
  intros y Hy. specialize (Hmax y Hy). unfold desc_by in Hmax. by apply Z.leb_le.
Qed.

(** The comparison of a lexicographic [ORDER BY]: by [leb1], then by [leb2]. *)
Definition then_by {A} (leb1 leb2 : A -> A -> bool) (a b : A) : bool :=
  leb1 a b && (negb (leb1 b a) || leb2 a b).

(** [[...new Set(xs)]]: the distinct elements, in the order of their first
    occurrence. *)
Fixpoint js_set {A} `{EqDecision A} (l : list A) : list A :=
  match l with
  | [] => []
  | x :: l => x :: base.filter (fun y => y <> x) (js_set l)
  end.

Lemma elem_of_js_set {A} `{EqDecision A} (l : list A) x : x ∈ js_set l <-> x ∈ l.
Proof.
  induction l as [|y l IH]; simpl; [done|].
  rewrite !elem_of_cons, list_elem_of_filter, IH. destruct (decide (x = y)); naive_solver.
Qed.

Lemma NoDup_js_set {A} `{EqDecision A} (l : list A) : NoDup (js_set l).
Proof.
  induction l as [|y l IH]; simpl; constructor.
  - rewrite list_elem_of_filter. naive_solver.
  - by apply NoDup_filter.
Qed.

(** [sum(expression)] over rows. *)
Definition sum_by {A} (f : A -> Z) (l : list A) : Z := foldr (fun a acc => f a + acc)%Z 0%Z l.

Lemma sum_by_app {A} (f : A -> Z) l1 l2 : sum_by f (l1 ++ l2) = (sum_by f l1 + sum_by f l2)%Z.
Proof. induction l1 as [|a l1 IH]; simpl; [done|]. rewrite IH. lia. Qed.

#[export] Instance sum_by_perm {A} (f : A -> Z) : Proper ((≡ₚ) ==> (=)) (sum_by f).
Proof. intros l1 l2. induction 1; simpl; lia. Qed.

Lemma sum_by_fmap {A B} (f : B -> Z) (g : A -> B) l : sum_by f (g <$> l) = sum_by (f ∘ g) l.
Proof. induction l as [|a l IH]; [done|]. rewrite fmap_cons. unfold sum_by in *. simpl. by rewrite IH. Qed.
