(* ===== verification/Strings.v ===== *)
(** * JavaScript strings

    The methods of strings the source uses, on UTF-8 bytes: a character that
    [trim] and [\s] count as white space is one, two or three bytes here. *)

From S2P Require Import Prelude.

Open Scope string_scope.

Definition ascii_is (n : nat) (c : Ascii.ascii) : bool :=
  bool_decide (Ascii.nat_of_ascii c = n).

(** [toLowerCase] on ASCII letters and on the Kelvin sign, the characters whose
    lower case is ASCII. *)
Definition lower_ascii (c : Ascii.ascii) : Ascii.ascii :=
  let n := Ascii.nat_of_ascii c in
  if ((65 <=? n) && (n <=? 90))%nat then Ascii.ascii_of_nat (n + 32) else c.

Fixpoint to_lower (s : string) : string :=
  match s with
  | "" => ""
  | String c1 r1 =>
      match r1 with
      | String c2 (String c3 r3) =>
          if ascii_is 226 c1 && ascii_is 132 c2 && ascii_is 170 c3
          then String (Ascii.ascii_of_nat 107) (to_lower r3)
          else String (lower_ascii c1) (to_lower r1)
      | _ => String (lower_ascii c1) (to_lower r1)
      end
  end.

(** The white space of one byte (tab to carriage return, space), of two
    (U+00A0) and of three (U+1680, U+2000 to U+200A, U+2028, U+2029, U+202F,
    U+205F, U+3000, U+FEFF). *)
Definition blank1 (c : Ascii.ascii) : bool :=
  let n := Ascii.nat_of_ascii c in (((9 <=? n) && (n <=? 13)) || (n =? 32))%nat.
Definition blank2 (c1 c2 : Ascii.ascii) : bool := ascii_is 194 c1 && ascii_is 160 c2.
Definition blank3 (c1 c2 c3 : Ascii.ascii) : bool :=
  let n3 := Ascii.nat_of_ascii c3 in
  (ascii_is 225 c1 && ascii_is 154 c2 && ascii_is 128 c3)
  || (ascii_is 226 c1 && ascii_is 128 c2
      && (((128 <=? n3) && (n3 <=? 138)) || (n3 =? 168) || (n3 =? 169) || (n3 =? 175))%nat)
  || (ascii_is 226 c1 && ascii_is 129 c2 && ascii_is 159 c3)
  || (ascii_is 227 c1 && ascii_is 128 c2 && ascii_is 128 c3)
  || (ascii_is 239 c1 && ascii_is 187 c2 && ascii_is 191 c3).

Fixpoint trim_start (s : string) : string :=
  match s with
  | "" => ""
  | String c1 r1 =>
      if blank1 c1 then trim_start r1 else
      match r1 with
      | "" => s
      | String c2 r2 =>
          if blank2 c1 c2 then trim_start r2 else
          match r2 with
          | "" => s
          | String c3 r3 => if blank3 c1 c2 c3 then trim_start r3 else s
          end
      end
  end.

Fixpoint trim_end (s : string) : string :=
  match s with
  | "" => ""
  | String c r => if bool_decide (trim_start s = "") then "" else String c (trim_end r)
  end.

(** [value.trim()] *)
Definition js_trim (s : string) : string := trim_end (trim_start s).

(** The runs of characters that are not white space; [inside] one already. *)
Fixpoint count_fields (inside : bool) (s : string) : nat :=
  let char r1 := (if inside then 0 else 1) + count_fields true r1 in
  match s with
  | "" => 0
  | String c1 r1 =>
      if blank1 c1 then count_fields false r1 else
      match r1 with
      | "" => char r1
      | String c2 r2 =>
          if blank2 c1 c2 then count_fields false r2 else
          match r2 with
          | "" => char r1
          | String c3 r3 => if blank3 c1 c2 c3 then count_fields false r3 else char r1
          end
      end
  end.

(** [value.trim().split(/\s+/).length]: the empty string splits into one. *)
Definition field_count (s : string) : nat := Nat.max 1 (count_fields false (js_trim s)).

(** [value.split(c)] *)
Definition cons_first (c : Ascii.ascii) (l : list string) : list string :=
  match l with [] => [String c ""] | w :: ws => String c w :: ws end.

Fixpoint split_at (sep : Ascii.ascii) (s : string) : list string :=
  match s with
  | "" => [""]
  | String c r =>
      if bool_decide (c = sep) then "" :: split_at sep r else cons_first c (split_at sep r)
  end.

Definition slash : Ascii.ascii := Ascii.ascii_of_nat 47.
Definition backslash : Ascii.ascii := Ascii.ascii_of_nat 92.

(** [value.includes(c)], [value.replaceAll(c, d)] *)
Definition includes (c : Ascii.ascii) (s : string) : bool :=
  existsb (fun x => bool_decide (x = c)) (String.list_ascii_of_string s).

Fixpoint replaceAll (c d : Ascii.ascii) (s : string) : string :=
  match s with
  | "" => ""
  | String x r => String (if bool_decide (x = c) then d else x) (replaceAll c d r)
  end.

(** [value.lastIndexOf(c)], [None] for -1; [value.slice(n)]. *)
Fixpoint lastIndexOf (c : Ascii.ascii) (s : string) : option nat :=
  match s with
  | "" => None
  | String x r =>
      match lastIndexOf c r with
      | Some n => Some (S n)
      | None => if bool_decide (x = c) then Some 0 else None
      end
  end.

Fixpoint slice_from (n : nat) (s : string) : string :=
  match n, s with
  | O, _ => s
  | S n, String _ r => slice_from n r
  | S _, "" => ""
  end.

(** [value.slice(0, -n)]: for [n = 0] it is [value.slice(0, 0)], empty. *)
Definition slice_off (n : nat) (s : string) : string :=
  match n with O => "" | _ => String.substring 0 (String.length s - n) s end.

(** [value.startsWith(prefix) ? value.slice(prefix.length) : null] *)
Definition strip_prefix (prefix s : string) : option string :=
  if String.prefix prefix s then Some (slice_from (String.length prefix) s) else None.

(** [replace(/^\.+|\.+$/g, "")] *)
Fixpoint strip_leading_dots (s : string) : string :=
  match s with
  | "" => ""
  | String c r => if ascii_is 46 c then strip_leading_dots r else s
  end.

Fixpoint strip_trailing_dots (s : string) : string :=
  match s with
  | "" => ""
  | String c r =>
      if bool_decide (strip_leading_dots s = "") then "" else String c (strip_trailing_dots r)
  end.

Definition strip_dots (s : string) : string := strip_trailing_dots (strip_leading_dots s).

(** ** Facts *)

Lemma string_app_cons c (s t : string) : String c s +:+ t = String c (s +:+ t).
Proof. reflexivity. Qed.

Lemma string_app_nil_r (s : string) : s +:+ "" = s.
Proof. induction s as [|c s IH]; [done|]. by rewrite string_app_cons, IH. Qed.

Lemma string_app_assoc s1 s2 s3 : (s1 +:+ s2) +:+ s3 = s1 +:+ (s2 +:+ s3).
Proof. induction s1 as [|c s1 IH]; [done|]. exact (f_equal (String c) IH). Qed.

Lemma slice_from_app n s1 s2 :
  slice_from (String.length s1 + n) (s1 +:+ s2) = slice_from n s2.
Proof. by induction s1 as [|c s1 IH]. Qed.

Lemma substring_app s1 s2 : String.substring 0 (String.length s1) (s1 +:+ s2) = s1.
Proof.
  induction s1 as [|c s1 IH]; [by destruct s2 | exact (f_equal (String c) IH)].
Qed.

Lemma string_length_app s1 s2 :
  String.length (s1 +:+ s2) = (String.length s1 + String.length s2)%nat.
Proof. induction s1 as [|c s1 IH]; [done|]. exact (f_equal S IH). Qed.

Lemma strip_prefix_ok p s r : strip_prefix p s = Some r -> s = p +:+ r.
Proof.
  unfold strip_prefix. destruct (String.prefix p s) eqn:Hp; [intros [= <-]|done].
  revert s Hp. induction p as [|c p IH]; intros s Hp; [by destruct s|].
  destruct s as [|c' s]; [done|]. simpl in *. destruct (Ascii.ascii_dec c c') as [->|]; [|done].
  exact (f_equal (String c') (IH s Hp)).
Qed.

Lemma slice_off_app s1 s2 : s2 <> "" -> slice_off (String.length s2) (s1 +:+ s2) = s1.
Proof.
  intros Hne. unfold slice_off. rewrite string_length_app.
  destruct (String.length s2) as [|n] eqn:Hn; [by destruct s2|].
  replace (String.length s1 + S n - S n)%nat with (String.length s1) by lia. apply substring_app.
Qed.

Lemma lastIndexOf_split c s n :
  lastIndexOf c s = Some n -> exists s1 s2, s = s1 +:+ String c s2 /\ String.length s1 = n.
Proof.
  revert n. induction s as [|x s IH]; intros n; simpl; [done|].
  destruct (lastIndexOf c s) as [m|].
  - intros [= <-]. destruct (IH m eq_refl) as (s1 & s2 & -> & <-). by exists (String x s1), s2.
  - case_bool_decide as Hx; [intros [= <-]; subst x; by exists "", s | done].
Qed.

Lemma lastIndexOf_app c s1 s2 :
  lastIndexOf c (s1 +:+ s2) =
  match lastIndexOf c s2 with
  | Some n => Some (String.length s1 + n)%nat
  | None => lastIndexOf c s1
  end.
Proof.
  induction s1 as [|x s1 IH]; [change ("" +:+ s2) with s2; by destruct (lastIndexOf c s2)|].
  change (String x s1 +:+ s2) with (String x (s1 +:+ s2)). simpl. rewrite IH. by destruct (lastIndexOf c s2).
Qed.

Lemma slice_from_split s1 s2 : slice_from (String.length s1) (s1 +:+ s2) = s2.
Proof. rewrite <- (Nat.add_0_r (String.length s1)). apply slice_from_app. Qed.

Lemma prefix_app (p s : string) : String.prefix p (p +:+ s) = true.
Proof.
  induction p as [|c p IH]; [by destruct s|]. rewrite string_app_cons. simpl.
  by destruct (Ascii.ascii_dec c c).
Qed.

Lemma strip_prefix_app (p s : string) : strip_prefix p (p +:+ s) = Some s.
Proof. unfold strip_prefix. by rewrite prefix_app, slice_from_split. Qed.

Lemma includes_cons c x s : includes c (String x s) = bool_decide (x = c) || includes c s.
Proof. reflexivity. Qed.

Lemma includes_app c (s t : string) : includes c (s +:+ t) = includes c s || includes c t.
Proof.
  induction s as [|x s IH]; [done|]. rewrite string_app_cons, !includes_cons, IH. btauto.
Qed.

Lemma lastIndexOf_none c s : includes c s = false -> lastIndexOf c s = None.
Proof.
  induction s as [|x s IH]; [done|]. rewrite includes_cons. intros [Hx Hs]%orb_false_iff.
  simpl. by rewrite IH, Hx.
Qed.

(** The last of a separator that the rest does not hold. *)
Lemma lastIndexOf_last c s t :
  includes c t = false -> lastIndexOf c (s +:+ String c t) = Some (String.length s).
Proof.
  intros Ht. rewrite lastIndexOf_app. simpl. rewrite (lastIndexOf_none c t) by done.
  rewrite bool_decide_eq_true_2 by done. f_equal. lia.
Qed.

(** [split_at] on either side of a separator. *)
Lemma split_at_none sep s : includes sep s = false -> split_at sep s = [s].
Proof.
  induction s as [|x s IH]; [done|]. rewrite includes_cons. intros [Hx Hs]%orb_false_iff.
  simpl. by rewrite Hx, (IH Hs).
Qed.

Lemma split_at_app sep s t :
  includes sep s = false -> split_at sep (s +:+ String sep t) = s :: split_at sep t.
Proof.
  induction s as [|x s IH].
  - intros _. simpl. by rewrite bool_decide_eq_true_2.
  - rewrite includes_cons, string_app_cons. intros [Hx Hs]%orb_false_iff. simpl.
    by rewrite Hx, (IH Hs).
Qed.

(** A first character that is no white space. *)
Lemma trim_start_token c s :
  (33 <= Ascii.nat_of_ascii c <= 127)%nat -> trim_start (String c s) = String c s.
Proof.
  intros Hc.
  assert (Hn : forall n, (128 <= n)%nat -> ascii_is n c = false)
    by (intros n Hn; apply bool_decide_eq_false_2; lia).
  assert (H1 : blank1 c = false).
  { unfold blank1. apply orb_false_iff. split; [|apply Nat.eqb_neq; lia].
    apply andb_false_iff. right. apply Nat.leb_gt. lia. }
  assert (H2 : forall c2, blank2 c c2 = false) by (intros; unfold blank2; by rewrite Hn by lia).
  assert (H3 : forall c2 c3, blank3 c c2 c3 = false)
    by (intros; unfold blank3; rewrite !Hn by lia; reflexivity).
  cbn [trim_start]. rewrite H1. destruct s as [|c2 s]; [done|]. rewrite H2.
  destruct s as [|c3 s]; [done|]. by rewrite H3.
Qed.
