(* ===== verification/Encoding.v ===== *)
(** * Text encodings

    The encodings the gateway relies on: [encodeURIComponent] and
    [decodeURIComponent], the base64url of Node's buffers, hexadecimal digests.
    Text is UTF-8 bytes, a buffer is the string of its bytes.

    [decodeURIComponent] throws unless every run of escapes spells characters
    in UTF-8; [utf8_tail] is the table of well-formed byte sequences (no
    overlong form, no surrogate, nothing above U+10FFFF). *)

From S2P Require Import Prelude Strings.
From Stdlib Require Import ZifyNat.

Open Scope string_scope.
Open Scope nat_scope.

(** ** What the code calls of Node

    [hmac_sha256 secret data] and [sha256 data] of [node:crypto], as bytes;
    [json_parse]: [JSON.parse] of decoded text, [None] when it throws;
    [js_number]: [Number(text)]; [number_string]: [String(number)]. *)
Class NodePlatform := {
  hmac_sha256 : string -> string -> string;
  sha256 : string -> string;
  json_parse : string -> option json;
  js_number : string -> jsnum;
  number_string : jsnum -> string;
}.

(** ** Characters *)

Abbreviation code := Ascii.nat_of_ascii.
Abbreviation chr := Ascii.ascii_of_nat.

Definition between (lo hi n : nat) : bool := ((lo <=? n) && (n <=? hi))%nat.

Definition upper_letter (c : Ascii.ascii) : bool := between 65 90 (code c).
Definition lower_letter (c : Ascii.ascii) : bool := between 97 122 (code c).
Definition digit (c : Ascii.ascii) : bool := between 48 57 (code c).

Definition all_chars (p : Ascii.ascii -> bool) (s : string) : bool :=
  forallb p (String.list_ascii_of_string s).

Lemma code_range c : code c < 256.
Proof. apply Ascii.nat_ascii_bounded. Qed.

Lemma chr_code c : chr (code c) = c.
Proof. apply Ascii.ascii_nat_embedding. Qed.

Lemma code_chr n : n < 256 -> code (chr n) = n.
Proof. apply Ascii.nat_ascii_embedding. Qed.

(** A statement about every byte is checked on the 256 of them. *)
Lemma byte_cases (p : Ascii.ascii -> bool) :
  forallb (fun n => p (chr n)) (seq 0 256) = true -> forall c, p c = true.
Proof.
  intros Hall c. rewrite <- (chr_code c). rewrite forallb_forall in Hall. apply Hall.
  apply in_seq. pose proof (code_range c). lia.
Qed.

(** ** Percent encoding *)

(** The characters [encodeURIComponent] leaves alone:
    [A-Z a-z 0-9 - _ . ! ~ * ' ( )]. *)
Definition uri_unreserved (c : Ascii.ascii) : bool :=
  upper_letter c || lower_letter c || digit c
  || bool_decide (code c ∈ [45; 95; 46; 33; 126; 42; 39; 40; 41]).

Definition upper_hex (n : nat) : Ascii.ascii := chr (if n <? 10 then 48 + n else 55 + n).

Definition percent (c : Ascii.ascii) : string :=
  String (chr 37) (String (upper_hex (code c / 16)) (String (upper_hex (code c mod 16)) "")).

Fixpoint encodeURIComponent (s : string) : string :=
  match s with
  | "" => ""
  | String c r => (if uri_unreserved c then String c "" else percent c) +:+ encodeURIComponent r
  end.

Definition hex_value (c : Ascii.ascii) : option nat :=
  let n := code c in
  if digit c then Some (n - 48)
  else if between 65 70 n then Some (n - 55)
  else if between 97 102 n then Some (n - 87)
  else None.

(** The ranges of the bytes that may follow a first byte: [None] for a byte no
    character starts with. *)
Definition utf8_tail (n : nat) : option (list (nat * nat)) :=
  let tail := (128, 191) in
  if n <? 128 then Some []
  else if between 194 223 n then Some [tail]
  else if n =? 224 then Some [(160, 191); tail]
  else if n =? 237 then Some [(128, 159); tail]
  else if between 225 239 n then Some [tail; tail]
  else if n =? 240 then Some [(144, 191); tail; tail]
  else if n =? 244 then Some [(128, 143); tail; tail]
  else if between 241 243 n then Some [tail; tail; tail]
  else None.

(** What a byte leaves pending, after what was. *)
Definition utf8_step (pending : list (nat * nat)) (n : nat) : option (list (nat * nat)) :=
  match pending with
  | [] => utf8_tail n
  | (lo, hi) :: rest => if between lo hi n then Some rest else None
  end.

Fixpoint utf8_from (pending : list (nat * nat)) (s : string) : bool :=
  match s with
  | "" => bool_decide (pending = [])
  | String c r =>
      match utf8_step pending (code c) with
      | Some pending => utf8_from pending r
      | None => false
      end
  end.

Definition valid_utf8 (s : string) : bool := utf8_from [] s.

(** [None]: the URIError. *)
Fixpoint decode_uri (pending : list (nat * nat)) (s : string) : option string :=
  match s with
  | "" => if bool_decide (pending = []) then Some "" else None
  | String c r =>
      if ascii_is 37 c then
        match r with
        | String h (String l r) =>
            match hex_value h, hex_value l with
            | Some a, Some b =>
                match utf8_step pending (16 * a + b) with
                | Some pending => String (chr (16 * a + b)) <$> decode_uri pending r
                | None => None
                end
            | _, _ => None
            end
        | _ => None
        end
      else if bool_decide (pending = []) then String c <$> decode_uri [] r
      else None
  end.

Definition decodeURIComponent (s : string) : option string := decode_uri [] s.

(** ** base64url and hexadecimal *)

Definition base64_digit (n : nat) : Ascii.ascii :=
  if n <? 26 then chr (65 + n)
  else if n <? 52 then chr (71 + n)
  else if n <? 62 then chr (n - 4)
  else if n =? 62 then chr 45 else chr 95.

(** [buffer.toString("base64url")] *)
Fixpoint base64url (s : string) : string :=
  match s with
  | "" => ""
  | String a "" =>
      String (base64_digit (code a / 4)) (String (base64_digit (code a mod 4 * 16)) "")
  | String a (String b "") =>
      String (base64_digit (code a / 4))
        (String (base64_digit (code a mod 4 * 16 + code b / 16))
           (String (base64_digit (code b mod 16 * 4)) ""))
  | String a (String b (String c r)) =>
      String (base64_digit (code a / 4))
        (String (base64_digit (code a mod 4 * 16 + code b / 16))
           (String (base64_digit (code b mod 16 * 4 + code c / 64))
              (String (base64_digit (code c mod 64)) (base64url r))))
  end.

Definition base64_value (c : Ascii.ascii) : option nat :=
  let n := code c in
  if upper_letter c then Some (n - 65)
  else if lower_letter c then Some (n - 71)
  else if digit c then Some (n + 4)
  else if (n =? 45) || (n =? 43) then Some 62
  else if (n =? 95) || (n =? 47) then Some 63
  else None.

Fixpoint unpack_sextets (l : list nat) : string :=
  match l with
  | w :: x :: y :: z :: l =>
      String (chr (w * 4 + x / 16))
        (String (chr (x mod 16 * 16 + y / 4)) (String (chr (y mod 4 * 64 + z)) (unpack_sextets l)))
  | [w; x; y] => String (chr (w * 4 + x / 16)) (String (chr (x mod 16 * 16 + y / 4)) "")
  | [w; x] => String (chr (w * 4 + x / 16)) ""
  | _ => ""
  end.

(** [Buffer.from(text, "base64url")]: both alphabets, other characters skipped. *)
Definition from_base64url (s : string) : string :=
  unpack_sextets (omap base64_value (String.list_ascii_of_string s)).

(** [digest("hex")] *)
Fixpoint hex_of (s : string) : string :=
  match s with
  | "" => ""
  | String c r => String (hex_digit (code c / 16)) (String (hex_digit (code c mod 16)) (hex_of r))
  end.

(** ** The encodings round-trip *)

#[local] Ltac Zify.zify_post_hook ::= Z.to_euclidean_division_equations.

Lemma hex_value_upper n : n < 16 -> hex_value (upper_hex n) = Some n.
Proof. intros Hn. do 16 (destruct n as [|n]; [reflexivity|]). lia. Qed.

Lemma percent_hex c :
  hex_value (upper_hex (code c / 16)) = Some (code c / 16) /\
  hex_value (upper_hex (code c mod 16)) = Some (code c mod 16) /\
  16 * (code c / 16) + code c mod 16 = code c.
Proof.
  pose proof (code_range c). split; [|split].
  - apply hex_value_upper. lia.
  - apply hex_value_upper. lia.
  - lia.
Qed.

(** A character that is not escaped stands alone in UTF-8 and is no escape. *)
Lemma unreserved_step c pending pending' :
  uri_unreserved c = true -> Forall (fun r => 128 <= r.1) pending ->
  utf8_step pending (code c) = Some pending' ->
  pending = [] /\ pending' = [] /\ ascii_is 37 c = false.
Proof.
  intros Hu Hp.
  assert (Hall : forall c, implb (uri_unreserved c) ((code c <? 128) && negb (ascii_is 37 c)) = true)
    by (apply byte_cases; vm_compute; reflexivity).
  pose proof (Hall c) as Hc. rewrite Hu in Hc. simpl in Hc.
  apply andb_true_iff in Hc as [Hlt%Nat.ltb_lt Hne%negb_true_iff].
  destruct pending as [|[lo hi] rest]; simpl.
  - unfold utf8_tail. destruct (code c <? 128) eqn:E; [|apply Nat.ltb_ge in E; lia].
    by intros [= <-].
  - apply Forall_cons in Hp as [Hlo _]. unfold between. simpl in Hlo.
    destruct (lo <=? code c) eqn:E; [|done]. apply Nat.leb_le in E. lia.
Qed.

Lemma utf8_step_tail pending n pending' :
  Forall (fun r => 128 <= r.1) pending -> utf8_step pending n = Some pending' ->
  Forall (fun r => 128 <= r.1) pending'.
Proof.
  intros Hp. destruct pending as [|[lo hi] rest]; simpl.
  - unfold utf8_tail. intros Hs. repeat case_match; simplify_eq; repeat constructor; simpl; lia.
  - apply Forall_cons in Hp as [_ Hp]. case_match; congruence.
Qed.

Lemma decode_encode_from pending s :
  Forall (fun r => 128 <= r.1) pending -> utf8_from pending s = true ->
  decode_uri pending (encodeURIComponent s) = Some s.
Proof.
  revert pending. induction s as [|c s IH]; intros pending Hp Hs; cbn [utf8_from] in Hs.
  - simpl. by rewrite Hs.
  - cbn [encodeURIComponent]. destruct (utf8_step pending (code c)) as [pending'|] eqn:Hstep; [|done].
    pose proof (utf8_step_tail _ _ _ Hp Hstep) as Hp'. destruct (uri_unreserved c) eqn:Hu.
    + destruct (unreserved_step _ _ _ Hu Hp Hstep) as (-> & -> & Hne).
      change (String c "" +:+ encodeURIComponent s) with (String c (encodeURIComponent s)).
      cbn [decode_uri]. rewrite Hne, bool_decide_eq_true_2 by done.
      by rewrite (IH [] Hp' Hs).
    + destruct (percent_hex c) as (Ha & Hb & Hsum). unfold percent.
      change (String ?a (String ?b (String ?c "")) +:+ ?r) with (String a (String b (String c r))).
      cbn [decode_uri]. rewrite Ha, Hb, Hsum, Hstep, (IH _ Hp' Hs), chr_code. reflexivity.
Qed.

(** [decodeURIComponent(encodeURIComponent(text)) === text] for any text. *)
Lemma decode_encodeURIComponent s :
  valid_utf8 s = true -> decodeURIComponent (encodeURIComponent s) = Some s.
Proof. apply decode_encode_from. constructor. Qed.

Lemma base64_value_digit n : n < 64 -> base64_value (base64_digit n) = Some n.
Proof. intros Hn. do 64 (destruct n as [|n]; [reflexivity|]). lia. Qed.

(** Induction by groups of three characters, as the encoding goes. *)
Lemma string_ind3 (P : string -> Prop) :
  P "" -> (forall a, P (String a "")) -> (forall a b, P (String a (String b ""))) ->
  (forall a b c r, P r -> P (String a (String b (String c r)))) -> forall s, P s.
Proof.
  intros H0 H1 H2 H3. assert (Hall : forall n s, String.length s <= n -> P s).
  { induction n as [|n IH]; intros [|a [|b [|c r]]] Hl; simpl in Hl; auto; try lia.
    apply H3, IH. lia. }
  intros s. by apply (Hall (String.length s)).
Qed.

Lemma from_base64url_encode s : from_base64url (base64url s) = s.
Proof.
  unfold from_base64url.
  induction s as [|a|a b|a b c r IH] using string_ind3; [done|..];
    pose proof (code_range a); try pose proof (code_range b); try pose proof (code_range c);
    cbn [base64url String.list_ascii_of_string omap list_omap].
  - rewrite !base64_value_digit by lia. cbn [unpack_sextets].
    replace (code a / 4 * 4 + code a mod 4 * 16 / 16) with (code a) by lia. by rewrite chr_code.
  - rewrite !base64_value_digit by lia. cbn [unpack_sextets].
    replace (code a / 4 * 4 + (code a mod 4 * 16 + code b / 16) / 16) with (code a) by lia.
    replace ((code a mod 4 * 16 + code b / 16) mod 16 * 16 + code b mod 16 * 4 / 4) with (code b)
      by lia.
    by rewrite !chr_code.
  - rewrite !base64_value_digit by lia. cbn [unpack_sextets].
    replace (code a / 4 * 4 + (code a mod 4 * 16 + code b / 16) / 16) with (code a) by lia.
    replace ((code a mod 4 * 16 + code b / 16) mod 16 * 16
             + (code b mod 16 * 4 + code c / 64) / 4) with (code b) by lia.
    replace ((code b mod 16 * 4 + code c / 64) mod 4 * 64 + code c mod 64) with (code c) by lia.
    rewrite !chr_code. by setoid_rewrite IH.
Qed.

(** What base64url writes: letters, digits, [-] and [_]. *)
Definition base64_char (c : Ascii.ascii) : bool :=
  upper_letter c || lower_letter c || digit c || ascii_is 45 c || ascii_is 95 c.

Lemma base64_digit_char n : n < 64 -> base64_char (base64_digit n) = true.
Proof. intros Hn. do 64 (destruct n as [|n]; [reflexivity|]). lia. Qed.

Lemma base64url_chars s : all_chars base64_char (base64url s) = true.
Proof.
  induction s as [|a|a b|a b c r IH] using string_ind3; [done|..];
    pose proof (code_range a); try pose proof (code_range b); try pose proof (code_range c);
    cbn [base64url]; unfold all_chars in *; cbn [String.list_ascii_of_string forallb];
    rewrite !base64_digit_char by lia; simpl; try done.
Qed.
