(* ===== verification/ModelValidation.v ===== *)
(** * The check of an agent's models

    [apps/worker/src/jobs/model-gateway-validation.ts] with the kinds and
    variables of [packages/core/src/model-gateway.ts]: the models a release names
    against those the gateway offers to the project's key, with the closest
    offered names for those it does not.  Strings count in characters here, which
    for ASCII model names are the UTF-16 units of the code. *)

From S2P Require Import Prelude Strings Encoding.

Open Scope eve_scope.
Open Scope string_scope.

(** ** The gateway *)

Definition MODEL_GATEWAY_KINDS : list string := ["litellm"; "openrouter"; "vercel"; "openai-compatible"].
Definition isModelGatewayKind (value : string) : bool := bool_decide (value ∈ MODEL_GATEWAY_KINDS).
Definition VERCEL_AI_GATEWAY_BASE_URL : string := "https://ai-gateway.vercel.sh/v1".
Definition modelGatewayModelsBaseUrl (kind : string) (baseUrl : option string) : string :=
  if bool_decide (kind = "vercel") then VERCEL_AI_GATEWAY_BASE_URL else default "" baseUrl.

Definition gateway_env_kind : string := "EVELAND_MODEL_GATEWAY_KIND".
Definition gateway_env_url : string := "EVELAND_MODEL_GATEWAY_URL".
Definition gateway_env_key : string := "AI_GATEWAY_API_KEY".

(** ** The distance of two names *)

(** One turn of the inner loop after another: [diagonal], [previous[j - 1]] as
    it was just written, and [previous] from [j] on. *)
Fixpoint edit_row (l : Ascii.ascii) (rs : list Ascii.ascii) (diagonal written : nat)
    (previous : list nat) : list nat :=
  match rs, previous with
  | r :: rs, above :: previous =>
      let cell := Nat.min (Nat.min (above + 1) (written + 1)) (diagonal + if bool_decide (l = r) then 0 else 1) in
      cell :: edit_row l rs above cell previous
  | _, _ => []
  end.

(** The outer loop: [previous] after the characters before the [i]-th. *)
Fixpoint edit_rows (i : nat) (ls rs : list Ascii.ascii) (previous : list nat) : list nat :=
  match ls, previous with
  | l :: ls, diagonal :: previous => edit_rows (S i) ls rs (i :: edit_row l rs diagonal i previous)
  | _, _ => previous
  end.

Definition edit_distance (ls rs : list Ascii.ascii) : nat :=
  default 0 (edit_rows 1 ls rs (seq 0 (S (length rs))) !! length rs).

Definition editDistance (left right : string) : nat :=
  edit_distance (String.list_ascii_of_string left) (String.list_ascii_of_string right).

(** [id.toLowerCase().replace(/[._-]/g, "")] *)
Definition separator (c : Ascii.ascii) : bool := ascii_is 46 c || ascii_is 95 c || ascii_is 45 c.

Definition normalized_id (id : string) : string :=
  String.string_of_list_ascii
    (base.filter (fun c => negb (separator c)) (String.list_ascii_of_string (to_lower id))).

Definition closestIds (id : string) (offered : list string) : list string :=
  let normalized := normalized_id id in
  let distances := (fun candidate => (candidate, editDistance normalized (normalized_id candidate))) <$> offered in
  let near := base.filter (fun c => (snd c <=? Nat.max 2 (String.length normalized / 8))%nat) distances in
  fst <$> take 3 (order_by (fun a b => (snd a <=? snd b)%nat) near).

(** ** The check *)

(** What the gateway answers when it is asked for its models. *)
Inductive model_listing :=
  | ModelsOffered (ids : list string)
  | KeyRejected
  | ListingFailed (message : string).

(** [ModelGatewayValidationResult] *)
Inductive validation_result :=
  | ValidationSkipped
  | ValidationOk (checked : list string)
  | ValidationNoKey (baseUrl : string)
  | ValidationRejected (baseUrl : string)
  | ValidationMissing (baseUrl : string) (missing : list (string * list string))
  | ValidationUnavailable (baseUrl error : string).

Definition listed_result (baseUrl : string) (modelIds : list string) (listing : model_listing)
    : validation_result :=
  match listing with
  | KeyRejected => ValidationRejected baseUrl
  | ListingFailed message => ValidationUnavailable baseUrl message
  | ModelsOffered offered =>
      match base.filter (fun id => negb (bool_decide (id ∈ offered))) modelIds with
      | [] => ValidationOk modelIds
      | missing => ValidationMissing baseUrl ((fun id => (id, closestIds id offered)) <$> missing)
      end
  end.

(** The listing is asked for with the base URL and the key. *)
Definition validateModelGatewayModels (env : gmap string string) (modelIds : list string)
    (listModels : string -> string -> model_listing) : validation_result :=
  let kind := default "" (env !! gateway_env_kind) in
  if negb (isModelGatewayKind kind) || bool_decide (modelIds = []) then ValidationSkipped
  else
    let baseUrl := modelGatewayModelsBaseUrl kind (env !! gateway_env_url) in
    if bool_decide (baseUrl = "") then ValidationSkipped
    else
      match truthy (js_trim <$> env !! gateway_env_key) with
      | None => ValidationNoKey baseUrl
      | Some apiKey => listed_result baseUrl modelIds (listModels baseUrl apiKey)
      end.

Definition modelGatewayValidationFails (result : validation_result) : bool :=
  match result with ValidationRejected _ | ValidationMissing _ _ => true | _ => false end.

Definition missing_line (baseUrl : string) (missing : string * list string) : string :=
  "ERROR: model " +:+ missing.1 +:+ " is not offered by the Model Gateway at " +:+ baseUrl
  +:+ " to this project's key"
  +:+ (match missing.2 with
       | [] => "."
       | suggestions => "; did you mean " +:+ String.concat ", " suggestions +:+ "?"
       end)
  +:+ " Add it (or an alias with this name) on the gateway, or change the Agent's model.".

Definition modelGatewayValidationLog (result : validation_result) : list string :=
  match result with
  | ValidationSkipped => []
  | ValidationOk checked => ["Model Gateway offers the Agent's models: " +:+ String.concat ", " checked]
  | ValidationNoKey baseUrl =>
      ["WARNING: " +:+ gateway_env_key +:+ " is not set, so model calls to the Model Gateway at " +:+ baseUrl
       +:+ " will fail. Set it in the project's environment."]
  | ValidationRejected baseUrl =>
      ["ERROR: the Model Gateway at " +:+ baseUrl +:+ " rejected this project's " +:+ gateway_env_key
       +:+ " (HTTP 401). Set a key issued by that gateway, or opt the project out of the Model Gateway."]
  | ValidationUnavailable baseUrl error =>
      ["WARNING: could not check the Agent's models against the Model Gateway at " +:+ baseUrl +:+ " ("
       +:+ error +:+ "); deploying anyway."]
  | ValidationMissing baseUrl missing => missing_line baseUrl <$> missing
  end.

(** The deploy's error, for a result that fails it. *)
Definition modelGatewayValidationError (result : validation_result) : error :=
  match result with
  | ValidationRejected baseUrl =>
      Error ("The Model Gateway at " +:+ baseUrl +:+ " rejected this project's " +:+ gateway_env_key
             +:+ ". See the build log.")
  | ValidationMissing baseUrl missing =>
      Error ("The Model Gateway at " +:+ baseUrl +:+ " does not offer "
             +:+ String.concat ", " (fst <$> missing) +:+ " to this project. See the build log.")
  | _ => Error ""
  end.

(** ** The distance is the least number of edits *)

Open Scope list_scope.

Section Distance.
Context {A : Type} `{!EqDecision A}.
Implicit Types l r s t u v : list A.

(** One edit of a text: a character inserted, deleted or replaced. *)
Inductive edit : list A -> list A -> Prop :=
  | edit_insert u v a : edit (u ++ v) (u ++ a :: v)
  | edit_delete u v a : edit (u ++ a :: v) (u ++ v)
  | edit_replace u v a b : edit (u ++ a :: v) (u ++ b :: v).

(** An alignment of two texts, with its cost. *)
Inductive aligned : list A -> list A -> nat -> Prop :=
  | aligned_nil : aligned [] [] 0
  | aligned_same a l r n : aligned l r n -> aligned (a :: l) (a :: r) n
  | aligned_replace a b l r n : aligned l r n -> aligned (a :: l) (b :: r) (S n)
  | aligned_delete a l r n : aligned l r n -> aligned (a :: l) r (S n)
  | aligned_insert b l r n : aligned l r n -> aligned l (b :: r) (S n).
#[local] Hint Constructors aligned : core.

Lemma aligned_app l r n l' r' m : aligned l r n -> aligned l' r' m -> aligned (l ++ l') (r ++ r') (n + m).
Proof. induction 1; simpl; auto. Qed.

Lemma aligned_refl l : aligned l l 0.
Proof. induction l; auto. Qed.

(** An alignment is a sequence of edits of its cost. *)
Lemma edit_cons a s t : edit s t -> edit (a :: s) (a :: t).
Proof. intros [u v b|u v b|u v b c]; [apply (edit_insert (a :: u))|apply (edit_delete (a :: u))|apply (edit_replace (a :: u))]. Qed.

Lemma edits_cons a n s t : nsteps edit n s t -> nsteps edit n (a :: s) (a :: t).
Proof. induction 1; econstructor; eauto using edit_cons. Qed.

Lemma aligned_edits l r n : aligned l r n -> nsteps edit n l r.
Proof.
  induction 1 as [|a l r n _ IH|a b l r n _ IH|a l r n _ IH|b l r n _ IH].
  - constructor.
  - by apply edits_cons.
  - econstructor; [apply (edit_replace [] l a b)|]. by apply edits_cons.
  - econstructor; [apply (edit_delete [] l a)|]. done.
  - econstructor; [apply (edit_insert [] l b)|]. by apply edits_cons.
Qed.

(** And an edit changes the cost of an alignment by one at most. *)
Lemma aligned_split l u v n :
  aligned l (u ++ v) n -> exists l1 l2 n1 n2, l = l1 ++ l2 /\ n = n1 + n2 /\ aligned l1 u n1 /\ aligned l2 v n2.
Proof.
  intros Hal. remember (u ++ v) as r eqn:Hr. revert u Hr.
  induction Hal as [|a l r n Hal IH|a b l r n Hal IH|a l r n Hal IH|b l r n Hal IH]; intros u Hr.
  - symmetry in Hr. apply app_nil in Hr as [-> ->]. by exists [], [], 0, 0.
  - destruct u as [|x u]; simpl in Hr; [exists [], (a :: l), 0, n; subst; simpl; auto|].
    injection Hr as <- Hr. destruct (IH u Hr) as (l1 & l2 & n1 & n2 & -> & -> & H1 & H2).
    exists (a :: l1), l2, n1, n2. auto.
  - destruct u as [|x u]; simpl in Hr; [exists [], (a :: l), 0, (S n); subst; simpl; auto|].
    injection Hr as <- Hr. destruct (IH u Hr) as (l1 & l2 & n1 & n2 & -> & -> & H1 & H2).
    exists (a :: l1), l2, (S n1), n2. auto.
  - destruct (IH u Hr) as (l1 & l2 & n1 & n2 & -> & -> & H1 & H2). exists (a :: l1), l2, (S n1), n2. auto.
  - destruct u as [|x u]; simpl in Hr; [exists [], l, 0, (S n); subst; simpl; auto|].
    injection Hr as <- Hr. destruct (IH u Hr) as (l1 & l2 & n1 & n2 & -> & -> & H1 & H2).
    exists l1, l2, (S n1), n2. auto.
Qed.

(** What an alignment with a text does with its first character. *)
Lemma aligned_head l b r n : aligned l (b :: r) n ->
  (exists m, aligned l r m /\ m <= S n) /\ (forall c, exists m, aligned l (c :: r) m /\ m <= S n).
Proof.
  intros Hal. remember (b :: r) as br eqn:Hbr. revert r Hbr.
  induction Hal as [|a l r' n Hal IH|a b' l r' n Hal IH|a l r' n Hal IH|b' l r' n Hal IH]; intros r Hbr;
    try discriminate.
  - injection Hbr as -> ->. split; [exists (S n)|intros c; exists (S n)]; auto.
  - injection Hbr as -> ->. split; [exists (S n)|intros c; exists (S n)]; auto.
  - destruct (IH r Hbr) as [(m & Hm & Hle) Hc]. split; [exists (S m); split; [auto|lia]|].
    intros c. destruct (Hc c) as (k & Hk & Hlek). exists (S k). split; [auto|lia].
  - injection Hbr as -> ->. split; [exists n; auto|]. intros c. exists (S n). auto.
Qed.

Lemma aligned_edit l s t n : aligned l s n -> edit s t -> exists m, aligned l t m /\ m <= S n.
Proof.
  intros Hal Hedit. destruct Hedit as [u v a|u v a|u v a b].
  - apply aligned_split in Hal as (l1 & l2 & n1 & n2 & -> & -> & H1 & H2).
    exists (n1 + S n2). split; [|lia]. by apply aligned_app; [|apply aligned_insert].
  - apply aligned_split in Hal as (l1 & l2 & n1 & n2 & -> & -> & H1 & H2).
    apply aligned_head in H2 as [(m & Hm & Hle) _]. exists (n1 + m). split; [by apply aligned_app|lia].
  - apply aligned_split in Hal as (l1 & l2 & n1 & n2 & -> & -> & H1 & H2).
    apply aligned_head in H2 as [_ Hc]. destruct (Hc b) as (m & Hm & Hle).
    exists (n1 + m). split; [by apply aligned_app|lia].
Qed.

Lemma edits_aligned n l r : nsteps edit n l r -> exists m, aligned l r m /\ m <= n.
Proof.
  revert r. induction n as [|n IH]; intros r Hn.
  - inversion Hn; subst. exists 0. split; [apply aligned_refl|lia].
  - apply nsteps_inv_r in Hn as (s & Hs & He). destruct (IH s Hs) as (m & Hm & Hle).
    destruct (aligned_edit l s r m Hm He) as (k & Hk & Hlek). exists k. split; [done|lia].
Qed.

(** *** The cheapest alignment *)

Definition cheapest (l r : list A) (n : nat) : Prop :=
  aligned l r n /\ forall m, aligned l r m -> n <= m.

Lemma cheapest_nil_l r : cheapest [] r (length r).
Proof.
  split; [induction r; simpl; auto|]. intros m Hm. remember [] as l eqn:Hl. revert Hl.
  induction Hm; intros Hl; try discriminate; simpl; [lia|]. specialize (IHHm Hl). lia.
Qed.

Lemma cheapest_nil_r l : cheapest l [] (length l).
Proof.
  split; [induction l; simpl; auto|]. intros m Hm. remember [] as r eqn:Hr. revert Hr.
  induction Hm; intros Hr; try discriminate; simpl; [lia|]. specialize (IHHm Hr). lia.
Qed.

Lemma aligned_rev l r n : aligned l r n -> aligned (reverse l) (reverse r) n.
Proof.
  induction 1 as [|a l r n _ IH|a b l r n _ IH|a l r n _ IH|b l r n _ IH]; rewrite ?reverse_cons; [done|..].
  - rewrite <- (Nat.add_0_r n). by apply aligned_app; auto.
  - rewrite <- Nat.add_1_r. by apply aligned_app; auto.
  - rewrite <- Nat.add_1_r, <- (app_nil_r (reverse r)). by apply aligned_app; auto.
  - rewrite <- Nat.add_1_r, <- (app_nil_r (reverse l)). by apply aligned_app; auto.
Qed.

Lemma aligned_unrev l r n : aligned (reverse l) (reverse r) n -> aligned l r n.
Proof. intros Hal%aligned_rev. by rewrite !reverse_involutive in Hal. Qed.

(** How an alignment ends. *)
Lemma aligned_last l r a b n : aligned (l ++ [a]) (r ++ [b]) n ->
  (a = b /\ aligned l r n) \/ exists m, n = S m /\
    (aligned l r m \/ aligned l (r ++ [b]) m \/ aligned (l ++ [a]) r m).
Proof.
  intros Hal%aligned_rev. rewrite !reverse_snoc in Hal.
  inversion Hal as [|x l' r' n' H1|x y l' r' n' H1|x l' r' n' H1|x l' r' n' H1]; subst.
  - left. split; [done|]. by apply aligned_unrev.
  - right. eexists. split; [done|]. left. by apply aligned_unrev.
  - right. eexists. split; [done|]. right. left. apply aligned_unrev. by rewrite reverse_snoc.
  - right. eexists. split; [done|]. right. right. apply aligned_unrev. by rewrite reverse_snoc.
Qed.

Lemma cheapest_step l r a b above written diagonal :
  cheapest l (r ++ [b]) above -> cheapest (l ++ [a]) r written -> cheapest l r diagonal ->
  cheapest (l ++ [a]) (r ++ [b])
    (Nat.min (Nat.min (above + 1) (written + 1)) (diagonal + if bool_decide (a = b) then 0 else 1)).
Proof.
  intros [Ha Hla] [Hw Hlw] [Hd Hld].
  assert (H1 : aligned (l ++ [a]) (r ++ [b]) (above + 1)).
  { rewrite <- (app_nil_r (r ++ [b])). by apply aligned_app; auto. }
  assert (H2 : aligned (l ++ [a]) (r ++ [b]) (written + 1)).
  { rewrite <- (app_nil_r (l ++ [a])). by apply aligned_app; auto. }
  assert (H3 : aligned (l ++ [a]) (r ++ [b]) (diagonal + if bool_decide (a = b) then 0 else 1)).
  { apply aligned_app; [done|]. case_bool_decide as Hab; [subst; auto|auto]. }
  split.
  - destruct (Nat.min_dec (Nat.min (above + 1) (written + 1)) (diagonal + if bool_decide (a = b) then 0 else 1))
      as [-> | ->]; [|done]. by destruct (Nat.min_dec (above + 1) (written + 1)) as [-> | ->].
  - intros m [[<- Hm]|(k & -> & [Hm|[Hm|Hm]])]%aligned_last.
    + rewrite bool_decide_eq_true_2 by done. specialize (Hld m Hm). lia.
    + specialize (Hld k Hm). case_bool_decide; lia.
    + specialize (Hla k Hm). lia.
    + specialize (Hlw k Hm). lia.
Qed.
End Distance.

(** *** The rows of the code *)

Abbreviation chars := (list Ascii.ascii).

(** [cells] are the distances from [p] to [q] followed by more and more of [rs]. *)
Definition row_from (p q rs : chars) (cells : list nat) : Prop :=
  length cells = length rs /\
  forall j n, cells !! j = Some n -> cheapest p (q ++ take (S j) rs) n.

Lemma row_from_cons p q r rs cell cells :
  row_from p q (r :: rs) (cell :: cells) <-> cheapest p (q ++ [r]) cell /\ row_from p (q ++ [r]) rs cells.
Proof.
  split.
  - intros [Hlen Hall]. split; [by apply (Hall 0)|]. split; [simpl in Hlen; lia|].
    intros j n Hn. specialize (Hall (S j) n Hn). by rewrite <- app_assoc.
  - intros [Hc [Hlen Hall]]. split; [simpl; lia|]. intros [|j] n Hn; [by injection Hn as <-|].
    specialize (Hall j n Hn). by rewrite <- app_assoc in Hall.
Qed.

Lemma edit_row_cheapest p l rs q diagonal written previous :
  cheapest p q diagonal -> cheapest (p ++ [l]) q written -> row_from p q rs previous ->
  row_from (p ++ [l]) q rs (edit_row l rs diagonal written previous).
Proof.
  revert q diagonal written previous. induction rs as [|r rs IH]; intros q diagonal written previous Hd Hw Hp.
  { split; [done|]. by intros j n Hn. }
  destruct previous as [|above previous]; [by destruct Hp|]. apply row_from_cons in Hp as [Ha Hp].
  simpl. apply row_from_cons. split; [by apply cheapest_step|]. apply IH; [done|by apply cheapest_step|done].
Qed.

Definition row (p rs : chars) (cells : list nat) : Prop :=
  exists first rest, cells = first :: rest /\ cheapest p [] first /\ row_from p [] rs rest.

Lemma edit_rows_cheapest p ls rs previous :
  row p rs previous -> row (p ++ ls) rs (edit_rows (S (length p)) ls rs previous).
Proof.
  revert p previous. induction ls as [|l ls IH]; intros p previous Hrow; simpl.
  { rewrite app_nil_r. by destruct previous. }
  destruct Hrow as (first & rest & -> & Hf & Hr).
  replace (S (S (length p))) with (S (length (p ++ [l]))) by (rewrite length_app; simpl; lia).
  replace (p ++ l :: ls) with ((p ++ [l]) ++ ls) by by rewrite <- app_assoc. apply IH.
  assert (Hfirst : cheapest (p ++ [l]) [] (S (length p))).
  { replace (S (length p)) with (length (p ++ [l])) by (rewrite length_app; simpl; lia). apply cheapest_nil_r. }
  eexists _, _. split; [done|]. split; [done|]. by apply edit_row_cheapest.
Qed.

Lemma edit_distance_cheapest ls rs : cheapest ls rs (edit_distance ls rs).
Proof.
  assert (Hrow : row [] rs (seq 0 (S (length rs)))).
  { exists 0, (seq 1 (length rs)). split; [done|]. split; [apply cheapest_nil_l|]. split; [apply length_seq|].
    intros j n Hn. apply lookup_seq in Hn as [-> Hj]. simpl.
    replace (S j) with (length (take (S j) rs)) at 2 by (rewrite length_take; lia). apply cheapest_nil_l. }
  apply (edit_rows_cheapest [] ls) in Hrow. cbn [app length] in Hrow. unfold edit_distance.
  destruct Hrow as (first & rest & -> & Hf & [Hlen Hall]).
  destruct (length rs) as [|j] eqn:Hl; [by apply nil_length_inv in Hl as ->|].
  destruct (lookup_lt_is_Some_2 rest j) as [n Hn]; [lia|]. simpl. rewrite Hn. simpl.
  specialize (Hall j n Hn). simpl in Hall. by rewrite take_ge in Hall by lia.
Qed.

(** C32. The distance of two model names is the least number of single characters
    to insert, delete or replace that turns one into the other: that many edits
    do, and no fewer. *)
Theorem editDistance_least left right :
  let edits n := nsteps edit n (String.list_ascii_of_string left) (String.list_ascii_of_string right) in
  edits (editDistance left right) /\ forall n, edits n -> editDistance left right <= n.
Proof.
  simpl. destruct (edit_distance_cheapest (String.list_ascii_of_string left) (String.list_ascii_of_string right))
    as [Hal Hleast]. split; [by apply aligned_edits|].
  intros n (m & Hm & Hle)%edits_aligned. specialize (Hleast m Hm). unfold editDistance. lia.
Qed.
