(* ===== verification/Schema.v ===== *)
(** * The relational schema of the Eveland control plane

    [packages/db/src/schema.ts]: one record per table the modelled stores read
    or write, one inductive type per text column that a check constraint or
    the TypeScript contracts ([packages/core/src/contracts.ts]) restrict to a
    list of values, and the database as the record of its tables. *)

From S2P Require Import Prelude.

(** A [timestamp with time zone], in milliseconds since the epoch. *)
Abbreviation time := Z.

(** ** Column enumerations *)

Module ImportKind.
Inductive import_kind := git | zip.
#[global] Instance import_kind_eq : EqDecision import_kind.
Proof. solve_decision. Defined.
End ImportKind.
Abbreviation import_kind := ImportKind.import_kind.

Module ProjectStatus.
Inductive project_status :=
  import_pending | imported | invalid | build_pending | deployed | failed.
#[global] Instance project_status_eq : EqDecision project_status.
Proof. solve_decision. Defined.
End ProjectStatus.
Abbreviation project_status := ProjectStatus.project_status.

Module DeletionStatus.
Inductive deletion_status := deleting | failed.
#[global] Instance deletion_status_eq : EqDecision deletion_status.
Proof. solve_decision. Defined.
End DeletionStatus.
Abbreviation deletion_status := DeletionStatus.deletion_status.

Module DeploymentStatus.
Inductive deployment_status :=
  not_deployed | building | starting | running | draining | stopped
  | archiving | archived | failed.
#[global] Instance deployment_status_eq : EqDecision deployment_status.
Proof. solve_decision. Defined.
End DeploymentStatus.
Abbreviation deployment_status := DeploymentStatus.deployment_status.

Module SessionStatus.
Inductive session_status := running | waiting | completed | failed | waiting_approval.
#[global] Instance session_status_eq : EqDecision session_status.
Proof. solve_decision. Defined.
End SessionStatus.
Abbreviation session_status := SessionStatus.session_status.

Module SessionTrigger.
Inductive session_trigger :=
  playground | cron | manual | webhook | channel | api | direct_http.
#[global] Instance session_trigger_eq : EqDecision session_trigger.
Proof. solve_decision. Defined.
End SessionTrigger.
Abbreviation session_trigger := SessionTrigger.session_trigger.

Module BindingTrigger.
Inductive binding_trigger := api | playground.
#[global] Instance binding_trigger_eq : EqDecision binding_trigger.
Proof. solve_decision. Defined.
End BindingTrigger.
Abbreviation binding_trigger := BindingTrigger.binding_trigger.

Module RunTrigger.
Inductive run_trigger := cron | manual.
#[global] Instance run_trigger_eq : EqDecision run_trigger.
Proof. solve_decision. Defined.
End RunTrigger.
Abbreviation run_trigger := RunTrigger.run_trigger.

Module RunStatus.
Inductive schedule_run_status :=
  queued | activating | dispatching | running | succeeded | failed
  | dispatch_unknown | skipped.
#[global] Instance schedule_run_status_eq : EqDecision schedule_run_status.
Proof. solve_decision. Defined.
End RunStatus.
Abbreviation schedule_run_status := RunStatus.schedule_run_status.

Module ExecutionStatus.
Inductive execution_status := running | succeeded | failed | parked.
#[global] Instance execution_status_eq : EqDecision execution_status.
Proof. solve_decision. Defined.
End ExecutionStatus.
Abbreviation execution_status := ExecutionStatus.execution_status.

Module RuntimeStatus.
Inductive runtime_status := starting | ready | draining | stopped | failed.
#[global] Instance runtime_status_eq : EqDecision runtime_status.
Proof. solve_decision. Defined.
End RuntimeStatus.
Abbreviation runtime_status := RuntimeStatus.runtime_status.

Module LeaseKind.
Inductive lease_kind := public_request | stream | turn | schedule_run | workflow_step.
#[global] Instance lease_kind_eq : EqDecision lease_kind.
Proof. solve_decision. Defined.
End LeaseKind.
Abbreviation lease_kind := LeaseKind.lease_kind.

Module RouteKind.
Inductive route_kind := project | deployment | alias.
#[global] Instance route_kind_eq : EqDecision route_kind.
Proof. solve_decision. Defined.
End RouteKind.
Abbreviation route_kind := RouteKind.route_kind.

Module PreflightStatus.
Inductive preflight_status := queued | running | completed | failed | consumed.
#[global] Instance preflight_status_eq : EqDecision preflight_status.
Proof. solve_decision. Defined.
End PreflightStatus.
Abbreviation preflight_status := PreflightStatus.preflight_status.

Module SecretKind.
Inductive secret_kind := variable | secret.
#[global] Instance secret_kind_eq : EqDecision secret_kind.
Proof. solve_decision. Defined.
End SecretKind.
Abbreviation secret_kind := SecretKind.secret_kind.

(** ** Tables *)

(** Table [projects] (schema.ts:358-395). *)
Module Project.
Record project_row : Type := mk {
  id : string; slug : string; teamId : string; ownerId : string; name : string;
  description : option string; importKind : import_kind;
  gitUrl : option string; status : project_status;
  deploymentStatus : deployment_status;
  deletionStatus : option deletion_status; deletionError : option string;
  sourceRevisionId : option string; releaseId : option string;
  deploymentId : option string; latestSessionStatus : option session_status;
  createdAt : time; updatedAt : time
}.
#[global] Instance eta_project_row : Eta project_row := fun r =>
  mk (id r) (slug r) (teamId r) (ownerId r) (name r) (description r)
     (importKind r) (gitUrl r) (status r) (deploymentStatus r) (deletionStatus
     r) (deletionError r) (sourceRevisionId r) (releaseId r) (deploymentId r)
     (latestSessionStatus r) (createdAt r) (updatedAt r).
End Project.

(** Table [jobs] (schema.ts:859-894); [type] and [status] are unconstrained text,
    which is why a claim can meet a row it cannot decode. *)
Module Job.
Record job_row : Type := mk {
  id : string; projectId : string; type : string; status : string;
  payload : json; attempts : Z; lastError : option string;
  lockedAt : option time; sequence : Z; createdAt : time; updatedAt : time
}.
#[global] Instance eta_job_row : Eta job_row := fun r =>
  mk (id r) (projectId r) (type r) (status r) (payload r) (attempts r)
     (lastError r) (lockedAt r) (sequence r) (createdAt r) (updatedAt r).
End Job.

(** Table [source_revisions] (schema.ts:911-939). *)
Module SourceRevision.
Record source_revision_row : Type := mk {
  id : string; projectId : string; kind : string; commitSha : option string;
  origin : option string; baseCommitSha : option string; dirty : option bool;
  uploadedBy : option string; sourcePath : string; summary : json;
  envVars : json; createdAt : time
}.
#[global] Instance eta_source_revision_row : Eta source_revision_row := fun r =>
  mk (id r) (projectId r) (kind r) (commitSha r) (origin r) (baseCommitSha r)
     (dirty r) (uploadedBy r) (sourcePath r) (summary r) (envVars r) (createdAt
     r).
End SourceRevision.

(** Table [source_files] (schema.ts:1316-1328). *)
Module SourceFile.
Record source_file_row : Type := mk {
  id : string; revisionId : string; path : string; content : string; size : Z
}.
#[global] Instance eta_source_file_row : Eta source_file_row := fun r =>
  mk (id r) (revisionId r) (path r) (content r) (size r).
End SourceFile.

(** Table [schedules] (schema.ts:896-909). *)
Module Schedule.
Record schedule_row : Type := mk {
  id : string; projectId : string; name : string; kind : string;
  cron : option string; timezone : option string; enabled : bool;
  executable : bool; sourcePath : string; nextRunAt : option time
}.
#[global] Instance eta_schedule_row : Eta schedule_row := fun r =>
  mk (id r) (projectId r) (name r) (kind r) (cron r) (timezone r) (enabled r)
     (executable r) (sourcePath r) (nextRunAt r).
End Schedule.

(** Table [releases] (schema.ts:941-978). *)
Module Release.
Record release_row : Type := mk {
  id : string; projectId : string; sourceRevisionId : string;
  imageTag : string; observerContract : option Z; summary : option json;
  workflowWorldKind : string; workflowWorldPackage : option string;
  workflowWorldVersion : option string; workflowStorageSpec : option Z;
  workflowDispatchProtocol : option Z; workflowEnqueueCapability : string;
  modelGatewayProvider : bool; createdAt : time
}.
#[global] Instance eta_release_row : Eta release_row := fun r =>
  mk (id r) (projectId r) (sourceRevisionId r) (imageTag r) (observerContract
     r) (summary r) (workflowWorldKind r) (workflowWorldPackage r)
     (workflowWorldVersion r) (workflowStorageSpec r) (workflowDispatchProtocol
     r) (workflowEnqueueCapability r) (modelGatewayProvider r) (createdAt r).
End Release.

(** Table [deployments] (schema.ts:980-1005). *)
Module Deployment.
Record deployment_row : Type := mk {
  id : string; deploymentKey : string; projectId : string; releaseId : string;
  containerName : string; internalPort : Z; hostPort : Z;
  status : deployment_status; runtimeKind : string; createdAt : time;
  updatedAt : time
}.
#[global] Instance eta_deployment_row : Eta deployment_row := fun r =>
  mk (id r) (deploymentKey r) (projectId r) (releaseId r) (containerName r)
     (internalPort r) (hostPort r) (status r) (runtimeKind r) (createdAt r)
     (updatedAt r).
End Deployment.

(** Table [project_schedules] (schema.ts:1007-1021). *)
Module ProjectSchedule.
Record project_schedule_row : Type := mk {
  id : string; projectId : string; key : string; enabled : bool;
  nextRunAt : option time; createdAt : time; updatedAt : time
}.
#[global] Instance eta_project_schedule_row : Eta project_schedule_row := fun r =>
  mk (id r) (projectId r) (key r) (enabled r) (nextRunAt r) (createdAt r)
     (updatedAt r).
End ProjectSchedule.

(** Table [schedule_versions] (schema.ts:1023-1046). *)
Module ScheduleVersion.
Record schedule_version_row : Type := mk {
  id : string; scheduleId : string; sourceRevisionId : string; kind : string;
  cron : string; sourcePath : string; definitionHash : string; createdAt : time
}.
#[global] Instance eta_schedule_version_row : Eta schedule_version_row := fun r =>
  mk (id r) (scheduleId r) (sourceRevisionId r) (kind r) (cron r) (sourcePath
     r) (definitionHash r) (createdAt r).
End ScheduleVersion.

(** Table [project_scheduler_targets] (schema.ts:1048-1056), keyed by project. *)
Module SchedulerTarget.
Record scheduler_target_row : Type := mk {
  projectId : string; deploymentId : string; updatedAt : time
}.
#[global] Instance eta_scheduler_target_row : Eta scheduler_target_row := fun r =>
  mk (projectId r) (deploymentId r) (updatedAt r).
End SchedulerTarget.

(** Table [schedule_runs] (schema.ts:1058-1101). *)
Module ScheduleRun.
Record schedule_run_row : Type := mk {
  id : string; scheduleId : string; scheduleVersionId : string;
  releaseId : string; deploymentId : string; dueAt : time;
  trigger : run_trigger; status : schedule_run_status; attempt : Z;
  missedTicks : Z; error : option string; acknowledgedAt : option time;
  startedAt : option time; completedAt : option time; createdAt : time;
  updatedAt : time
}.
#[global] Instance eta_schedule_run_row : Eta schedule_run_row := fun r =>
  mk (id r) (scheduleId r) (scheduleVersionId r) (releaseId r) (deploymentId r)
     (dueAt r) (trigger r) (status r) (attempt r) (missedTicks r) (error r)
     (acknowledgedAt r) (startedAt r) (completedAt r) (createdAt r) (updatedAt
     r).
End ScheduleRun.

(** Table [runtime_instances] (schema.ts:1103-1138). *)
Module RuntimeInstance.
Record runtime_instance_row : Type := mk {
  id : string; deploymentId : string; generation : Z; status : runtime_status;
  endpointHost : option string; endpointPort : option Z;
  startedAt : option time; readyAt : option time; stoppedAt : option time;
  lastError : option string
}.
#[global] Instance eta_runtime_instance_row : Eta runtime_instance_row := fun r =>
  mk (id r) (deploymentId r) (generation r) (status r) (endpointHost r)
     (endpointPort r) (startedAt r) (readyAt r) (stoppedAt r) (lastError r).
End RuntimeInstance.

(** Table [activation_leases] (schema.ts:1194-1221). *)
Module ActivationLease.
Record activation_lease_row : Type := mk {
  id : string; deploymentId : string; runtimeInstanceId : option string;
  kind : lease_kind; ownerId : string; expiresAt : time;
  releasedAt : option time
}.
#[global] Instance eta_activation_lease_row : Eta activation_lease_row := fun r =>
  mk (id r) (deploymentId r) (runtimeInstanceId r) (kind r) (ownerId r)
     (expiresAt r) (releasedAt r).
End ActivationLease.

(** Table [agent_routes] (schema.ts:1223-1241). *)
Module AgentRoute.
Record agent_route_row : Type := mk {
  id : string; projectId : string; hostname : string; kind : route_kind;
  enabled : bool; policyRevision : Z; createdAt : time; updatedAt : time
}.
#[global] Instance eta_agent_route_row : Eta agent_route_row := fun r =>
  mk (id r) (projectId r) (hostname r) (kind r) (enabled r) (policyRevision r)
     (createdAt r) (updatedAt r).
End AgentRoute.

(** Table [route_targets] (schema.ts:1243-1259). *)
Module RouteTarget.
Record route_target_row : Type := mk {
  routeId : string; deploymentId : string; weight : Z;
  variantName : option string
}.
#[global] Instance eta_route_target_row : Eta route_target_row := fun r =>
  mk (routeId r) (deploymentId r) (weight r) (variantName r).
End RouteTarget.

(** Table [session_bindings] (schema.ts:1261-1288). *)
Module SessionBinding.
Record session_binding_row : Type := mk {
  id : string; projectId : string; eveSessionId : string; routeId : string;
  deploymentId : string; trigger : binding_trigger;
  variantName : option string; experimentId : option string;
  requestId : string; remoteIp : option string;
  affinityFingerprint : option string; affinitySource : option string;
  createdAt : time; updatedAt : time
}.
#[global] Instance eta_session_binding_row : Eta session_binding_row := fun r =>
  mk (id r) (projectId r) (eveSessionId r) (routeId r) (deploymentId r)
     (trigger r) (variantName r) (experimentId r) (requestId r) (remoteIp r)
     (affinityFingerprint r) (affinitySource r) (createdAt r) (updatedAt r).
End SessionBinding.

(** Table [operation_bindings] (schema.ts:1290-1314). *)
Module OperationBinding.
Record operation_binding_row : Type := mk {
  id : string; projectId : string; operationKey : string; routeId : string;
  deploymentId : string; trigger : binding_trigger;
  variantName : option string; experimentId : option string; createdAt : time;
  updatedAt : time
}.
#[global] Instance eta_operation_binding_row : Eta operation_binding_row := fun r =>
  mk (id r) (projectId r) (operationKey r) (routeId r) (deploymentId r)
     (trigger r) (variantName r) (experimentId r) (createdAt r) (updatedAt r).
End OperationBinding.

(** Table [sessions] (schema.ts:1330-1372). *)
Module Session.
Record session_row : Type := mk {
  id : string; projectId : string; deploymentId : option string;
  eveSessionId : option string; rootNodeId : option string;
  routeId : option string; experimentId : option string;
  variantName : option string; trigger : session_trigger;
  scheduleId : option string; scheduleRunId : option string;
  status : session_status; error : option string; startedAt : time;
  completedAt : option time; inputTokens : Z; outputTokens : Z;
  cacheReadTokens : Z; cacheWriteTokens : Z; costUsd : option jsnum;
  usageReportedSteps : Z; usageMissingSteps : Z
}.
#[global] Instance eta_session_row : Eta session_row := fun r =>
  mk (id r) (projectId r) (deploymentId r) (eveSessionId r) (rootNodeId r)
     (routeId r) (experimentId r) (variantName r) (trigger r) (scheduleId r)
     (scheduleRunId r) (status r) (error r) (startedAt r) (completedAt r)
     (inputTokens r) (outputTokens r) (cacheReadTokens r) (cacheWriteTokens r)
     (costUsd r) (usageReportedSteps r) (usageMissingSteps r).
End Session.

(** Table [schedule_run_sessions] (schema.ts:1374-1397), keyed by run and session. *)
Module ScheduleRunSession.
Record schedule_run_session_row : Type := mk {
  scheduleRunId : string; sessionId : string; status : execution_status;
  lastObservedAt : option time; completedAt : option time;
  error : option string; createdAt : time
}.
#[global] Instance eta_schedule_run_session_row : Eta schedule_run_session_row := fun r =>
  mk (scheduleRunId r) (sessionId r) (status r) (lastObservedAt r) (completedAt
     r) (error r) (createdAt r).
End ScheduleRunSession.

(** Table [session_nodes] (schema.ts:1399-1446). *)
Module SessionNode.
Record session_node_row : Type := mk {
  id : string; rootSessionId : string; projectId : string;
  eveSessionId : string; parentNodeId : option string;
  parentEveSessionId : option string; startedDeploymentId : string;
  lastObservedDeploymentId : string; startedRuntimeInstanceId : option string;
  lastObservedRuntimeInstanceId : option string; agentId : option string;
  agentName : option string; nodeId : option string;
  channelKind : option string; modelId : option string;
  observedModelId : option string; eveVersion : option string;
  remoteUrl : option string; resolutionStatus : string; status : string;
  createdAt : time; updatedAt : time
}.
#[global] Instance eta_session_node_row : Eta session_node_row := fun r =>
  mk (id r) (rootSessionId r) (projectId r) (eveSessionId r) (parentNodeId r)
     (parentEveSessionId r) (startedDeploymentId r) (lastObservedDeploymentId
     r) (startedRuntimeInstanceId r) (lastObservedRuntimeInstanceId r) (agentId
     r) (agentName r) (nodeId r) (channelKind r) (modelId r) (observedModelId
     r) (eveVersion r) (remoteUrl r) (resolutionStatus r) (status r) (createdAt
     r) (updatedAt r).
End SessionNode.

(** Table [model_usage_events] (schema.ts:1448-1498). *)
Module ModelUsage.
Record model_usage_row : Type := mk {
  id : string; sessionId : string; sessionNodeId : option string;
  eveSessionId : string; agentId : option string; agentName : option string;
  turnId : string; stepIndex : option Z; runKey : option string;
  modelId : option string; finishReason : option string;
  inputTokens : option Z; outputTokens : option Z; cacheReadTokens : option Z;
  cacheWriteTokens : option Z; costUsd : option jsnum; usageReported : bool;
  createdAt : time
}.
#[global] Instance eta_model_usage_row : Eta model_usage_row := fun r =>
  mk (id r) (sessionId r) (sessionNodeId r) (eveSessionId r) (agentId r)
     (agentName r) (turnId r) (stepIndex r) (runKey r) (modelId r)
     (finishReason r) (inputTokens r) (outputTokens r) (cacheReadTokens r)
     (cacheWriteTokens r) (costUsd r) (usageReported r) (createdAt r).
End ModelUsage.

(** Table [session_events] (schema.ts:1500-1537). *)
Module SessionEvent.
Record session_event_row : Type := mk {
  id : string; sessionId : string; sessionNodeId : option string;
  telemetryEventId : option string; eventFingerprint : option string;
  observedDeploymentId : option string;
  observedRuntimeInstanceId : option string; sourceSequence : option Z;
  index : Z; type : string; payload : json; eventAt : time; createdAt : time
}.
#[global] Instance eta_session_event_row : Eta session_event_row := fun r =>
  mk (id r) (sessionId r) (sessionNodeId r) (telemetryEventId r)
     (eventFingerprint r) (observedDeploymentId r) (observedRuntimeInstanceId
     r) (sourceSequence r) (index r) (type r) (payload r) (eventAt r)
     (createdAt r).
End SessionEvent.

(** Table [logs] (schema.ts:1539-1565). *)
Module Log.
Record log_row : Type := mk {
  id : string; projectId : string; deploymentId : option string; type : string;
  line : string; seq : Z; createdAt : time
}.
#[global] Instance eta_log_row : Eta log_row := fun r =>
  mk (id r) (projectId r) (deploymentId r) (type r) (line r) (seq r) (createdAt
     r).
End Log.

(** Table [users] (schema.ts:19-32). *)
Module User.
Record user_row : Type := mk {
  id : string; email : string; emailVerified : bool; name : string;
  image : option string; displayTimezone : option string; role : option string;
  banned : option bool; banReason : option string; banExpires : option time;
  createdAt : time; updatedAt : time
}.
#[global] Instance eta_user_row : Eta user_row := fun r =>
  mk (id r) (email r) (emailVerified r) (name r) (image r) (displayTimezone r)
     (role r) (banned r) (banReason r) (banExpires r) (createdAt r) (updatedAt
     r).
End User.

(** Table [teams] (schema.ts:34-41). *)
Module Team.
Record team_row : Type := mk {
  id : string; name : string; slug : string; logo : option string;
  metadata : option string; createdAt : time
}.
#[global] Instance eta_team_row : Eta team_row := fun r =>
  mk (id r) (name r) (slug r) (logo r) (metadata r) (createdAt r).
End Team.

(** Table [git_credentials] (schema.ts:397-413). *)
Module GitCredential.
Record git_credential_row : Type := mk {
  id : string; userId : string; host : string; encryptedToken : string;
  createdAt : time; updatedAt : time
}.
#[global] Instance eta_git_credential_row : Eta git_credential_row := fun r =>
  mk (id r) (userId r) (host r) (encryptedToken r) (createdAt r) (updatedAt r).
End GitCredential.

(** Table [source_preflights] (schema.ts:415-448). *)
Module SourcePreflight.
Record source_preflight_row : Type := mk {
  id : string; userId : string; kind : import_kind; gitUrl : option string;
  sourcePath : option string; commitSha : option string;
  status : preflight_status; summary : option json; error : option string;
  attempts : Z; lockedAt : option time; credentialHost : option string;
  encryptedToken : option string; persistCredential : bool; expiresAt : time;
  createdAt : time; updatedAt : time
}.
#[global] Instance eta_source_preflight_row : Eta source_preflight_row := fun r =>
  mk (id r) (userId r) (kind r) (gitUrl r) (sourcePath r) (commitSha r) (status
     r) (summary r) (error r) (attempts r) (lockedAt r) (credentialHost r)
     (encryptedToken r) (persistCredential r) (expiresAt r) (createdAt r)
     (updatedAt r).
End SourcePreflight.

(** Table [secrets] (schema.ts:732-749). *)
Module Secret.
Record secret_row : Type := mk {
  id : string; projectId : string; key : string; kind : secret_kind;
  encryptedValue : string; createdAt : time; updatedAt : time
}.
#[global] Instance eta_secret_row : Eta secret_row := fun r =>
  mk (id r) (projectId r) (key r) (kind r) (encryptedValue r) (createdAt r)
     (updatedAt r).
End Secret.

(** ** The database

    Each table by its primary key: the [id] column, the project for
    [project_scheduler_targets], and the pair of columns of the primary key
    (or of the only unique index) for [schedule_run_sessions] and
    [route_targets]. *)
Record database : Type := mk_database {
  projects : gmap string Project.project_row;
  jobs : gmap string Job.job_row;
  sourceRevisions : gmap string SourceRevision.source_revision_row;
  sourceFiles : gmap string SourceFile.source_file_row;
  schedules : gmap string Schedule.schedule_row;
  releases : gmap string Release.release_row;
  deployments : gmap string Deployment.deployment_row;
  projectSchedules : gmap string ProjectSchedule.project_schedule_row;
  scheduleVersions : gmap string ScheduleVersion.schedule_version_row;
  projectSchedulerTargets : gmap string SchedulerTarget.scheduler_target_row;
  scheduleRuns : gmap string ScheduleRun.schedule_run_row;
  runtimeInstances : gmap string RuntimeInstance.runtime_instance_row;
  activationLeases : gmap string ActivationLease.activation_lease_row;
  agentRoutes : gmap string AgentRoute.agent_route_row;
  routeTargets : gmap (string * string) RouteTarget.route_target_row;
  sessionBindings : gmap string SessionBinding.session_binding_row;
  operationBindings : gmap string OperationBinding.operation_binding_row;
  sessions : gmap string Session.session_row;
  scheduleRunSessions : gmap (string * string) ScheduleRunSession.schedule_run_session_row;
  sessionNodes : gmap string SessionNode.session_node_row;
  modelUsageEvents : gmap string ModelUsage.model_usage_row;
  sessionEvents : gmap string SessionEvent.session_event_row;
  logs : gmap string Log.log_row;
  users : gmap string User.user_row;
  teams : gmap string Team.team_row;
  gitCredentials : gmap string GitCredential.git_credential_row;
  sourcePreflights : gmap string SourcePreflight.source_preflight_row;
  secrets : gmap string Secret.secret_row
}.
#[global] Instance eta_database : Eta database := fun d =>
  mk_database (projects d) (jobs d) (sourceRevisions d) (sourceFiles d) (schedules d)
     (releases d) (deployments d) (projectSchedules d) (scheduleVersions d)
     (projectSchedulerTargets d) (scheduleRuns d) (runtimeInstances d)
     (activationLeases d) (agentRoutes d) (routeTargets d) (sessionBindings
     d) (operationBindings d) (sessions d) (scheduleRunSessions d)
     (sessionNodes d) (modelUsageEvents d) (sessionEvents d) (logs d)
     (users d) (teams d) (gitCredentials d) (sourcePreflights d) (secrets d).

Definition empty_database : database :=
  mk_database ∅ ∅ ∅ ∅ ∅ ∅ ∅ ∅ ∅ ∅ ∅ ∅ ∅ ∅ ∅ ∅ ∅ ∅ ∅ ∅ ∅ ∅ ∅ ∅ ∅ ∅ ∅ ∅.
