(* ===== verification/Store.v ===== *)
(** * Statements and transactions over the schema

    The SQL the stores of [packages/db/src] issue through drizzle, as state
    transformers of the [database] record: select, insert (plain, [on conflict
    do nothing], [on conflict do update]), update and delete, each checking
    the unique indexes the schema declares, and [db.transaction], which
    restores the tables when its body throws.

    A query without ORDER BY returns the rows in the order of the underlying
    finite map, an arbitrary order the theorems do not depend on.  Foreign
    keys and check constraints are not modelled, nor is the range of the
    integer columns; each transaction is one atomic step, the serial execution
    its row locks ([for update]) and unique indexes are there to enforce. *)

From S2P Require Import Prelude Schema.

(** ** Third-party code the stores call *)

(** A zod schema, as far as the source uses the combinators; objects are
    [.passthrough()]. *)
Inductive zod :=
  | ZString
  | ZBoolean
  | ZEnum (values : list string)
  | ZOptional (z : zod)
  | ZNullable (z : zod)
  | ZArray (z : zod)
  | ZObject (shape : list (string * zod)).

(** [nanoid]: the suffix of the n-th [createId] of the process, and
    [nanoid_key] the suffix of a deployment key drawn as the n-th.
    [collation_leb]: the order Postgres gives to text under its collation.
    [jsonb_text]: the text [->>] renders for a JSON value that is neither a
    string nor null.  [zod_parse]: the parsed value, or [None] when zod
    throws.  [cron_parse_error]: the message of the error cron-parser's
    [parse] throws on a schedule in UTC, [None] when it parses.  [cron_next]:
    [parse(cron, { currentDate, tz: "UTC" }).next()]. *)
Class Platform := {
  nanoid : nat -> string;
  nanoid_key : nat -> string;
  collation_leb : string -> string -> bool;
  jsonb_text : json -> string;
  zod_parse : zod -> json -> option json;
  cron_parse_error : string -> option string;
  cron_next : string -> time -> result time;
}.

(** ** The state of a statement

    The tables, and what a rollback does not restore: the identifiers drawn,
    the identity sequences, and the clock behind [new Date()] and
    [defaultNow()]. *)
Record store : Type := mk_store {
  st_db : database;
  st_draws : nat;
  st_job_sequence : Z;
  st_log_sequence : Z;
  st_clock : time
}.
#[global] Instance eta_store : Eta store := fun s =>
  mk_store (st_db s) (st_draws s) (st_job_sequence s) (st_log_sequence s) (st_clock s).

Definition Tx (A : Type) : Type := M store A.

Definition read {A} (q : database -> A) : Tx A := gets (fun s => q (st_db s)).

Definition write (f : database -> database) : Tx unit :=
  modify (fun s => s <| st_db ::= f |>).

(** [new Date()], and a [now = new Date()] parameter. *)
Definition clock : Tx time := gets st_clock.

Definition now_or (now : option time) : Tx time :=
  match now with Some t => ret t | None => clock end.

(** [createId(prefix)] of [packages/core/src/ids.ts]. *)
Definition createId `{Platform} (prefix : string) : Tx string :=
  fun s => (Ok (prefix +:+ "_" +:+ nanoid (st_draws s)), s <| st_draws ::= S |>).

(** [db.transaction(async (tx) => ...)]: a throw rolls the tables back. *)
Definition transaction {A} (m : Tx A) : Tx A :=
  fun s => match m s with
           | (Ok a, s') => (Ok a, s')
           | (Err e, s') => (Err e, s' <| st_db := st_db s |>)
           end.

(** The instant [now_or] reads. *)
Definition now_of (now : option time) (s : store) : time :=
  match now with Some t => t | None => st_clock s end.

Lemma now_or_run now s : now_or now s = (Ok (now_of now s), s).
Proof. by destruct now. Qed.

(** ** Tables and unique indexes *)

(** A unique index by its indexed columns: [None] for a row outside a partial
    index's predicate or with a null column, which never conflicts. *)
Record unique_index (R : Type) : Type := UniqueIndex {
  ui_name : string;
  ui_clash : R -> R -> bool
}.
Arguments UniqueIndex {_} _ _.
Arguments ui_name {_} _.
Arguments ui_clash {_} _ _ _.

Definition same_key {R C} `{EqDecision C} (key : R -> option C) (r1 r2 : R) : bool :=
  match key r1, key r2 with
  | Some c1, Some c2 => bool_decide (c1 = c2)
  | _, _ => false
  end.

Definition index_on {R C} `{EqDecision C} (name : string) (key : R -> option C)
    : unique_index R :=
  UniqueIndex name (same_key key).

Record table (K R : Type) `{Countable K} : Type := Table {
  tbl : database -> gmap K R;
  tbl_set : (gmap K R -> gmap K R) -> database -> database;
  tbl_id : R -> K;
  tbl_pkey : string;
  tbl_uniques : list (unique_index R)
}.
Arguments Table {_ _ _ _} _ _ _ _ _.
Arguments tbl {_ _ _ _} _ _.
Arguments tbl_set {_ _ _ _} _ _ _.
Arguments tbl_id {_ _ _ _} _ _.
Arguments tbl_pkey {_ _ _ _} _.
Arguments tbl_uniques {_ _ _ _} _.

Section Statements.
Context {K R : Type} `{Countable K}.
Implicit Types (t : gmap K R) (T : table K R).

Definition rows t : list R := (map_to_list t).*2.

(** [select().from(t).where(p)] and its [.limit(1)]. *)
Definition select_where (p : R -> bool) t : list R :=
  base.filter (fun r => p r = true) (rows t).

Definition find_where (p : R -> bool) t : option R := head (select_where p t).

(** Does another row of the table hold the index entry of [r]? *)
Definition clashes (u : unique_index R) t (k : K) (r : R) : bool :=
  existsb (fun kr => negb (bool_decide (kr.1 = k)) && ui_clash u r kr.2) (map_to_list t).

Definition violation (us : list (unique_index R)) t (k : K) (r : R) : option string :=
  ui_name <$> find (fun u => clashes u t k r) us.

Definition insert_row T (r : R) : Tx R :=
  t <- read (tbl T) ;;
  throw_if (bool_decide (is_Some (t !! tbl_id T r))) (UniqueViolation (tbl_pkey T)) ;;
  match violation (tbl_uniques T) t (tbl_id T r) r with
  | Some name => throw (UniqueViolation name)
  | None => write (tbl_set T (insert (tbl_id T r) r)) ;; ret r
  end.

(** [onConflictDoNothing({ target })]: [None] when the target index holds the
    row's entry already. *)
Definition insert_or_ignore T (target : unique_index R) (r : R) : Tx (option R) :=
  t <- read (tbl T) ;;
  if clashes target t (tbl_id T r) r then ret None
  else r' <- insert_row T r ;; ret (Some r').

(** [onConflictDoNothing()] without a target: any unique index. *)
Definition insert_unless_conflict T (r : R) : Tx (option R) :=
  t <- read (tbl T) ;;
  if bool_decide (is_Some (t !! tbl_id T r))
     || bool_decide (is_Some (violation (tbl_uniques T) t (tbl_id T r) r))
  then ret None
  else r' <- insert_row T r ;; ret (Some r').

(** [where(eq(id, k) and p).set(f).returning()] *)
Definition update_key T (k : K) (p : R -> bool) (f : R -> R) : Tx (option R) :=
  t <- read (tbl T) ;;
  match t !! k with
  | Some r =>
      if p r then
        match violation (tbl_uniques T) t k (f r) with
        | Some name => throw (UniqueViolation name)
        | None => write (tbl_set T (insert k (f r))) ;; ret (Some (f r))
        end
      else ret None
  | None => ret None
  end.

(** [onConflictDoUpdate({ target, set })]. *)
Definition upsert T (target : R -> R -> bool) (r : R) (set : R -> R) : Tx R :=
  t <- read (tbl T) ;;
  match find_where (target r) t with
  | Some r0 =>
      o <- update_key T (tbl_id T r0) (fun _ => true) set ;;
      some_or o (Error "upsert: the conflicting row vanished")
  | None => insert_row T r
  end.

Definition update_rows (p : R -> bool) (f : R -> R) t : gmap K R :=
  (fun r => if p r then f r else r) <$> t.

(** [update(t).set(f).where(p)]: the unique indexes are checked over the rows
    the statement leaves. *)
Definition update_where T (p : R -> bool) (f : R -> R) : Tx (list R) :=
  t <- read (tbl T) ;;
  let t' := update_rows p f t in
  match list_find (fun kr => is_Some (violation (tbl_uniques T) t' kr.1 kr.2))
                  (map_to_list t') with
  | Some (_, (k, r)) =>
      throw (UniqueViolation (default "" (violation (tbl_uniques T) t' k r)))
  | None => write (tbl_set T (update_rows p f)) ;; ret (f <$> select_where p t)
  end.

Definition delete_where T (p : R -> bool) : Tx unit :=
  write (tbl_set T (base.filter (fun kr => p kr.2 = false))).
End Statements.

(** [innerJoin(t2, on)]: the pairs of rows the condition holds of. *)
Definition inner_join {A B} (on : A -> B -> bool) (l1 : list A) (l2 : list B) : list (A * B) :=
  a ← l1; b ← l2; if on a b then [(a, b)] else [].

Lemma elem_of_inner_join {A B} (on : A -> B -> bool) l1 l2 a b :
  (a, b) ∈ inner_join on l1 l2 <-> a ∈ l1 /\ b ∈ l2 /\ on a b = true.
Proof.
  unfold inner_join. rewrite list_elem_of_bind. split.
  - intros (a' & Hin & Ha). apply list_elem_of_bind in Hin as (b' & Hin & Hb).
    destruct (on a' b') eqn:Hon; [|by apply not_elem_of_nil in Hin].
    apply list_elem_of_singleton in Hin. by injection Hin as -> ->.
  - intros (Ha & Hb & Hon). exists a. split; [|done]. apply list_elem_of_bind.
    exists b. rewrite Hon. split; [by left | done].
Qed.

(** [leftJoin(t2, on)]: a row of [l1] that matches nothing is kept. *)
Definition left_join {A B} (on : A -> B -> bool) (l1 : list A) (l2 : list B)
    : list (A * option B) :=
  a ← l1;
  match base.filter (fun b => on a b = true) l2 with
  | [] => [(a, None)]
  | bs => (fun b => (a, Some b)) <$> bs
  end.

(** [Number.isInteger(limit) && limit >= 1]; a number that is not an integer
    is [None]. *)
Definition positive_limit (limit : option Z) : option nat :=
  l ← limit; if (l <? 1)%Z then None else Some (Z.to_nat l).

(** ** Facts about statements *)

(** The lens law of a table of the schema. *)
Class LawfulTable {K R} `{Countable K} (T : table K R) : Prop :=
  tbl_set_same : forall f d, tbl T (tbl_set T f d) = f (tbl T d).

Section Facts.
Context {K R : Type} `{Countable K}.
Implicit Types (t : gmap K R) (T : table K R) (r : R).

Lemma elem_of_rows r t : r ∈ rows t <-> exists k, t !! k = Some r.
Proof.
  unfold rows. rewrite list_elem_of_fmap. split.
  - intros ([k r'] & -> & Hin). exists k. by apply elem_of_map_to_list.
  - intros (k & Hk). exists (k, r). split; [done|]. by apply elem_of_map_to_list.
Qed.

Lemma elem_of_select r p t :
  r ∈ select_where p t <-> p r = true /\ exists k, t !! k = Some r.
Proof. unfold select_where. by rewrite list_elem_of_filter, elem_of_rows. Qed.

Lemma find_where_Some p t r :
  find_where p t = Some r -> p r = true /\ exists k, t !! k = Some r.
Proof. intros Hh. apply elem_of_select. by apply head_Some_elem_of in Hh. Qed.

Lemma find_where_None p t :
  find_where p t = None <-> forall k r, t !! k = Some r -> p r = false.
Proof.
  unfold find_where. rewrite head_None. split.
  - intros Hnil k r Hk. destruct (p r) eqn:Hp; [|done].
    assert (Hin : r ∈ select_where p t) by (apply elem_of_select; eauto).
    rewrite Hnil in Hin. by apply not_elem_of_nil in Hin.
  - intros Hall. destruct (select_where p t) as [|r l] eqn:Hl; [done|].
    assert (Hin : r ∈ select_where p t) by (rewrite Hl; left).
    apply elem_of_select in Hin as (Hp & k & Hk). rewrite (Hall k r Hk) in Hp. done.
Qed.

(** The rows a query sees after an insert and after a bulk update. *)
Lemma select_insert p t k r :
  t !! k = None ->
  select_where p (<[k := r]> t) ≡ₚ (if p r then [r] else []) ++ select_where p t.
Proof.
  intros Hk. unfold select_where, rows. rewrite map_to_list_insert by done.
  rewrite fmap_cons, filter_cons. simpl. destruct (p r); by case_decide.
Qed.

Lemma rows_update_rows p f t :
  rows (update_rows p f t) ≡ₚ (fun r => if p r then f r else r) <$> rows t.
Proof.
  unfold rows, update_rows. rewrite map_to_list_fmap, <- !list_fmap_compose. done.
Qed.

Lemma filter_perm (p : R -> bool) l1 l2 :
  l1 ≡ₚ l2 -> base.filter (fun r => p r = true) l1 ≡ₚ base.filter (fun r => p r = true) l2.
Proof. by intros ->. Qed.

(** A bulk update that moves the rows of [p] into the set [q], where no row
    was both. *)
Lemma select_update_into p q f t :
  (forall r, q (f r) = true) -> (forall r, p r = true -> q r = false) ->
  select_where q (update_rows p f t) ≡ₚ select_where q t ++ (f <$> select_where p t).
Proof.
  intros Hq Hpq. unfold select_where. rewrite (filter_perm q _ _ (rows_update_rows p f t)).
  induction (rows t) as [|r l IH]; [done|]. rewrite fmap_cons, !filter_cons.
  destruct (p r) eqn:Hp.
  - rewrite Hq, (Hpq r Hp). simpl. rewrite IH. by rewrite <- Permutation_middle.
  - destruct (q r); simpl; by rewrite IH.
Qed.

(** A bulk update away from a set, and one that leaves it alone. *)
Lemma select_update_away p q f t :
  (forall r, q (f r) = false) -> (forall r, q r = true -> p r = true) ->
  select_where q (update_rows p f t) = [].
Proof.
  intros Hq Hpq. apply Permutation_nil_r. unfold select_where.
  rewrite (filter_perm q _ _ (rows_update_rows p f t)).
  induction (rows t) as [|r l IH]; [done|]. rewrite fmap_cons, filter_cons.
  destruct (p r) eqn:Hp.
  - by rewrite Hq.
  - destruct (q r) eqn:Hqr; [rewrite (Hpq r Hqr) in Hp; discriminate | done].
Qed.

Lemma select_update_frame p q f t :
  (forall r, p r = true -> q r = false /\ q (f r) = false) ->
  select_where q (update_rows p f t) ≡ₚ select_where q t.
Proof.
  intros Hpq. unfold select_where. rewrite (filter_perm q _ _ (rows_update_rows p f t)).
  induction (rows t) as [|r l IH]; [done|]. rewrite fmap_cons, !filter_cons.
  destruct (p r) eqn:Hp.
  - destruct (Hpq r Hp) as [-> ->]. done.
  - destruct (q r); simpl; by rewrite IH.
Qed.

(** Counting the rows a predicate holds of. *)
Definition keys_where (p : R -> bool) t : list K :=
  (base.filter (fun kr : K * R => p kr.2 = true) (map_to_list t)).*1.

Lemma length_select_where p t : length (select_where p t) = length (keys_where p t).
Proof.
  unfold select_where, rows, keys_where. rewrite length_fmap.
  induction (map_to_list t) as [|[k r] l IH]; [done|]. rewrite fmap_cons, !filter_cons.
  simpl. case_decide; simpl; auto.
Qed.

Lemma elem_of_keys_where k p t :
  k ∈ keys_where p t <-> exists r, t !! k = Some r /\ p r = true.
Proof.
  unfold keys_where. rewrite list_elem_of_fmap. split.
  - intros ([k' r] & -> & [Hp Hin]%list_elem_of_filter). exists r.
    by apply elem_of_map_to_list in Hin.
  - intros (r & Hk & Hp). exists (k, r). split; [done|]. apply list_elem_of_filter.
    by rewrite elem_of_map_to_list.
Qed.

Lemma NoDup_keys_where p t : NoDup (keys_where p t).
Proof.
  unfold keys_where. eapply sublist_NoDup; [apply (NoDup_fst_map_to_list t)|].
  apply fmap_sublist, sublist_filter.
Qed.

(** Under their primary keys, the rows of a query have distinct identifiers. *)
Lemma select_ids (idf : R -> K) p t :
  (forall k r, t !! k = Some r -> idf r = k) -> idf <$> select_where p t = keys_where p t.
Proof.
  intros Hid. unfold select_where, rows, keys_where.
  assert (Hl : forall kr, kr ∈ map_to_list t -> idf kr.2 = kr.1).
  { intros [k r] Hin. apply elem_of_map_to_list in Hin. by apply Hid. }
  induction (map_to_list t) as [|[k r] l IH]; [done|]. rewrite fmap_cons, !filter_cons. simpl.
  specialize (IH (fun kr Hin => Hl kr (list_elem_of_further _ _ _ Hin))).
  case_decide; [|done]. rewrite !fmap_cons. simpl. f_equal; [|done].
  apply (Hl (k, r)). by left.
Qed.

Lemma NoDup_select_ids (idf : R -> K) p t :
  (forall k r, t !! k = Some r -> idf r = k) -> NoDup (idf <$> select_where p t).
Proof. intros Hid. rewrite (select_ids idf) by done. apply NoDup_keys_where. Qed.

(** A transition that turns rows on only at the keys of [ks] adds at most
    their number. *)
Lemma count_le ks p t t' :
  (forall k r', t' !! k = Some r' -> p r' = true ->
     k ∈ ks \/ exists r, t !! k = Some r /\ p r = true) ->
  length (select_where p t') <= length ks + length (select_where p t).
Proof.
  intros Hon. rewrite !length_select_where, <- length_app.
  apply submseteq_length, NoDup_submseteq; [apply NoDup_keys_where|].
  intros k (r' & Hk & Hp)%elem_of_keys_where.
  rewrite elem_of_app, elem_of_keys_where. eauto.
Qed.

(** One that turns no row on, and turns the row of [k0] off, removes one. *)
Lemma count_lt k0 p t t' :
  k0 ∈ keys_where p t -> k0 ∉ keys_where p t' ->
  (forall k r', t' !! k = Some r' -> p r' = true -> exists r, t !! k = Some r /\ p r = true) ->
  length (select_where p t') < length (select_where p t).
Proof.
  intros H0 H0' Hon. rewrite !length_select_where. unfold lt.
  change (S (length (keys_where p t'))) with (length (k0 :: keys_where p t')).
  apply submseteq_length, NoDup_submseteq.
  - constructor; [done | apply NoDup_keys_where].
  - intros k [->|(r' & Hk & Hp)%elem_of_keys_where]%elem_of_cons; [done|].
    apply elem_of_keys_where. eauto.
Qed.

Lemma clashes_true u t k r :
  clashes u t k r = true <->
  exists k' r', t !! k' = Some r' /\ k' <> k /\ ui_clash u r r' = true.
Proof.
  unfold clashes. rewrite existsb_exists. split.
  - intros ([k' r'] & Hin & [Hne Hc]%andb_true_iff). exists k', r'.
    apply list_elem_of_In, elem_of_map_to_list in Hin. simpl in *.
    apply negb_true_iff, bool_decide_eq_false in Hne. done.
  - intros (k' & r' & Hk & Hne & Hc). exists (k', r').
    rewrite <- list_elem_of_In, elem_of_map_to_list, andb_true_iff, negb_true_iff. simpl.
    rewrite bool_decide_eq_false. done.
Qed.

Lemma clashes_false u t k r :
  clashes u t k r = false <->
  forall k' r', t !! k' = Some r' -> k' <> k -> ui_clash u r r' = false.
Proof.
  rewrite <- not_true_iff_false, clashes_true. split.
  - intros Hno k' r' Hk Hne. apply not_true_iff_false. intros Hc. apply Hno. eauto.
  - intros Hall (k' & r' & Hk & Hne & Hc). specialize (Hall k' r' Hk Hne). congruence.
Qed.

Lemma violation_None us t k r :
  violation us t k r = None <-> forall u, u ∈ us -> clashes u t k r = false.
Proof.
  unfold violation. rewrite fmap_None. split.
  - intros Hf u Hu. eapply find_none in Hf; [exact Hf|]. by apply list_elem_of_In.
  - intros Hall. destruct (find _ us) as [u|] eqn:Hf; [|done].
    apply find_some in Hf as [Hu Hc]. apply list_elem_of_In in Hu. 
    rewrite (Hall u Hu) in Hc. done.
Qed.

Lemma insert_row_ok T r s r' s' :
  insert_row T r s = (Ok r', s') ->
  r' = r /\ tbl T (st_db s) !! tbl_id T r = None /\
  (forall u, u ∈ tbl_uniques T -> clashes u (tbl T (st_db s)) (tbl_id T r) r = false) /\
  s' = s <| st_db ::= tbl_set T (insert (tbl_id T r) r) |>.
Proof.
  unfold insert_row, read. rewrite bind_ok. intros (t & s1 & [= <- <-] & Hrun).
  apply bind_ok in Hrun as (u & s2 & [Hnone ->]%throw_if_ok & Hrun).
  apply bool_decide_eq_false, eq_None_not_Some in Hnone.
  destruct (violation _ _ _ _) eqn:Hv; [discriminate|].
  rewrite violation_None in Hv. injection Hrun as <- <-. auto.
Qed.

Lemma update_key_ok T k p f s o s' :
  update_key T k p f s = (Ok o, s') ->
  (o = None /\ s' = s /\
     forall r, tbl T (st_db s) !! k = Some r -> p r = false) \/
  (exists r, tbl T (st_db s) !! k = Some r /\ p r = true /\ o = Some (f r) /\
     (forall u, u ∈ tbl_uniques T -> clashes u (tbl T (st_db s)) k (f r) = false) /\
     s' = s <| st_db ::= tbl_set T (insert k (f r)) |>).
Proof.
  unfold update_key, read. rewrite bind_ok. intros (t & s1 & [= <- <-] & Hrun).
  destruct (tbl T (st_db s) !! k) as [r|] eqn:Hk; [destruct (p r) eqn:Hp|].
  - right. exists r. destruct (violation _ _ _ _) eqn:Hv; [discriminate|].
    rewrite violation_None in Hv. injection Hrun as <- <-. eauto 10.
  - left. injection Hrun as <- <-. naive_solver.
  - left. injection Hrun as <- <-. naive_solver.
Qed.

Lemma insert_or_ignore_ok T target r s o s' :
  insert_or_ignore T target r s = (Ok o, s') ->
  (o = None /\ s' = s /\ clashes target (tbl T (st_db s)) (tbl_id T r) r = true) \/
  (o = Some r /\ clashes target (tbl T (st_db s)) (tbl_id T r) r = false /\
   insert_row T r s = (Ok r, s')).
Proof.
  unfold insert_or_ignore, read. rewrite bind_ok. intros (t & s1 & [= <- <-] & Hrun).
  destruct (clashes target _ _ r) eqn:Hc.
  - injection Hrun as <- <-. auto.
  - apply bind_ok in Hrun as (r' & s2 & Hins & [= <- <-]). right.
    pose proof (insert_row_ok _ _ _ _ _ Hins) as (-> & _). auto.
Qed.

Lemma insert_row_succeeds T r s :
  tbl T (st_db s) !! tbl_id T r = None ->
  (forall u, u ∈ tbl_uniques T -> clashes u (tbl T (st_db s)) (tbl_id T r) r = false) ->
  insert_row T r s = (Ok r, s <| st_db ::= tbl_set T (insert (tbl_id T r) r) |>).
Proof.
  intros Hn Hu. unfold insert_row, read, bind, gets. rewrite Hn.
  rewrite bool_decide_eq_false_2 by by apply eq_None_not_Some. simpl.
  by apply violation_None in Hu as ->.
Qed.

Lemma update_key_succeeds T k p f s r :
  tbl T (st_db s) !! k = Some r -> p r = true ->
  (forall u, u ∈ tbl_uniques T -> clashes u (tbl T (st_db s)) k (f r) = false) ->
  update_key T k p f s = (Ok (Some (f r)), s <| st_db ::= tbl_set T (insert k (f r)) |>).
Proof.
  intros Hk Hp Hu. unfold update_key, read, bind, gets. rewrite Hk, Hp.
  by apply violation_None in Hu as ->.
Qed.

(** A statement that throws leaves the tables as they were. *)
Lemma insert_row_err T r s e s' : insert_row T r s = (Err e, s') -> s' = s.
Proof.
  unfold insert_row, read, bind, gets, throw_if, throw, ret, write, modify.
  repeat case_match; naive_solver.
Qed.

Lemma update_key_err T k p f s e s' : update_key T k p f s = (Err e, s') -> s' = s.
Proof.
  unfold update_key, read, bind, gets, throw, ret, write, modify.
  repeat case_match; naive_solver.
Qed.

Lemma update_rows_lookup p f t k :
  update_rows p f t !! k = (fun r => if p r then f r else r) <$> t !! k.
Proof. apply lookup_fmap. Qed.

Lemma update_where_ok T p f s l s' :
  update_where T p f s = (Ok l, s') ->
  l = f <$> select_where p (tbl T (st_db s)) /\
  s' = s <| st_db ::= tbl_set T (update_rows p f) |>.
Proof.
  unfold update_where, read. rewrite bind_ok. intros (t & s1 & [= <- <-] & Hrun).
  destruct (list_find _ _) as [[? [? ?]]|]; [discriminate|].
  injection Hrun as <- <-. auto.
Qed.

Lemma update_where_err T p f s e s' : update_where T p f s = (Err e, s') -> s' = s.
Proof.
  unfold update_where, read, bind, gets, throw, ret, write, modify.
  repeat case_match; naive_solver.
Qed.

Lemma update_where_total T p f s :
  tbl_uniques T = [] -> is_ok (outcome (update_where T p f) s) = true.
Proof.
  intros Hu. unfold outcome, update_where, read, bind, gets.
  destruct (list_find _ _) as [[i [k r]]|] eqn:Hf; [|done].
  apply list_find_Some in Hf as (_ & [n Hn] & _). rewrite Hu in Hn. discriminate.
Qed.
End Facts.

(** ** Keys and unique indexes as invariants *)

(** Each row is stored under its primary key. *)
Definition keyed {K R} `{Countable K} (T : table K R) (d : database) : Prop :=
  forall k r, tbl T d !! k = Some r -> tbl_id T r = k.

(** No two rows hold the same entry of the index. *)
Definition unique_ok {K R} `{Countable K} (u : unique_index R) (t : gmap K R) : Prop :=
  forall k1 k2 r1 r2, t !! k1 = Some r1 -> t !! k2 = Some r2 -> k1 <> k2 ->
    ui_clash u r1 r2 = false.

Definition symmetric_index {R} (u : unique_index R) : Prop :=
  forall r1 r2, ui_clash u r1 r2 = ui_clash u r2 r1.

Lemma index_on_symmetric {R C} `{EqDecision C} n (key : R -> option C) :
  symmetric_index (index_on n key).
Proof.
  intros r1 r2. simpl. unfold same_key. destruct (key r1), (key r2); try done.
  apply bool_decide_ext. split; congruence.
Qed.

(** The identifiers still to be drawn name no row of the table. *)
Definition ids_fresh `{Platform} {R} (prefix : string) (T : table string R) (s : store) : Prop :=
  forall n, st_draws s <= n -> tbl T (st_db s) !! (prefix +:+ "_" +:+ nanoid n) = None.

Section Unique.
Context {K R : Type} `{Countable K}.
Implicit Types (t : gmap K R) (T : table K R) (r : R) (u : unique_index R).

Lemma unique_insert u t k r :
  symmetric_index u -> clashes u t k r = false -> unique_ok u t ->
  unique_ok u (<[k := r]> t).
Proof.
  rewrite clashes_false. intros Hsym Hc Hu k1 k2 r1 r2.
  destruct (decide (k = k1)) as [<-|H1], (decide (k = k2)) as [<-|H2];
    rewrite ?lookup_insert_eq, ?lookup_insert_ne by done; try done.
  - intros [= <-] Hk2 Hne. eapply Hc; eauto.
  - intros Hk1 [= <-] Hne. rewrite Hsym. eapply Hc; eauto.
  - apply Hu.
Qed.

Lemma keyed_insert T d k r :
  LawfulTable T -> keyed T d -> tbl_id T r = k -> keyed T (tbl_set T (insert k r) d).
Proof.
  intros Hlaw Hkey Hid k' r'. rewrite Hlaw. destruct (decide (k = k')) as [<-|Hne].
  - rewrite lookup_insert_eq. by intros [= <-].
  - rewrite lookup_insert_ne by done. apply Hkey.
Qed.

(** An upsert ends with one row under the unique entry: a new one, or the one
    that held it, updated. *)
Lemma upsert_ok T target r set s r' s' :
  keyed T (st_db s) -> upsert T target r set s = (Ok r', s') ->
  (find_where (target r) (tbl T (st_db s)) = None /\ insert_row T r s = (Ok r', s')) \/
  (exists r0, tbl T (st_db s) !! tbl_id T r0 = Some r0 /\ target r r0 = true /\ r' = set r0 /\
     s' = s <| st_db ::= tbl_set T (insert (tbl_id T r0) (set r0)) |>).
Proof.
  intros Hkey. unfold upsert, read. rewrite bind_ok. intros (t & s1 & [= <- <-] & Hrun).
  destruct (find_where _ _) as [r0|] eqn:Hf; [right|by left].
  apply find_where_Some in Hf as (Htg & k & Hk). assert (tbl_id T r0 = k) as <- by by apply Hkey.
  apply bind_ok in Hrun as (o & s2 & Hup & [-> ->]%some_or_ok).
  apply update_key_ok in Hup as [(? & _)|(r1 & Hk1 & _ & [= ->] & _ & ->)]; [done|].
  simplify_eq. eauto.
Qed.
End Unique.

(** Splits a successful run [H : m s = (Ok b, s')] into the runs of its steps,
    and a guard, a lookup or a read into the fact it established. *)
Ltac inv_ok H :=
  lazymatch type of H with
  | bind _ _ _ = (Ok _, _) =>
      let a := fresh "a" in let s1 := fresh "s" in let H1 := fresh "Hrun" in
      apply bind_ok in H; destruct H as (a & s1 & H1 & H); cbv beta in H;
      try inv_ok H1; try inv_ok H
  | some_or _ _ _ = (Ok _, _) => apply some_or_ok in H; destruct H as [H ->]
  | throw_if _ _ _ = (Ok _, _) => apply throw_if_ok in H; destruct H as [H ->]
  | ret _ _ = (Ok _, _) => unfold ret in H; injection H as <- <-
  | read _ _ = (Ok _, _) => unfold read, gets in H; injection H as <- <-
  | gets _ _ = (Ok _, _) => unfold gets in H; injection H as <- <-
  | clock _ = (Ok _, _) => unfold clock, gets in H; injection H as <- <-
  | createId _ _ = (Ok _, _) => unfold createId in H; injection H as <- <-
  | write _ _ = (Ok _, _) => unfold write, modify in H; injection H as <- <-
  | modify _ _ = (Ok _, _) => unfold modify in H; injection H as <- <-
  | throw _ _ = (Ok _, _) => discriminate H
  | insert_row _ _ _ = (Ok _, _) =>
      apply insert_row_ok in H;
      let Hn := fresh "Hfresh" in let Hu := fresh "Huniq" in
      destruct H as (-> & Hn & Hu & ->)
  | (Ok _, _) = (Ok _, _) => injection H as <- <-
  | (Err _, _) = (Ok _, _) => discriminate H
  | (match ?x with _ => _ end) = (Ok _, _) =>
      let E := fresh "E" in destruct x eqn:E; try discriminate H; try inv_ok H
  | (match ?x with _ => _ end) _ = (Ok _, _) =>
      let E := fresh "E" in destruct x eqn:E; try discriminate H; try inv_ok H
  end.

Lemma transaction_ok {A} (m : Tx A) s a s' :
  transaction m s = (Ok a, s') <-> m s = (Ok a, s').
Proof.
  unfold transaction. destruct (m s) as [[a'|e] s1]; split; congruence.
Qed.

(** A transaction that throws changes no table. *)
Lemma transaction_err {A} (m : Tx A) s e s' :
  transaction m s = (Err e, s') -> st_db s' = st_db s.
Proof.
  unfold transaction. destruct (m s) as [[a'|e'] s1]; [discriminate|].
  by intros [= <- <-].
Qed.

Lemma transaction_db {A} (m : Tx A) s :
  st_db (exec (transaction m) s) = st_db s \/
  exists a, m s = (Ok a, exec (transaction m) s).
Proof.
  unfold exec, transaction. destruct (m s) as [[a'|e'] s1]; simpl; eauto.
Qed.

(** ** What a computation may do to the tables

    [moves R m]: every run of [m], whether it returns or throws, takes the
    tables from [d] to a [d'] with [R d d'].  [R] is a preorder: an invariant
    [fun d d' => I d -> I d'], or a relation such as "only these rows change
    and only this way". *)
Definition moves {A} (R : relation database) (m : Tx A) : Prop :=
  forall s, R (st_db s) (st_db (exec m s)).

Create HintDb moves.

Section Moves.
Context (R : relation database) `{!PreOrder R}.

Lemma moves_pure {A} (m : Tx A) :
  (forall s, st_db (exec m s) = st_db s) -> moves R m.
Proof. intros Hm s. rewrite Hm. reflexivity. Qed.

Lemma moves_ret {A} (a : A) : moves R (ret a).
Proof. by apply moves_pure. Qed.
Lemma moves_throw {A} e : moves R (throw (A := A) e).
Proof. by apply moves_pure. Qed.
Lemma moves_gets {A} (f : store -> A) : moves R (gets f).
Proof. by apply moves_pure. Qed.
Lemma moves_read {A} (f : database -> A) : moves R (read f).
Proof. by apply moves_pure. Qed.
Lemma moves_lift {A} (r : result A) : moves R (lift r).
Proof. by apply moves_pure. Qed.
Lemma moves_clock : moves R clock.
Proof. by apply moves_pure. Qed.
Lemma moves_now_or o : moves R (now_or o).
Proof. apply moves_pure. by destruct o. Qed.
Lemma moves_createId `{Platform} prefix : moves R (createId prefix).
Proof. by apply moves_pure. Qed.
Lemma moves_throw_if b e : moves R (throw_if b e).
Proof. apply moves_pure. by destruct b. Qed.
Lemma moves_some_or {A} (o : option A) e : moves R (some_or o e).
Proof. apply moves_pure. by destruct o. Qed.

Lemma moves_bind {A B} (m : Tx A) (k : A -> Tx B) :
  moves R m -> (forall a, moves R (k a)) -> moves R (bind m k).
Proof.
  intros Hm Hk s. specialize (Hm s). unfold exec, bind in *.
  destruct (m s) as [[a|e] s1]; [|exact Hm].
  etransitivity; [exact Hm|]. exact (Hk a s1).
Qed.

Lemma moves_bind_read {A B} (q : database -> A) (k : A -> Tx B) :
  (forall d, moves R (k (q d))) -> moves R (bind (read q) k).
Proof. intros Hk s. exact (Hk (st_db s) s). Qed.

Lemma moves_bind_lift {A B} (r : result A) (k : A -> Tx B) :
  (forall a, r = Ok a -> moves R (k a)) -> moves R (bind (lift r) k).
Proof.
  intros Hk s. unfold exec, bind, lift. destruct r as [a|e]; [by apply Hk | reflexivity].
Qed.

Lemma moves_try_catch {A} (m : Tx A) h :
  moves R m -> (forall e, moves R (h e)) -> moves R (try_catch m h).
Proof.
  intros Hm Hh s. specialize (Hm s). unfold exec, try_catch in *.
  destruct (m s) as [[a|e] s1]; [exact Hm|].
  etransitivity; [exact Hm|]. exact (Hh e s1).
Qed.

Lemma moves_fold_m {A B} (f : B -> A -> Tx B) xs b :
  (forall b x, moves R (f b x)) -> moves R (fold_m f xs b).
Proof.
  intros Hf. revert b. induction xs as [|x xs IH]; intros b; [apply moves_ret|].
  apply moves_bind; auto.
Qed.

Lemma moves_for_m {A} (xs : list A) f :
  (forall x, moves R (f x)) -> moves R (for_m xs f).
Proof. intros Hf. apply moves_fold_m; auto. Qed.

Lemma moves_transaction {A} (m : Tx A) : moves R m -> moves R (transaction m).
Proof.
  intros Hm s. destruct (transaction_db m s) as [->|[a Ha]]; [reflexivity|].
  specialize (Hm s). unfold exec in Hm at 1. by rewrite Ha in Hm.
Qed.

Lemma moves_write f : (forall d, R d (f d)) -> moves R (write f).
Proof. intros Hf s. apply Hf. Qed.

Lemma moves_insert_row {K A} `{Countable K} (T : table K A) r :
  (forall d, tbl T d !! tbl_id T r = None ->
     R d (tbl_set T (insert (tbl_id T r) r) d)) -> moves R (insert_row T r).
Proof.
  intros Hins s. unfold exec. destruct (insert_row T r s) as [[r'|e] s'] eqn:Hrun.
  - apply insert_row_ok in Hrun as (-> & Hnone & _ & ->). by apply Hins.
  - by rewrite (insert_row_err _ _ _ _ _ Hrun).
Qed.

Lemma moves_update_key {K A} `{Countable K} (T : table K A) k p f :
  (forall d r, tbl T d !! k = Some r -> p r = true ->
     R d (tbl_set T (insert k (f r)) d)) -> moves R (update_key T k p f).
Proof.
  intros Hup s. unfold exec. destruct (update_key T k p f s) as [[o|e] s'] eqn:Hrun.
  - apply update_key_ok in Hrun as [(_ & -> & _)|(r & Hk & Hp & _ & _ & ->)];
      [done|]. by apply Hup.
  - by rewrite (update_key_err _ _ _ _ _ _ _ Hrun).
Qed.

(** The same with what the statement checked of the unique indexes. *)
Lemma moves_insert_row_uniq {K A} `{Countable K} (T : table K A) r :
  (forall d, tbl T d !! tbl_id T r = None ->
     (forall u, u ∈ tbl_uniques T -> clashes u (tbl T d) (tbl_id T r) r = false) ->
     R d (tbl_set T (insert (tbl_id T r) r) d)) -> moves R (insert_row T r).
Proof.
  intros Hins s. unfold exec. destruct (insert_row T r s) as [[r'|e] s'] eqn:Hrun.
  - apply insert_row_ok in Hrun as (-> & Hnone & Hu & ->). by apply Hins.
  - by rewrite (insert_row_err _ _ _ _ _ Hrun).
Qed.

Lemma moves_update_key_uniq {K A} `{Countable K} (T : table K A) k p f :
  (forall d r, tbl T d !! k = Some r -> p r = true ->
     (forall u, u ∈ tbl_uniques T -> clashes u (tbl T d) k (f r) = false) ->
     R d (tbl_set T (insert k (f r)) d)) -> moves R (update_key T k p f).
Proof.
  intros Hup s. unfold exec. destruct (update_key T k p f s) as [[o|e] s'] eqn:Hrun.
  - apply update_key_ok in Hrun as [(_ & -> & _)|(r & Hk & Hp & _ & Hu & ->)];
      [done|]. by apply Hup.
  - by rewrite (update_key_err _ _ _ _ _ _ _ Hrun).
Qed.

Lemma moves_update_where {K A} `{Countable K} (T : table K A) p f :
  (forall d, R d (tbl_set T (update_rows p f) d)) -> moves R (update_where T p f).
Proof.
  intros Hup s. unfold exec. destruct (update_where T p f s) as [[l|e] s'] eqn:Hrun.
  - apply update_where_ok in Hrun as (_ & ->). by apply Hup.
  - unfold update_where, read, bind, gets in Hrun. repeat case_match; simplify_eq/=;
      unfold throw, ret in *; by simplify_eq/=.
Qed.
End Moves.

(** Keeping an invariant is such a relation. *)
Definition preserves (I : database -> Prop) : relation database := fun d d' => I d -> I d'.

#[export] Instance preserves_preorder I : PreOrder (preserves I).
Proof. unfold preserves. split; [by intros d | intros d1 d2 d3; auto]. Qed.

Lemma moves_mono {A} (R R' : relation database) (m : Tx A) :
  (forall d d', R d d' -> R' d d') -> moves R m -> moves R' m.
Proof. intros Hsub Hm s. apply Hsub, Hm. Qed.

#[export] Hint Resolve moves_ret moves_throw moves_gets moves_read moves_lift moves_clock
  moves_now_or moves_createId moves_throw_if moves_some_or moves_bind moves_try_catch
  moves_fold_m moves_for_m moves_transaction : moves.

(** Walks through a computation down to its statements, which are left. *)
Ltac walk :=
  repeat first
    [ progress (intros; cbv beta zeta)
    | match goal with
      | |- moves _ (match ?x with _ => _ end) => destruct x
      | |- moves _ (let '_ := ?x in _) => destruct x
      | |- moves _ (bind _ _) => apply moves_bind
      | |- moves _ (transaction _) => apply moves_transaction
      | |- moves _ (for_m _ _) => apply moves_for_m
      | |- moves _ (fold_m _ _ _) => apply moves_fold_m
      | |- moves _ (try_catch _ _) => apply moves_try_catch
      end
    | solve [eauto with moves typeclass_instances] ].

(** ** What a computation may do to its state

    [within R m]: every run of [m] takes its state along the preorder [R],
    whether it returns or throws. *)
Definition within {S A} (R : relation S) (m : M S A) : Prop := forall s, R s (exec m s).

Create HintDb within.

Section Within.
Context {S : Type} (R : relation S) `{!PreOrder R}.

Lemma within_pure {A} (m : M S A) : (forall s, exec m s = s) -> within R m.
Proof. intros Hm s. rewrite Hm. reflexivity. Qed.

Lemma within_ret {A} (a : A) : within R (ret a).
Proof. by apply within_pure. Qed.
Lemma within_throw {A} e : within R (throw (A := A) e).
Proof. by apply within_pure. Qed.
Lemma within_gets {A} (f : S -> A) : within R (gets f).
Proof. by apply within_pure. Qed.
Lemma within_lift {A} (r : result A) : within R (lift r).
Proof. by apply within_pure. Qed.
Lemma within_throw_if b e : within R (throw_if b e).
Proof. apply within_pure. by destruct b. Qed.
Lemma within_some_or {A} (o : option A) e : within R (some_or o e).
Proof. apply within_pure. by destruct o. Qed.

Lemma within_bind {A B} (m : M S A) (k : A -> M S B) :
  within R m -> (forall a, within R (k a)) -> within R (bind m k).
Proof.
  intros Hm Hk s. specialize (Hm s). unfold exec, bind in *. destruct (m s) as [[a|e] s1]; [|exact Hm].
  etransitivity; [exact Hm|]. exact (Hk a s1).
Qed.

Lemma within_try_catch {A} (m : M S A) h :
  within R m -> (forall e, within R (h e)) -> within R (try_catch m h).
Proof.
  intros Hm Hh s. specialize (Hm s). unfold exec, try_catch in *.
  destruct (m s) as [[a|e] s1]; [exact Hm|]. etransitivity; [exact Hm|]. exact (Hh e s1).
Qed.

Lemma within_fold_m {A B} (f : B -> A -> M S B) xs b :
  (forall b x, within R (f b x)) -> within R (fold_m f xs b).
Proof.
  intros Hf. revert b. induction xs as [|x xs IH]; intros b; [apply within_ret|].
  apply within_bind; auto.
Qed.

(** The same for the elements of the list only. *)
Lemma within_fold_in {A B} (f : B -> A -> M S B) xs b :
  (forall b x, x ∈ xs -> within R (f b x)) -> within R (fold_m f xs b).
Proof.
  revert b. induction xs as [|x xs IH]; intros b Hf; [apply within_ret|].
  apply within_bind; [apply Hf; by left|]. intros b'. apply IH. intros b2 x' Hx. apply Hf. by right.
Qed.

Lemma within_for_m {A} (xs : list A) f : (forall x, within R (f x)) -> within R (for_m xs f).
Proof. intros Hf. apply within_fold_m; auto. Qed.

Lemma within_run {A} (m : M S A) s r s' : within R m -> m s = (r, s') -> R s s'.
Proof. intros Hm Hrun. specialize (Hm s). unfold exec in Hm. by rewrite Hrun in Hm. Qed.
End Within.

Lemma within_mono {S A} (R R' : relation S) (m : M S A) :
  (forall s s', R s s' -> R' s s') -> within R m -> within R' m.
Proof. intros Hsub Hm s. apply Hsub, Hm. Qed.

#[export] Hint Resolve within_ret within_throw within_gets within_lift within_throw_if within_some_or
  within_bind within_try_catch within_fold_m within_for_m : within.

(** Down to the calls of a computation. *)
Ltac stroll :=
  repeat first
    [ progress (intros; cbv beta zeta)
    | match goal with
      | |- within _ (match ?x with _ => _ end) => destruct x
      | |- within _ (let '_ := ?x in _) => destruct x
      | |- within _ (bind _ _) => apply within_bind
      | |- within _ (for_m _ _) => apply within_for_m
      | |- within _ (fold_m _ _ _) => apply within_fold_m
      | |- within _ (try_catch _ _) => apply within_try_catch
      end
    | solve [eauto with within typeclass_instances] ].

(** One step of a computation at a given state. *)
Lemma along_bind {S A B} (R : relation S) `{!Transitive R} (m : M S A) (k : A -> M S B) s :
  R s (exec m s) -> (forall a s1, m s = (Ok a, s1) -> R s1 (exec (k a) s1)) ->
  R s (exec (bind m k) s).
Proof.
  intros Hm Hk. unfold exec, bind in *. destruct (m s) as [[a|e] s1]; [|done].
  etransitivity; [exact Hm|]. by apply (Hk a s1).
Qed.

Lemma along_step {S A B} (R : relation S) `{!Transitive R} (m : M S A) (k : A -> M S B) s :
  within R m -> (forall a s1, m s = (Ok a, s1) -> R s1 (exec (k a) s1)) -> R s (exec (bind m k) s).
Proof. intros Hm. by apply along_bind. Qed.

(** Keeping an invariant of the state. *)
Definition keeping {S} (I : S -> Prop) : relation S := fun s s' => I s -> I s'.

#[export] Instance keeping_preorder {S} (I : S -> Prop) : PreOrder (keeping I).
Proof. unfold keeping. split; [by intros s | intros s1 s2 s3; auto]. Qed.
