(* ===== verification/Paging.v ===== *)
(** * Cursor pagination

    A page of [ORDER BY ... LIMIT n + 1] past a cursor row, as the list queries
    of the stores page: what one page holds, and that following the cursors
    yields the whole ordered list, each row once. *)

From S2P Require Import Prelude.

Open Scope list_scope.

Section Paging.
Context {A : Type} (leb : A -> A -> bool).

(** The rows an order sorts without ties. *)
Definition untied (l : list A) : Prop :=
  forall x y, x ∈ l -> y ∈ l -> leb x y = true -> leb y x = true -> x = y.

(** The row comes after the cursor's. *)
Definition past (cursor r : A) : bool := negb (leb r cursor).

(** [rows.slice(0, limit)], and whether a further row was found. *)
Definition page_of (limit : nat) (l : list A) : list A * option A :=
  let found := take (S limit) l in
  let page := take limit found in
  (page, if bool_decide (limit < length found) then last page else None).

Lemma untied_perm l l' : l ≡ₚ l' -> untied l -> untied l'.
Proof. intros Hp Hu x y Hx Hy. rewrite <- Hp in Hx, Hy. by apply Hu. Qed.

Lemma untied_filter (P : A -> Prop) `{!forall x, Decision (P x)} l :
  untied l -> untied (base.filter P l).
Proof. intros Hu x y [_ Hx]%list_elem_of_filter [_ Hy]%list_elem_of_filter. by apply Hu. Qed.

Context `{!Total (le_rel leb)} `{!Transitive (le_rel leb)}.

Lemma sorted_filter (P : A -> Prop) `{!forall x, Decision (P x)} l :
  StronglySorted (le_rel leb) l -> StronglySorted (le_rel leb) (base.filter P l).
Proof.
  induction 1 as [|x l Hs IH Hall]; [constructor|]. rewrite filter_cons. case_decide; [|done].
  constructor; [done|]. rewrite Forall_forall in Hall |- *.
  intros y [_ Hy]%list_elem_of_filter. by apply Hall.
Qed.

(** Filtering before sorting is filtering after it. *)
Lemma order_by_filter (P : A -> Prop) `{!forall x, Decision (P x)} l :
  untied l -> order_by leb (base.filter P l) = base.filter P (order_by leb l).
Proof.
  intros Hu. apply (StronglySorted_unique_strong (le_rel leb)).
  - intros x y Hx Hy. rewrite elem_of_order_by in Hx.
    apply list_elem_of_filter in Hx as [_ Hx], Hy as [_ Hy].
    rewrite elem_of_order_by in Hy. by apply Hu.
  - by apply order_by_sorted.
  - by apply sorted_filter, order_by_sorted.
  - by rewrite !order_by_perm.
Qed.

Lemma filter_all (P : A -> Prop) `{!forall x, Decision (P x)} (l : list A) :
  (forall x : A, x ∈ l -> P x) -> base.filter P l = l.
Proof.
  induction l as [|x l IH]; intros Hall; [done|]. rewrite filter_cons, decide_True.
  - f_equal. apply IH. intros y Hy. apply Hall. by right.
  - apply Hall. by left.
Qed.

(** The rows past the [i]-th of a sorted list are those after it. *)
Lemma filter_past l i x :
  StronglySorted (le_rel leb) l -> untied l -> NoDup l -> l !! i = Some x ->
  base.filter (fun r => past x r = true) l = drop (S i) l.
Proof.
  intros Hs Hu. revert i. induction Hs as [|y l Hs IH Hall]; intros i Hnd Hi; [done|].
  apply NoDup_cons in Hnd as [Hy Hnd]. rewrite Forall_forall in Hall.
  assert (Hul : untied l) by (intros a b Ha Hb; apply Hu; by right).
  rewrite filter_cons. destruct i as [|i]; simpl in *.
  - injection Hi as ->.
    assert (Hxx : leb x x = true) by (by destruct (total (le_rel leb) x x)).
    rewrite decide_False by (unfold past; by rewrite Hxx).
    rewrite drop_0. apply filter_all. intros z Hz. unfold past.
    apply negb_true_iff, not_true_iff_false. intros Hzx.
    assert (z = x) as -> by (apply Hu; [by right | by left | done | by apply Hall]). done.
  - assert (Hx : x ∈ l) by (by apply list_elem_of_lookup_2 in Hi).
    rewrite decide_False by (unfold past; by rewrite (Hall x Hx)). by apply IH.
Qed.
End Paging.

Section Walk.
Context {A K : Type}.

(** Following [nextCursor] from page to page, [fuel] pages at most. *)
Fixpoint walk_pages (fetch : option K -> list A * option K) (fuel : nat) (cursor : option K)
    : option (list (list A)) :=
  match fuel with
  | O => None
  | S fuel =>
      let (page, next) := fetch cursor in
      match next with
      | None => Some [page]
      | Some k => pages ← walk_pages fetch fuel (Some k); Some (page :: pages)
      end
  end.
End Walk.

Lemma page_of_next {A} limit (l : list A) x :
  limit <> 0 -> (page_of limit l).2 = Some x -> l !! (limit - 1) = Some x /\ limit < length l.
Proof.
  intros Hl. unfold page_of. cbn [snd]. case_bool_decide as Hlt; [|done].
  rewrite length_take in Hlt. intros Hlast. rewrite last_lookup in Hlast.
  apply lookup_take_Some in Hlast as [Hlast _]. apply lookup_take_Some in Hlast as [Hlast _].
  rewrite !length_take in Hlast. split; [|lia]. by replace (limit - 1) with (pred (limit `min` (S limit `min` length l))) by lia.
Qed.

Lemma page_of_last {A} limit (l : list A) :
  limit <> 0 -> (page_of limit l).2 = None -> length l <= limit.
Proof.
  intros Hl. unfold page_of. cbn [snd]. case_bool_decide as Hlt; rewrite length_take in Hlt; [|lia].
  intros Hnil%last_None. rewrite take_take in Hnil. destruct l; [simpl; lia|].
  by destruct limit.
Qed.

Lemma page_of_page {A} limit (l : list A) : (page_of limit l).1 = take limit l.
Proof.
  transitivity (take limit (take (S limit) l)); [done|]. rewrite take_take. by replace (limit `min` S limit) with limit by lia.
Qed.

(** Following the cursors reads the whole list, each row once. *)
Lemma walk_pages_all {A K} (key : A -> K) (fetch : option K -> list A * option K) limit l :
  limit <> 0 ->
  fetch None = (fun '(p, n) => (p, key <$> n)) (page_of limit l) ->
  (forall i x, l !! i = Some x ->
     fetch (Some (key x)) = (fun '(p, n) => (p, key <$> n)) (page_of limit (drop (S i) l))) ->
  exists pages, walk_pages fetch (S (length l)) None = Some pages /\ mjoin pages = l /\
    Forall (fun p => length p <= limit) pages.
Proof.
  intros Hl Hfirst Hnext.
  assert (Hgen : forall fuel j cursor,
    length (drop j l) < fuel ->
    fetch cursor = (fun '(p, n) => (p, key <$> n)) (page_of limit (drop j l)) ->
    exists pages, walk_pages fetch fuel cursor = Some pages /\ mjoin pages = drop j l /\
      Forall (fun p => length p <= limit) pages).
  { induction fuel as [|fuel IH]; intros j cursor Hf Hfetch; [lia|]. simpl. rewrite Hfetch.
    pose proof (page_of_page limit (drop j l)) as Hpage.
    assert (Hlen : length (take limit (drop j l)) <= limit) by (rewrite length_take; lia).
    destruct (page_of limit (drop j l)) as [page [x|]] eqn:Hp; simpl in *; subst page.
    - destruct (page_of_next limit (drop j l) x Hl) as [Hx Hlt]; [by rewrite Hp|].
      rewrite lookup_drop in Hx. apply Hnext in Hx.
      replace (S (j + (limit - 1))) with (j + limit) in Hx by lia.
      destruct (IH (j + limit) (Some (key x))) as (pages & -> & Hj & Hall); [|done|].
      + rewrite !length_drop in *. lia.
      + simpl. eexists. split; [reflexivity|]. split; [|by constructor].
        simpl. rewrite Hj, <- drop_drop. apply take_drop.
    - eexists. split; [reflexivity|]. split; [|by constructor].
      simpl. rewrite app_nil_r. apply take_ge, page_of_last; [done|]. by rewrite Hp. }
  destruct (Hgen (S (length l)) 0 None) as (pages & ? & Hj & ?).
  - rewrite drop_0. lia.
  - by rewrite drop_0.
  - exists pages. by rewrite drop_0 in Hj.
Qed.
