(* ===== verification/Tables.v ===== *)
(** * The tables of the schema, with their unique indexes

    One [table] per record of [Schema]: its place in the [database], its
    primary key and the unique indexes [packages/db/src/schema.ts] declares
    on it, partial ones by the predicate of their [where]. *)

From S2P Require Import Prelude Schema Store.

(** ** Keys and unique indexes *)

(** [deployments_project_key_idx] *)
Definition deployments_project_key_idx : unique_index Deployment.deployment_row :=
  index_on "deployments_project_key_idx"
    (fun r => Some (Deployment.projectId r, Deployment.deploymentKey r)).

Definition project_schedules_project_key_idx
    : unique_index ProjectSchedule.project_schedule_row :=
  index_on "project_schedules_project_key_idx"
    (fun r => Some (ProjectSchedule.projectId r, ProjectSchedule.key r)).

Definition schedule_versions_schedule_revision_idx
    : unique_index ScheduleVersion.schedule_version_row :=
  index_on "schedule_versions_schedule_revision_idx"
    (fun r => Some (ScheduleVersion.scheduleId r, ScheduleVersion.sourceRevisionId r)).

(** One cron run per schedule version and tick; manual runs are outside. *)
Definition schedule_runs_version_due_idx : unique_index ScheduleRun.schedule_run_row :=
  index_on "schedule_runs_version_due_idx"
    (fun r => match ScheduleRun.trigger r with
              | RunTrigger.cron =>
                  Some (ScheduleRun.scheduleVersionId r, ScheduleRun.dueAt r)
              | RunTrigger.manual => None
              end).

(** The statuses of a process that is, or is about to be, alive. *)
Definition runtime_live (st : runtime_status) : bool :=
  match st with
  | RuntimeStatus.starting | RuntimeStatus.ready | RuntimeStatus.draining => true
  | RuntimeStatus.stopped | RuntimeStatus.failed => false
  end.

Definition runtime_instances_deployment_generation_idx
    : unique_index RuntimeInstance.runtime_instance_row :=
  index_on "runtime_instances_deployment_generation_idx"
    (fun r => Some (RuntimeInstance.deploymentId r, RuntimeInstance.generation r)).

(** At most one live process per loopback port. *)
Definition runtime_instances_live_port_idx
    : unique_index RuntimeInstance.runtime_instance_row :=
  index_on "runtime_instances_live_port_idx"
    (fun r => if runtime_live (RuntimeInstance.status r)
              then RuntimeInstance.endpointPort r else None).

Definition activation_leases_deployment_kind_owner_idx
    : unique_index ActivationLease.activation_lease_row :=
  index_on "activation_leases_deployment_kind_owner_idx"
    (fun r => Some (ActivationLease.deploymentId r, ActivationLease.kind r,
                    ActivationLease.ownerId r)).

Definition agent_routes_hostname_idx : unique_index AgentRoute.agent_route_row :=
  index_on "agent_routes_hostname_idx" (fun r => Some (AgentRoute.hostname r)).

Definition session_bindings_project_eve_idx
    : unique_index SessionBinding.session_binding_row :=
  index_on "session_bindings_project_eve_idx"
    (fun r => Some (SessionBinding.projectId r, SessionBinding.eveSessionId r)).

Definition operation_bindings_project_key_idx
    : unique_index OperationBinding.operation_binding_row :=
  index_on "operation_bindings_project_key_idx"
    (fun r => Some (OperationBinding.projectId r, OperationBinding.operationKey r)).

Definition source_files_revision_path_idx : unique_index SourceFile.source_file_row :=
  index_on "source_files_revision_path_idx"
    (fun r => Some (SourceFile.revisionId r, SourceFile.path r)).

(** One live Session per project and Eve session; a null id never conflicts. *)
Definition sessions_project_eve_session_idx : unique_index Session.session_row :=
  index_on "sessions_project_eve_session_idx"
    (fun r => eve ← Session.eveSessionId r; Some (Session.projectId r, eve)).

Definition session_nodes_project_eve_idx : unique_index SessionNode.session_node_row :=
  index_on "session_nodes_project_eve_idx"
    (fun r => Some (SessionNode.projectId r, SessionNode.eveSessionId r)).

Definition model_usage_session_eve_turn_step_idx : unique_index ModelUsage.model_usage_row :=
  index_on "model_usage_session_eve_turn_step_idx"
    (fun r => step ← ModelUsage.stepIndex r;
              Some (ModelUsage.sessionId r, ModelUsage.eveSessionId r,
                    ModelUsage.turnId r, step)).

Definition model_usage_node_turn_step_idx : unique_index ModelUsage.model_usage_row :=
  index_on "model_usage_node_turn_step_idx"
    (fun r => node ← ModelUsage.sessionNodeId r; step ← ModelUsage.stepIndex r;
              Some (node, ModelUsage.turnId r, step)).

Definition model_usage_session_eve_run_idx : unique_index ModelUsage.model_usage_row :=
  index_on "model_usage_session_eve_run_idx"
    (fun r => run ← ModelUsage.runKey r;
              Some (ModelUsage.sessionId r, ModelUsage.eveSessionId r, run)).

Definition model_usage_node_run_idx : unique_index ModelUsage.model_usage_row :=
  index_on "model_usage_node_run_idx"
    (fun r => node ← ModelUsage.sessionNodeId r; run ← ModelUsage.runKey r;
              Some (node, run)).

Definition session_events_node_telemetry_idx : unique_index SessionEvent.session_event_row :=
  index_on "session_events_node_telemetry_idx"
    (fun r => node ← SessionEvent.sessionNodeId r; e ← SessionEvent.telemetryEventId r;
              Some (node, e)).

Definition session_events_node_fingerprint_idx
    : unique_index SessionEvent.session_event_row :=
  index_on "session_events_node_fingerprint_idx"
    (fun r => node ← SessionEvent.sessionNodeId r; e ← SessionEvent.eventFingerprint r;
              Some (node, e)).

(** The backstop of the event order: one event per Session and index. *)
Definition session_events_session_index_idx : unique_index SessionEvent.session_event_row :=
  index_on "session_events_session_index_idx"
    (fun r => Some (SessionEvent.sessionId r, SessionEvent.index r)).

Definition git_credentials_user_host_idx : unique_index GitCredential.git_credential_row :=
  index_on "git_credentials_user_host_idx"
    (fun r => Some (GitCredential.userId r, GitCredential.host r)).

Definition secrets_project_key_idx : unique_index Secret.secret_row :=
  index_on "secrets_project_key_idx" (fun r => Some (Secret.projectId r, Secret.key r)).

(** ** Tables *)

Definition projects_table : table string Project.project_row :=
  Table projects (set_field projects) Project.id "projects_pkey"
    [index_on "projects_slug_unique" (fun r => Some (Project.slug r))].
Definition jobs_table : table string Job.job_row :=
  Table jobs (set_field jobs) Job.id "jobs_pkey" [].
Definition source_revisions_table : table string SourceRevision.source_revision_row :=
  Table sourceRevisions (set_field sourceRevisions) SourceRevision.id
    "source_revisions_pkey" [].
Definition source_files_table : table string SourceFile.source_file_row :=
  Table sourceFiles (set_field sourceFiles) SourceFile.id "source_files_pkey"
    [source_files_revision_path_idx].
Definition schedules_table : table string Schedule.schedule_row :=
  Table schedules (set_field schedules) Schedule.id "schedules_pkey" [].
Definition releases_table : table string Release.release_row :=
  Table releases (set_field releases) Release.id "releases_pkey" [].
Definition deployments_table : table string Deployment.deployment_row :=
  Table deployments (set_field deployments) Deployment.id "deployments_pkey"
    [deployments_project_key_idx].
Definition project_schedules_table : table string ProjectSchedule.project_schedule_row :=
  Table projectSchedules (set_field projectSchedules) ProjectSchedule.id
    "project_schedules_pkey" [project_schedules_project_key_idx].
Definition schedule_versions_table : table string ScheduleVersion.schedule_version_row :=
  Table scheduleVersions (set_field scheduleVersions) ScheduleVersion.id
    "schedule_versions_pkey" [schedule_versions_schedule_revision_idx].
Definition scheduler_targets_table : table string SchedulerTarget.scheduler_target_row :=
  Table projectSchedulerTargets (set_field projectSchedulerTargets)
    SchedulerTarget.projectId "project_scheduler_targets_pkey" [].
Definition schedule_runs_table : table string ScheduleRun.schedule_run_row :=
  Table scheduleRuns (set_field scheduleRuns) ScheduleRun.id "schedule_runs_pkey"
    [schedule_runs_version_due_idx].
Definition runtime_instances_table : table string RuntimeInstance.runtime_instance_row :=
  Table runtimeInstances (set_field runtimeInstances) RuntimeInstance.id
    "runtime_instances_pkey"
    [runtime_instances_deployment_generation_idx; runtime_instances_live_port_idx].
Definition activation_leases_table : table string ActivationLease.activation_lease_row :=
  Table activationLeases (set_field activationLeases) ActivationLease.id
    "activation_leases_pkey" [activation_leases_deployment_kind_owner_idx].
Definition agent_routes_table : table string AgentRoute.agent_route_row :=
  Table agentRoutes (set_field agentRoutes) AgentRoute.id "agent_routes_pkey"
    [agent_routes_hostname_idx].
Definition route_targets_table : table (string * string) RouteTarget.route_target_row :=
  Table routeTargets (set_field routeTargets)
    (fun r => (RouteTarget.routeId r, RouteTarget.deploymentId r))
    "route_targets_route_deployment_idx" [].
Definition session_bindings_table : table string SessionBinding.session_binding_row :=
  Table sessionBindings (set_field sessionBindings) SessionBinding.id
    "session_bindings_pkey" [session_bindings_project_eve_idx].
Definition operation_bindings_table : table string OperationBinding.operation_binding_row :=
  Table operationBindings (set_field operationBindings) OperationBinding.id
    "operation_bindings_pkey" [operation_bindings_project_key_idx].
Definition sessions_table : table string Session.session_row :=
  Table sessions (set_field sessions) Session.id "sessions_pkey"
    [sessions_project_eve_session_idx].
Definition schedule_run_sessions_table
    : table (string * string) ScheduleRunSession.schedule_run_session_row :=
  Table scheduleRunSessions (set_field scheduleRunSessions)
    (fun r => (ScheduleRunSession.scheduleRunId r, ScheduleRunSession.sessionId r))
    "schedule_run_sessions_pkey" [].
Definition session_nodes_table : table string SessionNode.session_node_row :=
  Table sessionNodes (set_field sessionNodes) SessionNode.id "session_nodes_pkey"
    [session_nodes_project_eve_idx].
Definition model_usage_table : table string ModelUsage.model_usage_row :=
  Table modelUsageEvents (set_field modelUsageEvents) ModelUsage.id
    "model_usage_events_pkey"
    [model_usage_session_eve_turn_step_idx; model_usage_node_turn_step_idx;
     model_usage_session_eve_run_idx; model_usage_node_run_idx].
Definition session_events_table : table string SessionEvent.session_event_row :=
  Table sessionEvents (set_field sessionEvents) SessionEvent.id "session_events_pkey"
    [session_events_node_telemetry_idx; session_events_node_fingerprint_idx;
     session_events_session_index_idx].
Definition logs_table : table string Log.log_row :=
  Table logs (set_field logs) Log.id "logs_pkey" [].
Definition users_table : table string User.user_row :=
  Table users (set_field users) User.id "users_pkey"
    [index_on "users_email_unique" (fun r => Some (User.email r))].
Definition teams_table : table string Team.team_row :=
  Table teams (set_field teams) Team.id "teams_pkey"
    [index_on "teams_slug_unique" (fun r => Some (Team.slug r))].
Definition git_credentials_table : table string GitCredential.git_credential_row :=
  Table gitCredentials (set_field gitCredentials) GitCredential.id "git_credentials_pkey"
    [git_credentials_user_host_idx].
Definition source_preflights_table : table string SourcePreflight.source_preflight_row :=
  Table sourcePreflights (set_field sourcePreflights) SourcePreflight.id
    "source_preflights_pkey" [].
Definition secrets_table : table string Secret.secret_row :=
  Table secrets (set_field secrets) Secret.id "secrets_pkey" [secrets_project_key_idx].

(** ** Frames

    What a statement leaves alone: a state update of one table is the
    identity on the others, and on everything a rollback keeps. *)
Lemma same_key_clash {R C} `{EqDecision C} (key : R -> option C) r1 r2 :
  same_key key r1 r2 = true <-> exists c, key r1 = Some c /\ key r2 = Some c.
Proof.
  unfold same_key. destruct (key r1), (key r2); rewrite ?bool_decide_eq_true;
    naive_solver.
Qed.

Lemma same_key_false {R C} `{EqDecision C} (key : R -> option C) r1 r2 c :
  key r1 = Some c -> same_key key r1 r2 = false -> key r2 <> Some c.
Proof.
  intros H1 Hf H2. assert (same_key key r1 r2 = true) by (apply same_key_clash; eauto).
  congruence.
Qed.

(** Every descriptor satisfies the lens law by computation. *)
#[export] Hint Extern 0 (LawfulTable _) => (intros ? ?; reflexivity) : typeclass_instances.
