(* ===== verification/Sample.v ===== *)
(** * A concrete platform for the witnesses

    The third-party code the stores call is a parameter of every definition
    ([Store.Platform]).  The witnesses evaluate the definitions, so they need
    one instance of it: numbered identifiers, a validator for the zod
    combinators the job payloads use, bytewise collation, and a clockwork
    cron that ticks every tenth of a second.  No theorem depends on it. *)

From S2P Require Import Prelude Schema Store.
From stdpp Require Import pretty.

Fixpoint sample_valid (z : zod) (j : json) : bool :=
  match z, j with
  | ZString, JStr _ => true
  | ZBoolean, JBool _ => true
  | ZEnum vs, JStr s => bool_decide (s ∈ vs)
  | ZOptional z, j => sample_valid z j
  | ZNullable z, JNull => true
  | ZNullable z, j => sample_valid z j
  | ZArray z, JArr l => forallb (sample_valid z) l
  | ZObject shape, JObj fs =>
      forallb (fun kz => match field kz.1 fs with
                         | Some v => sample_valid kz.2 v
                         | None => match kz.2 with ZOptional _ => true | _ => false end
                         end) shape
  | _, _ => false
  end.

Definition sample_platform : Platform := {|
  nanoid := pretty;
  nanoid_key := pretty;
  collation_leb := fun a b => String.leb a b;
  jsonb_text := fun _ => "?"%string;
  zod_parse := fun z j => if sample_valid z j then Some j else None;
  cron_parse_error := fun s =>
    if bool_decide (s = "a b c d e"%string) then Some "Validation error"%string else None;
  cron_next := fun _ t => Ok (t - t mod 100 + 100)%Z;
|}.

Definition sample_store (d : database) : store := mk_store d 0 1 1 1000.

(** ** Rows the witnesses start from *)

Definition sample_project (pid : string) : Project.project_row :=
  Project.mk pid pid "team" "owner" pid None ImportKind.git None ProjectStatus.imported
    DeploymentStatus.running None None (Some "srev_1") None (Some "dep_1") None 0 0.

Definition sample_deployment (pid did : string) (st : deployment_status)
    : Deployment.deployment_row :=
  Deployment.mk did did pid "rel_1" "c" 3000 4000 st "docker" 0 0.

Definition sample_database : database :=
  empty_database
    <| projects := {[ "p" := sample_project "p" ]}%string |>
    <| deployments := {[ "dep_1" := sample_deployment "p" "dep_1" DeploymentStatus.running ]}%string |>.
