(* ===== verification/Sources.v ===== *)
(** * Source revisions, logs and session queries

    The rest of [packages/db/src/postgres-job-source-store.ts] (the revisions of
    a project's source, its state and its log) and
    [packages/db/src/postgres-session-query-store.ts] (the pages of sessions and
    of the log).  A cursor of the log, which the code passes as the text of a
    number, is that number here; an instant of a schedule is its milliseconds. *)

From S2P Require Import Prelude Schema Store Tables Sample Paging.

Open Scope string_scope.
Open Scope list_scope.
Open Scope nat_scope.

Section Sources.
Context `{Platform}.

(** ** Source revisions *)

Definition getCurrentSourceRevision (projectId : string)
    : Tx (option SourceRevision.source_revision_row) :=
  read (fun d => project ← projects d !! projectId;
                 id ← truthy (Project.sourceRevisionId project);
                 sourceRevisions d !! id).

(** The fields of a schedule the revision declares, without its identifiers. *)
Record declared_schedule : Type := mk_declared_schedule {
  dsc_name : string; dsc_kind : string; dsc_cron : option string; dsc_timezone : option string;
  dsc_enabled : bool; dsc_executable : bool; dsc_sourcePath : string; dsc_nextRunAt : option time
}.

Record revision_input : Type := mk_revision_input {
  ri_projectId : string; ri_kind : string; ri_commitSha : option string;
  ri_origin : option string; ri_baseCommitSha : option string; ri_dirty : option bool;
  ri_uploadedBy : option string; ri_sourcePath : string; ri_summary : json; ri_envVars : json;
  ri_files : list (string * string); ri_schedules : list declared_schedule
}.

Definition revision_row (input : revision_input) (id : string) (now : time)
    : SourceRevision.source_revision_row :=
  SourceRevision.mk id (ri_projectId input) (ri_kind input) (ri_commitSha input)
    (ri_origin input) (ri_baseCommitSha input) (ri_dirty input) (ri_uploadedBy input)
    (ri_sourcePath input) (ri_summary input) (ri_envVars input) now.

(** [Buffer.byteLength(file.content)] *)
Definition insert_file (revisionId : string) (file : string * string) : Tx unit :=
  id <- createId "file" ;;
  _row <- insert_row source_files_table
    (SourceFile.mk id revisionId file.1 file.2 (Z.of_nat (String.length file.2))) ;;
  ret tt.

Definition schedule_of (projectId id : string) (s : declared_schedule) : Schedule.schedule_row :=
  Schedule.mk id projectId (dsc_name s) (dsc_kind s) (dsc_cron s) (dsc_timezone s)
    (dsc_enabled s) (dsc_executable s) (dsc_sourcePath s) (dsc_nextRunAt s).

Definition insert_schedule (projectId : string) (s : declared_schedule) : Tx unit :=
  id <- createId "sch" ;;
  _row <- insert_row schedules_table (schedule_of projectId id s) ;;
  ret tt.

(** The project at its new revision: a project never deployed is imported. *)
Definition imported (revisionId : string) (now : time) (p : Project.project_row)
    : Project.project_row :=
  p <| Project.sourceRevisionId := Some revisionId |>
    <| Project.status ::= fun st =>
         if bool_decide (Project.deploymentId p = None) then ProjectStatus.imported else st |>
    <| Project.updatedAt := now |>.

Definition recordSourceRevision (input : revision_input)
    : Tx SourceRevision.source_revision_row :=
  transaction (
    id <- createId "src" ;;
    now <- clock ;;
    revisionRow <- insert_row source_revisions_table (revision_row input id now) ;;
    for_m (ri_files input) (insert_file (SourceRevision.id revisionRow)) ;;
    delete_where schedules_table
      (fun s => bool_decide (Schedule.projectId s = ri_projectId input)) ;;
    for_m (ri_schedules input) (insert_schedule (ri_projectId input)) ;;
    _p <- update_key projects_table (ri_projectId input) (fun _ => true)
            (imported (SourceRevision.id revisionRow) now) ;;
    ret revisionRow).

Definition listSourceRevisions (projectId : string)
    : Tx (list SourceRevision.source_revision_row) :=
  read (fun d => select_where
    (fun r => bool_decide (SourceRevision.projectId r = projectId)) (sourceRevisions d)).

Definition getSourceRevision (revisionId : string)
    : Tx (option SourceRevision.source_revision_row) :=
  read (fun d => sourceRevisions d !! revisionId).

Definition revision_files (revisionId : string) (d : database) : list SourceFile.source_file_row :=
  order_by (fun a b => collation_leb (SourceFile.path a) (SourceFile.path b))
    (select_where (fun f => bool_decide (SourceFile.revisionId f = revisionId)) (sourceFiles d)).

Definition listSourceRevisionFiles (revisionId : string) : Tx (list SourceFile.source_file_row) :=
  read (revision_files revisionId).

Definition listSourceFiles (projectId : string) : Tx (list SourceFile.source_file_row) :=
  revision <- getCurrentSourceRevision projectId ;;
  match revision with
  | None => ret []
  | Some r => read (revision_files (SourceRevision.id r))
  end.

Definition getSourceFile (projectId filePath : string) : Tx (option SourceFile.source_file_row) :=
  revision <- getCurrentSourceRevision projectId ;;
  match revision with
  | None => ret None
  | Some r =>
      read (fun d => find_where
        (fun f => bool_decide (SourceFile.revisionId f = SourceRevision.id r)
                  && bool_decide (SourceFile.path f = filePath)) (sourceFiles d))
  end.

(** ** The project's state *)

(** An [undefined] column is left alone. *)
Record project_state : Type := mk_project_state {
  pst_status : option project_status; pst_deploymentStatus : option deployment_status
}.

Definition updateProjectState (projectId : string) (state : project_state)
    : Tx (option Project.project_row) :=
  now <- clock ;;
  update_key projects_table projectId (fun _ => true)
    (fun p => p <| Project.status ::= fun st => default st (pst_status state) |>
                <| Project.deploymentStatus ::= fun st => default st (pst_deploymentStatus state) |>
                <| Project.updatedAt := now |>).

(** ** The log *)

Record log_input : Type := mk_log_input {
  li_projectId : string; li_deploymentId : option string; li_type : string; li_line : string
}.

Definition appendLog (input : log_input) : Tx Log.log_row :=
  transaction (
    id <- createId "log" ;;
    seq <- gets st_log_sequence ;;
    modify (fun s => s <| st_log_sequence ::= Z.succ |>) ;;
    now <- clock ;;
    insert_row logs_table
      (Log.mk id (li_projectId input) (li_deploymentId input) (li_type input) (li_line input)
         seq now)).

Definition log_scope (projectId : string) (type : option string) (r : Log.log_row) : bool :=
  bool_decide (Log.projectId r = projectId)
  && match truthy type with Some type => bool_decide (Log.type r = type) | None => true end.

Definition listLogs (projectId : string) (type : option string) : Tx (list Log.log_row) :=
  read (fun d => order_by (asc_by Log.seq) (select_where (log_scope projectId type) (logs d))).

Record page_options : Type := mk_page_options {
  po_limit : Z; po_after : option Z; po_before : option Z
}.

(** [olderCursor] is absent from a page read forward. *)
Record log_page : Type := mk_log_page {
  lp_logs : list Log.log_row; lp_cursor : Z; lp_olderCursor : option (option Z)
}.

Definition page_limit (options : page_options) : nat :=
  Z.to_nat (Z.min (Z.max 1 (po_limit options)) 1000).

Definition listLogsPage (projectId : string) (type : option string) (options : page_options)
    : Tx log_page :=
  let scope := log_scope projectId type in
  let limit := page_limit options in
  throw_if (bool_decide (is_Some (po_after options)) && bool_decide (is_Some (po_before options)))
    (Error "listLogsPage accepts either after or before, not both.") ;;
  match po_after options with
  | Some after =>
      rows <- read (fun d => take limit (order_by (asc_by Log.seq)
        (select_where (fun r => scope r && (after <? Log.seq r)%Z) (logs d)))) ;;
      ret (mk_log_page rows (default after (Log.seq <$> last rows)) None)
  | None =>
      found <- read (fun d => take (S limit) (order_by (desc_by Log.seq)
        (select_where (fun r => scope r
             && match po_before options with Some b => (Log.seq r <? b)%Z | None => true end)
           (logs d)))) ;;
      let hasOlder := bool_decide (limit < length found) in
      let rows := reverse (take limit found) in
      ret (mk_log_page rows (default 0%Z (Log.seq <$> last rows))
             (Some (if hasOlder then Log.seq <$> head rows else None)))
  end.

(** ** Sessions *)

Definition listSessions (projectId : string) : Tx (list Session.session_row) :=
  read (fun d => order_by (desc_by Session.startedAt)
    (select_where (fun r => bool_decide (Session.projectId r = projectId)) (sessions d))).

Definition getSession (sessionId : string) : Tx (option Session.session_row) :=
  read (fun d => sessions d !! sessionId).

Record session_page_input : Type := mk_session_page_input {
  spi_trigger : option session_trigger; spi_scheduleId : option string;
  spi_scheduleRunId : option string; spi_unlinkedOnly : bool; spi_cursor : option string;
  spi_limit : nat
}.

(** [desc(startedAt), desc(id)], and the rows strictly after a cursor in it. *)
Definition newest_session (a b : Session.session_row) : bool :=
  then_by (desc_by Session.startedAt)
    (fun a b => collation_leb (Session.id b) (Session.id a)) a b.

Definition older_session (cursor r : Session.session_row) : bool :=
  (Session.startedAt r <? Session.startedAt cursor)%Z
  || (bool_decide (Session.startedAt r = Session.startedAt cursor)
      && negb (collation_leb (Session.id cursor) (Session.id r))).

Definition session_matches (projectId : string) (input : session_page_input)
    (r : Session.session_row) : bool :=
  bool_decide (Session.projectId r = projectId)
  && match spi_trigger input with Some t => bool_decide (Session.trigger r = t) | None => true end
  && match truthy (spi_scheduleId input) with
     | Some id => bool_decide (Session.scheduleId r = Some id) | None => true end
  && match truthy (spi_scheduleRunId input) with
     | Some id => bool_decide (Session.scheduleRunId r = Some id) | None => true end
  && (negb (spi_unlinkedOnly input) || bool_decide (Session.scheduleRunId r = None)).

Definition sessions_page (input : session_page_input) (found : list Session.session_row)
    : list Session.session_row * option string :=
  let pageRows := take (spi_limit input) found in
  (pageRows, if bool_decide (spi_limit input < length found)
             then Session.id <$> last pageRows else None).

Definition listSessionsPage (projectId : string) (input : session_page_input)
    : Tx (list Session.session_row * option string) :=
  let found := fun (p : Session.session_row -> bool) =>
    read (fun d => take (S (spi_limit input)) (order_by newest_session
      (select_where (fun r => session_matches projectId input r && p r) (sessions d)))) in
  match truthy (spi_cursor input) with
  | Some id =>
      cursor <- read (fun d => find_where (fun r => bool_decide (Session.id r = id)
                                 && bool_decide (Session.projectId r = projectId)) (sessions d)) ;;
      match cursor with
      | None => ret ([], None)
      | Some cursor => rows <- found (older_session cursor) ;; ret (sessions_page input rows)
      end
  | None => rows <- found (fun _ => true) ;; ret (sessions_page input rows)
  end.

Definition listSessionEvents (sessionId : string) : Tx (list SessionEvent.session_event_row) :=
  read (fun d => order_by (asc_by SessionEvent.index)
    (select_where (fun r => bool_decide (SessionEvent.sessionId r = sessionId)) (sessionEvents d))).

Definition listSessionNodes (sessionId : string) : Tx (list SessionNode.session_node_row) :=
  read (fun d => order_by (asc_by SessionNode.createdAt)
    (select_where (fun r => bool_decide (SessionNode.rootSessionId r = sessionId))
       (sessionNodes d))).

(** An inner join with the running sessions, of which one row is asked. *)
Definition hasRunningSessionsObservedBy (runtimeInstanceId : string) : Tx bool :=
  read (fun d => existsb
    (fun n => bool_decide (SessionNode.lastObservedRuntimeInstanceId n = Some runtimeInstanceId)
              && existsb (fun s => bool_decide (Session.id s = SessionNode.rootSessionId n)
                                   && bool_decide (Session.status s = SessionStatus.running))
                   (rows (sessions d)))
    (rows (sessionNodes d))).

Definition listModelUsageEvents (sessionId : string) : Tx (list ModelUsage.model_usage_row) :=
  read (fun d => order_by (asc_by ModelUsage.createdAt)
    (select_where (fun r => bool_decide (ModelUsage.sessionId r = sessionId))
       (modelUsageEvents d))).
End Sources.

(** ** Facts: the log *)

Section LogFacts.
Context `{Platform}.
Implicit Types (d : database) (s : store) (l : list Log.log_row).

(** Every line is numbered, below the sequence's next value, and once. *)
Definition logs_numbered s : Prop :=
  (0 < st_log_sequence s)%Z /\ keyed logs_table (st_db s) /\
  (forall k r, logs (st_db s) !! k = Some r -> (0 < Log.seq r < st_log_sequence s)%Z) /\
  (forall k1 k2 r1 r2, logs (st_db s) !! k1 = Some r1 -> logs (st_db s) !! k2 = Some r2 ->
     Log.seq r1 = Log.seq r2 -> k1 = k2).

(** What else happens: other operations leave the log alone, and the sequence
    never goes back. *)
Inductive log_step : store -> store -> Prop :=
  | step_appendLog input s : log_step s (exec (appendLog input) s)
  | step_elsewhere s s' :
      logs (st_db s') = logs (st_db s) -> (st_log_sequence s <= st_log_sequence s')%Z ->
      log_step s s'.

Lemma appendLog_cases input s :
  let s' := exec (appendLog input) s in
  st_log_sequence s' = (st_log_sequence s + 1)%Z /\
  (logs (st_db s') = logs (st_db s) \/
   exists r, Log.seq r = st_log_sequence s /\ logs (st_db s) !! Log.id r = None /\
     logs (st_db s') = <[Log.id r := r]> (logs (st_db s))).
Proof.
  unfold exec, appendLog, transaction, bind, createId, gets, modify, clock. simpl.
  destruct (insert_row _ _ _) as [[r|e] s'] eqn:Hins; simpl.
  - apply insert_row_ok in Hins as (-> & Hn & _ & ->). simpl. split; [lia|]. right.
    by exists (Log.mk ("log" +:+ "_" +:+ nanoid (st_draws s)) (li_projectId input)
      (li_deploymentId input) (li_type input) (li_line input) (st_log_sequence s) (st_clock s)).
  - apply insert_row_err in Hins as ->. simpl. split; [lia|]. by left.
Qed.

(** A line once written stays, and later lines have later numbers. *)
Definition log_grows s s' : Prop :=
  (st_log_sequence s <= st_log_sequence s')%Z /\ logs (st_db s) ⊆ logs (st_db s') /\
  (forall k r, logs (st_db s') !! k = Some r -> logs (st_db s) !! k = None ->
     (st_log_sequence s <= Log.seq r)%Z).

Lemma log_step_numbered s s' :
  log_step s s' -> logs_numbered s -> logs_numbered s' /\ log_grows s s'.
Proof.
  intros Hs (Hpos & Hkey & Hlt & Hone). destruct Hs as [input s|s s' Hl Hq].
  - pose proof (appendLog_cases input s) as [Hq Hcase]. simpl in Hq, Hcase.
    unfold logs_numbered, log_grows, keyed. simpl. rewrite Hq.
    destruct Hcase as [->|(r & Hr & Hn & ->)].
    + split; [|split; [lia|]; split; [done|]; intros; congruence].
      split; [lia|]. split; [done|]. split; [|done]. intros k r Hk. specialize (Hlt k r Hk). lia.
    + split; [split; [lia|split; [|split]]|split; [lia|split; [by apply insert_subseteq|]]].
      * intros k r' [[<- <-]|[_ Hk]]%lookup_insert_Some; [done|]. by apply Hkey.
      * intros k r' [[<- <-]|[_ Hk]]%lookup_insert_Some; [lia|]. specialize (Hlt k r' Hk). lia.
      * intros k1 k2 r1 r2 [[<- <-]|[_ Hk1]]%lookup_insert_Some
          [[<- <-]|[_ Hk2]]%lookup_insert_Some Heq; try done; try (by eapply Hone).
        -- specialize (Hlt _ _ Hk2). lia.
        -- specialize (Hlt _ _ Hk1). lia.
      * intros k r' [[<- <-]|[_ Hk]]%lookup_insert_Some Hnone; [lia|congruence].
  - unfold logs_numbered, log_grows, keyed. simpl. rewrite Hl.
    split; [split; [lia|split; [done|split; [|done]]]|].
    + intros k r Hk. specialize (Hlt k r Hk). lia.
    + split; [done|]. split; [done|]. intros. congruence.
Qed.

Lemma log_grows_trans s1 s2 s3 : log_grows s1 s2 -> log_grows s2 s3 -> log_grows s1 s3.
Proof.
  intros (Hq1 & Hl1 & Hn1) (Hq2 & Hl2 & Hn2). split; [lia|]. split; [by etransitivity|].
  intros k r Hk Hnone. destruct (logs (st_db s2) !! k) as [r2|] eqn:Hk2.
  - pose proof (lookup_weaken _ _ _ _ Hk2 Hl2). simplify_eq. by apply (Hn1 k).
  - specialize (Hn2 k r Hk Hk2). lia.
Qed.

Lemma log_steps_numbered s s' :
  rtc log_step s s' -> logs_numbered s -> logs_numbered s' /\ log_grows s s'.
Proof.
  induction 1 as [s|s s1 s' Hstep _ IH]; intros Hs.
  - split; [done|]. split; [done|]. split; [done|]. intros. congruence.
  - apply log_step_numbered in Hstep as [Hs1 Hg]; [|done]. destruct (IH Hs1) as [Hs' Hg'].
    split; [done|]. by eapply log_grows_trans.
Qed.

(** The lines of a project in their order. *)
Definition scoped_logs (projectId : string) (type : option string) d : list Log.log_row :=
  order_by (asc_by Log.seq) (select_where (log_scope projectId type) (logs d)).

Lemma select_where_and {K R} `{Countable K} (p q : R -> bool) (t : gmap K R) :
  select_where (fun r => p r && q r) t = base.filter (fun r => q r = true) (select_where p t).
Proof.
  unfold select_where. rewrite list_filter_filter. apply list_filter_iff.
  intros r. rewrite andb_true_iff. tauto.
Qed.

Lemma logs_untied s pid ty :
  logs_numbered s -> untied (asc_by Log.seq) (select_where (log_scope pid ty) (logs (st_db s))).
Proof.
  intros (_ & _ & _ & Hone) x y [_ [kx Hx]]%elem_of_select [_ [ky Hy]]%elem_of_select.
  unfold asc_by. rewrite !Z.leb_le. intros Hxy Hyx.
  assert (kx = ky) as -> by (eapply Hone; eauto; lia). congruence.
Qed.
End LogFacts.

(** ** Facts: the pages of the log *)

Section Following.
Context `{Platform}.
Implicit Types (d : database) (s : store) (l : list Log.log_row).

(** The lines numbered in ]a, b]. *)
Definition between_seq (a b : Z) l : list Log.log_row :=
  base.filter (fun r => (a < Log.seq r <= b)%Z) l.

Definition by_seq l : Prop := StronglySorted (le_rel (asc_by Log.seq)) l.

Lemma by_seq_cons r l : by_seq (r :: l) -> by_seq l /\ forall x, x ∈ l -> (Log.seq r <= Log.seq x)%Z.
Proof.
  intros [Hs Hall]%StronglySorted_inv. split; [done|]. rewrite Forall_forall in Hall.
  intros x Hx. specialize (Hall x Hx). unfold le_rel, asc_by in Hall. by apply Z.leb_le in Hall.
Qed.

Lemma between_above a b l : (forall r, r ∈ l -> (b < Log.seq r)%Z) -> between_seq a b l = [].
Proof.
  intros Hl. apply elem_of_nil_inv. intros r [Hr Hin]%list_elem_of_filter.
  specialize (Hl r Hin). lia.
Qed.

(** Adjacent intervals of an ordered log. *)
Lemma between_split a b c l :
  by_seq l -> (a <= b)%Z -> (b <= c)%Z ->
  between_seq a c l = between_seq a b l ++ between_seq b c l.
Proof.
  intros Hs Hab Hbc. induction l as [|r l IH]; [done|].
  apply by_seq_cons in Hs as [Hs Hr]. specialize (IH Hs). unfold between_seq in *.
  rewrite !filter_cons, IH. destruct (decide (Log.seq r <= b)%Z).
  - rewrite (decide_False (P := (b < Log.seq r <= c)%Z)) by lia.
    repeat case_decide; try lia; done.
  - assert (Hnil : base.filter (fun r => (a < Log.seq r <= b)%Z) l = [])
      by (apply between_above; intros x Hx; specialize (Hr x Hx); lia).
    rewrite Hnil, (decide_False (P := (a < Log.seq r <= b)%Z)) by lia.
    repeat case_decide; try lia; done.
Qed.

Definition strictly_by_seq l : Prop := StronglySorted (fun x y => (Log.seq x < Log.seq y)%Z) l.

Lemma strictly_by_seq_weaken l : strictly_by_seq l -> by_seq l.
Proof.
  induction 1 as [|r l Hs IH Hall]; constructor; [done|]. eapply Forall_impl; [exact Hall|].
  intros x Hx. apply Z.leb_le, Z.lt_le_incl, Hx.
Qed.

Lemma strictly_untied l : by_seq l -> untied (asc_by Log.seq) l -> NoDup l -> strictly_by_seq l.
Proof.
  intros Hs Hu. induction Hs as [|r l Hs IH Hall]; intros Hnd; [constructor|].
  apply NoDup_cons in Hnd as [Hr Hnd]. constructor.
  - apply IH; [|done]. intros x y Hx Hy. apply Hu; by right.
  - rewrite Forall_forall in Hall |- *. intros x Hx. specialize (Hall x Hx) as Hle.
    assert (Hne : r <> x) by (intros ->; done). apply Z.leb_le in Hle.
    destruct (decide (Log.seq x <= Log.seq r)%Z) as [Hge|]; [|lia]. destruct Hne.
    apply Hu; [by left | by right | by apply Z.leb_le | by apply Z.leb_le].
Qed.

(** A page of what follows [a] holds all of it up to the number it names. *)
Lemma take_between a n l :
  strictly_by_seq l ->
  let rows := take n (base.filter (fun r => (a < Log.seq r)%Z) l) in
  let c := default a (Log.seq <$> last rows) in
  rows = between_seq a c l /\ (a <= c)%Z.
Proof.
  intros Hs. revert a n. induction Hs as [|r l Hs IH Hall]; intros a n; simpl.
  { rewrite filter_nil, take_nil. simpl. split; [done|lia]. }
  rewrite Forall_forall in Hall. unfold between_seq. rewrite !filter_cons.
  destruct (decide (a < Log.seq r)%Z) as [Hlt|Hge].
  - destruct n as [|n]; simpl.
    + rewrite decide_False by lia. fold (between_seq a a l).
      rewrite between_above by (intros x Hx; specialize (Hall x Hx); lia). split; [done|lia].
    + assert (Hsame : base.filter (fun x => (a < Log.seq x)%Z) l
                      = base.filter (fun x => (Log.seq r < Log.seq x)%Z) l).
      { rewrite !filter_all; [done| |]; intros x Hx; specialize (Hall x Hx); lia. }
      rewrite Hsame. destruct (IH (Log.seq r) n) as [Hrows Hle]. cbv zeta in *.
      set (rows := take n _) in *.
      assert (Hlast : default a (Log.seq <$> last (r :: rows))
                      = default (Log.seq r) (Log.seq <$> last rows))
        by (destruct rows as [|y rows]; [done|]; rewrite last_cons; by destruct (last (y :: rows)) eqn:Hl; [|apply last_None in Hl]).
      rewrite Hlast. set (c := default _ _) in *. rewrite decide_True by lia. split; [|lia].
      f_equal. rewrite Hrows. fold (between_seq a c l).
      rewrite (between_split a (Log.seq r) c l) by
        (first [by apply strictly_by_seq_weaken | lia]).
      by rewrite (between_above a (Log.seq r)).
  - destruct (IH a n) as [Hrows Hle]. cbv zeta in *. split; [|done].
    rewrite decide_False by lia. exact Hrows.
Qed.

Lemma strictly_ext l1 l2 :
  strictly_by_seq l1 -> strictly_by_seq l2 -> (forall r, r ∈ l1 <-> r ∈ l2) -> l1 = l2.
Proof.
  assert (Hnd : forall l, strictly_by_seq l -> NoDup l).
  { induction 1 as [|r l Hs IH Hall]; constructor; [|done].
    rewrite Forall_forall in Hall. intros Hr. specialize (Hall r Hr). lia. }
  intros Hs1 Hs2 Hin. apply (StronglySorted_unique_strong (fun x y => (Log.seq x < Log.seq y)%Z));
    [|done|done|apply NoDup_Permutation; auto].
  intros x y _ _ Hxy Hyx. lia.
Qed.

Lemma strictly_filter (P : Log.log_row -> Prop) `{!forall x, Decision (P x)} l :
  strictly_by_seq l -> strictly_by_seq (base.filter P l).
Proof.
  induction 1 as [|r l Hs IH Hall]; [constructor|]. rewrite filter_cons. case_decide; [|done].
  constructor; [done|]. rewrite Forall_forall in Hall |- *.
  intros x [_ Hx]%list_elem_of_filter. by apply Hall.
Qed.

Lemma scoped_strictly pid ty s :
  logs_numbered s -> strictly_by_seq (scoped_logs pid ty (st_db s)).
Proof.
  intros Hs. pose proof (logs_untied s pid ty Hs) as Hu. unfold scoped_logs.
  apply strictly_untied; [apply order_by_sorted; apply _| |].
  - eapply untied_perm; [symmetry; apply order_by_perm | done].
  - rewrite order_by_perm. apply (NoDup_fmap_1 Log.id), NoDup_select_ids. apply Hs.
Qed.

Lemma elem_of_scoped pid ty d r :
  r ∈ scoped_logs pid ty d <-> log_scope pid ty r = true /\ exists k, logs d !! k = Some r.
Proof. unfold scoped_logs. by rewrite elem_of_order_by, elem_of_select. Qed.

(** What is numbered below the sequence's next value never changes. *)
Lemma between_settled pid ty a c s s' :
  logs_numbered s -> logs_numbered s' -> log_grows s s' -> (c < st_log_sequence s)%Z ->
  between_seq a c (scoped_logs pid ty (st_db s'))
  = between_seq a c (scoped_logs pid ty (st_db s)).
Proof.
  intros Hs Hs' (_ & Hsub & Hnew) Hc. apply strictly_ext;
    [by apply strictly_filter, scoped_strictly..|].
  intros r. unfold between_seq. rewrite !list_elem_of_filter, !elem_of_scoped.
  split; intros (Hr & Hscope & k & Hk); (split; [done|split; [done|]]); exists k.
  - destruct (logs (st_db s) !! k) as [r0|] eqn:Hk0.
    + pose proof (lookup_weaken _ _ _ _ Hk0 Hsub). congruence.
    + specialize (Hnew k r Hk Hk0). lia.
  - by eapply lookup_weaken.
Qed.

(** A page forward. *)
Lemma page_after pid ty limit after s p s' :
  logs_numbered s ->
  listLogsPage pid ty (mk_page_options limit (Some after) None) s = (Ok p, s') ->
  s' = s /\ lp_logs p = between_seq after (lp_cursor p) (scoped_logs pid ty (st_db s)) /\
  (after <= lp_cursor p)%Z /\
  ((after < st_log_sequence s)%Z -> (lp_cursor p < st_log_sequence s)%Z) /\
  (lp_logs p = [] -> forall r, r ∈ scoped_logs pid ty (st_db s) -> (Log.seq r <= after)%Z).
Proof.
  intros Hs [= <- <-]. split; [done|]. simpl.
  assert (Hfound : order_by (asc_by Log.seq)
      (select_where (fun r => log_scope pid ty r && (after <? Log.seq r)%Z) (logs (st_db s)))
    = base.filter (fun r => (after < Log.seq r)%Z) (scoped_logs pid ty (st_db s))).
  { rewrite select_where_and.
    rewrite order_by_filter by (first [apply _ | by apply logs_untied]).
    apply list_filter_iff. intros r. apply Z.ltb_lt. }
  rewrite Hfound.
  destruct (take_between after (page_limit (mk_page_options limit (Some after) None))
              _ (scoped_strictly pid ty s Hs)) as [Hrows Hle]. cbv zeta in *.
  split; [exact Hrows|]. split; [exact Hle|]. split; cycle 1.
  { set (n := page_limit _). assert (Hn : n <> 0) by (unfold n, page_limit; simpl; lia).
    intros Hnil r Hr. apply Z.nlt_ge. intros Hlt.
    assert (Hin : r ∈ base.filter (fun r => (after < Log.seq r)%Z) (scoped_logs pid ty (st_db s)))
      by by apply list_elem_of_filter.
    destruct n as [|n]; [done|]. destruct (base.filter _ _); [by apply not_elem_of_nil in Hin|done]. }
  intros Ha.
  destruct (last _) as [r|] eqn:Hlast; simpl; [|done].
  apply last_Some_elem_of in Hlast. apply elem_of_take in Hlast as (i & Hi & _).
  apply list_elem_of_lookup_2, list_elem_of_filter in Hi as [_ Hi].
  apply elem_of_scoped in Hi as (_ & k & Hk). destruct Hs as (_ & _ & Hlt & _).
  by apply Hlt in Hk as [_ Hk].
Qed.

(** The backward order is the forward one reversed. *)
Lemma desc_logs l :
  untied (asc_by Log.seq) l ->
  order_by (desc_by Log.seq) l = reverse (order_by (asc_by Log.seq) l).
Proof.
  intros Hu. apply (StronglySorted_unique_strong (le_rel (desc_by Log.seq))).
  - intros x y Hx Hy Hxy Hyx. rewrite elem_of_order_by in Hx.
    rewrite elem_of_reverse, elem_of_order_by in Hy. exact (Hu x y Hx Hy Hyx Hxy).
  - apply order_by_sorted; apply _.
  - pose proof (order_by_sorted (asc_by Log.seq) l _ _) as Hs. clear Hu.
    induction Hs as [|r l' Hs IH Hall]; [constructor|]. rewrite reverse_cons.
    rewrite Forall_forall in Hall. apply StronglySorted_app_2; [|done|by repeat constructor].
    intros x y Hx ->%list_elem_of_singleton. rewrite elem_of_reverse in Hx. exact (Hall x Hx).
  - by rewrite reverse_Permutation, !order_by_perm.
Qed.

Lemma by_seq_last l x r :
  by_seq l -> last l = Some x -> r ∈ l -> (Log.seq r <= Log.seq x)%Z.
Proof.
  intros Hs [l' ->]%last_Some Hr. apply elem_of_app in Hr as [Hr| ->%list_elem_of_singleton]; [|lia].
  apply Z.leb_le. exact (StronglySorted_app_1_elem_of (le_rel (asc_by Log.seq)) _ [x] r x Hs Hr (list_elem_of_here _ _)).
Qed.

(** The tail: the last lines. *)
Lemma page_tail pid ty limit s p s' :
  logs_numbered s -> listLogsPage pid ty (mk_page_options limit None None) s = (Ok p, s') ->
  s' = s /\ (0 <= lp_cursor p < st_log_sequence s)%Z /\
  exists old, scoped_logs pid ty (st_db s) = old ++ lp_logs p /\
    (lp_olderCursor p = Some None -> old = []) /\
    between_seq 0 (lp_cursor p) (scoped_logs pid ty (st_db s)) = scoped_logs pid ty (st_db s).
Proof.
  intros Hs [= <- <-]. split; [done|]. cbn [lp_cursor lp_logs lp_olderCursor po_before].
  set (n := page_limit _). set (L := scoped_logs pid ty (st_db s)).
  assert (Hn : n <> 0) by (unfold n, page_limit; simpl; lia).
  pose proof (scoped_strictly pid ty s Hs) as HL. fold L in HL.
  assert (HbL : by_seq L) by (by apply strictly_by_seq_weaken).
  assert (Hfound : order_by (desc_by Log.seq)
      (select_where (fun r => log_scope pid ty r && true) (logs (st_db s))) = reverse L).
  { rewrite select_where_and, filter_all by done.
    by apply desc_logs, logs_untied. }
  rewrite Hfound, take_take. replace (n `min` S n) with n by lia.
  rewrite take_reverse, reverse_involutive. set (k := length L - n).
  assert (Hpos : forall r, r ∈ L -> (0 < Log.seq r < st_log_sequence s)%Z).
  { intros r (_ & j & Hj)%elem_of_scoped. by eapply Hs. }
  destruct (last (drop k L)) as [x|] eqn:Hlast; simpl.
  - assert (Hx : last L = Some x).
    { rewrite <- (take_drop k L), last_app, Hlast. done. }
    pose proof (last_Some_elem_of _ _ Hx) as Hin.
    split; [specialize (Hpos x Hin); lia|].
    exists (take k L). split; [by rewrite take_drop|]. split.
    + case_bool_decide as Hlen; [|intros _; rewrite length_take, length_reverse in Hlen; unfold k].
      * intros [= Hh]. destruct (drop k L) as [|y l']; [done|]. done.
      * by replace (length L - n) with 0 by lia.
    + apply filter_all. intros r Hr. split; [by apply Hpos|]. by eapply by_seq_last.
  - apply last_None in Hlast. rewrite Hlast. split; [destruct Hs; simpl; lia|].
    assert (HL0 : L = []).
    { apply (f_equal length) in Hlast. rewrite length_drop in Hlast. simpl in Hlast.
      apply length_zero_iff_nil. unfold k in Hlast. lia. }
    exists []. by rewrite HL0.
Qed.

(** A follower: pages read forward, each from the cursor of the last, with any
    steps of the log between them. *)
Inductive followed (pid : string) (ty : option string)
    : Z -> store -> list (list Log.log_row) -> Z -> store -> Prop :=
  | followed_nothing c s : followed pid ty c s [] c s
  | followed_page limit c s s1 p s2 pages c' s' :
      rtc log_step s s1 ->
      listLogsPage pid ty (mk_page_options limit (Some c) None) s1 = (Ok p, s2) ->
      followed pid ty (lp_cursor p) s2 pages c' s' ->
      followed pid ty c s (lp_logs p :: pages) c' s'.

Lemma followed_between pid ty c s pages c' s' :
  followed pid ty c s pages c' s' -> logs_numbered s -> (c < st_log_sequence s)%Z ->
  logs_numbered s' /\ log_grows s s' /\ (c <= c')%Z /\ (c' < st_log_sequence s')%Z /\
  mjoin pages = between_seq c c' (scoped_logs pid ty (st_db s')).
Proof.
  induction 1 as [c s|limit c s s1 p s2 pages c' s' Hsteps Hpage _ IH]; intros Hs Hc.
  - split; [done|]. split; [split; [done|split; [done|intros; congruence]]|].
    split; [lia|]. split; [done|]. simpl. unfold between_seq. symmetry.
    apply elem_of_nil_inv. intros r [Hr _]%list_elem_of_filter. lia.
  - apply log_steps_numbered in Hsteps as [Hs1 Hg1]; [|done].
    pose proof (page_after _ _ _ _ _ _ _ Hs1 Hpage) as (-> & Hrows & Hle & Hlt & _).
    assert (Hc1 : (c < st_log_sequence s1)%Z) by (destruct Hg1; lia).
    destruct (IH Hs1 (Hlt Hc1)) as (Hs' & Hg' & Hle' & Hlt' & Hjoin).
    split; [done|]. split; [by eapply log_grows_trans|]. split; [lia|]. split; [done|].
    simpl. rewrite Hjoin, Hrows.
    rewrite <- (between_settled pid ty c (lp_cursor p) s1 s') by auto.
    symmetry. apply between_split; [by apply strictly_by_seq_weaken, scoped_strictly|lia..].
Qed.
End Following.

(** ** Facts: the pages of sessions *)

(** What Postgres documents of a deterministic collation: a total order. *)
Class LawfulCollation `{Platform} : Prop := {
  collation_total : Total (le_rel collation_leb);
  collation_trans : Transitive (le_rel collation_leb);
  collation_antisym a b : collation_leb a b = true -> collation_leb b a = true -> a = b
}.

Section SessionPages.
Context `{Platform} `{!LawfulCollation}.

#[local] Instance newest_session_total : Total (le_rel newest_session).
Proof.
  intros a b. unfold le_rel, newest_session, then_by, desc_by.
  destruct (Z.leb_spec (Session.startedAt b) (Session.startedAt a)),
    (Z.leb_spec (Session.startedAt a) (Session.startedAt b)); simpl; try lia; auto.
  destruct (collation_total (Session.id b) (Session.id a)) as [Hab|Hab];
    unfold le_rel in Hab; rewrite Hab; auto.
Qed.

#[local] Instance newest_session_trans : Transitive (le_rel newest_session).
Proof.
  intros a b c. unfold le_rel, newest_session, then_by, desc_by.
  destruct (Z.leb_spec (Session.startedAt b) (Session.startedAt a)),
    (Z.leb_spec (Session.startedAt a) (Session.startedAt b)),
    (Z.leb_spec (Session.startedAt c) (Session.startedAt b)),
    (Z.leb_spec (Session.startedAt b) (Session.startedAt c)),
    (Z.leb_spec (Session.startedAt c) (Session.startedAt a)),
    (Z.leb_spec (Session.startedAt a) (Session.startedAt c)); simpl; try lia; auto.
  intros Hab Hbc. exact (collation_trans _ _ _ Hbc Hab).
Qed.

Lemma newest_untied (l : list Session.session_row) :
  (forall x y, x ∈ l -> y ∈ l -> Session.id x = Session.id y -> x = y) -> untied newest_session l.
Proof.
  intros Hid x y Hx Hy. unfold newest_session, then_by, desc_by.
  intros [Hge Hxy]%andb_true_iff [Hle Hyx]%andb_true_iff. apply (Hid x y Hx Hy).
  rewrite Hle in Hxy. rewrite Hge in Hyx. simpl in *. by apply collation_antisym.
Qed.

Lemma older_session_past c r : older_session c r = past newest_session c r.
Proof.
  unfold older_session, past, newest_session, then_by, desc_by.
  destruct (Z.leb_spec (Session.startedAt c) (Session.startedAt r)),
    (Z.leb_spec (Session.startedAt r) (Session.startedAt c)),
    (Z.ltb_spec (Session.startedAt r) (Session.startedAt c)); simpl; try lia; try done.
  - by rewrite bool_decide_eq_true_2 by lia.
  - by rewrite bool_decide_eq_false_2 by lia.
Qed.

Definition at_cursor (input : session_page_input) (cursor : option string) : session_page_input :=
  mk_session_page_input (spi_trigger input) (spi_scheduleId input) (spi_scheduleRunId input)
    (spi_unlinkedOnly input) cursor (spi_limit input).

(** The page an API client is answered. *)
Definition fetch_page (projectId : string) (input : session_page_input) (s : store)
    (cursor : option string) : list Session.session_row * option string :=
  match listSessionsPage projectId (at_cursor input cursor) s with
  | (Ok page, _) => page
  | (Err _, _) => ([], None)
  end.

Definition matching_sessions (projectId : string) (input : session_page_input) (d : database)
    : list Session.session_row :=
  order_by newest_session (select_where (session_matches projectId input) (sessions d)).

Lemma elem_of_matching pid input d r :
  r ∈ matching_sessions pid input d <->
  session_matches pid input r = true /\ exists k, sessions d !! k = Some r.
Proof. unfold matching_sessions. by rewrite elem_of_order_by, elem_of_select. Qed.

Lemma sessions_page_of input l :
  sessions_page input (take (S (spi_limit input)) l)
  = (fun '(p, n) => (p, Session.id <$> n)) (page_of (spi_limit input) l).
Proof. unfold sessions_page, page_of. by case_bool_decide. Qed.

Lemma fetch_pages pid input s :
  keyed sessions_table (st_db s) -> sessions (st_db s) !! ""%string = None ->
  let L := matching_sessions pid input (st_db s) in
  let page := fun l => (fun '(p, n) => (p, Session.id <$> n)) (page_of (spi_limit input) l) in
  fetch_page pid input s None = page L /\
  forall i x, L !! i = Some x -> fetch_page pid input s (Some (Session.id x)) = page (drop (S i) L).
Proof.
  intros Hkey Hnone L page.
  assert (Hone : forall x y, x ∈ select_where (session_matches pid input) (sessions (st_db s)) ->
    y ∈ select_where (session_matches pid input) (sessions (st_db s)) ->
    Session.id x = Session.id y -> x = y).
  { intros x y [_ [kx Hx]]%elem_of_select [_ [ky Hy]]%elem_of_select Hid.
    assert (Session.id x = kx) as <- by by apply Hkey.
    assert (Session.id y = ky) as <- by by apply Hkey. congruence. }
  pose proof (newest_untied _ Hone) as Hu.
  split.
  { unfold fetch_page, listSessionsPage. simpl. unfold read, gets, bind, ret.
    change (sessions_page (at_cursor input None)) with (sessions_page input).
    rewrite sessions_page_of, select_where_and, filter_all by done. done. }
  intros i x Hi. pose proof (list_elem_of_lookup_2 _ _ _ Hi) as Hx.
  apply elem_of_matching in Hx as [Hm [k Hk]].
  assert (Session.id x = k) as Hid by by apply Hkey. subst k.
  assert (Htruthy : truthy (Some (Session.id x)) = Some (Session.id x)).
  { destruct (Session.id x) eqn:He; [|done]. by rewrite Hnone in Hk. }
  assert (Hfind : find_where (fun r => bool_decide (Session.id r = Session.id x)
            && bool_decide (Session.projectId r = pid)) (sessions (st_db s)) = Some x).
  { destruct (find_where _ _) as [y|] eqn:Hf.
    - apply find_where_Some in Hf as ([Hy%bool_decide_eq_true _]%andb_true_iff & k & Hky).
      assert (Session.id y = k) as <- by by apply Hkey. congruence.
    - rewrite find_where_None in Hf. specialize (Hf _ _ Hk).
      rewrite bool_decide_eq_true_2 in Hf by done. unfold session_matches in Hm.
      by destruct (bool_decide (Session.projectId x = pid)). }
  assert (Hdrop : base.filter (fun r => older_session x r = true) L = drop (S i) L).
  { rewrite <- (filter_past newest_session L i x).
    - apply list_filter_iff. intros r. by rewrite older_session_past.
    - apply order_by_sorted; apply _.
    - eapply untied_perm; [symmetry; apply order_by_perm | done].
    - unfold L, matching_sessions. rewrite order_by_perm.
      apply (NoDup_fmap_1 Session.id), NoDup_select_ids. apply Hkey.
    - done. }
  unfold fetch_page, listSessionsPage. cbn [spi_cursor at_cursor]. rewrite Htruthy.
  unfold read, gets, bind, ret. rewrite Hfind.
  change (sessions_page (at_cursor input (Some (Session.id x)))) with (sessions_page input).
  cbn [spi_limit at_cursor]. rewrite sessions_page_of, select_where_and.
  change (session_matches pid (at_cursor input (Some (Session.id x))))
    with (session_matches pid input).
  rewrite order_by_filter by (first [apply _ | done]).
  fold (matching_sessions pid input (st_db s)). fold L. by rewrite Hdrop.
Qed.
End SessionPages.

(** ** Properties *)

Section Properties.
Context `{Platform}.
#[local] Existing Instances newest_session_total newest_session_trans.

(** C17. A reader who takes the tail of a project's log and then follows it,
    page by page, with any appends by others between the pages, has read every
    line up to the last cursor, each once and in the order they were appended;
    and a page that comes back empty says nothing more had been written. *)
Theorem followed_logs_complete pid ty limit s0 tail s0' pages c s :
  logs_numbered s0 ->
  listLogsPage pid ty (mk_page_options limit None None) s0 = (Ok tail, s0') ->
  followed pid ty (lp_cursor tail) s0' pages c s ->
  let L := scoped_logs pid ty (st_db s) in
  (exists old, between_seq 0 c L = old ++ lp_logs tail ++ mjoin pages /\
     (lp_olderCursor tail = Some None -> old = [])) /\
  (forall limit' p s', listLogsPage pid ty (mk_page_options limit' (Some c) None) s = (Ok p, s') ->
     lp_logs p = [] -> between_seq 0 c L = L).
Proof.
  intros Hs Htail Hfol L.
  pose proof (page_tail _ _ _ _ _ _ Hs Htail) as (-> & [Hc Hlt] & old & Hold & Holder & Hall).
  pose proof (followed_between _ _ _ _ _ _ _ Hfol Hs Hlt) as (Hs' & Hg & Hle & Hlt' & Hjoin).
  assert (Hpos : forall r, r ∈ L -> (0 < Log.seq r)%Z)
    by (intros r (_ & k & Hk)%elem_of_scoped; by eapply Hs').
  assert (Hsort : by_seq L) by (by apply strictly_by_seq_weaken, scoped_strictly).
  split.
  - exists old. split; [|done].
    rewrite Hjoin, app_assoc, <- Hold, <- Hall, <- (between_settled pid ty 0 _ s0 s) by done.
    by apply between_split.
  - intros limit' p s' Hpage Hnil. apply filter_all. intros r Hr. split; [by apply Hpos|].
    destruct (page_after _ _ _ _ _ _ _ Hs' Hpage) as (_ & _ & _ & _ & Hempty). by apply Hempty.
Qed.

(** The pages of a project's sessions list every session that matches,
    newest first and each once, no page longer than the limit, however many
    start in the same millisecond. *)
Lemma session_pages_cover `{!LawfulCollation} pid input s :
  keyed sessions_table (st_db s) -> sessions (st_db s) !! ""%string = None ->
  spi_limit input <> 0 ->
  let L := matching_sessions pid input (st_db s) in
  exists pages, walk_pages (fetch_page pid input s) (S (length L)) None = Some pages /\
    mjoin pages = L /\ Forall (fun page => length page <= spi_limit input) pages /\
    StronglySorted (le_rel newest_session) L /\ NoDup L /\
    forall r, r ∈ L <-> session_matches pid input r = true /\ exists k, sessions (st_db s) !! k = Some r.
Proof.
  intros Hkey Hne Hl L. destruct (fetch_pages pid input s Hkey Hne) as [Hfirst Hnext].
  destruct (walk_pages_all Session.id (fetch_page pid input s) (spi_limit input) L Hl Hfirst Hnext)
    as (pages & Hwalk & Hjoin & Hall).
  exists pages. split; [done|]. split; [done|]. split; [done|].
  split; [apply order_by_sorted; apply _|]. split; [|apply elem_of_matching].
  unfold L, matching_sessions. rewrite order_by_perm.
  apply (NoDup_fmap_1 Session.id), NoDup_select_ids. apply Hkey.
Qed.
End Properties.

(** ** Witnesses *)

Lemma bytewise_trans a b c : String.leb a b = true -> String.leb b c = true -> String.leb a c = true.
Proof.
  unfold String.leb. revert b c. induction a as [|x a IH]; intros [|y b] [|z c]; simpl; try done.
  unfold Ascii.compare.
  destruct (N.compare_spec (Ascii.N_of_ascii x) (Ascii.N_of_ascii y)) as [Hxy|Hxy|Hxy]; try done;
  destruct (N.compare_spec (Ascii.N_of_ascii y) (Ascii.N_of_ascii z)) as [Hyz|Hyz|Hyz]; try done;
  destruct (N.compare_spec (Ascii.N_of_ascii x) (Ascii.N_of_ascii z)) as [Hxz|Hxz|Hxz]; try done;
    try lia.
  apply IH.
Qed.

Definition sample_collation : @LawfulCollation sample_platform.
Proof.
  split.
  - intros a b. destruct (String.leb_total a b); auto.
  - intros a b c. apply bytewise_trans.
  - apply String.leb_antisym.
Qed.

#[local] Existing Instance sample_platform.

Definition log_line (line : string) : log_input := mk_log_input "p" (Some "dep_1") "build" line.

Definition log_start : store := sample_store sample_database.
Definition log_one : store := exec (appendLog (log_line "one")) log_start.
Definition log_more : store :=
  exec (appendLog (log_line "three"))
    (exec (appendLog (mk_log_input "q" None "build" "elsewhere"))
       (exec (appendLog (log_line "two")) log_one)).

(** The tail of one line, then pages of one line each while two more arrive. *)
Lemma followed_logs_complete_witness :
  exists tail pages,
    listLogsPage "p" (Some "build") (mk_page_options 1 None None) log_one = (Ok tail, log_one) /\
    followed "p" (Some "build") (lp_cursor tail) log_one pages 4 log_more /\
    (exists old, between_seq 0 4 (scoped_logs "p" (Some "build") (st_db log_more))
                 = old ++ lp_logs tail ++ mjoin pages) /\
    Log.line <$> lp_logs tail ++ mjoin pages = ["one"; "two"; "three"].
Proof.
  assert (Hs : logs_numbered log_one).
  { apply (log_steps_numbered log_start); [apply rtc_once, step_appendLog|].
    split; [done|]. split; [|split]; intros ? *; by vm_compute. }
  assert (Hsteps : rtc log_step log_one log_more)
    by (eapply rtc_l; [apply step_appendLog|]; eapply rtc_l; [apply step_appendLog|];
        apply rtc_once, step_appendLog).
  eexists _, _.
  assert (Htail : listLogsPage "p" (Some "build") (mk_page_options 1 None None) log_one
    = (Ok (mk_log_page [Log.mk "log_0" "p" (Some "dep_1") "build" "one" 1 1000] 1 (Some None)), log_one))
    by (vm_compute; reflexivity).
  assert (Hfol : followed "p" (Some "build") 1 log_one
    [[Log.mk "log_1" "p" (Some "dep_1") "build" "two" 2 1000];
     [Log.mk "log_3" "p" (Some "dep_1") "build" "three" 4 1000]] 4 log_more).
  { eapply (followed_page _ _ 1 1 log_one log_more
      (mk_log_page [Log.mk "log_1" "p" (Some "dep_1") "build" "two" 2 1000] 2 None));
      [exact Hsteps | vm_compute; reflexivity|].
    eapply (followed_page _ _ 1 2 log_more log_more
      (mk_log_page [Log.mk "log_3" "p" (Some "dep_1") "build" "three" 4 1000] 4 None));
      [apply rtc_refl | vm_compute; reflexivity | apply followed_nothing]. }
  split; [exact Htail|]. split; [exact Hfol|]. split; [|reflexivity].
  destruct (followed_logs_complete _ _ _ _ _ _ _ _ _ Hs Htail Hfol) as [(old & Hold & _) _].
  by exists old.
Defined.

(** Three sessions of one instant, two to a page. *)
Definition page_session (id : string) (startedAt : time) : Session.session_row :=
  Session.mk id "p" None None None None None None SessionTrigger.api None None SessionStatus.running
    None startedAt None 0 0 0 0 None 0 0.

Definition paged_store : store :=
  sample_store (sample_database <| sessions :=
    {[ "ses_a" := page_session "ses_a" 5; "ses_b" := page_session "ses_b" 5;
       "ses_c" := page_session "ses_c" 5; "ses_d" := page_session "ses_d" 7 ]}%string |>).

Definition page_input : session_page_input := mk_session_page_input None None None false None 2.

Lemma session_pages_cover_witness :
  exists pages, walk_pages (fetch_page "p" page_input paged_store)
    (S (length (matching_sessions "p" page_input (st_db paged_store)))) None = Some pages /\
    mjoin (M := list) pages = matching_sessions "p" page_input (st_db paged_store) /\
    List.map (List.map Session.id) pages = [["ses_d"; "ses_c"]; ["ses_b"; "ses_a"]].
Proof.
  assert (Hkey : keyed sessions_table (st_db paged_store)).
  { intros k r Hk. revert k r Hk.
    apply (map_Forall_lookup (fun k r => Session.id r = k) (sessions (st_db paged_store))).
    apply (bool_decide_eq_true_1 _). by vm_compute. }
  destruct (@session_pages_cover _ sample_collation "p" page_input paged_store Hkey
              eq_refl ltac:(discriminate)) as (pages & Hwalk & Hjoin & _).
  exists pages. split; [exact Hwalk|]. split; [exact Hjoin|].
  assert (Hsame : Some pages = walk_pages (fetch_page "p" page_input paged_store) 5 None)
    by (rewrite <- Hwalk; reflexivity).
  revert Hsame. vm_compute. by intros [= ->].
Defined.
