(* ===== verification/Slugs.v ===== *)
(** * Project slugs

    [packages/core/src/ids.ts]: the slug of a project's name, and the claim of
    the first candidate nobody has.  The Unicode decomposition and lower-casing
    of the name ([fold_text]) is a parameter, whose values on ASCII text are
    written out. *)

From stdpp Require Import pretty.
From S2P Require Import Prelude Strings Encoding Schema Store Tables Sample.

Open Scope eve_scope.
Open Scope string_scope.

(** [.normalize("NFKD").replace(/\p{Diacritic}/gu, "").toLowerCase()] *)
Class UnicodeText := { fold_text : string -> string }.

Definition PROJECT_SLUG_MAX_LENGTH : nat := 53.

Definition hyphen : Ascii.ascii := Ascii.ascii_of_nat 45.

(** [[a-z0-9]] *)
Definition slug_char (c : Ascii.ascii) : bool :=
  let n := Ascii.nat_of_ascii c in
  ((97 <=? n) && (n <=? 122) || (48 <=? n) && (n <=? 57))%nat.

(** [.replace(/[^a-z0-9]+/g, "-")]; [inside] a run that has its hyphen. *)
Fixpoint hyphenate (inside : bool) (s : string) : string :=
  match s with
  | "" => ""
  | String c s =>
      if slug_char c then String c (hyphenate false s)
      else if inside then hyphenate true s
      else String hyphen (hyphenate true s)
  end.

(** [.replace(/^-+/, "")] and [.replace(/-+$/, "")] *)
Fixpoint trim_hyphens_start (s : string) : string :=
  match s with
  | "" => ""
  | String c rest => if bool_decide (c = hyphen) then trim_hyphens_start rest else s
  end.

Fixpoint trim_hyphens_end (s : string) : string :=
  match s with
  | "" => ""
  | String c rest =>
      match trim_hyphens_end rest with
      | "" => if bool_decide (c = hyphen) then "" else String c ""
      | rest => String c rest
      end
  end.

Definition slug_of `{UnicodeText} (input : string) : string :=
  trim_hyphens_end (String.substring 0 PROJECT_SLUG_MAX_LENGTH
    (trim_hyphens_end (trim_hyphens_start (hyphenate false (fold_text input))))).

Definition slugifyProjectName `{UnicodeText} (input : string) : result string :=
  let slug := slug_of input in
  if bool_decide (slug = "")
  then Err (Error "Project name must contain at least one ASCII letter or number.")
  else Ok slug.

(** [PROJECT_SLUG_PATTERN]: [/^[a-z0-9](?:[a-z0-9-]*[a-z0-9])?$/] *)
Fixpoint last_char (s : string) : option Ascii.ascii :=
  match s with
  | "" => None
  | String c "" => Some c
  | String _ rest => last_char rest
  end.

Definition slug_pattern (s : string) : bool :=
  match s with String c _ => slug_char c | "" => false end
  && all_chars (fun c => slug_char c || bool_decide (c = hyphen)) s
  && match last_char s with Some c => slug_char c | None => false end.

(** What the check constraint of the column asks as well
    ([projects_slug_check], schema.ts:386-389). *)
Definition valid_slug (s : string) : bool :=
  slug_pattern s && (String.length s <=? PROJECT_SLUG_MAX_LENGTH)%nat.

(** The candidate of an attempt: the base, shortened to make room for the
    attempt's number. *)
Definition slug_suffix (attempt : nat) : string :=
  if bool_decide (attempt = 0%nat) then "" else "-" +:+ pretty attempt.

Definition slug_candidate (base : string) (attempt : nat) : string :=
  trim_hyphens_end (String.substring 0
    (PROJECT_SLUG_MAX_LENGTH - String.length (slug_suffix attempt)) base)
  +:+ slug_suffix attempt.

(** The loop: [remaining] attempts of [maxAttempts] are left. *)
Fixpoint claim_slug_loop {A} (base : string) (claim : string -> Tx (option A))
    (maxAttempts remaining attempt : nat) : Tx A :=
  match remaining with
  | O => throw (Error ("Failed to claim a unique project slug after " +:+ pretty maxAttempts
                       +:+ " attempts."))
  | S remaining =>
      claimed <- claim (slug_candidate base attempt) ;;
      match claimed with
      | Some a => ret a
      | None => claim_slug_loop base claim maxAttempts remaining (S attempt)
      end
  end.

Definition claimProjectSlug `{UnicodeText} {A} (requestedName : string)
    (claim : string -> Tx (option A)) (maxAttempts : option nat) : Tx A :=
  base <- lift (slugifyProjectName requestedName) ;;
  let maxAttempts := default (N.to_nat 10000) maxAttempts in
  claim_slug_loop base claim maxAttempts maxAttempts 0.

(** ** Slugs are valid *)

Abbreviation slug_text := (all_chars (fun c => slug_char c || bool_decide (c = hyphen))).

Lemma all_chars_cons p c s : all_chars p (String c s) = p c && all_chars p s.
Proof. done. Qed.

Lemma slug_char_hyphen : slug_char hyphen = false.
Proof. done. Qed.

Lemma hyphenate_text b s : slug_text (hyphenate b s) = true.
Proof.
  revert b. induction s as [|c s IH]; intros b; [done|]. simpl. destruct (slug_char c) eqn:Hc.
  - rewrite all_chars_cons, Hc. apply IH.
  - destruct b; [apply IH|]. rewrite all_chars_cons. apply IH.
Qed.

Lemma trim_start_text s : slug_text s = true -> slug_text (trim_hyphens_start s) = true.
Proof.
  induction s as [|c s IH]; [done|]. simpl. rewrite all_chars_cons. intros [Hc Hs]%andb_true_iff.
  destruct (bool_decide (c = hyphen)) eqn:Hh; [auto|]. by rewrite all_chars_cons, Hh, Hc.
Qed.

Lemma trim_end_text s : slug_text s = true -> slug_text (trim_hyphens_end s) = true.
Proof.
  induction s as [|c s IH]; [done|]. simpl. rewrite all_chars_cons. intros [Hc Hs]%andb_true_iff.
  specialize (IH Hs). destruct (trim_hyphens_end s) as [|c' s'].
  - destruct (bool_decide (c = hyphen)) eqn:Hh; [done|]. by rewrite all_chars_cons, Hh, Hc.
  - rewrite all_chars_cons. by rewrite Hc.
Qed.

Lemma substring_text n s : slug_text s = true -> slug_text (String.substring 0 n s) = true.
Proof.
  revert n. induction s as [|c s IH]; intros [|n]; try done. simpl. rewrite !all_chars_cons.
  intros [Hc Hs]%andb_true_iff. rewrite Hc. by apply IH.
Qed.

Lemma substring_length n s : (String.length (String.substring 0 n s) <= n)%nat.
Proof. revert n. induction s as [|c s IH]; intros [|n]; simpl; try lia. specialize (IH n). lia. Qed.

Lemma trim_end_length s : (String.length (trim_hyphens_end s) <= String.length s)%nat.
Proof.
  induction s as [|c s IH]; [done|]. simpl. destruct (trim_hyphens_end s) as [|c' s']; [|simpl in *; lia].
  case_bool_decide; simpl; lia.
Qed.

(** Trimmed at the end, a text that begins with no hyphen is empty or a slug. *)
Lemma trim_end_last s c : slug_text s = true -> last_char (trim_hyphens_end s) = Some c -> slug_char c = true.
Proof.
  induction s as [|c0 s IH]; [done|]. rewrite all_chars_cons. intros [Hc Hs]%andb_true_iff. simpl.
  specialize (IH Hs). destruct (trim_hyphens_end s) as [|c' s'].
  - destruct (bool_decide (c0 = hyphen)) eqn:Hh; [done|]. simpl. intros [= <-]. by apply orb_true_iff in Hc as [?|].
  - intros Hl. by apply IH.
Qed.

Definition hyphen_free_start (s : string) : bool :=
  match s with String c _ => slug_char c | "" => true end.

Lemma trim_start_start s : slug_text s = true -> hyphen_free_start (trim_hyphens_start s) = true.
Proof.
  induction s as [|c s IH]; [done|]. rewrite all_chars_cons. intros [Hc Hs]%andb_true_iff. simpl.
  destruct (bool_decide (c = hyphen)) eqn:Hh; [auto|]. simpl. by apply orb_true_iff in Hc as [?|].
Qed.

Lemma trim_end_start s : hyphen_free_start s = true -> hyphen_free_start (trim_hyphens_end s) = true.
Proof.
  destruct s as [|c s]; [done|]. simpl. intros Hc. destruct (trim_hyphens_end s); [|done].
  case_bool_decide; [done|]. done.
Qed.

Lemma substring_start n s : hyphen_free_start s = true -> hyphen_free_start (String.substring 0 n s) = true.
Proof. by destruct n, s. Qed.

Lemma last_char_some c s : exists x, last_char (String c s) = Some x.
Proof. revert c. induction s as [|c' s IH]; intros c; [by exists c|]. exact (IH c'). Qed.

Lemma trimmed_slug s :
  slug_text s = true -> hyphen_free_start s = true -> trim_hyphens_end s <> "" ->
  slug_pattern (trim_hyphens_end s) = true.
Proof.
  intros Ht Hs Hne. unfold slug_pattern. rewrite (trim_end_text s Ht).
  pose proof (trim_end_start s Hs) as Hstart. pose proof (trim_end_last s) as Hlast.
  destruct (trim_hyphens_end s) as [|c rest]; [done|]. simpl in Hstart. rewrite Hstart.
  destruct (last_char_some c rest) as [x Hx]. rewrite Hx. by eapply Hlast.
Qed.

Section Slugs.
Context `{UnicodeText}.

Lemma slug_of_start input :
  slug_text (trim_hyphens_end (trim_hyphens_start (hyphenate false (fold_text input)))) = true /\
  hyphen_free_start (trim_hyphens_end (trim_hyphens_start (hyphenate false (fold_text input)))) = true.
Proof.
  pose proof (hyphenate_text false (fold_text input)) as Ht. apply trim_start_start in Ht as Hs.
  apply trim_start_text in Ht. split; [by apply trim_end_text|by apply trim_end_start].
Qed.

Lemma slugify_valid input slug : slugifyProjectName input = Ok slug -> valid_slug slug = true.
Proof.
  unfold slugifyProjectName. case_bool_decide as Hne; [done|]. intros [= <-].
  destruct (slug_of_start input) as [Ht Hs]. unfold valid_slug, slug_of in *.
  apply andb_true_iff. split.
  - apply trimmed_slug; [by apply substring_text|by apply substring_start|done].
  - apply Nat.leb_le. etransitivity; [apply trim_end_length|]. apply substring_length.
Qed.
End Slugs.

(** ** Slugifying a slug

    A slug that was made from a name has no two hyphens in a row, and is its own
    slug. *)
Fixpoint single_hyphens (s : string) : bool :=
  match s with
  | String c (String d _ as rest) =>
      negb (bool_decide (c = hyphen) && bool_decide (d = hyphen)) && single_hyphens rest
  | _ => true
  end.

Lemma single_cons c s :
  single_hyphens (String c s) =
  negb (bool_decide (c = hyphen) && match s with String d _ => bool_decide (d = hyphen) | "" => false end)
  && single_hyphens s.
Proof. destruct s as [|d s]; simpl; [by rewrite andb_false_r|done]. Qed.

(** A result of [hyphenate] begins with a hyphen only outside a run. *)
Lemma hyphenate_single b s :
  single_hyphens (hyphenate b s) = true /\
  (b = true -> match hyphenate b s with String d _ => bool_decide (d = hyphen) = false | "" => True end).
Proof.
  revert b. induction s as [|c s IH]; intros b; [done|]. simpl. destruct (slug_char c) eqn:Hc.
  - assert (Hh : bool_decide (c = hyphen) = false) by (apply bool_decide_eq_false; by intros ->).
    split; [|done]. rewrite single_cons, Hh. apply IH.
  - destruct b; [apply IH|]. split; [|done]. destruct (IH true) as [Hs Hd]. specialize (Hd eq_refl).
    rewrite single_cons, Hs, andb_true_r. destruct (hyphenate true s) as [|d r]; [done|].
    by rewrite Hd, andb_false_r.
Qed.

Lemma trim_start_single s : single_hyphens s = true -> single_hyphens (trim_hyphens_start s) = true.
Proof.
  induction s as [|c s IH]; [done|]. rewrite single_cons. intros [Hc Hs]%andb_true_iff. simpl.
  destruct (bool_decide (c = hyphen)) eqn:Hh; [auto|]. by rewrite single_cons, Hh.
Qed.

(** Cutting a text at its end leaves a text that begins with the same characters. *)
Fixpoint starts (t s : string) : bool :=
  match t, s with
  | "", _ => true
  | String c t, String d s => bool_decide (c = d) && starts t s
  | String _ _, "" => false
  end.

Lemma starts_single t s : starts t s = true -> single_hyphens s = true -> single_hyphens t = true.
Proof.
  revert s. induction t as [|c t IH]; [done|]. intros [|d s]; [done|]. simpl starts.
  intros [->%bool_decide_eq_true Ht]%andb_true_iff. rewrite !single_cons.
  intros [Hc Hs]%andb_true_iff. rewrite (IH s Ht Hs), andb_true_r.
  destruct t as [|c' t]; [by rewrite andb_false_r|]. destruct s as [|d' s]; [done|]. simpl in Ht.
  by apply andb_true_iff in Ht as [->%bool_decide_eq_true _].
Qed.

Lemma starts_refl s : starts s s = true.
Proof. induction s as [|c s IH]; [done|]. simpl. by rewrite bool_decide_eq_true_2, IH. Qed.

Lemma starts_substring n s : starts (String.substring 0 n s) s = true.
Proof.
  revert n. induction s as [|c s IH]; intros [|n]; try done. simpl.
  by rewrite bool_decide_eq_true_2, IH.
Qed.

Lemma starts_trim_end s : starts (trim_hyphens_end s) s = true.
Proof.
  induction s as [|c s IH]; [done|]. simpl. destruct (trim_hyphens_end s) as [|c' s'].
  - destruct (bool_decide (c = hyphen)); [done|]. simpl. by rewrite bool_decide_eq_true_2.
  - simpl in *. by rewrite bool_decide_eq_true_2.
Qed.

(** What the steps of [slug_of] leave of a slug. *)
Lemma hyphenate_slug s b :
  slug_text s = true -> single_hyphens s = true ->
  (b = true -> match s with String d _ => bool_decide (d = hyphen) = false | "" => True end) ->
  hyphenate b s = s.
Proof.
  revert b. induction s as [|c s IH]; intros b; [done|]. rewrite all_chars_cons, single_cons.
  intros [Hc Hs]%andb_true_iff [Hd Hss]%andb_true_iff Hb. simpl. destruct (slug_char c) eqn:Hcc.
  - by rewrite IH.
  - simpl in Hc. apply bool_decide_eq_true in Hc as ->.
    destruct b; [by specialize (Hb eq_refl); rewrite bool_decide_eq_true_2 in Hb|].
    f_equal. apply IH; [done|done|]. intros _. destruct s as [|d s]; [done|].
    rewrite bool_decide_eq_true_2 in Hd by done. by destruct (bool_decide (d = hyphen)).
Qed.

Lemma trim_start_slug s : hyphen_free_start s = true -> trim_hyphens_start s = s.
Proof.
  destruct s as [|c s]; [done|]. simpl. intros Hc.
  case_bool_decide as Hh; [subst; by rewrite slug_char_hyphen in Hc|done].
Qed.

Lemma trim_end_slug s c : last_char s = Some c -> slug_char c = true -> trim_hyphens_end s = s.
Proof.
  induction s as [|d s IH]; [done|]. destruct s as [|e s].
  - intros [= ->] Hc. simpl. case_bool_decide as Hh; [subst; by rewrite slug_char_hyphen in Hc|done].
  - intros Hl Hc. change (trim_hyphens_end (String d (String e s)))
      with (match trim_hyphens_end (String e s) with
            | "" => if bool_decide (d = hyphen) then "" else String d ""
            | rest => String d rest
            end). by rewrite (IH Hl Hc).
Qed.

Lemma substring_all n s : (String.length s <= n)%nat -> String.substring 0 n s = s.
Proof.
  revert n. induction s as [|c s IH]; intros [|n]; simpl; try done; [lia|]. intros Hn.
  by rewrite IH by lia.
Qed.

(** On ASCII text: the two ASCII characters that count as diacritics go, letters
    become small. *)
Definition ascii_text (s : string) : bool :=
  all_chars (fun c => Ascii.nat_of_ascii c <? 128)%nat s.

Fixpoint fold_ascii (s : string) : string :=
  match s with
  | "" => ""
  | String c s =>
      if ascii_is 94 c || ascii_is 96 c then fold_ascii s else String (lower_ascii c) (fold_ascii s)
  end.

Class LawfulText `{UnicodeText} : Prop :=
  fold_text_ascii : forall s, ascii_text s = true -> fold_text s = fold_ascii s.

Lemma slug_char_facts c :
  slug_char c || bool_decide (c = hyphen) = true ->
  (Ascii.nat_of_ascii c <? 128)%nat = true /\ ascii_is 94 c || ascii_is 96 c = false /\ lower_ascii c = c.
Proof. destruct c as [[] [] [] [] [] [] [] []]; vm_compute; try done; intros [=]. Qed.

Lemma fold_slug_text s : slug_text s = true -> ascii_text s = true /\ fold_ascii s = s.
Proof.
  induction s as [|c s IH]; [done|]. unfold ascii_text in *. rewrite !all_chars_cons.
  intros [(H1 & H2 & H3)%slug_char_facts Hs]%andb_true_iff. destruct (IH Hs) as [Ha Hf].
  simpl fold_ascii. by rewrite H1, Ha, H2, H3, Hf.
Qed.

(** A text has a letter or digit left when its slug is not empty. *)
Definition has_slug_char (s : string) : bool := existsb slug_char (String.list_ascii_of_string s).

Lemma hyphenate_empty b s :
  has_slug_char s = false -> trim_hyphens_start (hyphenate b s) = "".
Proof.
  revert b. unfold has_slug_char. induction s as [|c s IH]; intros b; [done|]. simpl.
  intros [Hc Hs]%orb_false_iff. rewrite Hc. destruct b; [by apply IH|]. simpl. by apply IH.
Qed.

Lemma trim_end_nonempty c s : slug_char c = true -> trim_hyphens_end (String c s) <> "".
Proof.
  intros Hc. simpl. destruct (trim_hyphens_end s); [|done].
  case_bool_decide as Hh; [subst; by rewrite slug_char_hyphen in Hc|done].
Qed.

(** With a slug character, what is left after trimming begins with one. *)
Lemma trim_start_nonempty b s :
  has_slug_char s = true -> exists c r, slug_char c = true /\ trim_hyphens_start (hyphenate b s) = String c r.
Proof.
  revert b. unfold has_slug_char. induction s as [|c s IH]; intros b; [done|]. simpl.
  destruct (slug_char c) eqn:Hc; simpl.
  - intros _. rewrite bool_decide_eq_false_2 by (intros ->; by rewrite slug_char_hyphen in Hc). eauto.
  - intros Hs. destruct b; [by apply IH|]. simpl. by apply IH.
Qed.

Section Idempotent.
Context `{LawfulText}.

Lemma slugify_slug s :
  valid_slug s = true -> single_hyphens s = true -> slugifyProjectName s = Ok s.
Proof.
  unfold valid_slug, slug_pattern. intros [[[Hs Ht]%andb_true_iff Hl]%andb_true_iff Hn]%andb_true_iff Hh.
  destruct (fold_slug_text s Ht) as [Ha Hf]. destruct (last_char s) as [c|] eqn:Hc; [|done].
  unfold slugifyProjectName, slug_of. rewrite (fold_text_ascii s Ha), Hf.
  rewrite (hyphenate_slug s false Ht Hh) by done.
  rewrite trim_start_slug by by destruct s. rewrite (trim_end_slug s c Hc Hl).
  rewrite substring_all by by apply Nat.leb_le. rewrite (trim_end_slug s c Hc Hl).
  by destruct s.
Qed.

(** The slug of a name meets the check constraint of its column: 53
    characters at most, of [a-z0-9-], the first and the last no hyphen; it is
    its own slug; and a name is refused only when neither a letter of the
    English alphabet nor a digit is left of it. *)
Lemma slugifyProjectName_spec input :
  match slugifyProjectName input with
  | Ok slug => valid_slug slug = true /\ slugifyProjectName slug = Ok slug /\
      has_slug_char (fold_text input) = true
  | Err _ => has_slug_char (fold_text input) = false
  end.
Proof.
  destruct (slugifyProjectName input) as [slug|e] eqn:Hslug.
  - pose proof (slugify_valid _ _ Hslug) as Hv. split; [done|].
    unfold slugifyProjectName in Hslug. case_bool_decide as Hne; [done|]. injection Hslug as Hslug. split.
    + apply slugify_slug; [done|]. rewrite <- Hslug. unfold slug_of.
      eapply starts_single; [apply starts_trim_end|]. eapply starts_single; [apply starts_substring|].
      eapply starts_single; [apply starts_trim_end|]. apply trim_start_single, hyphenate_single.
    + apply not_false_iff_true. intros Hnone. apply Hne. unfold slug_of. by rewrite hyphenate_empty.
  - apply not_true_iff_false. intros Hsome. unfold slugifyProjectName in Hslug.
    case_bool_decide as Hne; [|done]. destruct (trim_start_nonempty false _ Hsome) as (c & r & Hc & Hr).
    unfold slug_of in Hne. rewrite Hr in Hne. pose proof (trim_end_start (String c r) Hc) as Hs.
    pose proof (trim_end_nonempty c r Hc) as Hn. destruct (trim_hyphens_end (String c r)) as [|c' r']; [done|].
    by apply (trim_end_nonempty c' (String.substring 0 52 r') Hs).
Qed.
End Idempotent.

(** ** Candidates *)

Lemma suffix_check :
  forallb (fun n => let s := pretty n in
    all_chars slug_char s && (String.length s <=? 4)%nat && (0 <? String.length s)%nat)
    (seq 0 (N.to_nat 10000)) = true.
Proof. by vm_compute. Qed.

Lemma number_text n :
  (n < N.to_nat 10000)%nat ->
  all_chars slug_char (pretty n) = true /\ (0 < String.length (pretty n) <= 4)%nat.
Proof.
  intros Hn. pose proof suffix_check as Hall. rewrite forallb_forall in Hall.
  specialize (Hall n). rewrite in_seq in Hall. specialize (Hall ltac:(lia)). cbv zeta in Hall.
  apply andb_true_iff in Hall as [[Ht Hl]%andb_true_iff H0]. split; [done|].
  apply Nat.leb_le in Hl. apply Nat.ltb_lt in H0. lia.
Qed.

Lemma all_chars_app_text p s t : all_chars p (s +:+ t) = all_chars p s && all_chars p t.
Proof.
  induction s as [|c s IH]; [done|]. rewrite string_app_cons, !all_chars_cons, IH. apply andb_assoc.
Qed.

Lemma last_char_app s c r : last_char (s +:+ String c r) = last_char (String c r).
Proof.
  induction s as [|d s IH]; [done|]. rewrite string_app_cons. simpl.
  destruct (s +:+ String c r) eqn:He; [by destruct s|]. exact IH.
Qed.

Lemma slug_chars_last s c r : all_chars slug_char (String c r) = true -> last_char (String c r) = Some s -> slug_char s = true.
Proof.
  revert c. induction r as [|d r IH]; intros c; rewrite all_chars_cons; intros [Hc Hr]%andb_true_iff.
  - by intros [= <-].
  - intros Hl. by eapply IH.
Qed.

Lemma slug_chars_text s : all_chars slug_char s = true -> slug_text s = true.
Proof.
  induction s as [|c s IH]; [done|]. rewrite !all_chars_cons. intros [-> Hs]%andb_true_iff. by apply IH.
Qed.

(** Shortened to [n] characters, a slug is still one. *)
Lemma shortened_slug base n :
  valid_slug base = true -> (0 < n)%nat ->
  slug_pattern (trim_hyphens_end (String.substring 0 n base)) = true /\
  (String.length (trim_hyphens_end (String.substring 0 n base)) <= n)%nat.
Proof.
  unfold valid_slug, slug_pattern at 1. intros [[[Hs Ht]%andb_true_iff _]%andb_true_iff _]%andb_true_iff Hn.
  split; [|etransitivity; [apply trim_end_length|apply substring_length]].
  destruct base as [|c r]; [done|]. apply trimmed_slug; [by apply substring_text|by apply substring_start|].
  destruct n as [|n]; [lia|]. by apply trim_end_nonempty.
Qed.

Lemma slug_candidate_valid base attempt :
  valid_slug base = true -> (attempt < N.to_nat 10000)%nat ->
  valid_slug (slug_candidate base attempt) = true.
Proof.
  intros Hb Ha. unfold slug_candidate, slug_suffix. case_bool_decide as Hz.
  - destruct (shortened_slug base (PROJECT_SLUG_MAX_LENGTH - 0) Hb) as [Hp Hl]; [by apply Nat.ltb_lt|].
    rewrite string_app_nil_r. change (String.length "") with 0%nat. unfold valid_slug. rewrite Hp. by apply Nat.leb_le.
  - destruct (number_text attempt Ha) as [Ht Hlen]. set (s := pretty attempt) in *.
    change (String.length ("-" +:+ s)) with (S (String.length s)).
    assert (Hpos : (0 < PROJECT_SLUG_MAX_LENGTH - S (String.length s))%nat)
      by (unfold PROJECT_SLUG_MAX_LENGTH; lia).
    destruct (shortened_slug base _ Hb Hpos) as [Hp Hl].
    set (p := trim_hyphens_end _) in *. clearbody p. change ("-" +:+ s) with (String hyphen s).
    unfold valid_slug, slug_pattern in *. apply andb_true_iff in Hp as [[Hs Hpt]%andb_true_iff _].
    apply andb_true_iff. split.
    + rewrite all_chars_app_text, Hpt, last_char_app, all_chars_cons, (slug_chars_text s Ht).
      destruct p as [|c p]; [done|]. simpl in Hs. rewrite string_app_cons, Hs. simpl.
      destruct s as [|d s]; [simpl in Hlen; lia|]. destruct (last_char_some d s) as [x Hx]. rewrite Hx.
      by eapply slug_chars_last.
    + apply Nat.leb_le. rewrite string_length_app. simpl String.length at 2.
      unfold PROJECT_SLUG_MAX_LENGTH in *. lia.
Qed.

(** ** The claim

    A claim that answers [None] for a taken candidate, and leaves the tables
    alone then. *)
Section Claim.
Context {A : Type} (claim : string -> Tx (option A)) (base : string).

(** The state after the candidates before [n] were refused, if they were. *)
Inductive refused_before : nat -> store -> store -> Prop :=
  | refused_none s : refused_before 0 s s
  | refused_next n s s1 s2 :
      refused_before n s s1 -> claim (slug_candidate base n) s1 = (Ok None, s2) ->
      refused_before (S n) s s2.

Lemma claim_slug_loop_run m k n s0 s a s' :
  refused_before n s0 s -> claim_slug_loop base claim m k n s = (Ok a, s') ->
  exists i s1, (n <= i < n + k)%nat /\ refused_before i s0 s1 /\
    claim (slug_candidate base i) s1 = (Ok (Some a), s').
Proof.
  revert n s. induction k as [|k IH]; intros n s Hr Hrun; [done|]. simpl in Hrun.
  apply bind_ok in Hrun as ([a'|] & s1 & Hc & Hrun).
  - injection Hrun as -> ->. exists n, s. split; [lia|done].
  - apply IH in Hrun as (i & s2 & Hi & H2); [|by eapply refused_next]. exists i, s2. split; [lia|done].
Qed.

End Claim.

(** ** A platform for the witnesses *)

Definition sample_text : UnicodeText := {| fold_text := fold_ascii |}.

Lemma sample_text_lawful : @LawfulText sample_text.
Proof. by intros s. Qed.

Lemma slugifyProjectName_spec_witness :
  @slugifyProjectName sample_text "My Agent (v2)!" = Ok "my-agent-v2" /\
  valid_slug "my-agent-v2" = true /\ @slugifyProjectName sample_text "my-agent-v2" = Ok "my-agent-v2".
Proof.
  assert (Hs : @slugifyProjectName sample_text "My Agent (v2)!" = Ok "my-agent-v2") by by vm_compute.
  split; [exact Hs|].
  pose proof (@slugifyProjectName_spec sample_text sample_text_lawful "My Agent (v2)!") as Hspec.
  rewrite Hs in Hspec. split; [exact (proj1 Hspec)|exact (proj1 (proj2 Hspec))].
Defined.
