(* ===== verification/Jobs.v ===== *)
(** * The durable job queue

    [packages/core/src/jobs.ts] (job types, payload contracts) and the job
    operations of [packages/db/src/postgres-job-source-store.ts]: enqueue,
    claim with its exclusion rules and heavy-job cap, lease heartbeat,
    recovery of stale claims, completion and failure fenced by the attempt
    number. *)

From S2P Require Import Prelude Schema Store Tables Sample.

Open Scope string_scope.

(** ** Job types and payloads: [packages/core/src/jobs.ts] *)

Definition gitCredentialSchema : zod :=
  ZObject [("userId", ZString); ("host", ZString); ("encryptedToken", ZString);
           ("persistAfterImport", ZBoolean)].

Definition jobPayloadSchemas : list (string * zod) :=
  [("import_source",
     ZObject [("importKind", ZOptional (ZEnum ["git"; "zip"]));
              ("gitUrl", ZOptional (ZNullable ZString));
              ("sourcePath", ZOptional (ZNullable ZString));
              ("gitCredential", ZOptional gitCredentialSchema);
              ("deployAfterImport", ZOptional ZBoolean);
              ("promoteAfterDeploy", ZOptional ZBoolean);
              ("origin", ZOptional (ZEnum ["git-sync"; "cli-upload"; "dashboard-upload"]));
              ("baseCommitSha", ZOptional (ZNullable ZString));
              ("dirty", ZOptional (ZNullable ZBoolean));
              ("uploadedBy", ZOptional (ZNullable ZString))]);
   ("build_deploy",
     ZObject [("promoteAfterDeploy", ZOptional ZBoolean);
              ("parentJobId", ZOptional ZString);
              ("deploymentId", ZOptional ZString)]);
   ("restart_deployment",
     ZObject [("deploymentId", ZOptional ZString); ("reason", ZOptional ZString)]);
   ("trigger_schedule",
     ZObject [("scheduleRunId", ZString); ("deploymentId", ZOptional ZString)]);
   ("ensure_deployment_running",
     ZObject [("deploymentId", ZString); ("runtimeInstanceId", ZString)]);
   ("archive_deployment",
     ZObject [("deploymentId", ZString); ("automatic", ZOptional ZBoolean)]);
   ("delete_project", ZObject [("sourcePaths", ZOptional (ZArray ZString))])].

Definition HEAVY_JOB_TYPES : list string := ["build_deploy"].

Definition LATENCY_SENSITIVE_JOB_TYPES : list string :=
  ["ensure_deployment_running"; "trigger_schedule"].

Definition PROJECT_MUTATION_JOB_TYPES : list string := ["import_source"; "build_deploy"].

Definition DEPLOYMENT_SCOPED_JOB_TYPES : list string :=
  ["ensure_deployment_running"; "restart_deployment"; "archive_deployment";
   "trigger_schedule"].

Definition isJobType (value : string) : bool :=
  bool_decide (value ∈ jobPayloadSchemas.*1).

Definition isJobStatus (value : string) : bool :=
  bool_decide (value ∈ ["queued"; "running"; "completed"; "failed"]).

Definition decodeJobPayload `{Platform} (type : string) (payload : json) : result json :=
  match (list_to_map jobPayloadSchemas : gmap string zod) !! type with
  | Some schema =>
      match zod_parse schema payload with
      | Some p => Ok p
      | None => Err InvalidPayload
      end
  | None => Err (Error "Cannot read properties of undefined (reading 'parse')")
  end.

(** The [Job] the stores return: the row without its lock and sequence. *)
Module JobView.
Record job_view : Type := mk {
  id : string; projectId : string; type : string; status : string;
  payload : json; attempts : Z; lastError : option string;
  createdAt : time; updatedAt : time
}.
End JobView.
Abbreviation job_view := JobView.job_view.

(** [jobRowToJob] of [packages/db/src/mappers.ts]. *)
Definition jobRowToJob `{Platform} (row : Job.job_row) : result job_view :=
  if negb (isJobType (Job.type row)) then
    Err (InvalidJobRecordError ("Invalid job type " +:+ json_quote (Job.type row)
                                +:+ " for " +:+ Job.id row +:+ "."))
  else if negb (isJobStatus (Job.status row)) then
    Err (InvalidJobRecordError ("Invalid job status " +:+ json_quote (Job.status row)
                                +:+ " for " +:+ Job.id row +:+ "."))
  else match decodeJobPayload (Job.type row) (Job.payload row) with
  | Err _ =>
      Err (InvalidJobRecordError ("Invalid job payload for " +:+ Job.id row +:+ " ("
                                  +:+ Job.type row +:+ ")."))
  | Ok payload =>
      Ok (JobView.mk (Job.id row) (Job.projectId row) (Job.type row) (Job.status row)
            payload (Job.attempts row) (Job.lastError row) (Job.createdAt row)
            (Job.updatedAt row))
  end.

(** Postgres [payload->>'key']: null for a missing key or a JSON null. *)
Definition payload_text `{Platform} (key : string) (payload : json) : option string :=
  match json_get key payload with
  | None | Some JNull => None
  | Some (JStr s) => Some s
  | Some j => Some (jsonb_text j)
  end.

(** [sanitizeStoredErrorText]: text bytes are UTF-8, so U+FFFD is three. *)
Definition replacement_character : string :=
  String (Ascii.ascii_of_nat 239) (String (Ascii.ascii_of_nat 191)
    (String (Ascii.ascii_of_nat 189) "")).

Fixpoint sanitizeStoredErrorText (value : string) : string :=
  match value with
  | "" => ""
  | String c rest =>
      (if bool_decide (c = Ascii.zero) then replacement_character else String c "")
      +:+ sanitizeStoredErrorText rest
  end.

(** ** The queue: [postgres-job-source-store.ts] *)

Section Queue.
Context `{Platform}.

(** [insertJobRowTx] of [postgres-store-support.ts]: the one validated insert.
    The NOTIFY that follows it carries no state. *)
Definition insertJobRowTx (projectId type : string) (payload : json)
    (createdAt updatedAt : option time) : Tx Job.job_row :=
  id <- createId "job" ;;
  decoded <- lift (decodeJobPayload type payload) ;;
  created <- now_or createdAt ;;
  updated <- now_or updatedAt ;;
  seq <- gets st_job_sequence ;;
  modify (fun s => s <| st_job_sequence ::= Z.succ |>) ;;
  insert_row jobs_table
    (Job.mk id projectId type "queued" decoded 0 None None seq created updated).

Definition enqueueJob (projectId type : string) (payload : option json) : Tx job_view :=
  row <- transaction (insertJobRowTx projectId type (default (JObj []) payload) None None) ;;
  job <- lift (jobRowToJob row) ;;
  throw_if (negb (bool_decide (JobView.type job = type)))
    (Error ("Enqueued job " +:+ JobView.id job +:+ " changed type at persistence.")) ;;
  ret job.

(** [mapped = rows.map(f)] for a mapper that throws. *)
Fixpoint map_result {A B} (f : A -> result B) (l : list A) : result (list B) :=
  match l with
  | [] => Ok []
  | a :: l =>
      match f a, map_result f l with
      | Ok b, Ok bs => Ok (b :: bs)
      | Err e, _ => Err e
      | _, Err e => Err e
      end
  end.

Definition listProjectJobs (projectId : string) (type : option string)
    (limit : option nat) : Tx (list job_view) :=
  found <- read (fun d =>
    select_where (fun j =>
      bool_decide (Job.projectId j = projectId) &&
      match type with Some ty => bool_decide (Job.type j = ty) | None => true end)
      (jobs d)) ;;
  mapped <- lift (map_result jobRowToJob
    (take (default 20 limit)
       (order_by (desc_by Job.createdAt) found))) ;;
  throw_if
    match type with
    | Some ty => existsb (fun j => negb (bool_decide (JobView.type j = ty))) mapped
    | None => false
    end (Error "Listed job changed type at persistence.") ;;
  ret mapped.

(** [or(eq(status, "queued"), eq(status, "running"))] *)
Definition job_pending (j : Job.job_row) : bool :=
  bool_decide (Job.status j = "queued") || bool_decide (Job.status j = "running").

(** The pending job of a type whose payload names [value] under [key], the
    newest first. *)
Definition pending_job (projectId type key value : string) (d : database)
    : option Job.job_row :=
  head (order_by (desc_by Job.createdAt)
    (select_where (fun j =>
       bool_decide (Job.projectId j = projectId) && bool_decide (Job.type j = type) &&
       job_pending j && bool_decide (payload_text key (Job.payload j) = Some value))
     (jobs d))).

Definition enqueueDeploymentArchive (projectId deploymentId : string) (automatic : bool)
    : Tx (job_view * bool) :=
  transaction (
    deployment <- read (fun d => deployments d !! deploymentId) ;;
    throw_if
      match deployment with
      | Some dep => negb (bool_decide (Deployment.projectId dep = projectId))
      | None => true
      end (Error "Deployment archive Project is invalid.") ;;
    existing <- read (pending_job projectId "archive_deployment" "deploymentId" deploymentId) ;;
    match existing with
    | Some row => job <- lift (jobRowToJob row) ;; ret (job, false)
    | None =>
        created <- insertJobRowTx projectId "archive_deployment"
          (JObj (("deploymentId", JStr deploymentId) ::
                 if automatic then [("automatic", JBool true)] else [])) None None ;;
        job <- lift (jobRowToJob created) ;;
        ret (job, true)
    end).

Definition enqueueDeploymentActivation (projectId deploymentId runtimeInstanceId : string)
    (now : option time) (staleAfterMs : Z) : Tx job_view :=
  now <- now_or now ;;
  transaction (
    runtimeInstance <- read (fun d => runtimeInstances d !! runtimeInstanceId) ;;
    throw_if
      match runtimeInstance with
      | Some rti => negb (bool_decide (RuntimeInstance.deploymentId rti = deploymentId))
      | None => true
      end (Error "Deployment activation RuntimeInstance is invalid.") ;;
    deployment <- read (fun d => deployments d !! deploymentId) ;;
    throw_if
      match deployment with
      | Some dep => negb (bool_decide (Deployment.projectId dep = projectId))
      | None => true
      end (Error "Deployment activation Project is invalid.") ;;
    existing <- read (pending_job projectId "ensure_deployment_running"
                        "runtimeInstanceId" runtimeInstanceId) ;;
    match existing with
    | Some row =>
        if bool_decide (Job.status row = "running") &&
           Z.leb (Job.updatedAt row) (now - staleAfterMs) then
          o <- update_key jobs_table (Job.id row) (fun _ => true)
                 (fun j => j <| Job.status := "queued" |> <| Job.lockedAt := None |>
                             <| Job.updatedAt := now |>) ;;
          updated <- some_or o (Error "Failed to recover stale Deployment activation job.") ;;
          lift (jobRowToJob updated)
        else lift (jobRowToJob row)
    | None =>
        created <- insertJobRowTx projectId "ensure_deployment_running"
          (JObj [("deploymentId", JStr deploymentId);
                 ("runtimeInstanceId", JStr runtimeInstanceId)]) (Some now) (Some now) ;;
        lift (jobRowToJob created)
    end).

(** ** Claiming *)

Definition is_type (types : list string) (j : Job.job_row) : bool :=
  bool_decide (Job.type j ∈ types).

Definition job_deployment (j : Job.job_row) : option string :=
  payload_text "deploymentId" (Job.payload j).

(** The [not exists] body of the claim: two jobs of one project that may not
    run at the same time. *)
Definition jobs_conflict (candidate running : Job.job_row) : bool :=
  bool_decide (Job.type candidate = "delete_project")
  || bool_decide (Job.type running = "delete_project")
  || (is_type DEPLOYMENT_SCOPED_JOB_TYPES candidate
      && bool_decide (job_deployment candidate = None))
  || (is_type DEPLOYMENT_SCOPED_JOB_TYPES running
      && bool_decide (job_deployment running = None))
  || (is_type PROJECT_MUTATION_JOB_TYPES candidate
      && is_type PROJECT_MUTATION_JOB_TYPES running)
  || (is_type DEPLOYMENT_SCOPED_JOB_TYPES candidate
      && is_type DEPLOYMENT_SCOPED_JOB_TYPES running
      && match job_deployment candidate, job_deployment running with
         | Some a, Some b => bool_decide (a = b)
         | _, _ => false
         end).

Definition job_running (j : Job.job_row) : bool := bool_decide (Job.status j = "running").

Definition running_heavy (d : database) : nat :=
  length (select_where (fun j => job_running j && is_type HEAVY_JOB_TYPES j) (jobs d)).

Record claim_options : Type := mk_claim_options {
  maxConcurrentHeavyJobs : option Z;
  claim_types : option (list string)
}.

(** The [where] of the claim's subquery. *)
Definition claimable (options : claim_options) (d : database) (candidate : Job.job_row)
    : bool :=
  match projects d !! Job.projectId candidate with
  | None => false
  | Some project =>
      bool_decide (Job.status candidate = "queued")
      && negb (existsb (fun running =>
           bool_decide (Job.projectId running = Job.projectId candidate)
           && negb (bool_decide (Job.id running = Job.id candidate))
           && job_running running
           && jobs_conflict candidate running) (rows (jobs d)))
      && (negb (bool_decide (Project.deletionStatus project = Some DeletionStatus.deleting))
          || bool_decide (Job.type candidate = "delete_project"))
      && match maxConcurrentHeavyJobs options with
         | None => true
         | Some cap =>
             negb (is_type HEAVY_JOB_TYPES candidate)
             || Z.ltb (Z.of_nat (running_heavy d)) cap
         end
      && match claim_types options with
         | None => true
         | Some types => is_type types candidate
         end
  end.

(** [case when type in latency then 0 else 1 end asc, created_at asc, sequence asc] *)
Definition claim_rank (j : Job.job_row) : Z * Z * Z :=
  ((if is_type LATENCY_SENSITIVE_JOB_TYPES j then 0 else 1)%Z,
   Job.createdAt j, Job.sequence j).

Definition rank_leb (a b : Z * Z * Z) : bool :=
  let '(a1, a2, a3) := a in
  let '(b1, b2, b3) := b in
  (a1 <? b1)%Z || ((a1 =? b1)%Z && ((a2 <? b2)%Z || ((a2 =? b2)%Z && (a3 <=? b3)%Z))).

Definition claim_leb (a b : Job.job_row) : bool := rank_leb (claim_rank a) (claim_rank b).

Definition claim_candidate (options : claim_options) (d : database) : option Job.job_row :=
  head (order_by claim_leb (select_where (claimable options d) (jobs d))).

Definition job_claimed (now : time) (j : Job.job_row) : Job.job_row :=
  j <| Job.status := "running" |> <| Job.attempts ::= Z.succ |>
    <| Job.lockedAt := Some now |> <| Job.updatedAt := now |>.

(** One turn of the claim loop's UPDATE. *)
Definition claim_row (options : claim_options) (now : time) : Tx (option Job.job_row) :=
  candidate <- read (claim_candidate options) ;;
  match candidate with
  | None => ret None
  | Some j => update_key jobs_table (Job.id j) (fun _ => true) (job_claimed now)
  end.

(** The quarantine of a claimed row that does not decode. *)
Definition quarantine (now : time) (row : Job.job_row) : Tx unit :=
  o <- update_key jobs_table (Job.id row)
    (fun j => job_running j && bool_decide (Job.attempts j = Job.attempts row))
    (fun j => j <| Job.status := "failed" |>
                <| Job.lastError :=
                     Some ("Invalid persisted job contract for " +:+ Job.id row +:+ ".") |>
                <| Job.lockedAt := None |> <| Job.updatedAt := now |>) ;;
  match o with
  | Some _ => ret tt
  | None => throw (Error ("Failed to quarantine invalid job " +:+ Job.id row +:+ "."))
  end.

(** [while (true) { ... }], a turn per unit of fuel. *)
Fixpoint claim_loop (fuel : nat) (options : claim_options) (now : time)
    : Tx (option job_view) :=
  match fuel with
  | O => throw (Error "claim loop: out of fuel")
  | S fuel =>
      row <- claim_row options now ;;
      match row with
      | None => ret None
      | Some row =>
          match jobRowToJob row with
          | Ok job => ret (Some job)
          | Err (InvalidJobRecordError _) =>
              quarantine now row ;; claim_loop fuel options now
          | Err e => throw e
          end
      end
  end.

Definition queued_jobs (d : database) : list Job.job_row :=
  select_where (fun j => bool_decide (Job.status j = "queued")) (jobs d).

Definition claimNextJob (now : option time) (options : claim_options)
    : Tx (option job_view) :=
  now <- now_or now ;;
  throw_if match maxConcurrentHeavyJobs options with
           | Some cap => (cap <? 1)%Z
           | None => false
           end (Error "Heavy-job concurrency cap must be a positive integer.") ;;
  throw_if match claim_types options with
           | Some [] => true
           | _ => false
           end (Error "Job-type claim filter must name at least one type.") ;;
  queued <- read queued_jobs ;;
  claim_loop (S (length queued)) options now.

(** ** The life of a claim *)

(** Running jobs whose lock is at or before the cutoff, oldest lock first. *)
Definition stale_jobs (cutoff : time) (limit : nat) (d : database) : list string :=
  Job.id <$> take limit (order_by
    (fun a b => Z.leb (default 0 (Job.lockedAt a)) (default 0 (Job.lockedAt b)))%Z
    (select_where (fun j =>
       job_running j &&
       match Job.lockedAt j with Some t => Z.leb t cutoff | None => false end) (jobs d))).

Definition recoverStaleJobs (now : option time) (staleAfterMs : Z) (limit : nat) : Tx nat :=
  now <- now_or now ;;
  ids <- read (stale_jobs (now - staleAfterMs)%Z limit) ;;
  recovered <- update_where jobs_table (fun j => bool_decide (Job.id j ∈ ids))
    (fun j => j <| Job.status := "queued" |> <| Job.lockedAt := None |>
                <| Job.updatedAt := now |>) ;;
  ret (length recovered).

(** [and(eq(id), eq(status, "running"), eq(attempts, attempt))], or the id
    alone when the caller gives no attempt. *)
Definition holds_claim (attempt : option Z) (j : Job.job_row) : bool :=
  match attempt with
  | None => true
  | Some a => job_running j && bool_decide (Job.attempts j = a)
  end.

Definition heartbeatJob (jobId : string) (attempt : Z) (now : option time) : Tx bool :=
  now <- now_or now ;;
  o <- update_key jobs_table jobId (holds_claim (Some attempt))
    (fun j => j <| Job.lockedAt := Some now |> <| Job.updatedAt := now |>) ;;
  ret (bool_decide (is_Some o)).

Definition replaceJobPayload (jobId type : string) (payload : json) (attempt : Z) : Tx bool :=
  decoded <- lift (decodeJobPayload type payload) ;;
  now <- clock ;;
  o <- update_key jobs_table jobId
    (fun j => bool_decide (Job.type j = type) && holds_claim (Some attempt) j)
    (fun j => j <| Job.payload := decoded |> <| Job.updatedAt := now |>) ;;
  ret (bool_decide (is_Some o)).

Definition completeJob (jobId : string) (attempt : option Z) : Tx bool :=
  now <- clock ;;
  o <- update_key jobs_table jobId (holds_claim attempt)
    (fun j => j <| Job.status := "completed" |> <| Job.updatedAt := now |>
                <| Job.lockedAt := None |>) ;;
  ret (bool_decide (is_Some o)).

Definition failJob (jobId err : string) (attempt : option Z) : Tx bool :=
  now <- clock ;;
  o <- update_key jobs_table jobId (holds_claim attempt)
    (fun j => j <| Job.status := "failed" |>
                <| Job.lastError := Some (sanitizeStoredErrorText err) |>
                <| Job.updatedAt := now |> <| Job.lockedAt := None |>) ;;
  ret (bool_decide (is_Some o)).
End Queue.

(** ** What the operations other than a claim may do

    A calm transition of the jobs table: an existing row keeps its identity,
    project and type, and its target deployment if its type is scoped by one,
    never becomes running, and never loses an attempt; a new row is not
    running. *)
Section JobFacts.
Context `{Platform}.

Definition calm_row (j j' : Job.job_row) : Prop :=
  Job.id j' = Job.id j /\ Job.projectId j' = Job.projectId j /\
  Job.type j' = Job.type j /\
  (is_type DEPLOYMENT_SCOPED_JOB_TYPES j = true -> job_deployment j' = job_deployment j) /\
  (job_running j' = true -> job_running j = true) /\
  (Job.attempts j <= Job.attempts j')%Z.

Definition calm_jobs (d d' : database) : Prop :=
  (forall k j, jobs d !! k = Some j -> exists j', jobs d' !! k = Some j' /\ calm_row j j') /\
  (forall k j', jobs d' !! k = Some j' -> jobs d !! k = None ->
     Job.id j' = k /\ job_running j' = false).

(** Two running jobs of one project never conflict. *)
Definition exclusive (d : database) : Prop :=
  forall k1 k2 j1 j2, jobs d !! k1 = Some j1 -> jobs d !! k2 = Some j2 -> k1 <> k2 ->
    Job.projectId j1 = Job.projectId j2 ->
    job_running j1 = true -> job_running j2 = true -> jobs_conflict j1 j2 = false.

Definition jobs_keyed (d : database) : Prop :=
  forall k j, jobs d !! k = Some j -> Job.id j = k.

(** The invariant of the queue. *)
Definition queue_ok (d : database) : Prop := jobs_keyed d /\ exclusive d.

#[global] Instance calm_row_preorder : PreOrder calm_row.
Proof.
  split; [intros j; unfold calm_row; naive_solver lia|].
  intros j1 j2 j3 (?&?&Ht&Hd&?&?) (?&?&?&Hd'&?&?). unfold calm_row.
  repeat split; try congruence; [|auto | lia].
  intros Hs. rewrite <- (Hd Hs). apply Hd'. unfold is_type in *. by rewrite Ht.
Qed.

Lemma calm_not_running j j' :
  calm_row j j' -> job_running j = false -> job_running j' = false.
Proof.
  intros (_&_&_&_&Hr&_) Hf. apply not_true_iff_false. intros Ht.
  rewrite (Hr Ht) in Hf. discriminate.
Qed.

#[global] Instance calm_jobs_preorder : PreOrder calm_jobs.
Proof.
  split.
  - intros d. split; [|congruence]. intros k j Hk. exists j. split; [done | reflexivity].
  - intros d1 d2 d3 [H12 N12] [H23 N23]. split.
    + intros k j1 Hk1. destruct (H12 k j1 Hk1) as (j2 & Hk2 & Hc2).
      destruct (H23 k j2 Hk2) as (j3 & Hk3 & Hc3). exists j3. split; [done | by etransitivity].
    + intros k j3 Hk3 Hn1. destruct (jobs d2 !! k) as [j2|] eqn:Hk2; [|auto].
      destruct (N12 k j2 Hk2 Hn1) as [Hid Hr]. destruct (H23 k j2 Hk2) as (j' & Hk' & Hc).
      simplify_eq. split; [|by eapply calm_not_running].
      destruct Hc as [Hid' _]. congruence.
Qed.

(** Each row of the later state by where it comes from. *)
Lemma calm_jobs_inv d d' k j' :
  calm_jobs d d' -> jobs d' !! k = Some j' ->
  (exists j, jobs d !! k = Some j /\ calm_row j j') \/
  (jobs d !! k = None /\ Job.id j' = k /\ job_running j' = false).
Proof.
  intros [Hold Hnew] Hk. destruct (jobs d !! k) as [j|] eqn:Hj.
  - left. destruct (Hold k j Hj) as (j2 & Hk2 & Hc). simplify_eq. eauto.
  - right. split; [done|]. eapply Hnew; eauto.
Qed.

(** What a conflict reads of a row. *)
Lemma jobs_conflict_calm j1 j1' j2 j2' :
  calm_row j1 j1' -> calm_row j2 j2' -> jobs_conflict j1' j2' = jobs_conflict j1 j2.
Proof.
  intros (_&_&Ht1&Hd1&_) (_&_&Ht2&Hd2&_). unfold jobs_conflict, is_type in *.
  rewrite Ht1, Ht2.
  destruct (bool_decide (Job.type j1 ∈ DEPLOYMENT_SCOPED_JOB_TYPES)),
    (bool_decide (Job.type j2 ∈ DEPLOYMENT_SCOPED_JOB_TYPES));
    rewrite ?Hd1, ?Hd2 by done; done.
Qed.

Lemma jobs_conflict_sym j1 j2 : jobs_conflict j1 j2 = jobs_conflict j2 j1.
Proof.
  unfold jobs_conflict, is_type.
  assert (Heq : forall a b : option string,
    match a, b with Some x, Some y => bool_decide (x = y) | _, _ => false end =
    match b, a with Some x, Some y => bool_decide (x = y) | _, _ => false end).
  { intros [x|] [y|]; try done. apply bool_decide_ext. split; congruence. }
  rewrite (Heq (job_deployment j1)). btauto.
Qed.

Lemma calm_queue_ok d d' : calm_jobs d d' -> queue_ok d -> queue_ok d'.
Proof.
  intros Hcalm [Hkey Hex]. split.
  - intros k j' Hk. destruct (calm_jobs_inv _ _ _ _ Hcalm Hk) as [(j & Hj & Hc)|(_&Hid&_)];
      [|done]. destruct Hc as [-> _]. by apply Hkey.
  - intros k1 k2 j1' j2' Hk1 Hk2 Hne Hp Hr1 Hr2.
    destruct (calm_jobs_inv _ _ _ _ Hcalm Hk1) as [(j1 & Hj1 & Hc1)|(_&_&Hn)];
      [|congruence].
    destruct (calm_jobs_inv _ _ _ _ Hcalm Hk2) as [(j2 & Hj2 & Hc2)|(_&_&Hn)];
      [|congruence].
    rewrite (jobs_conflict_calm _ _ _ _ Hc1 Hc2).
    destruct Hc1 as (_&Hp1&_&_&Hrun1&_), Hc2 as (_&Hp2&_&_&Hrun2&_).
    apply (Hex k1 k2); auto; congruence.
Qed.

(** The statements of the queue, as calm transitions. *)
Lemma calm_update d k j f :
  jobs d !! k = Some j -> calm_row j (f j) ->
  calm_jobs d (tbl_set jobs_table (insert k (f j)) d).
Proof.
  intros Hk Hc. split; simpl.
  - intros k' j' Hk'. destruct (decide (k = k')) as [<-|Hne].
    + exists (f j). simplify_eq. by rewrite lookup_insert_eq.
    + exists j'. rewrite lookup_insert_ne by done. split; [done | reflexivity].
  - intros k' j' Hk' Hn. destruct (decide (k = k')) as [<-|Hne]; [congruence|].
    rewrite lookup_insert_ne in Hk' by done. congruence.
Qed.

Lemma calm_insert d j :
  jobs d !! Job.id j = None -> job_running j = false ->
  calm_jobs d (tbl_set jobs_table (insert (Job.id j) j) d).
Proof.
  intros Hk Hr. split; simpl.
  - intros k' j' Hk'. exists j'. rewrite lookup_insert_ne by congruence.
    split; [done | reflexivity].
  - intros k' j' Hk' Hn. destruct (decide (Job.id j = k')) as [<-|Hne].
    + rewrite lookup_insert_eq in Hk'. by simplify_eq.
    + rewrite lookup_insert_ne in Hk' by done. congruence.
Qed.

Lemma calm_update_rows d p f :
  (forall j, p j = true -> calm_row j (f j)) ->
  calm_jobs d (tbl_set jobs_table (update_rows p f) d).
Proof.
  intros Hf. split; simpl.
  - intros k j Hk. rewrite update_rows_lookup, Hk. simpl. eexists. split; [done|].
    destruct (p j) eqn:Hp; [by apply Hf | reflexivity].
  - intros k j'. rewrite update_rows_lookup. intros Hk Hn. rewrite Hn in Hk. discriminate.
Qed.

Lemma moves_insertJobRowTx pid ty p c u : moves calm_jobs (insertJobRowTx pid ty p c u).
Proof.
  unfold insertJobRowTx. walk.
  apply moves_insert_row; [apply _|]. intros d Hd. by apply calm_insert.
Qed.
#[local] Hint Resolve moves_insertJobRowTx : moves.

Lemma moves_enqueueJob pid ty p : moves calm_jobs (enqueueJob pid ty p).
Proof. unfold enqueueJob. walk. Qed.

Lemma moves_enqueueDeploymentArchive pid did auto :
  moves calm_jobs (enqueueDeploymentArchive pid did auto).
Proof. unfold enqueueDeploymentArchive. walk. Qed.

(** An update of one row that only lowers it. *)
Lemma moves_job_update k p f :
  (forall j, p j = true -> calm_row j (f j)) -> moves calm_jobs (update_key jobs_table k p f).
Proof.
  intros Hf. apply moves_update_key; [apply _|]. intros d r Hk Hp.
  apply calm_update; auto.
Qed.

Ltac calm_field_update :=
  apply moves_job_update; intros; unfold calm_row, job_running, job_deployment;
  simpl; repeat split; auto; try lia; try (intros Hq; by rewrite bool_decide_eq_true in Hq).

Lemma moves_enqueueDeploymentActivation pid did rti now stale :
  moves calm_jobs (enqueueDeploymentActivation pid did rti now stale).
Proof. unfold enqueueDeploymentActivation. walk. calm_field_update. Qed.

Lemma moves_quarantine now row : moves calm_jobs (quarantine now row).
Proof. unfold quarantine. walk. calm_field_update. Qed.

Lemma moves_recoverStaleJobs now stale limit : moves calm_jobs (recoverStaleJobs now stale limit).
Proof.
  unfold recoverStaleJobs. walk. apply moves_update_where; [apply _|]. intros d.
  apply calm_update_rows. intros j _. unfold calm_row, job_running; simpl.
  repeat split; auto; try lia; try (intros Hq; by rewrite bool_decide_eq_true in Hq).
Qed.

Lemma moves_heartbeatJob k a now : moves calm_jobs (heartbeatJob k a now).
Proof. unfold heartbeatJob. walk. calm_field_update. Qed.

Lemma moves_completeJob k a : moves calm_jobs (completeJob k a).
Proof. unfold completeJob. walk. calm_field_update. Qed.

Lemma moves_failJob k e a : moves calm_jobs (failJob k e a).
Proof. unfold failJob. walk. calm_field_update. Qed.

(** ** The claim *)

#[global] Instance claim_leb_total : Total (le_rel claim_leb).
Proof.
  intros a b. unfold le_rel, claim_leb, rank_leb.
  destruct (claim_rank a) as [[a1 a2] a3], (claim_rank b) as [[b1 b2] b3].
  rewrite !orb_true_iff, !andb_true_iff, !orb_true_iff, !andb_true_iff,
    !Z.ltb_lt, !Z.eqb_eq, !Z.leb_le. lia.
Qed.

#[global] Instance claim_leb_trans : Transitive (le_rel claim_leb).
Proof.
  intros a b c. unfold le_rel, claim_leb, rank_leb.
  destruct (claim_rank a) as [[a1 a2] a3], (claim_rank b) as [[b1 b2] b3],
    (claim_rank c) as [[c1 c2] c3].
  rewrite !orb_true_iff, !andb_true_iff, !orb_true_iff, !andb_true_iff,
    !Z.ltb_lt, !Z.eqb_eq, !Z.leb_le. lia.
Qed.

Lemma claim_candidate_Some o d j :
  claim_candidate o d = Some j ->
  (exists k, jobs d !! k = Some j) /\ claimable o d j = true /\
  forall k' j', jobs d !! k' = Some j' -> claimable o d j' = true -> claim_leb j j' = true.
Proof.
  intros Hh. apply order_by_head in Hh as [Hin Hmin]; [|apply _..].
  apply elem_of_select in Hin as [Hc Hk]. split; [done|]. split; [done|].
  intros k' j' Hk' Hc'. apply Hmin, elem_of_select. eauto.
Qed.

Lemma claim_candidate_None o d :
  claim_candidate o d = None ->
  forall k j, jobs d !! k = Some j -> claimable o d j = false.
Proof.
  intros Hh. apply order_by_head_None in Hh. apply find_where_None.
  unfold find_where. by rewrite Hh.
Qed.

Lemma claimable_queued o d j : claimable o d j = true -> Job.status j = "queued".
Proof.
  unfold claimable. destruct (projects d !! Job.projectId j); [|discriminate].
  intros Hc. apply andb_prop in Hc as [Hc _]. apply andb_prop in Hc as [Hc _].
  apply andb_prop in Hc as [Hc _]. apply andb_prop in Hc as [Hc _].
  by apply bool_decide_eq_true in Hc.
Qed.

(** The exclusion clause, read off a claimable row. *)
Lemma claimable_no_conflict o d j :
  claimable o d j = true ->
  forall k r, jobs d !! k = Some r -> Job.projectId r = Job.projectId j ->
    Job.id r <> Job.id j -> job_running r = true -> jobs_conflict j r = false.
Proof.
  unfold claimable. destruct (projects d !! Job.projectId j); [|discriminate].
  intros Hc k r Hk Hp Hne Hr. apply andb_prop in Hc as [Hc _].
  apply andb_prop in Hc as [Hc _]. apply andb_prop in Hc as [Hc _].
  apply andb_prop in Hc as [_ Hc]. apply negb_true_iff in Hc.
  apply not_true_iff_false. intros Hconf. apply not_true_iff_false in Hc. apply Hc.
  apply existsb_exists. exists r. rewrite <- list_elem_of_In, elem_of_rows.
  split; [by exists k|]. rewrite !bool_decide_eq_true_2, bool_decide_eq_false_2 by done.
  by rewrite Hr, Hconf.
Qed.

Lemma claimable_under_cap o d j cap :
  claimable o d j = true -> maxConcurrentHeavyJobs o = Some cap ->
  is_type HEAVY_JOB_TYPES j = true -> (Z.of_nat (running_heavy d) < cap)%Z.
Proof.
  unfold claimable. destruct (projects d !! Job.projectId j); [|discriminate].
  intros Hc Hcap Hh. apply andb_prop in Hc as [Hc _]. apply andb_prop in Hc as [_ Hc].
  rewrite Hcap, Hh in Hc. simpl in Hc. by apply Z.ltb_lt in Hc.
Qed.

(** What the claim's UPDATE does: nothing, or the least claimable row starts. *)
Lemma claim_row_ok o now s :
  jobs_keyed (st_db s) ->
  (claim_row o now s = (Ok None, s) /\ claim_candidate o (st_db s) = None) \/
  (exists j, claim_candidate o (st_db s) = Some j /\
     jobs (st_db s) !! Job.id j = Some j /\
     claim_row o now s =
       (Ok (Some (job_claimed now j)),
        s <| st_db ::= tbl_set jobs_table (insert (Job.id j) (job_claimed now j)) |>)).
Proof.
  intros Hkey. unfold claim_row, read, bind, gets.
  destruct (claim_candidate o (st_db s)) as [j|] eqn:Hc; [right|by left].
  destruct (claim_candidate_Some _ _ _ Hc) as ((k & Hk) & _).
  assert (Hid : Job.id j = k) by by apply Hkey. subst k.
  exists j. split; [done|]. split; [done|].
  unfold update_key, read, bind, gets. simpl. by rewrite Hk.
Qed.

Lemma claimed_queue_ok o now d j :
  queue_ok d -> claim_candidate o d = Some j ->
  queue_ok (tbl_set jobs_table (insert (Job.id j) (job_claimed now j)) d).
Proof.
  intros [Hkey Hex] Hc. destruct (claim_candidate_Some _ _ _ Hc) as (_ & Hok & _).
  pose proof (claimable_no_conflict _ _ _ Hok) as Hnc. split.
  - intros k j'. simpl. destruct (decide (Job.id j = k)) as [<-|Hne].
    + rewrite lookup_insert_eq. by intros [= <-].
    + rewrite lookup_insert_ne by done. apply Hkey.
  - assert (Hside : forall k r, jobs d !! k = Some r -> k <> Job.id j ->
      Job.projectId r = Job.projectId j -> job_running r = true ->
      jobs_conflict (job_claimed now j) r = false).
    { intros k r Hk Hne Hp Hr. rewrite <- (Hnc k r Hk Hp); [done| |done].
      by rewrite (Hkey k r Hk). }
    intros k1 k2 j1 j2. simpl.
    destruct (decide (Job.id j = k1)) as [<-|Hne1], (decide (Job.id j = k2)) as [<-|Hne2];
      rewrite ?lookup_insert_eq, ?lookup_insert_ne by done; try done.
    + intros [= <-] Hk2 _ Hp _ Hr2. by apply (Hside k2).
    + intros Hk1 [= <-] _ Hp Hr1 _. rewrite jobs_conflict_sym. by apply (Hside k1).
    + apply Hex.
Qed.

Lemma claim_row_queue_ok o now : moves (preserves queue_ok) (claim_row o now).
Proof.
  intros s Hs. unfold exec.
  destruct (claim_row_ok o now s (proj1 Hs)) as [[-> _]|(j & Hc & _ & ->)]; [done|].
  by apply (claimed_queue_ok o).
Qed.

Lemma calm_moves_queue_ok {A} (m : Tx A) :
  moves calm_jobs m -> moves (preserves queue_ok) m.
Proof. apply moves_mono. intros d d' Hc. exact (calm_queue_ok d d' Hc). Qed.

Lemma claim_loop_queue_ok fuel o now : moves (preserves queue_ok) (claim_loop fuel o now).
Proof.
  induction fuel as [|fuel IH]; simpl; [apply moves_throw; apply _|].
  apply moves_bind; [apply _ | apply claim_row_queue_ok|].
  intros [row|]; [|apply moves_ret; apply _].
  destruct (jobRowToJob row) as [job|[]]; try (walk; fail).
  apply moves_bind; [apply _ | apply calm_moves_queue_ok, moves_quarantine | done].
Qed.

Lemma claimNextJob_queue_ok now o : moves (preserves queue_ok) (claimNextJob now o).
Proof. unfold claimNextJob. walk. apply claim_loop_queue_ok. Qed.

(** The heavy jobs running: calm transitions add none, a claim at most one. *)
Lemma calm_running_heavy d d' : calm_jobs d d' -> running_heavy d' <= running_heavy d.
Proof.
  intros Hcalm. unfold running_heavy. apply (count_le []). intros k j' Hk Hp. right.
  apply andb_prop in Hp as [Hr Hh].
  destruct (calm_jobs_inv _ _ _ _ Hcalm Hk) as [(j & Hj & Hc)|(_&_&Hn)]; [|congruence].
  exists j. split; [done|]. destruct Hc as (_&_&Ht&_&Hrun&_).
  rewrite (Hrun Hr). unfold is_type in *. by rewrite <- Ht.
Qed.

Lemma claimed_running_heavy o now d j :
  jobs d !! Job.id j = Some j -> claim_candidate o d = Some j ->
  let d' := tbl_set jobs_table (insert (Job.id j) (job_claimed now j)) d in
  running_heavy d' <= running_heavy d \/
  (running_heavy d' <= S (running_heavy d) /\ is_type HEAVY_JOB_TYPES j = true).
Proof.
  intros Hk Hc. simpl. unfold running_heavy.
  destruct (is_type HEAVY_JOB_TYPES j) eqn:Hh; [right; split; [|done]|left].
  - apply (count_le [Job.id j]). intros k r'. destruct (decide (Job.id j = k)) as [<-|Hne];
      [set_solver|]. simpl. rewrite lookup_insert_ne by done. eauto.
  - apply (count_le []). intros k r'. simpl. destruct (decide (Job.id j = k)) as [<-|Hne].
    + rewrite lookup_insert_eq. intros [= <-] [_ Hp]%andb_prop. unfold is_type in *.
      simpl in *. congruence.
    + rewrite lookup_insert_ne by done. eauto.
Qed.

Definition heavy_at_most (cap : Z) (d : database) : Prop :=
  jobs_keyed d /\ (Z.of_nat (running_heavy d) <= cap)%Z.

Lemma calm_heavy_at_most cap d d' :
  calm_jobs d d' -> heavy_at_most cap d -> heavy_at_most cap d'.
Proof.
  intros Hc [Hkey Hcap]. split.
  - intros k j' Hk. destruct (calm_jobs_inv _ _ _ _ Hc Hk) as [(j & Hj & Hcr)|(_&?&_)];
      [|done]. destruct Hcr as [-> _]. by apply Hkey.
  - pose proof (calm_running_heavy _ _ Hc). lia.
Qed.

Lemma claimed_keyed now d j :
  jobs_keyed d -> jobs_keyed (tbl_set jobs_table (insert (Job.id j) (job_claimed now j)) d).
Proof.
  intros Hkey k j'. simpl. destruct (decide (Job.id j = k)) as [<-|Hne].
  - rewrite lookup_insert_eq. by intros [= <-].
  - rewrite lookup_insert_ne by done. apply Hkey.
Qed.

Lemma claim_row_heavy cap c o now :
  maxConcurrentHeavyJobs o = Some c -> (c <= cap)%Z ->
  moves (preserves (heavy_at_most cap)) (claim_row o now).
Proof.
  intros Ho Hle s [Hkey Hcap]. unfold exec.
  destruct (claim_row_ok o now s Hkey) as [[-> _]|(j & Hc & Hk & ->)]; [done|]. simpl.
  split; [by apply claimed_keyed|].
  destruct (claimed_running_heavy o now _ _ Hk Hc) as [Hl|[Hl Hh]]; simpl in Hl; [lia|].
  destruct (claim_candidate_Some _ _ _ Hc) as (_ & Hok & _).
  pose proof (claimable_under_cap _ _ _ _ Hok Ho Hh). lia.
Qed.

Lemma claimNextJob_heavy cap c now o :
  maxConcurrentHeavyJobs o = Some c -> (c <= cap)%Z ->
  moves (preserves (heavy_at_most cap)) (claimNextJob now o).
Proof.
  intros Ho Hle. unfold claimNextJob. walk. clear - Ho Hle.
  generalize (S (length a2)). intros fuel. rename a into t. 
  induction fuel as [|fuel IH]; simpl; [apply moves_throw; apply _|].
  apply moves_bind; [apply _ | by eapply claim_row_heavy|].
  intros [row|]; [|apply moves_ret; apply _].
  destruct (jobRowToJob row) as [job|[]]; try (walk; fail).
  apply moves_bind; [apply _ | | done]. eapply moves_mono; [|apply moves_quarantine].
  intros d d' Hc. exact (calm_heavy_at_most cap d d' Hc).
Qed.

(** ** Termination of the claim loop *)

Lemma jobRowToJob_err row e :
  jobRowToJob row = Err e -> exists msg, e = InvalidJobRecordError msg.
Proof. unfold jobRowToJob. repeat case_match; naive_solver. Qed.

(** ** Executions of the queue

    A step is one operation of the queue, whoever calls it and whether it
    returns or throws; [opts] restricts the options the claims are made with.  [replaceJobPayload] is called by the worker with the
    two source-lane types only ([apps/worker/src/jobs/process.ts:86] and
    [process-build-deploy.ts:317]); another part of the system may do anything
    that leaves the jobs table alone, or delete jobs (a project's deletion
    cascades to its jobs). *)
Inductive job_step (opts : claim_options -> Prop) : store -> store -> Prop :=
  | step_insertJobRowTx pid ty p c u s :
      job_step opts s (exec (transaction (insertJobRowTx pid ty p c u)) s)
  | step_enqueueJob pid ty p s : job_step opts s (exec (enqueueJob pid ty p) s)
  | step_enqueueDeploymentArchive pid did auto s :
      job_step opts s (exec (enqueueDeploymentArchive pid did auto) s)
  | step_enqueueDeploymentActivation pid did rti now stale s :
      job_step opts s (exec (enqueueDeploymentActivation pid did rti now stale) s)
  | step_claimNextJob now o s : opts o -> job_step opts s (exec (claimNextJob now o) s)
  | step_recoverStaleJobs now stale limit s :
      job_step opts s (exec (recoverStaleJobs now stale limit) s)
  | step_heartbeatJob jid a now s : job_step opts s (exec (heartbeatJob jid a now) s)
  | step_replaceJobPayload jid ty p a s :
      ty ∉ DEPLOYMENT_SCOPED_JOB_TYPES ->
      job_step opts s (exec (replaceJobPayload jid ty p a) s)
  | step_completeJob jid a s : job_step opts s (exec (completeJob jid a) s)
  | step_failJob jid err a s : job_step opts s (exec (failJob jid err a) s)
  | step_other s s' : jobs (st_db s') ⊆ jobs (st_db s) -> job_step opts s s'.

(** Every step but a claim and a deletion is calm. *)
Lemma moves_replaceJobPayload jid ty p a :
  ty ∉ DEPLOYMENT_SCOPED_JOB_TYPES -> moves calm_jobs (replaceJobPayload jid ty p a).
Proof.
  intros Hty. unfold replaceJobPayload. walk. apply moves_job_update.
  intros j [Ht _]%andb_prop. apply bool_decide_eq_true in Ht.
  unfold calm_row, is_type. simpl. repeat split; auto; [|lia].
  rewrite Ht. by rewrite bool_decide_eq_false_2.
Qed.

Lemma job_step_cases opts s s' :
  job_step opts s s' ->
  calm_jobs (st_db s) (st_db s') \/ jobs (st_db s') ⊆ jobs (st_db s) \/
  exists now o, opts o /\ s' = exec (claimNextJob now o) s.
Proof.
  intros Hs; destruct Hs; try (right; left; assumption); try (right; right; eauto; fail);
    left; revert s; match goal with |- forall s, calm_jobs _ (st_db (exec ?m _)) =>
      change (moves calm_jobs m) end.
  - apply moves_transaction; [apply _ | apply moves_insertJobRowTx].
  - apply moves_enqueueJob.
  - apply moves_enqueueDeploymentArchive.
  - apply moves_enqueueDeploymentActivation.
  - apply moves_recoverStaleJobs.
  - apply moves_heartbeatJob.
  - by apply moves_replaceJobPayload.
  - apply moves_completeJob.
  - apply moves_failJob.
Qed.

Lemma subset_queue_ok d d' : jobs d' ⊆ jobs d -> queue_ok d -> queue_ok d'.
Proof.
  intros Hsub [Hkey Hex]. split; [intros k j Hk; eauto using lookup_weaken|].
  intros k1 k2 j1 j2 Hk1 Hk2. apply Hex; eauto using lookup_weaken.
Qed.

Lemma job_step_queue_ok opts s s' : job_step opts s s' -> queue_ok (st_db s) -> queue_ok (st_db s').
Proof.
  intros [Hc|[Hsub|(now & o & Ho & ->)]]%job_step_cases.
  - by apply calm_queue_ok.
  - by apply subset_queue_ok.
  - apply claimNextJob_queue_ok.
Qed.

Lemma job_steps_queue_ok opts s s' :
  rtc (job_step opts) s s' -> queue_ok (st_db s) -> queue_ok (st_db s').
Proof. induction 1; eauto using job_step_queue_ok. Qed.

(** ** Attempts only grow *)

Definition rows_grow (d d' : database) : Prop :=
  forall k j, jobs d !! k = Some j ->
    exists j', jobs d' !! k = Some j' /\ (Job.attempts j <= Job.attempts j')%Z.

#[global] Instance rows_grow_preorder : PreOrder rows_grow.
Proof.
  split; [intros d k j Hk; exists j; split; [done | lia]|].
  intros d1 d2 d3 H12 H23 k j Hk. destruct (H12 k j Hk) as (j2 & Hk2 & ?).
  destruct (H23 k j2 Hk2) as (j3 & Hk3 & ?). exists j3. split; [done | lia].
Qed.

Lemma calm_rows_grow d d' : calm_jobs d d' -> rows_grow d d'.
Proof.
  intros [Hold _] k j Hk. destruct (Hold k j Hk) as (j' & Hk' & Hc).
  exists j'. split; [done|]. apply Hc.
Qed.

Lemma claim_row_rows_grow o now : moves rows_grow (claim_row o now).
Proof.
  unfold claim_row. walk. apply moves_update_key; [apply _|].
  intros d r Hk _ k j1 Hj. simpl. destruct (decide (Job.id j = k)) as [<-|Hne].
  - rewrite lookup_insert_eq. eexists. split; [done|]. simpl in *. simplify_eq. simpl. lia.
  - rewrite lookup_insert_ne by done. exists j1. split; [done | lia].
Qed.

Lemma claimNextJob_rows_grow now o : moves rows_grow (claimNextJob now o).
Proof.
  unfold claimNextJob. walk. generalize (S (length a2)). intros fuel.
  induction fuel as [|fuel IH]; simpl; [apply moves_throw; apply _|].
  apply moves_bind; [apply _ | apply claim_row_rows_grow|].
  intros [row|]; [|apply moves_ret; apply _].
  destruct (jobRowToJob row) as [job|[]]; try (walk; fail).
  apply moves_bind; [apply _ | | done]. eapply moves_mono; [|apply moves_quarantine].
  apply calm_rows_grow.
Qed.

(** Executions during which a job's row is not deleted. *)
Definition surviving_step (opts : claim_options -> Prop) (k : string) (s s' : store) : Prop :=
  job_step opts s s' /\ is_Some (jobs (st_db s') !! k).

Lemma surviving_attempts opts k s s' j :
  rtc (surviving_step opts k) s s' -> jobs (st_db s) !! k = Some j ->
  exists j', jobs (st_db s') !! k = Some j' /\ (Job.attempts j <= Job.attempts j')%Z.
Proof.
  intros Hrtc. revert j. induction Hrtc as [s|s1 s2 s3 [Hstep [j2 Hk2]] _ IH]; intros j Hk.
  { exists j. split; [done | lia]. }
  assert (Hle : (Job.attempts j <= Job.attempts j2)%Z).
  { apply job_step_cases in Hstep as [Hc|[Hsub|(now & o & Ho & ->)]].
    - apply calm_rows_grow in Hc. destruct (Hc _ _ Hk) as (j' & ? & ?). by simplify_eq.
    - pose proof (lookup_weaken _ _ _ _ Hk2 Hsub). simplify_eq. lia.
    - destruct (claimNextJob_rows_grow now o _ _ _ Hk) as (j' & ? & ?). by simplify_eq. }
  destruct (IH j2 Hk2) as (j3 & Hk3 & Hle'). exists j3. split; [done | lia].
Qed.

(** An operation under a claim the row has moved past changes nothing. *)
Lemma fenced_update k j a f s :
  jobs (st_db s) !! k = Some j -> (a < Job.attempts j)%Z ->
  update_key jobs_table k (holds_claim (Some a)) f s = (Ok None, s).
Proof.
  intros Hk Hlt. unfold update_key, read, bind, gets. simpl. rewrite Hk.
  unfold holds_claim. by rewrite (bool_decide_eq_false_2 (Job.attempts j = a)), andb_false_r by lia.
Qed.

(** ** Rows that decode *)

(** Every row of the queue satisfies the contract of its type. *)
Definition jobs_decode (d : database) : Prop :=
  forall k j, jobs d !! k = Some j -> is_ok (jobRowToJob j) = true.

(** What zod's [parse] documents: it accepts its own output, unchanged. *)
Definition zod_idempotent : Prop :=
  forall z j p, zod_parse z j = Some p -> zod_parse z p = Some p.

Lemma jobRowToJob_ok j :
  is_ok (jobRowToJob j) = true <->
  isJobType (Job.type j) = true /\ isJobStatus (Job.status j) = true /\
  is_ok (decodeJobPayload (Job.type j) (Job.payload j)) = true.
Proof.
  unfold jobRowToJob. destruct (isJobType _), (isJobStatus _); simpl;
    try (split; [discriminate | intros (? & ? & ?); discriminate]).
  destruct (decodeJobPayload _ _); simpl; split; auto. by intros (_ & _ & ?).
Qed.

Lemma isJobType_known ty : isJobType ty = true <->
  is_Some ((list_to_map jobPayloadSchemas : gmap string zod) !! ty).
Proof.
  unfold isJobType. rewrite bool_decide_eq_true. split.
  - rewrite list_elem_of_fmap. intros ([k z] & -> & Hin). exists z.
    apply elem_of_list_to_map; [|done].
    apply (bool_decide_eq_true (NoDup jobPayloadSchemas.*1)). by vm_compute.
  - intros [z Hz]. apply elem_of_list_to_map_2 in Hz. apply list_elem_of_fmap. by exists (ty, z).
Qed.

Lemma decodeJobPayload_ok ty p q :
  zod_idempotent -> decodeJobPayload ty p = Ok q ->
  isJobType ty = true /\ decodeJobPayload ty q = Ok q.
Proof.
  intros Hz. rewrite isJobType_known. unfold decodeJobPayload.
  destruct (list_to_map _ !! ty) as [z|]; [|done].
  destruct (zod_parse z p) as [q'|] eqn:Hp; [|done]. intros [= ->].
  rewrite (Hz _ _ _ Hp). eauto.
Qed.

(** A transition that keeps the contract: rows that decode still do, and the
    new ones do. *)
Lemma decode_insert d j :
  is_ok (jobRowToJob j) = true -> jobs_decode d ->
  jobs_decode (tbl_set jobs_table (insert (Job.id j) j) d).
Proof.
  intros Hj Hd k j'. simpl. destruct (decide (Job.id j = k)) as [<-|Hne].
  - rewrite lookup_insert_eq. by intros [= <-].
  - rewrite lookup_insert_ne by done. apply Hd.
Qed.

Lemma decode_update d k j j' :
  jobs d !! k = Some j -> Job.type j' = Job.type j -> isJobStatus (Job.status j') = true ->
  Job.payload j' = Job.payload j \/ is_ok (decodeJobPayload (Job.type j) (Job.payload j')) = true ->
  jobs_decode d -> jobs_decode (tbl_set jobs_table (insert k j') d).
Proof.
  intros Hk Ht Hs Hp Hd k2 j2. simpl. destruct (decide (k = k2)) as [<-|Hne].
  - rewrite lookup_insert_eq. intros [= <-]. specialize (Hd k j Hk).
    rewrite jobRowToJob_ok in *. rewrite Ht. destruct Hp as [->|Hp]; naive_solver.
  - rewrite lookup_insert_ne by done. apply Hd.
Qed.

Lemma isJobStatus_ok st :
  st ∈ ["queued"; "running"; "completed"; "failed"] -> isJobStatus st = true.
Proof. unfold isJobStatus. by rewrite bool_decide_eq_true. Qed.

(** A status-changing update keeps the contract. *)
Lemma decode_update_key k p f st :
  (forall j, Job.type (f j) = Job.type j /\ Job.payload (f j) = Job.payload j /\
     (Job.status (f j) = Job.status j \/ Job.status (f j) = st)) ->
  isJobStatus st = true ->
  moves (preserves jobs_decode) (update_key jobs_table k p f).
Proof.
  intros Hf Hst. apply moves_update_key; [apply _|]. intros d j Hk _ Hd.
  destruct (Hf j) as (Ht & Hp & Hs). eapply decode_update; eauto.
  destruct Hs as [->| ->]; [|done]. specialize (Hd k j Hk).
  by apply jobRowToJob_ok in Hd as (_ & ? & _).
Qed.

Lemma moves_insertJobRowTx_decode pid ty p c u :
  zod_idempotent -> moves (preserves jobs_decode) (insertJobRowTx pid ty p c u).
Proof.
  intros Hz. unfold insertJobRowTx.
  apply moves_bind; [apply _ | apply moves_createId; apply _ | intros id].
  apply moves_bind_lift; [apply _|]. intros q Hq.
  destruct (decodeJobPayload_ok _ _ _ Hz Hq) as [Hty Hdec].
  walk. apply moves_insert_row; [apply _|]. intros d _ Hd. apply decode_insert; [|done].
  apply jobRowToJob_ok. simpl. by rewrite Hdec.
Qed.
#[local] Hint Resolve moves_insertJobRowTx_decode : moves.

Ltac decode_field_update st :=
  apply (decode_update_key _ _ _ st); [intros; repeat split; auto | reflexivity].

Lemma quarantine_decode now row : moves (preserves jobs_decode) (quarantine now row).
Proof. unfold quarantine. walk. decode_field_update "failed". Qed.

Lemma claim_row_decode o now : moves (preserves jobs_decode) (claim_row o now).
Proof. unfold claim_row. walk. decode_field_update "running". Qed.

Lemma claimNextJob_decode now o : moves (preserves jobs_decode) (claimNextJob now o).
Proof.
  unfold claimNextJob. walk. generalize (S (length a2)). intros fuel.
  induction fuel as [|fuel IH]; simpl; [apply moves_throw; apply _|].
  apply moves_bind; [apply _ | apply claim_row_decode|].
  intros [row|]; [|apply moves_ret; apply _].
  destruct (jobRowToJob row) as [job|[]]; try (walk; fail).
  apply moves_bind; [apply _ | apply quarantine_decode | done].
Qed.

Lemma recoverStaleJobs_decode now stale limit :
  moves (preserves jobs_decode) (recoverStaleJobs now stale limit).
Proof.
  unfold recoverStaleJobs. walk. apply moves_update_where; [apply _|].
  intros d Hd k j'. simpl. rewrite update_rows_lookup, fmap_Some.
  intros (j & Hk & ->). specialize (Hd k j Hk). destruct (bool_decide _); [|done].
  rewrite jobRowToJob_ok in *. simpl. naive_solver.
Qed.

Lemma replaceJobPayload_decode jid ty p a :
  zod_idempotent -> moves (preserves jobs_decode) (replaceJobPayload jid ty p a).
Proof.
  intros Hz. unfold replaceJobPayload. apply moves_bind_lift; [apply _|]. intros q Hq.
  destruct (decodeJobPayload_ok _ _ _ Hz Hq) as [_ Hdec]. walk.
  apply moves_update_key; [apply _|]. intros d j Hk [Ht _]%andb_prop Hd.
  apply bool_decide_eq_true in Ht. eapply decode_update; eauto; simpl.
  - specialize (Hd _ _ Hk). by apply jobRowToJob_ok in Hd as (_ & ? & _).
  - right. by rewrite Ht, Hdec.
Qed.

Lemma job_step_decode opts s s' :
  zod_idempotent -> job_step opts s s' -> jobs_decode (st_db s) -> jobs_decode (st_db s').
Proof.
  intros Hz Hs; destruct Hs;
    try (intros Hd k j Hk; eapply Hd, lookup_weaken; eassumption);
    revert s; match goal with |- forall s, _ -> jobs_decode (st_db (exec ?m _)) =>
      change (moves (preserves jobs_decode) m) end.
  - apply moves_transaction; [apply _ | by apply moves_insertJobRowTx_decode].
  - unfold enqueueJob. walk.
  - unfold enqueueDeploymentArchive. walk.
  - unfold enqueueDeploymentActivation. walk. decode_field_update "queued".
  - apply claimNextJob_decode.
  - apply recoverStaleJobs_decode.
  - unfold heartbeatJob. walk. decode_field_update "running".
  - by apply replaceJobPayload_decode.
  - unfold completeJob. walk. decode_field_update "completed".
  - unfold failJob. walk. decode_field_update "failed".
Qed.

(** ** The abstract claim

    What a claim promises, without loop or statements: take a least claimable
    row; if it satisfies its contract it is the answer, otherwise it is failed
    for good and the claim goes on; if nothing is claimable there is no
    answer. *)
Definition least_claimable (o : claim_options) (d : database) (j : Job.job_row) : Prop :=
  jobs d !! Job.id j = Some j /\ claimable o d j = true /\
  forall k' j', jobs d !! k' = Some j' -> claimable o d j' = true -> claim_leb j j' = true.

Definition job_quarantined (now : time) (j : Job.job_row) : Job.job_row :=
  (job_claimed now j)
    <| Job.status := "failed" |>
    <| Job.lastError := Some ("Invalid persisted job contract for " +:+ Job.id j +:+ ".") |>
    <| Job.lockedAt := None |>.

Inductive claim_spec (o : claim_options) (now : time)
    : database -> option job_view -> database -> Prop :=
  | claim_nothing d :
      (forall k j, jobs d !! k = Some j -> claimable o d j = false) ->
      claim_spec o now d None d
  | claim_job d j job :
      least_claimable o d j -> jobRowToJob (job_claimed now j) = Ok job ->
      claim_spec o now d (Some job) (d <| jobs ::= insert (Job.id j) (job_claimed now j) |>)
  | claim_invalid d j e r d' :
      least_claimable o d j -> jobRowToJob (job_claimed now j) = Err e ->
      claim_spec o now (d <| jobs ::= insert (Job.id j) (job_quarantined now j) |>) r d' ->
      claim_spec o now d r d'.

Definition valid_claim_options (o : claim_options) : Prop :=
  (forall cap, maxConcurrentHeavyJobs o = Some cap -> (1 <= cap)%Z) /\ claim_types o <> Some [].

Lemma jobs_insert_twice k (j1 j2 : Job.job_row) d :
  d <| jobs ::= insert k j1 |> <| jobs ::= insert k j2 |> = d <| jobs ::= insert k j2 |>.
Proof. destruct d. unfold set_field. simpl. by rewrite insert_insert_eq. Qed.

(** A claimed row that does not decode is quarantined without fail. *)
Lemma quarantine_claimed now s j :
  quarantine now (job_claimed now j)
    (s <| st_db ::= tbl_set jobs_table (insert (Job.id j) (job_claimed now j)) |>) =
  (Ok tt, s <| st_db ::= set_field jobs (insert (Job.id j) (job_quarantined now j)) |>).
Proof.
  unfold quarantine, update_key, read, bind, gets. simpl. rewrite lookup_insert_eq. simpl.
  rewrite bool_decide_eq_true_2 by done. simpl. unfold write, modify, ret.
  f_equal. destruct s as [d dr js ls c].
  transitivity (mk_store (d <| jobs ::= insert (Job.id j) (job_claimed now j) |>
    <| jobs ::= insert (Job.id j) (job_quarantined now j) |>) dr js ls c); [reflexivity|].
  by rewrite jobs_insert_twice.
Qed.

Lemma queued_after d j j' :
  jobs d !! Job.id j = Some j -> Job.status j = "queued" -> Job.status j' <> "queued" ->
  length (queued_jobs (d <| jobs ::= insert (Job.id j) j' |>)) < length (queued_jobs d).
Proof.
  intros Hk Hq Hn. apply (count_lt (Job.id j)).
  - apply elem_of_keys_where. exists j. by rewrite bool_decide_eq_true_2.
  - intros (r & Hr & Hp)%elem_of_keys_where. simpl in Hr. rewrite lookup_insert_eq in Hr.
    simplify_eq. by apply bool_decide_eq_true in Hp.
  - intros k r'. simpl. destruct (decide (Job.id j = k)) as [<-|Hne].
    + rewrite lookup_insert_eq. intros [= <-]. by rewrite bool_decide_eq_true.
    + rewrite lookup_insert_ne by done. eauto.
Qed.

Lemma jobs_keyed_insert d j' :
  jobs_keyed d -> jobs_keyed (d <| jobs ::= insert (Job.id j') j' |>).
Proof.
  intros Hkey k j. simpl. destruct (decide (Job.id j' = k)) as [<-|Hne].
  - rewrite lookup_insert_eq. by intros [= <-].
  - rewrite lookup_insert_ne by done. apply Hkey.
Qed.

(** With more fuel than queued jobs the loop returns what the abstract claim
    allows. *)
Lemma claim_loop_spec fuel o now s :
  jobs_keyed (st_db s) -> length (queued_jobs (st_db s)) < fuel ->
  exists r s', claim_loop fuel o now s = (Ok r, s') /\
    claim_spec o now (st_db s) r (st_db s').
Proof.
  revert s. induction fuel as [|fuel IH]; intros s Hkey Hlt; [lia|]. simpl. unfold bind at 1.
  destruct (claim_row_ok o now s Hkey) as [[-> Hnone]|(j & Hc & Hk & ->)].
  { exists None, s. split; [done|]. constructor. by apply claim_candidate_None. }
  destruct (claim_candidate_Some _ _ _ Hc) as (_ & Hok & Hmin).
  assert (Hleast : least_claimable o (st_db s) j) by done.
  destruct (jobRowToJob (job_claimed now j)) as [job|e] eqn:Hdec.
  - exists (Some job). eexists. split; [done|]. by apply claim_job.
  - destruct (jobRowToJob_err _ _ Hdec) as (msg & ->).
    unfold bind. rewrite quarantine_claimed.
    edestruct IH as (r & s' & Hrun & Hspec); [| |exists r, s'; split; [exact Hrun|]].
    + by apply (jobs_keyed_insert _ (job_quarantined now j)).
    + simpl. eapply Nat.lt_le_trans; [|apply Nat.lt_succ_r, Hlt].
      by apply queued_after; [..|apply claimable_queued in Hok|].
    + by eapply claim_invalid.
Qed.

(** On a queue whose rows decode, the claim never quarantines. *)
Lemma job_claimed_decodes now j :
  is_ok (jobRowToJob j) = true -> is_ok (jobRowToJob (job_claimed now j)) = true.
Proof. rewrite !jobRowToJob_ok. simpl. naive_solver. Qed.

(** ** Lemmas of the properties *)

Lemma claimNextJob_unfold now o s :
  valid_claim_options o ->
  claimNextJob (Some now) o s =
  claim_loop (S (length (queued_jobs (st_db s)))) o now s.
Proof.
  intros [Hcap Htypes]. unfold claimNextJob, now_or, bind, ret, read, gets.
  destruct (maxConcurrentHeavyJobs o) as [cap|] eqn:Hc.
  - specialize (Hcap cap eq_refl). destruct (Z.ltb_spec cap 1) as [|_]; [lia|]. simpl.
    by destruct (claim_types o) as [[]|].
  - simpl. by destruct (claim_types o) as [[]|].
Qed.

Lemma job_step_heavy cap s s' :
  job_step (fun o => exists c, maxConcurrentHeavyJobs o = Some c /\ (c <= cap)%Z) s s' ->
  heavy_at_most cap (st_db s) -> heavy_at_most cap (st_db s').
Proof.
  intros [Hc|[Hsub|(now & o & (c & Ho & Hle) & ->)]]%job_step_cases.
  - by apply calm_heavy_at_most.
  - intros [Hkey Hcap]. split; [intros k j Hk; eauto using lookup_weaken|].
    assert (running_heavy (st_db s') <= running_heavy (st_db s)).
    { apply (count_le []). intros k r' Hk Hp. right. eauto using lookup_weaken. }
    lia.
  - by eapply claimNextJob_heavy.
Qed.

Lemma claim_on_valid_queue o now s :
  queue_ok (st_db s) -> jobs_decode (st_db s) -> valid_claim_options o ->
  match claim_candidate o (st_db s) with
  | Some j => exists job, jobRowToJob (job_claimed now j) = Ok job /\
      claimNextJob (Some now) o s =
        (Ok (Some job), s <| st_db ::= set_field jobs (insert (Job.id j) (job_claimed now j)) |>)
  | None => claimNextJob (Some now) o s = (Ok None, s)
  end.
Proof.
  intros [Hkey _] Hd Ho. rewrite claimNextJob_unfold by done. simpl. unfold bind.
  destruct (claim_row_ok o now s Hkey) as [[-> ->]|(j & Hc & Hk & ->)]; [done|].
  rewrite Hc. pose proof (job_claimed_decodes now j (Hd _ _ Hk)) as Hok.
  destruct (jobRowToJob (job_claimed now j)) as [job|e]; [by exists job|done].
Qed.

(** [payload_text] of a text field survives the validated insert. *)
Definition zod_keeps_text : Prop :=
  forall shape fs p k, zod_parse (ZObject shape) (JObj fs) = Some p ->
    (k, ZString) ∈ shape -> json_get k p = json_get k (JObj fs).

Lemma pending_job_Some pid ty key v d row :
  pending_job pid ty key v d = Some row ->
  (exists k, jobs d !! k = Some row) /\ Job.projectId row = pid /\ Job.type row = ty /\
  job_pending row = true /\ payload_text key (Job.payload row) = Some v.
Proof.
  unfold pending_job. intros Hh. apply head_Some_elem_of in Hh.
  rewrite elem_of_order_by, elem_of_select, !andb_true_iff, !bool_decide_eq_true in Hh.
  naive_solver.
Qed.

Lemma pending_job_None pid ty key v d k row :
  pending_job pid ty key v d = None -> jobs d !! k = Some row ->
  Job.projectId row = pid -> Job.type row = ty -> job_pending row = true ->
  payload_text key (Job.payload row) <> Some v.
Proof.
  unfold pending_job. intros Hh Hk Hp Ht Hpend Hv. apply order_by_head_None in Hh.
  assert (Hin : row ∈ select_where (fun j =>
    bool_decide (Job.projectId j = pid) && bool_decide (Job.type j = ty) && job_pending j &&
    bool_decide (payload_text key (Job.payload j) = Some v)) (jobs d)).
  { apply elem_of_select. rewrite !bool_decide_eq_true_2 by done. rewrite Hpend. eauto. }
  rewrite Hh in Hin. by apply not_elem_of_nil in Hin.
Qed.

(** A pending row inserted where there was none is the one found. *)
Lemma pending_job_insert pid ty key v d row :
  pending_job pid ty key v d = None -> 
  Job.projectId row = pid -> Job.type row = ty -> job_pending row = true ->
  payload_text key (Job.payload row) = Some v ->
  pending_job pid ty key v (d <| jobs ::= insert (Job.id row) row |>) = Some row.
Proof.
  intros Hnone Hp Ht Hpend Hv. destruct (pending_job pid ty key v (d <| jobs ::= _ |>)) eqn:Hh.
  - apply pending_job_Some in Hh as ((k & Hk) & Hp' & Ht' & Hpend' & Hv'). simpl in Hk.
    destruct (decide (Job.id row = k)) as [<-|Hne].
    + rewrite lookup_insert_eq in Hk. congruence.
    + rewrite lookup_insert_ne in Hk by done.
      by destruct (pending_job_None _ _ _ _ _ _ _ Hnone Hk Hp' Ht' Hpend').
  - destruct (pending_job_None pid ty key v _ (Job.id row) row Hh); try done.
    simpl. by rewrite lookup_insert_eq.
Qed.

Lemma insertJobRowTx_ok pid ty p c u s row s' :
  insertJobRowTx pid ty p c u s = (Ok row, s') ->
  decodeJobPayload ty p = Ok (Job.payload row) /\ Job.projectId row = pid /\
  Job.type row = ty /\ Job.status row = "queued" /\
  jobs (st_db s) !! Job.id row = None /\
  st_db s' = (st_db s) <| jobs ::= insert (Job.id row) row |>.
Proof.
  unfold insertJobRowTx. intros Hrun.
  apply bind_ok in Hrun as (id & s1 & [= <- <-] & Hrun).
  apply bind_ok in Hrun as (q & s2 & [= Hq <-] & Hrun).
  apply bind_ok in Hrun as (t1 & s3 & Ht1 & Hrun).
  assert (s3 = s <| st_draws ::= S |>) as -> by (destruct c; by injection Ht1).
  apply bind_ok in Hrun as (t2 & s4 & Ht2 & Hrun).
  assert (s4 = s <| st_draws ::= S |>) as -> by (destruct u; by injection Ht2).
  inv_ok Hrun. simpl in *. by repeat split.
Qed.

Lemma archive_payload did auto q :
  zod_keeps_text ->
  decodeJobPayload "archive_deployment"
    (JObj (("deploymentId", JStr did) :: if auto : bool then [("automatic", JBool true)] else []))
    = Ok q -> payload_text "deploymentId" q = Some did.
Proof.
  intros Hz Hq. unfold decodeJobPayload in Hq.
  assert (E : (list_to_map jobPayloadSchemas : gmap string zod) !! "archive_deployment" =
    Some (ZObject [("deploymentId", ZString); ("automatic", ZOptional ZBoolean)]))
    by (by vm_compute).
  rewrite E in Hq. destruct (zod_parse _ _) eqn:Hp; [|discriminate].
  injection Hq as ->. unfold payload_text.
  rewrite (Hz _ _ _ "deploymentId" Hp) by (constructor; fail).
  reflexivity.
Qed.

Lemma job_view_of row job : jobRowToJob row = Ok job -> JobView.id job = Job.id row.
Proof. unfold jobRowToJob. repeat case_match; naive_solver. Qed.

(** What a successful archive request found or made. *)
Lemma enqueueDeploymentArchive_ok pid did auto s job created s' :
  zod_keeps_text ->
  enqueueDeploymentArchive pid did auto s = (Ok (job, created), s') ->
  deployments (st_db s') = deployments (st_db s) /\
  exists row, pending_job pid "archive_deployment" "deploymentId" did (st_db s') = Some row /\
    jobRowToJob row = Ok job /\ 
    (exists dep, deployments (st_db s) !! did = Some dep /\ Deployment.projectId dep = pid).
Proof.
  intros Hz. unfold enqueueDeploymentArchive. rewrite transaction_ok. intros Hrun.
  apply bind_ok in Hrun as (dep & s1 & [= <- <-] & Hrun).
  apply bind_ok in Hrun as (u & s2 & [Hdep ->]%throw_if_ok & Hrun).
  assert (Hd : exists dep, deployments (st_db s) !! did = Some dep /\
                 Deployment.projectId dep = pid).
  { destruct (deployments (st_db s) !! did) as [dep|]; [|done]. exists dep.
    by apply negb_false_iff, bool_decide_eq_true in Hdep. }
  apply bind_ok in Hrun as (ex & s3 & [= <- <-] & Hrun).
  destruct (pending_job _ _ _ _ _) as [row|] eqn:Hpend.
  - apply bind_ok in Hrun as (v & s4 & [= Hv <-] & [= -> <- <-]). split; [done|]. by exists row.
  - apply bind_ok in Hrun as (row & s4 & Hins & Hrun).
    apply bind_ok in Hrun as (v & s5 & [= Hv <-] & [= -> <- <-]).
    apply insertJobRowTx_ok in Hins as (Hq & Hp & Ht & Hst & _ & ->). split; [done|].
    exists row. split; [|done]. apply pending_job_insert; try done.
    + unfold job_pending. by rewrite Hst.
    + by apply (archive_payload did auto).
Qed.

Lemma enqueueDeploymentArchive_again pid did auto s row job :
  pending_job pid "archive_deployment" "deploymentId" did (st_db s) = Some row ->
  jobRowToJob row = Ok job ->
  (exists dep, deployments (st_db s) !! did = Some dep /\ Deployment.projectId dep = pid) ->
  enqueueDeploymentArchive pid did auto s = (Ok (job, false), s).
Proof.
  intros Hpend Hjob (dep & Hdep & Hp). unfold enqueueDeploymentArchive, transaction, bind, read, gets.
  rewrite Hdep, bool_decide_eq_true_2 by done. simpl. rewrite Hpend. simpl.
  unfold lift. by rewrite Hjob.
Qed.

(** A job whose lock was renewed after the cutoff is not recovered. *)
Lemma stale_jobs_locked cutoff limit d k :
  k ∈ stale_jobs cutoff limit d ->
  exists j t, (exists k', jobs d !! k' = Some j) /\ Job.id j = k /\
    Job.lockedAt j = Some t /\ (t <= cutoff)%Z.
Proof.
  unfold stale_jobs. rewrite list_elem_of_fmap. intros (j & -> & Hin).
  apply elem_of_take in Hin as (i & Hin%list_elem_of_lookup_2 & _).
  apply elem_of_order_by, elem_of_select in Hin as [[_ Hl]%andb_prop Hk].
  destruct (Job.lockedAt j) as [t|] eqn:Ht; [|done]. exists j, t.
  apply Z.leb_le in Hl. done.
Qed.

(** ** Properties *)

(** C1. However the queue's operations interleave, two jobs of one project
    that may not overlap are never both running: a project deletion excludes
    every job of its project, the source lane (import, build) runs one job at
    a time, and two jobs on one deployment exclude each other. *)
Theorem queue_steps_exclusive s s' :
  queue_ok (st_db s) -> rtc (job_step (fun _ => True)) s s' -> exclusive (st_db s').
Proof. intros Hs Hrtc. by apply (job_steps_queue_ok _ _ _ Hrtc) in Hs as [_ ?]. Qed.

(** C2. A claim terminates and implements the abstract claim: it answers with
    a least claimable row in the order (latency class, creation, sequence)
    whose contract holds, after failing for good the ones whose does not. *)
Theorem claimNextJob_implements_claim_spec now o s :
  jobs_keyed (st_db s) -> valid_claim_options o ->
  exists r s', claimNextJob (Some now) o s = (Ok r, s') /\
    claim_spec o now (st_db s) r (st_db s').
Proof. intros Hkey Ho. rewrite claimNextJob_unfold by done. apply claim_loop_spec; [done | lia]. Qed.

(** Claims that all carry a cap of at most [cap] never let more than
    [cap] heavy jobs run, whatever else happens in between. *)
Lemma capped_claims_bound_heavy_jobs cap s s' :
  heavy_at_most cap (st_db s) ->
  rtc (job_step (fun o => exists c, maxConcurrentHeavyJobs o = Some c /\ (c <= cap)%Z)) s s' ->
  (Z.of_nat (running_heavy (st_db s')) <= cap)%Z.
Proof.
  intros Hs Hrtc. assert (Hend : heavy_at_most cap (st_db s')) by
    (induction Hrtc; eauto using job_step_heavy).
  apply Hend.
Qed.

(** Once a row's attempt has passed the one a worker claimed (its claim
    was recovered as stale and taken again), everything that worker does
    under the old attempt, at any later time, reports failure and changes
    nothing. *)
Lemma stale_claim_is_fenced k j a s s' :
  jobs (st_db s) !! k = Some j -> (a < Job.attempts j)%Z ->
  rtc (surviving_step (fun _ => True) k) s s' ->
  (forall now, heartbeatJob k a now s' = (Ok false, s')) /\
  completeJob k (Some a) s' = (Ok false, s') /\
  (forall err, failJob k err (Some a) s' = (Ok false, s')) /\
  (forall ty p q, decodeJobPayload ty p = Ok q -> replaceJobPayload k ty p a s' = (Ok false, s')).
Proof.
  intros Hk Hlt Hrtc. destruct (surviving_attempts _ _ _ _ _ Hrtc Hk) as (j' & Hk' & Hle).
  repeat split; intros.
  - unfold heartbeatJob. destruct now; unfold bind, now_or, clock, gets, ret;
      by rewrite (fenced_update _ _ _ _ _ Hk') by lia.
  - unfold completeJob, bind, clock, gets. by rewrite (fenced_update _ _ _ _ _ Hk') by lia.
  - unfold failJob, bind, clock, gets. by rewrite (fenced_update _ _ _ _ _ Hk') by lia.
  - unfold replaceJobPayload, bind, clock, gets, lift. rewrite H0.
    unfold update_key, read, bind, gets. simpl. rewrite Hk'.
    rewrite (bool_decide_eq_false_2 (Job.attempts j' = a)) by lia.
    by rewrite !andb_false_r.
Qed.

(** If zod's parse is idempotent, every row the operations leave in a
    queue that satisfied the contracts still does, so no claim ever
    quarantines one: the claim answers with its first candidate. *)
Lemma valid_queue_is_never_quarantined s s' now o :
  zod_idempotent -> queue_ok (st_db s) -> jobs_decode (st_db s) ->
  rtc (job_step (fun _ => True)) s s' -> valid_claim_options o ->
  match claim_candidate o (st_db s') with
  | Some j => exists job, jobRowToJob (job_claimed now j) = Ok job /\
      claimNextJob (Some now) o s' =
        (Ok (Some job), s' <| st_db ::= set_field jobs (insert (Job.id j) (job_claimed now j)) |>)
  | None => claimNextJob (Some now) o s' = (Ok None, s')
  end.
Proof.
  intros Hz Hq Hd Hrtc Ho. apply claim_on_valid_queue; [| |done].
  - by eapply job_steps_queue_ok.
  - clear Hq Ho. induction Hrtc; eauto using job_step_decode.
Qed.

(** Asking twice for a deployment's archive is asking once: after a
    successful request, with no other step in between, the same request finds
    the same job, reports that it created nothing and changes nothing. *)
Lemma enqueueDeploymentArchive_idempotent pid did auto auto' s job created s' :
  zod_keeps_text ->
  enqueueDeploymentArchive pid did auto s = (Ok (job, created), s') ->
  enqueueDeploymentArchive pid did auto' s' = (Ok (job, false), s').
Proof.
  intros Hz Hrun. apply enqueueDeploymentArchive_ok in Hrun as
    (Hdeps & row & Hpend & Hjob & Hdep); [|done].
  apply (enqueueDeploymentArchive_again _ _ _ _ row); [done..|]. by rewrite Hdeps.
Qed.

(** A heartbeat keeps a claim: a recovery whose cutoff is before the last
    successful heartbeat leaves the job running under its attempt. *)
Lemma heartbeat_prevents_recovery k a t s s1 now stale limit :
  jobs_keyed (st_db s) ->
  heartbeatJob k a (Some t) s = (Ok true, s1) -> (now - stale < t)%Z ->
  exists j, jobs (st_db (exec (recoverStaleJobs (Some now) stale limit) s1)) !! k = Some j /\
    Job.status j = "running" /\ Job.attempts j = a /\ Job.lockedAt j = Some t.
Proof.
  intros Hkey Hrun Hlt. unfold heartbeatJob in Hrun.
  apply bind_ok in Hrun as (t' & s2 & [= <- <-] & Hrun).
  apply bind_ok in Hrun as (o & s2 & Hup & [= Ho ->]).
  apply update_key_ok in Hup as [(-> & _)|(j & Hk & Hp & -> & _ & ->)]; [done|].
  apply andb_prop in Hp as [Hr Ha]. unfold job_running in Hr.
  apply bool_decide_eq_true in Hr, Ha. simpl in Hk.
  set (j' := j <| Job.lockedAt := Some t |> <| Job.updatedAt := t |>).
  set (s1 := s <| st_db ::= tbl_set jobs_table (insert k j') |>).
  assert (Hk1 : jobs (st_db s1) !! k = Some j') by (simpl; by rewrite lookup_insert_eq).
  exists j'. split; [|done]. unfold recoverStaleJobs, exec, bind, now_or, ret, read, gets.
  destruct (update_where _ _ _ s1) as [[l|e] s2] eqn:Hw.
  - apply update_where_ok in Hw as (_ & ->). 
    change (update_rows (fun j => bool_decide (Job.id j ∈ stale_jobs (now - stale) limit (st_db s1)))
      (fun j => j <| Job.status := "queued" |> <| Job.lockedAt := None |>
                  <| Job.updatedAt := now |>) (jobs (st_db s1)) !! k = Some j').
    rewrite update_rows_lookup, Hk1. simpl. rewrite bool_decide_eq_false_2; [done|].
    intros (j2 & t2 & (k2 & Hk2) & Hid & Hl & Hle)%stale_jobs_locked.
    assert (Job.id j = k) as Hidj by by apply Hkey. simpl in Hk2.
    destruct (decide (k = k2)) as [<-|Hne].
    + rewrite lookup_insert_eq in Hk2. injection Hk2 as <-. injection Hl as <-. lia.
    + rewrite lookup_insert_ne in Hk2 by done. apply Hkey in Hk2. congruence.
  - pose proof (update_where_total jobs_table
      (fun j => bool_decide (Job.id j ∈ stale_jobs (now - stale) limit (st_db s1)))
      (fun j => j <| Job.status := "queued" |> <| Job.lockedAt := None |>
                  <| Job.updatedAt := now |>) s1 eq_refl) as Ht.
    unfold outcome in Ht. by rewrite Hw in Ht.
Qed.
End JobFacts.

(** ** Witnesses *)
Section JobWitnesses.
#[local] Existing Instance sample_platform.

(** A build, an activation-class restart and an archive are queued; the build
    is claimed, goes stale, is recovered and claimed again. *)
Definition queue0 : store := sample_store sample_database.
Definition queue1 : store := exec (enqueueJob "p" "build_deploy" None) queue0.
Definition queue2 : store := exec (enqueueDeploymentArchive "p" "dep_1" true) queue1.
Definition build_claim : claim_options := mk_claim_options (Some 1%Z) (Some ["build_deploy"]).
Definition queue3 : store := exec (claimNextJob (Some 2000%Z) build_claim) queue2.
Definition queue4 : store := exec (recoverStaleJobs (Some 9000%Z) 1000 10) queue3.
Definition queue5 : store := exec (claimNextJob (Some 9500%Z) build_claim) queue4.

Lemma queue0_ok : queue_ok (st_db queue0).
Proof. split; [intros k j Hk | intros k1 k2 j1 j2 Hk]; simpl in Hk; by rewrite lookup_empty in Hk. Qed.

Lemma queue_steps_to_4 opts : opts build_claim -> rtc (job_step opts) queue0 queue4.
Proof.
  intros Ho.
  apply (rtc_l _ _ queue1); [apply step_enqueueJob|].
  apply (rtc_l _ _ queue2); [apply step_enqueueDeploymentArchive|].
  apply (rtc_l _ _ queue3); [by apply step_claimNextJob|].
  apply (rtc_l _ _ queue4); [apply step_recoverStaleJobs | apply rtc_refl].
Qed.

Lemma queue_steps opts : opts build_claim -> rtc (job_step opts) queue0 queue5.
Proof.
  intros Ho. eapply rtc_r; [by apply queue_steps_to_4|]. by apply step_claimNextJob.
Qed.

Lemma queue_steps_exclusive_witness :
  queue_ok (st_db queue0) /\ exclusive (st_db queue5) /\
  length (select_where job_running (jobs (st_db queue5))) = 1.
Proof.
  split; [apply queue0_ok|]. split; [|by vm_compute].
  exact (queue_steps_exclusive queue0 queue5 queue0_ok (queue_steps _ I)).
Defined.

Lemma claimNextJob_implements_claim_spec_witness :
  exists r s', claimNextJob (Some 2000%Z) build_claim queue2 = (Ok r, s') /\
    claim_spec build_claim 2000 (st_db queue2) r (st_db s').
Proof.
  apply (claimNextJob_implements_claim_spec 2000 build_claim queue2).
  - apply (bool_decide_unpack (map_Forall (fun k j => Job.id j = k) (jobs (st_db queue2)))).
    by vm_compute.
  - split; [intros cap [= <-]; lia | done].
Defined.

Lemma capped_claims_bound_heavy_jobs_witness :
  (Z.of_nat (running_heavy (st_db queue5)) <= 1)%Z /\ running_heavy (st_db queue5) = 1.
Proof.
  split; [|by vm_compute]. apply (capped_claims_bound_heavy_jobs 1 queue0 queue5).
  - split; [apply queue0_ok | by vm_compute].
  - apply queue_steps. exists 1%Z. split; [done | lia].
Defined.

Lemma stale_claim_is_fenced_witness :
  completeJob "job_0" (Some 1%Z) queue5 = (Ok false, queue5) /\
  outcome (completeJob "job_0" (Some 2%Z)) queue5 = Ok true.
Proof.
  split; [|by vm_compute].
  destruct (jobs (st_db queue5) !! "job_0") as [j|] eqn:Hj; [|by vm_compute in Hj].
  destruct (stale_claim_is_fenced "job_0" j 1 queue5 queue5 Hj) as (_ & Hc & _).
  - vm_compute in Hj. injection Hj as <-. simpl. lia.
  - apply rtc_refl.
  - exact Hc.
Defined.

Lemma sample_zod_idempotent : zod_idempotent.
Proof.
  intros z j p. simpl. destruct (sample_valid z j) eqn:Hv; [|done]. intros [= <-]. by rewrite Hv.
Qed.

Lemma sample_zod_keeps_text : zod_keeps_text.
Proof.
  intros shape fs p k Hp _. unfold zod_parse, sample_platform in Hp.
  by destruct (sample_valid _ _); [injection Hp as <-|].
Qed.

Lemma valid_queue_is_never_quarantined_witness :
  is_Some (claim_candidate build_claim (st_db queue4)) /\
  match claim_candidate build_claim (st_db queue4) with
  | Some j => exists job, jobRowToJob (job_claimed 9500 j) = Ok job /\
      claimNextJob (Some 9500%Z) build_claim queue4 =
        (Ok (Some job),
         queue4 <| st_db ::= set_field jobs (insert (Job.id j) (job_claimed 9500 j)) |>)
  | None => claimNextJob (Some 9500%Z) build_claim queue4 = (Ok None, queue4)
  end.
Proof.
  split; [by vm_compute; eexists|].
  apply (valid_queue_is_never_quarantined queue0 queue4 9500 build_claim).
  - apply sample_zod_idempotent.
  - apply queue0_ok.
  - intros k j Hk. simpl in Hk. by rewrite lookup_empty in Hk.
  - by apply queue_steps_to_4.
  - split; [intros cap [= <-]; lia | done].
Defined.

Lemma enqueueDeploymentArchive_idempotent_witness :
  exists job, enqueueDeploymentArchive "p" "dep_1" true queue1 = (Ok (job, true), queue2) /\
    enqueueDeploymentArchive "p" "dep_1" false queue2 = (Ok (job, false), queue2).
Proof.
  eexists. split.
  2: apply (enqueueDeploymentArchive_idempotent "p" "dep_1" true false queue1 _ true queue2);
     [apply sample_zod_keeps_text|].
  all: vm_compute; reflexivity.
Defined.

Lemma heartbeat_prevents_recovery_witness :
  exists s1, heartbeatJob "job_0" 1 (Some 8500%Z) queue3 = (Ok true, s1) /\
  exists j, jobs (st_db (exec (recoverStaleJobs (Some 9000%Z) 1000 10) s1)) !! "job_0" = Some j /\
    Job.status j = "running" /\ Job.attempts j = 1%Z /\ Job.lockedAt j = Some 8500%Z.
Proof.
  exists (exec (heartbeatJob "job_0" 1 (Some 8500%Z)) queue3). split; [by vm_compute|].
  apply (heartbeat_prevents_recovery "job_0" 1 8500 queue3).
  - apply (bool_decide_unpack (map_Forall (fun k j => Job.id j = k) (jobs (st_db queue3)))).
    by vm_compute.
  - by vm_compute.
  - lia.
Defined.
End JobWitnesses.
