(* ===== verification/Runtime.v ===== *)
(** * Runtime instances and activation leases

    [packages/db/src/postgres-runtime-store.ts]: the processes of a
    deployment, one generation after another, and the leases that keep one
    alive.  Activation acquires a lease and creates the next generation when
    none is alive; adoption records an orphan process; the idle sweep turns
    unused processes to draining.  The [for update] lock on the deployment row
    that serialises activation and adoption is the atomicity of a
    transaction. *)

From S2P Require Import Prelude Schema Store Tables Sample Jobs.

Open Scope string_scope.

Section RuntimeStore.
Context `{Platform}.

(** ** Activation *)

Record acquire_input : Type := mk_acquire_input {
  acq_deploymentId : string; acq_kind : lease_kind; acq_ownerId : string;
  acq_expiresAt : time; acq_now : option time
}.

Record activation : Type := mk_activation {
  act_lease : ActivationLease.activation_lease_row;
  act_runtimeInstance : RuntimeInstance.runtime_instance_row;
  act_starter : bool
}.

(** The instance of the highest generation of a deployment. *)
Definition latest_instance (deploymentId : string) (d : database)
    : option RuntimeInstance.runtime_instance_row :=
  head (order_by (desc_by RuntimeInstance.generation)
    (select_where (fun r => bool_decide (RuntimeInstance.deploymentId r = deploymentId))
      (runtimeInstances d))).

Definition has_status (st : runtime_status) (r : RuntimeInstance.runtime_instance_row) : bool :=
  bool_decide (RuntimeInstance.status r = st).

Definition next_generation (latest : option RuntimeInstance.runtime_instance_row) : Z :=
  (from_option RuntimeInstance.generation 0 latest + 1)%Z.

(** The lease of (deployment, kind, owner): a new row, or the row that holds
    the unique index, bound to the instance and made active again. *)
Definition upsert_lease (deploymentId : string) (kind : lease_kind) (ownerId : string)
    (runtimeInstanceId : string) (expiresAt : time)
    : Tx ActivationLease.activation_lease_row :=
  id <- createId "lease" ;;
  upsert activation_leases_table (ui_clash activation_leases_deployment_kind_owner_idx)
    (ActivationLease.mk id deploymentId (Some runtimeInstanceId) kind ownerId expiresAt None)
    (fun r => r <| ActivationLease.runtimeInstanceId := Some runtimeInstanceId |>
                <| ActivationLease.expiresAt := expiresAt |>
                <| ActivationLease.releasedAt := None |>).

Definition acquireActivationLease (input : acquire_input) : Tx activation :=
  transaction (
    deployment <- read (fun d => deployments d !! acq_deploymentId input) ;;
    throw_if (bool_decide (deployment = None))
      (Error "Cannot activate an unknown Deployment.") ;;
    now <- now_or (acq_now input) ;;
    latest <- read (latest_instance (acq_deploymentId input)) ;;
    throw_if match latest with
             | Some r => has_status RuntimeStatus.draining r
             | None => false
             end RuntimeInstanceDrainingError ;;
    let owned := match latest with
                 | Some r => if has_status RuntimeStatus.starting r
                                || has_status RuntimeStatus.ready r
                             then Some r else None
                 | None => None
                 end in
    runtimeInstance <-
      match owned with
      | Some r => ret r
      | None =>
          latest <- read (latest_instance (acq_deploymentId input)) ;;
          id <- createId "rti" ;;
          insert_row runtime_instances_table
            (RuntimeInstance.mk id (acq_deploymentId input) (next_generation latest)
               RuntimeStatus.starting None None (Some now) None None None)
      end ;;
    lease <- upsert_lease (acq_deploymentId input) (acq_kind input) (acq_ownerId input)
               (RuntimeInstance.id runtimeInstance) (acq_expiresAt input) ;;
    ret (mk_activation lease runtimeInstance (bool_decide (owned = None)))).

Definition getRuntimeInstance (runtimeInstanceId : string)
    : Tx (option RuntimeInstance.runtime_instance_row) :=
  read (fun d => runtimeInstances d !! runtimeInstanceId).

Definition listDeploymentRuntimeInstances (deploymentId : string)
    : Tx (list RuntimeInstance.runtime_instance_row) :=
  read (fun d => order_by (asc_by RuntimeInstance.generation)
    (select_where (fun r => bool_decide (RuntimeInstance.deploymentId r = deploymentId))
      (runtimeInstances d))).

(** [isUniqueConstraint]: the caught error is a violation of that index. *)
Definition isUniqueConstraint (e : error) (constraint : string) : bool :=
  match e with
  | UniqueViolation c => bool_decide (c = constraint)
  | _ => false
  end.

Definition adoptRuntimeInstance (deploymentId : string) (endpointHost : option string)
    (endpointPort : option Z) (now : option time)
    : Tx (option RuntimeInstance.runtime_instance_row) :=
  now <- now_or now ;;
  try_catch
    (transaction (
      deployment <- read (fun d => deployments d !! deploymentId) ;;
      if bool_decide (deployment = None) then ret None
      else
        latest <- read (latest_instance deploymentId) ;;
        if match latest with
           | Some r => has_status RuntimeStatus.starting r
                       || has_status RuntimeStatus.ready r
                       || has_status RuntimeStatus.draining r
           | None => false
           end then ret None
        else
          id <- createId "rti" ;;
          row <- insert_row runtime_instances_table
            (RuntimeInstance.mk id deploymentId (next_generation latest)
               RuntimeStatus.ready endpointHost endpointPort (Some now) (Some now) None None) ;;
          ret (Some row)))
    (fun e => if isUniqueConstraint e "runtime_instances_live_port_idx"
              then ret None else throw e).

(** [stoppedAt desc nulls last, deploymentId asc, generation asc] *)
Definition stopped_leb (a b : RuntimeInstance.runtime_instance_row) : bool :=
  match RuntimeInstance.stoppedAt a, RuntimeInstance.stoppedAt b with
  | Some x, Some y => Z.leb y x
  | _, None => true
  | None, Some _ => false
  end.

Definition deployment_leb (a b : RuntimeInstance.runtime_instance_row) : bool :=
  collation_leb (RuntimeInstance.deploymentId a) (RuntimeInstance.deploymentId b).

Definition listRuntimeInstances (statuses : list runtime_status) (limit : Z)
    : Tx (list RuntimeInstance.runtime_instance_row) :=
  throw_if (limit <? 1)%Z (Error "RuntimeInstance list limit must be positive.") ;;
  match statuses with
  | [] => ret []
  | _ =>
      read (fun d => take (Z.to_nat limit)
        (order_by (then_by stopped_leb
                     (then_by deployment_leb (asc_by RuntimeInstance.generation)))
          (select_where (fun r => existsb (fun st => has_status st r) statuses)
            (runtimeInstances d))))
  end.

(** An [undefined] field of the update leaves the column alone. *)
Record runtime_update : Type := mk_runtime_update {
  upd_status : runtime_status;
  upd_endpointHost : option (option string);
  upd_endpointPort : option (option Z);
  upd_error : option (option string)
}.

Definition apply_runtime_update (input : runtime_update) (now : time)
    (r : RuntimeInstance.runtime_instance_row) : RuntimeInstance.runtime_instance_row :=
  let st := upd_status input in
  r <| RuntimeInstance.status := st |>
    <| RuntimeInstance.endpointHost ::= fun h => default h (upd_endpointHost input) |>
    <| RuntimeInstance.endpointPort ::= fun p => default p (upd_endpointPort input) |>
    <| RuntimeInstance.lastError ::= fun e =>
         match upd_error input with
         | Some e' => sanitizeStoredErrorText <$> e'
         | None => e
         end |>
    <| RuntimeInstance.readyAt ::= fun t =>
         if bool_decide (st = RuntimeStatus.ready) then Some now else t |>
    <| RuntimeInstance.stoppedAt ::= fun t =>
         if bool_decide (st = RuntimeStatus.stopped) || bool_decide (st = RuntimeStatus.failed)
         then Some now else t |>.

Definition updateRuntimeInstance (runtimeInstanceId : string) (input : runtime_update)
    (now : option time) : Tx (option RuntimeInstance.runtime_instance_row) :=
  now <- now_or now ;;
  update_key runtime_instances_table runtimeInstanceId (fun _ => true)
    (apply_runtime_update input now).

Definition reserveRuntimeInstancePort (runtimeInstanceId : string) (port : Z) : Tx bool :=
  try_catch
    (o <- update_key runtime_instances_table runtimeInstanceId (fun _ => true)
            (fun r => r <| RuntimeInstance.endpointHost := Some "127.0.0.1" |>
                        <| RuntimeInstance.endpointPort := Some port |>) ;;
     ret (bool_decide (is_Some o)))
    (fun e => if isUniqueConstraint e "runtime_instances_live_port_idx"
              then ret false else throw e).

(** ** Leases *)

Definition lease_active (now : time) (l : ActivationLease.activation_lease_row) : bool :=
  bool_decide (ActivationLease.releasedAt l = None) && (now <? ActivationLease.expiresAt l)%Z.

Definition getActivationLease (leaseId : string)
    : Tx (option ActivationLease.activation_lease_row) :=
  read (fun d => activationLeases d !! leaseId).

Definition renewActivationLease (leaseId : string) (expiresAt : time) (now : option time)
    : Tx (option ActivationLease.activation_lease_row) :=
  now <- now_or now ;;
  update_key activation_leases_table leaseId (lease_active now)
    (fun l => l <| ActivationLease.expiresAt := expiresAt |>).

Definition releaseActivationLease (leaseId : string) (now : option time)
    : Tx (option ActivationLease.activation_lease_row) :=
  now <- now_or now ;;
  row <- update_key activation_leases_table leaseId
           (fun l => bool_decide (ActivationLease.releasedAt l = None))
           (fun l => l <| ActivationLease.releasedAt := Some now |>) ;;
  match row with
  | Some l => ret (Some l)
  | None => read (fun d => activationLeases d !! leaseId)
  end.

Definition has_active_lease (deploymentId : string) (now : time) (d : database) : bool :=
  existsb (fun l => bool_decide (ActivationLease.deploymentId l = deploymentId)
                    && lease_active now l) (rows (activationLeases d)).

Definition hasActiveActivationLeases (deploymentId : string) (now : option time) : Tx bool :=
  now <- now_or now ;;
  read (has_active_lease deploymentId now).

(** ** The idle sweep *)

Record idle_input : Type := mk_idle_input {
  idle_now : time; idle_idleTtlMs : Z; idle_schedulePrewarmMs : option Z; idle_limit : Z
}.

(** [greatest] over timestamps extended with -infinity ([None]). *)
Definition greatest (a b : option time) : option time :=
  match a, b with
  | Some x, Some y => Some (Z.max x y)
  | Some x, None | None, Some x => Some x
  | None, None => None
  end.

Definition at_most (t : option time) (cutoff : time) : bool :=
  match t with Some x => (x <=? cutoff)%Z | None => true end.

Definition lease_end (l : ActivationLease.activation_lease_row) : time :=
  default (ActivationLease.expiresAt l) (ActivationLease.releasedAt l).

Definition instance_leases (id : string) (d : database)
    : list ActivationLease.activation_lease_row :=
  select_where (fun l => bool_decide (ActivationLease.runtimeInstanceId l = Some id))
    (activationLeases d).

(** [max(coalesce(released_at, expires_at))] over the instance's leases. *)
Definition last_lease_end (id : string) (d : database) : option time :=
  foldr (fun l acc => greatest (Some (lease_end l)) acc) None (instance_leases id d).

Definition run_protects (r : ScheduleRun.schedule_run_row) : bool :=
  match ScheduleRun.status r with
  | RunStatus.queued | RunStatus.activating | RunStatus.dispatching | RunStatus.running => true
  | _ => false
  end.

Definition has_protected_run (deploymentId : string) (d : database) : bool :=
  existsb (fun r => bool_decide (ScheduleRun.deploymentId r = deploymentId) && run_protects r)
    (rows (scheduleRuns d)).

(** An enabled schedule of a project targeting the deployment, due before the
    horizon. *)
Definition has_upcoming_schedule (deploymentId : string) (horizon : time) (d : database) : bool :=
  existsb (fun target =>
    bool_decide (SchedulerTarget.deploymentId target = deploymentId) &&
    existsb (fun sched =>
      bool_decide (ProjectSchedule.projectId sched = SchedulerTarget.projectId target)
      && ProjectSchedule.enabled sched
      && match ProjectSchedule.nextRunAt sched with
         | Some t => (t <=? horizon)%Z
         | None => false
         end) (rows (projectSchedules d)))
    (rows (projectSchedulerTargets d)).

Definition prewarm (input : idle_input) : Z := default 0%Z (idle_schedulePrewarmMs input).

(** The [where] of the candidate query. *)
Definition idle_candidate (input : idle_input) (d : database)
    (r : RuntimeInstance.runtime_instance_row) : bool :=
  let cutoffAt := (idle_now input - idle_idleTtlMs input)%Z in
  let did := RuntimeInstance.deploymentId r in
  has_status RuntimeStatus.draining r
  || (has_status RuntimeStatus.ready r
      && negb (has_active_lease did (idle_now input) d)
      && negb (has_protected_run did d)
      && (negb (0 <? prewarm input)%Z
          || negb (has_upcoming_schedule did (idle_now input + prewarm input)%Z d))
      && at_most
           (greatest
              match RuntimeInstance.readyAt r with
              | Some t => Some t
              | None => RuntimeInstance.startedAt r
              end
              (last_lease_end (RuntimeInstance.id r) d)) cutoffAt).

(** [Math.max(...activityTimes)] of the second check. *)
Definition activity_max (r : RuntimeInstance.runtime_instance_row)
    (leases : list ActivationLease.activation_lease_row) : option time :=
  foldr greatest None
    (RuntimeInstance.readyAt r :: RuntimeInstance.startedAt r
     :: ((fun l => Some (lease_end l)) <$> leases)).

Definition claim_idle_candidate (input : idle_input)
    (claimed : list RuntimeInstance.runtime_instance_row)
    (candidate : RuntimeInstance.runtime_instance_row)
    : Tx (list RuntimeInstance.runtime_instance_row) :=
  let cutoffAt := (idle_now input - idle_idleTtlMs input)%Z in
  if has_status RuntimeStatus.draining candidate then ret (claimed ++ [candidate])%list
  else
    activeLease <- read (has_active_lease (RuntimeInstance.deploymentId candidate)
                           (idle_now input)) ;;
    if activeLease then ret claimed
    else
      leaseRows <- read (instance_leases (RuntimeInstance.id candidate)) ;;
      if negb (at_most (activity_max candidate leaseRows) cutoffAt) then ret claimed
      else
        updated <- update_key runtime_instances_table (RuntimeInstance.id candidate)
                     (has_status RuntimeStatus.ready)
                     (fun r => r <| RuntimeInstance.status := RuntimeStatus.draining |>) ;;
        match updated with
        | Some r => ret (claimed ++ [r])%list
        | None => ret claimed
        end.

Definition claimIdleRuntimeInstances (input : idle_input)
    : Tx (list RuntimeInstance.runtime_instance_row) :=
  throw_if (idle_limit input <? 1)%Z (Error "Runtime idle claim limit must be positive.") ;;
  throw_if (idle_idleTtlMs input <? 0)%Z (Error "Runtime idle TTL must be non-negative.") ;;
  throw_if (prewarm input <? 0)%Z (Error "Schedule prewarm window must be non-negative.") ;;
  transaction (
    candidates <- read (fun d =>
      take (Z.to_nat (idle_limit input))
        (order_by (then_by deployment_leb (asc_by RuntimeInstance.generation))
          (select_where (idle_candidate input d) (runtimeInstances d)))) ;;
    fold_m (claim_idle_candidate input) candidates []).
End RuntimeStore.

(** ** What the operations do to the instances *)
Section RuntimeFacts.
Context `{Platform}.

Definition live (r : RuntimeInstance.runtime_instance_row) : bool :=
  runtime_live (RuntimeInstance.status r).

(** A live instance is the newest of its deployment, no other generation being
    as high, unless it is one of [revived], the instances that have been written
    live again after they had stopped or failed. *)
Definition runtime_ok_but (revived : list string) (d : database) : Prop :=
  keyed runtime_instances_table d /\
  forall k1 k2 r1 r2, runtimeInstances d !! k1 = Some r1 -> runtimeInstances d !! k2 = Some r2 ->
    k1 <> k2 -> RuntimeInstance.deploymentId r1 = RuntimeInstance.deploymentId r2 ->
    live r1 = true -> k1 ∉ revived ->
    (RuntimeInstance.generation r2 < RuntimeInstance.generation r1)%Z.

(** With no such instance, a deployment has at most one live instance. *)
Definition runtime_ok : database -> Prop := runtime_ok_but [].

(** Transitions that create no instance and revive none. *)
Definition calm_instances (d d' : database) : Prop :=
  forall k r', runtimeInstances d' !! k = Some r' ->
    exists r, runtimeInstances d !! k = Some r /\
      RuntimeInstance.id r' = RuntimeInstance.id r /\
      RuntimeInstance.deploymentId r' = RuntimeInstance.deploymentId r /\
      RuntimeInstance.generation r' = RuntimeInstance.generation r /\
      (live r' = true -> live r = true).

#[global] Instance calm_instances_preorder : PreOrder calm_instances.
Proof.
  split; [intros d k r Hk; by exists r|].
  intros d1 d2 d3 H12 H23 k r3 Hk3. destruct (H23 k r3 Hk3) as (r2 & Hk2 & ? & ? & ? & ?).
  destruct (H12 k r2 Hk2) as (r1 & Hk1 & ? & ? & ? & ?). exists r1.
  repeat split; [done | congruence.. | auto].
Qed.

Lemma calm_runtime_ok revived d d' :
  calm_instances d d' -> runtime_ok_but revived d -> runtime_ok_but revived d'.
Proof.
  intros Hc [Hkey Hok]. split.
  - intros k r' Hk. destruct (Hc k r' Hk) as (r & Hk' & Hid & _). simpl. rewrite Hid.
    by apply Hkey.
  - intros k1 k2 r1' r2' Hk1 Hk2 Hne Hd Hl Hnew.
    destruct (Hc k1 r1' Hk1) as (r1 & Hk1' & _ & Hd1 & -> & Hl1).
    destruct (Hc k2 r2' Hk2) as (r2 & Hk2' & _ & Hd2 & -> & _).
    apply (Hok k1 k2); auto; congruence.
Qed.

(** The newest instance, read off the query. *)
Lemma latest_instance_Some did d r :
  latest_instance did d = Some r ->
  (exists k, runtimeInstances d !! k = Some r) /\ RuntimeInstance.deploymentId r = did /\
  forall k' r', runtimeInstances d !! k' = Some r' -> RuntimeInstance.deploymentId r' = did ->
    (RuntimeInstance.generation r' <= RuntimeInstance.generation r)%Z.
Proof.
  intros Hh. apply desc_head_max in Hh as [Hin Hmax].
  apply elem_of_select in Hin as [Hd Hk]. apply bool_decide_eq_true in Hd.
  split; [done|]. split; [done|]. intros k' r' Hk' Hd'. apply Hmax, elem_of_select.
  rewrite bool_decide_eq_true. eauto.
Qed.

Lemma latest_instance_None did d k r :
  latest_instance did d = None -> runtimeInstances d !! k = Some r ->
  RuntimeInstance.deploymentId r <> did.
Proof.
  intros Hh Hk Hd. apply order_by_head_None in Hh.
  assert (Hin : r ∈ select_where (fun r => bool_decide (RuntimeInstance.deploymentId r = did))
                      (runtimeInstances d)).
  { apply elem_of_select. rewrite bool_decide_eq_true. eauto. }
  rewrite Hh in Hin. by apply not_elem_of_nil in Hin.
Qed.

(** The next generation is above every generation of the deployment. *)
Lemma next_generation_above did d k r :
  runtimeInstances d !! k = Some r -> RuntimeInstance.deploymentId r = did ->
  (RuntimeInstance.generation r < next_generation (latest_instance did d))%Z.
Proof.
  intros Hk Hd. unfold next_generation. destruct (latest_instance did d) as [l|] eqn:Hl; simpl.
  - apply latest_instance_Some in Hl as (_ & _ & Hmax). specialize (Hmax k r Hk Hd). lia.
  - by destruct (latest_instance_None _ _ _ _ Hl Hk).
Qed.

(** When the newest instance is dead, all of them are but the revived ones. *)
Lemma latest_dead revived did d k r :
  runtime_ok_but revived d -> runtimeInstances d !! k = Some r ->
  RuntimeInstance.deploymentId r = did -> k ∉ revived ->
  match latest_instance did d with Some l => live l = false | None => True end ->
  live r = false.
Proof.
  intros [Hkey Hok] Hk Hd Hnew Hdead. apply not_true_iff_false. intros Hlive.
  destruct (latest_instance did d) as [l|] eqn:Hl.
  - apply latest_instance_Some in Hl as ((kl & Hkl) & Hdl & Hmax).
    destruct (decide (k = kl)) as [->|Hne]; [congruence|].
    specialize (Hmax k r Hk Hd).
    specialize (Hok k kl r l Hk Hkl Hne ltac:(congruence) Hlive Hnew). lia.
  - by destruct (latest_instance_None _ _ _ _ Hl Hk).
Qed.

(** A new generation over a dead deployment keeps the invariant. *)
Lemma insert_generation_ok revived d r :
  runtime_ok_but revived d ->
  match latest_instance (RuntimeInstance.deploymentId r) d with
  | Some l => live l = false | None => True end ->
  RuntimeInstance.generation r
    = next_generation (latest_instance (RuntimeInstance.deploymentId r) d) ->
  runtime_ok_but revived (tbl_set runtime_instances_table (insert (RuntimeInstance.id r) r) d).
Proof.
  intros Hok Hdead Hgen. split; [apply keyed_insert; [apply _ | apply Hok | done]|].
  intros k1 k2 r1 r2. simpl.
  destruct (decide (RuntimeInstance.id r = k1)) as [<-|H1],
    (decide (RuntimeInstance.id r = k2)) as [<-|H2];
    rewrite ?lookup_insert_eq, ?lookup_insert_ne by done; try done.
  - intros [= <-] Hk2 _ Hd _ _. rewrite Hgen. by eapply next_generation_above.
  - intros Hk1 [= <-] _ Hd Hl Hnew.
    by rewrite (latest_dead _ _ _ _ _ Hok Hk1 Hd Hnew Hdead) in Hl.
  - apply Hok.
Qed.

(** ** The operations as transitions *)

Lemma calm_same d d' : runtimeInstances d' = runtimeInstances d -> calm_instances d d'.
Proof. intros Heq k r Hk. rewrite Heq in Hk. by exists r. Qed.

Lemma moves_instance_update k p f :
  (forall r, p r = true -> RuntimeInstance.id (f r) = RuntimeInstance.id r /\
     RuntimeInstance.deploymentId (f r) = RuntimeInstance.deploymentId r /\
     RuntimeInstance.generation (f r) = RuntimeInstance.generation r /\
     (live (f r) = true -> live r = true)) ->
  moves calm_instances (update_key runtime_instances_table k p f).
Proof.
  intros Hf. apply moves_update_key; [apply _|]. intros d r Hk Hp k' r'. simpl.
  destruct (decide (k = k')) as [<-|Hne].
  - rewrite lookup_insert_eq. intros [= <-]. exists r. destruct (Hf r Hp) as (?&?&?&?). done.
  - rewrite lookup_insert_ne by done. intros Hk'. by exists r'.
Qed.

Lemma moves_reserveRuntimeInstancePort k port :
  moves calm_instances (reserveRuntimeInstancePort k port).
Proof. unfold reserveRuntimeInstancePort. walk. by apply moves_instance_update. Qed.

Lemma moves_renewActivationLease k e now : moves calm_instances (renewActivationLease k e now).
Proof.
  unfold renewActivationLease. walk. apply moves_update_key; [apply _|]. intros.
  by apply calm_same.
Qed.

Lemma moves_releaseActivationLease k now : moves calm_instances (releaseActivationLease k now).
Proof.
  unfold releaseActivationLease. walk. apply moves_update_key; [apply _|]. intros.
  by apply calm_same.
Qed.

Lemma moves_claimIdle input : moves calm_instances (claimIdleRuntimeInstances input).
Proof.
  unfold claimIdleRuntimeInstances, claim_idle_candidate. walk.
  apply moves_instance_update. intros r Hr. repeat split. intros _. unfold live.
  unfold has_status in Hr. apply bool_decide_eq_true in Hr. by rewrite Hr.
Qed.

(** An update whose status revives nothing. *)
Lemma update_calm k input now s :
  (runtime_live (upd_status input) = true ->
   forall r, runtimeInstances (st_db s) !! k = Some r -> live r = true) ->
  calm_instances (st_db s) (st_db (exec (updateRuntimeInstance k input now) s)).
Proof.
  intros Hlive. unfold updateRuntimeInstance, exec.
  set (t := match now with Some t => t | None => st_clock s end).
  assert (Hnow : forall A (f : time -> Tx A), bind (now_or now) f s = f t s)
    by (by destruct now). rewrite Hnow.
  destruct (update_key _ _ _ _ s) as [[o|e] s'] eqn:Hup.
  - apply update_key_ok in Hup as [(_ & -> & _)|(r & Hk & _ & _ & _ & ->)]; [by apply calm_same|].
    intros k' r'. simpl. destruct (decide (k = k')) as [<-|Hne].
    + rewrite lookup_insert_eq. intros [= <-]. exists r. repeat split; [done|].
      unfold live at 1. simpl. intros Hl. by apply Hlive.
    + rewrite lookup_insert_ne by done. intros Hk'. by exists r'.
  - apply update_key_err in Hup as ->. by apply calm_same.
Qed.

(** Any update changes one instance at most, and neither its id, its deployment
    nor its generation. *)
Lemma updated_instance k input now s k' r' :
  runtimeInstances (st_db (exec (updateRuntimeInstance k input now) s)) !! k' = Some r' ->
  exists r, runtimeInstances (st_db s) !! k' = Some r /\
    RuntimeInstance.id r' = RuntimeInstance.id r /\
    RuntimeInstance.deploymentId r' = RuntimeInstance.deploymentId r /\
    RuntimeInstance.generation r' = RuntimeInstance.generation r /\
    (k' <> k -> r' = r).
Proof.
  unfold updateRuntimeInstance, exec.
  set (t := match now with Some t => t | None => st_clock s end).
  assert (Hnow : forall A (f : time -> Tx A), bind (now_or now) f s = f t s)
    by (by destruct now). rewrite Hnow.
  destruct (update_key _ _ _ _ s) as [[o|e] s'] eqn:Hup.
  - apply update_key_ok in Hup as [(_ & -> & _)|(r & Hk & _ & _ & _ & ->)]; [by exists r'|].
    simpl. destruct (decide (k = k')) as [<-|Hne].
    + rewrite lookup_insert_eq. intros [= <-]. by exists r.
    + rewrite lookup_insert_ne by done. intros Hk'. by exists r'.
  - apply update_key_err in Hup as ->. by exists r'.
Qed.

Lemma update_revives_ok revived k input now s :
  runtime_ok_but revived (st_db s) ->
  runtime_ok_but (revived ++ [k])%list (st_db (exec (updateRuntimeInstance k input now) s)).
Proof.
  intros [Hkey Hok]. split.
  - intros k' r' (r & Hk & Hid & _)%updated_instance. simpl. rewrite Hid. by apply Hkey.
  - intros k1 k2 r1' r2' (r1 & Hk1 & _ & Hd1 & Hg1 & Hsame)%updated_instance
      (r2 & Hk2 & _ & Hd2 & Hg2 & _)%updated_instance Hne Hd Hl Hnew.
    rewrite not_elem_of_app, list_elem_of_singleton in Hnew. destruct Hnew as [Hnew Hk].
    rewrite (Hsame Hk) in *. rewrite Hg2.
    apply (Hok k1 k2 r1 r2); congruence.
Qed.

(** What a successful activation did. *)
Definition lease_for (input : acquire_input) (rti : string)
    (l : ActivationLease.activation_lease_row) : Prop :=
  ActivationLease.deploymentId l = acq_deploymentId input /\
  ActivationLease.kind l = acq_kind input /\ ActivationLease.ownerId l = acq_ownerId input /\
  ActivationLease.runtimeInstanceId l = Some rti /\
  ActivationLease.expiresAt l = acq_expiresAt input /\ ActivationLease.releasedAt l = None.

Definition fresh_instance (input : acquire_input) (now : time) (id : string) (d : database)
    : RuntimeInstance.runtime_instance_row :=
  RuntimeInstance.mk id (acq_deploymentId input)
    (next_generation (latest_instance (acq_deploymentId input) d))
    RuntimeStatus.starting None None (Some now) None None None.

Lemma upsert_lease_ok did kind owner rti expires s l s' :
  keyed activation_leases_table (st_db s) ->
  upsert_lease did kind owner rti expires s = (Ok l, s') ->
  st_db s' = (st_db s) <| activationLeases ::= insert (ActivationLease.id l) l |> /\
  ActivationLease.deploymentId l = did /\ ActivationLease.kind l = kind /\
  ActivationLease.ownerId l = owner /\ ActivationLease.runtimeInstanceId l = Some rti /\
  ActivationLease.expiresAt l = expires /\ ActivationLease.releasedAt l = None.
Proof.
  intros Hkey. unfold upsert_lease. rewrite bind_ok. intros (id & s1 & [= <- <-] & Hrun).
  apply upsert_ok in Hrun as [(_ & Hins)|(r0 & Hk & Htg & -> & ->)]; [| |done].
  - apply insert_row_ok in Hins as (-> & _ & _ & ->). done.
  - simpl in Htg. apply same_key_clash in Htg as ([[d0 k0] o0] & [= <- <- <-] & [= ? ? ?]).
    by repeat split.
Qed.

(** The two arms of the activation: the live instance, or a new generation. *)
Lemma acquire_fresh input now s a s' :
  keyed activation_leases_table (st_db s) ->
  let did := acq_deploymentId input in
  (r <- (latest <- read (latest_instance did) ;;
         id <- createId "rti" ;;
         insert_row runtime_instances_table
           (RuntimeInstance.mk id did (next_generation latest)
              RuntimeStatus.starting None None (Some now) None None None)) ;;
   lease <- upsert_lease did (acq_kind input) (acq_ownerId input)
              (RuntimeInstance.id r) (acq_expiresAt input) ;;
   ret (mk_activation lease r true)) s = (Ok a, s') ->
  let r := act_runtimeInstance a in
  act_starter a = true /\ lease_for input (RuntimeInstance.id r) (act_lease a) /\
  (exists id, r = fresh_instance input now id (st_db s)) /\
  runtimeInstances (st_db s) !! RuntimeInstance.id r = None /\
  st_db s' = (st_db s) <| runtimeInstances ::= insert (RuntimeInstance.id r) r |>
               <| activationLeases ::= insert (ActivationLease.id (act_lease a)) (act_lease a) |>.
Proof.
  intros Hkey did Hrun. apply bind_ok in Hrun as (r & s1 & Hins & Hrun).
  apply bind_ok in Hins as (latest & s2 & [= <- <-] & Hins).
  apply bind_ok in Hins as (id & s2 & [= <- <-] & Hins).
  apply insert_row_ok in Hins as (-> & Hnone & _ & ->).
  apply bind_ok in Hrun as (lease & s2 & (Hdb & Hlf)%upsert_lease_ok & [= <- <-]); [|done].
  simpl. rewrite Hdb. split; [done|]. split; [by repeat split; apply Hlf|].
  split; [by eexists|]. done.
Qed.

Lemma acquireActivationLease_ok input s a s' :
  keyed activation_leases_table (st_db s) ->
  acquireActivationLease input s = (Ok a, s') ->
  let did := acq_deploymentId input in
  let d := st_db s in let d' := st_db s' in
  let r := act_runtimeInstance a in
  is_Some (deployments d !! did) /\
  activationLeases d' = <[ActivationLease.id (act_lease a) := act_lease a]> (activationLeases d) /\
  lease_for input (RuntimeInstance.id r) (act_lease a) /\
  if act_starter a then
    match latest_instance did d with Some l => live l = false | None => True end /\
    (exists now id, r = fresh_instance input now id d) /\
    runtimeInstances d !! RuntimeInstance.id r = None /\
    d' = d <| runtimeInstances ::= insert (RuntimeInstance.id r) r |>
           <| activationLeases ::= insert (ActivationLease.id (act_lease a)) (act_lease a) |>
  else
    latest_instance did d = Some r /\
    (RuntimeInstance.status r = RuntimeStatus.starting \/
     RuntimeInstance.status r = RuntimeStatus.ready) /\
    d' = d <| activationLeases ::= insert (ActivationLease.id (act_lease a)) (act_lease a) |>.
Proof.
  intros Hkey. unfold acquireActivationLease. rewrite transaction_ok. intros Hrun.
  apply bind_ok in Hrun as (dep & s1 & [= <- <-] & Hrun).
  apply bind_ok in Hrun as (u & s1 & [Hdep ->]%throw_if_ok & Hrun).
  apply bool_decide_eq_false in Hdep. rewrite eq_None_not_Some in Hdep.
  apply dec_stable in Hdep.
  apply bind_ok in Hrun as (now & s1 & Hnow & Hrun).
  assert (s1 = s) as -> by (destruct (acq_now input); by injection Hnow).
  apply bind_ok in Hrun as (latest & s1 & [= <- <-] & Hrun).
  apply bind_ok in Hrun as (u' & s1 & [Hdr ->]%throw_if_ok & Hrun). cbv zeta in Hrun.
  destruct (latest_instance (acq_deploymentId input) (st_db s)) as [l|] eqn:Hl;
    [destruct (has_status RuntimeStatus.starting l || has_status RuntimeStatus.ready l) eqn:Hlive|].
  - apply bind_ok in Hrun as (r & s1 & [= <- <-] & Hrun).
    apply bind_ok in Hrun as (lease & s1 & (Hdb & Hlf)%upsert_lease_ok & [= <- <-]); [|done].
    simpl. rewrite Hdb. repeat split; try apply Hlf; [done|].
    apply orb_prop in Hlive as [Hs|Hs]; apply bool_decide_eq_true in Hs; auto.
  - apply (acquire_fresh input now) in Hrun as (Hst & Hlf & (id & Hr) & Hn & Hdb); [|done].
    rewrite Hst, Hdb. simpl. repeat split; try apply Hlf; [done| |eauto|done].
    unfold live, runtime_live. apply orb_false_iff in Hlive as [H1 H2].
    unfold has_status in *. apply bool_decide_eq_false in H1, H2, Hdr.
    destruct (RuntimeInstance.status l); done.
  - apply (acquire_fresh input now) in Hrun as (Hst & Hlf & (id & Hr) & Hn & Hdb); [|done].
    rewrite Hst, Hdb. simpl. repeat split; try apply Hlf; [done|eauto|done].
Qed.

Lemma adopt_insert did host port now latest s o s' :
  (id <- createId "rti" ;;
   row <- insert_row runtime_instances_table
     (RuntimeInstance.mk id did (next_generation latest)
        RuntimeStatus.ready host port (Some now) (Some now) None None) ;;
   ret (Some row)) s = (Ok o, s') ->
  exists r, st_db s' = tbl_set runtime_instances_table (insert (RuntimeInstance.id r) r) (st_db s) /\
    RuntimeInstance.deploymentId r = did /\
    RuntimeInstance.generation r = next_generation latest /\
    RuntimeInstance.status r = RuntimeStatus.ready.
Proof.
  intros Hrun. apply bind_ok in Hrun as (id & s1 & [= <- <-] & Hrun).
  apply bind_ok in Hrun as (row & s2 & (Hrow & _ & _ & ->)%insert_row_ok & [= <- <-]).
  exists row. by rewrite Hrow.
Qed.

Lemma adopt_cases did host port now s :
  st_db (exec (adoptRuntimeInstance did host port now) s) = st_db s \/
  exists r, st_db (exec (adoptRuntimeInstance did host port now) s)
      = tbl_set runtime_instances_table (insert (RuntimeInstance.id r) r) (st_db s) /\
    RuntimeInstance.deploymentId r = did /\
    RuntimeInstance.generation r = next_generation (latest_instance did (st_db s)) /\
    RuntimeInstance.status r = RuntimeStatus.ready /\
    match latest_instance did (st_db s) with Some l => live l = false | None => True end.
Proof.
  unfold adoptRuntimeInstance, exec.
  set (t := match now with Some t => t | None => st_clock s end).
  assert (Hnow : forall A (f : time -> Tx A), bind (now_or now) f s = f t s)
    by (by destruct now). rewrite Hnow. unfold try_catch.
  destruct (transaction _ s) as [[o|e] s1] eqn:Hrun.
  - rewrite transaction_ok in Hrun.
    apply bind_ok in Hrun as (dep & s2 & [= <- <-] & Hrun).
    destruct (bool_decide _); [left; by injection Hrun as <- <-|].
    apply bind_ok in Hrun as (latest & s2 & [= <- <-] & Hrun).
    destruct (latest_instance did (st_db s)) as [l|] eqn:Hl; [destruct (_ || _) eqn:Hlive|].
    + left. by injection Hrun as <- <-.
    + right. apply adopt_insert in Hrun as (r & Hdb & Hd & Hg & Hst). exists r.
      split; [done|]. do 3 (split; [done|]).
      apply orb_false_iff in Hlive as [[H1 H2]%orb_false_iff H3]. unfold has_status, live in *.
      apply bool_decide_eq_false in H1, H2, H3. by destruct (RuntimeInstance.status l).
    + right. by apply adopt_insert in Hrun as (r & ? & ? & ? & ?); exists r.
  - left. pose proof (transaction_err _ _ _ _ Hrun).
    destruct (isUniqueConstraint _ _); done.
Qed.

Lemma adopt_runtime_ok revived did host port now :
  moves (preserves (runtime_ok_but revived)) (adoptRuntimeInstance did host port now).
Proof.
  intros s Hs. destruct (adopt_cases did host port now s)
    as [->|(r & -> & Hd & Hg & _ & Hdead)]; [done|].
  apply insert_generation_ok; by rewrite ?Hd.
Qed.

Definition runtime_and_leases_ok_but (revived : list string) (d : database) : Prop :=
  runtime_ok_but revived d /\ keyed activation_leases_table d.
Definition runtime_and_leases_ok : database -> Prop := runtime_and_leases_ok_but [].

Lemma moves_leases {A} revived (m : Tx A) :
  moves calm_instances m -> moves (preserves (keyed activation_leases_table)) m ->
  moves (preserves (runtime_and_leases_ok_but revived)) m.
Proof.
  intros Hc Hl s [Hr Hk]. split; [eapply calm_runtime_ok; [apply Hc | done] | by apply Hl].
Qed.

Lemma keyed_leases_same d d' :
  activationLeases d' = activationLeases d ->
  preserves (keyed activation_leases_table) d d'.
Proof. intros Heq Hk k r. simpl. rewrite Heq. apply Hk. Qed.

Lemma acquire_ok_step revived input :
  moves (preserves (runtime_and_leases_ok_but revived)) (acquireActivationLease input).
Proof.
  intros s [Hr Hk]. unfold exec. destruct (acquireActivationLease input s) as [[a|e] s'] eqn:Hrun.
  - pose proof (acquireActivationLease_ok _ _ _ _ Hk Hrun) as (_ & Hl & _ & Hcase). simpl in *.
    assert (Hk' : keyed activation_leases_table (st_db s')).
    { intros k l. simpl. rewrite Hl. destruct (decide (ActivationLease.id (act_lease a) = k))
        as [<-|Hne]; [rewrite lookup_insert_eq; by intros [= <-]|].
      rewrite lookup_insert_ne by done. apply Hk. }
    split; [|done]. destruct (act_starter a).
    + destruct Hcase as (Hdead & (now & id & Hr') & _ & ->).
      apply (calm_runtime_ok _ (tbl_set runtime_instances_table
        (insert (RuntimeInstance.id (act_runtimeInstance a)) (act_runtimeInstance a)) (st_db s)));
        [by apply calm_same|].
      apply insert_generation_ok; [done|..]; by rewrite Hr'.
    + destruct Hcase as (_ & _ & ->). eapply calm_runtime_ok, Hr. by apply calm_same.
  - unfold acquireActivationLease in Hrun. apply transaction_err in Hrun. simpl.
    by rewrite Hrun.
Qed.

(** ** Executions

    [updateRuntimeInstance] sets whatever status it is given: a step of it that
    writes a stopped or failed instance live again revives that instance, and
    the step is labelled with it.  Other code may delete rows of the two tables
    (the deletion of a deployment cascades to them). *)
Definition revives (k : string) (input : runtime_update) (s : store) : bool :=
  runtime_live (upd_status input)
  && match runtimeInstances (st_db s) !! k with Some r => negb (live r) | None => false end.

Inductive runtime_step : list string -> store -> store -> Prop :=
  | step_acquire input s : runtime_step [] s (exec (acquireActivationLease input) s)
  | step_adopt did host port now s :
      runtime_step [] s (exec (adoptRuntimeInstance did host port now) s)
  | step_update k input now s :
      runtime_step (if revives k input s then [k] else []) s
        (exec (updateRuntimeInstance k input now) s)
  | step_reserve k port s : runtime_step [] s (exec (reserveRuntimeInstancePort k port) s)
  | step_renew k e now s : runtime_step [] s (exec (renewActivationLease k e now) s)
  | step_release k now s : runtime_step [] s (exec (releaseActivationLease k now) s)
  | step_claim_idle input s : runtime_step [] s (exec (claimIdleRuntimeInstances input) s)
  | step_outside s s' :
      runtimeInstances (st_db s') ⊆ runtimeInstances (st_db s) ->
      activationLeases (st_db s') ⊆ activationLeases (st_db s) -> runtime_step [] s s'.

(** A run, with the instances its steps revived. *)
Inductive runtime_run : list string -> store -> store -> Prop :=
  | run_none s : runtime_run [] s s
  | run_step ks ks' s1 s2 s3 :
      runtime_step ks s1 s2 -> runtime_run ks' s2 s3 -> runtime_run (ks ++ ks')%list s1 s3.

(** A step that revives nothing, before a run. *)
Lemma run_calm ks s1 s2 s3 :
  runtime_step [] s1 s2 -> runtime_run ks s2 s3 -> runtime_run ks s1 s3.
Proof. apply (run_step []). Qed.

Lemma runtime_run_app ks1 ks2 s1 s2 s3 :
  runtime_run ks1 s1 s2 -> runtime_run ks2 s2 s3 -> runtime_run (ks1 ++ ks2)%list s1 s3.
Proof.
  induction 1; intros Hrun; [done|]. rewrite <- app_assoc. eapply run_step; eauto.
Qed.

(** A rule for a property of the database that every step keeps. *)
Lemma runtime_run_ind_db (P : database -> Prop) :
  (forall ks s s', runtime_step ks s s' -> P (st_db s) -> P (st_db s')) ->
  forall ks s s', runtime_run ks s s' -> P (st_db s) -> P (st_db s').
Proof. intros Hstep ks s s' Hrun. induction Hrun; eauto. Qed.

Lemma moves_lease_update k p f :
  (forall l, ActivationLease.id (f l) = ActivationLease.id l) ->
  moves (preserves (keyed activation_leases_table)) (update_key activation_leases_table k p f).
Proof.
  intros Hf. apply moves_update_key; [apply _|]. intros d r Hk _ Hkey.
  apply keyed_insert; [apply _ | done|]. simpl. rewrite Hf. by apply Hkey.
Qed.

Lemma moves_instance_frame k p f :
  moves (preserves (keyed activation_leases_table)) (update_key runtime_instances_table k p f).
Proof. apply moves_update_key; [apply _|]. intros. by apply keyed_leases_same. Qed.
#[local] Hint Resolve moves_instance_frame : moves.

(** A revived instance joins the exceptions; any other update is calm. *)
Lemma update_ok_but revived k input now s :
  runtime_ok_but revived (st_db s) ->
  runtime_ok_but (revived ++ (if revives k input s then [k] else []))%list
    (st_db (exec (updateRuntimeInstance k input now) s)).
Proof.
  intros Hok. unfold revives. destruct (runtime_live (upd_status input)) eqn:Hlive; simpl.
  2: { rewrite app_nil_r. eapply calm_runtime_ok, Hok. apply update_calm. congruence. }
  destruct (runtimeInstances (st_db s) !! k) as [r|] eqn:Hk;
    [destruct (live r) eqn:Hr; simpl|simpl].
  - rewrite app_nil_r. eapply calm_runtime_ok, Hok. apply update_calm. congruence.
  - by apply update_revives_ok.
  - rewrite app_nil_r. eapply calm_runtime_ok, Hok. apply update_calm. congruence.
Qed.

Lemma runtime_step_ok revived ks s s' :
  runtime_step ks s s' -> runtime_and_leases_ok_but revived (st_db s) ->
  runtime_and_leases_ok_but (revived ++ ks)%list (st_db s').
Proof.
  intros Hs; destruct Hs; rewrite ?app_nil_r.
  - apply acquire_ok_step.
  - intros [Hr Hk]. split; [by apply adopt_runtime_ok|].
    destruct (adopt_cases did host port now s) as [->|(r & -> & _)]; [done|].
    by apply keyed_leases_same with (d := st_db s).
  - intros [Hr Hk]. split; [by apply update_ok_but|].
    revert Hk. apply (moves_bind (preserves (keyed activation_leases_table))); walk.
  - apply moves_leases; [apply moves_reserveRuntimeInstancePort|].
    unfold reserveRuntimeInstancePort. walk.
  - apply moves_leases; [apply moves_renewActivationLease|].
    unfold renewActivationLease. walk. by apply moves_lease_update.
  - apply moves_leases; [apply moves_releaseActivationLease|].
    unfold releaseActivationLease. walk. by apply moves_lease_update.
  - apply moves_leases; [apply moves_claimIdle|].
    unfold claimIdleRuntimeInstances, claim_idle_candidate. walk.
  - intros [Hr Hk]. split.
    + eapply calm_runtime_ok, Hr. intros k r Hkr. exists r. split; [|done].
      by eapply lookup_weaken.
    + intros k l Hkl. apply Hk. by eapply lookup_weaken.
Qed.

Lemma runtime_run_ok ks s s' :
  runtime_run ks s s' -> forall revived, runtime_and_leases_ok_but revived (st_db s) ->
  runtime_and_leases_ok_but (revived ++ ks)%list (st_db s').
Proof.
  induction 1 as [s|ks ks' s1 s2 s3 Hstep _ IH]; intros revived Hok; [by rewrite app_nil_r|].
  rewrite app_assoc. apply IH. by apply (runtime_step_ok _ _ s1).
Qed.

(** ** Activation succeeds *)

Lemma upsert_lease_succeeds did kind owner rti expires s :
  keyed activation_leases_table (st_db s) ->
  unique_ok activation_leases_deployment_kind_owner_idx (activationLeases (st_db s)) ->
  ids_fresh "lease" activation_leases_table s ->
  exists l s', upsert_lease did kind owner rti expires s = (Ok l, s').
Proof.
  intros Hkey Hu Hfresh. unfold upsert_lease, upsert, bind, createId, read, gets. simpl.
  destruct (find_where _ _) as [r0|] eqn:Hf.
  - apply find_where_Some in Hf as (Htg & k & Hk).
    assert (ActivationLease.id r0 = k) as Hid by by apply Hkey.
    rewrite (update_key_succeeds _ _ _ _ _ r0); [by eexists _, _|by rewrite Hid|done|].
    intros u ->%list_elem_of_singleton. apply clashes_false. intros k' r' Hk' Hne.
    specialize (Hu k k' r0 r' Hk Hk' ltac:(congruence)). exact Hu.
  - rewrite find_where_None in Hf. rewrite insert_row_succeeds; [by eexists _, _|..].
    + by apply Hfresh.
    + intros u ->%list_elem_of_singleton. apply clashes_false. intros k' r' Hk' _.
      by apply (Hf k').
Qed.

Lemma insert_generation_succeeds did now id s :
  runtimeInstances (st_db s) !! id = None ->
  let r := RuntimeInstance.mk id did (next_generation (latest_instance did (st_db s)))
             RuntimeStatus.starting None None (Some now) None None None in
  insert_row runtime_instances_table r s
    = (Ok r, s <| st_db ::= tbl_set runtime_instances_table (insert id r) |>).
Proof.
  intros Hn r. apply insert_row_succeeds; [done|]. intros u Hu. apply clashes_false.
  intros k' r' Hk' _. simpl in Hu. apply elem_of_cons in Hu as [-> | Hu];
    [|by apply list_elem_of_singleton in Hu as ->].
  apply not_true_iff_false. unfold runtime_instances_deployment_generation_idx. simpl.
  intros (c & [= <-] & [= Hd Hg])%same_key_clash.
  pose proof (next_generation_above did _ _ _ Hk' Hd). lia.
Qed.

Lemma acquireActivationLease_succeeds input s :
  keyed activation_leases_table (st_db s) ->
  unique_ok activation_leases_deployment_kind_owner_idx (activationLeases (st_db s)) ->
  ids_fresh "lease" activation_leases_table s -> ids_fresh "rti" runtime_instances_table s ->
  is_Some (deployments (st_db s) !! acq_deploymentId input) ->
  match latest_instance (acq_deploymentId input) (st_db s) with
  | Some l => RuntimeInstance.status l <> RuntimeStatus.draining | None => True end ->
  exists a s', acquireActivationLease input s = (Ok a, s').
Proof.
  intros Hkey Hu Hfl Hfr [dep Hdep] Hdr. unfold acquireActivationLease, transaction.
  set (did := acq_deploymentId input) in *.
  assert (Hrest : forall r b s1, activationLeases (st_db s1) = activationLeases (st_db s) ->
    st_draws s <= st_draws s1 -> exists a s',
    (lease <- upsert_lease did (acq_kind input) (acq_ownerId input) (RuntimeInstance.id r)
       (acq_expiresAt input) ;; ret (mk_activation lease r b)) s1 = (Ok a, s')).
  { intros r b s1 Hl Hd.
    destruct (upsert_lease_succeeds did (acq_kind input) (acq_ownerId input)
      (RuntimeInstance.id r) (acq_expiresAt input) s1) as (l & s2 & Hrun).
    - intros k r0. simpl. rewrite Hl. apply Hkey.
    - by rewrite Hl.
    - intros n Hn. simpl. rewrite Hl. apply Hfl. lia.
    - eexists _, _. by rewrite (bind_step _ _ _ _ _ Hrun). }
  erewrite bind_step by reflexivity. rewrite Hdep.
  erewrite bind_step by reflexivity. rewrite (bind_step _ _ _ _ _ (now_or_run _ _)).
  erewrite bind_step by reflexivity.
  rewrite (bind_step _ _ s tt s) by (destruct (latest_instance did (st_db s)) as [l|]; [|done];
    unfold has_status; by rewrite bool_decide_eq_false_2).
  match goal with |- context [match ?o with Some r => ret r | None => _ end] =>
    destruct o as [r|] end.
  - erewrite bind_step by reflexivity.
    destruct (Hrest r (bool_decide (Some r = None)) s eq_refl ltac:(lia)) as (a & s' & Hrun).
    exists a, s'. by rewrite Hrun.
  - set (id := "rti" +:+ "_" +:+ nanoid (st_draws s)).
    set (s1 := s <| st_draws ::= S |>).
    assert (Hn : runtimeInstances (st_db s1) !! id = None) by by apply Hfr.
    pose proof (insert_generation_succeeds did (now_of (acq_now input) s) id s1 Hn) as Hins.
    erewrite bind_step; [|erewrite bind_step by reflexivity; erewrite bind_step by reflexivity;
      exact Hins].
    edestruct Hrest as (a & s' & Hrun); [..|exists a, s'; by rewrite Hrun]; [done|]. simpl. lia.
Qed.

(** ** The idle sweep *)

Lemma greatest_at_most a b cutoff :
  at_most (greatest a b) cutoff = at_most a cutoff && at_most b cutoff.
Proof. destruct a, b; simpl; try btauto. lia. Qed.

Lemma foldr_at_most l cutoff :
  at_most (foldr greatest None l) cutoff = forallb (fun t => at_most t cutoff) l.
Proof. induction l as [|t l IH]; simpl; [done|]. by rewrite greatest_at_most, IH. Qed.

(** The instance has been unused since the cutoff: it became ready and started
    no later, and every lease bound to it ended no later. *)
Definition idle_since (cutoff : time) (r : RuntimeInstance.runtime_instance_row)
    (d : database) : Prop :=
  (forall t, RuntimeInstance.readyAt r = Some t -> (t <= cutoff)%Z) /\
  (forall t, RuntimeInstance.startedAt r = Some t -> (t <= cutoff)%Z) /\
  (forall k l, activationLeases d !! k = Some l ->
     ActivationLease.runtimeInstanceId l = Some (RuntimeInstance.id r) ->
     (lease_end l <= cutoff)%Z).

Lemma activity_idle_since r d cutoff :
  at_most (activity_max r (instance_leases (RuntimeInstance.id r) d)) cutoff = true ->
  idle_since cutoff r d.
Proof.
  unfold activity_max. rewrite foldr_at_most. simpl. rewrite !andb_true_iff, forallb_forall.
  intros (Hr & Hs & Hl). split; [|split].
  - intros t Ht. rewrite Ht in Hr. by apply Z.leb_le.
  - intros t Ht. rewrite Ht in Hs. by apply Z.leb_le.
  - intros k l Hk Hi. apply Z.leb_le, (Hl (Some (lease_end l))), list_elem_of_In.
    apply list_elem_of_fmap. exists l. split; [done|]. apply elem_of_select.
    rewrite bool_decide_eq_true. eauto.
Qed.

Definition may_drain (input : idle_input) (r : RuntimeInstance.runtime_instance_row)
    (d : database) : Prop :=
  let did := RuntimeInstance.deploymentId r in
  RuntimeInstance.status r = RuntimeStatus.ready /\
  has_active_lease did (idle_now input) d = false /\
  has_protected_run did d = false /\
  ((0 < prewarm input)%Z ->
     has_upcoming_schedule did (idle_now input + prewarm input)%Z d = false) /\
  idle_since (idle_now input - idle_idleTtlMs input) r d.

(** The sweep's effect: only instances that may drain are drained. *)
Definition drained (input : idle_input) (d d' : database) : Prop :=
  d' = d <| runtimeInstances := runtimeInstances d' |> /\
  forall k, runtimeInstances d' !! k = runtimeInstances d !! k \/
    exists r, runtimeInstances d !! k = Some r /\ may_drain input r d /\
      runtimeInstances d' !! k = Some (r <| RuntimeInstance.status := RuntimeStatus.draining |>).

Lemma idle_candidate_ready input d r :
  idle_candidate input d r = true -> has_status RuntimeStatus.draining r = false ->
  RuntimeInstance.status r = RuntimeStatus.ready /\
  has_protected_run (RuntimeInstance.deploymentId r) d = false /\
  ((0 < prewarm input)%Z -> has_upcoming_schedule (RuntimeInstance.deploymentId r)
     (idle_now input + prewarm input)%Z d = false).
Proof.
  unfold idle_candidate. intros Hc Hd. rewrite Hd in Hc. simpl in Hc.
  rewrite !andb_true_iff, !negb_true_iff in Hc. destruct Hc as [[[[Hr _] Hp] Hu] _].
  apply bool_decide_eq_true in Hr. split; [done|]. split; [done|]. intros Hpos.
  apply orb_prop in Hu as [Hu|Hu]; apply negb_true_iff in Hu; [|done].
  by apply Z.ltb_ge in Hu; lia.
Qed.

(** The loop invariant: the effect so far, and each claimed row as stored. *)
Definition sweep_inv (input : idle_input) (d0 : database)
    (claimed : list RuntimeInstance.runtime_instance_row) (s : store) : Prop :=
  drained input d0 (st_db s) /\
  forall r, r ∈ claimed -> RuntimeInstance.status r = RuntimeStatus.draining /\
    runtimeInstances (st_db s) !! RuntimeInstance.id r = Some r.

Lemma drained_unchanged input d d' k r :
  drained input d d' -> runtimeInstances d !! k = Some r ->
  RuntimeInstance.status r <> RuntimeStatus.ready -> runtimeInstances d' !! k = Some r.
Proof.
  intros [_ Hrows] Hk Hst. destruct (Hrows k) as [->|(r' & Hk' & [Hr _] & _)]; [done|].
  congruence.
Qed.

Lemma drained_ready input d d' k r :
  drained input d d' -> runtimeInstances d' !! k = Some r ->
  RuntimeInstance.status r = RuntimeStatus.ready -> runtimeInstances d !! k = Some r.
Proof.
  intros [_ Hrows] Hk Hst. destruct (Hrows k) as [<-|(r' & _ & _ & Hk')]; [done|].
  rewrite Hk in Hk'. injection Hk' as ->. discriminate.
Qed.

Lemma drained_frame input d d' :
  drained input d d' -> activationLeases d' = activationLeases d.
Proof. by intros [-> _]. Qed.

Lemma claim_idle_candidate_inv input d0 r0 claimed s claimed' s' :
  keyed runtime_instances_table d0 ->
  (exists k, runtimeInstances d0 !! k = Some r0) -> idle_candidate input d0 r0 = true ->
  sweep_inv input d0 claimed s -> claim_idle_candidate input claimed r0 s = (Ok claimed', s') ->
  sweep_inv input d0 claimed' s'.
Proof.
  intros Hkey (k0 & Hk0) Hcand [Hdr Hcl] Hrun.
  assert (RuntimeInstance.id r0 = k0) as Hid by by apply Hkey. subst k0.
  pose proof (drained_frame _ _ _ Hdr) as Hleases. unfold claim_idle_candidate in Hrun.
  destruct (has_status RuntimeStatus.draining r0) eqn:Hst.
  - injection Hrun as <- <-. apply bool_decide_eq_true in Hst. split; [done|].
    intros r [Hr| ->%list_elem_of_singleton]%elem_of_app; [by apply Hcl|]. split; [done|].
    eapply drained_unchanged; eauto. by rewrite Hst.
  - destruct (idle_candidate_ready _ _ _ Hcand Hst) as (Hready & Hrun0 & Hsched).
    apply bind_ok in Hrun as (b & s1 & [= Hact <-] & Hrun).
    destruct b; [by injection Hrun as <- <-|].
    apply bind_ok in Hrun as (leases & s1 & [= <- <-] & Hrun).
    destruct (at_most _ _) eqn:Hmost; simpl in Hrun; [|by injection Hrun as <- <-].
    apply bind_ok in Hrun as (o & s1 & Hup & Hrun).
    apply update_key_ok in Hup as [(-> & -> & _)|(r & Hk & Hr & -> & _ & ->)];
      [by injection Hrun as <- <-|].
    injection Hrun as <- <-. simpl in Hk. apply bool_decide_eq_true in Hr.
    assert (r = r0) as -> by (eapply drained_ready in Hk; eauto; congruence).
    assert (Hmay : may_drain input r0 d0).
    { split; [done|]. unfold has_active_lease, instance_leases in *. rewrite Hleases in Hact, Hmost.
      do 3 (split; [done|]). by apply activity_idle_since. }
    split.
    + destruct Hdr as [Heq Hrows]. split.
      * simpl. rewrite Heq at 1. by destruct d0.
      * intros k. simpl. destruct (decide (RuntimeInstance.id r0 = k)) as [<-|Hne].
        -- right. exists r0. by rewrite lookup_insert_eq.
        -- rewrite lookup_insert_ne by done. apply Hrows.
    + intros r [Hr'| ->%list_elem_of_singleton]%elem_of_app; simpl.
      * destruct (Hcl r Hr') as [Hd' Hk']. split; [done|]. rewrite lookup_insert_ne; [done|].
        intros Heq. rewrite <- Heq in Hk'. rewrite Hk in Hk'. injection Hk' as <-. congruence.
      * split; [done|]. by rewrite lookup_insert_eq.
Qed.

Lemma claim_idle_length input claimed r s claimed' s' :
  claim_idle_candidate input claimed r s = (Ok claimed', s') ->
  length claimed' <= S (length claimed).
Proof.
  unfold claim_idle_candidate. destruct (has_status _ r).
  - intros [= <- <-]. rewrite length_app. simpl. lia.
  - intros Hrun. inv_ok Hrun; simpl; try lia; rewrite ?length_app; simpl; lia.
Qed.

Lemma fold_claim_length input l claimed s claimed' s' :
  fold_m (claim_idle_candidate input) l claimed s = (Ok claimed', s') ->
  length claimed' <= length claimed + length l.
Proof.
  revert claimed s. induction l as [|r l IH]; intros claimed s Hrun.
  - injection Hrun as <- <-. simpl. lia.
  - apply bind_ok in Hrun as (c1 & s1 & Hc%claim_idle_length & Hrun). apply IH in Hrun.
    simpl. lia.
Qed.

Lemma claimIdle_drained input s claimed s' :
  keyed runtime_instances_table (st_db s) ->
  claimIdleRuntimeInstances input s = (Ok claimed, s') ->
  drained input (st_db s) (st_db s') /\ length claimed <= Z.to_nat (idle_limit input) /\
  forall r, r ∈ claimed -> RuntimeInstance.status r = RuntimeStatus.draining /\
    runtimeInstances (st_db s') !! RuntimeInstance.id r = Some r.
Proof.
  intros Hkey Hrun. unfold claimIdleRuntimeInstances in Hrun.
  do 3 (apply bind_ok in Hrun as (? & s1 & [_ ->]%throw_if_ok & Hrun)).
  rewrite transaction_ok in Hrun. apply bind_ok in Hrun as (l & s1 & [= <- <-] & Hrun).
  assert (Hinv : sweep_inv input (st_db s) claimed s').
  { eapply (fold_m_ok (sweep_inv input (st_db s))); [|..|exact Hrun].
    - intros r c s1 c' s2 Hr Hi Hx. eapply claim_idle_candidate_inv; eauto.
      + apply elem_of_take in Hr as (i & Hr%list_elem_of_lookup_2 & _).
        rewrite elem_of_order_by, elem_of_select in Hr. apply Hr.
      + apply elem_of_take in Hr as (i & Hr%list_elem_of_lookup_2 & _).
        rewrite elem_of_order_by, elem_of_select in Hr. apply Hr.
    - split; [|set_solver]. split; [by destruct (st_db s)|]. by left. }
  destruct Hinv as [Hd Hc]. split; [done|]. split; [|done].
  apply fold_claim_length in Hrun. simpl in Hrun. rewrite length_take in Hrun. lia.
Qed.

(** ** Ports *)

Definition ports_ok (d : database) : Prop :=
  unique_ok runtime_instances_live_port_idx (runtimeInstances d).

Lemma ports_insert T k r d :
  T = runtime_instances_table ->
  (forall u, u ∈ tbl_uniques T -> clashes u (tbl T d) k r = false) ->
  ports_ok d -> ports_ok (tbl_set T (insert k r) d).
Proof.
  intros -> Hu. apply unique_insert; [apply index_on_symmetric|]. apply Hu. simpl. set_solver.
Qed.

Lemma moves_ports_update k p f :
  moves (preserves ports_ok) (update_key runtime_instances_table k p f).
Proof.
  apply moves_update_key_uniq; [apply _|]. intros d r Hk _ Hu Hd. by apply ports_insert.
Qed.

Lemma moves_ports_insert r : moves (preserves ports_ok) (insert_row runtime_instances_table r).
Proof.
  apply moves_insert_row_uniq; [apply _|]. intros d Hk Hu Hd. by apply ports_insert.
Qed.

Lemma moves_ports_upsert_lease did kind owner rti e :
  moves (preserves ports_ok) (upsert_lease did kind owner rti e).
Proof.
  unfold upsert_lease, upsert. walk.
  - apply moves_update_key; [apply _|]. intros d r0 _ _ Hd. exact Hd.
  - apply moves_insert_row; [apply _|]. intros d _ Hd. exact Hd.
Qed.

Lemma moves_ports_lease k p f :
  moves (preserves ports_ok) (update_key activation_leases_table k p f).
Proof. apply moves_update_key; [apply _|]. intros d r _ _ Hd. exact Hd. Qed.
#[local] Hint Resolve moves_ports_update moves_ports_insert moves_ports_upsert_lease
  moves_ports_lease : moves.

Lemma runtime_step_ports ks s s' :
  runtime_step ks s s' -> ports_ok (st_db s) -> ports_ok (st_db s').
Proof.
  intros Hs; destruct Hs as [| | k input now s | | | | |s s' Hsub _];
    try (intros Hp k1 k2 r1 r2 H1 H2; apply (Hp k1 k2); by eapply lookup_weaken);
    revert s; match goal with |- forall s, _ -> ports_ok (st_db (exec ?m _)) =>
      change (moves (preserves ports_ok) m) end.
  - unfold acquireActivationLease. walk.
  - unfold adoptRuntimeInstance. walk.
  - unfold updateRuntimeInstance. walk.
  - unfold reserveRuntimeInstancePort. walk.
  - unfold renewActivationLease. walk.
  - unfold releaseActivationLease. walk.
  - unfold claimIdleRuntimeInstances, claim_idle_candidate. walk.
Qed.

(** A failed reservation is one the port index refused. *)
Lemma reserve_cases k port s :
  keyed runtime_instances_table (st_db s) ->
  (exists r, runtimeInstances (st_db s) !! k = Some r /\
     reserveRuntimeInstancePort k port s = (Ok true, s <| st_db ::= set_field runtimeInstances
       (insert k (r <| RuntimeInstance.endpointHost := Some "127.0.0.1" |>
                    <| RuntimeInstance.endpointPort := Some port |>)) |>)) \/
  exists o, o <> Ok true /\ reserveRuntimeInstancePort k port s = (o, s).
Proof.
  intros Hkey. unfold reserveRuntimeInstancePort, try_catch, bind.
  destruct (update_key _ _ _ _ s) as [[o|e] s'] eqn:Hup.
  - apply update_key_ok in Hup as [(-> & -> & _)|(r & Hk & _ & -> & _ & ->)].
    + right. by exists (Ok false).
    + left. exists r. done.
  - right. apply update_key_err in Hup as ->. destruct (isUniqueConstraint _ _); [by exists (Ok false) | by exists (Err e)].
Qed.

(** A new generation is the newest instance. *)
Lemma latest_instance_insert did d d' r :
  runtimeInstances d' = <[RuntimeInstance.id r := r]> (runtimeInstances d) ->
  RuntimeInstance.deploymentId r = did ->
  RuntimeInstance.generation r = next_generation (latest_instance did d) ->
  latest_instance did d' = Some r.
Proof.
  intros Hd' Hd Hg.
  assert (Hr : runtimeInstances d' !! RuntimeInstance.id r = Some r)
    by (rewrite Hd'; apply lookup_insert_eq).
  destruct (latest_instance did d') as [l|] eqn:Hl.
  - apply latest_instance_Some in Hl as ((k & Hk) & Hdl & Hmax).
    specialize (Hmax _ _ Hr Hd). rewrite Hd' in Hk.
    destruct (decide (RuntimeInstance.id r = k)) as [<-|Hne].
    + rewrite lookup_insert_eq in Hk. congruence.
    + rewrite lookup_insert_ne in Hk by done.
      pose proof (next_generation_above did _ _ _ Hk Hdl). lia.
  - by destruct (latest_instance_None _ _ _ _ Hl Hr).
Qed.

(** Nothing revives a released lease but a new activation. *)
Lemma released_lease_fixed id l t s :
  activationLeases (st_db s) !! id = Some l -> ActivationLease.releasedAt l = Some t ->
  (forall now, releaseActivationLease id (Some now) s = (Ok (Some l), s)) /\
  (forall e now, renewActivationLease id e (Some now) s = (Ok None, s)).
Proof.
  intros Hk Hr. split; intros.
  - unfold releaseActivationLease, update_key, read, bind, gets, now_or, ret. simpl.
    rewrite Hk, Hr. simpl. by rewrite Hk.
  - unfold renewActivationLease, update_key, read, bind, gets, now_or, ret. simpl.
    rewrite Hk. unfold lease_active. by rewrite Hr.
Qed.

(** ** Properties *)

(** C3. However activations, adoptions, status updates of any kind, port
    reservations, lease operations and idle sweeps interleave, an instance that
    is live is the newest of its deployment, and another instance of it is live
    only if an update of the run has revived it: unless an update writes a
    stopped or failed instance live again, which the store lets it do, a
    deployment has at most one live process, of its newest generation. *)
Theorem deployment_has_one_live_instance revived s s' k1 k2 r1 r2 :
  runtime_and_leases_ok (st_db s) -> runtime_run revived s s' ->
  runtimeInstances (st_db s') !! k1 = Some r1 -> runtimeInstances (st_db s') !! k2 = Some r2 ->
  RuntimeInstance.deploymentId r1 = RuntimeInstance.deploymentId r2 ->
  live r1 = true -> k1 ∉ revived ->
  (live r2 = true -> k1 = k2 \/ k2 ∈ revived) /\
  (RuntimeInstance.generation r2 <= RuntimeInstance.generation r1)%Z.
Proof.
  intros Hok Hrun Hk1 Hk2 Hd Hl Hnew.
  apply (runtime_run_ok _ _ _ Hrun []) in Hok as [[_ Hinv] _]. simpl in Hinv.
  destruct (decide (k1 = k2)) as [->|Hne]; [simplify_eq; split; [by left | lia]|].
  pose proof (Hinv _ _ _ _ Hk1 Hk2 Hne Hd Hl Hnew). split; [|lia]. intros Hl2.
  destruct (decide (k2 ∈ revived)) as [|Hnew2]; [by right|].
  pose proof (Hinv _ _ _ _ Hk2 Hk1 (not_eq_sym Hne) (eq_sym Hd) Hl2 Hnew2). lia.
Qed.

(** What an activation answers, on every branch: an unknown deployment is
    an error and a draining one the retry error, both leaving the tables
    alone; otherwise it succeeds, with an active lease of the owner bound to
    the newest instance: the live one if there is one, or a fresh [starting]
    instance of the next generation, whose caller alone is told to start it. *)
Lemma acquireActivationLease_spec input s :
  keyed activation_leases_table (st_db s) ->
  unique_ok activation_leases_deployment_kind_owner_idx (activationLeases (st_db s)) ->
  ids_fresh "lease" activation_leases_table s -> ids_fresh "rti" runtime_instances_table s ->
  let did := acq_deploymentId input in
  let latest := latest_instance did (st_db s) in
  match deployments (st_db s) !! did with
  | None => exists s', st_db s' = st_db s /\ acquireActivationLease input s =
      (Err (Error "Cannot activate an unknown Deployment."), s')
  | Some _ =>
      if match latest with Some l => has_status RuntimeStatus.draining l | None => false end then
        exists s', st_db s' = st_db s /\
          acquireActivationLease input s = (Err RuntimeInstanceDrainingError, s')
      else exists a s', acquireActivationLease input s = (Ok a, s') /\
        let r := act_runtimeInstance a in
        lease_for input (RuntimeInstance.id r) (act_lease a) /\
        activationLeases (st_db s')
          = <[ActivationLease.id (act_lease a) := act_lease a]> (activationLeases (st_db s)) /\
        latest_instance did (st_db s') = Some r /\ live r = true /\
        (act_starter a = false -> latest = Some r /\
           runtimeInstances (st_db s') = runtimeInstances (st_db s)) /\
        (act_starter a = true -> match latest with Some l => live l = false | None => True end /\
           RuntimeInstance.generation r = next_generation latest /\
           RuntimeInstance.status r = RuntimeStatus.starting /\
           runtimeInstances (st_db s')
             = <[RuntimeInstance.id r := r]> (runtimeInstances (st_db s)))
  end.
Proof.
  intros Hkey Hu Hfl Hfr did latest.
  destruct (deployments (st_db s) !! did) as [dep|] eqn:Hdep.
  2: { exists s. split; [done|]. unfold acquireActivationLease, transaction, bind, read, gets.
       fold did. rewrite Hdep. simpl. f_equal. by destruct s. }
  destruct (match latest with Some l => _ | None => false end) eqn:Hdr.
  { exists s. split; [done|]. unfold acquireActivationLease, transaction.
    erewrite bind_step by reflexivity. fold did. rewrite Hdep.
    erewrite bind_step by reflexivity. rewrite (bind_step _ _ _ _ _ (now_or_run _ _)).
    erewrite bind_step by reflexivity. fold latest. rewrite Hdr.
    rewrite (bind_err _ _ s RuntimeInstanceDrainingError s) by reflexivity.
    f_equal. by destruct s. }
  destruct (acquireActivationLease_succeeds input s Hkey Hu Hfl Hfr) as (a & s' & Hrun).
  { by exists dep. }
  { fold did latest. destruct latest as [l|]; [|done]. by apply bool_decide_eq_false in Hdr. }
  exists a, s'. split; [done|].
  apply acquireActivationLease_ok in Hrun as (_ & Hl & Hlf & Hcase); [|done].
  cbv zeta in *. split; [done|]. split; [done|]. fold did latest in Hcase.
  destruct (act_starter a).
  - destruct Hcase as (Hdead & (now & id & Hr) & Hnone & Hdb). 
    assert (Hrt : runtimeInstances (st_db s') = <[RuntimeInstance.id (act_runtimeInstance a) :=
      act_runtimeInstance a]> (runtimeInstances (st_db s))) by (by rewrite Hdb).
    assert (Hf : RuntimeInstance.deploymentId (act_runtimeInstance a) = did /\
      RuntimeInstance.generation (act_runtimeInstance a) = next_generation latest /\
      RuntimeInstance.status (act_runtimeInstance a) = RuntimeStatus.starting) by (by rewrite Hr).
    destruct Hf as (Hd & Hg & Hst). split; [by eapply latest_instance_insert|].
    split; [unfold live; by rewrite Hst|]. split; [done|]. by repeat split.
  - destruct Hcase as (Hlat & Hst & Hdb). 
    assert (Hrt : runtimeInstances (st_db s') = runtimeInstances (st_db s)) by (by rewrite Hdb).
    split; [|split; [|done]].
    + unfold latest_instance in *. by rewrite Hrt.
    + unfold live. by destruct Hst as [-> | ->].
Qed.

(** The idle sweep drains only instances that may be drained: ready, with
    no active lease on their deployment, no run that protects it, no schedule
    due within the prewarm window, and unused since the idle cutoff.  It
    returns at most [limit] instances, each of them draining in the table, and
    changes nothing else. *)
Lemma claimIdleRuntimeInstances_drains_only_idle input s claimed s' :
  keyed runtime_instances_table (st_db s) ->
  claimIdleRuntimeInstances input s = (Ok claimed, s') ->
  drained input (st_db s) (st_db s') /\ length claimed <= Z.to_nat (idle_limit input) /\
  forall r, r ∈ claimed -> RuntimeInstance.status r = RuntimeStatus.draining /\
    runtimeInstances (st_db s') !! RuntimeInstance.id r = Some r.
Proof. apply claimIdle_drained. Qed.

(** A lease protects its process: a sweep that runs before the lease of a
    successful activation expires leaves the activated instance untouched,
    whatever else it drains. *)
Lemma activation_survives_idle_sweep input a s s1 sweep claimed s2 :
  runtime_and_leases_ok (st_db s) ->
  acquireActivationLease input s = (Ok a, s1) ->
  (idle_now sweep < acq_expiresAt input)%Z ->
  claimIdleRuntimeInstances sweep s1 = (Ok claimed, s2) ->
  runtimeInstances (st_db s2) !! RuntimeInstance.id (act_runtimeInstance a)
    = Some (act_runtimeInstance a).
Proof.
  intros Hok Hrun Hlt Hsweep.
  pose proof (acquire_ok_step [] input s Hok) as [[Hkey1 _] _].
  unfold exec in Hkey1. rewrite Hrun in Hkey1. simpl in Hkey1.
  apply claimIdle_drained in Hsweep as ([_ Hrows] & _ & _); [|done].
  destruct Hok as [[Hkey _] Hkl].
  apply acquireActivationLease_ok in Hrun as (_ & Hl & Hlf & Hcase); [|done].
  cbv zeta in *.
  assert (Hr : runtimeInstances (st_db s1) !! RuntimeInstance.id (act_runtimeInstance a)
      = Some (act_runtimeInstance a) /\
      RuntimeInstance.deploymentId (act_runtimeInstance a) = acq_deploymentId input).
  { destruct (act_starter a).
    - destruct Hcase as (_ & (now & id & Hr) & _ & ->). simpl.
      split; [apply lookup_insert_eq | by rewrite Hr].
    - destruct Hcase as (((k & Hk) & Hd & _)%latest_instance_Some & _ & ->). simpl.
      split; [|done]. by rewrite (Hkey _ _ Hk : RuntimeInstance.id _ = k). }
  destruct Hr as [Hr Hd].
  destruct (Hrows (RuntimeInstance.id (act_runtimeInstance a)))
    as [->|(r & Hk & (_ & Hact & _) & _)]; [done|].
  exfalso. rewrite Hr in Hk. injection Hk as <-. rewrite Hd in Hact.
  apply not_true_iff_false in Hact. apply Hact, existsb_exists. exists (act_lease a).
  destruct Hlf as (Hld & _ & _ & _ & He & Hrel).
  split; [|rewrite Hld, bool_decide_eq_true_2 by done; simpl; unfold lease_active;
    rewrite Hrel, He; by apply Z.ltb_lt].
  rewrite <- list_elem_of_In, elem_of_rows, Hl. eexists. apply lookup_insert_eq.
Qed.

(** Loopback ports are exclusive: from a table where no two live instances
    share a port, no sequence of operations makes two live instances share
    one. *)
Lemma live_ports_stay_distinct revived s s' k1 k2 r1 r2 p :
  ports_ok (st_db s) -> runtime_run revived s s' ->
  runtimeInstances (st_db s') !! k1 = Some r1 -> runtimeInstances (st_db s') !! k2 = Some r2 ->
  live r1 = true -> live r2 = true ->
  RuntimeInstance.endpointPort r1 = Some p -> RuntimeInstance.endpointPort r2 = Some p ->
  k1 = k2.
Proof.
  intros Hok Hrun Hk1 Hk2 Hl1 Hl2 Hp1 Hp2.
  pose proof (runtime_run_ind_db ports_ok runtime_step_ports _ _ _ Hrun Hok) as Hend.
  destruct (decide (k1 = k2)) as [|Hne]; [done|].
  specialize (Hend _ _ _ _ Hk1 Hk2 Hne). exfalso. revert Hend.
  unfold runtime_instances_live_port_idx, live in *. simpl.
  intros Hf%(same_key_false _ _ _ p); [|by rewrite Hl1]. simpl in Hf. by rewrite Hl2, Hp2 in Hf.
Qed.

(** A lease ends for good: once released, or past its expiry, it cannot be
    renewed; releasing it again answers with the same row; and a renewal of an
    active lease changes its expiry only. *)
Lemma lease_lifecycle id l e now s :
  keyed activation_leases_table (st_db s) ->
  unique_ok activation_leases_deployment_kind_owner_idx (activationLeases (st_db s)) ->
  activationLeases (st_db s) !! id = Some l ->
  renewActivationLease id e (Some now) s =
    (if lease_active now l
     then (Ok (Some (l <| ActivationLease.expiresAt := e |>)),
           s <| st_db ::= set_field activationLeases
                  (insert id (l <| ActivationLease.expiresAt := e |>)) |>)
     else (Ok None, s)) /\
  exists l' s', releaseActivationLease id (Some now) s = (Ok (Some l'), s') /\
    ActivationLease.releasedAt l' = Some (default now (ActivationLease.releasedAt l)) /\
    (forall now', releaseActivationLease id (Some now') s' = (Ok (Some l'), s')) /\
    (forall e' now', renewActivationLease id e' (Some now') s' = (Ok None, s')).
Proof.
  intros Hkey Hu Hk.
  assert (Hclash : forall l', ActivationLease.deploymentId l' = ActivationLease.deploymentId l ->
    ActivationLease.kind l' = ActivationLease.kind l ->
    ActivationLease.ownerId l' = ActivationLease.ownerId l ->
    forall u, u ∈ tbl_uniques activation_leases_table ->
      clashes u (tbl activation_leases_table (st_db s)) id l' = false).
  { intros l' H1 H2 H3 u ->%list_elem_of_singleton. apply clashes_false. intros k r Hk' Hne.
    specialize (Hu id k l r Hk Hk' (not_eq_sym Hne)).
    unfold activation_leases_deployment_kind_owner_idx in *. simpl in *. unfold same_key in *.
    by rewrite H1, H2, H3. }
  split.
  - unfold renewActivationLease, bind, now_or, ret. destruct (lease_active now l) eqn:Ha.
    + by rewrite (update_key_succeeds _ _ _ _ _ l); [..|apply Hclash].
    + unfold update_key, read, bind, gets. simpl. by rewrite Hk, Ha.
  - destruct (ActivationLease.releasedAt l) as [t|] eqn:Hr.
    + exists l, s. destruct (released_lease_fixed _ _ _ _ Hk Hr) as [Hrel Hren].
      by repeat split.
    + pose proof (update_key_succeeds activation_leases_table id
        (fun l => bool_decide (ActivationLease.releasedAt l = None))
        (fun l => l <| ActivationLease.releasedAt := Some now |>) s l Hk) as Hup.
      cbv beta in Hup. rewrite Hr in Hup. specialize (Hup eq_refl).
      specialize (Hup ltac:(by apply Hclash)).
      exists (l <| ActivationLease.releasedAt := Some now |>). eexists. split.
      { unfold releaseActivationLease. erewrite bind_step by reflexivity.
        rewrite (bind_step _ _ _ _ _ Hup). reflexivity. }
      split; [done|]. eapply released_lease_fixed; [simpl; apply lookup_insert_eq | done].
Qed.
End RuntimeFacts.

(** ** Witnesses *)
Section RuntimeWitnesses.
#[local] Existing Instance sample_platform.

(** A deployment is activated twice by one owner; its port is reserved and it
    becomes ready. *)
Definition activate_dep : acquire_input :=
  mk_acquire_input "dep_1" LeaseKind.turn "owner" 5000 (Some 1000%Z).
Definition fleet0 : store := sample_store sample_database.
Definition fleet1 : store := exec (acquireActivationLease activate_dep) fleet0.
Definition fleet2 : store := exec (reserveRuntimeInstancePort "rti_0" 4100) fleet1.
Definition fleet3 : store :=
  exec (updateRuntimeInstance "rti_0" (mk_runtime_update RuntimeStatus.ready None None None)
          (Some 1500%Z)) fleet2.
Definition idle_sweep (now : time) : idle_input := mk_idle_input now 300 None 25.

Lemma fleet0_ok : runtime_and_leases_ok (st_db fleet0).
Proof.
  repeat split; [intros k r Hk | intros k1 k2 r1 r2 Hk | intros k r Hk]; simpl in Hk;
    by rewrite lookup_empty in Hk.
Qed.

Lemma fleet_steps : runtime_run [] fleet0 fleet3.
Proof.
  apply (run_calm _ _ fleet1); [apply step_acquire|].
  apply (run_calm _ _ fleet2); [apply step_reserve|].
  apply (run_calm _ _ fleet3); [|apply run_none].
  refine (eq_ind _ (fun ks => runtime_step ks fleet2 fleet3) (step_update _ _ _ _) _ _).
  by vm_compute.
Qed.

Lemma sample_ids_fresh {R} prefix (T : table string R) s :
  tbl T (st_db s) = ∅ -> ids_fresh prefix T s.
Proof. intros He n _. rewrite He. apply lookup_empty. Qed.

(** The instance stops, a new activation starts the next generation, and an
    update writes the stopped one ready again: the run says it was revived. *)
Definition fleet4 : store :=
  exec (updateRuntimeInstance "rti_0" (mk_runtime_update RuntimeStatus.stopped None None None)
          (Some 1600%Z)) fleet3.
Definition fleet5 : store := exec (acquireActivationLease activate_dep) fleet4.
Definition fleet6 : store :=
  exec (updateRuntimeInstance "rti_0" (mk_runtime_update RuntimeStatus.ready None None None)
          (Some 1700%Z)) fleet5.

Lemma revival_steps : runtime_run ["rti_0"] fleet3 fleet6.
Proof.
  change ["rti_0"] with ([] ++ [] ++ ["rti_0"] ++ [])%list.
  apply (run_step _ _ _ fleet4);
    [refine (eq_ind _ (fun ks => runtime_step ks fleet3 fleet4) (step_update _ _ _ _) _ _);
     by vm_compute|].
  apply (run_step _ _ _ fleet5); [apply step_acquire|].
  apply (run_step _ _ _ fleet6); [|apply run_none].
  refine (eq_ind _ (fun ks => runtime_step ks fleet5 fleet6) (step_update _ _ _ _) _ _).
  by vm_compute.
Qed.

Lemma fleet_revival_steps : runtime_run ["rti_0"] fleet0 fleet6.
Proof. exact (runtime_run_app [] _ _ _ _ fleet_steps revival_steps). Qed.

(** The two live instances the revival leaves. *)
Lemma fleet6_live : exists r1 r2, runtimeInstances (st_db fleet6) !! "rti_2" = Some r1 /\
  runtimeInstances (st_db fleet6) !! "rti_0" = Some r2 /\
  live r1 = true /\ live r2 = true /\
  RuntimeInstance.deploymentId r1 = RuntimeInstance.deploymentId r2.
Proof. do 2 eexists. split; [by vm_compute|]. split; [by vm_compute|]. repeat split. Qed.

Lemma deployment_has_one_live_instance_witness :
  (exists r, runtimeInstances (st_db fleet3) !! "rti_0" = Some r /\
    RuntimeInstance.status r = RuntimeStatus.ready /\
    (live r = true -> "rti_0" = "rti_0" \/ "rti_0" ∈ []) /\
    (RuntimeInstance.generation r <= RuntimeInstance.generation r)%Z) /\
  exists r1 r2, runtimeInstances (st_db fleet6) !! "rti_2" = Some r1 /\
    runtimeInstances (st_db fleet6) !! "rti_0" = Some r2 /\
    live r1 = true /\ live r2 = true /\
    (live r2 = true -> "rti_2" = "rti_0" \/ "rti_0" ∈ ["rti_0"]) /\
    (RuntimeInstance.generation r2 <= RuntimeInstance.generation r1)%Z.
Proof.
  split.
  - destruct (runtimeInstances (st_db fleet3) !! "rti_0") as [r|] eqn:Hr; [|by vm_compute in Hr].
    exists r. split; [done|]. split; [vm_compute in Hr; by injection Hr as <-|].
    refine (deployment_has_one_live_instance [] fleet0 fleet3 "rti_0" "rti_0" r r
      fleet0_ok fleet_steps Hr Hr eq_refl _ (not_elem_of_nil _)).
    vm_compute in Hr. by injection Hr as <-.
  - destruct fleet6_live as (r1 & r2 & Hr1 & Hr2 & Hl1 & Hl2 & Hd).
    exists r1, r2. do 4 (split; [assumption|]).
    refine (deployment_has_one_live_instance ["rti_0"] fleet0 fleet6 "rti_2" "rti_0" r1 r2
      fleet0_ok fleet_revival_steps Hr1 Hr2 Hd Hl1 _).
    intros Hin%list_elem_of_singleton. discriminate.
Defined.

Lemma acquireActivationLease_spec_witness :
  exists a s', acquireActivationLease activate_dep fleet0 = (Ok a, s') /\
    latest_instance "dep_1" (st_db s') = Some (act_runtimeInstance a).
Proof.
  pose proof (acquireActivationLease_spec activate_dep fleet0) as Hspec. cbv zeta in Hspec.
  specialize (Hspec (proj2 fleet0_ok)).
  assert (Hu : unique_ok activation_leases_deployment_kind_owner_idx
    (activationLeases (st_db fleet0))).
  { intros k1 k2 r1 r2 Hk. simpl in Hk. by rewrite lookup_empty in Hk. }
  specialize (Hspec Hu (sample_ids_fresh "lease" activation_leases_table fleet0 eq_refl)
    (sample_ids_fresh "rti" runtime_instances_table fleet0 eq_refl)).
  destruct (deployments (st_db fleet0) !! acq_deploymentId activate_dep) eqn:Hd;
    [|by vm_compute in Hd].
  destruct (match latest_instance (acq_deploymentId activate_dep) (st_db fleet0) with
            | Some l => _ | None => false end) eqn:Hl; [by vm_compute in Hl|].
  destruct Hspec as (a & s' & Hrun & _ & _ & Hlat & _). by exists a, s'.
Defined.

Lemma claimIdleRuntimeInstances_drains_only_idle_witness :
  exists claimed s', claimIdleRuntimeInstances (idle_sweep 9000) fleet3 = (Ok claimed, s') /\
    length claimed = 1 /\ drained (idle_sweep 9000) (st_db fleet3) (st_db s').
Proof.
  destruct (claimIdleRuntimeInstances (idle_sweep 9000) fleet3) as [[claimed|e] s'] eqn:Hrun;
    [|by vm_compute in Hrun].
  exists claimed, s'. split; [done|]. split; [vm_compute in Hrun; by injection Hrun as <- _|].
  apply (claimIdleRuntimeInstances_drains_only_idle _ _ claimed s'); [|done].
  apply (bool_decide_unpack (map_Forall (fun k r => RuntimeInstance.id r = k)
    (runtimeInstances (st_db fleet3)))). by vm_compute.
Defined.

Lemma activation_survives_idle_sweep_witness :
  exists a s1 claimed s2, acquireActivationLease activate_dep fleet0 = (Ok a, s1) /\
    claimIdleRuntimeInstances (idle_sweep 4999) s1 = (Ok claimed, s2) /\
    runtimeInstances (st_db s2) !! RuntimeInstance.id (act_runtimeInstance a)
      = Some (act_runtimeInstance a).
Proof.
  destruct (acquireActivationLease activate_dep fleet0) as [[a|e] s1] eqn:Hrun;
    [|by vm_compute in Hrun].
  destruct (claimIdleRuntimeInstances (idle_sweep 4999) s1) as [[claimed|e] s2] eqn:Hsweep;
    [|vm_compute in Hrun; injection Hrun as <- <-; by vm_compute in Hsweep].
  exists a, s1, claimed, s2. split; [done|]. split; [done|].
  apply (activation_survives_idle_sweep activate_dep a fleet0 s1 (idle_sweep 4999) claimed s2);
    [apply fleet0_ok | exact Hrun | by vm_compute | exact Hsweep].
Defined.

Lemma live_ports_stay_distinct_witness :
  exists r, runtimeInstances (st_db fleet3) !! "rti_0" = Some r /\
    RuntimeInstance.endpointPort r = Some 4100%Z /\ "rti_0" = "rti_0".
Proof.
  destruct (runtimeInstances (st_db fleet3) !! "rti_0") as [r|] eqn:Hr; [|by vm_compute in Hr].
  assert (Hlive : live r = true /\ RuntimeInstance.endpointPort r = Some 4100%Z)
    by (vm_compute in Hr; by injection Hr as <-).
  destruct Hlive as [Hl Hp]. exists r. split; [done|]. split; [done|].
  eapply (live_ports_stay_distinct [] fleet0 fleet3 "rti_0" "rti_0" r r 4100);
    [|apply fleet_steps|done..].
  intros k1 k2 r1 r2 Hk. simpl in Hk. by rewrite lookup_empty in Hk.
Defined.

Lemma lease_lifecycle_witness :
  exists l, activationLeases (st_db fleet1) !! "lease_1" = Some l /\
    lease_active 4999 l = true /\ lease_active 5000 l = false /\
    renewActivationLease "lease_1" 9000 (Some 5000%Z) fleet1 = (Ok None, fleet1).
Proof.
  destruct (activationLeases (st_db fleet1) !! "lease_1") as [l|] eqn:Hl; [|by vm_compute in Hl].
  assert (Ha : lease_active 4999 l = true /\ lease_active 5000 l = false)
    by (vm_compute in Hl; by injection Hl as <-).
  destruct Ha as [Ha1 Ha2]. exists l. do 3 (split; [done|]).
  assert (Hall : map_Forall (fun k l => k = "lease_1") (activationLeases (st_db fleet1))).
  { apply (bool_decide_unpack (map_Forall (fun k l => k = "lease_1") _)). by vm_compute. }
  destruct (lease_lifecycle "lease_1" l 9000 5000 fleet1) as [Hren _].
  - apply (bool_decide_unpack (map_Forall (fun k r => ActivationLease.id r = k)
      (activationLeases (st_db fleet1)))). by vm_compute.
  - intros k1 k2 r1 r2 H1 H2 Hne. specialize (Hall _ _ H1) as Hk1. specialize (Hall _ _ H2).
    simpl in *. congruence.
  - exact Hl.
  - by rewrite Ha2 in Hren.
Defined.
End RuntimeWitnesses.
