(* ===== verification/Projects.v ===== *)
(** * Projects, source preflights and Git credentials

    [packages/db/src/postgres-project-store.ts]: the creation of a project under
    the first free slug, the queue of source preflights (a checkout that is
    inspected before a project exists), the creation of a project from a
    preflight, Git credentials, and the request of a project's deletion.  The
    deletion itself is in [Deletion]. *)

From stdpp Require Import pretty.
From S2P Require Import Prelude Strings Encoding Schema Store Tables Sample Jobs Runtime Slugs.

Open Scope eve_scope.
Open Scope string_scope.

(** ** The default owner *)

Definition DEFAULT_TEAM_ID : string := "team_local".

Definition defaultOwner : string := "user_local_admin".

(** [onConflictDoNothing({ target: table.id })] *)
Definition insert_if_absent {R} (T : table string R) (r : R) : Tx unit :=
  t <- read (tbl T) ;;
  if bool_decide (is_Some (t !! tbl_id T r)) then ret tt
  else _r <- insert_row T r ;; ret tt.

Definition ensureDefaultOwner : Tx unit :=
  transaction (
    now <- clock ;;
    insert_if_absent teams_table (Team.mk DEFAULT_TEAM_ID "Eveland" "eveland" None None now) ;;
    insert_if_absent users_table
      (User.mk defaultOwner "admin@example.com" false "Local Admin" None None (Some "user") (Some false)
         None None now now)).

(** ** The payload of an import *)

(** [JobGitCredential] *)
Record job_git_credential : Type := mk_job_credential {
  jg_userId : string; jg_host : string; jg_encryptedToken : string; jg_persistAfterImport : bool
}.

Definition credential_json (c : job_git_credential) : json :=
  JObj [("userId", JStr (jg_userId c)); ("host", JStr (jg_host c));
        ("encryptedToken", JStr (jg_encryptedToken c));
        ("persistAfterImport", JBool (jg_persistAfterImport c))].

Definition kind_text (kind : import_kind) : string :=
  match kind with ImportKind.git => "git" | ImportKind.zip => "zip" end.

(** [value ?? null] and [...(cond ? { key: value } : {})] *)
Definition or_null (s : option string) : json := from_option JStr JNull s.
Definition optional (key : string) (value : option json) : list (string * json) :=
  from_option (fun v => [(key, v)]) [] value.
Definition flag (key : string) (b : bool) : list (string * json) :=
  if b then [(key, JBool true)] else [].

Definition sourceProvenanceFor (kind : import_kind) (uploadOrigin uploadedBy : option string)
    : list (string * json) :=
  match kind with
  | ImportKind.git => [("origin", JStr "git-sync")]
  | ImportKind.zip =>
      (optional "origin" (JStr <$> truthy uploadOrigin)
       ++ optional "uploadedBy" (JStr <$> truthy uploadedBy))%list
  end.

Definition import_payload (kind : import_kind) (gitUrl sourcePath : option string)
    (deployAfterImport promoteAfterDeploy : bool) (credential : option job_git_credential)
    (provenance more : list (string * json)) : json :=
  JObj ([("importKind", JStr (kind_text kind)); ("gitUrl", or_null gitUrl);
         ("sourcePath", or_null sourcePath)]
        ++ flag "deployAfterImport" deployAfterImport
        ++ flag "promoteAfterDeploy" promoteAfterDeploy
        ++ optional "gitCredential" (credential_json <$> credential)
        ++ provenance ++ more)%list.

(** ** Projects *)

(** [CreateProjectInput] *)
Record project_input : Type := mk_project_input {
  pi_name : string; pi_importKind : import_kind; pi_gitUrl : option string;
  pi_sourcePath : option string; pi_deployAfterImport : bool; pi_promoteAfterDeploy : bool;
  pi_gitCredential : option job_git_credential; pi_uploadOrigin : option string;
  pi_uploadedBy : option string; pi_requireExactSlug : bool
}.

Definition new_project (id slug : string) (kind : import_kind) (gitUrl : option string) (now : time)
    : Project.project_row :=
  Project.mk id slug DEFAULT_TEAM_ID defaultOwner slug None kind gitUrl ProjectStatus.import_pending
    DeploymentStatus.not_deployed None None None None None None now now.

Section Projects.
Context `{Platform} `{UnicodeText}.

Definition isProjectSlugAvailable (slug : string) : Tx bool :=
  read (fun d => match find_where (fun r => bool_decide (Project.slug r = slug)) (projects d) with
                 | Some _ => false
                 | None => true
                 end).

Definition insert_project (slug : string) (kind : import_kind) (gitUrl : option string)
    : Tx Project.project_row :=
  id <- createId "proj" ;;
  now <- clock ;;
  insert_row projects_table (new_project id slug kind gitUrl now).

(** The claim of one candidate. *)
Definition claim_project (input : project_input) (slug : string) : Tx (option Project.project_row) :=
  try_catch
    (row <- insert_project slug (pi_importKind input) (pi_gitUrl input) ;; ret (Some row))
    (fun e => if isUniqueConstraint e "projects_slug_unique" then ret None else throw e).

(** [error.message.startsWith("Failed to claim a unique project slug")] *)
Definition slug_claim_failed (e : error) : bool :=
  match e with Error m => String.prefix "Failed to claim a unique project slug" m | _ => false end.

Definition createProject (input : project_input) : Tx Project.project_row :=
  ensureDefaultOwner ;;
  row <- try_catch
    (claimProjectSlug (pi_name input) (claim_project input)
       (if pi_requireExactSlug input then Some 1 else None))
    (fun e => if pi_requireExactSlug input && slug_claim_failed e
              then throw ProjectSlugConflictError else throw e) ;;
  _job <- enqueueJob (Project.id row) "import_source"
    (Some (import_payload (pi_importKind input) (pi_gitUrl input) (pi_sourcePath input)
             (pi_deployAfterImport input) (pi_promoteAfterDeploy input) (pi_gitCredential input)
             (sourceProvenanceFor (pi_importKind input) (pi_uploadOrigin input) (pi_uploadedBy input))
             [])) ;;
  ret row.

Definition getProject (projectId : string) : Tx (option Project.project_row) :=
  read (fun d => projects d !! projectId).

Definition updateProjectMetadata (projectId name : string) (description : option string)
    : Tx (option Project.project_row) :=
  now <- clock ;;
  update_key projects_table projectId (fun _ => true)
    (fun p => p <| Project.name := name |> <| Project.description := description |>
                <| Project.updatedAt := now |>).

(** ** Source preflights *)

(** [SourcePreflightRecord] and the [SourcePreflight] a browser sees. *)
Record preflight_record : Type := mk_preflight_record {
  pf_id : string; pf_userId : string; pf_kind : import_kind; pf_gitUrl : option string;
  pf_sourcePath : option string; pf_commitSha : option string; pf_status : preflight_status;
  pf_summary : option json; pf_error : option string; pf_attempts : Z; pf_lockedAt : option time;
  pf_gitCredential : option job_git_credential; pf_expiresAt : time; pf_createdAt : time;
  pf_updatedAt : time
}.

Record preflight_view : Type := mk_preflight_view {
  pv_id : string; pv_kind : import_kind; pv_gitUrl : option string; pv_status : preflight_status;
  pv_summary : option json; pv_error : option string; pv_expiresAt : time; pv_createdAt : time;
  pv_updatedAt : time
}.

(** [row.credentialHost && row.encryptedToken ? ... : null] *)
Definition row_credential (r : SourcePreflight.source_preflight_row) : option job_git_credential :=
  host ← truthy (SourcePreflight.credentialHost r);
  token ← truthy (SourcePreflight.encryptedToken r);
  Some (mk_job_credential (SourcePreflight.userId r) host token (SourcePreflight.persistCredential r)).

(** [isRecord(row.summary) ? row.summary : null] *)
Definition record_only (j : option json) : option json :=
  match j with Some (JObj fields) => Some (JObj fields) | _ => None end.

Definition sourcePreflightRowToRecord (r : SourcePreflight.source_preflight_row) : preflight_record :=
  mk_preflight_record (SourcePreflight.id r) (SourcePreflight.userId r) (SourcePreflight.kind r)
    (SourcePreflight.gitUrl r) (SourcePreflight.sourcePath r) (SourcePreflight.commitSha r)
    (SourcePreflight.status r) (record_only (SourcePreflight.summary r)) (SourcePreflight.error r)
    (SourcePreflight.attempts r) (SourcePreflight.lockedAt r) (row_credential r)
    (SourcePreflight.expiresAt r) (SourcePreflight.createdAt r) (SourcePreflight.updatedAt r).

Definition sourcePreflightRowToPublic (r : SourcePreflight.source_preflight_row) : preflight_view :=
  let p := sourcePreflightRowToRecord r in
  mk_preflight_view (pf_id p) (pf_kind p) (pf_gitUrl p) (pf_status p) (pf_summary p) (pf_error p)
    (pf_expiresAt p) (pf_createdAt p) (pf_updatedAt p).

Record preflight_input : Type := mk_preflight_input {
  fi_userId : string; fi_kind : import_kind; fi_gitUrl : option string; fi_sourcePath : option string;
  fi_gitCredential : option job_git_credential; fi_expiresAt : time
}.

Definition createSourcePreflight (input : preflight_input) : Tx preflight_view :=
  (if bool_decide (fi_userId input = defaultOwner) then ensureDefaultOwner else ret tt) ;;
  id <- createId "pre" ;;
  now <- clock ;;
  row <- insert_row source_preflights_table
    (SourcePreflight.mk id (fi_userId input) (fi_kind input) (fi_gitUrl input) (fi_sourcePath input)
       None PreflightStatus.queued None None 0 None (jg_host <$> fi_gitCredential input)
       (jg_encryptedToken <$> fi_gitCredential input)
       (from_option jg_persistAfterImport false (fi_gitCredential input))
       (fi_expiresAt input) now now) ;;
  ret (sourcePreflightRowToPublic row).

Definition getSourcePreflight (preflightId userId : string) : Tx (option preflight_view) :=
  read (fun d => r ← sourcePreflights d !! preflightId;
                 if bool_decide (SourcePreflight.userId r = userId)
                 then Some (sourcePreflightRowToPublic r) else None).

Definition has_preflight_status (st : preflight_status) (r : SourcePreflight.source_preflight_row)
    : bool := bool_decide (SourcePreflight.status r = st).

(** The subquery of the claim. *)
Definition next_preflight (now : time) (d : database) : option SourcePreflight.source_preflight_row :=
  head (order_by (asc_by SourcePreflight.createdAt)
    (select_where (fun r => has_preflight_status PreflightStatus.queued r
                            && (now <? SourcePreflight.expiresAt r)%Z) (sourcePreflights d))).

Definition preflight_claimed (now : time) (r : SourcePreflight.source_preflight_row)
    : SourcePreflight.source_preflight_row :=
  r <| SourcePreflight.status := PreflightStatus.running |> <| SourcePreflight.attempts ::= Z.succ |>
    <| SourcePreflight.lockedAt := Some now |> <| SourcePreflight.updatedAt := now |>.

Definition claimNextSourcePreflight (now : option time) : Tx (option preflight_record) :=
  now <- now_or now ;;
  candidate <- read (next_preflight now) ;;
  match candidate with
  | None => ret None
  | Some r =>
      row <- update_key source_preflights_table (SourcePreflight.id r) (fun _ => true)
               (preflight_claimed now) ;;
      ret (sourcePreflightRowToRecord <$> row)
  end.

(** [eq(status, "running"), eq(attempts, attempt)]: the claim this caller holds. *)
Definition holds_claim (attempt : Z) (r : SourcePreflight.source_preflight_row) : bool :=
  has_preflight_status PreflightStatus.running r
  && bool_decide (SourcePreflight.attempts r = attempt).

(** An update of the row the caller's claim names: [rows.length === 1]. *)
Definition settle_claim (preflightId : string) (attempt : Z)
    (f : SourcePreflight.source_preflight_row -> SourcePreflight.source_preflight_row) : Tx bool :=
  row <- update_key source_preflights_table preflightId (holds_claim attempt) f ;;
  ret (bool_decide (is_Some row)).

Definition heartbeatSourcePreflight (preflightId : string) (attempt : Z) (now : option time)
    : Tx bool :=
  now <- now_or now ;;
  settle_claim preflightId attempt
    (fun r => r <| SourcePreflight.lockedAt := Some now |> <| SourcePreflight.updatedAt := now |>).

(** The identifiers of the first [limit] rows of a query. *)
Definition first_ids (order : SourcePreflight.source_preflight_row -> Z) (limit : nat)
    (p : SourcePreflight.source_preflight_row -> bool) (d : database) : list string :=
  SourcePreflight.id <$> take limit (order_by (asc_by order) (select_where p (sourcePreflights d))).

Definition stale_claim (cutoff : time) (r : SourcePreflight.source_preflight_row) : bool :=
  has_preflight_status PreflightStatus.running r
  && match SourcePreflight.lockedAt r with Some t => (t <=? cutoff)%Z | None => false end.

Definition recoverStaleSourcePreflights (now : option time) (staleAfterMs : option Z)
    (limit : option nat) : Tx nat :=
  now <- now_or now ;;
  let cutoff := (now - default 300000 staleAfterMs)%Z in
  ids <- read (first_ids (fun r => default 0%Z (SourcePreflight.lockedAt r)) (default 25 limit)
                 (stale_claim cutoff)) ;;
  recovered <- update_where source_preflights_table
    (fun r => bool_decide (SourcePreflight.id r ∈ ids))
    (fun r => r <| SourcePreflight.status := PreflightStatus.queued |>
                <| SourcePreflight.lockedAt := None |> <| SourcePreflight.updatedAt := now |>) ;;
  ret (length recovered).

(** The result of an inspection: where the checkout is, its commit, its summary. *)
Record preflight_result : Type := mk_preflight_result {
  pr_sourcePath : string; pr_commitSha : option string; pr_summary : json
}.

Definition completeSourcePreflight (preflightId : string) (attempt : Z) (result : preflight_result)
    : Tx bool :=
  now <- clock ;;
  settle_claim preflightId attempt
    (fun r => r <| SourcePreflight.status := PreflightStatus.completed |>
                <| SourcePreflight.sourcePath := Some (pr_sourcePath result) |>
                <| SourcePreflight.commitSha := pr_commitSha result |>
                <| SourcePreflight.summary := Some (pr_summary result) |>
                <| SourcePreflight.error := None |> <| SourcePreflight.lockedAt := None |>
                <| SourcePreflight.updatedAt := now |>).

(** [credentialHost: null, encryptedToken: null, persistCredential: false] *)
Definition clear_credential (r : SourcePreflight.source_preflight_row)
    : SourcePreflight.source_preflight_row :=
  r <| SourcePreflight.credentialHost := None |> <| SourcePreflight.encryptedToken := None |>
    <| SourcePreflight.persistCredential := false |>.

Definition failSourcePreflight (preflightId : string) (attempt : Z) (error : string) : Tx bool :=
  now <- clock ;;
  settle_claim preflightId attempt
    (fun r => (clear_credential r) <| SourcePreflight.status := PreflightStatus.failed |>
                <| SourcePreflight.error := Some error |> <| SourcePreflight.lockedAt := None |>
                <| SourcePreflight.updatedAt := now |>).

Definition expirable (now : time) (r : SourcePreflight.source_preflight_row) : bool :=
  negb (has_preflight_status PreflightStatus.running r) && (SourcePreflight.expiresAt r <=? now)%Z.

(** [[...new Set(values)]] *)
Fixpoint distinct_values (seen values : list string) : list string :=
  match values with
  | [] => []
  | v :: values =>
      if bool_decide (v ∈ seen) then distinct_values seen values
      else v :: distinct_values (v :: seen) values
  end.

(** The checkouts that expire with their preflight: a consumed one belongs to
    its project's import. *)
Definition abandoned_source (r : SourcePreflight.source_preflight_row) : list string :=
  if has_preflight_status PreflightStatus.consumed r then []
  else option_list (truthy (SourcePreflight.sourcePath r)).

Definition expireSourcePreflights (now : option time) (limit : option nat) : Tx (list string) :=
  now <- now_or now ;;
  ids <- read (first_ids SourcePreflight.expiresAt (default 25 limit) (expirable now)) ;;
  expired <- read (fun d => select_where (fun r => bool_decide (SourcePreflight.id r ∈ ids))
                              (sourcePreflights d)) ;;
  delete_where source_preflights_table (fun r => bool_decide (SourcePreflight.id r ∈ ids)) ;;
  ret (distinct_values [] (expired ≫= abandoned_source)).
End Projects.

(** ** A project from a preflight *)

(** [CreateProjectFromSourcePreflightInput] *)
Record secret_input : Type := mk_secret_input {
  se_key : string; se_kind : option secret_kind; se_encryptedValue : string
}.

Record from_preflight_input : Type := mk_from_preflight {
  fp_preflightId : string; fp_userId : string; fp_name : string; fp_secrets : list secret_input;
  fp_deployAfterImport : bool; fp_promoteAfterDeploy : bool; fp_uploadOrigin : option string;
  fp_baseCommitSha : option string; fp_dirty : option bool
}.

Inductive from_preflight_outcome :=
  | PreflightNotFound
  | PreflightConsumed
  | PreflightNotReady
  | ProjectCreated (project : Project.project_row).

(** [RequestProjectDeletionResult] *)
Inductive deletion_outcome :=
  | DeletionNotFound
  | AlreadyDeleting
  | DeletionQueued (job : job_view).

Section FromPreflight.
Context `{Platform} `{UnicodeText}.

Definition preflight_of (preflightId userId : string) (d : database)
    : option SourcePreflight.source_preflight_row :=
  r ← sourcePreflights d !! preflightId;
  if bool_decide (SourcePreflight.userId r = userId) then Some r else None.

(** [preflight.status !== "completed" || !preflight.sourcePath || preflight.expiresAt <= now] *)
Definition preflight_unready (now : time) (r : SourcePreflight.source_preflight_row) : bool :=
  negb (has_preflight_status PreflightStatus.completed r)
  || bool_decide (truthy (SourcePreflight.sourcePath r) = None)
  || (SourcePreflight.expiresAt r <=? now)%Z.

Definition insert_secret (projectId : string) (secret : secret_input) : Tx unit :=
  id <- createId "secret" ;;
  now <- clock ;;
  _r <- insert_row secrets_table
    (Secret.mk id projectId (se_key secret) (default SecretKind.secret (se_kind secret))
       (se_encryptedValue secret) now now) ;;
  ret tt.

Definition preflight_payload (input : from_preflight_input) (r : SourcePreflight.source_preflight_row)
    : json :=
  import_payload (SourcePreflight.kind r) (SourcePreflight.gitUrl r) (SourcePreflight.sourcePath r)
    (fp_deployAfterImport input) (fp_promoteAfterDeploy input) (row_credential r)
    (sourceProvenanceFor (SourcePreflight.kind r) (fp_uploadOrigin input) (Some (fp_userId input)))
    (match SourcePreflight.kind r, truthy (fp_baseCommitSha input) with
     | ImportKind.zip, Some sha =>
         [("baseCommitSha", JStr sha); ("dirty", from_option JBool JNull (fp_dirty input))]
     | _, _ => []
     end).

Definition preflight_consumed (now : time) (r : SourcePreflight.source_preflight_row)
    : SourcePreflight.source_preflight_row :=
  (clear_credential r) <| SourcePreflight.status := PreflightStatus.consumed |>
    <| SourcePreflight.updatedAt := now |>.

(** What a ready preflight is turned into. *)
Definition consume_preflight (input : from_preflight_input) (r : SourcePreflight.source_preflight_row)
    : Tx Project.project_row :=
  slug <- lift (slugifyProjectName (fp_name input)) ;;
  project <- try_catch
    (insert_project slug (SourcePreflight.kind r) (SourcePreflight.gitUrl r))
    (fun e => if isUniqueConstraint e "projects_slug_unique"
              then throw ProjectSlugConflictError else throw e) ;;
  for_m (fp_secrets input) (insert_secret (Project.id project)) ;;
  _job <- insertJobRowTx (Project.id project) "import_source" (preflight_payload input r) None None ;;
  now <- clock ;;
  _row <- update_key source_preflights_table (SourcePreflight.id r) (fun _ => true)
            (preflight_consumed now) ;;
  ret project.

Definition createProjectFromSourcePreflight (input : from_preflight_input) (now : option time)
    : Tx from_preflight_outcome :=
  now <- now_or now ;;
  ensureDefaultOwner ;;
  transaction (
    found <- read (preflight_of (fp_preflightId input) (fp_userId input)) ;;
    match found with
    | None => ret PreflightNotFound
    | Some r =>
        if has_preflight_status PreflightStatus.consumed r then ret PreflightConsumed
        else if preflight_unready now r then ret PreflightNotReady
        else project <- consume_preflight input r ;; ret (ProjectCreated project)
    end).

(** ** Git credentials *)

Definition listGitCredentials (userId : string) : Tx (list GitCredential.git_credential_row) :=
  read (fun d => order_by (desc_by GitCredential.updatedAt)
    (select_where (fun r => bool_decide (GitCredential.userId r = userId)) (gitCredentials d))).

Definition getGitCredential (userId host : string) : Tx (option GitCredential.git_credential_row) :=
  read (fun d => find_where (fun r => bool_decide (GitCredential.userId r = userId)
                                      && bool_decide (GitCredential.host r = host)) (gitCredentials d)).

Definition upsertGitCredential (userId host encryptedToken : string)
    : Tx GitCredential.git_credential_row :=
  id <- createId "gitcred" ;;
  now <- clock ;;
  upsert git_credentials_table (ui_clash git_credentials_user_host_idx)
    (GitCredential.mk id userId host encryptedToken now now)
    (fun r => r <| GitCredential.encryptedToken := encryptedToken |>
                <| GitCredential.updatedAt := now |>).

Definition deleteGitCredential (userId credentialId : string) : Tx bool :=
  let own r := bool_decide (GitCredential.userId r = userId)
               && bool_decide (GitCredential.id r = credentialId) in
  found <- read (fun d => select_where own (gitCredentials d)) ;;
  delete_where git_credentials_table own ;;
  ret (0 <? length found)%nat.

(** ** The request of a deletion *)

(** [projectDeletionSourcePaths] of [store-shared.ts]. *)
Definition payload_source_paths (payload : json) : list string :=
  (option_list (json_string (json_get "sourcePath" payload))
   ++ match json_get "sourcePaths" payload with
      | Some (JArr l) => l ≫= (fun j => option_list (json_string (Some j)))
      | _ => []
      end)%list.

Definition projectDeletionSourcePaths (payloads : list json) : list string :=
  distinct_values [] (payloads ≫= payload_source_paths).

Definition requestProjectDeletion (projectId : string) : Tx deletion_outcome :=
  transaction (
    found <- read (fun d => projects d !! projectId) ;;
    match found with
    | None => ret DeletionNotFound
    | Some project =>
        if bool_decide (Project.deletionStatus project = Some DeletionStatus.deleting)
        then ret AlreadyDeleting
        else
          inputs <- read (fun d => select_where (fun j =>
            bool_decide (Job.projectId j = projectId)
            && (bool_decide (Job.status j = "queued") || bool_decide (Job.type j = "delete_project")))
            (jobs d)) ;;
          let sourcePaths := projectDeletionSourcePaths (Job.payload <$> inputs) in
          now <- clock ;;
          _p <- update_key projects_table projectId (fun _ => true)
            (fun p => p <| Project.deletionStatus := Some DeletionStatus.deleting |>
                        <| Project.deletionError := None |> <| Project.updatedAt := now |>) ;;
          delete_where jobs_table (fun j => bool_decide (Job.projectId j = projectId)
                                            && bool_decide (Job.status j = "queued")) ;;
          row <- insertJobRowTx projectId "delete_project"
            (JObj [("sourcePaths", JArr (JStr <$> sourcePaths))]) None None ;;
          job <- lift (jobRowToJob row) ;;
          ret (DeletionQueued job)
    end).

Definition setProjectDeletionFailed (projectId error : string) : Tx (option Project.project_row) :=
  now <- clock ;;
  update_key projects_table projectId (fun _ => true)
    (fun p => p <| Project.deletionStatus := Some DeletionStatus.failed |>
                <| Project.deletionError := Some error |> <| Project.updatedAt := now |>).
End FromPreflight.

(** ** The life of a preflight

    A preflight is well formed: stored under its identifier, which was drawn;
    locked while it runs, and only then; with a source and a summary once it is
    complete; with an error when it has failed, and only then; with a credential's
    host and token or neither, and a wish to keep it only with them; and with no
    credential once it is settled for good. *)
Section PreflightLife.
Context `{Platform} `{UnicodeText}.

Definition drawn (n : nat) (k : string) : Prop := exists i, i < n /\ k = "pre_" +:+ nanoid i.

Record preflight_wf (r : SourcePreflight.source_preflight_row) : Prop := {
  wf_settled : SourcePreflight.status r = PreflightStatus.failed \/
               SourcePreflight.status r = PreflightStatus.consumed ->
    SourcePreflight.credentialHost r = None /\ SourcePreflight.encryptedToken r = None /\
    SourcePreflight.persistCredential r = false;
  wf_locked : is_Some (SourcePreflight.lockedAt r) <->
    SourcePreflight.status r = PreflightStatus.running;
  wf_attempts : (0 <= SourcePreflight.attempts r)%Z /\
    (SourcePreflight.status r <> PreflightStatus.queued -> (0 < SourcePreflight.attempts r)%Z);
  wf_source : SourcePreflight.status r = PreflightStatus.completed \/
              SourcePreflight.status r = PreflightStatus.consumed ->
    is_Some (SourcePreflight.sourcePath r) /\ is_Some (SourcePreflight.summary r);
  wf_error : is_Some (SourcePreflight.error r) <->
    SourcePreflight.status r = PreflightStatus.failed;
  wf_credential :
    (is_Some (SourcePreflight.credentialHost r) <-> is_Some (SourcePreflight.encryptedToken r)) /\
    (SourcePreflight.persistCredential r = true -> is_Some (SourcePreflight.credentialHost r))
}.

(** An absent error where none is due. *)
Lemma no_error_due st : st <> PreflightStatus.failed ->
  is_Some (@None string) <-> st = PreflightStatus.failed.
Proof. intros Hne. split; [by intros [? [=]]|done]. Qed.

Lemma same_error_due e st st' :
  (is_Some e <-> st = PreflightStatus.failed) -> st <> PreflightStatus.failed ->
  st' <> PreflightStatus.failed -> @is_Some string e <-> st' = PreflightStatus.failed.
Proof. naive_solver. Qed.

Lemma distinct_values_seen v seen values :
  v ∈ distinct_values seen values <-> v ∈ values /\ v ∉ seen.
Proof.
  revert seen. induction values as [|u values IH]; intros seen; simpl; [set_solver|].
  case_bool_decide; [|rewrite elem_of_cons]; rewrite IH; destruct (decide (v = u)) as [->|]; set_solver.
Qed.

Lemma distinct_values_in v values : v ∈ distinct_values [] values <-> v ∈ values.
Proof. rewrite distinct_values_seen. set_solver. Qed.

(** A row under its key, where the preflight of [spent] is consumed. *)
Definition preflight_row_ok (spent : option string) (n : nat) (k : string)
    (r : SourcePreflight.source_preflight_row) : Prop :=
  SourcePreflight.id r = k /\ drawn n k /\ preflight_wf r /\
  (spent = Some k -> SourcePreflight.status r = PreflightStatus.consumed).

Definition preflights_ok (spent : option string) (s : store) : Prop :=
  (forall k, spent = Some k -> drawn (st_draws s) k) /\
  map_Forall (preflight_row_ok spent (st_draws s)) (sourcePreflights (st_db s)).

Lemma drawn_le n m k : n <= m -> drawn n k -> drawn m k.
Proof. intros Hle (i & Hi & ->). exists i. split; [lia|done]. Qed.

Lemma row_ok_le spent n m k r : n <= m -> preflight_row_ok spent n k r -> preflight_row_ok spent m k r.
Proof. intros Hle (Hid & Hd & Hr). split; [done|]. split; [by eapply drawn_le|done]. Qed.

(** What every computation of the store does: identifiers are drawn, and the
    preflights stay well formed. *)
Definition preflights_move (spent : option string) (s s' : store) : Prop :=
  st_draws s <= st_draws s' /\ (preflights_ok spent s -> preflights_ok spent s').

#[export] Instance preflights_move_preorder spent : PreOrder (preflights_move spent).
Proof.
  split; [by intros s|]. intros s1 s2 s3 [H1 H2] [H3 H4]. split; [lia|auto].
Qed.

(** Other tables change, and identifiers are drawn. *)
Definition elsewhere (s s' : store) : Prop :=
  st_draws s <= st_draws s' /\ sourcePreflights (st_db s') = sourcePreflights (st_db s).

#[export] Instance elsewhere_preorder : PreOrder elsewhere.
Proof. split; [by intros s|]. intros s1 s2 s3 [H1 H2] [H3 H4]. split; [lia|congruence]. Qed.

Lemma preflights_elsewhere spent s s' : elsewhere s s' -> preflights_move spent s s'.
Proof.
  intros [Hle Heq]. split; [done|]. intros [Hs Hr]. unfold preflights_ok. rewrite Heq. split.
  - intros k Hk. by eapply drawn_le, Hs.
  - intros k r Hk. eapply row_ok_le; [exact Hle|]. by apply Hr.
Qed.

Lemma within_elsewhere {A} spent (m : Tx A) : within elsewhere m -> within (preflights_move spent) m.
Proof. apply within_mono, preflights_elsewhere. Qed.

Lemma ew_read {A} (q : database -> A) : within elsewhere (read q).
Proof. by apply within_gets; try apply _. Qed.

Lemma ew_clock : within elsewhere clock.
Proof. by apply within_gets; try apply _. Qed.

Lemma ew_now_or o : within elsewhere (now_or o).
Proof. destruct o; [apply within_ret|apply ew_clock]; apply _. Qed.

Lemma ew_createId prefix : within elsewhere (createId prefix).
Proof. intros s. split; [apply Nat.le_succ_diag_r|done]. Qed.

Lemma ew_modify f :
  (forall s, st_draws (f s) = st_draws s /\ st_db (f s) = st_db s) -> within elsewhere (modify f).
Proof.
  intros Hf s. destruct (Hf s) as [Hd Hdb]. change (exec (modify f) s) with (f s).
  split; [by rewrite Hd|by rewrite Hdb].
Qed.

Lemma ew_insert_row {K R} `{Countable K} (T : table K R) r :
  (forall f d, sourcePreflights (tbl_set T f d) = sourcePreflights d) -> within elsewhere (insert_row T r).
Proof.
  intros Hf s. unfold exec. destruct (insert_row T r s) as [[r'|e] s'] eqn:Hrun.
  - apply insert_row_ok in Hrun as (-> & _ & _ & ->). split; [done|apply Hf].
  - by rewrite (insert_row_err _ _ _ _ _ Hrun).
Qed.

Lemma ew_update_key {K R} `{Countable K} (T : table K R) k p f :
  (forall g d, sourcePreflights (tbl_set T g d) = sourcePreflights d) ->
  within elsewhere (update_key T k p f).
Proof.
  intros Hf s. unfold exec. destruct (update_key T k p f s) as [[o|e] s'] eqn:Hrun.
  - apply update_key_ok in Hrun as [(_ & -> & _)|(r & _ & _ & _ & _ & ->)]; [done|]. split; [done|apply Hf].
  - by rewrite (update_key_err _ _ _ _ _ _ _ Hrun).
Qed.

Lemma ew_transaction {A} (m : Tx A) : within elsewhere m -> within elsewhere (transaction m).
Proof.
  intros Hm s. specialize (Hm s). unfold exec, transaction in *. destruct (m s) as [[a|e] s']; [done|].
  by destruct Hm as [Hle _].
Qed.

Section Walk.
Context (spent : option string).
Abbreviation within_preflights := (within (preflights_move spent)).

Lemma pm_transaction {A} (m : Tx A) : within_preflights m -> within_preflights (transaction m).
Proof.
  intros Hm s. specialize (Hm s). unfold exec, transaction in *. destruct (m s) as [[a|e] s']; [done|].
  destruct Hm as [Hle _]. by apply preflights_elsewhere.
Qed.

(** An update of the preflight of a key that keeps it well formed. *)
Lemma pm_update_preflight k p f s :
  (forall r, preflights_ok spent s -> sourcePreflights (st_db s) !! k = Some r -> p r = true ->
     preflight_row_ok spent (st_draws s) k (f r)) ->
  preflights_move spent s (exec (update_key source_preflights_table k p f) s).
Proof.
  intros Hf. unfold exec. destruct (update_key source_preflights_table k p f s) as [[o|e] s'] eqn:Hrun.
  - apply update_key_ok in Hrun as [(_ & -> & _)|(r & Hk & Hp & _ & _ & ->)]; [done|].
    simpl. split; [done|]. intros Hok. split; [apply Hok|]. simpl.
    apply map_Forall_insert_2; [by apply Hf|apply Hok].
  - by rewrite (update_key_err _ _ _ _ _ _ _ Hrun).
Qed.

Lemma pm_update_preflights p f s :
  (forall k r, preflights_ok spent s -> sourcePreflights (st_db s) !! k = Some r -> p r = true ->
     preflight_row_ok spent (st_draws s) k (f r)) ->
  preflights_move spent s (exec (update_where source_preflights_table p f) s).
Proof.
  intros Hf. unfold exec. destruct (update_where source_preflights_table p f s) as [[l|e] s'] eqn:Hrun.
  - apply update_where_ok in Hrun as (_ & ->). simpl. split; [done|]. intros Hok. split; [apply Hok|]. simpl.
    intros k r'. rewrite update_rows_lookup. intros (r & Hk & ->)%fmap_Some.
    destruct (p r) eqn:Hp; [by apply Hf|by apply Hok].
  - by rewrite (update_where_err _ _ _ _ _ _ Hrun).
Qed.

Lemma pm_delete p : within_preflights (delete_where source_preflights_table p).
Proof.
  intros s. split; [done|]. intros [Hs Hr]. split; [done|]. simpl.
  intros k r [Hk _]%map_lookup_filter_Some. by apply Hr.
Qed.
End Walk.
End PreflightLife.

#[export] Hint Resolve ew_read ew_clock ew_now_or ew_createId ew_transaction within_elsewhere
  pm_transaction : within.
#[export] Hint Extern 1 (within elsewhere (insert_row _ _)) =>
  (apply ew_insert_row; intros; reflexivity) : within.
#[export] Hint Extern 1 (within elsewhere (update_key _ _ _ _)) =>
  (apply ew_update_key; intros; reflexivity) : within.
#[export] Hint Extern 1 (within elsewhere (modify _)) =>
  (apply ew_modify; intros; split; reflexivity) : within.

(** A read followed by what is done with its answer, at one state. *)
Lemma within_bind_read {A B} (R : relation store) `{!PreOrder R} (q : database -> A) (k : A -> Tx B) :
  (forall s, R s (exec (k (q (st_db s))) s)) -> within R (bind (read q) k).
Proof. intros Hk s. apply Hk. Qed.

(** The last step of a computation only shapes its answer. *)
Lemma exec_bind_pure {S A B} (m : M S A) (k : A -> M S B) s :
  (forall a s', exec (k a) s' = s') -> exec (bind m k) s = exec m s.
Proof. intros Hk. unfold exec, bind. destruct (m s) as [[a|e] s1] eqn:Hm; [|done]. apply Hk. Qed.

Section PreflightSteps.
Context `{Platform} `{UnicodeText} {spent : option string}.
Abbreviation within_preflights := (within (preflights_move spent)).

(** The well-formedness of an updated row, by the status it is given. *)
Lemma row_ok_update n k r r' :
  preflight_row_ok spent n k r -> SourcePreflight.status r <> PreflightStatus.consumed ->
  SourcePreflight.id r' = SourcePreflight.id r -> preflight_wf r' -> preflight_row_ok spent n k r'.
Proof.
  intros (Hid & Hd & _ & Hs) Hne Hid' Hwf. split; [by rewrite Hid'|]. split; [done|]. split; [done|].
  intros Hk. by destruct (Hne (Hs Hk)).
Qed.

Lemma has_status_true st r : has_preflight_status st r = true -> SourcePreflight.status r = st.
Proof. apply bool_decide_eq_true_1. Qed.

Lemma ew_ensureDefaultOwner : within elsewhere ensureDefaultOwner.
Proof. unfold ensureDefaultOwner, insert_if_absent. apply ew_transaction. stroll. Qed.

Lemma ew_insertJob projectId type payload c u :
  within elsewhere (insertJobRowTx projectId type payload c u).
Proof. unfold insertJobRowTx. stroll. Qed.
#[local] Hint Resolve ew_ensureDefaultOwner ew_insertJob : within.

Lemma pm_createSourcePreflight input :
  Inj (=) (=) nanoid -> within_preflights (createSourcePreflight input).
Proof.
  intros Hinj. unfold createSourcePreflight. apply within_bind; [apply _|stroll|]. intros _ s.
  unfold exec, bind at 1, createId. cbn match beta. set (n := st_draws s).
  set (s1 := s <| st_draws ::= S |>). unfold bind at 1, clock, gets. cbn match beta.
  set (row := SourcePreflight.mk _ _ _ _ _ _ _ _ _ _ _ _ _ _ _ _ _).
  assert (Hrow : preflights_ok spent s -> preflight_row_ok spent (S n) (SourcePreflight.id row) row).
  { intros [Hs _]. split; [done|]. split; [exists n; split; [lia|done]|]. split.
    - split; simpl; [by intros [|]|split; [by intros [? [=]]|done]|done|by intros [|]|
        by apply no_error_due|by destruct (fi_gitCredential input)].
    - intros Hk. destruct (Hs _ Hk) as (i & Hi & Heq). simpl in Heq.
      apply (inj (String.append "pre_")), (inj nanoid) in Heq. unfold n in *. lia. }
  unfold bind. destruct (insert_row source_preflights_table row s1) as [[r'|e] s2] eqn:Hins.
  - apply insert_row_ok in Hins as (_ & Hnone & _ & ->). split; [simpl; lia|]. intros Hok.
    specialize (Hrow Hok). destruct Hok as [Hs Hr]. split; simpl.
    + intros k Hk. eapply drawn_le, Hs, Hk. lia.
    + apply map_Forall_insert_2; [done|]. intros k r Hk. eapply row_ok_le; [|by apply Hr]. lia.
  - apply insert_row_err in Hins as ->. apply preflights_elsewhere. split; [simpl; lia|done].
Qed.

Lemma pm_claimNextSourcePreflight now : within_preflights (claimNextSourcePreflight now).
Proof.
  unfold claimNextSourcePreflight. apply within_bind; [apply _|stroll|]. intros t.
  apply within_bind_read; [apply _|]. intros s. destruct (next_preflight t (st_db s)) as [c|] eqn:Hc; [|done].
  rewrite exec_bind_pure by done. apply pm_update_preflight. intros r [Hs Hr] Hk _.
  apply head_Some_elem_of, elem_of_order_by, elem_of_select in Hc as ((Hq%has_status_true & _)%andb_true_iff & k & Hk').
  assert (k = SourcePreflight.id c) as -> by by destruct (Hr k c Hk') as [Hid _].
  assert (r = c) as -> by (rewrite Hk in Hk'; by injection Hk').
  pose proof (Hr _ _ Hk) as Hrow. eapply row_ok_update; [exact Hrow|by rewrite Hq|done|].
  destruct Hrow as (_ & _ & [_ _ [Ha _] _ He Hc] & _). rewrite Hq in He.
  split; simpl; [by intros [|]|by split|split; intros; lia|by intros [|]|
    by eapply same_error_due|done].
Qed.

(** An update that only the holder of a claim makes. *)
Lemma pm_settle_claim id attempt f :
  (forall r, SourcePreflight.status r = PreflightStatus.running -> preflight_wf r -> preflight_wf (f r)) ->
  (forall r, SourcePreflight.id (f r) = SourcePreflight.id r) ->
  within_preflights (settle_claim id attempt f).
Proof.
  intros Hwf Hid s. unfold settle_claim. rewrite exec_bind_pure by done. apply pm_update_preflight.
  intros r [_ Hr] Hk [Hq%has_status_true _]%andb_true_iff. specialize (Hr _ _ Hk).
  eapply row_ok_update; [exact Hr|by rewrite Hq|done|]. apply Hwf; [done|]. by destruct Hr as (_ & _ & ? & _).
Qed.

Lemma pm_heartbeat id attempt now : within_preflights (heartbeatSourcePreflight id attempt now).
Proof.
  unfold heartbeatSourcePreflight. apply within_bind; [apply _|stroll|]. intros t.
  apply pm_settle_claim; [|done]. intros r Hq [H1 H2 H3 H4 H5 H6]. split; simpl; try done.
Qed.

Lemma pm_completeSourcePreflight id attempt result :
  within_preflights (completeSourcePreflight id attempt result).
Proof.
  unfold completeSourcePreflight. apply within_bind; [apply _|stroll|]. intros t.
  apply pm_settle_claim; [|done]. intros r Hq [_ _ [H3 H5] _ _ Hc].
  split; simpl; [by intros [|]|split; [by intros [? [=]]|done]| |by split; eexists|
    by apply no_error_due|done].
  split; [done|]. intros _. apply H5. by rewrite Hq.
Qed.

Lemma pm_failSourcePreflight id attempt error :
  within_preflights (failSourcePreflight id attempt error).
Proof.
  unfold failSourcePreflight. apply within_bind; [apply _|stroll|]. intros t.
  apply pm_settle_claim; [|done]. intros r Hq [_ _ [H3 H5] _ _ _].
  split; simpl; [done|split; [by intros [? [=]]|done]| |by intros [|]|by split; [|by eexists]|done].
  split; [done|]. intros _. apply H5. by rewrite Hq.
Qed.

Lemma first_ids_elem order limit p d id :
  id ∈ first_ids order limit p d ->
  exists k r, sourcePreflights d !! k = Some r /\ p r = true /\ SourcePreflight.id r = id.
Proof.
  unfold first_ids. intros (r & -> & Hr)%list_elem_of_fmap.
  assert (Hin : r ∈ select_where p (sourcePreflights d)).
  { eapply elem_of_order_by. rewrite <- (take_drop limit). apply elem_of_app. by left. }
  apply elem_of_select in Hin as (Hp & k & Hk). eauto.
Qed.

Lemma pm_recoverStale now stale limit : within_preflights (recoverStaleSourcePreflights now stale limit).
Proof.
  unfold recoverStaleSourcePreflights. apply within_bind; [apply _|stroll|]. intros t.
  apply within_bind_read; [apply _|]. intros s. rewrite exec_bind_pure by done.
  apply pm_update_preflights. intros k r [_ Hr] Hk Hin%bool_decide_eq_true.
  apply first_ids_elem in Hin as (k' & r' & Hk' & [Hq%has_status_true _]%andb_true_iff & Hid).
  pose proof (Hr _ _ Hk) as Hrow. assert (k' = k) as -> by
    (destruct (Hr _ _ Hk') as [<- _]; destruct Hrow as [<- _]; done).
  assert (r' = r) as -> by (rewrite Hk in Hk'; by injection Hk').
  eapply row_ok_update; [exact Hrow|by rewrite Hq|done|]. destruct Hrow as (_ & _ & [_ _ [H3 H5] _ He Hc] & _).
  rewrite Hq in He.
  split; simpl; [by intros [|]|split; [by intros [? [=]]|done]|done|by intros [|]|
    by eapply same_error_due|done].
Qed.

Lemma pm_expire now limit : within_preflights (expireSourcePreflights now limit).
Proof.
  unfold expireSourcePreflights. stroll. apply pm_delete.
Qed.

End PreflightSteps.

Section PreflightExpiry.
Context `{Platform} `{UnicodeText}.

(** What a cleanup is handed: checkouts of preflights that were due and had not
    been consumed, whose rows are gone; all of them, when no more were due than the
    limit. *)
Lemma expireSourcePreflights_spec now limit s x s' :
  keyed source_preflights_table (st_db s) ->
  expireSourcePreflights now limit s = (x, s') ->
  let due r := expirable (now_of now s) r = true /\ SourcePreflight.status r <> PreflightStatus.consumed in
  exists paths, x = Ok paths /\
    (forall path, path ∈ paths -> exists k r, sourcePreflights (st_db s) !! k = Some r /\ due r /\
       SourcePreflight.sourcePath r = Some path /\ sourcePreflights (st_db s') !! k = None) /\
    (length (select_where (expirable (now_of now s)) (sourcePreflights (st_db s))) <= default 25 limit ->
     forall k r path, sourcePreflights (st_db s) !! k = Some r -> due r ->
       truthy (SourcePreflight.sourcePath r) = Some path -> path ∈ paths).
Proof.
  intros Hkey Hrun due. set (t := now_of now s) in *. unfold expireSourcePreflights in Hrun.
  rewrite (bind_step _ _ _ _ _ (now_or_run _ _)) in Hrun. fold t in Hrun.
  set (ids := first_ids SourcePreflight.expiresAt (default 25 limit) (expirable t) (st_db s)).
  unfold bind at 1 2 3, read, gets, ret in Hrun. fold ids in Hrun.
  injection Hrun as <- <-. eexists. split; [reflexivity|].
  assert (Hids : forall k r, sourcePreflights (st_db s) !! k = Some r -> SourcePreflight.id r ∈ ids ->
    expirable t r = true).
  { intros k r Hk (k' & r' & Hk' & He & Hid)%first_ids_elem. pose proof (Hkey _ _ Hk) as H1.
    pose proof (Hkey _ _ Hk') as H2. simpl in H1, H2. congruence. }
  split.
  - intros path (r & Hp & (Hin%bool_decide_eq_true & k & Hk)%elem_of_select)%distinct_values_in%list_elem_of_bind.
    unfold abandoned_source in Hp. destruct (has_preflight_status _ r) eqn:Hst; [by apply not_elem_of_nil in Hp|].
    apply bool_decide_eq_false in Hst. exists k, r. split; [done|]. split; [split; [by eapply Hids|done]|].
    split.
    { destruct (SourcePreflight.sourcePath r) as [[|c q]|]; simpl in Hp; try by apply not_elem_of_nil in Hp.
      by apply list_elem_of_singleton in Hp as ->. }
    simpl. apply map_lookup_filter_None. right. intros r' Hk'. simpl.
    assert (r' = r) as -> by congruence. by rewrite bool_decide_eq_true_2.
  - intros Hlen k r path Hk [He Hst] Hp. apply distinct_values_in, list_elem_of_bind. exists r. split.
    + unfold abandoned_source, has_preflight_status. rewrite bool_decide_eq_false_2, Hp by done. by left.
    + apply elem_of_select. rewrite bool_decide_eq_true. split; [|by exists k]. apply list_elem_of_fmap. exists r.
      split; [done|]. rewrite take_ge by (by rewrite order_by_perm). apply elem_of_order_by, elem_of_select. eauto.
Qed.

End PreflightExpiry.


(** ** What a consumption writes *)

Section Consumption.
Context `{Platform} `{UnicodeText}.

(** The row of a secret of the input. *)
Definition secret_of (projectId : string) (input : secret_input) (r : Secret.secret_row) : Prop :=
  Secret.projectId r = projectId /\ Secret.key r = se_key input /\
  Secret.kind r = default SecretKind.secret (se_kind input) /\
  Secret.encryptedValue r = se_encryptedValue input.

(** The table with rows that were not in it. *)
Inductive added : list Secret.secret_row -> gmap string Secret.secret_row ->
    gmap string Secret.secret_row -> Prop :=
  | added_none t : added [] t t
  | added_next r rows t t' :
      t !! Secret.id r = None -> added rows (<[Secret.id r := r]> t) t' -> added (r :: rows) t t'.

Lemma insert_project_ok slug kind gitUrl s p s' :
  insert_project slug kind gitUrl s = (Ok p, s') ->
  exists id, p = new_project id slug kind gitUrl (st_clock s) /\
    projects (st_db s) !! id = None /\
    (forall k q, projects (st_db s) !! k = Some q -> Project.slug q <> slug) /\
    st_db s' = (st_db s) <| projects ::= insert id p |> /\ st_clock s' = st_clock s.
Proof.
  unfold insert_project. intros Hrun. inv_ok Hrun. simpl in *.
  eexists. split; [reflexivity|]. split; [exact Hfresh|]. split; [|done].
  intros k q Hk Hslug. specialize (Huniq _ ltac:(by left)). rewrite clashes_false in Huniq.
  specialize (Huniq k q Hk ltac:(intros Heq; rewrite Heq, Hfresh in Hk; done)). simpl in Huniq.
  apply (same_key_false _ _ _ slug eq_refl) in Huniq. congruence.
Qed.

Lemma insert_secrets_ok projectId inputs s u s' :
  for_m inputs (insert_secret projectId) s = (Ok u, s') ->
  exists rows, Forall2 (secret_of projectId) inputs rows /\
    added rows (secrets (st_db s)) (secrets (st_db s')) /\
    st_db s' = (st_db s) <| secrets := secrets (st_db s') |> /\ st_clock s' = st_clock s.
Proof.
  unfold for_m. revert s u. induction inputs as [|i inputs IH]; intros s u Hrun.
  - injection Hrun as _ <-. exists []. split; [done|]. split; [constructor|]. by destruct s as [[] ? ? ? ?].
  - cbn [fold_m] in Hrun. apply bind_ok in Hrun as ([] & s1 & Hi & Hrun).
    apply IH in Hrun as (rows & Hrows & Hadd & Hdb & Hc). clear IH.
    apply bind_ok in Hi as (id & sa & [= <- <-] & Hi). apply bind_ok in Hi as (t & sb & [= <- <-] & Hi).
    set (row := Secret.mk _ _ _ _ _ _ _) in Hi. apply bind_ok in Hi as (r & sc & Hins & [= <-]).
    apply insert_row_ok in Hins as (-> & Hnone & _ & ->). exists (row :: rows).
    split; [by constructor|]. split; [by econstructor|]. split; [|done]. by rewrite Hdb.
Qed.

Lemma consume_preflight_ok input r s p s' :
  sourcePreflights (st_db s) !! SourcePreflight.id r = Some r ->
  consume_preflight input r s = (Ok p, s') ->
  exists slug t t' rows job,
    slugifyProjectName (fp_name input) = Ok slug /\
    (forall k q, projects (st_db s) !! k = Some q -> Project.slug q <> slug) /\
    projects (st_db s) !! Project.id p = None /\
    p = new_project (Project.id p) slug (SourcePreflight.kind r) (SourcePreflight.gitUrl r) t /\
    Forall2 (secret_of (Project.id p)) (fp_secrets input) rows /\
    added rows (secrets (st_db s)) (secrets (st_db s')) /\
    Job.projectId job = Project.id p /\ Job.type job = "import_source" /\ Job.status job = "queued" /\
    decodeJobPayload "import_source" (preflight_payload input r) = Ok (Job.payload job) /\
    jobs (st_db s) !! Job.id job = None /\
    st_db s' = (st_db s) <| projects ::= insert (Project.id p) p |>
      <| secrets := secrets (st_db s') |> <| jobs ::= insert (Job.id job) job |>
      <| sourcePreflights ::= insert (SourcePreflight.id r) (preflight_consumed t' r) |>.
Proof.
  intros Hr Hrun. apply bind_ok in Hrun as (slug & s1 & [= Hslug <-] & Hrun).
  apply bind_ok in Hrun as (p' & s1 & Hp & Hrun).
  assert (Hins : insert_project slug (SourcePreflight.kind r) (SourcePreflight.gitUrl r) s = (Ok p', s1)).
  { unfold try_catch in Hp. destruct (insert_project _ _ _ s) as [[q|e] s2]; [done|].
    by destruct (isUniqueConstraint e _). }
  clear Hp. apply insert_project_ok in Hins as (id & Hp' & Hnone & Hfree & Hdb1 & Hc1).
  apply bind_ok in Hrun as (u & s2 & Hsec & Hrun).
  apply insert_secrets_ok in Hsec as (rows & Hrows & Hadd & Hdb2 & Hc2).
  apply bind_ok in Hrun as (job & s3 & Hjob & Hrun).
  apply insertJobRowTx_ok in Hjob as (Hpay & Hpid & Hty & Hst & Hjnone & Hdb3).
  apply bind_ok in Hrun as (t & s4 & [= <- <-] & Hrun).
  apply bind_ok in Hrun as (o & s5 & Hup & [= <- <-]).
  assert (Hp3 : sourcePreflights (st_db s3) = sourcePreflights (st_db s))
    by (rewrite Hdb3, Hdb2, Hdb1; reflexivity).
  apply update_key_ok in Hup as [(_ & _ & Hbad)|(r' & Hr' & _ & _ & _ & ->)].
  { specialize (Hbad r). simpl in Hbad. rewrite Hp3 in Hbad. by specialize (Hbad Hr). }
  simpl in Hr'. rewrite Hp3, Hr in Hr'. injection Hr' as <-.
  assert (Hid : Project.id p' = id) by by rewrite Hp'. subst id.
  exists slug, (st_clock s), (st_clock s3), rows, job. rewrite Hdb1 in Hadd, Hdb2. simpl in Hadd.
  assert (Hs3 : secrets (st_db s3) = secrets (st_db s2)) by (rewrite Hdb3; reflexivity).
  assert (Hj2 : jobs (st_db s2) = jobs (st_db s)) by (rewrite Hdb2; reflexivity).
  rewrite Hj2 in Hjnone. simpl. rewrite Hs3. repeat (split; [done|]). by rewrite Hdb3, Hdb2.
Qed.
End Consumption.

(** ** A project is made of a preflight once *)

Section Consume.
Context `{Platform} `{UnicodeText}.

(** What [ensureDefaultOwner] may do. *)
Definition owner_only (d d' : database) : Prop :=
  d' = d <| teams := teams d' |> <| users := users d' |>.

#[export] Instance owner_only_preorder : PreOrder owner_only.
Proof.
  split; [by intros []|]. unfold owner_only. intros d1 d2 d3 H1 H2. rewrite H2, H1. reflexivity.
Qed.

Lemma moves_ensureDefaultOwner : moves owner_only ensureDefaultOwner.
Proof.
  unfold ensureDefaultOwner, insert_if_absent. walk;
    (apply moves_insert_row; [apply _|]; intros; reflexivity).
Qed.

(** The rows a consumption adds and the one it updates. *)
Definition project_created (input : from_preflight_input) (r : SourcePreflight.source_preflight_row)
    (p : Project.project_row) (d d' : database) : Prop :=
  exists slug t t' rows job,
    slugifyProjectName (fp_name input) = Ok slug /\
    (forall k q, projects d !! k = Some q -> Project.slug q <> slug) /\
    projects d !! Project.id p = None /\
    p = new_project (Project.id p) slug (SourcePreflight.kind r) (SourcePreflight.gitUrl r) t /\
    Forall2 (secret_of (Project.id p)) (fp_secrets input) rows /\
    added rows (secrets d) (secrets d') /\
    Job.projectId job = Project.id p /\ Job.type job = "import_source" /\ Job.status job = "queued" /\
    decodeJobPayload "import_source" (preflight_payload input r) = Ok (Job.payload job) /\
    jobs d !! Job.id job = None /\
    d' = d <| projects ::= insert (Project.id p) p |>
      <| secrets := secrets d' |> <| jobs ::= insert (Job.id job) job |>
      <| sourcePreflights ::= insert (SourcePreflight.id r) (preflight_consumed t' r) |>.

(** The preflight a project is made of, at the start of the operation. *)
Definition made_of (input : from_preflight_input) (now : time) (p : Project.project_row)
    (d d' : database) : Prop :=
  exists row d1,
    preflight_of (fp_preflightId input) (fp_userId input) d = Some row /\
    SourcePreflight.status row = PreflightStatus.completed /\
    (now < SourcePreflight.expiresAt row)%Z /\
    is_Some (truthy (SourcePreflight.sourcePath row)) /\
    owner_only d d1 /\ project_created input row p d1 d'.

Lemma preflight_of_lookup id userId d r :
  preflight_of id userId d = Some r -> sourcePreflights d !! id = Some r.
Proof.
  intros Hr. apply bind_Some in Hr as (r' & Hk & Hu). case_bool_decide; [|done]. by injection Hu as ->.
Qed.

(** The first statement, and the transaction after it. *)
Lemma createProjectFromSourcePreflight_run input now s x s' :
  createProjectFromSourcePreflight input now s = (x, s') ->
  (exists e, x = Err e /\ owner_only (st_db s) (st_db s')) \/
  (exists s1 o, owner_only (st_db s) (st_db s1) /\ x = Ok o /\
    match preflight_of (fp_preflightId input) (fp_userId input) (st_db s) with
    | None => o = PreflightNotFound /\ s' = s1
    | Some r =>
        if has_preflight_status PreflightStatus.consumed r then o = PreflightConsumed /\ s' = s1
        else if preflight_unready (now_of now s) r then o = PreflightNotReady /\ s' = s1
        else exists p, o = ProjectCreated p /\ consume_preflight input r s1 = (Ok p, s')
    end).
Proof.
  intros Hrun. unfold createProjectFromSourcePreflight in Hrun.
  rewrite (bind_step _ _ _ _ _ (now_or_run now s)) in Hrun.
  pose proof (moves_ensureDefaultOwner s) as Howner. unfold exec in Howner.
  apply bind_run in Hrun as [(e & Hown & ->)|(u & s1 & Hown & Hrun)]; rewrite Hown in Howner;
    [left; by exists e|]. simpl in Howner.
  destruct x as [o|e]; [right|left; exists e; split; [done|]; apply transaction_err in Hrun; by rewrite Hrun].
  rewrite transaction_ok in Hrun. apply bind_ok in Hrun as (found & s2 & [= <- <-] & Hrun).
  exists s1, o. split; [done|]. split; [done|].
  replace (preflight_of (fp_preflightId input) (fp_userId input) (st_db s1))
    with (preflight_of (fp_preflightId input) (fp_userId input) (st_db s)) in Hrun
    by (rewrite Howner; reflexivity).
  destruct (preflight_of _ _ _) as [r|]; [|by injection Hrun as <- <-].
  destruct (has_preflight_status _ r); [by injection Hrun as <- <-|].
  destruct (preflight_unready _ r); [by injection Hrun as <- <-|].
  apply bind_ok in Hrun as (p & s2 & Hcons & [= <- <-]). by exists p.
Qed.

Lemma made_of_run spent input now s p s' :
  preflights_ok spent s ->
  createProjectFromSourcePreflight input now s = (Ok (ProjectCreated p), s') ->
  made_of input (now_of now s) p (st_db s) (st_db s').
Proof.
  intros [_ Hall] [(e & [=] & _)|(s1 & o & Howner & [= <-] & Hrun)]%createProjectFromSourcePreflight_run.
  destruct (preflight_of _ _ _) as [row|] eqn:Hrow; [|by destruct Hrun].
  destruct (has_preflight_status _ row); [by destruct Hrun|].
  destruct (preflight_unready _ row) eqn:Hready; [by destruct Hrun|].
  destruct Hrun as (q & [= <-] & Hcons).
  apply orb_false_iff in Hready as [[Hst%negb_false_iff%has_status_true Hsrc]%orb_false_iff Hexp%Z.leb_gt].
  apply bool_decide_eq_false in Hsrc. apply preflight_of_lookup in Hrow as Hk.
  exists row, (st_db s1). split; [done|]. split; [done|]. split; [done|].
  split; [by apply not_eq_None_Some|]. split; [done|].
  apply (consume_preflight_ok input row s1 p s'); [|done]. destruct (Hall _ _ Hk) as [-> _].
  rewrite Howner. exact Hk.
Qed.

(** A project is made of a preflight all or nothing: of a preflight of the
    caller that is complete, has a source and has not expired, with a slug no
    project has, every secret of the input, one queued import of the checkout
    with the preflight's credential, and the preflight consumed, its credential
    erased; and whatever else the answer is, no table has changed but for the
    default owner's rows. *)
Lemma createProjectFromSourcePreflight_all_or_nothing input now s x s' :
  preflights_ok None s ->
  createProjectFromSourcePreflight input now s = (x, s') ->
  match x with
  | Ok (ProjectCreated p) => made_of input (now_of now s) p (st_db s) (st_db s')
  | Ok outcome => owner_only (st_db s) (st_db s') /\
      outcome = match preflight_of (fp_preflightId input) (fp_userId input) (st_db s) with
                | None => PreflightNotFound
                | Some r => if bool_decide (SourcePreflight.status r = PreflightStatus.consumed)
                            then PreflightConsumed else PreflightNotReady
                end
  | Err _ => owner_only (st_db s) (st_db s')
  end.
Proof.
  intros Hok Hrun. destruct x as [[| | |p]|e]; [| | |by eapply made_of_run|];
    apply createProjectFromSourcePreflight_run in Hrun as [(e' & [=] & Ho)|(s1 & o & Ho & [= <-] & Hr)]; try done;
    unfold has_preflight_status in Hr; (destruct (preflight_of _ _ _) as [r|]; [|by destruct Hr as [? ->]]);
    (case_bool_decide; [by destruct Hr as [? ->]|]);
    (destruct (preflight_unready _ r); [by destruct Hr as [? ->]|by destruct Hr as (p & ? & _)]).
Qed.
End Consume.

Section Steps.
Context `{Platform} `{UnicodeText} {spent : option string}.
Abbreviation within_preflights := (within (preflights_move spent)).
#[local] Hint Resolve ew_ensureDefaultOwner ew_insertJob : within.

Lemma ew_insert_secrets pid l : within elsewhere (for_m l (insert_secret pid)).
Proof. unfold insert_secret. stroll. Qed.

Lemma ew_insert_project slug kind gitUrl : within elsewhere (insert_project slug kind gitUrl).
Proof. unfold insert_project. stroll. Qed.
#[local] Hint Resolve ew_insert_secrets ew_insert_project : within.

Lemma pm_consume_preflight input k r s :
  sourcePreflights (st_db s) !! k = Some r ->
  SourcePreflight.status r = PreflightStatus.completed ->
  preflights_move spent s (exec (consume_preflight input r) s).
Proof.
  intros Hk Hst. unfold consume_preflight.
  set (P := fun s1 => sourcePreflights (st_db s1) = sourcePreflights (st_db s)).
  assert (HP : forall A (m : Tx A) s1 x s2, within elsewhere m -> m s1 = (x, s2) -> P s1 -> P s2).
  { intros A m s1 x s2 Hm Hrun Hp. destruct (within_run _ _ _ _ _ Hm Hrun) as [_ Heq]. unfold P. congruence. }
  apply along_step; [apply _|stroll|]. intros slug s1 [= _ <-].
  apply along_step; [apply _|stroll|]. intros p s1 H1. apply HP in H1; [|stroll|done].
  apply along_step; [apply _|stroll|]. intros u s2 H2. apply HP in H2; [|stroll|done].
  apply along_step; [apply _|stroll|]. intros job s3 H3. apply HP in H3; [|stroll|done].
  apply along_step; [apply _|stroll|]. intros t s4 [= _ <-].
  rewrite exec_bind_pure by done. apply pm_update_preflight. intros r' Hok Hr' _.
  destruct Hok as [_ Hall]. assert (Hrow : preflight_row_ok spent (st_draws s3) k r)
    by (apply Hall; by rewrite H3).
  assert (Hid : SourcePreflight.id r = k) by by destruct Hrow.
  rewrite Hid, H3, Hk in Hr'. injection Hr' as <-. rewrite Hid.
  eapply row_ok_update; [exact Hrow|by rewrite Hst|done|].
  destruct Hrow as (_ & _ & [_ Hl [H4 H5] H6 He _] & _). rewrite Hst in He.
  split; simpl; [done|split; [intros Hl'; apply Hl in Hl'; congruence|done]| |auto|
    by eapply same_error_due|done].
  split; [done|]. intros _. apply H5. by rewrite Hst.
Qed.

Lemma pm_createProjectFromSourcePreflight input now :
  within_preflights (createProjectFromSourcePreflight input now).
Proof.
  unfold createProjectFromSourcePreflight. apply within_bind; [apply _|stroll|]. intros t.
  apply within_bind; [apply _|stroll|]. intros _. apply pm_transaction.
  apply within_bind_read; [apply _|]. intros s.
  destruct (preflight_of _ _ _) as [r|] eqn:Hr; [|done].
  destruct (has_preflight_status _ r); [done|]. destruct (preflight_unready t r) eqn:Hready; [done|].
  rewrite exec_bind_pure by done.
  apply orb_false_iff in Hready as [[Hst%negb_false_iff%has_status_true _]%orb_false_iff _].
  apply bind_Some in Hr as (r' & Hk & Hu). case_bool_decide; [|done]. injection Hu as ->.
  by eapply pm_consume_preflight.
Qed.
End Steps.

(** The operations of the preflights, and whatever the rest of the system does. *)
Inductive preflight_step `{Platform} `{UnicodeText} : store -> store -> Prop :=
  | step_createSourcePreflight input s : preflight_step s (exec (createSourcePreflight input) s)
  | step_claimNextSourcePreflight now s : preflight_step s (exec (claimNextSourcePreflight now) s)
  | step_heartbeatSourcePreflight id attempt now s :
      preflight_step s (exec (heartbeatSourcePreflight id attempt now) s)
  | step_recoverStaleSourcePreflights now stale limit s :
      preflight_step s (exec (recoverStaleSourcePreflights now stale limit) s)
  | step_completeSourcePreflight id attempt result s :
      preflight_step s (exec (completeSourcePreflight id attempt result) s)
  | step_failSourcePreflight id attempt error s :
      preflight_step s (exec (failSourcePreflight id attempt error) s)
  | step_createProjectFromSourcePreflight input now s :
      preflight_step s (exec (createProjectFromSourcePreflight input now) s)
  | step_expireSourcePreflights now limit s :
      preflight_step s (exec (expireSourcePreflights now limit) s)
  | step_elsewhere s s' : elsewhere s s' -> preflight_step s s'.

Section Life.
Context `{Platform} `{UnicodeText} (Hinj : Inj (=) (=) nanoid).

Lemma preflight_step_moves spent s s' : preflight_step s s' -> preflights_move spent s s'.
Proof.
  intros Hs; destruct Hs.
  - by apply pm_createSourcePreflight.
  - apply pm_claimNextSourcePreflight.
  - apply pm_heartbeat.
  - apply pm_recoverStale.
  - apply pm_completeSourcePreflight.
  - apply pm_failSourcePreflight.
  - apply pm_createProjectFromSourcePreflight.
  - apply pm_expire.
  - by apply preflights_elsewhere.
Qed.

Lemma preflight_steps_move spent s s' : rtc preflight_step s s' -> preflights_move spent s s'.
Proof.
  induction 1 as [|s1 s2 s3 Hstep _ IH]; [reflexivity|].
  etransitivity; [by apply preflight_step_moves|exact IH].
Qed.

(** C25. Source preflights stay well formed: whatever the operations on them and
    the rest of the system do, each is stored under an identifier that was
    drawn, is locked while it runs and only then, has been claimed once it is no
    longer queued, has a source and a summary once it is complete, has an error
    when it has failed and only then, keeps the host and the token of a Git
    credential together, and holds no Git credential once it has failed or been
    consumed. *)
Theorem preflights_stay_well_formed s s' :
  preflights_ok None s -> rtc preflight_step s s' ->
  forall k r, sourcePreflights (st_db s') !! k = Some r ->
    SourcePreflight.id r = k /\ drawn (st_draws s') k /\ preflight_wf r.
Proof.
  intros Hok Hsteps k r Hk. apply (preflight_steps_move None) in Hsteps as [_ Hkeep].
  destruct (Hkeep Hok) as [_ Hall]. by destruct (Hall k r Hk) as (? & ? & ? & _).
Qed.

(** C26. A preflight is consumed once: after a project has been made of it,
    nothing that happens lets another be made of it, not even when it has
    expired and its row is gone. *)
Theorem preflight_consumed_once s0 s input now p s1 s2 input' now' x s3 :
  preflights_ok None s0 -> rtc preflight_step s0 s ->
  createProjectFromSourcePreflight input now s = (Ok (ProjectCreated p), s1) ->
  rtc preflight_step s1 s2 ->
  fp_preflightId input' = fp_preflightId input ->
  createProjectFromSourcePreflight input' now' s2 = (x, s3) ->
  forall p', x <> Ok (ProjectCreated p').
Proof.
  intros Hok0 Hpre Hcreate Hpost Hid Hagain p' ->.
  assert (Hok : preflights_ok None s) by (apply (preflight_steps_move None) in Hpre as [_ Hk]; auto).
  destruct (made_of_run _ _ _ _ _ _ Hok Hcreate) as (row & d1 & Hrow%preflight_of_lookup & Hst & _ & _ & Hown & Hd').
  destruct Hd' as (slug & t & t' & rows & job & _ & _ & _ & _ & _ & _ & _ & _ & _ & _ & _ & Hdb).
  set (k := fp_preflightId input) in *.
  assert (Hkey : SourcePreflight.id row = k) by (destruct Hok as [_ Hall]; by destruct (Hall _ _ Hrow)).
  assert (Hs1 : preflights_ok (Some k) s1).
  { destruct (pm_createProjectFromSourcePreflight (spent := None) input now s) as [_ Hk].
    unfold exec in Hk. rewrite Hcreate in Hk. destruct (Hk Hok) as [_ Hall1]. split.
    - intros k' [= <-]. assert (Hin : is_Some (sourcePreflights (st_db s1) !! k))
        by (rewrite Hdb; simpl; rewrite Hkey, lookup_insert_eq; by eexists).
      destruct Hin as [r1 Hr1]. by destruct (Hall1 _ _ Hr1) as (_ & ? & _).
    - intros k' r' Hk'. destruct (Hall1 k' r' Hk') as (? & ? & ? & _). do 3 (split; [done|]).
      intros [= <-]. rewrite Hdb in Hk'. simpl in Hk'. rewrite Hkey, lookup_insert_eq in Hk'.
      by injection Hk' as <-. }
  pose proof (preflight_steps_move (Some k) _ _ Hpost) as [_ Hkeep]. specialize (Hkeep Hs1).
  destruct (made_of_run _ _ _ _ _ _ Hkeep Hagain) as (row' & d2 & Hrow'%preflight_of_lookup & Hst' & _).
  destruct Hkeep as [_ Hall2]. rewrite Hid in Hrow'. destruct (Hall2 _ _ Hrow') as (_ & _ & _ & Hspent).
  rewrite (Hspent eq_refl) in Hst'. discriminate.
Qed.
End Life.

(** ** The slug a project gets *)

Section SlugClaim.
Context `{Platform} `{UnicodeText}.

Definition slug_free (t : gmap string Project.project_row) (slug : string) : bool :=
  match find_where (fun r => bool_decide (Project.slug r = slug)) t with
  | Some _ => false
  | None => true
  end.

Lemma slug_free_true t slug :
  slug_free t slug = true <-> forall k q, t !! k = Some q -> Project.slug q <> slug.
Proof.
  unfold slug_free. split.
  - destruct (find_where _ _) eqn:Hf; [done|]. rewrite find_where_None in Hf. intros _ k q Hk.
    by apply (bool_decide_eq_false_1 _ (Hf k q Hk)).
  - intros Hall. destruct (find_where _ _) as [q|] eqn:Hf; [|done].
    apply find_where_Some in Hf as (Hs%bool_decide_eq_true & k & Hk). by destruct (Hall k q Hk).
Qed.

(** The claim of one candidate, free or taken, whatever was drawn before. *)
Lemma claim_project_run input slug s :
  ids_fresh "proj" projects_table s ->
  let id := "proj" +:+ "_" +:+ nanoid (st_draws s) in
  let p := new_project id slug (pi_importKind input) (pi_gitUrl input) (st_clock s) in
  claim_project input slug s =
    if slug_free (projects (st_db s)) slug
    then (Ok (Some p), s <| st_draws ::= S |> <| st_db ::= set_field projects (insert id p) |>)
    else (Ok None, s <| st_draws ::= S |>).
Proof.
  intros Hfresh id p. unfold claim_project, try_catch.
  assert (Hnone : projects (st_db s) !! id = None) by (by apply Hfresh).
  assert (Hins : insert_project slug (pi_importKind input) (pi_gitUrl input) s =
    insert_row projects_table p (s <| st_draws ::= S |>)) by reflexivity.
  destruct (slug_free (projects (st_db s)) slug) eqn:Hf.
  - rewrite (bind_step _ _ _ p (s <| st_draws ::= S |> <| st_db ::= set_field projects (insert id p) |>));
      [reflexivity|].
    rewrite Hins. apply (insert_row_succeeds projects_table p (s <| st_draws ::= S |>)); [exact Hnone|].
    intros u ->%list_elem_of_singleton. apply clashes_false. intros k q Hk _.
    rewrite slug_free_true in Hf. specialize (Hf k q Hk). simpl. apply not_true_iff_false.
    intros (c & [= <-] & [= Hc])%same_key_clash. congruence.
  - rewrite (bind_err _ _ _ (UniqueViolation "projects_slug_unique") (s <| st_draws ::= S |>));
      [reflexivity|].
    rewrite Hins. unfold insert_row, read, bind, gets. cbn match beta.
    change (tbl projects_table (st_db (s <| st_draws ::= S |>))) with (projects (st_db s)).
    change (tbl_id projects_table p) with id. rewrite Hnone.
    rewrite bool_decide_eq_false_2 by by apply eq_None_not_Some. simpl throw_if. cbn match beta.
    unfold violation. set (u := index_on "projects_slug_unique" (fun r => Some (Project.slug r))).
    change (tbl_uniques projects_table) with [u]. cbn [find].
    destruct (clashes u (projects (st_db s)) id p) eqn:Hc; [reflexivity|]. exfalso. rewrite clashes_false in Hc.
    apply not_true_iff_false in Hf. apply Hf, slug_free_true. intros k q Hk Hs.
    assert (Hne : k <> id) by (intros ->; congruence). specialize (Hc k q Hk Hne). simpl in Hc.
    apply (same_key_false _ _ _ slug eq_refl) in Hc. congruence.
Qed.

(** The loop takes the first free candidate of its range. *)
Lemma claim_slug_loop_first input base m k n s :
  ids_fresh "proj" projects_table s ->
  match find (fun i => slug_free (projects (st_db s)) (slug_candidate base i)) (seq n k) with
  | Some i => exists id s',
      let p := new_project id (slug_candidate base i) (pi_importKind input) (pi_gitUrl input) (st_clock s) in
      claim_slug_loop base (claim_project input) m k n s = (Ok p, s') /\
      projects (st_db s) !! id = None /\
      st_db s' = (st_db s) <| projects ::= insert id p |>
  | None => exists s',
      claim_slug_loop base (claim_project input) m k n s =
        (Err (Error ("Failed to claim a unique project slug after " +:+ pretty m +:+ " attempts.")), s') /\
      st_db s' = st_db s
  end.
Proof.
  revert n s. induction k as [|k IH]; intros n s Hfresh; [by exists s|].
  cbn [seq find claim_slug_loop]. pose proof (claim_project_run input (slug_candidate base n) s Hfresh) as Hc.
  cbv zeta in Hc. destruct (slug_free (projects (st_db s)) (slug_candidate base n)) eqn:Hf.
  - rewrite (bind_step _ _ _ _ _ Hc). do 2 eexists. split; [reflexivity|]. split; [by apply Hfresh|done].
  - rewrite (bind_step _ _ _ _ _ Hc).
    specialize (IH (S n) (s <| st_draws ::= S |>)). apply IH.
    intros i Hi. apply Hfresh. simpl in Hi. lia.
Qed.

(** The attempts a creation has. *)
Definition slug_attempts (input : project_input) : nat :=
  if pi_requireExactSlug input then 1 else N.to_nat 10000.

Lemma slug_claim_message m :
  slug_claim_failed (Error ("Failed to claim a unique project slug after " +:+ pretty (m : nat) +:+ " attempts."))
  = true.
Proof. apply (prefix_app "Failed to claim a unique project slug" _). Qed.

Lemma ensureDefaultOwner_ok s s1 u :
  ensureDefaultOwner s = (Ok u, s1) ->
  projects (st_db s1) = projects (st_db s) /\ jobs (st_db s1) = jobs (st_db s) /\
  (ids_fresh "proj" projects_table s -> ids_fresh "proj" projects_table s1).
Proof.
  intros Ho. assert (Hs1 : owner_only (st_db s) (st_db s1)).
  { pose proof (moves_ensureDefaultOwner s) as Hm. unfold exec in Hm. by rewrite Ho in Hm. }
  assert (Hp1 : projects (st_db s1) = projects (st_db s)) by (rewrite Hs1; reflexivity).
  split; [done|]. split; [by rewrite Hs1|]. intros Hfresh n Hn.
  destruct (ew_ensureDefaultOwner s) as [Hd _]. unfold exec in Hd. rewrite Ho in Hd. simpl in Hd.
  change (tbl projects_table (st_db s1)) with (projects (st_db s1)). rewrite Hp1. apply Hfresh. lia.
Qed.

(** The claim as the creation makes it. *)
Lemma claimProjectSlug_first input base s :
  slugifyProjectName (pi_name input) = Ok base ->
  claimProjectSlug (pi_name input) (claim_project input) (if pi_requireExactSlug input then Some 1 else None) s =
  claim_slug_loop base (claim_project input) (slug_attempts input) (slug_attempts input) 0 s.
Proof.
  intros Hbase. unfold claimProjectSlug. rewrite Hbase. unfold slug_attempts. by destruct (pi_requireExactSlug input).
Qed.

Lemma moves_enqueueJob_projects pid ty p :
  moves (fun d d' => projects d' = projects d) (enqueueJob pid ty p).
Proof.
  assert (HR : PreOrder (fun d d' : database => projects d' = projects d))
    by (split; [by intros d|intros d1 d2 d3; congruence]).
  unfold enqueueJob, insertJobRowTx. walk. by apply moves_insert_row.
Qed.

Lemma enqueueJob_projects pid ty p s x s' :
  enqueueJob pid ty p s = (x, s') -> projects (st_db s') = projects (st_db s).
Proof. intros Hrun. pose proof (moves_enqueueJob_projects pid ty p s) as Hm. unfold exec in Hm. by rewrite Hrun in Hm. Qed.

Lemma enqueueJob_ok pid ty p s j s' :
  enqueueJob pid ty p s = (Ok j, s') ->
  exists job, jobs (st_db s') !! Job.id job = Some job /\ jobs (st_db s) !! Job.id job = None /\
    Job.projectId job = pid /\ Job.type job = ty /\ Job.status job = "queued".
Proof.
  intros Hrun. apply bind_ok in Hrun as (row & s1 & Hins & Hrun). rewrite transaction_ok in Hins.
  apply insertJobRowTx_ok in Hins as (_ & Hp & Ht & Hst & Hnone & Hdb).
  apply bind_ok in Hrun as (v & s2 & [= _ <-] & Hrun). apply bind_ok in Hrun as (u & s2 & Hu & [= _ <-]).
  apply throw_if_ok in Hu as [_ ->]. exists row. rewrite Hdb. simpl. rewrite lookup_insert_eq. auto.
Qed.

(** A project gets the first slug of its candidates that no project has, the
    name's own or the name's with the next number, and one that meets the
    column's constraint; it is inserted with no revision, release or deployment,
    and, when the creation returns, an import of its source is queued.  When
    every candidate is taken, the one when the caller insists on it and else ten
    thousand, the creation throws and no project is added. *)
Lemma createProject_takes_first_free_slug input base s x s' :
  slugifyProjectName (pi_name input) = Ok base ->
  ids_fresh "proj" projects_table s ->
  is_ok (outcome ensureDefaultOwner s) = true ->
  createProject input s = (x, s') ->
  match find (fun i => slug_free (projects (st_db s)) (slug_candidate base i)) (seq 0 (slug_attempts input)) with
  | Some i => exists id t,
      let p := new_project id (slug_candidate base i) (pi_importKind input) (pi_gitUrl input) t in
      valid_slug (Project.slug p) = true /\
      projects (st_db s) !! id = None /\
      projects (st_db s') = <[id := p]> (projects (st_db s)) /\
      match x with
      | Ok q => q = p /\ exists job, jobs (st_db s') !! Job.id job = Some job /\
          jobs (st_db s) !! Job.id job = None /\ Job.projectId job = id /\
          Job.type job = "import_source" /\ Job.status job = "queued"
      | Err _ => True
      end
  | None => projects (st_db s') = projects (st_db s) /\ jobs (st_db s') = jobs (st_db s) /\
      x = Err (if pi_requireExactSlug input then ProjectSlugConflictError
               else Error "Failed to claim a unique project slug after 10000 attempts.")
  end.
Proof.
  intros Hbase Hfresh Hown Hrun. unfold createProject in Hrun.
  unfold outcome in Hown. destruct (ensureDefaultOwner s) as [[u|e] s1] eqn:Ho; [|done].
  rewrite (bind_step _ _ _ _ _ Ho) in Hrun.
  apply ensureDefaultOwner_ok in Ho as (Hp1 & Hj1 & Hf1). specialize (Hf1 Hfresh).
  pose proof (claim_slug_loop_first input base (slug_attempts input) (slug_attempts input) 0 s1 Hf1) as Hloop.
  rewrite <- (claimProjectSlug_first _ _ _ Hbase), Hp1 in Hloop.
  destruct (find _ _) as [i|] eqn:Hi.
  - destruct Hloop as (id & s2 & Hc & Hnone & Hdb). set (p := new_project _ _ _ _ _) in *.
    rewrite (bind_step _ _ _ p s2) in Hrun by (unfold try_catch; by rewrite Hc).
    exists id, (st_clock s1). apply find_some in Hi as [Hi _]. apply in_seq in Hi. split.
    { apply slug_candidate_valid; [by eapply slugify_valid|]. unfold slug_attempts in Hi.
      destruct (pi_requireExactSlug input); lia. }
    split; [done|]. assert (Hps : projects (st_db s2) = <[id := p]> (projects (st_db s))).
    { rewrite Hdb. simpl. by rewrite Hp1. }
    apply bind_run in Hrun as [(e & Hq & ->)|(job & s3 & Hq & [= <- <-])].
    + split; [|done]. rewrite (enqueueJob_projects _ _ _ _ _ _ Hq). exact Hps.
    + split; [rewrite (enqueueJob_projects _ _ _ _ _ _ Hq); exact Hps|]. split; [done|].
      apply enqueueJob_ok in Hq as (row & Hq & Hnew & Hrest). exists row. split; [done|].
      split; [|done]. rewrite Hdb in Hnew. simpl in Hnew. by rewrite <- Hj1.
  - destruct Hloop as (s2 & Hc & Hdb).
    assert (Hx : (x, s') = (Err (if pi_requireExactSlug input then ProjectSlugConflictError
      else Error "Failed to claim a unique project slug after 10000 attempts."), s2)).
    { rewrite <- Hrun. unfold bind at 1, try_catch. rewrite Hc. rewrite slug_claim_message.
      unfold slug_attempts. by destruct (pi_requireExactSlug input). }
    injection Hx as -> ->. by rewrite Hdb, Hp1, Hj1.
Qed.
End SlugClaim.

(** ** Witnesses *)
Section ProjectWitnesses.
#[local] Existing Instance sample_platform.
#[local] Existing Instance sample_text.

(** A preflight of a private repository: created, claimed, completed, and made
    a project of; an earlier project has the slug of the name. *)
Definition checkout : preflight_input :=
  mk_preflight_input "user_1" ImportKind.git (Some "https://git.example/p.git") None
    (Some (mk_job_credential "user_1" "git.example" "sealed" true)) 9000.
Definition make_agent : from_preflight_input :=
  mk_from_preflight "pre_0" "user_1" "My Agent" [mk_secret_input "KEY" None "sealed"] true false
    None None None.

Definition pre0 : store := sample_store sample_database.
Definition pre1 : store := exec (createSourcePreflight checkout) pre0.
Definition pre2 : store := exec (claimNextSourcePreflight None) pre1.
Definition pre3 : store :=
  exec (completeSourcePreflight "pre_0" 1 (mk_preflight_result "/src/pre_0" None (JObj []))) pre2.
Definition made : result from_preflight_outcome * store :=
  createProjectFromSourcePreflight make_agent None pre3.
Definition agent_row : Project.project_row :=
  new_project "proj_1" "my-agent" ImportKind.git (Some "https://git.example/p.git") 1000.

Lemma made_result : made = (Ok (ProjectCreated agent_row), made.2).
Proof.
  assert (Ha : made.1 = Ok (ProjectCreated agent_row)) by (vm_compute; reflexivity).
  rewrite <- Ha. apply surjective_pairing.
Qed.

Lemma pre0_ok : preflights_ok None pre0.
Proof. split; [done|]. intros k r Hk. by vm_compute in Hk. Qed.

Lemma pre3_steps : rtc preflight_step pre0 pre3.
Proof.
  apply (rtc_l _ _ pre1); [apply step_createSourcePreflight|].
  apply (rtc_l _ _ pre2); [apply step_claimNextSourcePreflight|].
  apply (rtc_l _ _ pre3); [apply step_completeSourcePreflight | apply rtc_refl].
Qed.

Lemma made_steps : rtc preflight_step pre0 made.2.
Proof. eapply rtc_r; [exact pre3_steps|]. apply (step_createProjectFromSourcePreflight make_agent None). Qed.

Lemma sample_nanoid_inj : Inj (=) (=) nanoid.
Proof. intros n m Heq. exact (inj (pretty (A := nat)) n m Heq). Qed.

Lemma preflights_stay_well_formed_witness :
  exists r, sourcePreflights (st_db made.2) !! "pre_0" = Some r /\
    SourcePreflight.status r = PreflightStatus.consumed /\ SourcePreflight.encryptedToken r = None.
Proof.
  destruct (sourcePreflights (st_db made.2) !! "pre_0") as [r|] eqn:Hr; [|by vm_compute in Hr].
  exists r. assert (Hst : SourcePreflight.status r = PreflightStatus.consumed)
    by (vm_compute in Hr; by injection Hr as <-).
  split; [reflexivity|]. split; [exact Hst|].
  destruct (preflights_stay_well_formed sample_nanoid_inj pre0 made.2 pre0_ok made_steps "pre_0" r Hr)
    as (_ & _ & Hwf). exact (proj1 (proj2 (wf_settled r Hwf (or_intror Hst)))).
Defined.

Lemma preflight_consumed_once_witness :
  is_ok made.1 = true /\
  forall p, (createProjectFromSourcePreflight make_agent None made.2).1 <> Ok (ProjectCreated p).
Proof.
  split; [by vm_compute|].
  exact (preflight_consumed_once sample_nanoid_inj pre0 pre3 make_agent None agent_row made.2 made.2
    make_agent None (createProjectFromSourcePreflight make_agent None made.2).1
    (createProjectFromSourcePreflight make_agent None made.2).2 pre0_ok pre3_steps made_result
    (rtc_refl _ _) eq_refl (surjective_pairing _)).
Defined.

Lemma pre3_ok : preflights_ok None pre3.
Proof. exact (proj2 (preflight_steps_move sample_nanoid_inj None pre0 pre3 pre3_steps) pre0_ok). Qed.

Lemma createProjectFromSourcePreflight_all_or_nothing_witness :
  made_of make_agent 1000 agent_row (st_db pre3) (st_db made.2) /\
  secrets (st_db made.2) !! "secret_2" =
    Some (Secret.mk "secret_2" "proj_1" "KEY" SecretKind.secret "sealed" 1000 1000).
Proof.
  split; [|by vm_compute].
  exact (createProjectFromSourcePreflight_all_or_nothing make_agent None pre3 _ made.2 pre3_ok made_result).
Defined.

(** Another project of the same name. *)
Definition second_agent : project_input :=
  mk_project_input "My Agent" ImportKind.zip None (Some "/src/zip-1") true false None (Some "cli-upload")
    (Some "user_1") false.
Definition second_made : result Project.project_row * store := createProject second_agent made.2.

Lemma made_ids_fresh : ids_fresh "proj" projects_table made.2.
Proof.
  intros n Hn. change (tbl projects_table (st_db made.2)) with (projects (st_db made.2)).
  replace (projects (st_db made.2)) with (<["proj_1" := agent_row]> (projects (st_db pre0))) by by vm_compute.
  rewrite lookup_insert_ne.
  - apply not_elem_of_dom. replace (dom (projects (st_db pre0))) with ({["p"]} : gset string) by by vm_compute.
    rewrite elem_of_singleton. done.
  - intros Heq. change "proj_1" with ("proj" +:+ "_" +:+ nanoid 1) in Heq.
    apply (inj (String.append "proj")), (inj (String.append "_")), sample_nanoid_inj in Heq.
    subst n. vm_compute in Hn. lia.
Qed.

Lemma createProject_takes_first_free_slug_witness :
  exists p, second_made.1 = Ok p /\ Project.slug p = "my-agent-1" /\
    projects (st_db second_made.2) = <[Project.id p := p]> (projects (st_db made.2)).
Proof.
  assert (Hbase : slugifyProjectName (pi_name second_agent) = Ok "my-agent") by by vm_compute.
  assert (Hown : is_ok (outcome ensureDefaultOwner made.2) = true) by by vm_compute.
  assert (Hok : is_ok second_made.1 = true) by by vm_compute.
  pose proof (createProject_takes_first_free_slug second_agent "my-agent" made.2 second_made.1 second_made.2
    Hbase made_ids_fresh Hown (surjective_pairing second_made)) as Hspec.
  replace (find _ _) with (Some 1) in Hspec by by vm_compute.
  destruct Hspec as (id & t & _ & _ & Hps & Hx). destruct second_made.1 as [p|e]; [|discriminate Hok].
  destruct Hx as [-> _]. eexists. split; [reflexivity|]. split; [by vm_compute|exact Hps].
Defined.
End ProjectWitnesses.
