(* ===== verification/Deletion.v ===== *)
(** * The deletion of a project

    [deleteProject] of [packages/db/src/postgres-project-store.ts]: some twenty
    deletes in one transaction, in an order that the foreign keys of
    [packages/db/src/schema.ts] allow.  Here a delete checks what PostgreSQL
    checks: a foreign key without an action refuses it when a row still refers to
    one that was deleted, and the keys with [on delete cascade] or [set null]
    follow it. *)

From S2P Require Import Prelude Strings Schema Store Tables Sample Jobs Runtime Slugs Projects.

Open Scope eve_scope.
Open Scope string_scope.

(** ** Foreign keys *)

(** The check of a foreign key at the end of a delete, from the tables before and
    after it: the constraint's name, when a row refers to one that is gone. *)
Definition foreign_key : Type := database -> database -> option string.

Section Keys.
Context {K R K' R' : Type} `{Countable K} `{Countable K'}.

(** A row that refers to a row of [T'] that the statement has deleted. *)
Definition refers_to_deleted (col : R -> option K') (T' : table K' R') (before after : database) (r : R) : bool :=
  match col r with
  | Some j => bool_decide (is_Some (tbl T' before !! j)) && bool_decide (tbl T' after !! j = None)
  | None => false
  end.

Definition fk (name : string) (T : table K R) (col : R -> option K') (T' : table K' R') : foreign_key := fun before after =>
  if existsb (refers_to_deleted col T' before after) (rows (tbl T after)) then Some name else None.

(** [on delete cascade] and [on delete set null] *)
Definition cascade_to (T : table K R) (col : R -> option K') (T' : table K' R') (before after : database) : database :=
  tbl_set T (base.filter (fun kr => refers_to_deleted col T' before after kr.2 = false)) after.

Definition set_null (T : table K R) (col : R -> option K') (unset : R -> R) (T' : table K' R')
    (before after : database) : database :=
  tbl_set T (update_rows (refers_to_deleted col T' before after) unset) after.
End Keys.

(** A delete, what cascades from it, and the checks. *)
Definition delete_referenced {K R} `{Countable K} (T : table K R) (p : R -> bool)
    (cascade : database -> database -> database) (refs : list foreign_key) : Tx unit :=
  before <- gets st_db ;;
  delete_where T p ;;
  write (cascade before) ;;
  after <- gets st_db ;;
  match omap (fun ref : foreign_key => ref before after) refs with
  | name :: _ => throw (ForeignKeyViolation name)
  | [] => ret tt
  end.

Definition no_cascade (before after : database) : database := after.

(** The keys without an action, by the table they refer to. *)
Definition refs_to_session_nodes : list foreign_key :=
  [fk "model_usage_events_session_node_id_session_nodes_id_fk" model_usage_table
     ModelUsage.sessionNodeId session_nodes_table;
   fk "session_events_session_node_id_session_nodes_id_fk" session_events_table
     SessionEvent.sessionNodeId session_nodes_table].

Definition refs_to_sessions : list foreign_key :=
  [fk "session_nodes_root_session_id_sessions_id_fk" session_nodes_table
     (fun r => Some (SessionNode.rootSessionId r)) sessions_table;
   fk "model_usage_events_session_id_sessions_id_fk" model_usage_table
     (fun r => Some (ModelUsage.sessionId r)) sessions_table;
   fk "session_events_session_id_sessions_id_fk" session_events_table
     (fun r => Some (SessionEvent.sessionId r)) sessions_table].

Definition refs_to_agent_routes : list foreign_key :=
  [fk "route_targets_route_id_agent_routes_id_fk" route_targets_table
     (fun r => Some (RouteTarget.routeId r)) agent_routes_table;
   fk "session_bindings_route_id_agent_routes_id_fk" session_bindings_table
     (fun r => Some (SessionBinding.routeId r)) agent_routes_table;
   fk "operation_bindings_route_id_agent_routes_id_fk" operation_bindings_table
     (fun r => Some (OperationBinding.routeId r)) agent_routes_table;
   fk "sessions_route_id_agent_routes_id_fk" sessions_table Session.routeId agent_routes_table].

Definition refs_to_schedule_runs : list foreign_key :=
  [fk "sessions_schedule_run_id_schedule_runs_id_fk" sessions_table Session.scheduleRunId
     schedule_runs_table].

Definition refs_to_schedule_versions : list foreign_key :=
  [fk "schedule_runs_schedule_version_id_schedule_versions_id_fk" schedule_runs_table
     (fun r => Some (ScheduleRun.scheduleVersionId r)) schedule_versions_table].

Definition refs_to_deployments : list foreign_key :=
  [fk "project_scheduler_targets_deployment_id_deployments_id_fk" scheduler_targets_table
     (fun r => Some (SchedulerTarget.deploymentId r)) deployments_table;
   fk "schedule_runs_deployment_id_deployments_id_fk" schedule_runs_table
     (fun r => Some (ScheduleRun.deploymentId r)) deployments_table;
   fk "route_targets_deployment_id_deployments_id_fk" route_targets_table
     (fun r => Some (RouteTarget.deploymentId r)) deployments_table;
   fk "session_bindings_deployment_id_deployments_id_fk" session_bindings_table
     (fun r => Some (SessionBinding.deploymentId r)) deployments_table;
   fk "operation_bindings_deployment_id_deployments_id_fk" operation_bindings_table
     (fun r => Some (OperationBinding.deploymentId r)) deployments_table;
   fk "session_nodes_started_deployment_id_deployments_id_fk" session_nodes_table
     (fun r => Some (SessionNode.startedDeploymentId r)) deployments_table;
   fk "session_nodes_last_observed_deployment_id_deployments_id_fk" session_nodes_table
     (fun r => Some (SessionNode.lastObservedDeploymentId r)) deployments_table;
   fk "session_events_observed_deployment_id_deployments_id_fk" session_events_table
     SessionEvent.observedDeploymentId deployments_table].

Definition refs_to_releases : list foreign_key :=
  [fk "deployments_release_id_releases_id_fk" deployments_table
     (fun r => Some (Deployment.releaseId r)) releases_table;
   fk "schedule_runs_release_id_releases_id_fk" schedule_runs_table
     (fun r => Some (ScheduleRun.releaseId r)) releases_table].

Definition refs_to_source_revisions : list foreign_key :=
  [fk "source_files_revision_id_source_revisions_id_fk" source_files_table
     (fun r => Some (SourceFile.revisionId r)) source_revisions_table;
   fk "releases_source_revision_id_source_revisions_id_fk" releases_table
     (fun r => Some (Release.sourceRevisionId r)) source_revisions_table].

Definition refs_to_projects : list foreign_key :=
  [fk "secrets_project_id_projects_id_fk" secrets_table (fun r => Some (Secret.projectId r)) projects_table;
   fk "jobs_project_id_projects_id_fk" jobs_table (fun r => Some (Job.projectId r)) projects_table;
   fk "schedules_project_id_projects_id_fk" schedules_table
     (fun r => Some (Schedule.projectId r)) projects_table;
   fk "source_revisions_project_id_projects_id_fk" source_revisions_table
     (fun r => Some (SourceRevision.projectId r)) projects_table;
   fk "releases_project_id_projects_id_fk" releases_table
     (fun r => Some (Release.projectId r)) projects_table;
   fk "deployments_project_id_projects_id_fk" deployments_table
     (fun r => Some (Deployment.projectId r)) projects_table;
   fk "agent_routes_project_id_projects_id_fk" agent_routes_table
     (fun r => Some (AgentRoute.projectId r)) projects_table;
   fk "session_bindings_project_id_projects_id_fk" session_bindings_table
     (fun r => Some (SessionBinding.projectId r)) projects_table;
   fk "operation_bindings_project_id_projects_id_fk" operation_bindings_table
     (fun r => Some (OperationBinding.projectId r)) projects_table;
   fk "sessions_project_id_projects_id_fk" sessions_table
     (fun r => Some (Session.projectId r)) projects_table;
   fk "session_nodes_project_id_projects_id_fk" session_nodes_table
     (fun r => Some (SessionNode.projectId r)) projects_table;
   fk "logs_project_id_projects_id_fk" logs_table (fun r => Some (Log.projectId r)) projects_table].

(** The keys with an action, by the table they refer to, in turn. *)
Definition cascade_session (before after : database) : database :=
  cascade_to schedule_run_sessions_table (fun r => Some (ScheduleRunSession.sessionId r))
    sessions_table before after.

Definition cascade_schedule_run (before after : database) : database :=
  cascade_to schedule_run_sessions_table (fun r => Some (ScheduleRunSession.scheduleRunId r))
    schedule_runs_table before after.

Definition cascade_project_schedule (before after : database) : database :=
  let after := cascade_to schedule_versions_table (fun r => Some (ScheduleVersion.scheduleId r))
                 project_schedules_table before after in
  let after := cascade_to schedule_runs_table (fun r => Some (ScheduleRun.scheduleId r))
                 project_schedules_table before after in
  cascade_schedule_run before after.

Definition unset_node_started (r : SessionNode.session_node_row) : SessionNode.session_node_row :=
  r <| SessionNode.startedRuntimeInstanceId := None |>.
Definition unset_node_observed (r : SessionNode.session_node_row) : SessionNode.session_node_row :=
  r <| SessionNode.lastObservedRuntimeInstanceId := None |>.
Definition unset_event_observed (r : SessionEvent.session_event_row) : SessionEvent.session_event_row :=
  r <| SessionEvent.observedRuntimeInstanceId := None |>.
Definition unset_lease_instance (r : ActivationLease.activation_lease_row)
    : ActivationLease.activation_lease_row :=
  r <| ActivationLease.runtimeInstanceId := None |>.

Definition cascade_deployment (before after : database) : database :=
  let after := cascade_to activation_leases_table (fun r => Some (ActivationLease.deploymentId r))
                 deployments_table before after in
  let after := cascade_to runtime_instances_table (fun r => Some (RuntimeInstance.deploymentId r))
                 deployments_table before after in
  let after := set_null activation_leases_table ActivationLease.runtimeInstanceId unset_lease_instance
                 runtime_instances_table before after in
  let after := set_null session_nodes_table SessionNode.startedRuntimeInstanceId unset_node_started
                 runtime_instances_table before after in
  let after := set_null session_nodes_table SessionNode.lastObservedRuntimeInstanceId unset_node_observed
                 runtime_instances_table before after in
  set_null session_events_table SessionEvent.observedRuntimeInstanceId unset_event_observed
    runtime_instances_table before after.

Definition cascade_source_revision (before after : database) : database :=
  cascade_to schedule_versions_table (fun r => Some (ScheduleVersion.sourceRevisionId r))
    source_revisions_table before after.

Definition cascade_project (before after : database) : database :=
  let after := cascade_to project_schedules_table (fun r => Some (ProjectSchedule.projectId r))
                 projects_table before after in
  cascade_to scheduler_targets_table (fun r => Some (SchedulerTarget.projectId r))
    projects_table before after.

(** ** The deletion *)

(** [select({ id }).from(t).where(eq(t.projectId, projectId))] *)
Definition ids_of {R} (t : database -> gmap string R) (idf project : R -> string) (projectId : string)
    : Tx (list string) :=
  read (fun d => idf <$> select_where (fun r => bool_decide (project r = projectId)) (t d)).

(** [eq(column, value)] *)
Definition by_column {R} (column : R -> string) (value : string) (r : R) : bool :=
  bool_decide (column r = value).

Definition delete_by {K R} `{Countable K} (T : table K R) (column : R -> string) (value : string)
    (cascade : database -> database -> database) (refs : list foreign_key) : Tx unit :=
  delete_referenced T (by_column column value) cascade refs.

(** Its statements in their order, in groups. *)
Definition delete_sessions (projectId : string) : Tx unit :=
  delete_by logs_table Log.projectId projectId no_cascade [] ;;
  relatedSessions <- ids_of sessions Session.id Session.projectId projectId ;;
  for_m relatedSessions (fun session =>
    delete_by model_usage_table ModelUsage.sessionId session no_cascade [] ;;
    delete_by session_events_table SessionEvent.sessionId session no_cascade []) ;;
  delete_by session_nodes_table SessionNode.projectId projectId no_cascade refs_to_session_nodes ;;
  delete_by sessions_table Session.projectId projectId cascade_session refs_to_sessions.

Definition delete_routes (projectId : string) : Tx unit :=
  relatedRoutes <- ids_of agentRoutes AgentRoute.id AgentRoute.projectId projectId ;;
  delete_by session_bindings_table SessionBinding.projectId projectId no_cascade [] ;;
  delete_by operation_bindings_table OperationBinding.projectId projectId no_cascade [] ;;
  for_m relatedRoutes (fun route =>
    delete_by route_targets_table RouteTarget.routeId route no_cascade []) ;;
  delete_by agent_routes_table AgentRoute.projectId projectId no_cascade refs_to_agent_routes.

Definition delete_schedules (projectId : string) : Tx unit :=
  relatedProjectSchedules <-
    ids_of projectSchedules ProjectSchedule.id ProjectSchedule.projectId projectId ;;
  for_m relatedProjectSchedules (fun schedule =>
    delete_by schedule_runs_table ScheduleRun.scheduleId schedule cascade_schedule_run
      refs_to_schedule_runs ;;
    delete_by schedule_versions_table ScheduleVersion.scheduleId schedule no_cascade
      refs_to_schedule_versions) ;;
  delete_by scheduler_targets_table SchedulerTarget.projectId projectId no_cascade [] ;;
  delete_by project_schedules_table ProjectSchedule.projectId projectId cascade_project_schedule
    (refs_to_schedule_versions ++ refs_to_schedule_runs)%list.

Definition delete_releases (projectId : string) : Tx unit :=
  delete_by deployments_table Deployment.projectId projectId cascade_deployment refs_to_deployments ;;
  delete_by releases_table Release.projectId projectId no_cascade refs_to_releases ;;
  relatedRevisions <-
    ids_of sourceRevisions SourceRevision.id SourceRevision.projectId projectId ;;
  for_m relatedRevisions (fun revision =>
    delete_by source_files_table SourceFile.revisionId revision no_cascade []) ;;
  delete_by source_revisions_table SourceRevision.projectId projectId cascade_source_revision
    (refs_to_source_revisions ++ refs_to_schedule_versions)%list.

Definition delete_project_row (projectId : string) : Tx bool :=
  delete_by schedules_table Schedule.projectId projectId no_cascade [] ;;
  delete_by jobs_table Job.projectId projectId no_cascade [] ;;
  delete_by secrets_table Secret.projectId projectId no_cascade [] ;;
  deleted <- ids_of projects Project.id Project.id projectId ;;
  delete_by projects_table Project.id projectId cascade_project refs_to_projects ;;
  ret (0 <? length deleted)%nat.

Definition deleteProject (projectId : string) : Tx bool :=
  transaction (
    delete_sessions projectId ;;
    delete_routes projectId ;;
    delete_schedules projectId ;;
    delete_releases projectId ;;
    delete_project_row projectId).

(** ** What is left

    A row is the project's by its own column, or by the row it hangs from: a
    session, a route, a schedule, a deployment, a revision. *)
Definition owned {R} (project : R -> string) (t : gmap string R) (projectId id : string) : bool :=
  match t !! id with Some r => bool_decide (project r = projectId) | None => false end.

Definition kept {K R} `{Countable K} (mine : R -> bool) (t : gmap K R) : gmap K R :=
  base.filter (fun kr => mine kr.2 = false) t.

Section Owners.
Context (p : string) (d : database).

Definition session_mine : string -> bool := owned Session.projectId (sessions d) p.
Definition route_mine : string -> bool := owned AgentRoute.projectId (agentRoutes d) p.
Definition schedule_mine : string -> bool := owned ProjectSchedule.projectId (projectSchedules d) p.
Definition deployment_mine : string -> bool := owned Deployment.projectId (deployments d) p.
Definition revision_mine : string -> bool := owned SourceRevision.projectId (sourceRevisions d) p.
Definition run_mine (id : string) : bool :=
  match scheduleRuns d !! id with Some r => schedule_mine (ScheduleRun.scheduleId r) | None => false end.

(** The tables once the first [n] of the deletion's steps are done: a step is a
    delete with what cascades from it, or a loop over the ids read before it. *)
Definition since {K R} `{Countable K} (k n : nat) (mine : R -> bool) (t : gmap K R) : gmap K R :=
  if (k <=? n)%nat then kept mine t else t.

Definition after_step (n : nat) : database := {|
  projects := since 19 n (by_column Project.id p) (projects d);
  jobs := since 17 n (by_column Job.projectId p) (jobs d);
  sourceRevisions := since 15 n (by_column SourceRevision.projectId p) (sourceRevisions d);
  sourceFiles := since 14 n (fun r => revision_mine (SourceFile.revisionId r)) (sourceFiles d);
  schedules := since 16 n (by_column Schedule.projectId p) (schedules d);
  releases := since 13 n (by_column Release.projectId p) (releases d);
  deployments := since 12 n (by_column Deployment.projectId p) (deployments d);
  projectSchedules := since 11 n (by_column ProjectSchedule.projectId p) (projectSchedules d);
  scheduleVersions := since 9 n (fun r => schedule_mine (ScheduleVersion.scheduleId r)) (scheduleVersions d);
  projectSchedulerTargets := since 10 n (by_column SchedulerTarget.projectId p) (projectSchedulerTargets d);
  scheduleRuns := since 9 n (fun r => schedule_mine (ScheduleRun.scheduleId r)) (scheduleRuns d);
  runtimeInstances := since 12 n (fun r => deployment_mine (RuntimeInstance.deploymentId r)) (runtimeInstances d);
  activationLeases := since 12 n (fun r => deployment_mine (ActivationLease.deploymentId r)) (activationLeases d);
  agentRoutes := since 8 n (by_column AgentRoute.projectId p) (agentRoutes d);
  routeTargets := since 7 n (fun r => route_mine (RouteTarget.routeId r)) (routeTargets d);
  sessionBindings := since 5 n (by_column SessionBinding.projectId p) (sessionBindings d);
  operationBindings := since 6 n (by_column OperationBinding.projectId p) (operationBindings d);
  sessions := since 4 n (by_column Session.projectId p) (sessions d);
  scheduleRunSessions := since 9 n (fun r => run_mine (ScheduleRunSession.scheduleRunId r))
    (since 4 n (fun r => session_mine (ScheduleRunSession.sessionId r)) (scheduleRunSessions d));
  sessionNodes := since 3 n (by_column SessionNode.projectId p) (sessionNodes d);
  modelUsageEvents := since 2 n (fun r => session_mine (ModelUsage.sessionId r)) (modelUsageEvents d);
  sessionEvents := since 2 n (fun r => session_mine (SessionEvent.sessionId r)) (sessionEvents d);
  logs := since 1 n (by_column Log.projectId p) (logs d);
  users := users d;
  teams := teams d;
  gitCredentials := gitCredentials d;
  sourcePreflights := sourcePreflights d;
  secrets := since 18 n (by_column Secret.projectId p) (secrets d)
|}.
End Owners.

(** The tables without the project: no row of it is left, and every other row
    is as it was. *)
Definition without_project (p : string) (d : database) : database := {|
  projects := kept (by_column Project.id p) (projects d);
  jobs := kept (by_column Job.projectId p) (jobs d);
  sourceRevisions := kept (by_column SourceRevision.projectId p) (sourceRevisions d);
  sourceFiles := kept (fun r => revision_mine p d (SourceFile.revisionId r)) (sourceFiles d);
  schedules := kept (by_column Schedule.projectId p) (schedules d);
  releases := kept (by_column Release.projectId p) (releases d);
  deployments := kept (by_column Deployment.projectId p) (deployments d);
  projectSchedules := kept (by_column ProjectSchedule.projectId p) (projectSchedules d);
  scheduleVersions := kept (fun r => schedule_mine p d (ScheduleVersion.scheduleId r)) (scheduleVersions d);
  projectSchedulerTargets := kept (by_column SchedulerTarget.projectId p) (projectSchedulerTargets d);
  scheduleRuns := kept (fun r => schedule_mine p d (ScheduleRun.scheduleId r)) (scheduleRuns d);
  runtimeInstances := kept (fun r => deployment_mine p d (RuntimeInstance.deploymentId r)) (runtimeInstances d);
  activationLeases := kept (fun r => deployment_mine p d (ActivationLease.deploymentId r)) (activationLeases d);
  agentRoutes := kept (by_column AgentRoute.projectId p) (agentRoutes d);
  routeTargets := kept (fun r => route_mine p d (RouteTarget.routeId r)) (routeTargets d);
  sessionBindings := kept (by_column SessionBinding.projectId p) (sessionBindings d);
  operationBindings := kept (by_column OperationBinding.projectId p) (operationBindings d);
  sessions := kept (by_column Session.projectId p) (sessions d);
  scheduleRunSessions := kept (fun r => run_mine p d (ScheduleRunSession.scheduleRunId r))
    (kept (fun r => session_mine p d (ScheduleRunSession.sessionId r)) (scheduleRunSessions d));
  sessionNodes := kept (by_column SessionNode.projectId p) (sessionNodes d);
  modelUsageEvents := kept (fun r => session_mine p d (ModelUsage.sessionId r)) (modelUsageEvents d);
  sessionEvents := kept (fun r => session_mine p d (SessionEvent.sessionId r)) (sessionEvents d);
  logs := kept (by_column Log.projectId p) (logs d);
  users := users d;
  teams := teams d;
  gitCredentials := gitCredentials d;
  sourcePreflights := sourcePreflights d;
  secrets := kept (by_column Secret.projectId p) (secrets d)
|}.

(** A key of the rows that are not the project's never leads to one that is. *)
Definition apart {K R R'} `{Countable K} (t : gmap K R) (mine : R -> bool) (col : R -> option string)
    (t' : gmap string R') (mine' : R' -> bool) : Prop :=
  forall k r j r', t !! k = Some r -> mine r = false -> col r = Some j -> t' !! j = Some r' ->
    mine' r' = false.

(** No row of another project refers to the project's rows. *)
Record unreferenced (p : string) (d : database) : Prop := {
  un_usage_node : apart (modelUsageEvents d) (fun r => session_mine p d (ModelUsage.sessionId r))
    ModelUsage.sessionNodeId (sessionNodes d) (by_column SessionNode.projectId p);
  un_event_node : apart (sessionEvents d) (fun r => session_mine p d (SessionEvent.sessionId r))
    SessionEvent.sessionNodeId (sessionNodes d) (by_column SessionNode.projectId p);
  un_node_root : apart (sessionNodes d) (by_column SessionNode.projectId p)
    (fun r => Some (SessionNode.rootSessionId r)) (sessions d) (by_column Session.projectId p);
  un_binding_route : apart (sessionBindings d) (by_column SessionBinding.projectId p)
    (fun r => Some (SessionBinding.routeId r)) (agentRoutes d) (by_column AgentRoute.projectId p);
  un_operation_route : apart (operationBindings d) (by_column OperationBinding.projectId p)
    (fun r => Some (OperationBinding.routeId r)) (agentRoutes d) (by_column AgentRoute.projectId p);
  un_session_route : apart (sessions d) (by_column Session.projectId p) Session.routeId
    (agentRoutes d) (by_column AgentRoute.projectId p);
  un_session_run : apart (sessions d) (by_column Session.projectId p) Session.scheduleRunId
    (scheduleRuns d) (fun r => schedule_mine p d (ScheduleRun.scheduleId r));
  un_run_version : forall k r v, scheduleRuns d !! k = Some r ->
    scheduleVersions d !! ScheduleRun.scheduleVersionId r = Some v ->
    schedule_mine p d (ScheduleVersion.scheduleId v) = true ->
    ScheduleRun.scheduleId r = ScheduleVersion.scheduleId v;
  un_target_deployment : apart (projectSchedulerTargets d) (by_column SchedulerTarget.projectId p)
    (fun r => Some (SchedulerTarget.deploymentId r)) (deployments d) (by_column Deployment.projectId p);
  un_run_deployment : apart (scheduleRuns d) (fun r => schedule_mine p d (ScheduleRun.scheduleId r))
    (fun r => Some (ScheduleRun.deploymentId r)) (deployments d) (by_column Deployment.projectId p);
  un_route_deployment : apart (routeTargets d) (fun r => route_mine p d (RouteTarget.routeId r))
    (fun r => Some (RouteTarget.deploymentId r)) (deployments d) (by_column Deployment.projectId p);
  un_binding_deployment : apart (sessionBindings d) (by_column SessionBinding.projectId p)
    (fun r => Some (SessionBinding.deploymentId r)) (deployments d) (by_column Deployment.projectId p);
  un_operation_deployment : apart (operationBindings d) (by_column OperationBinding.projectId p)
    (fun r => Some (OperationBinding.deploymentId r)) (deployments d) (by_column Deployment.projectId p);
  un_node_started : apart (sessionNodes d) (by_column SessionNode.projectId p)
    (fun r => Some (SessionNode.startedDeploymentId r)) (deployments d) (by_column Deployment.projectId p);
  un_node_observed : apart (sessionNodes d) (by_column SessionNode.projectId p)
    (fun r => Some (SessionNode.lastObservedDeploymentId r)) (deployments d)
    (by_column Deployment.projectId p);
  un_event_deployment : apart (sessionEvents d) (fun r => session_mine p d (SessionEvent.sessionId r))
    SessionEvent.observedDeploymentId (deployments d) (by_column Deployment.projectId p);
  un_lease_instance : apart (activationLeases d)
    (fun r => deployment_mine p d (ActivationLease.deploymentId r)) ActivationLease.runtimeInstanceId
    (runtimeInstances d) (fun r => deployment_mine p d (RuntimeInstance.deploymentId r));
  un_node_started_instance : apart (sessionNodes d) (by_column SessionNode.projectId p)
    SessionNode.startedRuntimeInstanceId (runtimeInstances d)
    (fun r => deployment_mine p d (RuntimeInstance.deploymentId r));
  un_node_observed_instance : apart (sessionNodes d) (by_column SessionNode.projectId p)
    SessionNode.lastObservedRuntimeInstanceId (runtimeInstances d)
    (fun r => deployment_mine p d (RuntimeInstance.deploymentId r));
  un_event_instance : apart (sessionEvents d) (fun r => session_mine p d (SessionEvent.sessionId r))
    SessionEvent.observedRuntimeInstanceId (runtimeInstances d)
    (fun r => deployment_mine p d (RuntimeInstance.deploymentId r));
  un_deployment_release : apart (deployments d) (by_column Deployment.projectId p)
    (fun r => Some (Deployment.releaseId r)) (releases d) (by_column Release.projectId p);
  un_run_release : apart (scheduleRuns d) (fun r => schedule_mine p d (ScheduleRun.scheduleId r))
    (fun r => Some (ScheduleRun.releaseId r)) (releases d) (by_column Release.projectId p);
  un_release_revision : apart (releases d) (by_column Release.projectId p)
    (fun r => Some (Release.sourceRevisionId r)) (sourceRevisions d)
    (by_column SourceRevision.projectId p);
  un_version_revision : apart (scheduleVersions d)
    (fun r => schedule_mine p d (ScheduleVersion.scheduleId r))
    (fun r => Some (ScheduleVersion.sourceRevisionId r)) (sourceRevisions d)
    (by_column SourceRevision.projectId p)
}.

(** ** The statements of the deletion *)

Section Kept.
Context {K R : Type} `{Countable K}.
Implicit Types (t : gmap K R).

Lemma kept_lookup (mine : R -> bool) t k r :
  kept mine t !! k = Some r <-> t !! k = Some r /\ mine r = false.
Proof. unfold kept. by rewrite map_lookup_filter_Some. Qed.

Lemma kept_ext (mine mine' : R -> bool) t :
  (forall k r, t !! k = Some r -> mine r = mine' r) -> kept mine t = kept mine' t.
Proof. intros Hext. apply map_filter_ext. intros k r Hk. simpl. by rewrite (Hext k r Hk). Qed.

Lemma kept_all (mine : R -> bool) t : (forall k r, t !! k = Some r -> mine r = false) -> kept mine t = t.
Proof. intros Hall. apply map_filter_id. intros k r Hk. simpl. by eapply Hall. Qed.

Lemma kept_kept (mine mine' : R -> bool) t : kept mine' (kept mine t) = kept (fun r => mine r || mine' r) t.
Proof.
  apply map_eq. intros k. apply option_eq. intros r. rewrite !kept_lookup, orb_false_iff. tauto.
Qed.

(** The rows of a column's values, one value at a time. *)
Lemma kept_cons (column : R -> string) id ids t :
  kept (fun r => bool_decide (column r ∈ ids)) (kept (by_column column id) t) =
  kept (fun r => bool_decide (column r ∈ id :: ids)) t.
Proof.
  rewrite kept_kept. apply kept_ext. intros k r _. unfold by_column.
  repeat case_bool_decide; set_solver.
Qed.

Lemma kept_nil (column : R -> string) t : kept (fun r => bool_decide (column r ∈ [])) t = t.
Proof. apply kept_all. intros k r _. by apply bool_decide_eq_false, not_elem_of_nil. Qed.

Lemma update_rows_none (p : R -> bool) f t :
  (forall k r, t !! k = Some r -> p r = false) -> update_rows p f t = t.
Proof.
  intros Hp. apply map_eq. intros k. rewrite update_rows_lookup.
  destruct (t !! k) as [r|] eqn:Hk; [|done]. simpl. by rewrite (Hp k r Hk).
Qed.
End Kept.

(** The keys of the rows of a project, and the rows that hang from them. *)
Lemma owned_ids {R} (idf project : R -> string) p (t : gmap string R) id :
  (forall k r, t !! k = Some r -> idf r = k) ->
  owned project t p id = bool_decide (id ∈ idf <$> select_where (by_column project p) t).
Proof.
  intros Hkey. unfold owned. symmetry. destruct (t !! id) as [r|] eqn:Hk.
  - apply bool_decide_ext. rewrite list_elem_of_fmap. split.
    + intros (r' & -> & (Hp%bool_decide_eq_true & k & Hk')%elem_of_select).
      pose proof (Hkey _ _ Hk') as <-. congruence.
    + intros Hp. exists r. split; [symmetry; by apply Hkey|]. apply elem_of_select.
      split; [by apply bool_decide_eq_true|by exists id].
  - apply bool_decide_eq_false. intros (r' & -> & (_ & k & Hk')%elem_of_select)%list_elem_of_fmap.
    pose proof (Hkey _ _ Hk') as <-. congruence.
Qed.

Lemma delete_referenced_ok {K R} `{Countable K} (T : table K R) p cascade refs s d :
  cascade (st_db s) (tbl_set T (kept p) (st_db s)) = d ->
  Forall (fun ref : foreign_key => ref (st_db s) d = None) refs ->
  delete_referenced T p cascade refs s = (Ok tt, s <| st_db := d |>).
Proof.
  intros <- Hrefs. unfold delete_referenced, delete_where, write, modify, bind, gets. simpl.
  set (after := cascade _ _) in *. replace (omap _ refs) with (@nil string); [done|].
  induction Hrefs as [|ref refs Hr _ IH]; [done|]. simpl. by rewrite Hr.
Qed.

Section Checks.
Context {K R R' : Type} `{Countable K} (T : table K R) (T' : table string R') (col : R -> option string).
Context (before after : database).

Lemma fk_none name :
  (forall k r j r', tbl T after !! k = Some r -> col r = Some j -> tbl T' before !! j = Some r' ->
     is_Some (tbl T' after !! j)) -> fk name T col T' before after = None.
Proof.
  intros Hall. unfold fk. destruct (existsb _ _) eqn:He; [|done].
  apply existsb_exists in He as (r & Hr%list_elem_of_In & Hd). apply elem_of_rows in Hr as (k & Hk).
  unfold refers_to_deleted in Hd. destruct (col r) as [j|] eqn:Hj; [|done].
  apply andb_true_iff in Hd as [[r' Hr']%bool_decide_eq_true Hgone%bool_decide_eq_true].
  destruct (Hall k r j r' Hk Hj Hr') as [x Hx]. congruence.
Qed.

(** The referring rows are those another project keeps. *)
Lemma fk_apart name (t : gmap K R) mine mine' :
  apart t mine col (tbl T' before) mine' -> tbl T after = kept mine t ->
  tbl T' after = kept mine' (tbl T' before) -> fk name T col T' before after = None.
Proof.
  intros Hap Ht Ht'. apply fk_none. intros k r j r'. rewrite Ht, Ht', kept_lookup. intros [Hk Hm] Hj Hr'.
  exists r'. apply kept_lookup. split; [done|]. by eapply Hap.
Qed.

Lemma fk_same name : tbl T' after = tbl T' before -> fk name T col T' before after = None.
Proof. intros Heq. apply fk_none. intros k r j r' _ _ Hr'. rewrite Heq. eauto. Qed.

(** No row that is left refers to one that is gone. *)
Lemma refers_none (t : gmap K R) mine mine' k r :
  apart t mine col (tbl T' before) mine' -> tbl T' after = kept mine' (tbl T' before) ->
  kept mine t !! k = Some r -> refers_to_deleted col T' before after r = false.
Proof.
  intros Hap Ht' [Hk Hm]%kept_lookup. unfold refers_to_deleted. destruct (col r) as [j|] eqn:Hj; [|done].
  rewrite Ht'. destruct (tbl T' before !! j) as [r'|] eqn:Hr'; [|by rewrite bool_decide_eq_false_2 by by intros []].
  rewrite (bool_decide_eq_false_2 (kept _ _ !! j = None)); [by rewrite andb_false_r|].
  apply not_eq_None_Some. exists r'. apply kept_lookup. split; [done|]. by eapply Hap.
Qed.

(** A row that refers to deleted ones hangs from a row of the project. *)
Lemma refers_owned project p r j :
  tbl T' after = kept (by_column project p) (tbl T' before) -> col r = Some j ->
  refers_to_deleted col T' before after r = owned project (tbl T' before) p j.
Proof.
  intros Ht' Hj. unfold refers_to_deleted, owned. rewrite Hj, Ht'.
  destruct (tbl T' before !! j) as [r'|] eqn:Hr'; [|by rewrite bool_decide_eq_false_2 by by intros []].
  rewrite (bool_decide_eq_true_2 (is_Some (Some r'))) by eauto. simpl. fold (by_column project p r').
  destruct (by_column project p r') eqn:Hm.
  - apply bool_decide_eq_true. apply eq_None_not_Some. intros [x [Hx Hf]%kept_lookup].
    rewrite Hr' in Hx. injection Hx as <-. congruence.
  - apply bool_decide_eq_false, not_eq_None_Some. exists r'. by apply kept_lookup.
Qed.

(** Nothing follows a delete that no row refers to. *)
Lemma cascade_none :
  (forall f d, f (tbl T d) = tbl T d -> tbl_set T f d = d) ->
  (forall k r, tbl T after !! k = Some r -> refers_to_deleted col T' before after r = false) ->
  cascade_to T col T' before after = after.
Proof. intros Hset Hr. apply Hset. by apply kept_all. Qed.

Lemma set_null_none unset :
  (forall f d, f (tbl T d) = tbl T d -> tbl_set T f d = d) ->
  (forall k r, tbl T after !! k = Some r -> refers_to_deleted col T' before after r = false) ->
  set_null T col unset T' before after = after.
Proof. intros Hset Hr. apply Hset. by apply update_rows_none. Qed.

Lemma refers_same r : tbl T' after = tbl T' before -> refers_to_deleted col T' before after r = false.
Proof.
  intros Heq. unfold refers_to_deleted. destruct (col r) as [j|]; [|done]. rewrite Heq.
  destruct (tbl T' before !! j); [by rewrite andb_false_r|done].
Qed.

(** A row that hangs from another project's. *)
Lemma refers_other project p r j :
  tbl T' after = kept (by_column project p) (tbl T' before) -> col r = Some j ->
  owned project (tbl T' before) p j = false -> refers_to_deleted col T' before after r = false.
Proof. intros Ht' Hj Ho. by rewrite (refers_owned project p r j Ht' Hj). Qed.
End Checks.

(** An update of a table that leaves it as it is. *)
Ltac same_table :=
  let f := fresh "f" in let d := fresh "d" in let Hf := fresh "Hf" in
  intros f d Hf; destruct d; cbn in Hf |- *; unfold set_field; cbn; by rewrite Hf.

(** Updates of a table that agree on it. *)
Ltac same_updates :=
  let f := fresh "f" in let g := fresh "g" in let d := fresh "d" in let Hf := fresh "Hf" in
  intros f g d Hf; destruct d; cbn in Hf |- *; unfold set_field; cbn; by rewrite Hf.

(** What follows a delete of a project's rows: those that hang from them. *)
Lemma cascade_owned {K R R'} `{Countable K} (T : table K R) (T' : table string R') (column : R -> string)
    project p before after :
  (forall f g d, f (tbl T d) = g (tbl T d) -> tbl_set T f d = tbl_set T g d) ->
  tbl T' after = kept (by_column project p) (tbl T' before) ->
  cascade_to T (fun r => Some (column r)) T' before after =
  tbl_set T (kept (fun r => owned project (tbl T' before) p (column r))) after.
Proof.
  intros Hset Ht'. apply Hset, kept_ext. intros k r _. by apply (refers_owned T' _ before after project p).
Qed.

(** A delete of a state whose tables are [d]. *)
Lemma delete_by_ok {K R} `{Countable K} (T : table K R) column value cascade refs s d d' :
  cascade d (tbl_set T (kept (by_column column value)) d) = d' ->
  Forall (fun ref : foreign_key => ref d d' = None) refs ->
  delete_by T column value cascade refs (s <| st_db := d |>) = (Ok tt, s <| st_db := d' |>).
Proof. intros Hd Hrefs. exact (delete_referenced_ok T (by_column column value) cascade refs (s <| st_db := d |>) d' Hd Hrefs). Qed.

Lemma delete_by_plain {K R} `{Countable K} (T : table K R) column value s d :
  delete_by T column value no_cascade [] (s <| st_db := d |>) =
  (Ok tt, s <| st_db := tbl_set T (kept (by_column column value)) d |>).
Proof. reflexivity. Qed.

Lemma delete_session_rows ids s d :
  for_m ids (fun session =>
    delete_by model_usage_table ModelUsage.sessionId session no_cascade [] ;;
    delete_by session_events_table SessionEvent.sessionId session no_cascade []) (s <| st_db := d |>) =
  (Ok tt, s <| st_db :=
     d <| modelUsageEvents ::= kept (fun r => bool_decide (ModelUsage.sessionId r ∈ ids)) |>
       <| sessionEvents ::= kept (fun r => bool_decide (SessionEvent.sessionId r ∈ ids)) |> |>).
Proof.
  unfold for_m. revert d. induction ids as [|id ids IH]; intros d; cbn [fold_m].
  - unfold ret. f_equal. destruct d. unfold set_field. cbn. by rewrite !kept_nil.
  - rewrite (bind_step _ _ _ tt (s <| st_db :=
      d <| modelUsageEvents ::= kept (by_column ModelUsage.sessionId id) |>
        <| sessionEvents ::= kept (by_column SessionEvent.sessionId id) |> |>)) by reflexivity.
    rewrite IH. f_equal. unfold set_field. cbn. by rewrite !kept_cons.
Qed.

Lemma delete_route_rows ids s d :
  for_m ids (fun route => delete_by route_targets_table RouteTarget.routeId route no_cascade []) (s <| st_db := d |>) =
  (Ok tt, s <| st_db := d <| routeTargets ::= kept (fun r => bool_decide (RouteTarget.routeId r ∈ ids)) |> |>).
Proof.
  unfold for_m. revert d. induction ids as [|id ids IH]; intros d; cbn [fold_m].
  - unfold ret. f_equal. destruct d. unfold set_field. cbn. by rewrite kept_nil.
  - rewrite (bind_step _ _ _ _ _ (delete_by_plain _ _ _ _ _)), IH. f_equal.
    unfold set_field. cbn. by rewrite kept_cons.
Qed.

Lemma delete_revision_rows ids s d :
  for_m ids (fun revision => delete_by source_files_table SourceFile.revisionId revision no_cascade []) (s <| st_db := d |>) =
  (Ok tt, s <| st_db := d <| sourceFiles ::= kept (fun r => bool_decide (SourceFile.revisionId r ∈ ids)) |> |>).
Proof.
  unfold for_m. revert d. induction ids as [|id ids IH]; intros d; cbn [fold_m].
  - unfold ret. f_equal. destruct d. unfold set_field. cbn. by rewrite kept_nil.
  - rewrite (bind_step _ _ _ _ _ (delete_by_plain _ _ _ _ _)), IH. f_equal.
    unfold set_field. cbn. by rewrite kept_cons.
Qed.

(** What the deletion needs of the tables: each row of the tables other rows
    hang from is stored under its identifier, and no row of another project
    refers to the project's. *)
Record deletable (p : string) (d : database) : Prop := {
  de_sessions : keyed sessions_table d;
  de_routes : keyed agent_routes_table d;
  de_schedules : keyed project_schedules_table d;
  de_revisions : keyed source_revisions_table d;
  de_projects : keyed projects_table d;
  de_unreferenced : unreferenced p d
}.


Lemma kept_run_sessions mine mine' d :
  (forall k r, scheduleRunSessions d !! k = Some r -> mine r = mine' r) ->
  d <| scheduleRunSessions ::= kept mine |> = d <| scheduleRunSessions ::= kept mine' |>.
Proof. intros Hext. unfold set_field. cbn. f_equal. by apply kept_ext. Qed.

(** The runs of the schedules [ids], and the sessions of runs. *)
Definition run_in (ids : list string) (t : gmap string ScheduleRun.schedule_run_row) (id : string) : bool :=
  match t !! id with Some r => bool_decide (ScheduleRun.scheduleId r ∈ ids) | None => false end.

(** The three tables the loop deletes from, all others kept. *)
Definition set_schedules runs links versions (d : database) : database := {|
  projects := projects d; jobs := jobs d; sourceRevisions := sourceRevisions d;
  sourceFiles := sourceFiles d; schedules := schedules d; releases := releases d;
  deployments := deployments d; projectSchedules := projectSchedules d;
  scheduleVersions := versions; projectSchedulerTargets := projectSchedulerTargets d;
  scheduleRuns := runs; runtimeInstances := runtimeInstances d;
  activationLeases := activationLeases d; agentRoutes := agentRoutes d;
  routeTargets := routeTargets d; sessionBindings := sessionBindings d;
  operationBindings := operationBindings d; sessions := sessions d; scheduleRunSessions := links;
  sessionNodes := sessionNodes d; modelUsageEvents := modelUsageEvents d;
  sessionEvents := sessionEvents d; logs := logs d; users := users d; teams := teams d;
  gitCredentials := gitCredentials d; sourcePreflights := sourcePreflights d;
  secrets := secrets d
|}.

Definition without_schedule_rows (ids : list string) (d : database) : database :=
  set_schedules (kept (fun r => bool_decide (ScheduleRun.scheduleId r ∈ ids)) (scheduleRuns d))
    (kept (fun r => run_in ids (scheduleRuns d) (ScheduleRunSession.scheduleRunId r)) (scheduleRunSessions d))
    (kept (fun r => bool_decide (ScheduleVersion.scheduleId r ∈ ids)) (scheduleVersions d)) d.

(** One turn of the loop. *)
Definition without_schedule_row (id : string) (d : database) : database :=
  set_schedules (kept (by_column ScheduleRun.scheduleId id) (scheduleRuns d))
    (kept (fun r => owned ScheduleRun.scheduleId (scheduleRuns d) id (ScheduleRunSession.scheduleRunId r))
       (scheduleRunSessions d))
    (kept (by_column ScheduleVersion.scheduleId id) (scheduleVersions d)) d.

(** What the loop needs: no session refers to a run it deletes, and a run of
    another schedule to no version it deletes. *)
Definition schedules_clear (ids : list string) (d : database) : Prop :=
  (forall k r j run, sessions d !! k = Some r -> Session.scheduleRunId r = Some j ->
     scheduleRuns d !! j = Some run -> ScheduleRun.scheduleId run ∉ ids) /\
  (forall k run v, scheduleRuns d !! k = Some run ->
     scheduleVersions d !! ScheduleRun.scheduleVersionId run = Some v ->
     ScheduleVersion.scheduleId v ∈ ids -> ScheduleRun.scheduleId run = ScheduleVersion.scheduleId v).

Lemma schedules_clear_next id ids d :
  schedules_clear (id :: ids) d -> schedules_clear ids (without_schedule_row id d).
Proof.
  intros [Hs Hv]. split.
  - intros k r j run Hk Hj [Hr _]%kept_lookup. specialize (Hs k r j run Hk Hj Hr). set_solver.
  - intros k run v [Hr _]%kept_lookup [Hv' _]%kept_lookup Hin. eapply Hv; [done..|]. set_solver.
Qed.

Lemma delete_schedule_row id ids s d :
  schedules_clear (id :: ids) d ->
  (delete_by schedule_runs_table ScheduleRun.scheduleId id cascade_schedule_run refs_to_schedule_runs ;;
   delete_by schedule_versions_table ScheduleVersion.scheduleId id no_cascade refs_to_schedule_versions)
    (s <| st_db := d |>) = (Ok tt, s <| st_db := without_schedule_row id d |>).
Proof.
  intros [Hs Hv].
  set (d1 := d <| scheduleRuns ::= kept (by_column ScheduleRun.scheduleId id) |>
    <| scheduleRunSessions ::=
       kept (fun r => owned ScheduleRun.scheduleId (scheduleRuns d) id (ScheduleRunSession.scheduleRunId r)) |>).
  rewrite (bind_step _ _ _ tt (s <| st_db := d1 |>)).
  2: { apply (delete_by_ok schedule_runs_table _ _ _ _ s d).
    - unfold cascade_schedule_run, cascade_to. set (d0 := tbl_set schedule_runs_table _ _).
      apply (kept_run_sessions _ _ d0). intros k r _.
      by apply (refers_owned schedule_runs_table _ d d0 ScheduleRun.scheduleId id).
    - repeat constructor. apply fk_none. intros k r j run Hk Hj Hr. exists run. apply kept_lookup.
      split; [exact Hr|]. apply bool_decide_eq_false. intros Heq.
      apply (Hs k r j run Hk Hj Hr). rewrite Heq. by left. }
  apply (delete_by_ok schedule_versions_table _ _ _ _ s d1); [reflexivity|].
  repeat constructor. apply fk_none. intros k run j v [Hrun Hne]%kept_lookup [= <-] Hv'.
  exists v. apply kept_lookup. split; [exact Hv'|]. apply bool_decide_eq_false. intros Heq.
  apply bool_decide_eq_false in Hne. apply Hne. rewrite (Hv k run v Hrun Hv'); [done|]. rewrite Heq. by left.
Qed.

Lemma run_in_cons id ids t j :
  run_in (id :: ids) t j =
  owned ScheduleRun.scheduleId t id j || run_in ids (kept (by_column ScheduleRun.scheduleId id) t) j.
Proof.
  unfold run_in, owned. destruct (t !! j) as [r|] eqn:Hr.
  - destruct (by_column ScheduleRun.scheduleId id r) eqn:Hm; unfold by_column in Hm; rewrite Hm; simpl.
    + apply bool_decide_eq_true in Hm as <-. apply bool_decide_eq_true. by left.
    + apply bool_decide_eq_false in Hm. replace (kept _ t !! j) with (Some r).
      * apply bool_decide_ext. rewrite elem_of_cons. naive_solver.
      * symmetry. apply kept_lookup. split; [done|]. by apply bool_decide_eq_false.
  - replace (kept _ t !! j) with (@None ScheduleRun.schedule_run_row); [done|].
    symmetry. apply eq_None_not_Some. intros [x [Hx _]%kept_lookup]. congruence.
Qed.

Lemma without_schedule_rows_cons id ids d :
  without_schedule_rows ids (without_schedule_row id d) = without_schedule_rows (id :: ids) d.
Proof.
  destruct d. unfold without_schedule_rows, without_schedule_row, set_schedules. cbn. rewrite !kept_cons.
  f_equal. rewrite kept_kept. apply kept_ext. intros k r _. by rewrite run_in_cons.
Qed.

Lemma delete_schedule_rows ids s d :
  schedules_clear ids d ->
  for_m ids (fun schedule =>
    delete_by schedule_runs_table ScheduleRun.scheduleId schedule cascade_schedule_run
      refs_to_schedule_runs ;;
    delete_by schedule_versions_table ScheduleVersion.scheduleId schedule no_cascade
      refs_to_schedule_versions) (s <| st_db := d |>) =
  (Ok tt, s <| st_db := without_schedule_rows ids d |>).
Proof.
  unfold for_m. revert d. induction ids as [|id ids IH]; intros d Hclear; cbn [fold_m].
  - unfold ret. f_equal. destruct d. unfold without_schedule_rows, set_schedules. cbn. rewrite !kept_nil.
    rewrite kept_all; [done|]. intros k r _. unfold run_in.
    destruct (_ !! _); [|done]. by apply bool_decide_eq_false, not_elem_of_nil.
  - rewrite (bind_step _ _ _ _ _ (delete_schedule_row id ids s d Hclear)).
    rewrite IH by by apply schedules_clear_next. by rewrite without_schedule_rows_cons.
Qed.

(** ** The steps *)

Section Steps.
Context (p : string) (d : database) (s : store) (Hdel : deletable p d).
Let Hun : unreferenced p d := de_unreferenced p d Hdel.
Local Abbreviation after := (after_step p d).
Local Abbreviation at_step n := (s <| st_db := after n |>).

Lemma delete_step {K R} `{Countable K} (T : table K R) column cascade refs n :
  cascade (after n) (tbl_set T (kept (by_column column p)) (after n)) = after (S n) ->
  Forall (fun ref : foreign_key => ref (after n) (after (S n)) = None) refs ->
  delete_by T column p cascade refs (at_step n) = (Ok tt, at_step (S n)).
Proof. apply delete_by_ok. Qed.

Lemma step_1 : delete_by logs_table Log.projectId p no_cascade [] (at_step 0) = (Ok tt, at_step 1).
Proof. apply delete_step; [reflexivity|constructor]. Qed.

Lemma step_3 :
  delete_by session_nodes_table SessionNode.projectId p no_cascade refs_to_session_nodes (at_step 2) =
  (Ok tt, at_step 3).
Proof.
  apply delete_step; [reflexivity|]. repeat constructor; (eapply fk_apart; [|reflexivity..]); apply Hun.
Qed.

(** The rows that hang from the project's, deleted before. *)
Lemma owned_apart {K R R'} `{Countable K} (t : gmap K R) (column : R -> string) project
    (t' : gmap string R') :
  apart t (fun r => owned project t' p (column r)) (fun r => Some (column r)) t' (by_column project p).
Proof. intros k r j r' _ Hm [= <-] Hr'. unfold owned in Hm. by rewrite Hr' in Hm. Qed.

Lemma owned_apart_option {K R R'} `{Countable K} (t : gmap K R) (column : R -> option string) mine project
    (t' : gmap string R') :
  (forall r j, mine r = false -> column r = Some j -> owned project t' p j = false) ->
  apart t mine column t' (by_column project p).
Proof. intros Hm k r j r' _ Hr Hj Hr'. specialize (Hm r j Hr Hj). unfold owned in Hm. by rewrite Hr' in Hm. Qed.

Lemma step_4 :
  delete_by sessions_table Session.projectId p cascade_session refs_to_sessions (at_step 3) =
  (Ok tt, at_step 4).
Proof.
  apply delete_step.
  - unfold cascade_session. by rewrite (cascade_owned _ _ _ Session.projectId p); [|same_updates|].
  - repeat constructor; (eapply fk_apart; [|reflexivity..]); [apply Hun|apply owned_apart..].
Qed.

Lemma same_tables (r : result unit) d1 d2 : d1 = d2 -> (r, s <| st_db := d1 |>) = (r, s <| st_db := d2 |>).
Proof. by intros ->. Qed.

(** A loop over the ids read before it ends in the next step. *)
Lemma step_2 ids :
  (forall id, bool_decide (id ∈ ids) = session_mine p d id) ->
  for_m ids (fun session =>
    delete_by model_usage_table ModelUsage.sessionId session no_cascade [] ;;
    delete_by session_events_table SessionEvent.sessionId session no_cascade []) (at_step 1) =
  (Ok tt, at_step 2).
Proof.
  intros Hids. rewrite delete_session_rows. apply same_tables. unfold after_step, set_field. cbn -[since].
  f_equal; apply kept_ext; intros k r _; apply Hids.
Qed.

Lemma step_7 ids :
  (forall id, bool_decide (id ∈ ids) = route_mine p d id) ->
  for_m ids (fun route => delete_by route_targets_table RouteTarget.routeId route no_cascade []) (at_step 6) =
  (Ok tt, at_step 7).
Proof.
  intros Hids. rewrite delete_route_rows. apply same_tables. unfold after_step, set_field. cbn -[since].
  f_equal. apply kept_ext. intros k r _. apply Hids.
Qed.

Lemma step_8 :
  delete_by agent_routes_table AgentRoute.projectId p no_cascade refs_to_agent_routes (at_step 7) =
  (Ok tt, at_step 8).
Proof.
  apply delete_step; [reflexivity|]. repeat constructor; (eapply fk_apart; [|reflexivity..]).
  - apply owned_apart.
  - apply (un_binding_route p d Hun).
  - apply (un_operation_route p d Hun).
  - apply (un_session_route p d Hun).
Qed.

Lemma step_9 ids :
  (forall id, bool_decide (id ∈ ids) = schedule_mine p d id) ->
  for_m ids (fun schedule =>
    delete_by schedule_runs_table ScheduleRun.scheduleId schedule cascade_schedule_run
      refs_to_schedule_runs ;;
    delete_by schedule_versions_table ScheduleVersion.scheduleId schedule no_cascade
      refs_to_schedule_versions) (at_step 8) = (Ok tt, at_step 9).
Proof.
  intros Hids.
  assert (Hin : forall id, id ∈ ids <-> schedule_mine p d id = true).
  { intros id. rewrite <- Hids. by rewrite bool_decide_eq_true. }
  rewrite delete_schedule_rows.
  - apply same_tables. unfold without_schedule_rows, set_schedules, after_step. cbn -[since].
    f_equal; apply kept_ext; intros k r _; [apply Hids..|].
    unfold run_mine, run_in. destruct (_ !! _); [apply Hids|done].
  - split.
    + intros k r j run [Hk Hm]%kept_lookup Hj Hr Hbad%Hin.
      pose proof (un_session_run p d Hun k r j run Hk Hm Hj Hr). simpl in *. congruence.
    + intros k run v Hr Hv Hv'%Hin. by eapply (un_run_version p d Hun).
Qed.

Lemma step_11 :
  delete_by project_schedules_table ProjectSchedule.projectId p cascade_project_schedule
    (refs_to_schedule_versions ++ refs_to_schedule_runs)%list (at_step 10) = (Ok tt, at_step 11).
Proof.
  apply delete_step.
  - unfold cascade_project_schedule, cascade_schedule_run. set (gone := tbl_set project_schedules_table _ _).
    rewrite (cascade_none schedule_versions_table); [|same_table|].
    2: { intros k r [_ Hm]%kept_lookup. by eapply (refers_other _ _ _ _ ProjectSchedule.projectId p). }
    rewrite (cascade_none schedule_runs_table); [|same_table|].
    2: { intros k r [_ Hm]%kept_lookup. by eapply (refers_other _ _ _ _ ProjectSchedule.projectId p). }
    rewrite (cascade_none schedule_run_sessions_table); [reflexivity|same_table|].
    intros k r _. by apply refers_same.
  - repeat constructor; by apply fk_same.
Qed.

Lemma step_12 :
  delete_by deployments_table Deployment.projectId p cascade_deployment refs_to_deployments (at_step 11) =
  (Ok tt, at_step 12).
Proof.
  apply delete_step.
  - unfold cascade_deployment. set (gone := tbl_set deployments_table _ _).
    rewrite (cascade_owned activation_leases_table _ _ Deployment.projectId p); [|same_updates|done].
    rewrite (cascade_owned runtime_instances_table _ _ Deployment.projectId p); [|same_updates|done].
    set (a2 := tbl_set runtime_instances_table _ _). change a2 with (after 12).
    rewrite (set_null_none activation_leases_table); [|same_table|].
    2: { intros k r. eapply refers_none; [apply (un_lease_instance p d Hun)|reflexivity]. }
    rewrite (set_null_none session_nodes_table _ SessionNode.startedRuntimeInstanceId); [|same_table|].
    2: { intros k r. eapply refers_none; [apply (un_node_started_instance p d Hun)|reflexivity]. }
    rewrite (set_null_none session_nodes_table _ SessionNode.lastObservedRuntimeInstanceId); [|same_table|].
    2: { intros k r. eapply refers_none; [apply (un_node_observed_instance p d Hun)|reflexivity]. }
    apply (set_null_none session_events_table); [same_table|].
    intros k r. eapply refers_none; [apply (un_event_instance p d Hun)|reflexivity].
  - repeat constructor; (eapply fk_apart; [|reflexivity..]); apply Hun.
Qed.

Lemma step_13 :
  delete_by releases_table Release.projectId p no_cascade refs_to_releases (at_step 12) = (Ok tt, at_step 13).
Proof.
  apply delete_step; [reflexivity|]. repeat constructor; (eapply fk_apart; [|reflexivity..]); apply Hun.
Qed.

Lemma step_14 ids :
  (forall id, bool_decide (id ∈ ids) = revision_mine p d id) ->
  for_m ids (fun revision => delete_by source_files_table SourceFile.revisionId revision no_cascade []) (at_step 13) =
  (Ok tt, at_step 14).
Proof.
  intros Hids. rewrite delete_revision_rows. apply same_tables. unfold after_step, set_field. cbn -[since].
  f_equal. apply kept_ext. intros k r _. apply Hids.
Qed.

Lemma step_15 :
  delete_by source_revisions_table SourceRevision.projectId p cascade_source_revision
    (refs_to_source_revisions ++ refs_to_schedule_versions)%list (at_step 14) = (Ok tt, at_step 15).
Proof.
  apply delete_step.
  - unfold cascade_source_revision. rewrite (cascade_none schedule_versions_table); [reflexivity|same_table|].
    intros k r. eapply refers_none; [apply (un_version_revision p d Hun)|reflexivity].
  - repeat constructor; [..|by apply fk_same]; (eapply fk_apart; [|reflexivity..]); [apply owned_apart|apply Hun].
Qed.

(** The rows that refer to a project by its column. *)
Lemma project_apart {R} (t : gmap string R) (column : R -> string) :
  apart t (by_column column p) (fun r => Some (column r)) (projects d) (by_column Project.id p).
Proof.
  intros k r j r' _ Hm [= <-] Hr'. apply (de_projects p d Hdel) in Hr'. unfold by_column in *.
  simpl in Hr'. by rewrite Hr'.
Qed.

(** A row of another project. *)
Lemma refers_project {R} (column : R -> string) before gone r :
  tbl projects_table before = projects d -> tbl projects_table gone = kept (by_column Project.id p) (projects d) ->
  by_column column p r = false ->
  refers_to_deleted (fun r => Some (column r)) projects_table before gone r = false.
Proof.
  intros Hb Hg Hm. eapply (refers_other _ _ _ _ Project.id p); [by rewrite Hb|reflexivity|]. rewrite Hb.
  apply not_true_iff_false. unfold owned. destruct (projects d !! _) as [q|] eqn:Hq; [|done].
  intros Hid%bool_decide_eq_true. apply (de_projects p d Hdel) in Hq. simpl in Hq.
  apply bool_decide_eq_false in Hm. congruence.
Qed.

Lemma step_19 :
  delete_by projects_table Project.id p cascade_project refs_to_projects (at_step 18) = (Ok tt, at_step 19).
Proof.
  apply delete_step.
  - unfold cascade_project. set (gone := tbl_set projects_table _ _).
    rewrite (cascade_none project_schedules_table); [|same_table|].
    2: { intros k r [_ Hm]%kept_lookup. by apply refers_project. }
    rewrite (cascade_none scheduler_targets_table); [reflexivity|same_table|].
    intros k r [_ Hm]%kept_lookup. by apply refers_project.
  - repeat constructor; (eapply fk_apart; [by apply project_apart|reflexivity..]).
Qed.

(** The deletes that nothing refers to. *)
Lemma step_5 : delete_by session_bindings_table SessionBinding.projectId p no_cascade [] (at_step 4) = (Ok tt, at_step 5).
Proof. apply delete_step; [reflexivity|constructor]. Qed.

Lemma step_6 : delete_by operation_bindings_table OperationBinding.projectId p no_cascade [] (at_step 5) = (Ok tt, at_step 6).
Proof. apply delete_step; [reflexivity|constructor]. Qed.

Lemma step_10 : delete_by scheduler_targets_table SchedulerTarget.projectId p no_cascade [] (at_step 9) = (Ok tt, at_step 10).
Proof. apply delete_step; [reflexivity|constructor]. Qed.

Lemma step_16 : delete_by schedules_table Schedule.projectId p no_cascade [] (at_step 15) = (Ok tt, at_step 16).
Proof. apply delete_step; [reflexivity|constructor]. Qed.

Lemma step_17 : delete_by jobs_table Job.projectId p no_cascade [] (at_step 16) = (Ok tt, at_step 17).
Proof. apply delete_step; [reflexivity|constructor]. Qed.

Lemma step_18 : delete_by secrets_table Secret.projectId p no_cascade [] (at_step 17) = (Ok tt, at_step 18).
Proof. apply delete_step; [reflexivity|constructor]. Qed.

(** The ids a loop goes over. *)
Lemma ids_of_read {R} (t : database -> gmap string R) idf project s' :
  ids_of t idf project p s' =
  (Ok (idf <$> select_where (fun r => bool_decide (project r = p)) (t (st_db s'))), s').
Proof. reflexivity. Qed.

(** ** The groups *)
Lemma delete_sessions_ok : delete_sessions p (at_step 0) = (Ok tt, at_step 4).
Proof.
  unfold delete_sessions. rewrite (bind_step _ _ _ _ _ step_1), (bind_step _ _ _ _ _ (ids_of_read _ _ _ _)).
  rewrite (bind_step _ _ _ _ _ (step_2 _ (fun id => eq_sym (owned_ids Session.id _ p _ id (de_sessions p d Hdel))))).
  rewrite (bind_step _ _ _ _ _ step_3). exact step_4.
Qed.

Lemma delete_routes_ok : delete_routes p (at_step 4) = (Ok tt, at_step 8).
Proof.
  unfold delete_routes. rewrite (bind_step _ _ _ _ _ (ids_of_read _ _ _ _)).
  rewrite (bind_step _ _ _ _ _ step_5), (bind_step _ _ _ _ _ step_6).
  rewrite (bind_step _ _ _ _ _ (step_7 _ (fun id => eq_sym (owned_ids AgentRoute.id _ p _ id (de_routes p d Hdel))))).
  exact step_8.
Qed.

Lemma delete_schedules_ok : delete_schedules p (at_step 8) = (Ok tt, at_step 11).
Proof.
  unfold delete_schedules. rewrite (bind_step _ _ _ _ _ (ids_of_read _ _ _ _)).
  rewrite (bind_step _ _ _ _ _
    (step_9 _ (fun id => eq_sym (owned_ids ProjectSchedule.id _ p _ id (de_schedules p d Hdel))))).
  rewrite (bind_step _ _ _ _ _ step_10). exact step_11.
Qed.

Lemma delete_releases_ok : delete_releases p (at_step 11) = (Ok tt, at_step 15).
Proof.
  unfold delete_releases. rewrite (bind_step _ _ _ _ _ step_12), (bind_step _ _ _ _ _ step_13).
  rewrite (bind_step _ _ _ _ _ (ids_of_read _ _ _ _)).
  rewrite (bind_step _ _ _ _ _
    (step_14 _ (fun id => eq_sym (owned_ids SourceRevision.id _ p _ id (de_revisions p d Hdel))))).
  exact step_15.
Qed.

Lemma delete_project_row_ok :
  delete_project_row p (at_step 15) = (Ok (bool_decide (is_Some (projects d !! p))), at_step 19).
Proof.
  unfold delete_project_row. rewrite (bind_step _ _ _ _ _ step_16), (bind_step _ _ _ _ _ step_17).
  rewrite (bind_step _ _ _ _ _ step_18), (bind_step _ _ _ _ _ (ids_of_read _ _ _ _)).
  rewrite (bind_step _ _ _ _ _ step_19). unfold ret. f_equal. f_equal.
  apply eq_true_iff_eq. rewrite Nat.ltb_lt, bool_decide_eq_true, length_fmap.
  change (projects (st_db (at_step 18))) with (projects d).
  assert (Hmem : forall r, r ∈ select_where (fun r => bool_decide (Project.id r = p)) (projects d) <->
    projects d !! p = Some r).
  { intros r. rewrite elem_of_select, bool_decide_eq_true. split.
    - intros [Hid [k Hk]]. apply (de_projects p d Hdel) in Hk as Hkey. simpl in Hkey. congruence.
    - intros Hr. split; [by apply (de_projects p d Hdel) in Hr|eauto]. }
  destruct (select_where _ _) as [|r rs]; simpl; split.
  - lia.
  - intros [r Hr]. apply Hmem, elem_of_nil in Hr. done.
  - intros _. exists r. apply Hmem. by left.
  - lia.
Qed.
End Steps.

(** C27. The deletion of a project succeeds and deletes exactly the project: its
    statements come in an order that no foreign key refuses, they leave no row of
    the project behind in any table, those that hang from its sessions, routes,
    schedules, deployments and revisions included, and every row of another
    project as it was; its answer is whether the project was there. *)
Theorem deleteProject_deletes_the_project p s :
  deletable p (st_db s) ->
  deleteProject p s =
    (Ok (bool_decide (is_Some (projects (st_db s) !! p))), s <| st_db ::= without_project p |>).
Proof.
  intros Hdel. unfold deleteProject. rewrite transaction_ok.
  assert (Hs : s = s <| st_db := after_step p (st_db s) 0 |>) by (destruct s as [[] ? ? ? ?]; reflexivity).
  rewrite Hs at 1.
  rewrite (bind_step _ _ _ _ _ (delete_sessions_ok p _ s Hdel)).
  rewrite (bind_step _ _ _ _ _ (delete_routes_ok p _ s Hdel)).
  rewrite (bind_step _ _ _ _ _ (delete_schedules_ok p _ s Hdel)).
  rewrite (bind_step _ _ _ _ _ (delete_releases_ok p _ s Hdel)).
  exact (delete_project_row_ok p _ s Hdel).
Qed.

(** ** A witness: one of two tenants with a row in every table *)
Definition apartb {K R R'} `{Countable K} (t : gmap K R) (mine : R -> bool) (col : R -> option string)
    (t' : gmap string R') (mine' : R' -> bool) : bool :=
  forallb (fun r => mine r || match col r with
                              | Some j => match t' !! j with Some r' => negb (mine' r') | None => true end
                              | None => true
                              end) (rows t).

Lemma apartb_apart {K R R'} `{Countable K} (t : gmap K R) mine col (t' : gmap string R') mine' :
  apartb t mine col t' mine' = true -> apart t mine col t' mine'.
Proof.
  unfold apartb. rewrite forallb_forall. intros Hall k r j r' Hk Hm Hj Hr'.
  specialize (Hall r). rewrite Hm, Hj, Hr' in Hall. apply negb_true_iff, Hall, list_elem_of_In, elem_of_rows.
  by exists k.
Qed.

Definition keyedb {R} (T : table string R) (d : database) : bool :=
  forallb (fun kr => bool_decide (tbl_id T kr.2 = kr.1)) (map_to_list (tbl T d)).

Lemma keyedb_keyed {R} (T : table string R) d : keyedb T d = true -> keyed T d.
Proof.
  unfold keyedb. rewrite forallb_forall. intros Hall k r Hk.
  apply (bool_decide_eq_true_1 _). by apply (Hall (k, r)), list_elem_of_In, elem_of_map_to_list.
Qed.

Definition versionsb (d : database) : bool :=
  forallb (fun r => match scheduleVersions d !! ScheduleRun.scheduleVersionId r with
                    | Some v => bool_decide (ScheduleRun.scheduleId r = ScheduleVersion.scheduleId v)
                    | None => true
                    end) (rows (scheduleRuns d)).

Lemma versionsb_same d k r v :
  versionsb d = true -> scheduleRuns d !! k = Some r ->
  scheduleVersions d !! ScheduleRun.scheduleVersionId r = Some v ->
  ScheduleRun.scheduleId r = ScheduleVersion.scheduleId v.
Proof.
  unfold versionsb. rewrite forallb_forall. intros Hall Hk Hv. specialize (Hall r). rewrite Hv in Hall.
  apply (bool_decide_eq_true_1 _), Hall, list_elem_of_In, elem_of_rows. by exists k.
Qed.

Definition tenant_session (p : string) : Session.session_row :=
  Session.mk ("sess_" ++ p) p (Some ("dep_" ++ p)) (Some "eve") (Some ("node_" ++ p)) (Some ("route_" ++ p))
    None None SessionTrigger.cron (Some ("sch_" ++ p)) (Some ("run_" ++ p)) SessionStatus.running None 5
    None 0 0 0 0 None 0 0.

Definition tenant_node (p : string) : SessionNode.session_node_row :=
  SessionNode.mk ("node_" ++ p) ("sess_" ++ p) p "eve" None None ("dep_" ++ p) ("dep_" ++ p)
    (Some ("rtm_" ++ p)) (Some ("rtm_" ++ p)) None None None None None None None None "resolved" "running" 0 0.

Definition tenant_event (p : string) : SessionEvent.session_event_row :=
  SessionEvent.mk ("ev_" ++ p) ("sess_" ++ p) (Some ("node_" ++ p)) None None (Some ("dep_" ++ p))
    (Some ("rtm_" ++ p)) None 0 "turn.started" JNull 0 0.

Definition tenant_usage (p : string) : ModelUsage.model_usage_row :=
  ModelUsage.mk ("use_" ++ p) ("sess_" ++ p) (Some ("node_" ++ p)) "eve" None None "turn" None None None None
    None None None None None false 0.

Definition tenant_run (p : string) : ScheduleRun.schedule_run_row :=
  ScheduleRun.mk ("run_" ++ p) ("sch_" ++ p) ("ver_" ++ p) ("rel_" ++ p) ("dep_" ++ p) 0 RunTrigger.cron
    RunStatus.running 1 0 None None None None 0 0.

Definition tenant_binding (p : string) : SessionBinding.session_binding_row :=
  SessionBinding.mk ("bind_" ++ p) p "eve" ("route_" ++ p) ("dep_" ++ p) BindingTrigger.api None None "req"
    None None None 0 0.

Definition tenant_release (p : string) : Release.release_row :=
  Release.mk ("rel_" ++ p) p ("srev_" ++ p) "img" None None "none" None None None None "none" false 0.

(** The rows of a tenant, added to the tables. *)
Definition add_tenant (p : string) (d : database) : database :=
  d <| projects ::= insert p (sample_project p) |>
    <| jobs ::= insert ("job_" ++ p) (Job.mk ("job_" ++ p) p "ensure_deployment_running" "queued" JNull 0 None None 0 0 0) |>
    <| sourceRevisions ::= insert ("srev_" ++ p)
         (SourceRevision.mk ("srev_" ++ p) p "git" None None None None None "/" JNull JNull 0) |>
    <| sourceFiles ::= insert ("file_" ++ p) (SourceFile.mk ("file_" ++ p) ("srev_" ++ p) "agent.ts" "" 0) |>
    <| releases ::= insert ("rel_" ++ p) (tenant_release p) |>
    <| deployments ::= insert ("dep_" ++ p)
         ((sample_deployment p ("dep_" ++ p) DeploymentStatus.running) <| Deployment.releaseId := "rel_" ++ p |>) |>
    <| projectSchedules ::= insert ("sch_" ++ p) (ProjectSchedule.mk ("sch_" ++ p) p "daily" true None 0 0) |>
    <| scheduleVersions ::= insert ("ver_" ++ p)
         (ScheduleVersion.mk ("ver_" ++ p) ("sch_" ++ p) ("srev_" ++ p) "cron" "* * * * *" "s.ts" "h" 0) |>
    <| projectSchedulerTargets ::= insert p (SchedulerTarget.mk p ("dep_" ++ p) 0) |>
    <| scheduleRuns ::= insert ("run_" ++ p) (tenant_run p) |>
    <| runtimeInstances ::= insert ("rtm_" ++ p)
         (RuntimeInstance.mk ("rtm_" ++ p) ("dep_" ++ p) 1 RuntimeStatus.ready None (Some 4000%Z) None None None None) |>
    <| activationLeases ::= insert ("lease_" ++ p)
         (ActivationLease.mk ("lease_" ++ p) ("dep_" ++ p) (Some ("rtm_" ++ p)) LeaseKind.public_request "o" 9 None) |>
    <| agentRoutes ::= insert ("route_" ++ p) (AgentRoute.mk ("route_" ++ p) p (p ++ ".example") RouteKind.project true 1 0 0) |>
    <| routeTargets ::= insert ("route_" ++ p, "dep_" ++ p) (RouteTarget.mk ("route_" ++ p) ("dep_" ++ p) 10000 None) |>
    <| sessionBindings ::= insert ("bind_" ++ p) (tenant_binding p) |>
    <| sessions ::= insert ("sess_" ++ p) (tenant_session p) |>
    <| scheduleRunSessions ::= insert ("run_" ++ p, "sess_" ++ p)
         (ScheduleRunSession.mk ("run_" ++ p) ("sess_" ++ p) ExecutionStatus.running None None None 0) |>
    <| sessionNodes ::= insert ("node_" ++ p) (tenant_node p) |>
    <| modelUsageEvents ::= insert ("use_" ++ p) (tenant_usage p) |>
    <| sessionEvents ::= insert ("ev_" ++ p) (tenant_event p) |>
    <| logs ::= insert ("log_" ++ p) (Log.mk ("log_" ++ p) p None "runtime" "up" 1 0) |>
    <| secrets ::= insert ("sec_" ++ p) (Secret.mk ("sec_" ++ p) p "KEY" SecretKind.secret "x" 0 0) |>.

Definition two_tenants : database := add_tenant "q" (add_tenant "p" empty_database).

Lemma deleteProject_deletes_the_project_witness :
  deletable "p" two_tenants /\
  exists s', deleteProject "p" (sample_store two_tenants) = (Ok true, s') /\
    st_db s' = without_project "p" two_tenants /\
    logs (st_db s') !! "log_q" = logs two_tenants !! "log_q" /\ logs (st_db s') !! "log_p" = None.
Proof.
  assert (Hdel : deletable "p" two_tenants).
  { constructor; [apply keyedb_keyed; vm_compute; reflexivity..|].
    constructor; try (apply apartb_apart; vm_compute; reflexivity).
    intros k r v Hk Hv _. exact (versionsb_same two_tenants k r v ltac:(vm_compute; reflexivity) Hk Hv). }
  split; [exact Hdel|].
  eexists. split; [exact (deleteProject_deletes_the_project "p" (sample_store two_tenants) Hdel)|].
  split; [reflexivity|]. split; vm_compute; reflexivity.
Defined.
