(* ===== verification/Routing.v ===== *)
(** * Weighted routing

    [packages/core/src/routing.ts]: the rules of a route's targets, the hash
    that gives an affinity key its bucket among 10,000, the choice of a target
    by weight, and the idle policy of session bindings.

    A JavaScript string is the list of its UTF-16 code units here, since the
    hash reads them; [Math.imul], [^] and [>>>] are the 32-bit operations of
    the language on [Z]. *)

From S2P Require Import Prelude Schema.
From stdpp Require Import pretty.

Open Scope Z_scope.

(** ** 32-bit integers *)

Definition modulus32 : Z := 4294967296.

(** [ToInt32]: the signed representative. *)
Definition to_int32 (z : Z) : Z :=
  let m := z mod modulus32 in if m <? 2147483648 then m else m - modulus32.

(** [ToUint32], the value of [x >>> 0]. *)
Definition to_uint32 (z : Z) : Z := z mod modulus32.

Definition js_xor (a b : Z) : Z := Z.lxor (to_int32 a) (to_int32 b).

Definition js_imul (a b : Z) : Z := to_int32 (to_int32 a * to_int32 b).

(** ** Targets *)

(** [weight] is [None] for a number that is not an integer. *)
Record route_target_input : Type := mk_route_target_input {
  rt_deploymentId : string; rt_weight : option Z; rt_variantName : option string
}.

Definition total_weight (targets : list route_target_input) : Z :=
  fold_left (fun sum t => sum + default 0 (rt_weight t)) targets 0.

Definition weight_in_range (t : route_target_input) : bool :=
  match rt_weight t with
  | Some w => negb ((w <? 0) || (10000 <? w))
  | None => false
  end.

Definition validateRouteTargets (targets : list route_target_input) : result unit :=
  if (length targets <? 1)%nat || (2 <? length targets)%nat then
    Err (Error "A route must have one or two targets.")
  else if negb (size (list_to_set (rt_deploymentId <$> targets) : gset string)
                =? length targets)%nat then
    Err (Error "Route target deployments must be unique.")
  else if existsb (fun t => negb (weight_in_range t)) targets then
    Err (Error "Route target weights must be integer basis points between 0 and 10,000.")
  else if negb (total_weight targets =? 10000) then
    Err (Error "Route target weights must total 10,000 basis points.")
  else Ok tt.

(** ** Buckets *)

Definition affinityBucket (key : list Z) : Z :=
  let hash := fold_left (fun hash c => js_imul (js_xor hash c) 16777619) key 2166136261 in
  to_uint32 hash mod 10000.

(** A byte between two bounds, and the six bits of a byte that follows a lead byte. *)
Definition byte_of (c : Ascii.ascii) : Z := Z.of_nat (Ascii.nat_of_ascii c).
Definition lead_byte (lo hi : Z) (c : Ascii.ascii) : bool := (lo <=? byte_of c) && (byte_of c <=? hi).
Definition tail_byte (c : Ascii.ascii) : bool := lead_byte 128 191 c.
Definition tail_bits (c : Ascii.ascii) : Z := byte_of c - 128.

(** A code point above U+FFFF is a surrogate pair. *)
Definition surrogates (point : Z) : list Z :=
  let p := point - 65536 in [55296 + p / 1024; 56320 + p mod 1024].

(** The code units of a text of UTF-8 bytes, which are what [charCodeAt] reads.  A
    byte that starts no character stands for itself: no text of JavaScript has one. *)
Fixpoint code_units (s : string) : list Z :=
  match s with
  | EmptyString => []
  | String a r1 =>
      match r1 with
      | String b r2 =>
          if lead_byte 194 223 a && tail_byte b then ((byte_of a - 192) * 64 + tail_bits b) :: code_units r2
          else match r2 with
          | String c r3 =>
              if lead_byte 224 239 a && tail_byte b && tail_byte c then
                ((byte_of a - 224) * 4096 + tail_bits b * 64 + tail_bits c) :: code_units r3
              else match r3 with
              | String d r4 =>
                  if lead_byte 240 244 a && tail_byte b && tail_byte c && tail_byte d then
                    (surrogates ((byte_of a - 240) * 262144 + tail_bits b * 4096 + tail_bits c * 64 + tail_bits d)
                     ++ code_units r4)%list
                  else byte_of a :: code_units r1
              | EmptyString => byte_of a :: code_units r1
              end
          | EmptyString => byte_of a :: code_units r1
          end
      | EmptyString => byte_of a :: code_units r1
      end
  end.

Example code_units_of_text :
  code_units "aé€😀z" = [97; 233; 8364; 55357; 56832; 122].
Proof. reflexivity. Qed.

(** The key [`${routeId}:${policyRevision}:${affinityKey}`]. *)
Definition affinityBucketForRoute (routeId : list Z) (policyRevision : Z)
    (affinityKey : list Z) : Z :=
  affinityBucket (routeId ++ code_units ":" ++ code_units (pretty policyRevision)
                  ++ code_units ":" ++ affinityKey)%list.

(** The walk down the targets: [upper += weight; if (bucket < upper) ...]. *)
Fixpoint pick_target (targets : list route_target_input) (upper bucket : Z)
    : option route_target_input :=
  match targets with
  | [] => None
  | t :: rest =>
      let upper := upper + default 0 (rt_weight t) in
      if bucket <? upper then Some t else pick_target rest upper bucket
  end.

Definition selectWeightedTarget (targets : list route_target_input) (affinityKey : list Z)
    (route : option (list Z * Z)) : result (option route_target_input) :=
  match validateRouteTargets targets with
  | Err e => Err e
  | Ok _ =>
      let bucket := match route with
                    | Some (id, rev) => affinityBucketForRoute id rev affinityKey
                    | None => affinityBucket affinityKey
                    end in
      Ok (pick_target targets 0 bucket)
  end.

(** ** Protection and idle bindings *)

Definition isDeploymentProtected (deploymentId : string)
    (routeTargetIds activeBindingIds retainedIds : gset string) : bool :=
  bool_decide (deploymentId ∈ routeTargetIds)
  || bool_decide (deploymentId ∈ activeBindingIds)
  || bool_decide (deploymentId ∈ retainedIds).

Record session_binding_idle_policy : Type := mk_idle_policy {
  playgroundIdleTtlMs : option Z; apiIdleTtlMs : option Z
}.

Definition DEFAULT_PLAYGROUND_SESSION_IDLE_TTL_MS : Z := 86400000.
Definition DEFAULT_API_SESSION_IDLE_TTL_MS : Z := 604800000.

Definition binding_ttl (trigger : binding_trigger) (policy : session_binding_idle_policy) : Z :=
  match trigger with
  | BindingTrigger.playground =>
      default DEFAULT_PLAYGROUND_SESSION_IDLE_TTL_MS (playgroundIdleTtlMs policy)
  | BindingTrigger.api => default DEFAULT_API_SESSION_IDLE_TTL_MS (apiIdleTtlMs policy)
  end.

(** An instant that a [Date] can hold is finite, so the source's second check
    never fails here. *)
Definition isSessionBindingActive (trigger : binding_trigger) (updatedAt now : time)
    (policy : session_binding_idle_policy) : result bool :=
  let ttlMs := binding_ttl trigger policy in
  if ttlMs <=? 0 then Err (Error "SessionBinding idle TTL must be positive.")
  else Ok (now - ttlMs <? updatedAt).

(** ** The hash is 32-bit FNV-1a *)

(** FNV-1a over unsigned 32-bit words, one code unit at a time. *)
Definition fnv1a (key : list Z) : Z :=
  fold_left (fun h c => (Z.lxor h c * 16777619) mod modulus32) key 2166136261.

Lemma to_int32_mod z : to_int32 z mod modulus32 = z mod modulus32.
Proof.
  unfold to_int32. cbv zeta. destruct (z mod modulus32 <? 2147483648).
  - apply Z.mod_mod. done.
  - rewrite <- Zminus_mod_idemp_r, Z.mod_same, Z.sub_0_r by done. by apply Z.mod_mod.
Qed.

Lemma land_mod32 z : z mod modulus32 = Z.land z (Z.ones 32).
Proof. rewrite Z.land_ones by lia. done. Qed.

(** Exclusive or commutes with the reduction to 32 bits. *)
Lemma lxor_mod32 a b :
  Z.lxor a b mod modulus32 = Z.lxor (a mod modulus32) (b mod modulus32).
Proof.
  rewrite !land_mod32. apply Z.bits_inj. intros n.
  rewrite !Z.land_spec, !Z.lxor_spec, !Z.land_spec. btauto.
Qed.

Lemma js_step_mod h h' c :
  h mod modulus32 = h' mod modulus32 ->
  js_imul (js_xor h c) 16777619 mod modulus32
    = ((Z.lxor h' c * 16777619) mod modulus32) mod modulus32.
Proof.
  intros Hh. unfold js_imul, js_xor. rewrite to_int32_mod.
  rewrite Z.mod_mod by done. rewrite <- Zmult_mod_idemp_l, to_int32_mod.
  rewrite lxor_mod32, !to_int32_mod, Hh, <- lxor_mod32.
  rewrite Zmult_mod_idemp_l. by replace (to_int32 16777619) with 16777619.
Qed.

Lemma js_hash_mod key h h' :
  h mod modulus32 = h' mod modulus32 ->
  fold_left (fun hash c => js_imul (js_xor hash c) 16777619) key h mod modulus32
  = fold_left (fun h c => (Z.lxor h c * 16777619) mod modulus32) key h' mod modulus32.
Proof.
  revert h h'. induction key as [|c key IH]; intros h h' Hh; simpl; [done|].
  by apply IH, js_step_mod.
Qed.

Lemma fnv1a_range key : 0 <= fnv1a key < modulus32.
Proof.
  unfold fnv1a. induction key as [|c key IH] using rev_ind; [done|].
  rewrite fold_left_app. simpl. apply Z.mod_pos_bound. done.
Qed.

Lemma affinityBucket_range key : 0 <= affinityBucket key < 10000.
Proof. unfold affinityBucket. apply Z.mod_pos_bound. lia. Qed.

(** ** The shares of the targets *)

#[export] Instance route_target_input_eq_dec : EqDecision route_target_input.
Proof. solve_decision. Defined.

Definition weight (t : route_target_input) : Z := default 0 (rt_weight t).

Fixpoint weights (ts : list route_target_input) : Z :=
  match ts with [] => 0 | t :: ts => weight t + weights ts end.

Lemma total_weight_weights ts : total_weight ts = weights ts.
Proof.
  unfold total_weight.
  cut (forall z, fold_left (fun sum t => sum + default 0 (rt_weight t)) ts z = z + weights ts).
  { intros ->. lia. }
  induction ts as [|t ts IH]; intros z; simpl; [lia|]. rewrite IH. unfold weight. lia.
Qed.

(** What a validated target list satisfies. *)
Record valid_targets (ts : list route_target_input) : Prop := {
  vt_length : (1 <= length ts <= 2)%nat;
  vt_unique : NoDup (rt_deploymentId <$> ts);
  vt_range : Forall (fun t => exists w, rt_weight t = Some w /\ 0 <= w <= 10000) ts;
  vt_total : weights ts = 10000
}.

Lemma size_list_NoDup (l : list string) :
  size (list_to_set l : gset string) = length l <-> NoDup l.
Proof.
  split; [|apply size_list_to_set]. induction l as [|x l IH]; intros Hs; [constructor|].
  assert (Hle : forall l' : list string, (size (list_to_set l' : gset string) <= length l')%nat).
  { induction l' as [|y l' IHl]; [done|]. simpl.
    rewrite size_union_alt, size_singleton.
    assert (size (list_to_set l' ∖ {[y]} : gset string) <= size (list_to_set l' : gset string))%nat
      by (apply subseteq_size; set_solver). lia. }
  simpl in Hs. destruct (decide (x ∈ l)) as [Hin|Hnin].
  - exfalso. rewrite subseteq_union_1_L in Hs by set_solver. specialize (Hle l). lia.
  - constructor; [done|]. apply IH. rewrite size_union, size_singleton in Hs by set_solver. lia.
Qed.

Lemma validateRouteTargets_ok ts : validateRouteTargets ts = Ok tt <-> valid_targets ts.
Proof.
  unfold validateRouteTargets.
  destruct ((length ts <? 1)%nat || (2 <? length ts)%nat) eqn:Hlen.
  { split; [done|]. intros [Hl _ _ _]. apply orb_true_iff in Hlen.
    rewrite !Nat.ltb_lt in Hlen. lia. }
  apply orb_false_iff in Hlen. rewrite !Nat.ltb_ge in Hlen.
  destruct (size _ =? length ts)%nat eqn:Hsize; simpl.
  2: { split; [done|]. intros [_ Hnd _ _]. apply Nat.eqb_neq in Hsize. exfalso. apply Hsize.
       rewrite <- (length_fmap rt_deploymentId ts). by apply size_list_NoDup. }
  apply Nat.eqb_eq in Hsize. rewrite <- (length_fmap rt_deploymentId ts) in Hsize.
  apply size_list_NoDup in Hsize.
  assert (Hw : forall t, weight_in_range t = true <->
            exists w, rt_weight t = Some w /\ 0 <= w <= 10000).
  { intros t. unfold weight_in_range. destruct (rt_weight t) as [w|]; [|naive_solver].
    rewrite negb_true_iff, orb_false_iff, !Z.ltb_ge. naive_solver. }
  destruct (existsb _ ts) eqn:Hrange.
  { split; [done|]. intros [_ _ Hall _]. apply existsb_exists in Hrange as (t & Hin & Hn).
    rewrite <- list_elem_of_In in Hin. rewrite Forall_forall in Hall. apply Hall, Hw in Hin.
    by rewrite Hin in Hn. }
  assert (Hall : Forall (fun t => exists w, rt_weight t = Some w /\ 0 <= w <= 10000) ts).
  { apply Forall_forall. intros t Hin. apply Hw. apply not_false_iff_true. intros Hn.
    assert (existsb (fun t => negb (weight_in_range t)) ts = true) as Hex; [|congruence].
    apply existsb_exists. exists t. rewrite <- list_elem_of_In, Hn. done. }
  rewrite total_weight_weights. destruct (weights ts =? 10000) eqn:Htot; simpl.
  - apply Z.eqb_eq in Htot. split; [|done]. intros _. constructor; [lia|done..].
  - apply Z.eqb_neq in Htot. split; [done|]. by intros [_ _ _ ?].
Qed.

Lemma valid_weight_nonneg ts t : valid_targets ts -> t ∈ ts -> 0 <= weight t.
Proof.
  intros [_ _ Hall _] Hin. rewrite Forall_forall in Hall. destruct (Hall t Hin) as (w & Hw & ?).
  unfold weight. rewrite Hw. simpl. lia.
Qed.

Lemma weights_app l1 l2 : weights (l1 ++ l2) = weights l1 + weights l2.
Proof. induction l1 as [|t l1 IH]; simpl; lia. Qed.

Lemma weights_nonneg ts : (forall t, t ∈ ts -> 0 <= weight t) -> 0 <= weights ts.
Proof.
  induction ts as [|t ts IH]; intros Hnn; simpl; [lia|].
  pose proof (Hnn t ltac:(by left)). assert (0 <= weights ts); [|lia].
  apply IH. intros t' Ht'. apply Hnn. by right.
Qed.

(** The target at its place in the list is picked on exactly its interval. *)
Lemma pick_target_interval l1 t l2 upper b :
  (forall t', t' ∈ l1 -> 0 <= weight t') ->
  upper + weights l1 <= b < upper + weights l1 + weight t ->
  pick_target (l1 ++ t :: l2) upper b = Some t.
Proof.
  revert upper. induction l1 as [|t1 l1 IH]; intros upper Hnn Hb; simpl in *.
  - fold (weight t). destruct (Z.ltb_spec b (upper + weight t)); [done | lia].
  - fold (weight t1).
    assert (0 <= weights l1) by (apply weights_nonneg; intros; apply Hnn; by right).
    destruct (Z.ltb_spec b (upper + weight t1)); [lia|]. apply IH; [|lia].
    intros t' Ht'. apply Hnn. by right.
Qed.

Lemma pick_target_Some ts upper b t :
  upper <= b -> pick_target ts upper b = Some t ->
  exists l1 l2, ts = l1 ++ t :: l2 /\ upper + weights l1 <= b < upper + weights l1 + weight t.
Proof.
  revert upper. induction ts as [|t1 ts IH]; intros upper Hle Hp; simpl in *; [done|].
  fold (weight t1) in Hp. destruct (Z.ltb_spec b (upper + weight t1)).
  - injection Hp as ->. exists [], ts. simpl. split; [done | lia].
  - apply IH in Hp as (l1 & l2 & -> & Hb); [|lia]. exists (t1 :: l1), l2. simpl.
    split; [done | lia].
Qed.

Lemma pick_target_total ts upper b :
  upper <= b < upper + weights ts -> is_Some (pick_target ts upper b).
Proof.
  revert upper. induction ts as [|t ts IH]; intros upper Hb; simpl in *; [lia|].
  fold (weight t). destruct (Z.ltb_spec b (upper + weight t)); [by eexists|].
  apply IH. lia.
Qed.

(** The buckets of a target. *)
Definition buckets_of (ts : list route_target_input) (t : route_target_input) : list Z :=
  base.filter (fun b => pick_target ts 0 b = Some t) (seqZ 0 10000).

Lemma NoDup_split_unique (l1 l2 l1' l2' : list route_target_input) t :
  NoDup (rt_deploymentId <$> (l1 ++ t :: l2)) -> l1 ++ t :: l2 = l1' ++ t :: l2' -> l1 = l1'.
Proof.
  revert l1'. induction l1 as [|x l1 IH]; intros [|y l1'] Hnd Heq; simpl in *; [done| | |].
  - injection Heq as <- Heq. exfalso. rewrite Heq in Hnd. apply NoDup_cons in Hnd as [Hn _].
    apply Hn, list_elem_of_fmap. exists t. split; [done|]. set_solver.
  - injection Heq as -> Heq. exfalso. apply NoDup_cons in Hnd as [Hn _].
    apply Hn, list_elem_of_fmap. exists t. split; [done|]. set_solver.
  - injection Heq as -> Heq. f_equal. apply NoDup_cons in Hnd as [_ Hnd]. eauto.
Qed.

Lemma buckets_of_interval ts l1 t l2 :
  valid_targets ts -> ts = l1 ++ t :: l2 -> buckets_of ts t ≡ₚ seqZ (weights l1) (weight t).
Proof.
  intros Hv Hts. assert (Hnn : forall t', t' ∈ ts -> 0 <= weight t')
    by (intros; by eapply valid_weight_nonneg).
  assert (H1 : 0 <= weights l1) by (apply weights_nonneg; intros; apply Hnn; set_solver).
  assert (H2 : 0 <= weights l2) by (apply weights_nonneg; intros; apply Hnn; set_solver).
  assert (Hsum : weights l1 + weight t + weights l2 = 10000).
  { pose proof (vt_total _ Hv) as Htot. rewrite Hts, weights_app in Htot. simpl in Htot. lia. }
  apply NoDup_Permutation; [apply NoDup_filter, NoDup_seqZ | apply NoDup_seqZ|].
  intros b. unfold buckets_of. rewrite list_elem_of_filter, !elem_of_seqZ. split.
  - intros [Hp Hb]. apply pick_target_Some in Hp as (l1' & l2' & Heq & Hb'); [|lia].
    assert (l1 = l1') as <-; [|lia]. rewrite Hts in Heq. eapply NoDup_split_unique; [|done].
    rewrite <- Hts. apply Hv.
  - intros Hb. split; [|lia]. rewrite Hts. apply pick_target_interval; [|lia].
    intros t' Ht'. apply Hnn. set_solver.
Qed.

(** Valid targets leave no key without a target. *)
Lemma select_valid ts key route :
  valid_targets ts ->
  exists t, selectWeightedTarget ts key route = Ok (Some t) /\ t ∈ ts /\ 0 < weight t.
Proof.
  intros Hv. unfold selectWeightedTarget. rewrite (proj2 (validateRouteTargets_ok ts) Hv).
  set (b := match route with Some _ => _ | None => _ end).
  assert (Hb : 0 <= b < 10000)
    by (subst b; destruct route as [[id rev]|]; apply affinityBucket_range).
  destruct (pick_target_total ts 0 b) as [t Ht]; [by rewrite (vt_total _ Hv)|].
  exists t. rewrite Ht. split; [done|].
  apply pick_target_Some in Ht as (l1 & l2 & -> & Hi); [|lia]. split; [set_solver | lia].
Qed.

(** ** Properties *)

(** The bucket of an affinity key is 32-bit FNV-1a over its UTF-16 code
    units, reduced modulo 10,000: the signed [Math.imul]/[^] loop computes the
    unsigned hash, whatever the key. *)
Lemma affinityBucket_is_fnv1a key :
  affinityBucket key = fnv1a key mod 10000 /\ 0 <= affinityBucket key < 10000.
Proof.
  split; [|apply affinityBucket_range]. unfold affinityBucket, to_uint32.
  rewrite (js_hash_mod key _ 2166136261) by done. f_equal. unfold fnv1a.
  apply Z.mod_small, (fnv1a_range key).
Qed.

(** C4. Routing by weight is total and exact: with valid targets every key
    gets a target, the one whose interval of buckets holds the key's bucket,
    and of the 10,000 buckets exactly [weight] belong to each target (none to
    a target of weight 0). *)
Theorem selectWeightedTarget_shares ts key route :
  validateRouteTargets ts = Ok tt ->
  (exists t, selectWeightedTarget ts key route = Ok (Some t) /\ t ∈ ts /\ 0 < weight t) /\
  (forall t, t ∈ ts -> Z.of_nat (length (buckets_of ts t)) = weight t).
Proof.
  intros Hv%validateRouteTargets_ok. split; [by apply select_valid|].
  intros t Hin. apply list_elem_of_split in Hin as (l1 & l2 & Hts).
  rewrite (buckets_of_interval _ _ _ _ Hv Hts), length_seqZ.
  pose proof (valid_weight_nonneg ts t Hv ltac:(set_solver)). lia.
Qed.

(** A binding expires once: with a positive idle time it is active exactly
    while it was touched less than that time ago, so once idle it stays idle
    until touched again; a non-positive idle time is an error. *)
Lemma session_binding_expires trigger updatedAt now now' policy :
  match isSessionBindingActive trigger updatedAt now policy with
  | Err _ => binding_ttl trigger policy <= 0
  | Ok active => 0 < binding_ttl trigger policy /\
      (active = true <-> now - updatedAt < binding_ttl trigger policy) /\
      (active = false -> now <= now' ->
         isSessionBindingActive trigger updatedAt now' policy = Ok false)
  end.
Proof.
  unfold isSessionBindingActive. destruct (Z.leb_spec (binding_ttl trigger policy) 0); [lia|].
  split; [lia|]. split; [rewrite Z.ltb_lt; lia|].
  rewrite Z.ltb_ge. intros Hf Hle. f_equal. apply Z.ltb_ge. lia.
Qed.

(** ** Witnesses *)

Definition canary_targets : list route_target_input :=
  [mk_route_target_input "dep_stable" (Some 9000) (Some "stable"%string);
   mk_route_target_input "dep_canary" (Some 1000) (Some "canary"%string)].

Lemma selectWeightedTarget_shares_witness :
  validateRouteTargets canary_targets = Ok tt /\
  (exists t, selectWeightedTarget canary_targets (code_units "user-1")
      (Some (code_units "route_1", 3)) = Ok (Some t) /\ t ∈ canary_targets /\ 0 < weight t) /\
  (forall t, t ∈ canary_targets -> Z.of_nat (length (buckets_of canary_targets t)) = weight t).
Proof.
  assert (Hv : validateRouteTargets canary_targets = Ok tt) by (by vm_compute).
  split; [exact Hv|].
  exact (selectWeightedTarget_shares canary_targets (code_units "user-1")
           (Some (code_units "route_1", 3)) Hv).
Defined.
