(* ===== verification/EveEvents.v ===== *)
(** * Projections of Eve events

    The part of [packages/core/src/eve.ts] the stores apply to the events they
    receive: which status of a session an event leads to, what a boundary event
    says of a scheduled execution, and the failure lines shown to operators. *)

From S2P Require Import Prelude Schema.

Open Scope string_scope.

Definition EVE_SESSION_BOUNDARY_EVENT_TYPES : list string :=
  ["turn.completed"; "turn.failed"; "turn.cancelled"; "turn.waiting"; "session.waiting";
   "session.completed"; "session.failed"; "turn.settled"; "turn.paused"; "session.ended"].

(** [isEveRecord(value) ? value[key] : undefined]; [None] for [undefined] and
    for a value that is not a plain object. *)
Definition record_field (key : string) (value : option json) : option json :=
  match value with Some (JObj fs) => field key fs | _ => None end.

Definition eventOutcome (data : option json) : option string :=
  json_string (record_field "outcome" data).

(** [data.on === "input"] *)
Definition waits_on_input (data : option json) : bool :=
  match record_field "on" data with
  | Some (JStr s) => bool_decide (s = "input")
  | _ => false
  end.

Definition one_of (types : list string) (type : string) : bool := bool_decide (type ∈ types).

Definition sessionStatusFromEveEvent (type : string) (currentStatus : string)
    (data : option json) : option session_status :=
  if one_of ["session.started"; "turn.started"] type then Some SessionStatus.running
  else if one_of ["input.requested"; "authorization.required"; "interaction.opened";
                  "turn.paused"] type then Some SessionStatus.waiting_approval
  else if one_of ["input.resolved"; "authorization.completed"; "interaction.settled"] type then
    if bool_decide (currentStatus = "waiting_approval") then Some SessionStatus.running else None
  else if one_of ["turn.waiting"] type then
    if waits_on_input data then Some SessionStatus.waiting_approval else None
  else if one_of ["session.waiting"] type then
    if bool_decide (currentStatus = "waiting_approval") then Some SessionStatus.waiting_approval
    else Some SessionStatus.waiting
  else if one_of ["turn.settled"] type then Some SessionStatus.waiting
  else if one_of ["session.completed"] type then Some SessionStatus.completed
  else if one_of ["session.failed"] type then Some SessionStatus.failed
  else if one_of ["session.ended"] type then
    match eventOutcome data with
    | Some "completed" => Some SessionStatus.completed
    | Some "failed" => Some SessionStatus.failed
    | _ => None
    end
  else None.

(** [type] is [None] when no boundary event was found. *)
Definition scheduleExecutionStatusFromEveEvent (type : option string) (sessionStatus : string)
    (data : option json) : execution_status :=
  let type_is t := bool_decide (type = Some t) in
  if type_is "turn.settled" || type_is "session.ended" then
    match eventOutcome data with
    | Some "completed" => ExecutionStatus.succeeded
    | Some "failed" | Some "cancelled" => ExecutionStatus.failed
    | _ => ExecutionStatus.running
    end
  else if type_is "turn.paused" then ExecutionStatus.parked
  else if type_is "turn.failed" || type_is "turn.cancelled" || type_is "session.failed" then
    ExecutionStatus.failed
  else if (type_is "session.waiting" || type_is "turn.waiting")
          && bool_decide (sessionStatus = "waiting_approval") then ExecutionStatus.parked
  else if type_is "turn.waiting" then ExecutionStatus.running
  else if type_is "turn.completed" || type_is "session.waiting" || type_is "session.completed" then
    ExecutionStatus.succeeded
  else ExecutionStatus.running.

(** The text of a failure: v26 puts [message] on the event, v27 nests it. *)
Definition eventErrorMessage (payload : option json) : option string :=
  match payload with
  | Some (JObj _) =>
      match record_field "message" payload with
      | Some (JStr m) => Some m
      | _ => json_string (record_field "message" (record_field "error" payload))
      end
  | _ => None
  end.

Definition sessionErrorFromEveEvent (type : option string) (payload : option json) : string :=
  match eventErrorMessage payload with
  | Some m => m
  | None => "The agent reported " +:+ default "session.failed" type +:+ " without a message."
  end.

Definition scheduleExecutionErrorFromEveEvent (type : option string) (payload : option json)
    : string :=
  let message := eventErrorMessage payload in
  let ends := bool_decide (type = Some "turn.settled") || bool_decide (type = Some "session.ended") in
  let label := match truthy (eventOutcome payload) with
               | Some outcome =>
                   if ends then Some (default "" type +:+ " (" +:+ outcome +:+ ")") else type
               | None => type
               end in
  match truthy message with
  | Some m => "Scheduled Session " +:+ default "failed" label +:+ ": " +:+ m
  | None => "Scheduled Session ended with " +:+ default "failure" label +:+ "."
  end.
