(* ===== verification/Sessions.v ===== *)
(** * Sessions: events, usage, merges

    [packages/db/src/postgres-session-store.ts] and the session helpers of
    [packages/db/src/postgres-store-support.ts]: the numbering of a session's
    events, the usage counters, the completion of a session with the merge of
    the observed placeholder, and the loss of a runtime instance. *)

From S2P Require Import Prelude Schema Store Tables Sample Jobs Runtime EveEvents.

Open Scope string_scope.

(** ** Identity races: [retryOnIdentityRace]

    [between n] is what other transactions commit after the n-th attempt
    failed. *)
Definition sessionIdentityArbiter : string := "sessions_project_eve_session_idx".
Definition sessionNodeIdentityArbiter : string := "session_nodes_project_eve_idx".

Fixpoint retry_loop {A} (run : Tx A) (between : nat -> Tx unit) (arbiters : list string)
    (attempt remaining : nat) : Tx A :=
  match remaining with
  | O => run
  | S remaining =>
      try_catch run (fun e =>
        if existsb (isUniqueConstraint e) arbiters
        then between attempt ;; retry_loop run between arbiters (S attempt) remaining
        else throw e)
  end.

(** [maxAttempts] runs at most; the last one's error is not caught. *)
Definition retryOnIdentityRace {A} (run : Tx A) (between : nat -> Tx unit)
    (arbiters : option (list string)) (maxAttempts : option nat) : Tx A :=
  retry_loop run between
    (default [sessionIdentityArbiter; sessionNodeIdentityArbiter] arbiters) 1
    (default 2 maxAttempts - 1).

(** The other transactions are their own steps of an execution. *)
Definition alone (attempt : nat) : Tx unit := ret tt.

Section SessionStore.
Context `{Platform}.

(** ** Event order *)

(** A [SessionEventInsert]: an event row without its index; [None] for a column
    left to its default. *)
Record event_values : Type := mk_event_values {
  ev_sessionId : string;
  ev_sessionNodeId : option string;
  ev_telemetryEventId : option string;
  ev_eventFingerprint : option string;
  ev_observedDeploymentId : option string;
  ev_observedRuntimeInstanceId : option string;
  ev_sourceSequence : option Z;
  ev_type : string;
  ev_payload : json;
  ev_eventAt : option time
}.

Definition session_events_of (sessionId : string) (d : database)
    : list SessionEvent.session_event_row :=
  select_where (fun e => bool_decide (SessionEvent.sessionId e = sessionId)) (sessionEvents d).

(** [coalesce(max(index) + 1, 0)] *)
Definition next_event_index (sessionId : string) (d : database) : Z :=
  match foldr greatest None ((fun e => Some (SessionEvent.index e)) <$> session_events_of sessionId d)
  with
  | Some m => m + 1
  | None => 0
  end%Z.

Definition appendSessionEventRow (id : string) (values : event_values)
    : Tx SessionEvent.session_event_row :=
  next <- read (next_event_index (ev_sessionId values)) ;;
  now <- clock ;;
  insert_row session_events_table
    (SessionEvent.mk id (ev_sessionId values) (ev_sessionNodeId values)
       (ev_telemetryEventId values) (ev_eventFingerprint values)
       (ev_observedDeploymentId values) (ev_observedRuntimeInstanceId values)
       (ev_sourceSequence values) next (ev_type values) (ev_payload values)
       (default now (ev_eventAt values)) now).

(** An event with no more than a session, a type, a payload and a time. *)
Definition plain_event (sessionId type : string) (payload : json) (eventAt : option time)
    : event_values :=
  mk_event_values sessionId None None None None None None type payload eventAt.

Definition is_runtime_lost (sessionId runtimeInstanceId : string)
    (e : SessionEvent.session_event_row) : bool :=
  bool_decide (SessionEvent.sessionId e = sessionId)
  && bool_decide (SessionEvent.type e = "platform.runtime_lost")
  && bool_decide (payload_text "runtimeInstanceId" (SessionEvent.payload e)
                  = Some runtimeInstanceId).

Definition appendRuntimeLostEventTx (sessionId runtimeInstanceId reason : string) (now : time)
    (sessionNodeId observedDeploymentId : option string) : Tx bool :=
  existing <- read (fun d => find_where (is_runtime_lost sessionId runtimeInstanceId)
                               (sessionEvents d)) ;;
  match existing with
  | Some _ => ret false
  | None =>
      id <- createId "evt" ;;
      _row <- appendSessionEventRow id
        (mk_event_values sessionId (truthy sessionNodeId) None None
           (truthy observedDeploymentId) (Some runtimeInstanceId) None "platform.runtime_lost"
           (JObj [("runtimeInstanceId", JStr runtimeInstanceId); ("reason", JStr reason)])
           (Some now)) ;;
      ret true
  end.

(** ** Merging sessions *)

Definition renumbered (toSessionId : string) (offset : Z)
    (e : SessionEvent.session_event_row) : SessionEvent.session_event_row :=
  e <| SessionEvent.sessionId := toSessionId |> <| SessionEvent.index ::= Z.add offset |>.

Definition moveSessionEventsForMerge (fromSessionId toSessionId : string) : Tx unit :=
  offset <- read (next_event_index toSessionId) ;;
  _moved <- update_where session_events_table
    (fun e => bool_decide (SessionEvent.sessionId e = fromSessionId))
    (renumbered toSessionId offset) ;;
  ret tt.

(** The columns a merge may overwrite; [None] leaves one alone. *)
Record metadata_patch : Type := mk_metadata_patch {
  mp_rootNodeId : option (option string);
  mp_deploymentId : option (option string);
  mp_routeId : option (option string);
  mp_experimentId : option (option string);
  mp_variantName : option (option string)
}.

Definition no_patch : metadata_patch := mk_metadata_patch None None None None None.

Definition add_usage (absorbed s : Session.session_row) : Session.session_row :=
  s <| Session.inputTokens ::= Z.add (Session.inputTokens absorbed) |>
    <| Session.outputTokens ::= Z.add (Session.outputTokens absorbed) |>
    <| Session.cacheReadTokens ::= Z.add (Session.cacheReadTokens absorbed) |>
    <| Session.cacheWriteTokens ::= Z.add (Session.cacheWriteTokens absorbed) |>
    <| Session.costUsd ::= fun c =>
         match Session.costUsd absorbed with
         | Some x => Some (js_add (default js_zero c) x)
         | None => c
         end |>
    <| Session.usageReportedSteps ::= Z.add (Session.usageReportedSteps absorbed) |>
    <| Session.usageMissingSteps ::= Z.add (Session.usageMissingSteps absorbed) |>.

Definition apply_patch (p : metadata_patch) (s : Session.session_row) : Session.session_row :=
  s <| Session.rootNodeId ::= fun c => default c (mp_rootNodeId p) |>
    <| Session.deploymentId ::= fun c => default c (mp_deploymentId p) |>
    <| Session.routeId ::= fun c => default c (mp_routeId p) |>
    <| Session.experimentId ::= fun c => default c (mp_experimentId p) |>
    <| Session.variantName ::= fun c => default c (mp_variantName p) |>.

(** [tx.delete(sessions)]: [schedule_run_sessions] references it with
    [on delete cascade]. *)
Definition delete_session (id : string) : Tx unit :=
  delete_where sessions_table (fun s => bool_decide (Session.id s = id)) ;;
  delete_where schedule_run_sessions_table
    (fun x => bool_decide (ScheduleRunSession.sessionId x = id)).

Definition mergeSessionRows (absorbed : Session.session_row) (survivingSessionId : string)
    (patch : metadata_patch) : Tx (option Session.session_row) :=
  _nodes <- update_where session_nodes_table
    (fun n => bool_decide (SessionNode.rootSessionId n = Session.id absorbed))
    (fun n => n <| SessionNode.rootSessionId := survivingSessionId |>) ;;
  moveSessionEventsForMerge (Session.id absorbed) survivingSessionId ;;
  _usage <- update_where model_usage_table
    (fun u => bool_decide (ModelUsage.sessionId u = Session.id absorbed))
    (fun u => u <| ModelUsage.sessionId := survivingSessionId |>) ;;
  surviving <- update_key sessions_table survivingSessionId (fun _ => true)
    (fun s => add_usage absorbed (apply_patch patch s)) ;;
  delete_session (Session.id absorbed) ;;
  ret surviving.

(** ** Session operations *)

Record session_input : Type := mk_session_input {
  si_projectId : string; si_deploymentId : option string; si_eveSessionId : option string;
  si_trigger : session_trigger; si_scheduleId : option string
}.

Definition set_project_session_status (projectId : string) (st : session_status) (now : time)
    : Tx unit :=
  _row <- update_key projects_table projectId (fun _ => true)
    (fun p => p <| Project.latestSessionStatus := Some st |> <| Project.updatedAt := now |>) ;;
  ret tt.

(** A new session row: the columns no caller sets take their defaults. *)
Definition new_session (id projectId : string) (deploymentId eveSessionId : option string)
    (trigger : session_trigger) (scheduleId scheduleRunId : option string) (startedAt : time)
    : Session.session_row :=
  Session.mk id projectId deploymentId eveSessionId None None None None trigger scheduleId
    scheduleRunId SessionStatus.running None startedAt None 0 0 0 0 None 0 0.

Definition createSession (input : session_input) : Tx Session.session_row :=
  transaction (
    id <- createId "sess" ;;
    now <- clock ;;
    row <- insert_row sessions_table
      (new_session id (si_projectId input) (si_deploymentId input) (si_eveSessionId input)
         (si_trigger input) (si_scheduleId input) None now) ;;
    set_project_session_status (si_projectId input) SessionStatus.running now ;;
    ret row).

Definition session_by_eve (projectId eveSessionId : string) (d : database)
    : option Session.session_row :=
  find_where (fun s => bool_decide (Session.projectId s = projectId)
                       && bool_decide (Session.eveSessionId s = Some eveSessionId))
    (sessions d).

Definition getSessionByEveSessionId (projectId eveSessionId : string)
    : Tx (option Session.session_row) :=
  read (session_by_eve projectId eveSessionId).

Definition appendSessionEvent (sessionId type : string) (payload : json)
    : Tx SessionEvent.session_event_row :=
  transaction (
    id <- createId "evt" ;;
    appendSessionEventRow id (plain_event sessionId type payload None)).

Record usage_input : Type := mk_usage_input {
  ui_eveSessionId : option string; ui_agentId : option string; ui_agentName : option string;
  ui_turnId : string; ui_stepIndex : option Z; ui_runKey : option string;
  ui_finishReason : option string; ui_inputTokens : option Z; ui_outputTokens : option Z;
  ui_cacheReadTokens : option Z; ui_cacheWriteTokens : option Z; ui_costUsd : option jsnum;
  ui_usageReported : bool
}.

(** The unique index a usage report is deduplicated by: the v26 step or the
    v27 run key. *)
Definition usage_target (runKey : option string) : unique_index ModelUsage.model_usage_row :=
  match runKey with
  | None => model_usage_session_eve_turn_step_idx
  | Some _ => model_usage_session_eve_run_idx
  end.

(** The row [recordModelUsage] inserts ([modelId] is left to its default). *)
Definition usage_row (id sessionId : string) (usage : usage_input) (now : time)
    : ModelUsage.model_usage_row :=
  ModelUsage.mk id sessionId None (default sessionId (ui_eveSessionId usage))
    (ui_agentId usage) (ui_agentName usage) (ui_turnId usage) (ui_stepIndex usage)
    (ui_runKey usage) None (ui_finishReason usage) (ui_inputTokens usage)
    (ui_outputTokens usage) (ui_cacheReadTokens usage) (ui_cacheWriteTokens usage)
    (ui_costUsd usage) (ui_usageReported usage) now.

Definition count_usage (usage : usage_input) (s : Session.session_row) : Session.session_row :=
  s <| Session.inputTokens ::= Z.add (default 0%Z (ui_inputTokens usage)) |>
    <| Session.outputTokens ::= Z.add (default 0%Z (ui_outputTokens usage)) |>
    <| Session.cacheReadTokens ::= Z.add (default 0%Z (ui_cacheReadTokens usage)) |>
    <| Session.cacheWriteTokens ::= Z.add (default 0%Z (ui_cacheWriteTokens usage)) |>
    <| Session.costUsd ::= fun c =>
         match ui_costUsd usage with
         | Some x => Some (js_add (default js_zero c) x)
         | None => c
         end |>
    <| Session.usageReportedSteps ::= Z.add (if ui_usageReported usage then 1 else 0)%Z |>
    <| Session.usageMissingSteps ::= Z.add (if ui_usageReported usage then 0 else 1)%Z |>.

Definition recordModelUsage (sessionId : string) (usage : usage_input)
    : Tx ModelUsage.model_usage_row :=
  throw_if (bool_decide (ui_runKey usage = None) && bool_decide (ui_stepIndex usage = None))
    (Error "Model usage needs a v26 step index or a v27 run key.") ;;
  transaction (
    id <- createId "usage" ;;
    now <- clock ;;
    let row := usage_row id sessionId usage now in
    inserted <- insert_or_ignore model_usage_table (usage_target (ui_runKey usage)) row ;;
    match inserted with
    | None =>
        existing <- read (fun d => find_where (ui_clash (usage_target (ui_runKey usage)) row)
                                     (modelUsageEvents d)) ;;
        some_or existing (Error "Failed to read the existing model usage event.")
    | Some row =>
        _s <- update_key sessions_table sessionId (fun _ => true) (count_usage usage) ;;
        ret row
    end).

(** An [undefined] field of the input is [None]. *)
Record complete_input : Type := mk_complete_input {
  ci_status : session_status;
  ci_eveSessionId : option (option string);
  ci_error : option (option string)
}.


Definition observed_placeholder (projectId eveSessionId sessionId : string) (d : database)
    : option Session.session_row :=
  find_where (fun s => bool_decide (Session.projectId s = projectId)
                       && bool_decide (Session.eveSessionId s = Some eveSessionId)
                       && negb (bool_decide (Session.id s = sessionId))) (sessions d).

Definition session_binding_of (projectId eveSessionId : string) (d : database)
    : option SessionBinding.session_binding_row :=
  find_where (fun b => bool_decide (SessionBinding.projectId b = projectId)
                       && bool_decide (SessionBinding.eveSessionId b = eveSessionId))
    (sessionBindings d).

Definition trigger_of_binding (t : binding_trigger) : session_trigger :=
  match t with
  | BindingTrigger.api => SessionTrigger.api
  | BindingTrigger.playground => SessionTrigger.playground
  end.

Definition apply_completion (input : complete_input) (currentError : option string)
    (binding : option SessionBinding.session_binding_row) (now : time)
    (s : Session.session_row) : Session.session_row :=
  let s := s <| Session.status := ci_status input |>
             <| Session.error :=
                  if bool_decide (ci_status input = SessionStatus.failed) then
                    match ci_error input with
                    | Some e => sanitizeStoredErrorText <$> e
                    | None => currentError
                    end
                  else None |>
             <| Session.eveSessionId ::= fun c => default c (ci_eveSessionId input) |> in
  let s := match binding with
           | Some b =>
               s <| Session.trigger := trigger_of_binding (SessionBinding.trigger b) |>
                 <| Session.routeId := Some (SessionBinding.routeId b) |>
                 <| Session.experimentId := SessionBinding.experimentId b |>
                 <| Session.variantName := SessionBinding.variantName b |>
                 <| Session.deploymentId := Some (SessionBinding.deploymentId b) |>
           | None => s
           end in
  s <| Session.completedAt :=
         if bool_decide (ci_status input = SessionStatus.completed)
            || bool_decide (ci_status input = SessionStatus.failed)
         then Some now else None |>.

(** The fold of the observed placeholder into the session being completed. *)
Definition merge_placeholder (sessionId : string) (current : Session.session_row)
    (eveSessionId : option string) : Tx Session.session_row :=
  match eveSessionId with
  | None => ret current
  | Some eve =>
      observed <- read (observed_placeholder (Session.projectId current) eve sessionId) ;;
      match observed with
      | None => ret current
      | Some o =>
          merged <- mergeSessionRows o sessionId
            (mk_metadata_patch
               (Some (or_else (Session.rootNodeId current) (Session.rootNodeId o)))
               (Some (or_else (Session.deploymentId current) (Session.deploymentId o)))
               (Some (or_else (Session.routeId current) (Session.routeId o)))
               (Some (or_else (Session.experimentId current) (Session.experimentId o)))
               (Some (or_else (Session.variantName current) (Session.variantName o)))) ;;
          ret (default current merged)
      end
  end.

(** The rest of the completion: the session's row, then its project's card. *)
Definition write_completion (sessionId : string) (input : complete_input)
    (eve : option string) (current : Session.session_row) : Tx (option Session.session_row) :=
  binding <- read (fun d => eve ← eve; session_binding_of (Session.projectId current) eve d) ;;
  now <- clock ;;
  row <- update_key sessions_table sessionId (fun _ => true)
           (apply_completion input (Session.error current) binding now) ;;
  match row with
  | None => ret None
  | Some row =>
      set_project_session_status (Session.projectId row) (ci_status input) now ;;
      ret (Some row)
  end.

Definition completeSession_attempt (sessionId : string) (input : complete_input)
    : Tx (option Session.session_row) :=
  transaction (
    current <- read (fun d => sessions d !! sessionId) ;;
    match current with
    | None => ret None
    | Some current =>
        let eve := truthy (default None (ci_eveSessionId input)) in
        current <- merge_placeholder sessionId current eve ;;
        write_completion sessionId input eve current
    end).

Definition completeSession (sessionId : string) (input : complete_input)
    : Tx (option Session.session_row) :=
  retryOnIdentityRace (completeSession_attempt sessionId input) alone
    (Some [sessionIdentityArbiter]) None.

(** ** Losing a runtime instance *)

(** The running sessions whose root node was last observed on the instance. *)
Definition interrupted_sessions (runtimeInstanceId : string) (d : database)
    : list (Session.session_row * SessionNode.session_node_row) :=
  base.filter (fun sn =>
      bool_decide (Session.status sn.1 = SessionStatus.running)
      && bool_decide (SessionNode.lastObservedRuntimeInstanceId sn.2 = Some runtimeInstanceId)
      = true)
    (inner_join (fun s n => bool_decide (SessionNode.rootSessionId n = Session.id s)
                            && bool_decide (SessionNode.parentNodeId n = None))
       (rows (sessions d)) (rows (sessionNodes d))).

(** Fails the running executions of the runs, the runs, and releases the
    runs' leases. *)
Definition release_run_leases (runIds : list string) (now : time) : Tx unit :=
  _l <- update_where activation_leases_table
    (fun l => bool_decide (ActivationLease.kind l = LeaseKind.schedule_run)
              && bool_decide (ActivationLease.ownerId l ∈ runIds)
              && bool_decide (ActivationLease.releasedAt l = None))
    (fun l => l <| ActivationLease.releasedAt := Some now |>) ;;
  ret tt.

Definition fail_executions (runIds sessionIds : list string) (reason : string) (now : time)
    : Tx unit :=
  _x <- update_where schedule_run_sessions_table
    (fun x => bool_decide (ScheduleRunSession.scheduleRunId x ∈ runIds)
              && bool_decide (ScheduleRunSession.sessionId x ∈ sessionIds)
              && bool_decide (ScheduleRunSession.status x = ExecutionStatus.running))
    (fun x => x <| ScheduleRunSession.status := ExecutionStatus.failed |>
                <| ScheduleRunSession.completedAt := Some now |>
                <| ScheduleRunSession.error := Some reason |>) ;;
  ret tt.

Definition fail_running_sessions (sessionIds : list string) (err : string) (now : time)
    : Tx unit :=
  _s <- update_where sessions_table
    (fun s => bool_decide (Session.id s ∈ sessionIds)
              && bool_decide (Session.status s = SessionStatus.running))
    (fun s => s <| Session.status := SessionStatus.failed |>
                <| Session.error := Some err |>
                <| Session.completedAt := Some now |>) ;;
  ret tt.

Definition fail_project_cards (projectIds : list string) (now : time) : Tx unit :=
  _p <- update_where projects_table (fun p => bool_decide (Project.id p ∈ projectIds))
    (fun p => p <| Project.latestSessionStatus := Some SessionStatus.failed |>
                <| Project.updatedAt := now |>) ;;
  ret tt.

Definition fail_run_row (reason : string) (now : time) (r : ScheduleRun.schedule_run_row)
    : ScheduleRun.schedule_run_row :=
  r <| ScheduleRun.status := RunStatus.failed |> <| ScheduleRun.error := Some reason |>
    <| ScheduleRun.completedAt := Some now |> <| ScheduleRun.updatedAt := now |>.

(** The rest of the projection, once sessions and nodes are failed. *)
Definition lost_tail (rti reason : string) (now : time)
    (interrupted : list (Session.session_row * SessionNode.session_node_row)) : Tx nat :=
  let sessionIds := (fun sn => Session.id sn.1) <$> interrupted in
  for_m interrupted (fun sn =>
    _b <- appendRuntimeLostEventTx (Session.id sn.1) rti reason now
            (Some (SessionNode.id sn.2))
            (Some (SessionNode.lastObservedDeploymentId sn.2)) ;;
    ret tt) ;;
  executions <- read (fun d => select_where (fun x =>
      bool_decide (ScheduleRunSession.sessionId x ∈ sessionIds)
      && bool_decide (ScheduleRunSession.status x = ExecutionStatus.running))
    (scheduleRunSessions d)) ;;
  let runIds := js_set (ScheduleRunSession.scheduleRunId <$> executions) in
  (if bool_decide (runIds = []) then ret tt
   else
     fail_executions runIds sessionIds reason now ;;
     _r <- update_where schedule_runs_table
       (fun r => bool_decide (ScheduleRun.id r ∈ runIds)
                 && bool_decide (ScheduleRun.status r = RunStatus.running))
       (fail_run_row reason now) ;;
     release_run_leases runIds now) ;;
  fail_project_cards (js_set ((fun sn => Session.projectId sn.1) <$> interrupted)) now ;;
  ret (length interrupted).

Definition failRunningSessionsForRuntimeInstance (runtimeInstanceId reason : string)
    (now : option time) : Tx nat :=
  now <- now_or now ;;
  transaction (
    interrupted <- read (interrupted_sessions runtimeInstanceId) ;;
    match interrupted with
    | [] => ret 0
    | _ =>
        let sessionIds := (fun sn => Session.id sn.1) <$> interrupted in
        let nodeIds := (fun sn => SessionNode.id sn.2) <$> interrupted in
        fail_running_sessions sessionIds (sanitizeStoredErrorText reason) now ;;
        _n <- update_where session_nodes_table
          (fun n => bool_decide (SessionNode.id n ∈ nodeIds))
          (fun n => n <| SessionNode.status := "failed" |> <| SessionNode.updatedAt := now |>) ;;
        lost_tail runtimeInstanceId reason now interrupted
    end).
End SessionStore.

(** ** The order of a session's events *)
#[local] Open Scope list_scope.

Section SessionFacts.
Context `{Platform}.

Definition event_indexes (sid : string) (d : database) : list Z :=
  SessionEvent.index <$> session_events_of sid d.

(** The events of each session carry the indexes 0, 1, 2, ... once each. *)
Definition events_numbered (d : database) : Prop :=
  forall sid, event_indexes sid d ≡ₚ seqZ 0 (Z.of_nat (length (session_events_of sid d))).

(** The events of a session in replay order, by identifier. *)
Definition replay (sid : string) (d : database) : list string :=
  SessionEvent.id <$> order_by (asc_by SessionEvent.index) (session_events_of sid d).

Lemma foldr_greatest_Some l m :
  foldr greatest None (Some <$> l) = Some m -> m ∈ l /\ forall x, x ∈ l -> (x <= m)%Z.
Proof.
  revert m. induction l as [|x l IH]; intros m; [done|].
  change (foldr greatest None (Some <$> (x :: l)))
    with (greatest (Some x) (foldr greatest None (Some <$> l))).
  destruct (foldr greatest None (Some <$> l)) as [m'|] eqn:Hm; simpl; intros Heq; simplify_eq.
  - destruct (IH m' eq_refl) as [Hin Hmax]. split.
    + destruct (Z.max_spec x m') as [[_ E]|[_ E]]; rewrite E; set_solver.
    + intros y [->|Hy]%elem_of_cons; [lia|]. specialize (Hmax y Hy). lia.
  - destruct l as [|y l]; [|by simpl in Hm; destruct (foldr greatest None _)].
    split; [set_solver|]. intros y Hy. apply list_elem_of_singleton in Hy. lia.
Qed.

Lemma foldr_greatest_None l : foldr greatest None (Some <$> l) = None -> l = [].
Proof. destruct l as [|x l]; [done|]. simpl. by destruct (foldr _ _ _). Qed.

(** The next index is the number of events so far. *)
Lemma next_event_index_length sid d :
  events_numbered d ->
  next_event_index sid d = Z.of_nat (length (session_events_of sid d)).
Proof.
  intros Hn. specialize (Hn sid). unfold next_event_index.
  replace ((fun e => Some (SessionEvent.index e)) <$> session_events_of sid d)
    with (Some <$> event_indexes sid d) by (unfold event_indexes; by rewrite <- list_fmap_compose).
  destruct (foldr greatest None _) as [m|] eqn:Hm.
  - apply foldr_greatest_Some in Hm as [Hin Hmax].
    rewrite Hn in Hin. apply elem_of_seqZ in Hin.
    assert (Hlast : (Z.of_nat (length (session_events_of sid d)) - 1)%Z ∈ event_indexes sid d)
      by (rewrite Hn; apply elem_of_seqZ; lia).
    specialize (Hmax _ Hlast). lia.
  - apply foldr_greatest_None in Hm. unfold event_indexes in Hm.
    by apply fmap_nil_inv in Hm as ->.
Qed.

(** Sorted lists of events with the same distinct indexes are equal. *)
Lemma replay_unique (l1 l2 : list SessionEvent.session_event_row) :
  NoDup (SessionEvent.index <$> l2) -> l1 ≡ₚ l2 ->
  StronglySorted (le_rel (asc_by SessionEvent.index)) l2 ->
  order_by (asc_by SessionEvent.index) l1 = l2.
Proof.
  intros Hnd Hp Hs. eapply (StronglySorted_unique_strong (le_rel (asc_by SessionEvent.index))).
  - intros x1 x2 H1 H2. unfold le_rel, asc_by. rewrite !Z.leb_le. intros Hle1 Hle2.
    rewrite elem_of_order_by, Hp in H1.
    assert (Heq : SessionEvent.index x1 = SessionEvent.index x2) by lia.
    apply list_elem_of_lookup in H1 as [i Hi]. apply list_elem_of_lookup in H2 as [j Hj].
    assert (i = j) as ->; [|congruence].
    eapply (NoDup_lookup _ _ _ (SessionEvent.index x1) Hnd); rewrite list_lookup_fmap.
    + by rewrite Hi.
    + rewrite Hj. simpl. by rewrite Heq.
  - apply order_by_sorted; apply _.
  - done.
  - by rewrite order_by_perm.
Qed.

Lemma numbered_NoDup sid d : events_numbered d -> NoDup (event_indexes sid d).
Proof. intros Hn. rewrite (Hn sid). apply NoDup_seqZ. Qed.

Lemma numbered_bound sid d e :
  events_numbered d -> e ∈ session_events_of sid d ->
  (0 <= SessionEvent.index e < Z.of_nat (length (session_events_of sid d)))%Z.
Proof.
  intros Hn He. assert (Hi : SessionEvent.index e ∈ event_indexes sid d)
    by (apply list_elem_of_fmap; eauto).
  rewrite (Hn sid) in Hi. apply elem_of_seqZ in Hi. lia.
Qed.

(** Appending a block of events numbered on from the end. *)
Lemma replay_app (l1 l2 : list SessionEvent.session_event_row) n1 :
  SessionEvent.index <$> l1 ≡ₚ seqZ 0 n1 ->
  NoDup (SessionEvent.index <$> l2) ->
  (forall e, e ∈ l2 -> (n1 <= SessionEvent.index e)%Z) ->
  order_by (asc_by SessionEvent.index) (l1 ++ l2) =
  order_by (asc_by SessionEvent.index) l1 ++ order_by (asc_by SessionEvent.index) l2.
Proof.
  intros H1 Hnd2 Hge. apply replay_unique.
  - rewrite fmap_app, !order_by_perm. apply NoDup_app. split; [rewrite H1; apply NoDup_seqZ|].
    split; [|done]. intros i Hi Hi2. rewrite H1 in Hi. apply elem_of_seqZ in Hi.
    apply list_elem_of_fmap in Hi2 as (e & -> & He). specialize (Hge e He). lia.
  - by rewrite !order_by_perm.
  - apply StronglySorted_app. split; [|split; apply order_by_sorted; apply _].
    intros x1 x2 Hx1 Hx2. rewrite elem_of_order_by in Hx1, Hx2. unfold le_rel, asc_by.
    assert (Hi : SessionEvent.index x1 ∈ seqZ 0 n1)
      by (rewrite <- H1; apply list_elem_of_fmap; eauto).
    apply elem_of_seqZ in Hi. specialize (Hge x2 Hx2). lia.
Qed.

(** ** Appending *)

Lemma appendSessionEventRow_ok id values s row s' :
  appendSessionEventRow id values s = (Ok row, s') ->
  SessionEvent.id row = id /\ SessionEvent.sessionId row = ev_sessionId values /\
  SessionEvent.index row = next_event_index (ev_sessionId values) (st_db s) /\
  SessionEvent.type row = ev_type values /\ SessionEvent.payload row = ev_payload values /\
  sessionEvents (st_db s) !! id = None /\
  s' = s <| st_db ::= set_field sessionEvents (insert id row) |>.
Proof.
  unfold appendSessionEventRow. intros Hrun.
  apply bind_ok in Hrun as (n & s1 & [= <- <-] & Hrun).
  apply bind_ok in Hrun as (now & s1 & [= <- <-] & Hrun).
  apply insert_row_ok in Hrun as (-> & Hn & _ & ->). done.
Qed.

Lemma appendSessionEventRow_err id values s e s' :
  appendSessionEventRow id values s = (Err e, s') -> s' = s.
Proof.
  unfold appendSessionEventRow, bind, read, clock, gets. intros Hrun.
  by apply insert_row_err in Hrun.
Qed.

(** The events of a session after an insert. *)
Lemma session_events_insert sid d k e :
  sessionEvents d !! k = None ->
  session_events_of sid (d <| sessionEvents ::= insert k e |>) ≡ₚ
    (if bool_decide (SessionEvent.sessionId e = sid) then [e] else []) ++ session_events_of sid d.
Proof. intros Hk. unfold session_events_of. simpl. by rewrite select_insert. Qed.

Lemma seqZ_snoc n : (0 <= n)%Z -> n :: seqZ 0 n ≡ₚ seqZ 0 (n + 1).
Proof.
  intros Hn. rewrite seqZ_app by lia. rewrite Z.add_0_l. rewrite (seqZ_cons n 1) by lia. apply Permutation_cons_append.
Qed.

Lemma numbered_insert d k e :
  sessionEvents d !! k = None ->
  SessionEvent.index e = next_event_index (SessionEvent.sessionId e) d ->
  events_numbered d -> events_numbered (d <| sessionEvents ::= insert k e |>).
Proof.
  intros Hk Hi Hn sid. unfold event_indexes.
  rewrite !(session_events_insert sid d k e Hk), fmap_app. case_bool_decide as Hs; simpl.
  - rewrite Hs, next_event_index_length in Hi by done. rewrite Hi, (Hn sid : _ <$> _ ≡ₚ _).
    match goal with |- _ ≡ₚ seqZ 0 ?m =>
      replace m with (Z.of_nat (length (session_events_of sid d)) + 1)%Z by lia end.
    apply seqZ_snoc. lia.
  - apply Hn.
Qed.

Lemma moves_append_numbered id values :
  moves (preserves events_numbered) (appendSessionEventRow id values).
Proof.
  intros s Hn. unfold exec. destruct (appendSessionEventRow id values s) as [[row|e] s'] eqn:Hrun.
  - apply appendSessionEventRow_ok in Hrun as (_ & Hs & Hi & _ & _ & Hk & ->). simpl.
    apply numbered_insert; [done | by rewrite Hs | done].
  - by apply appendSessionEventRow_err in Hrun as ->.
Qed.

Lemma moves_lost_numbered sid rti reason now node dep :
  moves (preserves events_numbered) (appendRuntimeLostEventTx sid rti reason now node dep).
Proof. unfold appendRuntimeLostEventTx. walk. apply moves_append_numbered. Qed.

(** ** Merging *)

Lemma session_events_move from to offset d :
  from <> to ->
  let d' := d <| sessionEvents ::= update_rows
      (fun e => bool_decide (SessionEvent.sessionId e = from))
      (renumbered to offset) |> in
  session_events_of from d' = [] /\
  session_events_of to d' ≡ₚ session_events_of to d ++ (renumbered to offset <$> session_events_of from d) /\
  forall sid, sid <> from -> sid <> to -> session_events_of sid d' ≡ₚ session_events_of sid d.
Proof.
  intros Hne d'. unfold session_events_of, d'. simpl. repeat split.
  - apply select_update_away; intros r; simpl; [by apply bool_decide_eq_false_2|done].
  - apply select_update_into; intros r; simpl; [by apply bool_decide_eq_true_2|].
    rewrite bool_decide_eq_true, bool_decide_eq_false. congruence.
  - intros sid Hf Ht. apply select_update_frame. intros r. simpl.
    rewrite bool_decide_eq_true, !bool_decide_eq_false. split; congruence.
Qed.

Lemma seqZ_shift n m k : Z.add k <$> seqZ n m = seqZ (k + n) m.
Proof. unfold seqZ. rewrite <- list_fmap_compose. apply list_fmap_ext. intros. simpl. lia. Qed.

Lemma index_renumbered to n (l : list SessionEvent.session_event_row) :
  SessionEvent.index <$> (renumbered to n <$> l) = Z.add n <$> (SessionEvent.index <$> l).
Proof. rewrite <- !list_fmap_compose. reflexivity. Qed.

Lemma numbered_move from to d :
  from <> to -> events_numbered d ->
  events_numbered (d <| sessionEvents ::= update_rows
    (fun e => bool_decide (SessionEvent.sessionId e = from))
    (renumbered to (next_event_index to d)) |>).
Proof.
  intros Hne Hn sid. rewrite next_event_index_length by done.
  set (n := Z.of_nat (length (session_events_of to d))).
  destruct (session_events_move from to n d Hne) as (Hfrom & Hto & Hother).
  unfold event_indexes. destruct (decide (sid = from)) as [->|Hf]; [by rewrite Hfrom|].
  destruct (decide (sid = to)) as [->|Ht]; [|by rewrite (Hother sid Hf Ht); apply Hn].
  rewrite Hto, fmap_app, length_app, length_fmap, index_renumbered, (Hn to : _ <$> _ ≡ₚ _), (Hn from : _ <$> _ ≡ₚ _), seqZ_shift.
  fold n. rewrite Nat2Z.inj_add, seqZ_app by lia. by rewrite !Z.add_0_r, Z.add_0_l.
Qed.

(** The replay after a move: the target's events, then the moved ones. *)
Lemma replay_move from to d :
  from <> to -> events_numbered d ->
  replay to (d <| sessionEvents ::= update_rows
    (fun e => bool_decide (SessionEvent.sessionId e = from))
    (renumbered to (next_event_index to d)) |>)
  = replay to d ++ replay from d.
Proof.
  intros Hne Hn. rewrite next_event_index_length by done.
  set (n := Z.of_nat (length (session_events_of to d))).
  destruct (session_events_move from to n d Hne) as (_ & Hto & _).
  unfold replay at 1.
  rewrite (replay_unique _ (order_by (asc_by SessionEvent.index) (session_events_of to d) ++
    (renumbered to n <$> order_by (asc_by SessionEvent.index) (session_events_of from d)))).
  - rewrite fmap_app, <- list_fmap_compose. reflexivity.
  - rewrite fmap_app, index_renumbered, !order_by_perm.
    rewrite (Hn to : _ <$> _ ≡ₚ _), (Hn from : _ <$> _ ≡ₚ _), seqZ_shift. fold n.
    rewrite Z.add_0_r. apply NoDup_app. split; [apply NoDup_seqZ|]. split; [|apply NoDup_seqZ].
    intros i. rewrite !elem_of_seqZ. lia.
  - by rewrite Hto, !order_by_perm.
  - apply StronglySorted_app. split; [|split; [apply order_by_sorted; apply _|]].
    + intros x1 x2 Hx1 Hx2. rewrite elem_of_order_by in Hx1.
      apply list_elem_of_fmap in Hx2 as (y & -> & Hy). rewrite elem_of_order_by in Hy.
      pose proof (numbered_bound _ _ _ Hn Hx1). pose proof (numbered_bound _ _ _ Hn Hy).
      unfold le_rel, asc_by. apply Z.leb_le. simpl. lia.
    + assert (Hs : StronglySorted (le_rel (asc_by SessionEvent.index))
        (order_by (asc_by SessionEvent.index) (session_events_of from d)))
        by (apply order_by_sorted; apply _).
      induction Hs as [|x l _ IH Hall]; simpl; constructor; [done|].
      rewrite Forall_fmap. eapply Forall_impl; [exact Hall|]. intros y Hy.
      unfold le_rel, asc_by in *. simpl. lia.
Qed.

Lemma observed_placeholder_ne pid eve sid d o :
  observed_placeholder pid eve sid d = Some o ->
  Session.id o <> sid /\ Session.projectId o = pid /\ Session.eveSessionId o = Some eve /\
  exists k, sessions d !! k = Some o.
Proof.
  intros [Ho Hk]%find_where_Some. apply andb_prop in Ho as [[Hp He]%andb_prop Hne].
  apply negb_true_iff, bool_decide_eq_false in Hne. apply bool_decide_eq_true in Hp, He. done.
Qed.

(** Statements on other tables leave the events alone. *)
Lemma numbered_frame d d' :
  sessionEvents d' = sessionEvents d -> preserves events_numbered d d'.
Proof.
  intros Heq Hn sid. unfold event_indexes, session_events_of in *. rewrite Heq. apply Hn.
Qed.

Lemma moves_move_numbered from to :
  from <> to -> moves (preserves events_numbered) (moveSessionEventsForMerge from to).
Proof.
  intros Hne s Hn. unfold exec, moveSessionEventsForMerge, bind, read, gets.
  destruct (update_where _ _ _ s) as [[l|e] s'] eqn:Hup; simpl.
  - apply update_where_ok in Hup as [_ ->]. simpl. by apply numbered_move.
  - by apply update_where_err in Hup as ->.
Qed.

Lemma moves_delete_session_numbered id : moves (preserves events_numbered) (delete_session id).
Proof. unfold delete_session. walk; apply moves_write; intros d; by apply numbered_frame. Qed.

Ltac frame_numbered :=
  first [ apply moves_insert_row; [apply _|] | apply moves_update_key; [apply _|]
        | apply moves_update_where; [apply _|] | apply moves_write ];
  intros; by apply numbered_frame.

Lemma moves_merge_numbered absorbed sid patch :
  Session.id absorbed <> sid ->
  moves (preserves events_numbered) (mergeSessionRows absorbed sid patch).
Proof.
  intros Hne. unfold mergeSessionRows. walk;
    try apply moves_delete_session_numbered; try frame_numbered.
  by apply moves_move_numbered.
Qed.

Lemma moves_set_project_numbered pid st now :
  moves (preserves events_numbered) (set_project_session_status pid st now).
Proof. unfold set_project_session_status. walk. frame_numbered. Qed.
#[local] Hint Resolve moves_set_project_numbered moves_delete_session_numbered
  moves_lost_numbered moves_append_numbered : moves.

Lemma moves_createSession_numbered input : moves (preserves events_numbered) (createSession input).
Proof. unfold createSession. walk; frame_numbered. Qed.

Lemma moves_appendSessionEvent_numbered sid ty p :
  moves (preserves events_numbered) (appendSessionEvent sid ty p).
Proof. unfold appendSessionEvent. walk. Qed.

Lemma moves_recordModelUsage_numbered sid usage :
  moves (preserves events_numbered) (recordModelUsage sid usage).
Proof. unfold recordModelUsage, insert_or_ignore. walk; frame_numbered. Qed.

Lemma moves_completeSession_attempt_numbered sid input :
  moves (preserves events_numbered) (completeSession_attempt sid input).
Proof.
  unfold completeSession_attempt, write_completion. walk; try frame_numbered.
  unfold merge_placeholder. destruct (truthy _) as [eve|]; [|walk].
  apply moves_bind_read. intros d. destruct (observed_placeholder _ _ _ d) as [o|] eqn:Ho; [|walk].
  walk. apply moves_merge_numbered. by apply observed_placeholder_ne in Ho as [? _].
Qed.

Lemma moves_retry {A} (R : relation database) `{!PreOrder R} (run : Tx A) arbiters attempt n :
  moves R run -> moves R (retry_loop run alone arbiters attempt n).
Proof.
  intros Hrun. revert attempt. induction n as [|n IH]; intros attempt; simpl; [done|].
  apply moves_try_catch; [apply _ | done|]. intros e. walk.
Qed.

Lemma moves_failRunning_numbered rti reason now :
  moves (preserves events_numbered) (failRunningSessionsForRuntimeInstance rti reason now).
Proof.
  unfold failRunningSessionsForRuntimeInstance, lost_tail, fail_running_sessions, fail_executions,
    release_run_leases, fail_project_cards.
  walk; frame_numbered.
Qed.

(** ** Executions of the session store

    The ingest of Eve's observations ([postgres-agent-observability-store.ts],
    not modelled) writes events by [appendSessionEventRow] and re-parents
    subagents by [mergeSessionRows]; both are steps here.  Other code leaves the
    sessions' events alone, or deletes a project's sessions with all their
    events. *)
Inductive session_step : store -> store -> Prop :=
  | step_createSession input s : session_step s (exec (createSession input) s)
  | step_appendSessionEvent sid ty p s :
      session_step s (exec (appendSessionEvent sid ty p) s)
  | step_appendSessionEventRow id values s :
      session_step s (exec (transaction (appendSessionEventRow id values)) s)
  | step_appendRuntimeLost sid rti reason now node dep s :
      session_step s (exec (transaction (appendRuntimeLostEventTx sid rti reason now node dep)) s)
  | step_recordModelUsage sid usage s :
      is_Some (sessions (st_db s) !! sid) ->
      session_step s (exec (recordModelUsage sid usage) s)
  | step_completeSession sid input s : session_step s (exec (completeSession sid input) s)
  | step_mergeSessionRows absorbed sid patch s :
      sessions (st_db s) !! Session.id absorbed = Some absorbed ->
      is_Some (sessions (st_db s) !! sid) -> Session.id absorbed <> sid ->
      session_step s (exec (transaction (mergeSessionRows absorbed sid patch)) s)
  | step_failRunning rti reason now s :
      session_step s (exec (failRunningSessionsForRuntimeInstance rti reason now) s).

Lemma session_step_numbered s s' :
  session_step s s' -> events_numbered (st_db s) -> events_numbered (st_db s').
Proof.
  intros Hs; destruct Hs.
  - apply moves_createSession_numbered.
  - apply moves_appendSessionEvent_numbered.
  - apply (moves_transaction (preserves events_numbered)), moves_append_numbered.
  - apply (moves_transaction (preserves events_numbered)), moves_lost_numbered.
  - apply moves_recordModelUsage_numbered.
  - apply (moves_retry (preserves events_numbered)), moves_completeSession_attempt_numbered.
  - by apply (moves_transaction (preserves events_numbered)), moves_merge_numbered.
  - apply moves_failRunning_numbered.
Qed.

(** ** Usage counters *)

Inductive counter := InputTokens | OutputTokens | CacheRead | CacheWrite | Reported | Missing.

Definition session_count (c : counter) (s : Session.session_row) : Z :=
  match c with
  | InputTokens => Session.inputTokens s
  | OutputTokens => Session.outputTokens s
  | CacheRead => Session.cacheReadTokens s
  | CacheWrite => Session.cacheWriteTokens s
  | Reported => Session.usageReportedSteps s
  | Missing => Session.usageMissingSteps s
  end.

Definition usage_count (c : counter) (u : ModelUsage.model_usage_row) : Z :=
  match c with
  | InputTokens => default 0%Z (ModelUsage.inputTokens u)
  | OutputTokens => default 0%Z (ModelUsage.outputTokens u)
  | CacheRead => default 0%Z (ModelUsage.cacheReadTokens u)
  | CacheWrite => default 0%Z (ModelUsage.cacheWriteTokens u)
  | Reported => if ModelUsage.usageReported u then 1 else 0
  | Missing => if ModelUsage.usageReported u then 0 else 1
  end.

Definition usage_of (sid : string) (d : database) : list ModelUsage.model_usage_row :=
  select_where (fun u => bool_decide (ModelUsage.sessionId u = sid)) (modelUsageEvents d).

(** Each session's counters are the totals of its usage rows; every usage row
    has its session. *)
Record counters_ok (d : database) : Prop := {
  co_keyed : keyed sessions_table d;
  co_session : forall k u, modelUsageEvents d !! k = Some u ->
    is_Some (sessions d !! ModelUsage.sessionId u);
  co_totals : forall c sid s, sessions d !! sid = Some s ->
    session_count c s = sum_by (usage_count c) (usage_of sid d)
}.

(** Transitions that leave the usage rows and the counters alone; a new
    session starts at zero. *)
Definition calm_counts (d d' : database) : Prop :=
  modelUsageEvents d' = modelUsageEvents d /\
  (forall k, is_Some (sessions d !! k) -> is_Some (sessions d' !! k)) /\
  forall k s', sessions d' !! k = Some s' ->
    (exists s, sessions d !! k = Some s /\ Session.id s' = Session.id s /\
       forall c, session_count c s' = session_count c s) \/
    (sessions d !! k = None /\ Session.id s' = k /\ forall c, session_count c s' = 0%Z).

#[global] Instance calm_counts_preorder : PreOrder calm_counts.
Proof.
  split; [intros d; repeat split; [done|]; intros k s Hk; left; by exists s|].
  intros d1 d2 d3 (U12 & E12 & R12) (U23 & E23 & R23). split; [congruence|]. split; [auto|].
  intros k s3 Hk3. destruct (R23 k s3 Hk3) as [(s2 & Hk2 & Hi2 & Hc2)|(Hn & Hi & Hz)].
  - destruct (R12 k s2 Hk2) as [(s1 & Hk1 & Hi1 & Hc1)|(Hn & Hi & Hz)].
    + left. exists s1. split; [done|]. split; [congruence|]. intros c. by rewrite Hc2.
    + right. split; [done|]. split; [congruence|]. intros c. by rewrite Hc2.
  - right. split; [|done]. destruct (sessions d1 !! k) as [s1|] eqn:H1; [|done].
    destruct (E12 k ltac:(by eexists)) as [? ?]. congruence.
Qed.

Lemma calm_counts_ok d d' : calm_counts d d' -> counters_ok d -> counters_ok d'.
Proof.
  intros (Hu & He & Hr) [Hkey Hfk Htot]. split.
  - intros k s' Hk. destruct (Hr k s' Hk) as [(s & Hk' & Hi & _)|(_ & Hi & _)]; [|done].
    simpl. rewrite Hi. by apply Hkey.
  - intros k u Hk. rewrite Hu in Hk. eauto.
  - intros c sid s' Hk. unfold usage_of. rewrite Hu.
    destruct (Hr sid s' Hk) as [(s & Hk' & _ & Hc)|(Hn & _ & Hz)].
    + rewrite Hc. by apply Htot.
    + rewrite Hz. symmetry.
      replace (select_where _ (modelUsageEvents d)) with (@nil ModelUsage.model_usage_row); [done|].
      symmetry. apply elem_of_nil_inv. intros u [Hs [k Hku]]%elem_of_select.
      apply bool_decide_eq_true in Hs. destruct (Hfk k u Hku) as [? ?]. congruence.
Qed.

Lemma calm_counts_frame d d' :
  sessions d' = sessions d -> modelUsageEvents d' = modelUsageEvents d -> calm_counts d d'.
Proof.
  intros Hs Hu. split; [done|]. rewrite Hs. split; [done|]. intros k s Hk. left. by exists s.
Qed.

Lemma calm_counts_update k (f : Session.session_row -> Session.session_row) d s :
  sessions d !! k = Some s -> Session.id (f s) = Session.id s ->
  (forall c, session_count c (f s) = session_count c s) ->
  calm_counts d (tbl_set sessions_table (insert k (f s)) d).
Proof.
  intros Hk Hi Hc. split; [done|]. simpl. split.
  - intros k' Hk'. destruct (decide (k = k')) as [<-|Hne]; [rewrite lookup_insert_eq; by eexists|].
    by rewrite lookup_insert_ne.
  - intros k' s'. destruct (decide (k = k')) as [<-|Hne].
    + rewrite lookup_insert_eq. intros [= <-]. left. by exists s.
    + rewrite lookup_insert_ne by done. intros Hk'. left. by exists s'.
Qed.

Lemma calm_counts_update_rows p (f : Session.session_row -> Session.session_row) d :
  (forall s, Session.id (f s) = Session.id s) ->
  (forall c s, session_count c (f s) = session_count c s) ->
  calm_counts d (tbl_set sessions_table (update_rows p f) d).
Proof.
  intros Hi Hc. split; [done|]. simpl. split.
  - intros k [s Hk]. rewrite update_rows_lookup, Hk. by eexists.
  - intros k s'. rewrite update_rows_lookup, fmap_Some. intros (s & Hk & ->). left. exists s.
    destruct (p s); [by rewrite Hi|done].
Qed.

Lemma calm_counts_insert d s :
  sessions d !! Session.id s = None -> (forall c, session_count c s = 0%Z) ->
  calm_counts d (tbl_set sessions_table (insert (Session.id s) s) d).
Proof.
  intros Hn Hz. split; [done|]. simpl. split.
  - intros k Hk. destruct (decide (Session.id s = k)) as [<-|Hne];
      [rewrite lookup_insert_eq; by eexists | by rewrite lookup_insert_ne].
  - intros k s'. destruct (decide (Session.id s = k)) as [<-|Hne].
    + rewrite lookup_insert_eq. intros [= <-]. by right.
    + rewrite lookup_insert_ne by done. intros Hk. left. by exists s'.
Qed.

(** ** What a merge leaves behind *)

Lemma moveSessionEventsForMerge_ok from to s u s' :
  moveSessionEventsForMerge from to s = (Ok u, s') ->
  s' = s <| st_db ::= set_field sessionEvents (update_rows
    (fun e => bool_decide (SessionEvent.sessionId e = from))
    (renumbered to (next_event_index to (st_db s)))) |>.
Proof.
  unfold moveSessionEventsForMerge. intros Hrun.
  apply bind_ok in Hrun as (n & s1 & [= <- <-] & Hrun).
  apply bind_ok in Hrun as (l & s1 & (_ & ->)%update_where_ok & [= _ <-]). done.
Qed.

Definition merged_usage (from to : string) : gmap string ModelUsage.model_usage_row ->
    gmap string ModelUsage.model_usage_row :=
  update_rows (fun u => bool_decide (ModelUsage.sessionId u = from))
    (fun u => u <| ModelUsage.sessionId := to |>).

Lemma mergeSessionRows_ok absorbed sid patch s o s' :
  keyed sessions_table (st_db s) -> Session.id absorbed <> sid ->
  mergeSessionRows absorbed sid patch s = (Ok o, s') ->
  let d := st_db s in let d' := st_db s' in
  sessionEvents d' = sessionEvents (d <| sessionEvents ::= update_rows
    (fun e => bool_decide (SessionEvent.sessionId e = Session.id absorbed))
    (renumbered sid (next_event_index sid d)) |>) /\
  modelUsageEvents d' = merged_usage (Session.id absorbed) sid (modelUsageEvents d) /\
  sessions d' !! Session.id absorbed = None /\
  o = (fun s => add_usage absorbed (apply_patch patch s)) <$> sessions d !! sid /\
  sessions d' !! sid = o /\
  forall k, k <> Session.id absorbed -> k <> sid -> sessions d' !! k = sessions d !! k.
Proof.
  intros Hkey Hne Hrun. unfold mergeSessionRows in Hrun.
  apply bind_ok in Hrun as (l1 & s1 & (_ & ->)%update_where_ok & Hrun).
  apply bind_ok in Hrun as (u & s1 & Hmv & Hrun).
  apply moveSessionEventsForMerge_ok in Hmv as ->.
  apply bind_ok in Hrun as (l2 & s1 & (_ & ->)%update_where_ok & Hrun).
  apply bind_ok in Hrun as (o' & s1 & Hup & Hrun).
  apply bind_ok in Hrun as (u2 & s2 & Hdel & [= -> <-]).
  unfold delete_session, delete_where, bind, write, modify in Hdel. injection Hdel as _ <-.
  assert (Hfilter : forall (m : gmap string Session.session_row) k,
    (forall k r, m !! k = Some r -> Session.id r = k) ->
    base.filter (fun kr : string * Session.session_row =>
      bool_decide (Session.id kr.2 = Session.id absorbed) = false) m !! k =
    if bool_decide (k = Session.id absorbed) then None else m !! k).
  { intros m k Hm. case_bool_decide as Hk.
    - apply map_lookup_filter_None. right. intros r Hr. simpl.
      rewrite bool_decide_eq_false, (Hm k r Hr). auto.
    - destruct (m !! k) as [r|] eqn:Hr.
      + apply map_lookup_filter_Some. split; [done|]. simpl.
        by rewrite bool_decide_eq_false, (Hm k r Hr).
      + apply map_lookup_filter_None. by left. }
  assert (Hshape : sessionEvents (st_db s1) = sessionEvents ((st_db s) <| sessionEvents ::=
      update_rows (fun e => bool_decide (SessionEvent.sessionId e = Session.id absorbed))
        (renumbered sid (next_event_index sid (st_db s))) |>) /\
    modelUsageEvents (st_db s1) = merged_usage (Session.id absorbed) sid
      (modelUsageEvents (st_db s)) /\
    keyed sessions_table (st_db s1) /\
    o = (fun s => add_usage absorbed (apply_patch patch s)) <$> sessions (st_db s) !! sid /\
    sessions (st_db s1) !! sid = o /\
    forall k, k <> sid -> sessions (st_db s1) !! k = sessions (st_db s) !! k).
  { apply update_key_ok in Hup as [(-> & -> & Hno)|(sv & Hk & _ & -> & _ & ->)]; simpl in *.
    - repeat split; try done. all: destruct (sessions (st_db s) !! sid) as [sv|] eqn:Hsv; try done;
        by specialize (Hno sv eq_refl).
    - rewrite Hk. split; [done|]. split; [done|]. split; [|split; [done|]].
      + apply (keyed_insert sessions_table); [apply _ | exact Hkey|]. simpl. by apply Hkey.
      + split; [by rewrite lookup_insert_eq|]. intros k Hks. by rewrite lookup_insert_ne. }
  destruct Hshape as (He & Hu & Hk1 & Ho & Hsid & Hoth). cbv zeta. simpl.
  split; [exact He|]. split; [exact Hu|].
  rewrite !Hfilter by exact Hk1. rewrite bool_decide_eq_true_2 by done. split; [done|].
  split; [done|]. rewrite bool_decide_eq_false_2 by done. split; [done|].
  intros k Hka Hks. rewrite Hfilter by exact Hk1. rewrite bool_decide_eq_false_2 by done. auto.
Qed.

Lemma session_count_merge c absorbed patch s :
  session_count c (add_usage absorbed (apply_patch patch s))
  = (session_count c absorbed + session_count c s)%Z.
Proof. by destruct c. Qed.

Lemma merged_usage_of from to d d' :
  from <> to -> modelUsageEvents d' = merged_usage from to (modelUsageEvents d) ->
  usage_of to d' ≡ₚ usage_of to d ++
    ((fun u => u <| ModelUsage.sessionId := to |>) <$> usage_of from d) /\
  forall sid, sid <> from -> sid <> to -> usage_of sid d' ≡ₚ usage_of sid d.
Proof.
  intros Hne Hu. unfold usage_of. rewrite Hu. unfold merged_usage. split.
  - apply select_update_into; intros r; simpl; [by apply bool_decide_eq_true_2|].
    rewrite bool_decide_eq_true, bool_decide_eq_false. congruence.
  - intros sid Hf Ht. apply select_update_frame. intros r. simpl.
    rewrite bool_decide_eq_true, !bool_decide_eq_false. split; congruence.
Qed.

Lemma merge_counters absorbed sid patch s o s' :
  sessions (st_db s) !! Session.id absorbed = Some absorbed ->
  is_Some (sessions (st_db s) !! sid) -> Session.id absorbed <> sid ->
  mergeSessionRows absorbed sid patch s = (Ok o, s') ->
  counters_ok (st_db s) -> counters_ok (st_db s').
Proof.
  intros Habs [sv Hsv] Hne Hrun [Hkey Hfk Htot].
  apply mergeSessionRows_ok in Hrun as (_ & Hu & Hnone & Ho & Hsid & Hoth); [|done..].
  rewrite Hsv in Ho. simpl in Ho. subst o. 
  destruct (merged_usage_of _ _ _ _ Hne Hu) as [Hto Hsame].
  assert (Hcase : forall k r, sessions (st_db s') !! k = Some r ->
    (k = sid /\ r = add_usage absorbed (apply_patch patch sv)) \/
    (k <> sid /\ k <> Session.id absorbed /\ sessions (st_db s) !! k = Some r)).
  { intros k r Hk. destruct (decide (k = sid)) as [->|Hs]; [left; by simplify_eq|].
    destruct (decide (k = Session.id absorbed)) as [->|Ha]; [congruence|].
    right. rewrite Hoth in Hk by done. done. }
  split.
  - intros k r Hk. destruct (Hcase k r Hk) as [(-> & ->)|(_ & _ & Hk')]; simpl;
      by apply Hkey.
  - intros k u Hk. rewrite Hu in Hk. unfold merged_usage in Hk.
    rewrite update_rows_lookup, fmap_Some in Hk. destruct Hk as (u0 & Hk & ->).
    case_bool_decide as Hm; simpl; [rewrite Hsid; by eexists|].
    destruct (Hfk k u0 Hk) as [r Hr]. destruct (decide (ModelUsage.sessionId u0 = sid)) as [->|Hs];
      [rewrite Hsid; by eexists|]. rewrite Hoth by done. by eexists.
  - intros c k r Hk. destruct (Hcase k r Hk) as [(-> & ->)|(Hs & Ha & Hk')].
    + rewrite session_count_merge, Hto, sum_by_app, sum_by_fmap.
      rewrite (Htot c _ _ Habs), (Htot c _ _ Hsv).
      replace (usage_count c ∘ _) with (usage_count c); [lia|]. by destruct c.
    + rewrite (Hsame k Ha Hs). by apply Htot.
Qed.

(** ** Recording usage *)

Lemma recordModelUsage_ok sid usage s row s' :
  recordModelUsage sid usage s = (Ok row, s') ->
  let s0 := s <| st_draws ::= S |> in
  let fresh := usage_row ("usage_" +:+ nanoid (st_draws s)) sid usage (st_clock s) in
  let target := usage_target (ui_runKey usage) in
  (ui_runKey usage <> None \/ ui_stepIndex usage <> None) /\
  ((s' = s0 /\ clashes target (modelUsageEvents (st_db s)) (ModelUsage.id fresh) fresh = true /\
    find_where (ui_clash target fresh) (modelUsageEvents (st_db s)) = Some row) \/
   (row = fresh /\ modelUsageEvents (st_db s) !! ModelUsage.id fresh = None /\
    (forall u, u ∈ tbl_uniques model_usage_table ->
       clashes u (modelUsageEvents (st_db s)) (ModelUsage.id fresh) fresh = false) /\
    clashes target (modelUsageEvents (st_db s)) (ModelUsage.id fresh) fresh = false /\
    st_db s' = let d1 := (st_db s) <| modelUsageEvents ::= insert (ModelUsage.id fresh) fresh |> in
      match sessions (st_db s) !! sid with
      | Some sr => d1 <| sessions ::= insert sid (count_usage usage sr) |>
      | None => d1
      end)).
Proof.
  intros Hrun s0 fresh target. unfold recordModelUsage in Hrun.
  apply bind_ok in Hrun as (u & s1 & [Hid ->]%throw_if_ok & Hrun). split.
  { destruct (ui_runKey usage); [by left|]. destruct (ui_stepIndex usage); [by right|done]. }
  rewrite transaction_ok in Hrun.
  apply bind_ok in Hrun as (id & s1 & [= <- <-] & Hrun).
  apply bind_ok in Hrun as (now & s1 & [= <- <-] & Hrun). cbv zeta in Hrun.
  apply bind_ok in Hrun as (o & s1 & Hins & Hrun).
  change (usage_row _ _ _ _) with fresh in Hins, Hrun. fold target in Hins, Hrun.
  apply insert_or_ignore_ok in Hins as [(-> & -> & Hc)|(-> & Hc & Hins)].
  - left. apply bind_ok in Hrun as (ex & s1 & [= <- <-] & [Hf ->]%some_or_ok). done.
  - right. apply insert_row_ok in Hins as (_ & Hn & Hu & ->).
    apply bind_ok in Hrun as (ur & s1 & Hup & [= -> <-]).
    split; [done|]. split; [done|]. split; [done|]. split; [done|].
    apply update_key_ok in Hup as [(_ & -> & Hno)|(sr & Hk & _ & _ & _ & ->)]; simpl in *.
    + destruct (sessions (st_db s) !! sid) as [sr|]; [by specialize (Hno sr eq_refl)|done].
    + by rewrite Hk.
Qed.

Lemma usage_of_insert sid d k u :
  modelUsageEvents d !! k = None ->
  usage_of sid (d <| modelUsageEvents ::= insert k u |>) ≡ₚ
    (if bool_decide (ModelUsage.sessionId u = sid) then [u] else []) ++ usage_of sid d.
Proof. intros Hk. unfold usage_of. simpl. by rewrite select_insert. Qed.

Lemma session_count_usage c id sid usage now s :
  session_count c (count_usage usage s)
  = (usage_count c (usage_row id sid usage now) + session_count c s)%Z.
Proof. by destruct c. Qed.

Lemma record_counters sid usage :
  forall s, is_Some (sessions (st_db s) !! sid) -> counters_ok (st_db s) ->
  counters_ok (st_db (exec (recordModelUsage sid usage) s)).
Proof.
  intros s [sr Hsr] Hok. unfold exec.
  destruct (recordModelUsage sid usage s) as [[row|e] s'] eqn:Hrun; simpl.
  2: { unfold recordModelUsage in Hrun. destruct (bool_decide _ && bool_decide _).
       - by injection Hrun as _ <-.
       - rewrite (bind_step _ _ s tt s eq_refl) in Hrun. apply transaction_err in Hrun.
         by rewrite Hrun. }
  apply recordModelUsage_ok in Hrun as (_ & [(-> & _)|(_ & Hn & _ & _ & ->)]); [done|].
  rewrite Hsr. set (fresh := usage_row _ _ _ _) in *. destruct Hok as [Hkey Hfk Htot].
  assert (Hu : forall k, usage_of k ((st_db s) <| modelUsageEvents ::= insert (ModelUsage.id fresh) fresh |>
      <| sessions ::= insert sid (count_usage usage sr) |>) ≡ₚ
      (if bool_decide (sid = k) then [fresh] else []) ++ usage_of k (st_db s)).
  { intros k. exact (usage_of_insert k (st_db s) (ModelUsage.id fresh) fresh Hn). }
  split.
  - apply (keyed_insert sessions_table); [apply _ | exact Hkey|]. simpl. by apply Hkey.
  - intros k u. simpl. destruct (decide (ModelUsage.id fresh = k)) as [<-|Hne].
    + rewrite lookup_insert_eq. intros [= <-]. simpl. rewrite lookup_insert_eq. by eexists.
    + rewrite lookup_insert_ne by done. intros Hk.
      destruct (decide (sid = ModelUsage.sessionId u)) as [<-|Hs].
      * rewrite lookup_insert_eq. by eexists.
      * rewrite lookup_insert_ne by done. eauto.
  - intros c k r Hk. rewrite (Hu k), sum_by_app. simpl in Hk.
    destruct (decide (sid = k)) as [<-|Hs].
    + rewrite lookup_insert_eq in Hk. injection Hk as <-.
      rewrite bool_decide_eq_true_2 by done. rewrite <- (Htot c _ _ Hsr).
      rewrite (session_count_usage c ("usage_" +:+ nanoid (st_draws s)) sid usage (st_clock s)).
      fold fresh. simpl. lia.
    + rewrite lookup_insert_ne in Hk by done. rewrite bool_decide_eq_false_2 by done.
      rewrite <- (Htot c _ _ Hk). done.
Qed.

(** ** The other operations leave the counters alone *)

Lemma moves_set_project_counts pid st now : moves calm_counts (set_project_session_status pid st now).
Proof.
  unfold set_project_session_status. walk. apply moves_update_key; [apply _|].
  intros. by apply calm_counts_frame.
Qed.
#[local] Hint Resolve moves_set_project_counts : moves.

Lemma moves_createSession_counts input : moves calm_counts (createSession input).
Proof.
  unfold createSession. walk. apply moves_insert_row; [apply _|]. intros d Hn.
  apply calm_counts_insert; [done|]. by intros [].
Qed.

Lemma moves_append_counts id values : moves calm_counts (appendSessionEventRow id values).
Proof.
  unfold appendSessionEventRow. walk. apply moves_insert_row; [apply _|].
  intros. by apply calm_counts_frame.
Qed.
#[local] Hint Resolve moves_append_counts : moves.

Lemma moves_lost_counts sid rti reason now node dep :
  moves calm_counts (appendRuntimeLostEventTx sid rti reason now node dep).
Proof. unfold appendRuntimeLostEventTx. walk. Qed.
#[local] Hint Resolve moves_lost_counts : moves.

Lemma moves_write_completion_counts sid input eve cur :
  moves calm_counts (write_completion sid input eve cur).
Proof.
  unfold write_completion. walk. apply moves_update_key; [apply _|]. intros d r Hk _.
  apply calm_counts_update; [done| |].
  - unfold apply_completion. by repeat case_match.
  - intros []; unfold apply_completion; by repeat case_match.
Qed.

Lemma moves_failRunning_counts rti reason now :
  moves calm_counts (failRunningSessionsForRuntimeInstance rti reason now).
Proof.
  unfold failRunningSessionsForRuntimeInstance, lost_tail, fail_running_sessions, fail_executions,
    release_run_leases, fail_project_cards.
  walk; apply moves_update_where; try apply _; intros;
    first [by apply calm_counts_frame | by apply calm_counts_update_rows; try (by intros [])].
Qed.

Lemma completeSession_counters sid input :
  moves (preserves counters_ok) (completeSession_attempt sid input).
Proof.
  intros s Hok. unfold exec. destruct (completeSession_attempt sid input s) as [[o|e] s'] eqn:Hrun.
  2: { unfold completeSession_attempt in Hrun. apply transaction_err in Hrun. simpl.
       by rewrite Hrun. }
  unfold completeSession_attempt in Hrun. rewrite transaction_ok in Hrun.
  apply bind_ok in Hrun as (cur & s1 & [= <- <-] & Hrun).
  destruct (sessions (st_db s) !! sid) as [cur|] eqn:Hcur; [|by injection Hrun as _ <-].
  cbv zeta in Hrun. apply bind_ok in Hrun as (cur' & s1 & Hmerge & Hrun).
  assert (Hok1 : counters_ok (st_db s1)).
  { unfold merge_placeholder in Hmerge. destruct (truthy _) as [eve|]; [|by injection Hmerge as _ <-].
    apply bind_ok in Hmerge as (ob & s2 & [= <- <-] & Hmerge).
    destruct (observed_placeholder _ _ _ _) as [ob|] eqn:Hob; [|by injection Hmerge as _ <-].
    apply observed_placeholder_ne in Hob as (Hne & _ & _ & k & Hk).
    apply bind_ok in Hmerge as (m & s2 & Hm & [= _ <-]).
    eapply merge_counters; [| |exact Hne|exact Hm|done].
    - by rewrite (co_keyed _ Hok k ob Hk : Session.id ob = k).
    - by eexists. }
  pose proof (moves_write_completion_counts sid input
    (truthy (default None (ci_eveSessionId input))) cur' s1) as Hc.
  unfold exec in Hc. rewrite Hrun in Hc. simpl in *. by eapply calm_counts_ok.
Qed.

Lemma calm_counts_step {A} (m : Tx A) : moves calm_counts m -> moves (preserves counters_ok) m.
Proof. apply moves_mono. intros d d' Hc. exact (calm_counts_ok d d' Hc). Qed.

Lemma session_step_counters s s' :
  session_step s s' -> counters_ok (st_db s) -> counters_ok (st_db s').
Proof.
  intros Hs; destruct Hs as [| | | | | |absorbed sid patch s Habs Hsv Hne|].
  - apply calm_counts_step, moves_createSession_counts.
  - apply (calm_counts_step (appendSessionEvent sid ty p)). unfold appendSessionEvent. walk.
  - apply (calm_counts_step (transaction _)). walk.
  - apply (calm_counts_step (transaction _)). walk.
  - by apply record_counters.
  - apply (moves_retry (preserves counters_ok)), completeSession_counters.
  - intros Hok. destruct (transaction_db (mergeSessionRows absorbed sid patch) s) as [->|[o Ho]];
      [done|]. by eapply merge_counters.
  - apply calm_counts_step, moves_failRunning_counts.
Qed.

(** ** Reporting the same usage again *)

Lemma usage_target_clash id1 id2 sid usage now1 now2 r :
  ui_clash (usage_target (ui_runKey usage)) (usage_row id1 sid usage now1) r =
  ui_clash (usage_target (ui_runKey usage)) (usage_row id2 sid usage now2) r.
Proof. unfold usage_target. by destruct (ui_runKey usage) as [k|] eqn:Hk. Qed.

Lemma usage_target_self id sid usage now :
  ui_runKey usage <> None \/ ui_stepIndex usage <> None ->
  ui_clash (usage_target (ui_runKey usage)) (usage_row id sid usage now)
    (usage_row id sid usage now) = true.
Proof.
  intros Hid. unfold usage_target. destruct (ui_runKey usage) as [k|] eqn:Hk.
  - unfold model_usage_session_eve_run_idx. simpl. apply same_key_clash. simpl.
    rewrite Hk. simpl. eauto.
  - unfold model_usage_session_eve_turn_step_idx. simpl. apply same_key_clash. simpl.
    destruct (ui_stepIndex usage) as [n|]; [|by destruct Hid]. simpl. eauto.
Qed.

Lemma recordModelUsage_existing sid usage s row :
  ui_runKey usage <> None \/ ui_stepIndex usage <> None ->
  let id := "usage_" +:+ nanoid (st_draws s) in
  let fresh := usage_row id sid usage (st_clock s) in
  let target := usage_target (ui_runKey usage) in
  modelUsageEvents (st_db s) !! id = None ->
  find_where (ui_clash target fresh) (modelUsageEvents (st_db s)) = Some row ->
  recordModelUsage sid usage s = (Ok row, s <| st_draws ::= S |>).
Proof.
  intros Hid id fresh target Hn Hf. unfold recordModelUsage.
  rewrite (bind_step _ _ s tt s); [|by destruct (ui_runKey usage), (ui_stepIndex usage), Hid].
  unfold transaction. erewrite bind_step by reflexivity. erewrite bind_step by reflexivity.
  cbv zeta. change (usage_row _ _ _ _) with fresh. fold target.
  assert (Hc : clashes target (modelUsageEvents (st_db s)) (ModelUsage.id fresh) fresh = true).
  { apply find_where_Some in Hf as (Hc & k & Hk). apply clashes_true. exists k, row.
    split; [done|]. split; [|done]. intros ->. simpl in Hk. fold id in Hk. congruence. }
  rewrite (bind_step _ _ _ None (s <| st_draws ::= S |>)).
  - erewrite bind_step by reflexivity. simpl. by rewrite Hf.
  - unfold insert_or_ignore. erewrite bind_step by reflexivity. simpl in *. by rewrite Hc.
Qed.

(** ** Losing an instance *)

Lemma for_m_ok {A} (R : relation database) `{!PreOrder R} (f : A -> Tx unit) xs s u s' :
  (forall x, moves R (f x)) -> for_m xs f s = (Ok u, s') ->
  forall x, x ∈ xs -> exists s1 s2, f x s1 = (Ok tt, s2) /\ R (st_db s2) (st_db s').
Proof.
  intros Hf. revert s u. induction xs as [|y xs IH]; intros s u Hrun x Hx;
    [by apply not_elem_of_nil in Hx|].
  apply bind_ok in Hrun as ([] & s1 & Hy & Hrun). apply elem_of_cons in Hx as [->|Hx].
  - exists s, s1. split; [done|]. 
    assert (Hm : moves R (for_m xs f)) by (by apply moves_for_m).
    change (for_m xs f s1 = (Ok u, s')) in Hrun.
    specialize (Hm s1). unfold exec in Hm. by rewrite Hrun in Hm.
  - by eapply IH.
Qed.

Definition events_grow (d d' : database) : Prop := sessionEvents d ⊆ sessionEvents d'.

#[global] Instance events_grow_preorder : PreOrder events_grow.
Proof. unfold events_grow. split; [intros d; done | intros d1 d2 d3; apply transitivity]. Qed.

Lemma moves_append_grow id values : moves events_grow (appendSessionEventRow id values).
Proof.
  unfold appendSessionEventRow. walk. apply moves_insert_row; [apply _|]. intros d Hn.
  unfold events_grow. simpl. by apply insert_subseteq.
Qed.
#[local] Hint Resolve moves_append_grow : moves.

Lemma moves_lost_grow sid rti reason now node dep :
  moves events_grow (appendRuntimeLostEventTx sid rti reason now node dep).
Proof. unfold appendRuntimeLostEventTx. walk. Qed.

Lemma appendRuntimeLost_event sid rti reason now node dep s b s' :
  appendRuntimeLostEventTx sid rti reason now node dep s = (Ok b, s') ->
  exists k e, sessionEvents (st_db s') !! k = Some e /\ is_runtime_lost sid rti e = true.
Proof.
  unfold appendRuntimeLostEventTx. intros Hrun.
  apply bind_ok in Hrun as (o & s1 & [= <- <-] & Hrun).
  destruct (find_where _ _) as [e|] eqn:Hf.
  - injection Hrun as _ <-. apply find_where_Some in Hf as (He & k & Hk). eauto.
  - apply bind_ok in Hrun as (id & s1 & [= <- <-] & Hrun).
    apply bind_ok in Hrun as (row & s1 & Happ & [= _ <-]).
    apply appendSessionEventRow_ok in Happ as (_ & Hs & _ & Ht & Hp & _ & ->).
    eexists _, row. split; [simpl; apply lookup_insert_eq|].
    unfold is_runtime_lost. rewrite Hs, Ht, Hp. simpl.
    by rewrite !bool_decide_eq_true_2.
Qed.

(** What the loss of an instance does not touch after its first two updates. *)
Definition same_sessions (d d' : database) : Prop :=
  sessions d' = sessions d /\ sessionNodes d' = sessionNodes d /\ events_grow d d'.

#[global] Instance same_sessions_preorder : PreOrder same_sessions.
Proof.
  split; [intros d; repeat split; done|]. intros d1 d2 d3 (?&?&?) (?&?&?).
  repeat split; [congruence..|by etransitivity].
Qed.

Lemma same_sessions_frame d d' :
  sessions d' = sessions d -> sessionNodes d' = sessionNodes d ->
  sessionEvents d' = sessionEvents d -> same_sessions d d'.
Proof. intros Hs Hn He. repeat split; [done..|]. unfold events_grow. by rewrite He. Qed.

Lemma moves_lost_same sid rti reason now node dep :
  moves same_sessions (appendRuntimeLostEventTx sid rti reason now node dep).
Proof.
  unfold appendRuntimeLostEventTx, appendSessionEventRow. walk.
  apply moves_insert_row; [apply _|]. intros d Hn. repeat split.
  unfold events_grow. simpl. by apply insert_subseteq.
Qed.

Lemma elem_of_interrupted rti d s n :
  (s, n) ∈ interrupted_sessions rti d <->
  (exists k, sessions d !! k = Some s) /\ (exists k, sessionNodes d !! k = Some n) /\
  SessionNode.rootSessionId n = Session.id s /\ SessionNode.parentNodeId n = None /\
  Session.status s = SessionStatus.running /\
  SessionNode.lastObservedRuntimeInstanceId n = Some rti.
Proof.
  unfold interrupted_sessions. rewrite list_elem_of_filter, elem_of_inner_join, !elem_of_rows.
  simpl. rewrite !andb_true_iff, !bool_decide_eq_true. tauto.
Qed.

Lemma lost_tail_ok rti reason now l s n s' :
  lost_tail rti reason now l s = (Ok n, s') ->
  n = length l /\ same_sessions (st_db s) (st_db s') /\
  forall sn, sn ∈ l -> exists k e, sessionEvents (st_db s') !! k = Some e /\
    is_runtime_lost (Session.id sn.1) rti e = true.
Proof.
  intros Hrun.
  assert (Hn : n = length l).
  { unfold lost_tail in Hrun. do 4 (apply bind_ok in Hrun as (? & ? & _ & Hrun)).
    by injection Hrun as <- _. }
  assert (Hsame : moves same_sessions (lost_tail rti reason now l)).
  { unfold lost_tail, fail_executions, release_run_leases, fail_project_cards.
    walk; try apply moves_lost_same; apply moves_update_where; try apply _;
      intros; by apply same_sessions_frame. }
  split; [done|]. split.
  { specialize (Hsame s). unfold exec in Hsame. by rewrite Hrun in Hsame. }
  unfold lost_tail in Hrun. apply bind_ok in Hrun as (u & s1 & Hloop & Hrun).
  assert (Hrest : events_grow (st_db s1) (st_db s')).
  { match type of Hrun with ?m s1 = _ => assert (Hm : moves same_sessions m) end.
    { unfold fail_executions, release_run_leases, fail_project_cards.
      walk; apply moves_update_where; try apply _; intros; by apply same_sessions_frame. }
    specialize (Hm s1). unfold exec in Hm. rewrite Hrun in Hm. apply Hm. }
  intros sn Hin. eapply (for_m_ok events_grow) in Hloop as (sa & sb & Hx & Hg); [| |exact Hin].
  - apply bind_ok in Hx as (b & sc & Happ & [= <-]).
    apply appendRuntimeLost_event in Happ as (k & e & Hk & He).
    exists k, e. split; [|done]. eapply lookup_weaken; [exact Hk|]. by etransitivity.
  - intros x. walk. apply moves_lost_grow.
Qed.

(** A completion that answers did so in one attempt, from these tables. *)
Lemma completeSession_attempted sid input s o s' :
  completeSession sid input s = (Ok o, s') ->
  exists s0, st_db s0 = st_db s /\ completeSession_attempt sid input s0 = (Ok o, s').
Proof.
  unfold completeSession, retryOnIdentityRace. simpl. unfold try_catch.
  destruct (completeSession_attempt sid input s) as [[o1|e] s1] eqn:Hrun.
  - intros [= <- <-]. by exists s.
  - destruct (_ || _); [|done]. unfold bind, alone, ret. intros Hrun2. exists s1.
    split; [|done]. unfold completeSession_attempt in Hrun. by apply transaction_err in Hrun.
Qed.

Lemma write_completion_ok sid input eve cur s row s' :
  write_completion sid input eve cur s = (Ok (Some row), s') ->
  sessions (st_db s') !! sid = Some row /\ sessionEvents (st_db s') = sessionEvents (st_db s) /\
  (forall k, k <> sid -> sessions (st_db s') !! k = sessions (st_db s) !! k) /\
  clashes sessions_project_eve_session_idx (sessions (st_db s)) sid row = false /\
  Session.status row = ci_status input /\
  exists r0, sessions (st_db s) !! sid = Some r0 /\ Session.id row = Session.id r0 /\
    Session.projectId row = Session.projectId r0 /\
    Session.eveSessionId row = default (Session.eveSessionId r0) (ci_eveSessionId input).
Proof.
  unfold write_completion. intros Hrun.
  apply bind_ok in Hrun as (b & s1 & [= <- <-] & Hrun).
  apply bind_ok in Hrun as (now & s1 & [= <- <-] & Hrun).
  apply bind_ok in Hrun as (o & s1 & Hup & Hrun).
  destruct o as [row'|]; [|done].
  apply bind_ok in Hrun as (u & s2 & Hset & [= -> ->]).
  apply update_key_ok in Hup as [(? & _)|(r0 & Hk & _ & [= ->] & Hu & ->)]; [done|].
  unfold set_project_session_status in Hset.
  apply bind_ok in Hset as (p & s3 & Hp & [= _ <-]).
  assert (Hs : sessions (st_db s3) = <[sid := apply_completion input (Session.error cur)
      (eve ← eve; session_binding_of (Session.projectId cur) eve (st_db s)) (st_clock s) r0]>
      (sessions (st_db s)) /\ sessionEvents (st_db s3) = sessionEvents (st_db s)).
  { apply update_key_ok in Hp as [(_ & -> & _)|(p0 & _ & _ & _ & _ & ->)]; done. }
  destruct Hs as [Hs He]. rewrite Hs.
  split; [apply lookup_insert_eq|]. split; [done|].
  split; [intros k Hne; by rewrite lookup_insert_ne|].
  split; [apply Hu; simpl; set_solver|]. unfold apply_completion.
  split; [by repeat case_match|]. exists r0. split; [done|]. by repeat case_match.
Qed.

(** What the winners of [i] races committed, from the given attempt on. *)
Fixpoint commits (winners : nat -> database -> database) (attempt i : nat) (d : database)
    : database :=
  match i with
  | O => d
  | S i => commits winners (S attempt) i (winners attempt d)
  end.

(** ** Properties *)

(** C5. In every execution of the session operations (appends, lost-instance
    events, completions, merges), the events of each session stay numbered
    0, 1, 2, ... without gap or repetition. *)
Theorem session_events_stay_numbered s s' :
  events_numbered (st_db s) -> rtc session_step s s' -> events_numbered (st_db s').
Proof. intros Hn Hrtc. induction Hrtc; eauto using session_step_numbered. Qed.

(** A merge keeps the order of both sessions: the surviving session
    replays its own events, then those of the absorbed one in their order, and
    the absorbed session is gone with none left; other sessions replay as
    before. *)
Lemma merge_replays_in_order absorbed sid patch s o s' :
  keyed sessions_table (st_db s) -> events_numbered (st_db s) ->
  Session.id absorbed <> sid -> mergeSessionRows absorbed sid patch s = (Ok o, s') ->
  replay sid (st_db s') = replay sid (st_db s) ++ replay (Session.id absorbed) (st_db s) /\
  session_events_of (Session.id absorbed) (st_db s') = [] /\
  sessions (st_db s') !! Session.id absorbed = None /\
  forall k, k <> sid -> k <> Session.id absorbed ->
    session_events_of k (st_db s') ≡ₚ session_events_of k (st_db s).
Proof.
  intros Hkey Hn Hne Hrun.
  apply mergeSessionRows_ok in Hrun as (He & _ & Hnone & _ & _ & _); [|done..].
  rewrite <- (replay_move _ _ _ Hne Hn).
  destruct (session_events_move _ _ (next_event_index sid (st_db s)) (st_db s) Hne)
    as (Hfrom & _ & Hother).
  unfold replay, session_events_of in *. rewrite He. repeat split; try done.
  intros k Hks Hka. by apply Hother.
Qed.

(** C6. Token and step counters are conserved: in every execution, merges
    included, the counters of each session are the sums over its usage rows,
    so no report is counted twice or lost. *)
Theorem usage_counters_are_totals s s' c sid row :
  counters_ok (st_db s) -> rtc session_step s s' ->
  sessions (st_db s') !! sid = Some row ->
  session_count c row = sum_by (usage_count c) (usage_of sid (st_db s')).
Proof.
  intros Hok Hrtc Hrow. assert (Hend : counters_ok (st_db s')) by
    (induction Hrtc; eauto using session_step_counters).
  by apply co_totals.
Qed.

(** Recording a usage report is idempotent: a report delivered again
    answers with the same row and changes no table. *)
Lemma recordModelUsage_idempotent sid usage s row s1 :
  recordModelUsage sid usage s = (Ok row, s1) ->
  ids_fresh "usage" model_usage_table s1 ->
  exists s2, recordModelUsage sid usage s1 = (Ok row, s2) /\ st_db s2 = st_db s1.
Proof.
  intros Hrun Hfresh. apply recordModelUsage_ok in Hrun as (Hid & Hcase). cbv zeta in Hcase.
  eexists. split; [apply recordModelUsage_existing; [done|by apply Hfresh|]|done].
  destruct Hcase as [(-> & _ & Hf)|(-> & Hn & Hu & Hc & Hdb)].
  - simpl in *. rewrite <- Hf. unfold find_where, select_where. f_equal.
    apply list_filter_iff. intros r.
    by rewrite (usage_target_clash _ ("usage_" +:+ nanoid (st_draws s)) _ _ _ (st_clock s)).
  - set (fresh := usage_row _ _ _ (st_clock s)) in *.
    assert (Hus : modelUsageEvents (st_db s1)
      = <[ModelUsage.id fresh := fresh]> (modelUsageEvents (st_db s))).
    { rewrite Hdb. by destruct (sessions (st_db s) !! sid). }
    rewrite Hus.
    destruct (find_where _ _) as [r|] eqn:Hf.
    + apply find_where_Some in Hf as (Hcl & k & Hk). f_equal.
      destruct (decide (ModelUsage.id fresh = k)) as [<-|Hne].
      * rewrite lookup_insert_eq in Hk. by injection Hk as <-.
      * rewrite lookup_insert_ne in Hk by done. exfalso. rewrite clashes_false in Hc.
        specialize (Hc k r Hk (not_eq_sym Hne)).
        rewrite (usage_target_clash _ ("usage_" +:+ nanoid (st_draws s)) _ _ _ (st_clock s)) in Hcl.
        fold fresh in Hcl. congruence.
    + rewrite find_where_None in Hf.
      specialize (Hf (ModelUsage.id fresh) fresh (lookup_insert_eq _ _ _)).
      rewrite (usage_target_clash _ ("usage_" +:+ nanoid (st_draws s)) _ _ _ (st_clock s)) in Hf.
      fold fresh in Hf. pose proof (usage_target_self ("usage_" +:+ nanoid (st_draws s)) sid
        usage (st_clock s) Hid) as Hself. fold fresh in Hself. congruence.
Qed.

(** Losing an instance leaves nothing running on it: the call reports the
    number of interrupted sessions, none is left afterwards, and each of them
    is failed with the reason and carries a [platform.runtime_lost] event. *)
Lemma failRunningSessions_leaves_none rti reason now s n s' :
  keyed sessions_table (st_db s) -> keyed session_nodes_table (st_db s) ->
  failRunningSessionsForRuntimeInstance rti reason (Some now) s = (Ok n, s') ->
  n = length (interrupted_sessions rti (st_db s)) /\
  interrupted_sessions rti (st_db s') = [] /\
  forall sess node, (sess, node) ∈ interrupted_sessions rti (st_db s) ->
    (exists r, sessions (st_db s') !! Session.id sess = Some r /\
       Session.status r = SessionStatus.failed /\
       Session.error r = Some (sanitizeStoredErrorText reason)) /\
    exists k e, sessionEvents (st_db s') !! k = Some e /\
      is_runtime_lost (Session.id sess) rti e = true.
Proof.
  intros Hks Hkn Hrun. unfold failRunningSessionsForRuntimeInstance in Hrun.
  apply bind_ok in Hrun as (t & s1 & [= <- <-] & Hrun). rewrite transaction_ok in Hrun.
  apply bind_ok in Hrun as (l & s1 & [= <- <-] & Hrun).
  destruct (interrupted_sessions rti (st_db s)) as [|sn0 l0] eqn:Hl.
  { injection Hrun as <- <-. split; [done|]. split; [done|]. intros ? ? Hin.
    by apply not_elem_of_nil in Hin. }
  rewrite <- Hl in *. set (l := interrupted_sessions rti (st_db s)) in *. cbv zeta in Hrun.
  apply bind_ok in Hrun as (u & s1 & Hf & Hrun).
  unfold fail_running_sessions in Hf.
  apply bind_ok in Hf as (x & s2 & (_ & ->)%update_where_ok & [= _ <-]).
  apply bind_ok in Hrun as (y & s2 & (_ & ->)%update_where_ok & Hrun).
  apply lost_tail_ok in Hrun as (Hn & (Hs & Hnd & _) & Hev). simpl in Hs, Hnd.
  split; [done|]. split.
  - apply elem_of_nil_inv. intros [sess node] Hin. apply elem_of_interrupted in Hin as
      ((k & Hk) & (kn & Hkn') & Hroot & Hpar & Hst & Hobs).
    rewrite Hs, update_rows_lookup, fmap_Some in Hk. destruct Hk as (sess0 & Hk & ->).
    rewrite Hnd, update_rows_lookup, fmap_Some in Hkn'. destruct Hkn' as (node0 & Hkn' & Hnode).
    destruct (bool_decide (Session.id sess0 ∈ _) && _) eqn:Hfail; [done|].
    assert (Hin : (sess0, node0) ∈ l).
    { apply elem_of_interrupted.
      destruct (bool_decide (SessionNode.id node0 ∈ _)); subst node; simpl in *; eauto 10. }
    apply andb_false_iff in Hfail as [Hfail|Hfail]; apply bool_decide_eq_false in Hfail; [|done].
    apply Hfail, list_elem_of_fmap. by exists (sess0, node0).
  - intros sess node Hin. split; [|by apply (Hev (sess, node))].
    pose proof Hin as Hin'. apply elem_of_interrupted in Hin' as ((k & Hk) & _ & _ & _ & Hst & _).
    rewrite (Hks _ _ Hk : Session.id sess = k). rewrite Hs, update_rows_lookup, Hk. simpl.
    rewrite bool_decide_eq_true_2 by (apply list_elem_of_fmap; by exists (sess, node)).
    rewrite bool_decide_eq_true_2 by done. simpl. by eexists.
Qed.

(** A completion that names an Eve session gives it to this session alone:
    afterwards the session's row carries it and no other session of the
    project does; an observed placeholder that held it is gone, and its events
    follow the session's own. *)
Lemma completeSession_claims_eve_session sid input eve s row s' :
  keyed sessions_table (st_db s) -> events_numbered (st_db s) ->
  ci_eveSessionId input = Some (Some eve) -> eve <> "" ->
  completeSession sid input s = (Ok (Some row), s') ->
  sessions (st_db s') !! sid = Some row /\ Session.status row = ci_status input /\
  Session.eveSessionId row = Some eve /\
  (forall k r, sessions (st_db s') !! k = Some r -> Session.eveSessionId r = Some eve ->
     Session.projectId r = Session.projectId row -> k = sid) /\
  match observed_placeholder (Session.projectId row) eve sid (st_db s) with
  | Some o => sessions (st_db s') !! Session.id o = None /\
      replay sid (st_db s') = replay sid (st_db s) ++ replay (Session.id o) (st_db s)
  | None => replay sid (st_db s') = replay sid (st_db s)
  end.
Proof.
  intros Hkey Hn Heve Hne Hrun.
  apply completeSession_attempted in Hrun as (s0 & Hs0 & Hrun). rewrite <- Hs0 in *. clear Hs0 s.
  unfold completeSession_attempt in Hrun. rewrite transaction_ok in Hrun.
  apply bind_ok in Hrun as (cur & s1 & [= <- <-] & Hrun).
  destruct (sessions (st_db s0) !! sid) as [cur|] eqn:Hcur; [|done].
  cbv zeta in Hrun. apply bind_ok in Hrun as (cur' & s1 & Hmerge & Hrun).
  rewrite Heve in Hmerge.
  assert (Htr : truthy (default None (Some (Some eve))) = Some eve) by (by destruct eve).
  rewrite Htr in Hmerge.
  apply write_completion_ok in Hrun as (Hrow & He & Hoth & Hcl & Hst & r0 & Hr0 & Hid & Hp & Hev).
  rewrite Heve in Hev. simpl in Hev.
  assert (Huniq : forall k r, sessions (st_db s') !! k = Some r ->
    Session.eveSessionId r = Some eve -> Session.projectId r = Session.projectId row -> k = sid).
  { intros k r Hk Hke Hkp. destruct (decide (k = sid)) as [|Hks]; [done|]. exfalso.
    rewrite Hoth in Hk by done. rewrite clashes_false in Hcl. specialize (Hcl k r Hk Hks).
    revert Hcl. unfold sessions_project_eve_session_idx. simpl. unfold same_key. simpl.
    rewrite Hev, Hke. simpl. rewrite Hkp. by rewrite bool_decide_eq_true_2. }
  do 3 (split; [done|]). split; [exact Huniq|].
  unfold merge_placeholder in Hmerge. apply bind_ok in Hmerge as (ob & s2 & [= <- <-] & Hmerge).
  assert (Hproj : Session.projectId row = Session.projectId cur).
  { rewrite Hp. destruct (observed_placeholder (Session.projectId cur) eve sid (st_db s0)) as [ob|] eqn:Hob.
    - apply observed_placeholder_ne in Hob as (Hobne & _).
      apply bind_ok in Hmerge as (m & s2 & Hm & [= _ <-]).
      apply mergeSessionRows_ok in Hm as (_ & _ & _ & Ho & Hsid & _); [|done..].
      rewrite Hcur in Ho. rewrite Hsid, Ho in Hr0. by injection Hr0 as <-.
    - injection Hmerge as <- <-. rewrite Hcur in Hr0. by injection Hr0 as <-. }
  rewrite Hproj.
  destruct (observed_placeholder (Session.projectId cur) eve sid (st_db s0)) as [ob|] eqn:Hob.
  - apply observed_placeholder_ne in Hob as (Hobne & _).
    apply bind_ok in Hmerge as (m & s2 & Hm & [= _ <-]).
    apply mergeSessionRows_ok in Hm as (Hme & _ & Hnone & _ & _ & _); [|done..].
    split; [by rewrite Hoth|]. rewrite <- (replay_move _ _ _ Hobne Hn).
    unfold replay, session_events_of. by rewrite He, Hme.
  - injection Hmerge as _ <-. unfold replay, session_events_of. by rewrite He.
Qed.

(** [retryOnIdentityRace] around a transaction is one transaction: after
    some number [i] of lost races (none of them leaves a trace) the body
    runs on the tables the winners committed, and its answer is the answer;
    the body runs at most [maxAttempts] times, and an error it answers before
    the last attempt is not an identity race. *)
Lemma retryOnIdentityRace_is_one_transaction {A} (body : Tx A) winners arbiters n s r s' :
  retryOnIdentityRace (transaction body) (fun k => write (winners k)) arbiters (Some (S n)) s
    = (r, s') ->
  exists i s0, i <= n /\ st_db s0 = commits winners 1 i (st_db s) /\
    transaction body s0 = (r, s') /\
    (i < n -> forall e, r = Err e -> existsb (isUniqueConstraint e)
      (default [sessionIdentityArbiter; sessionNodeIdentityArbiter] arbiters) = false).
Proof.
  unfold retryOnIdentityRace. simpl. rewrite Nat.sub_0_r. generalize 1 as attempt.
  generalize (default [sessionIdentityArbiter; sessionNodeIdentityArbiter] arbiters) as arbs.
  intros arbs attempt. revert attempt s.
  induction n as [|n IH]; intros attempt s Hrun.
  - exists 0, s. repeat split; [done|done|lia].
  - simpl in Hrun. unfold try_catch in Hrun.
    destruct (transaction body s) as [[a|e] s1] eqn:Hbody.
    + injection Hrun as <- <-. exists 0, s. repeat split; [lia|done|done].
    + destruct (existsb (isUniqueConstraint e) arbs) eqn:Harb.
      * apply IH in Hrun as (i & s0 & Hi & Hs0 & Hr & Hlast). exists (S i), s0.
        split; [lia|]. split; [|split; [done|intros; apply Hlast; [lia|done]]].
        rewrite Hs0. simpl. by rewrite (transaction_err _ _ _ _ Hbody).
      * injection Hrun as <- <-. exists 0, s. repeat split; [lia|done|].
        by intros _ e' [= <-].
Qed.
End SessionFacts.

(** ** Witnesses *)
Section SessionWitnesses.
#[local] Existing Instance sample_platform.

(** A playground session and an observed placeholder of the Eve session [e1],
    each with an event; usage reported on the placeholder; the playground
    session learns its Eve id and completes. *)
Definition chat0 : store := sample_store sample_database.
Definition chat1 : store :=
  exec (createSession (mk_session_input "p" None None SessionTrigger.playground None)) chat0.
Definition chat2 : store :=
  exec (createSession (mk_session_input "p" None (Some "e1") SessionTrigger.api None)) chat1.
Definition chat3 : store := exec (appendSessionEvent "sess_0" "turn.started" JNull) chat2.
Definition chat4 : store := exec (appendSessionEvent "sess_1" "turn.completed" JNull) chat3.
Definition chat_usage : usage_input :=
  mk_usage_input (Some "e1") None None "turn-1" (Some 0%Z) None None (Some 10%Z) (Some 20%Z)
    None None None true.
Definition chat5 : store := exec (recordModelUsage "sess_1" chat_usage) chat4.
Definition chat_done : complete_input :=
  mk_complete_input SessionStatus.completed (Some (Some "e1")) None.
Definition chat6 : store := exec (completeSession "sess_0" chat_done) chat5.

Lemma chat_steps : rtc session_step chat0 chat6.
Proof.
  apply (rtc_l _ _ chat1); [apply step_createSession|].
  apply (rtc_l _ _ chat2); [apply step_createSession|].
  apply (rtc_l _ _ chat3); [apply step_appendSessionEvent|].
  apply (rtc_l _ _ chat4); [apply step_appendSessionEvent|].
  apply (rtc_l _ _ chat5); [apply step_recordModelUsage; vm_compute; by eexists|].
  apply (rtc_l _ _ chat6); [apply step_completeSession | apply rtc_refl].
Qed.

Lemma chat0_numbered : events_numbered (st_db chat0).
Proof. intros sid. by vm_compute. Qed.

Lemma chat0_counters : counters_ok (st_db chat0).
Proof. split; [intros k r Hk | intros k r Hk | intros c k r Hk]; by vm_compute in Hk. Qed.

Lemma chat5_numbered : events_numbered (st_db chat5).
Proof.
  assert (Hsteps : rtc session_step chat0 chat5).
  { apply (rtc_l _ _ chat1); [apply step_createSession|].
    apply (rtc_l _ _ chat2); [apply step_createSession|].
    apply (rtc_l _ _ chat3); [apply step_appendSessionEvent|].
    apply (rtc_l _ _ chat4); [apply step_appendSessionEvent|].
    apply (rtc_l _ _ chat5); [apply step_recordModelUsage; vm_compute; by eexists|].
    apply rtc_refl. }
  pose proof chat0_numbered as Hn. revert Hn. induction Hsteps; eauto using session_step_numbered.
Qed.

Lemma chat5_keyed : keyed sessions_table (st_db chat5).
Proof.
  apply (bool_decide_unpack (map_Forall (fun k r => Session.id r = k)
    (sessions (st_db chat5)))). by vm_compute.
Qed.

Lemma session_events_stay_numbered_witness :
  events_numbered (st_db chat6) /\ replay "sess_0" (st_db chat6) = ["evt_2"; "evt_3"].
Proof.
  split; [|by vm_compute].
  exact (session_events_stay_numbered chat0 chat6 chat0_numbered chat_steps).
Defined.

Lemma merge_replays_in_order_witness :
  exists absorbed o s', mergeSessionRows absorbed "sess_0" no_patch chat5 = (Ok o, s') /\
    replay "sess_0" (st_db s') = ["evt_2"] ++ ["evt_3"].
Proof.
  destruct (sessions (st_db chat5) !! "sess_1") as [absorbed|] eqn:Ha; [|by vm_compute in Ha].
  assert (Hid : Session.id absorbed = "sess_1") by (by apply chat5_keyed).
  destruct (mergeSessionRows absorbed "sess_0" no_patch chat5) as [[o|e] s'] eqn:Hrun.
  2: { vm_compute in Ha. injection Ha as <-. by vm_compute in Hrun. }
  exists absorbed, o, s'. split; [exact Hrun|].
  destruct (merge_replays_in_order absorbed "sess_0" no_patch chat5 o s' chat5_keyed
    chat5_numbered) as [Hreplay _]; [by rewrite Hid | exact Hrun|].
  rewrite Hreplay, Hid. by vm_compute.
Defined.

Lemma usage_counters_are_totals_witness :
  exists row, sessions (st_db chat6) !! "sess_0" = Some row /\
    Session.outputTokens row = 20%Z /\
    session_count OutputTokens row
      = sum_by (usage_count OutputTokens) (usage_of "sess_0" (st_db chat6)).
Proof.
  destruct (sessions (st_db chat6) !! "sess_0") as [row|] eqn:Hr; [|by vm_compute in Hr].
  exists row. split; [reflexivity|]. split; [vm_compute in Hr; by injection Hr as <-|].
  apply (usage_counters_are_totals chat0 chat6); [apply chat0_counters|apply chat_steps|exact Hr].
Defined.

Lemma usage_id_4 n : "usage" +:+ "_" +:+ pretty.pretty n = "usage_4" -> n = 4.
Proof. intros Heq. injection Heq as Heq. by apply (inj pretty.pretty n 4). Qed.

Lemma recordModelUsage_idempotent_witness :
  exists row s2, recordModelUsage "sess_1" chat_usage chat4 = (Ok row, chat5) /\
    recordModelUsage "sess_1" chat_usage chat5 = (Ok row, s2) /\ st_db s2 = st_db chat5.
Proof.
  destruct (recordModelUsage "sess_1" chat_usage chat4) as [[row|e] s1] eqn:Hrun;
    [|by vm_compute in Hrun].
  assert (Hs1 : s1 = chat5) by (unfold chat5, exec; by rewrite Hrun). subst s1.
  exists row.
  destruct (recordModelUsage_idempotent "sess_1" chat_usage chat4 row chat5 Hrun) as (s2 & H2 & Hd).
  - intros n Hn. 
    assert (Hall : map_Forall (fun k _ => k = "usage_4") (tbl model_usage_table (st_db chat5))).
    { apply (bool_decide_unpack (map_Forall (fun k _ => k = "usage_4") _)). by vm_compute. }
    destruct (tbl model_usage_table (st_db chat5) !! _) as [u|] eqn:Hu; [|done].
    apply Hall, usage_id_4 in Hu. subst n. assert (Hd5 : st_draws chat5 = 5) by (by vm_compute).
    rewrite Hd5 in Hn. lia.
  - exists s2. exact (conj eq_refl (conj H2 Hd)).
Defined.

(** A session whose root node was last observed on [rti_9]. *)
Definition lost0 : store :=
  sample_store (sample_database
    <| sessions := {[ "sess_9" := new_session "sess_9" "p" None (Some "e9")
                                    SessionTrigger.api None None 0 ]} |>
    <| sessionNodes := {[ "node_9" := SessionNode.mk "node_9" "sess_9" "p" "e9" None None "dep_1"
          "dep_1" None (Some "rti_9") None None None None None None None None "resolved"
          "running" 0 0 ]} |>).

Lemma failRunningSessions_leaves_none_witness :
  exists n s', failRunningSessionsForRuntimeInstance "rti_9" "process exited" (Some 7000%Z) lost0
      = (Ok n, s') /\ n = 1 /\ interrupted_sessions "rti_9" (st_db s') = [].
Proof.
  destruct (failRunningSessionsForRuntimeInstance "rti_9" "process exited" (Some 7000%Z) lost0)
    as [[n|e] s'] eqn:Hrun; [|by vm_compute in Hrun].
  exists n, s'. split; [reflexivity|].
  destruct (failRunningSessions_leaves_none "rti_9" "process exited" 7000 lost0 n s')
    as (Hn & Hnone & _).
  - apply (bool_decide_unpack (map_Forall (fun k r => Session.id r = k)
      (sessions (st_db lost0)))). by vm_compute.
  - apply (bool_decide_unpack (map_Forall (fun k r => SessionNode.id r = k)
      (sessionNodes (st_db lost0)))). by vm_compute.
  - exact Hrun.
  - split; [|exact Hnone]. rewrite Hn. by vm_compute.
Defined.

Lemma completeSession_claims_eve_session_witness :
  exists row, completeSession "sess_0" chat_done chat5 = (Ok (Some row), chat6) /\
    Session.eveSessionId row = Some "e1" /\
    sessions (st_db chat6) !! "sess_0" = Some row.
Proof.
  destruct (completeSession "sess_0" chat_done chat5) as [[[row|]|e] s1] eqn:Hrun;
    [|by vm_compute in Hrun..].
  assert (Hs1 : s1 = chat6) by (unfold chat6, exec; by rewrite Hrun). subst s1.
  exists row. split; [reflexivity|].
  assert (Hne : "e1" <> "") by discriminate.
  destruct (completeSession_claims_eve_session "sess_0" chat_done "e1" chat5 row chat6
    chat5_keyed chat5_numbered eq_refl Hne Hrun) as (Hrow & _ & Heve & _).
  exact (conj Heve Hrow).
Defined.

Lemma retryOnIdentityRace_is_one_transaction_witness :
  exists r s', retryOnIdentityRace (completeSession_attempt "sess_0" chat_done)
      (fun k => write id) (Some [sessionIdentityArbiter]) (Some 2) chat5 = (r, s') /\
  exists i s0, i <= 1 /\ st_db s0 = commits (fun _ => id) 1 i (st_db chat5) /\
    completeSession_attempt "sess_0" chat_done s0 = (r, s') /\
    (i < 1 -> forall e, r = Err e ->
       existsb (isUniqueConstraint e) (default [sessionIdentityArbiter; sessionNodeIdentityArbiter]
         (Some [sessionIdentityArbiter])) = false).
Proof.
  destruct (retryOnIdentityRace (completeSession_attempt "sess_0" chat_done)
      (fun k => write id) (Some [sessionIdentityArbiter]) (Some 2) chat5) as [r s'] eqn:Hrun.
  exists r, s'. exact (conj eq_refl (retryOnIdentityRace_is_one_transaction _ (fun _ => id)
    (Some [sessionIdentityArbiter]) 1 chat5 r s' Hrun)).
Defined.
End SessionWitnesses.
