(* ===== verification/Cron.v ===== *)
(** * Schedule definitions

    [packages/core/src/schedules.ts]: the rules a schedule definition has to
    satisfy, the parser of the schedule sources under [agent/schedules/], and
    [calculateScheduleAdvance] of [packages/db/src/postgres-schedule-store.ts],
    the walk from a due tick to the first one in the future.

    cron-parser is the [Platform]'s [cron_parse_error] and [cron_next]. *)

From S2P Require Import Prelude Strings Schema Store Sample.

Open Scope string_scope.

(** ** Paths *)

Definition bad_segment (segment : string) : bool :=
  bool_decide (segment = "") || bool_decide (segment = ".") || bool_decide (segment = "..").

(** ** Definitions of a schedule *)

Definition hex_char (c : Ascii.ascii) : bool :=
  let n := Ascii.nat_of_ascii c in
  (((48 <=? n) && (n <=? 57)) || ((97 <=? n) && (n <=? 102)) || ((65 <=? n) && (n <=? 70)))%nat.

(** [/^[a-f0-9]{64}$/i] *)
Definition sha256_hex (s : string) : bool :=
  (String.length s =? 64)%nat && forallb hex_char (String.list_ascii_of_string s).

Definition validateReleaseRelativePath (value label : string) : result unit :=
  if bool_decide (value = "") || String.prefix "/" value || includes backslash value
     || existsb bad_segment (split_at slash value)
  then Err (Error ("Schedule definition " +:+ label +:+
                   " must be a normalized Release-relative path."))
  else Ok tt.

Definition validateFiveFieldCron `{Platform} (cron : string) : result unit :=
  if negb (field_count cron =? 5)%nat then
    Err (Error ("Eve schedules require a standard cron expression with exactly five fields: "
                +:+ cron))
  else
    match cron_parse_error cron with
    | Some message =>
        Err (Error ("Invalid Eve schedule cron expression " +:+ String (Ascii.ascii_of_nat 34) ""
                    +:+ cron +:+ String (Ascii.ascii_of_nat 34) ": " +:+ message))
    | None => Ok tt
    end.

Definition getNextRunAt `{Platform} (cron : string) (currentDate : time) : result time :=
  match validateFiveFieldCron cron with
  | Err e => Err e
  | Ok _ => cron_next cron currentDate
  end.

(** The input of [recordScheduleVersions], one definition of the source. *)
Record schedule_definition : Type := mk_schedule_definition {
  sd_key : string; sd_kind : string; sd_cron : string;
  sd_sourcePath : string; sd_definitionHash : string
}.

Definition validateScheduleDefinitionFields `{Platform} (input : schedule_definition)
    : result unit :=
  if bool_decide (sd_key input = "")
     || negb (bool_decide (js_trim (sd_key input) = sd_key input))
     || includes backslash (sd_key input)
     || existsb bad_segment (split_at slash (sd_key input))
  then Err (Error "Schedule definition key must be a normalized non-empty key.")
  else
    match validateFiveFieldCron (sd_cron input) with
    | Err e => Err e
    | Ok _ =>
        match validateReleaseRelativePath (sd_sourcePath input) "source path" with
        | Err e => Err e
        | Ok _ =>
            if negb (String.prefix "agent/schedules/" (sd_sourcePath input))
               && negb (String.prefix "agent/extensions/" (sd_sourcePath input))
            then Err (Error
              "Schedule definition source path must identify a platform schedule slot.")
            else if negb (sha256_hex (sd_definitionHash input))
            then Err (Error "Schedule definition hash must be a SHA-256 digest.")
            else Ok tt
        end
    end.

(** ** Schedule sources *)

Definition posixExtname (filePath : string) : string :=
  let base := match lastIndexOf slash filePath with
              | Some n => slice_from (S n) filePath
              | None => filePath
              end in
  match lastIndexOf (Ascii.ascii_of_nat 46) base with
  | Some (S dot) => slice_from (S dot) base
  | _ => ""
  end.

Definition moduleExtensions : list string := [".cts"; ".mts"; ".cjs"; ".mjs"; ".ts"; ".js"].

(** Both kinds are marked [executable: true]. *)
Inductive DiscoveredSchedule :=
  | MarkdownSchedule (key cron sourcePath prompt : string)
  | ModuleSchedule (key sourcePath : string).

Definition scheduleKeyFromPath (sourcePath : string) : result string :=
  match strip_prefix "agent/schedules/" sourcePath with
  | None => Err (Error ("Schedule " +:+ sourcePath +:+
                        " must be located under agent/schedules/."))
  | Some relativePath =>
      if bool_decide (relativePath = "") || existsb bad_segment (split_at slash relativePath)
      then Err (Error ("Schedule " +:+ sourcePath +:+
                       " has an invalid path under agent/schedules/."))
      else Ok (slice_off (String.length (posixExtname relativePath)) relativePath)
  end.

(** [\r?\n] at the head of the text. *)
Definition eat_newline (s : string) : option string :=
  match s with
  | String c r =>
      if ascii_is 10 c then Some r
      else match r with
           | String c2 r2 => if ascii_is 13 c && ascii_is 10 c2 then Some r2 else None
           | "" => None
           end
  | "" => None
  end.

(** The rest of the regular expression of the frontmatter: the shortest body
    that a newline and three dashes follow, an optional newline, and the rest. *)
Fixpoint close_frontmatter (s : string) : option (string * string) :=
  match eat_newline s ≫= strip_prefix "---" with
  | Some rest => Some ("", default rest (eat_newline rest))
  | None =>
      match s with
      | "" => None
      | String c r => (fun br => (String c br.1, br.2)) <$> close_frontmatter r
      end
  end.

(** [content.match(...)]: the groups of the frontmatter and of the prompt. *)
Definition match_frontmatter (content : string) : option (string * string) :=
  rest ← strip_prefix "---" content; body ← eat_newline rest; close_frontmatter body.

(** [input.split(/\r?\n/)] *)
Fixpoint split_lines (s : string) : list string :=
  match s with
  | "" => [""]
  | String c r =>
      if ascii_is 10 c then "" :: split_lines r else
      match r with
      | "" => [String c ""]
      | String c2 r2 =>
          if ascii_is 13 c && ascii_is 10 c2 then "" :: split_lines r2
          else cons_first c (split_lines r)
      end
  end.

Definition name_char (c : Ascii.ascii) : bool :=
  let n := Ascii.nat_of_ascii c in
  (((65 <=? n) && (n <=? 90)) || ((97 <=? n) && (n <=? 122)) || ((48 <=? n) && (n <=? 57))
   || (n =? 95) || (n =? 45))%nat.

Fixpoint span_name (s : string) : string * string :=
  match s with
  | "" => ("", "")
  | String c r =>
      if name_char c then let '(n, rest) := span_name r in (String c n, rest) else ("", s)
  end.

(** Does [.] refuse a character of the text: LF, CR, U+2028, U+2029? *)
Fixpoint has_terminator (s : string) : bool :=
  match s with
  | "" => false
  | String c1 r1 =>
      ascii_is 10 c1 || ascii_is 13 c1
      || match r1 with
         | String c2 (String c3 _) =>
             ascii_is 226 c1 && ascii_is 128 c2 && (ascii_is 168 c3 || ascii_is 169 c3)
         | _ => false
         end
      || has_terminator r1
  end.

(** [trimmed.match(...)]: a name, a colon, white space and a value that holds
    no line terminator. *)
Definition match_field (trimmed : string) : option (string * string) :=
  let '(name, rest) := span_name trimmed in
  if bool_decide (name = "") then None else
  match rest with
  | String c value =>
      if ascii_is 58 c && negb (has_terminator (trim_start value))
      then Some (name, trim_start value) else None
  | "" => None
  end.

Definition unquote (value : string) : string :=
  match value, lastIndexOf (Ascii.ascii_of_nat 34) value, lastIndexOf (Ascii.ascii_of_nat 39) value with
  | String first _, dq, sq =>
      let last := String.length value - 1 in
      if (2 <=? String.length value)%nat
         && ((ascii_is 34 first && bool_decide (dq = Some last))
             || (ascii_is 39 first && bool_decide (sq = Some last)))
      then String.substring 1 (String.length value - 2) value
      else value
  | "", _, _ => value
  end.

(** The lines of the frontmatter, threading [result.cron]. *)
Fixpoint parse_fields (sourcePath : string) (cron : option string) (lines : list string)
    : result (option string) :=
  match lines with
  | [] => Ok cron
  | line :: lines =>
      let trimmed := js_trim line in
      if bool_decide (trimmed = "") || String.prefix "#" trimmed
      then parse_fields sourcePath cron lines
      else match match_field trimmed with
           | None => Err (Error ("Markdown schedule " +:+ sourcePath +:+
                                 " has invalid frontmatter."))
           | Some (key, rawValue) =>
               if negb (bool_decide (key = "cron")) then
                 Err (Error ("Markdown schedule " +:+ sourcePath +:+
                             " only supports the cron frontmatter field."))
               else match cron with
                    | Some _ => Err (Error ("Markdown schedule " +:+ sourcePath +:+
                                            " declares cron more than once."))
                    | None => parse_fields sourcePath (Some (unquote (js_trim rawValue))) lines
                    end
           end
  end.

Definition parseStrictFrontmatter (sourcePath input : string) : result (option string) :=
  parse_fields sourcePath None (split_lines input).

Definition parseScheduleSource `{Platform} (sourcePath content : string)
    : result DiscoveredSchedule :=
  let normalizedPath := replaceAll backslash slash sourcePath in
  match scheduleKeyFromPath normalizedPath with
  | Err e => Err e
  | Ok key =>
      let extension := posixExtname normalizedPath in
      if bool_decide (extension ∈ moduleExtensions) then Ok (ModuleSchedule key normalizedPath)
      else if negb (bool_decide (extension = ".md")) then
        Err (Error ("Schedule " +:+ sourcePath +:+
          " uses an unsupported schedule extension for Eveland's supported Eve releases."))
      else match match_frontmatter content with
      | None => Err (Error ("Markdown schedule " +:+ sourcePath +:+ " is missing frontmatter."))
      | Some (frontmatter, prompt) =>
          match parseStrictFrontmatter sourcePath frontmatter with
          | Err e => Err e
          | Ok None | Ok (Some "") =>
              Err (Error ("Markdown schedule " +:+ sourcePath +:+ " is missing cron."))
          | Ok (Some cron) =>
              match validateFiveFieldCron cron with
              | Err e => Err e
              | Ok _ => Ok (MarkdownSchedule key cron normalizedPath (js_trim prompt))
              end
          end
      end
  end.

(** ** The advance of a schedule: [calculateScheduleAdvance] *)

(** [while (nextRunAt <= now) { ... }], [None] when the fuel runs out. *)
Fixpoint advance_loop `{Platform} (fuel : nat) (cron : string) (now nextRunAt : time)
    (missedTicks : Z) : option (result (time * Z)) :=
  match fuel with
  | O => None
  | S fuel =>
      if (nextRunAt <=? now)%Z then
        match getNextRunAt cron nextRunAt with
        | Ok next => advance_loop fuel cron now next (missedTicks + 1)
        | Err e => Some (Err e)
        end
      else Some (Ok (nextRunAt, missedTicks))
  end.

(** Ticks are at least a millisecond apart: the loop turns at most once per
    millisecond between [dueAt] and [now]. *)
Definition advance_fuel (dueAt now : time) : nat := S (Z.to_nat (now - dueAt)).

(** [None] for [undefined], the answer to any exception. *)
Definition calculateScheduleAdvance `{Platform} (cron : string) (dueAt now : time)
    : option (time * Z) :=
  match getNextRunAt cron dueAt with
  | Err _ => None
  | Ok nextRunAt =>
      match advance_loop (advance_fuel dueAt now) cron now nextRunAt 0 with
      | Some (Ok advance) => Some advance
      | _ => None
      end
  end.

(** ** Facts: the walk over the ticks *)

Section AdvanceFacts.
Context `{Platform}.

(** What cron-parser documents of [next()]: the tick after the current date. *)
Definition cron_advances : Prop :=
  forall cron t t', cron_next cron t = Ok t' -> (t < t')%Z.

(** The n-th tick after an instant. *)
Fixpoint nth_tick (cron : string) (t : time) (n : nat) : result time :=
  match n with
  | O => Ok t
  | S n => match nth_tick cron t n with
           | Ok t' => getNextRunAt cron t'
           | Err e => Err e
           end
  end.

(** The first [n] ticks after [dueAt] are past. *)
Definition passed (cron : string) (dueAt now : time) (n : nat) : Prop :=
  forall k t, 1 <= k <= n -> nth_tick cron dueAt k = Ok t -> (t <= now)%Z.

(** The answer [o] is the first tick after [now] with the number of ticks
    missed since [dueAt], or nothing when the walk to it throws. *)
Definition advance_spec (cron : string) (dueAt now : time) (o : option (time * Z)) : Prop :=
  match o with
  | Some (next, missed) =>
      (0 <= missed)%Z /\ nth_tick cron dueAt (S (Z.to_nat missed)) = Ok next /\
      (now < next)%Z /\ passed cron dueAt now (Z.to_nat missed)
  | None => exists n e, nth_tick cron dueAt (S n) = Err e /\ passed cron dueAt now n
  end.

Lemma getNextRunAt_later cron t t' : cron_advances -> getNextRunAt cron t = Ok t' -> (t < t')%Z.
Proof. unfold getNextRunAt. intros Hadv. destruct (validateFiveFieldCron cron); [apply Hadv | done]. Qed.

Lemma nth_tick_err cron t n m e :
  n <= m -> nth_tick cron t n = Err e -> nth_tick cron t m = Err e.
Proof. induction 1 as [|m Hle IH]; [done|]. intros Hn. simpl. by rewrite IH. Qed.

Lemma passed_S cron dueAt now n t :
  passed cron dueAt now n -> nth_tick cron dueAt (S n) = Ok t -> (t <= now)%Z ->
  passed cron dueAt now (S n).
Proof.
  intros Hp Ht Hle k u Hk Hu. destruct (decide (k = S n)) as [->|Hne]; [|apply (Hp k); [lia|done]].
  rewrite Ht in Hu. by injection Hu as <-.
Qed.

Lemma advance_loop_spec cron dueAt now fuel n t :
  cron_advances -> nth_tick cron dueAt (S n) = Ok t -> passed cron dueAt now n ->
  Z.to_nat (now - t + 1) < fuel ->
  exists r, advance_loop fuel cron now t (Z.of_nat n) = Some r /\
    advance_spec cron dueAt now (match r with Ok a => Some a | Err _ => None end).
Proof.
  intros Hadv. revert n t. induction fuel as [|fuel IH]; intros n t Ht Hp Hf; [lia|].
  cbn [advance_loop]. destruct (Z.leb_spec t now) as [Hle|Hgt].
  - assert (HS : nth_tick cron dueAt (S (S n)) = getNextRunAt cron t)
      by (cbn [nth_tick] in *; by rewrite Ht).
    destruct (getNextRunAt cron t) as [t'|e] eqn:Hn.
    + pose proof (getNextRunAt_later _ _ _ Hadv Hn).
      replace (Z.of_nat n + 1)%Z with (Z.of_nat (S n)) by lia.
      apply IH; [done | by eapply passed_S | lia].
    + eexists. split; [done|]. exists (S n), e. split; [done|]. by eapply passed_S.
  - eexists. split; [done|]. simpl. rewrite Nat2Z.id. split; [lia|]. by split; [|split; [lia|]].
Qed.

Lemma advance_spec_unique cron dueAt now o1 o2 :
  advance_spec cron dueAt now o1 -> advance_spec cron dueAt now o2 -> o1 = o2.
Proof.
  assert (Hlt : forall next m n, nth_tick cron dueAt (S m) = Ok next -> (now < next)%Z ->
    passed cron dueAt now n -> n <= m).
  { intros next m n Hn Hgt Hp. destruct (decide (n <= m)) as [|Hnle]; [done|].
    specialize (Hp (S m) next ltac:(lia) Hn). lia. }
  assert (Hmix : forall next m n e, nth_tick cron dueAt (S m) = Ok next -> (now < next)%Z ->
    nth_tick cron dueAt (S n) = Err e -> passed cron dueAt now n -> False).
  { intros next m n e Hn Hgt He Hp. pose proof (Hlt _ _ _ Hn Hgt Hp).
    rewrite (nth_tick_err _ _ (S n) (S m) e) in Hn; [done | lia | done]. }
  destruct o1 as [[n1 m1]|], o2 as [[n2 m2]|]; simpl.
  - intros (H1 & Ht1 & Hg1 & Hp1) (H2 & Ht2 & Hg2 & Hp2).
    pose proof (Hlt _ _ _ Ht1 Hg1 Hp2). pose proof (Hlt _ _ _ Ht2 Hg2 Hp1).
    assert (m1 = m2) as -> by lia. rewrite Ht1 in Ht2. by injection Ht2 as ->.
  - intros (H1 & Ht1 & Hg1 & Hp1) (n & e & He & Hp). by destruct (Hmix _ _ _ _ Ht1 Hg1 He Hp).
  - intros (n & e & He & Hp) (H1 & Ht1 & Hg1 & Hp1). by destruct (Hmix _ _ _ _ Ht1 Hg1 He Hp).
  - done.
Qed.

Lemma calculateScheduleAdvance_ok cron dueAt now :
  cron_advances -> advance_spec cron dueAt now (calculateScheduleAdvance cron dueAt now).
Proof.
  intros Hadv. unfold calculateScheduleAdvance.
  destruct (getNextRunAt cron dueAt) as [t|e] eqn:Hn.
  - pose proof (getNextRunAt_later _ _ _ Hadv Hn).
    destruct (advance_loop_spec cron dueAt now (advance_fuel dueAt now) 0 t) as (r & Hr & Hs);
      [done | done | intros k u Hk; lia | unfold advance_fuel; lia |].
    change (Z.of_nat 0) with 0%Z in Hr. rewrite Hr. by destruct r.
  - exists 0, e. split; [done|]. intros k u Hk; lia.
Qed.

(** C7. Advancing a schedule from a due tick ends, within the fuel, at the
    first tick after [now], counting every tick passed over on the way; it
    answers nothing exactly when the walk there throws. *)
Theorem calculateScheduleAdvance_exact cron dueAt now o :
  cron_advances ->
  calculateScheduleAdvance cron dueAt now = o <-> advance_spec cron dueAt now o.
Proof.
  intros Hadv. pose proof (calculateScheduleAdvance_ok cron dueAt now Hadv) as Hok.
  split; [by intros <- | by apply advance_spec_unique].
Qed.
End AdvanceFacts.

(** ** Facts: names and sources *)

(** The directory does not change the extension. *)
Lemma posixExtname_under dir rel :
  posixExtname (dir +:+ String slash rel) = posixExtname rel.
Proof.
  unfold posixExtname. change (String slash rel) with (String slash "" +:+ rel).
  rewrite <- string_app_assoc, lastIndexOf_app.
  destruct (lastIndexOf slash rel) as [n|].
  - cbv beta iota. rewrite <- Nat.add_succ_r. by rewrite slice_from_app.
  - rewrite lastIndexOf_app. change (lastIndexOf slash (String slash "")) with (Some 0). cbv iota beta.
    replace (S (String.length dir + 0)) with (String.length (dir +:+ String slash ""))
      by (rewrite string_length_app; simpl; lia).
    by rewrite slice_from_split.
Qed.

(** An extension is a proper suffix. *)
Lemma posixExtname_suffix s :
  posixExtname s <> "" -> exists p, p <> "" /\ s = p +:+ posixExtname s.
Proof.
  unfold posixExtname. set (base := match lastIndexOf slash s with Some n => _ | None => _ end).
  assert (Hbase : exists dir, s = dir +:+ base).
  { subst base. destruct (lastIndexOf slash s) as [n|] eqn:Hn; [|by exists ""].
    apply lastIndexOf_split in Hn as (s1 & s2 & -> & <-). exists (s1 +:+ String slash "").
    rewrite string_app_assoc. f_equal. change (String slash "" +:+ ?x) with (String slash x).
    f_equal. rewrite <- Nat.add_1_r. by rewrite slice_from_app. }
  destruct Hbase as [dir Hs]. destruct (lastIndexOf _ base) as [[|n]|] eqn:Hn; [done| |done].
  intros _. apply lastIndexOf_split in Hn as (b1 & b2 & Hb & Hlen).
  exists (dir +:+ b1). split.
  - destruct dir; [|done]. by destruct b1.
  - rewrite Hs, string_app_assoc. f_equal. rewrite Hb, <- Hlen. by rewrite slice_from_split.
Qed.

Definition ds_key (d : DiscoveredSchedule) : string :=
  match d with MarkdownSchedule key _ _ _ | ModuleSchedule key _ => key end.
Definition ds_sourcePath (d : DiscoveredSchedule) : string :=
  match d with MarkdownSchedule _ _ path _ | ModuleSchedule _ path => path end.

Lemma scheduleKeyFromPath_ok path key ext :
  scheduleKeyFromPath path = Ok key -> posixExtname path = ext -> ext <> "" ->
  path = "agent/schedules/" +:+ key +:+ ext /\ key <> "".
Proof.
  unfold scheduleKeyFromPath. destruct (strip_prefix _ path) as [rel|] eqn:Hp; [|done].
  apply strip_prefix_ok in Hp as ->.
  change ("agent/schedules/" +:+ rel) with ("agent/schedules" +:+ String slash rel).
  rewrite posixExtname_under. destruct (_ || _); [done|]. intros [= <-] <- Hne.
  destruct (posixExtname_suffix rel Hne) as (p & Hp & Hrel).
  assert (Hk : slice_off (String.length (posixExtname rel)) rel = p)
    by (rewrite Hrel at 2; by apply slice_off_app).
  rewrite Hk. split; [|done]. rewrite Hrel at 1. done.
Qed.

(** A schedule source that parses is named by its path: the path is
    [agent/schedules/], the key and an extension that tells the kind; the cron
    of a Markdown schedule is a valid one of five fields. *)
Lemma parseScheduleSource_named `{Platform} sourcePath content d :
  parseScheduleSource sourcePath content = Ok d ->
  ds_sourcePath d = replaceAll backslash slash sourcePath /\ ds_key d <> "" /\
  match d with
  | MarkdownSchedule key cron path prompt =>
      path = "agent/schedules/" +:+ key +:+ ".md" /\ validateFiveFieldCron cron = Ok tt
  | ModuleSchedule key path =>
      exists ext, ext ∈ moduleExtensions /\ path = "agent/schedules/" +:+ key +:+ ext
  end.
Proof.
  unfold parseScheduleSource. set (path := replaceAll _ _ _). cbv zeta.
  destruct (scheduleKeyFromPath path) as [key|] eqn:Hkey; [|done].
  case_bool_decide as Hext.
  - intros [= <-]. eapply scheduleKeyFromPath_ok in Hkey as [Hp Hk]; [|done|].
    + simpl. eauto.
    + intros Hnil. rewrite Hnil in Hext.
      unfold moduleExtensions in Hext.
      repeat (apply elem_of_cons in Hext as [Hext|Hext]; [discriminate|]).
      by apply not_elem_of_nil in Hext.
  - case_bool_decide as Hmd; [|done]. simpl.
    destruct (match_frontmatter content) as [[fm prompt]|]; [|done].
    destruct (parseStrictFrontmatter _ fm) as [[cron|]|]; [|done..].
    destruct (validateFiveFieldCron cron) as [[]|] eqn:Hc; [|by destruct cron].
    destruct cron as [|c cron]; [done|]. intros [= <-]. simpl.
    by eapply scheduleKeyFromPath_ok in Hkey as [Hp Hk].
Qed.

(** ** Witnesses *)
Section CronWitnesses.
#[local] Existing Instance sample_platform.

Lemma sample_advances : cron_advances.
Proof.
  intros cron t t' Hn. simpl in Hn. injection Hn as <-.
  pose proof (Z.mod_pos_bound t 100 ltac:(lia)). lia.
Qed.

(** A schedule due at 100 looked at at 450: 200, 300 and 400 were missed. *)
Lemma calculateScheduleAdvance_exact_witness :
  calculateScheduleAdvance "* * * * *" 100 450 = Some (500, 3)%Z /\
  advance_spec "* * * * *" 100 450 (Some (500, 3)%Z).
Proof.
  assert (Hrun : calculateScheduleAdvance "* * * * *" 100 450 = Some (500, 3)%Z) by reflexivity.
  exact (conj Hrun (proj1 (calculateScheduleAdvance_exact _ _ _ _ sample_advances) Hrun)).
Defined.

Definition sample_source : string :=
  let nl := String (Ascii.ascii_of_nat 10) "" in
  "---" +:+ nl +:+ "cron: '0 9 * * 1'" +:+ nl +:+ "---" +:+ nl +:+ "Report. ".

Lemma parseScheduleSource_named_witness :
  parseScheduleSource "agent\schedules\team/weekly.md" sample_source
    = Ok (MarkdownSchedule "team/weekly" "0 9 * * 1" "agent/schedules/team/weekly.md" "Report.") /\
  validateFiveFieldCron "0 9 * * 1" = Ok tt.
Proof.
  assert (Hrun : parseScheduleSource "agent\schedules\team/weekly.md" sample_source
    = Ok (MarkdownSchedule "team/weekly" "0 9 * * 1" "agent/schedules/team/weekly.md" "Report."))
    by (vm_compute; reflexivity).
  exact (conj Hrun (proj2 (proj2 (proj2 (parseScheduleSource_named _ _ _ Hrun))))).
Defined.
End CronWitnesses.
