(* ===== verification/Schedules.v ===== *)
(** * Schedules: versions, targets, runs

    [packages/db/src/postgres-schedule-store.ts], [applySchedulerTargetTx] of
    [packages/db/src/postgres-store-support.ts] and the usage summary of
    [packages/db/src/session-usage.ts]: the versions a source revision declares,
    the deployment a project's scheduler points at, the claim of due ticks into
    runs, the activation, dispatch and completion of a run, and the failure of
    its executions.  The [for update] locks of the claim and of the completion
    are the atomicity of a transaction. *)

From S2P Require Import Prelude Strings Schema Store Tables Sample Jobs Runtime EveEvents Sessions Cron.

Open Scope string_scope.

(** [status: "succeeded" | "failed" | "dispatch_unknown"] *)
Module RunOutcome.
Inductive run_outcome := succeeded | failed | dispatch_unknown.
#[global] Instance run_outcome_eq : EqDecision run_outcome.
Proof. solve_decision. Defined.
End RunOutcome.

(** The status of a usage summary. *)
Module UsageStatus.
Inductive usage_status := reported | partial | missing | none.
End UsageStatus.

Section ScheduleStore.
Context `{Platform}.

(** ** Versions *)

Definition listSchedules (projectId : string) : Tx (list Schedule.schedule_row) :=
  read (fun d => order_by (fun a b => collation_leb (Schedule.name a) (Schedule.name b))
    (select_where (fun r => bool_decide (Schedule.projectId r = projectId)) (schedules d))).

Definition schedule_by_key (projectId key : string) (d : database)
    : option ProjectSchedule.project_schedule_row :=
  find_where (fun r => bool_decide (ProjectSchedule.projectId r = projectId)
                       && bool_decide (ProjectSchedule.key r = key)) (projectSchedules d).

Definition version_for (scheduleId sourceRevisionId : string) (d : database)
    : option ScheduleVersion.schedule_version_row :=
  find_where (fun r => bool_decide (ScheduleVersion.scheduleId r = scheduleId)
                       && bool_decide (ScheduleVersion.sourceRevisionId r = sourceRevisionId))
    (scheduleVersions d).

(** Does the persisted version say what the definition says? *)
Definition same_definition (definition : schedule_definition)
    (v : ScheduleVersion.schedule_version_row) : bool :=
  bool_decide (ScheduleVersion.definitionHash v = sd_definitionHash definition)
  && bool_decide (ScheduleVersion.cron v = sd_cron definition)
  && bool_decide (ScheduleVersion.kind v = sd_kind definition)
  && bool_decide (ScheduleVersion.sourcePath v = sd_sourcePath definition).

(** The schedule of a key: inserted, or the row that was there. *)
Definition ensure_schedule (projectId key : string) : Tx ProjectSchedule.project_schedule_row :=
  id <- createId "sch" ;;
  now <- clock ;;
  inserted <- insert_or_ignore project_schedules_table project_schedules_project_key_idx
    (ProjectSchedule.mk id projectId key true None now now) ;;
  existing <- read (schedule_by_key projectId key) ;;
  some_or (or_else inserted existing) (Error ("Failed to upsert ProjectSchedule " +:+ key +:+ ".")).

Definition ensure_version (scheduleId sourceRevisionId : string)
    (definition : schedule_definition) : Tx ScheduleVersion.schedule_version_row :=
  id <- createId "schv" ;;
  now <- clock ;;
  inserted <- insert_or_ignore schedule_versions_table schedule_versions_schedule_revision_idx
    (ScheduleVersion.mk id scheduleId sourceRevisionId (sd_kind definition) (sd_cron definition)
       (sd_sourcePath definition) (sd_definitionHash definition) now) ;;
  existing <- read (version_for scheduleId sourceRevisionId) ;;
  some_or (or_else inserted existing)
    (Error ("Failed to persist ScheduleVersion " +:+ sd_key definition +:+ ".")).

(** One turn of the loop over the definitions: [seenKeys] and [result]. *)
Definition recorded : Type :=
  ProjectSchedule.project_schedule_row * ScheduleVersion.schedule_version_row.

Definition record_definition (projectId sourceRevisionId : string)
    (acc : list string * list recorded) (definition : schedule_definition)
    : Tx (list string * list recorded) :=
  let '(seenKeys, result) := acc in
  throw_if (bool_decide (sd_key definition ∈ seenKeys))
    (Error ("Duplicate schedule key: " +:+ sd_key definition)) ;;
  scheduleRow <- ensure_schedule projectId (sd_key definition) ;;
  versionRow <- ensure_version (ProjectSchedule.id scheduleRow) sourceRevisionId definition ;;
  throw_if (negb (same_definition definition versionRow))
    (Error ("ScheduleVersion " +:+ ScheduleVersion.id versionRow +:+ " is immutable.")) ;;
  ret (sd_key definition :: seenKeys, (result ++ [(scheduleRow, versionRow)])%list).

Definition recordScheduleVersions (projectId sourceRevisionId : string)
    (definitions : list schedule_definition) : Tx (list recorded) :=
  for_m definitions (fun definition => lift (validateScheduleDefinitionFields definition)) ;;
  transaction (
    revision <- read (fun d => find_where (fun r =>
        bool_decide (SourceRevision.id r = sourceRevisionId)
        && bool_decide (SourceRevision.projectId r = projectId)) (sourceRevisions d)) ;;
    throw_if (bool_decide (revision = None))
      (Error "Cannot record schedule versions for an unknown SourceRevision.") ;;
    acc <- fold_m (record_definition projectId sourceRevisionId) definitions ([], []) ;;
    ret acc.2).

Definition listProjectScheduleVersions (projectId sourceRevisionId : string)
    : Tx (list recorded) :=
  read (fun d =>
    order_by (fun a b => collation_leb (ProjectSchedule.key a.1) (ProjectSchedule.key b.1))
      (inner_join (fun s v => bool_decide (ScheduleVersion.scheduleId v = ProjectSchedule.id s))
         (select_where (fun s => bool_decide (ProjectSchedule.projectId s = projectId))
            (projectSchedules d))
         (select_where (fun v => bool_decide (ScheduleVersion.sourceRevisionId v = sourceRevisionId))
            (scheduleVersions d)))).

Definition getProjectSchedule (scheduleId : string)
    : Tx (option ProjectSchedule.project_schedule_row) :=
  read (fun d => projectSchedules d !! scheduleId).

(** ** The scheduler target *)

(** [setProjectSchedulerTarget] and the manual run select the deployment of a
    project with its release. *)
Definition deployment_release (deploymentId : string) (d : database)
    : option (Deployment.deployment_row * Release.release_row) :=
  deployment ← deployments d !! deploymentId;
  release ← releases d !! Deployment.releaseId deployment;
  Some (deployment, release).

(** A schedule's next run under a target of the source revision. *)
Definition retarget (sourceRevisionId : string) (now : time)
    (scheduleRow : ProjectSchedule.project_schedule_row) : Tx unit :=
  version <- read (version_for (ProjectSchedule.id scheduleRow) sourceRevisionId) ;;
  next <- match version with
          | Some v =>
              if ProjectSchedule.enabled scheduleRow then
                t <- lift (getNextRunAt (ScheduleVersion.cron v) now) ;; ret (Some t)
              else ret None
          | None => ret None
          end ;;
  _row <- update_key project_schedules_table (ProjectSchedule.id scheduleRow) (fun _ => true)
    (fun s => s <| ProjectSchedule.nextRunAt := next |> <| ProjectSchedule.updatedAt := now |>) ;;
  ret tt.

Definition applySchedulerTargetTx (projectId deploymentId sourceRevisionId : string) (now : time)
    : Tx SchedulerTarget.scheduler_target_row :=
  target <- upsert scheduler_targets_table
    (fun a b => bool_decide (SchedulerTarget.projectId a = SchedulerTarget.projectId b))
    (SchedulerTarget.mk projectId deploymentId now)
    (fun r => r <| SchedulerTarget.deploymentId := deploymentId |>
                <| SchedulerTarget.updatedAt := now |>) ;;
  scheduleRows <- read (fun d => select_where
    (fun r => bool_decide (ProjectSchedule.projectId r = projectId)) (projectSchedules d)) ;;
  for_m scheduleRows (retarget sourceRevisionId now) ;;
  ret target.

Definition setProjectSchedulerTarget (projectId deploymentId : string) (now : option time)
    : Tx SchedulerTarget.scheduler_target_row :=
  now <- now_or now ;;
  transaction (
    found <- read (deployment_release deploymentId) ;;
    match found with
    | Some (deployment, release) =>
        if bool_decide (Deployment.projectId deployment = projectId) then
          applySchedulerTargetTx projectId deploymentId (Release.sourceRevisionId release) now
        else throw (Error "Cannot target an unknown Deployment for schedules.")
    | None => throw (Error "Cannot target an unknown Deployment for schedules.")
    end).

Record upcoming_target : Type := mk_upcoming_target {
  ut_scheduleId : string; ut_projectId : string; ut_deploymentId : string; ut_nextRunAt : time
}.

(** The schedules whose project has a target, with the target's deployment. *)
Definition targeted (d : database)
    : list (ProjectSchedule.project_schedule_row * Deployment.deployment_row) :=
  schedule ← rows (projectSchedules d);
  match target ← projectSchedulerTargets d !! ProjectSchedule.projectId schedule;
        deployments d !! SchedulerTarget.deploymentId target with
  | Some deployment => [(schedule, deployment)]
  | None => []
  end.

(** [asc(nextRunAt), asc(id)]; the rows ordered have a next run. *)
Definition due_leb (a b : ProjectSchedule.project_schedule_row) : bool :=
  then_by (asc_by (fun s => default 0%Z (ProjectSchedule.nextRunAt s)))
    (fun a b => collation_leb (ProjectSchedule.id a) (ProjectSchedule.id b)) a b.

Definition next_run_within (after : option time) (before : time)
    (s : ProjectSchedule.project_schedule_row) : bool :=
  match ProjectSchedule.nextRunAt s with
  | Some t => (t <=? before)%Z && match after with Some a => (a <? t)%Z | None => true end
  | None => false
  end.

Definition listUpcomingScheduleTargets (after before : time) (limit : option Z)
    : Tx (list upcoming_target) :=
  limit <- some_or (positive_limit limit) (Error "Schedule prewarm limit must be positive.") ;;
  found <- read (fun d => take limit (order_by (fun a b => due_leb a.1 b.1)
    (base.filter (fun sd =>
       ProjectSchedule.enabled sd.1 && next_run_within (Some after) before sd.1
       && negb (bool_decide (Deployment.status sd.2 = DeploymentStatus.archived))
       && negb (bool_decide (Deployment.status sd.2 = DeploymentStatus.failed)) = true)
     (targeted d)))) ;;
  ret (sd ← found;
       match ProjectSchedule.nextRunAt sd.1 with
       | Some t => [mk_upcoming_target (ProjectSchedule.id sd.1) (ProjectSchedule.projectId sd.1)
                      (Deployment.id sd.2) t]
       | None => []
       end).

(** ** Runs *)

(** The payload of the job: the deployment is denormalised from the run so
    the claim can scope the job's exclusion to it. *)
Definition trigger_payload (run : ScheduleRun.schedule_run_row) : json :=
  JObj [("scheduleRunId", JStr (ScheduleRun.id run));
        ("deploymentId", JStr (ScheduleRun.deploymentId run))].

Definition new_run (id scheduleId scheduleVersionId releaseId deploymentId : string) (dueAt : time)
    (trigger : run_trigger) (missedTicks : Z) (now : time) : ScheduleRun.schedule_run_row :=
  ScheduleRun.mk id scheduleId scheduleVersionId releaseId deploymentId dueAt trigger
    RunStatus.queued 0 missedTicks None None None None now now.

Definition createManualScheduleRun (projectId scheduleId : string) (now : option time)
    : Tx ScheduleRun.schedule_run_row :=
  now <- now_or now ;;
  transaction (
    found <- read (fun d => find_where (fun s =>
        bool_decide (ProjectSchedule.id s = scheduleId)
        && bool_decide (ProjectSchedule.projectId s = projectId)) (projectSchedules d)) ;;
    schedule <- some_or found (Error "Project schedule not found.") ;;
    throw_if (negb (ProjectSchedule.enabled schedule)) (Error "Project schedule is disabled.") ;;
    found <- read (fun d => target ← projectSchedulerTargets d !! projectId;
                            deployment_release (SchedulerTarget.deploymentId target) d) ;;
    target <- some_or found (Error "Project schedule has no deployable scheduler target.") ;;
    let '(deployment, release) := target in
    found <- read (version_for scheduleId (Release.sourceRevisionId release)) ;;
    version <- some_or found (Error "Project schedule has no deployable scheduler target.") ;;
    id <- createId "srun" ;;
    run <- insert_row schedule_runs_table
      (new_run id scheduleId (ScheduleVersion.id version) (Release.id release)
         (Deployment.id deployment) now RunTrigger.manual 0 now) ;;
    _job <- insertJobRowTx projectId "trigger_schedule" (trigger_payload run) (Some now) (Some now) ;;
    ret run).

(** *** The claim of due ticks *)

(** A schedule with the version its target's release declares. *)
Record due_row : Type := mk_due_row {
  du_schedule : ProjectSchedule.project_schedule_row;
  du_version : ScheduleVersion.schedule_version_row;
  du_deployment : Deployment.deployment_row;
  du_release : Release.release_row
}.

(** The joins of one schedule. *)
Definition due_of (d : database) (schedule : ProjectSchedule.project_schedule_row)
    : option due_row :=
  target ← projectSchedulerTargets d !! ProjectSchedule.projectId schedule;
  dr ← deployment_release (SchedulerTarget.deploymentId target) d;
  version ← version_for (ProjectSchedule.id schedule) (Release.sourceRevisionId dr.2) d;
  Some (mk_due_row schedule version dr.1 dr.2).

Definition is_due (now : time) (s : ProjectSchedule.project_schedule_row) : bool :=
  ProjectSchedule.enabled s && next_run_within None now s.

Definition due_schedules (now : time) (limit : nat) (d : database) : list due_row :=
  take limit (order_by (fun a b => due_leb (du_schedule a) (du_schedule b))
    (omap (due_of d) (select_where (is_due now) (projectSchedules d)))).

(** A schedule whose next tick throws is switched off. *)
Definition disable_schedule (scheduleId : string) (now : time) : Tx unit :=
  _row <- update_key project_schedules_table scheduleId (fun _ => true)
    (fun s => s <| ProjectSchedule.enabled := false |> <| ProjectSchedule.nextRunAt := None |>
                <| ProjectSchedule.updatedAt := now |>) ;;
  ret tt.

(** One turn of the loop over the due rows. *)
Definition claim_due (now : time) (claimed : list ScheduleRun.schedule_run_row) (row : due_row)
    : Tx (list ScheduleRun.schedule_run_row) :=
  let schedule := du_schedule row in
  match ProjectSchedule.nextRunAt schedule with
  | None => ret claimed
  | Some dueAt =>
      match calculateScheduleAdvance (ScheduleVersion.cron (du_version row)) dueAt now with
      | None => disable_schedule (ProjectSchedule.id schedule) now ;; ret claimed
      | Some (nextRunAt, missedTicks) =>
          id <- createId "srun" ;;
          inserted <- insert_or_ignore schedule_runs_table schedule_runs_version_due_idx
            (new_run id (ProjectSchedule.id schedule) (ScheduleVersion.id (du_version row))
               (Release.id (du_release row)) (Deployment.id (du_deployment row)) dueAt
               RunTrigger.cron missedTicks now) ;;
          match inserted with
          | None => ret claimed
          | Some run =>
              _row <- update_key project_schedules_table (ProjectSchedule.id schedule)
                (fun _ => true)
                (fun s => s <| ProjectSchedule.nextRunAt := Some nextRunAt |>
                            <| ProjectSchedule.updatedAt := now |>) ;;
              _job <- insertJobRowTx (ProjectSchedule.projectId schedule) "trigger_schedule"
                (trigger_payload run) (Some now) (Some now) ;;
              ret (claimed ++ [run])%list
          end
      end
  end.

Definition claimDueScheduleRuns (now : time) (limit : option Z)
    : Tx (list ScheduleRun.schedule_run_row) :=
  limit <- some_or (positive_limit limit) (Error "Schedule claim limit must be positive.") ;;
  transaction (
    due <- read (due_schedules now limit) ;;
    fold_m (claim_due now) due []).

Definition getScheduleRun (scheduleRunId : string) : Tx (option ScheduleRun.schedule_run_row) :=
  read (fun d => scheduleRuns d !! scheduleRunId).

(** *** Activation and dispatch *)

Definition run_has (st : schedule_run_status) (r : ScheduleRun.schedule_run_row) : bool :=
  bool_decide (ScheduleRun.status r = st).

Definition claimScheduleRunActivation (scheduleRunId : string) (now : option time)
    (staleAfterMs : option Z) : Tx (option ScheduleRun.schedule_run_row) :=
  now <- now_or now ;;
  let staleBefore := (now - default 300000 staleAfterMs)%Z in
  update_key schedule_runs_table scheduleRunId
    (fun r => run_has RunStatus.queued r
              || (run_has RunStatus.activating r && (ScheduleRun.updatedAt r <=? staleBefore)%Z))
    (fun r => r <| ScheduleRun.status := RunStatus.activating |>
                <| ScheduleRun.startedAt := Some now |> <| ScheduleRun.updatedAt := now |>).

Definition redeemScheduleRunDispatch (scheduleRunId deploymentId : string)
    : Tx (option ScheduleRun.schedule_run_row) :=
  now <- clock ;;
  update_key schedule_runs_table scheduleRunId
    (fun r => bool_decide (ScheduleRun.deploymentId r = deploymentId)
              && run_has RunStatus.activating r)
    (fun r => r <| ScheduleRun.status := RunStatus.dispatching |>
                <| ScheduleRun.attempt ::= Z.succ |> <| ScheduleRun.updatedAt := now |>).

(** *** Completion *)

Record complete_run_input : Type := mk_complete_run_input {
  cr_status : RunOutcome.run_outcome;
  cr_error : option string;
  cr_eveSessionIds : option (list string)
}.

Definition status_of_outcome (o : RunOutcome.run_outcome) : schedule_run_status :=
  match o with
  | RunOutcome.succeeded => RunStatus.succeeded
  | RunOutcome.failed => RunStatus.failed
  | RunOutcome.dispatch_unknown => RunStatus.dispatch_unknown
  end.

Definition trigger_of_run (t : run_trigger) : session_trigger :=
  match t with
  | RunTrigger.cron => SessionTrigger.cron
  | RunTrigger.manual => SessionTrigger.manual
  end.

Definition session_status_text (st : session_status) : string :=
  match st with
  | SessionStatus.running => "running"
  | SessionStatus.waiting => "waiting"
  | SessionStatus.completed => "completed"
  | SessionStatus.failed => "failed"
  | SessionStatus.waiting_approval => "waiting_approval"
  end.

(** The latest boundary event the session's root node reported since the run
    started. *)
Definition boundary_event (sessionId rootNodeId : string) (since : time) (d : database)
    : option SessionEvent.session_event_row :=
  head (order_by (desc_by SessionEvent.index)
    (select_where (fun e =>
        bool_decide (SessionEvent.sessionId e = sessionId)
        && bool_decide (SessionEvent.sessionNodeId e = Some rootNodeId)
        && (since <=? SessionEvent.createdAt e)%Z
        && bool_decide (SessionEvent.type e ∈ EVE_SESSION_BOUNDARY_EVENT_TYPES))
      (sessionEvents d))).

(** What a succeeded dispatch says of an observed session: the execution's
    status and error. *)
Definition observed_execution (run : ScheduleRun.schedule_run_row)
    (existing : Session.session_row) (rootNodeId : string) (d : database)
    : execution_status * option string :=
  let boundary := boundary_event (Session.id existing) rootNodeId
    (default (ScheduleRun.createdAt run) (ScheduleRun.startedAt run)) d in
  let type := SessionEvent.type <$> boundary in
  let payload := SessionEvent.payload <$> boundary in
  let st := scheduleExecutionStatusFromEveEvent type
              (session_status_text (Session.status existing)) payload in
  (st, if bool_decide (st = ExecutionStatus.failed)
       then Some (sanitizeStoredErrorText (scheduleExecutionErrorFromEveEvent type payload))
       else None).

(** One turn of the loop over the dispatched Eve sessions: the session is
    linked, or created, and its execution recorded. *)
Definition link_session (run : ScheduleRun.schedule_run_row) (projectId : string)
    (outcome : RunOutcome.run_outcome) (reportedError : option string) (eveSessionId : string)
    : Tx unit :=
  let trigger := trigger_of_run (ScheduleRun.trigger run) in
  let reported := if bool_decide (outcome = RunOutcome.succeeded)
                  then (ExecutionStatus.running, None)
                  else (ExecutionStatus.failed, reportedError) in
  existing <- read (session_by_eve projectId eveSessionId) ;;
  linked <-
    match existing with
    | Some existing =>
        _s <- update_key sessions_table (Session.id existing) (fun _ => true)
          (fun s => s <| Session.deploymentId := Some (ScheduleRun.deploymentId run) |>
                      <| Session.trigger := trigger |>
                      <| Session.scheduleId := Some (ScheduleRun.scheduleId run) |>
                      <| Session.scheduleRunId := Some (ScheduleRun.id run) |>) ;;
        match truthy (Session.rootNodeId existing) with
        | Some rootNodeId =>
            if bool_decide (outcome = RunOutcome.succeeded) then
              observed <- read (observed_execution run existing rootNodeId) ;;
              ret (Session.id existing, observed)
            else ret (Session.id existing, reported)
        | None => ret (Session.id existing, reported)
        end
    | None =>
        id <- createId "sess" ;;
        now <- clock ;;
        created <- insert_row sessions_table
          (new_session id projectId (Some (ScheduleRun.deploymentId run)) (Some eveSessionId)
             trigger (Some (ScheduleRun.scheduleId run)) (Some (ScheduleRun.id run)) now) ;;
        ret (Session.id created, reported)
    end ;;
  let '(sessionId, (executionStatus, executionError)) := linked in
  now <- clock ;;
  _x <- insert_unless_conflict schedule_run_sessions_table
    (ScheduleRunSession.mk (ScheduleRun.id run) sessionId executionStatus None
       (if bool_decide (executionStatus = ExecutionStatus.running) then None else Some now)
       executionError now) ;;
  ret tt.

Definition execution_has (st : execution_status)
    (x : ScheduleRunSession.schedule_run_session_row) : bool :=
  bool_decide (ScheduleRunSession.status x = st).

(** The run's row after the executions are recorded. *)
Definition finish_run (input : complete_run_input) (reportedError : option string)
    (executions : list ScheduleRunSession.schedule_run_session_row) (remainsRunning : bool)
    (now : time) (r : ScheduleRun.schedule_run_row) : ScheduleRun.schedule_run_row :=
  let executionFailure := head (base.filter (fun x => execution_has ExecutionStatus.failed x = true)
                                  executions) in
  let terminalStatus :=
    if bool_decide (cr_status input = RunOutcome.succeeded)
       && bool_decide (is_Some executionFailure)
    then RunStatus.failed else status_of_outcome (cr_status input) in
  r <| ScheduleRun.status := if remainsRunning then RunStatus.running else terminalStatus |>
    <| ScheduleRun.error :=
         or_else (x ← executionFailure; ScheduleRunSession.error x) reportedError |>
    <| ScheduleRun.completedAt := if remainsRunning then None else Some now |>
    <| ScheduleRun.updatedAt := now |>.

Definition completeScheduleRun_attempt (scheduleRunId : string) (input : complete_run_input)
    : Tx (option ScheduleRun.schedule_run_row) :=
  let reportedError := sanitizeStoredErrorText <$> cr_error input in
  transaction (
    run <- read (fun d => scheduleRuns d !! scheduleRunId) ;;
    match run with
    | None => ret None
    | Some run =>
        found <- read (fun d => projectSchedules d !! ScheduleRun.scheduleId run) ;;
        schedule <- some_or found (Error "ScheduleRun references an unknown ProjectSchedule.") ;;
        let dispatched := js_set (default [] (cr_eveSessionIds input)) in
        for_m dispatched (link_session run (ProjectSchedule.projectId schedule)
                            (cr_status input) reportedError) ;;
        now <- clock ;;
        executions <- (if bool_decide (dispatched = []) then ret []
                       else read (fun d => select_where (fun x =>
                              bool_decide (ScheduleRunSession.scheduleRunId x = ScheduleRun.id run))
                              (scheduleRunSessions d))) ;;
        let remainsRunning :=
          bool_decide (cr_status input = RunOutcome.succeeded)
          && existsb (execution_has ExecutionStatus.running) executions in
        completed <- update_key schedule_runs_table scheduleRunId (fun _ => true)
          (finish_run input reportedError executions remainsRunning now) ;;
        (if remainsRunning then ret tt else release_run_leases [scheduleRunId] now) ;;
        ret completed
    end).

Definition completeScheduleRun (scheduleRunId : string) (input : complete_run_input)
    : Tx (option ScheduleRun.schedule_run_row) :=
  retryOnIdentityRace (completeScheduleRun_attempt scheduleRunId input) alone
    (Some [sessionIdentityArbiter]) None.

(** ** Failure of executions *)

Definition executions_joined (d : database)
    : list (ScheduleRunSession.schedule_run_session_row * Session.session_row) :=
  inner_join (fun x s => bool_decide (Session.id s = ScheduleRunSession.sessionId x))
    (rows (scheduleRunSessions d)) (rows (sessions d)).

(** The running executions whose run holds a lease on the instance. *)
Definition interrupted_executions (runtimeInstanceId : string) (d : database)
    : list (ScheduleRunSession.schedule_run_session_row * Session.session_row) :=
  fst <$> inner_join (fun xs l =>
      execution_has ExecutionStatus.running xs.1
      && bool_decide (ActivationLease.ownerId l = ScheduleRunSession.scheduleRunId xs.1)
      && bool_decide (ActivationLease.kind l = LeaseKind.schedule_run)
      && bool_decide (ActivationLease.runtimeInstanceId l = Some runtimeInstanceId))
    (executions_joined d) (rows (activationLeases d)).

Definition failScheduleExecutionsForRuntimeInstance (runtimeInstanceId reason : string)
    (now : option time) : Tx nat :=
  now <- now_or now ;;
  transaction (
    interrupted <- read (interrupted_executions runtimeInstanceId) ;;
    if bool_decide (interrupted = []) then ret 0 else
      let runIds := js_set ((fun xs => ScheduleRunSession.scheduleRunId xs.1) <$> interrupted) in
      let sessionIds := (fun xs => ScheduleRunSession.sessionId xs.1) <$> interrupted in
      fail_executions runIds sessionIds reason now ;;
      fail_running_sessions sessionIds (sanitizeStoredErrorText reason) now ;;
      for_m sessionIds (fun sessionId =>
        _b <- appendRuntimeLostEventTx sessionId runtimeInstanceId reason now None None ;; ret tt) ;;
      _r <- update_where schedule_runs_table
        (fun r => bool_decide (ScheduleRun.id r ∈ runIds)) (fail_run_row reason now) ;;
      _l <- update_where activation_leases_table
        (fun l => bool_decide (ActivationLease.runtimeInstanceId l = Some runtimeInstanceId)
                  && bool_decide (ActivationLease.kind l = LeaseKind.schedule_run)
                  && bool_decide (ActivationLease.ownerId l ∈ runIds)
                  && bool_decide (ActivationLease.releasedAt l = None))
        (fun l => l <| ActivationLease.releasedAt := Some now |>) ;;
      fail_project_cards (js_set ((fun xs => Session.projectId xs.2) <$> interrupted)) now ;;
      ret (length interrupted)).

(** The runs with a running execution and an expired lease, each with the
    lease's instance. *)
Definition expired_runs (now : time) (d : database) : list (string * option string) :=
  js_set ((fun xl => (ScheduleRunSession.scheduleRunId xl.1,
                      ActivationLease.runtimeInstanceId xl.2)) <$>
    inner_join (fun x l =>
        execution_has ExecutionStatus.running x
        && bool_decide (ActivationLease.ownerId l = ScheduleRunSession.scheduleRunId x)
        && bool_decide (ActivationLease.kind l = LeaseKind.schedule_run)
        && (ActivationLease.expiresAt l <=? now)%Z)
      (rows (scheduleRunSessions d)) (rows (activationLeases d))).

Definition running_of_run (scheduleRunId : string) (d : database)
    : list (ScheduleRunSession.schedule_run_session_row * Session.session_row) :=
  base.filter (fun xs => bool_decide (ScheduleRunSession.scheduleRunId xs.1 = scheduleRunId)
                         && execution_has ExecutionStatus.running xs.1 = true)
    (executions_joined d).

Definition deadline_reason (runtimeInstanceId : option string) : string :=
  "ScheduleRun exceeded its maximum runtime on RuntimeInstance " +:+
  default "unknown" runtimeInstanceId +:+ ".".

Definition fail_expired (now : time) (expired : string * option string) : Tx unit :=
  let '(scheduleRunId, runtimeInstanceId) := expired in
  let reason := deadline_reason runtimeInstanceId in
  executions <- read (running_of_run scheduleRunId) ;;
  let sessionIds := (fun xs => ScheduleRunSession.sessionId xs.1) <$> executions in
  if bool_decide (sessionIds = []) then ret tt else
    _x <- update_where schedule_run_sessions_table
      (fun x => bool_decide (ScheduleRunSession.scheduleRunId x = scheduleRunId)
                && execution_has ExecutionStatus.running x)
      (fun x => x <| ScheduleRunSession.status := ExecutionStatus.failed |>
                  <| ScheduleRunSession.completedAt := Some now |>
                  <| ScheduleRunSession.error := Some reason |>) ;;
    fail_running_sessions sessionIds reason now ;;
    for_m sessionIds (fun sessionId =>
      id <- createId "evt" ;;
      _e <- appendSessionEventRow id
        (plain_event sessionId "platform.runtime_deadline_exceeded"
           (JObj [("runtimeInstanceId", match runtimeInstanceId with
                                        | Some r => JStr r
                                        | None => JNull
                                        end); ("reason", JStr reason)])
           (Some now)) ;;
      ret tt) ;;
    _r <- update_where schedule_runs_table
      (fun r => bool_decide (ScheduleRun.id r = scheduleRunId)) (fail_run_row reason now) ;;
    release_run_leases [scheduleRunId] now ;;
    fail_project_cards (js_set ((fun xs => Session.projectId xs.2) <$> executions)) now.

Definition failExpiredScheduleExecutions (now : time) (limit : option Z) : Tx nat :=
  limit <- some_or (positive_limit limit) (Error "Expired ScheduleRun limit must be positive.") ;;
  transaction (
    expired <- read (fun d => take limit (expired_runs now d)) ;;
    for_m expired (fail_expired now) ;;
    ret (length expired)).

(** ** Attention *)

Definition unacknowledged (r : ScheduleRun.schedule_run_row) : bool :=
  run_has RunStatus.failed r && bool_decide (ScheduleRun.acknowledgedAt r = None).

Definition schedules_of (projectId : string) (d : database) : list string :=
  ProjectSchedule.id <$>
    select_where (fun s => bool_decide (ProjectSchedule.projectId s = projectId))
      (projectSchedules d).

Definition acknowledgeScheduleRuns (projectId : string) (runIds : option (list string))
    (now : option time) : Tx nat :=
  now <- now_or now ;;
  scheduleIds <- read (schedules_of projectId) ;;
  acknowledged <- update_where schedule_runs_table
    (fun r => bool_decide (ScheduleRun.scheduleId r ∈ scheduleIds) && unacknowledged r
              && match runIds with
                 | Some ids => bool_decide (ScheduleRun.id r ∈ ids)
                 | None => true
                 end)
    (fun r => r <| ScheduleRun.acknowledgedAt := Some now |> <| ScheduleRun.updatedAt := now |>) ;;
  ret (length acknowledged).

(** The failed runs nobody acknowledged, by project. *)
Definition attention_runs (d : database) : list string :=
  r ← select_where unacknowledged (scheduleRuns d);
  match projectSchedules d !! ScheduleRun.scheduleId r with
  | Some s => [ProjectSchedule.projectId s]
  | None => []
  end.

Definition listScheduleAttention : Tx (list (string * nat)) :=
  read (fun d => (fun p => (p, length (base.filter (fun q => q = p) (attention_runs d))))
                   <$> js_set (attention_runs d)).

(** ** Reading runs: pages, details, summaries *)

Record usage_summary : Type := mk_usage_summary {
  us_status : UsageStatus.usage_status;
  us_inputTokens : Z; us_outputTokens : Z; us_cacheReadTokens : Z; us_cacheWriteTokens : Z;
  us_costUsd : option jsnum; us_reportedSteps : Z; us_missingSteps : Z
}.

(** The cost is null until a session reports one. *)
Definition summarizeSessionUsage (sessions : list Session.session_row) : usage_summary :=
  let total f := fold_left (fun n s => n + f s)%Z sessions 0%Z in
  let reported := total Session.usageReportedSteps in
  let missing := total Session.usageMissingSteps in
  mk_usage_summary
    (if (0 <? reported)%Z
     then if (0 <? missing)%Z then UsageStatus.partial else UsageStatus.reported
     else if (0 <? missing)%Z then UsageStatus.missing else UsageStatus.none)
    (total Session.inputTokens) (total Session.outputTokens)
    (total Session.cacheReadTokens) (total Session.cacheWriteTokens)
    (fold_left (fun cost s => match Session.costUsd s with
                              | Some c => Some (js_add (default js_zero cost) c)
                              | None => cost
                              end) sessions None)
    reported missing.

(** [desc(createdAt), desc(id)], and the rows strictly after a cursor in it. *)
Definition newest_first (a b : ScheduleRun.schedule_run_row) : bool :=
  then_by (desc_by ScheduleRun.createdAt)
    (fun a b => collation_leb (ScheduleRun.id b) (ScheduleRun.id a)) a b.

Definition before_cursor (cursor r : ScheduleRun.schedule_run_row) : bool :=
  (ScheduleRun.createdAt r <? ScheduleRun.createdAt cursor)%Z
  || (bool_decide (ScheduleRun.createdAt r = ScheduleRun.createdAt cursor)
      && negb (collation_leb (ScheduleRun.id cursor) (ScheduleRun.id r))).

Record list_runs_input : Type := mk_list_runs_input {
  lr_scheduleId : option string; lr_trigger : option run_trigger;
  lr_status : option schedule_run_status; lr_cursor : option string; lr_limit : nat
}.

Definition optional_eq {A} `{EqDecision A} (wanted : option A) (a : A) : bool :=
  match wanted with Some w => bool_decide (a = w) | None => true end.

(** The runs of a project with the schedule of each. *)
Definition project_runs (projectId : string) (d : database)
    : list (ScheduleRun.schedule_run_row * ProjectSchedule.project_schedule_row) :=
  inner_join (fun r s => bool_decide (ProjectSchedule.id s = ScheduleRun.scheduleId r))
    (rows (scheduleRuns d))
    (select_where (fun s => bool_decide (ProjectSchedule.projectId s = projectId))
       (projectSchedules d)).

Definition run_matches (input : list_runs_input) (cursor : option ScheduleRun.schedule_run_row)
    (r : ScheduleRun.schedule_run_row) : bool :=
  optional_eq (truthy (lr_scheduleId input)) (ScheduleRun.scheduleId r)
  && optional_eq (lr_trigger input) (ScheduleRun.trigger r)
  && optional_eq (lr_status input) (ScheduleRun.status r)
  && match cursor with Some c => before_cursor c r | None => true end.

Record run_item : Type := mk_run_item {
  item_run : ScheduleRun.schedule_run_row; item_scheduleKey : string;
  item_sessionCount : nat; item_usage : usage_summary; item_sessions : list Session.session_row
}.

Definition sessions_of_run (runId : string) (l : list Session.session_row)
    : list Session.session_row :=
  base.filter (fun s => Session.scheduleRunId s = Some runId) l.

Definition runs_page (projectId : string) (input : list_runs_input)
    (cursor : option ScheduleRun.schedule_run_row) (d : database)
    : list run_item * option string :=
  let found := take (lr_limit input + 1) (order_by (fun a b => newest_first a.1 b.1)
    (base.filter (fun rs => run_matches input cursor rs.1 = true) (project_runs projectId d))) in
  let page := take (lr_limit input) found in
  ((fun rs =>
      let runSessions := sessions_of_run (ScheduleRun.id rs.1) (rows (sessions d)) in
      mk_run_item rs.1 (ProjectSchedule.key rs.2) (length runSessions)
        (summarizeSessionUsage runSessions) runSessions) <$> page,
   if bool_decide (lr_limit input < length found)%nat
   then (fun rs => ScheduleRun.id rs.1) <$> last page else None).

Definition listScheduleRuns (projectId : string) (input : list_runs_input)
    : Tx (list run_item * option string) :=
  match truthy (lr_cursor input) with
  | None => read (runs_page projectId input None)
  | Some id =>
      cursor <- read (fun d => find (fun rs => bool_decide (ScheduleRun.id rs.1 = id))
                                 (project_runs projectId d)) ;;
      match cursor with
      | None => ret ([], None)
      | Some rs => read (runs_page projectId input (Some rs.1))
      end
  end.

Record run_detail : Type := mk_run_detail {
  rd_item : run_item; rd_version : ScheduleVersion.schedule_version_row;
  rd_release : Release.release_row; rd_deployment : Deployment.deployment_row
}.

Definition getScheduleRunDetail (scheduleRunId : string) : Tx (option run_detail) :=
  read (fun d =>
    run ← scheduleRuns d !! scheduleRunId;
    schedule ← projectSchedules d !! ScheduleRun.scheduleId run;
    version ← scheduleVersions d !! ScheduleRun.scheduleVersionId run;
    release ← releases d !! ScheduleRun.releaseId run;
    deployment ← deployments d !! ScheduleRun.deploymentId run;
    let linked := order_by (fun a b =>
        then_by (desc_by Session.startedAt)
          (fun a b => collation_leb (Session.id b) (Session.id a)) a b)
      (select_where (fun s => bool_decide (Session.scheduleRunId s = Some scheduleRunId))
         (sessions d)) in
    Some (mk_run_detail
      (mk_run_item run (ProjectSchedule.key schedule) (length linked)
         (summarizeSessionUsage linked) linked)
      version release deployment)).

Record schedule_summary : Type := mk_schedule_summary {
  ss_schedule : ProjectSchedule.project_schedule_row;
  ss_version : option ScheduleVersion.schedule_version_row;
  ss_targetDeploymentId : option string;
  ss_latestRunStatus : option schedule_run_status
}.

(** [select distinct on (schedule_id)] over the newest runs first. *)
Definition latest_run (scheduleId : string) (d : database) : option ScheduleRun.schedule_run_row :=
  head (order_by newest_first
    (select_where (fun r => bool_decide (ScheduleRun.scheduleId r = scheduleId)) (scheduleRuns d))).

(** The left joins: a schedule without a target, a deployment, a release, a
    version or a run is kept, with the columns of the missing rows null. *)
Definition listProjectScheduleSummaries (projectId : string) : Tx (list schedule_summary) :=
  read (fun d =>
    (fun schedule =>
       let target := projectSchedulerTargets d !! ProjectSchedule.projectId schedule in
       let version :=
         target ← target;
         dr ← deployment_release (SchedulerTarget.deploymentId target) d;
         version_for (ProjectSchedule.id schedule) (Release.sourceRevisionId dr.2) d in
       mk_schedule_summary schedule version (SchedulerTarget.deploymentId <$> target)
         (ScheduleRun.status <$> latest_run (ProjectSchedule.id schedule) d))
    <$> order_by (fun a b => collation_leb (ProjectSchedule.key a) (ProjectSchedule.key b))
          (select_where (fun s => bool_decide (ProjectSchedule.projectId s = projectId))
             (projectSchedules d))).
End ScheduleStore.

(** ** The life of a run *)
#[local] Open Scope list_scope.

Section RunFacts.
Context `{Platform}.

(** A run that has not been dispatched yet. *)
Definition early (r : ScheduleRun.schedule_run_row) : bool :=
  run_has RunStatus.queued r || run_has RunStatus.activating r.

Definition run_identity (r : ScheduleRun.schedule_run_row) :=
  (ScheduleRun.id r, ScheduleRun.scheduleId r, ScheduleRun.scheduleVersionId r,
   ScheduleRun.releaseId r, ScheduleRun.deploymentId r,
   (ScheduleRun.dueAt r, ScheduleRun.trigger r, ScheduleRun.missedTicks r,
    ScheduleRun.createdAt r)).

(** How a run's row may change: what it runs is fixed, it is counted at most
    one more attempt, and only as it leaves the early statuses for good. *)
Record run_moves (r r' : ScheduleRun.schedule_run_row) : Prop := {
  rm_identity : run_identity r' = run_identity r;
  rm_early : early r' = true -> early r = true /\ ScheduleRun.attempt r' = ScheduleRun.attempt r;
  rm_attempt : (ScheduleRun.attempt r <= ScheduleRun.attempt r'
                <= ScheduleRun.attempt r + (if early r then 1 else 0))%Z
}.

(** A run that was not there before. *)
Definition fresh_run (r : ScheduleRun.schedule_run_row) : Prop :=
  (0 <= ScheduleRun.attempt r <= 1)%Z /\ (early r = true -> ScheduleRun.attempt r = 0%Z).

Definition runs_move (d d' : database) : Prop :=
  (forall k r, scheduleRuns d !! k = Some r ->
     exists r', scheduleRuns d' !! k = Some r' /\ run_moves r r') /\
  (forall k r', scheduleRuns d' !! k = Some r' -> scheduleRuns d !! k = None -> fresh_run r').

#[global] Instance run_moves_preorder : PreOrder run_moves.
Proof.
  split.
  - intros r. constructor; [done | done | destruct (early r); lia].
  - intros r1 r2 r3 [Hi1 He1 Ha1] [Hi2 He2 Ha2]. constructor; [congruence| |].
    + intros He3. destruct (He2 He3) as [He Heq]. destruct (He1 He). split; [done|congruence].
    + destruct (early r2) eqn:H2; [destruct (He1 eq_refl) as [-> ?]|destruct (early r1)]; lia.
Qed.

Lemma fresh_run_moves r r' : fresh_run r -> run_moves r r' -> fresh_run r'.
Proof.
  intros [Ha Hz] [_ He Hb]. split.
  - destruct (early r); [specialize (Hz eq_refl)|]; lia.
  - intros He'. destruct (He He') as [He1 ->]. auto.
Qed.

#[global] Instance runs_move_preorder : PreOrder runs_move.
Proof.
  split.
  - intros d. split; [intros k r Hk; by exists r | intros k r' Hk Hn; congruence].
  - intros d1 d2 d3 [H12 F12] [H23 F23]. split.
    + intros k r Hk. destruct (H12 k r Hk) as (r2 & Hk2 & Hm2).
      destruct (H23 k r2 Hk2) as (r3 & Hk3 & Hm3). exists r3. split; [done|]. by etransitivity.
    + intros k r3 Hk3 Hn1. destruct (scheduleRuns d2 !! k) as [r2|] eqn:Hk2; [|by eapply F23].
      destruct (H23 k r2 Hk2) as (r3' & Hk3' & Hm). simplify_eq.
      eapply fresh_run_moves; [by eapply F12 | done].
Qed.

Lemma runs_move_frame d d' : scheduleRuns d' = scheduleRuns d -> runs_move d d'.
Proof.
  intros Heq. unfold runs_move. rewrite Heq.
  split; [intros k r Hk; by exists r | intros k r' Hk Hn; congruence].
Qed.

Lemma runs_move_insert d r :
  scheduleRuns d !! ScheduleRun.id r = None -> fresh_run r ->
  runs_move d (d <| scheduleRuns ::= insert (ScheduleRun.id r) r |>).
Proof.
  intros Hn Hf. split; simpl.
  - intros k r0 Hk. exists r0. split; [|done]. rewrite lookup_insert_ne; [done|congruence].
  - intros k r' Hk Hn'. apply lookup_insert_Some in Hk as [[_ <-]|[_ Hk]]; [done|congruence].
Qed.

Lemma runs_move_update d k (f : ScheduleRun.schedule_run_row -> ScheduleRun.schedule_run_row) r :
  scheduleRuns d !! k = Some r -> run_moves r (f r) ->
  runs_move d (d <| scheduleRuns ::= insert k (f r) |>).
Proof.
  intros Hk Hm. split; simpl.
  - intros k' r0 Hk0. destruct (decide (k = k')) as [<-|Hne].
    + rewrite lookup_insert_eq. simplify_eq. eauto.
    + rewrite lookup_insert_ne by done. by exists r0.
  - intros k' r' Hk' Hn. apply lookup_insert_Some in Hk' as [[<- _]|[_ ?]]; congruence.
Qed.

Lemma runs_move_update_rows d p
    (f : ScheduleRun.schedule_run_row -> ScheduleRun.schedule_run_row) :
  (forall r, run_moves r (f r)) -> runs_move d (d <| scheduleRuns ::= update_rows p f |>).
Proof.
  intros Hf. split; simpl; intros k r Hk.
  - rewrite update_rows_lookup, Hk. simpl. eexists. split; [done|]. by destruct (p r).
  - intros Hn. rewrite update_rows_lookup, Hn in Hk. done.
Qed.

(** A change to anything but an early status keeps the attempts. *)
Lemma run_moves_late r r' :
  run_identity r' = run_identity r -> ScheduleRun.attempt r' = ScheduleRun.attempt r ->
  early r' = false \/ early r' = early r -> run_moves r r'.
Proof.
  intros Hi Ha He. constructor; [done | | destruct (early r); lia].
  intros He'. split; [destruct He; congruence | done].
Qed.

Lemma run_moves_fail reason now r : run_moves r (fail_run_row reason now r).
Proof. by apply run_moves_late; [..|left]. Qed.

Lemma run_moves_finish input err xs running now r :
  run_moves r (finish_run input err xs running now r).
Proof.
  apply run_moves_late; [done..|left]. unfold early, run_has, finish_run. simpl.
  destruct running; [done|]. destruct (_ && _); [done|]. by destruct (cr_status input).
Qed.

(** Closes a statement that leaves the runs alone. *)
Ltac frame_runs :=
  first [ apply moves_insert_row; [apply _|] | apply moves_update_key; [apply _|]
        | apply moves_update_where; [apply _|] | apply moves_write ];
  intros; by apply runs_move_frame.

Lemma moves_append_runs id values : moves runs_move (appendSessionEventRow id values).
Proof. unfold appendSessionEventRow. walk. frame_runs. Qed.

Lemma moves_insertJob_runs pid ty p c u : moves runs_move (insertJobRowTx pid ty p c u).
Proof.
  unfold insertJobRowTx. walk. frame_runs.
Qed.
#[local] Hint Resolve moves_append_runs moves_insertJob_runs : moves.

Lemma moves_lost_runs sid rti reason now node dep :
  moves runs_move (appendRuntimeLostEventTx sid rti reason now node dep).
Proof. unfold appendRuntimeLostEventTx. walk. Qed.

Lemma moves_fail_executions_runs runIds sids reason now :
  moves runs_move (fail_executions runIds sids reason now).
Proof. unfold fail_executions. walk. frame_runs. Qed.

Lemma moves_fail_sessions_runs sids err now : moves runs_move (fail_running_sessions sids err now).
Proof. unfold fail_running_sessions. walk. frame_runs. Qed.

Lemma moves_cards_runs pids now : moves runs_move (fail_project_cards pids now).
Proof. unfold fail_project_cards. walk. frame_runs. Qed.

Lemma moves_release_runs ids now : moves runs_move (release_run_leases ids now).
Proof. unfold release_run_leases. walk. frame_runs. Qed.

Lemma moves_fail_runs p reason now :
  moves runs_move (update_where schedule_runs_table p (fail_run_row reason now)).
Proof.
  apply moves_update_where; [apply _|]. intros d. apply runs_move_update_rows.
  apply run_moves_fail.
Qed.
#[local] Hint Resolve moves_lost_runs moves_fail_executions_runs moves_fail_sessions_runs
  moves_cards_runs moves_release_runs moves_fail_runs : moves.

Lemma moves_recordVersions_runs pid rev defs :
  moves runs_move (recordScheduleVersions pid rev defs).
Proof.
  unfold recordScheduleVersions, record_definition, ensure_schedule, ensure_version,
    insert_or_ignore.
  walk; frame_runs.
Qed.

Lemma moves_upsert {K A} `{Countable K} (R : relation database) `{!PreOrder R} (T : table K A)
    target r set :
  moves R (insert_row T r) -> (forall k, moves R (update_key T k (fun _ => true) set)) ->
  moves R (upsert T target r set).
Proof. intros Hins Hup. unfold upsert. walk; eauto. Qed.

Lemma moves_applyTarget_runs pid did rev now :
  moves runs_move (applySchedulerTargetTx pid did rev now).
Proof.
  unfold applySchedulerTargetTx, retarget. apply moves_bind; [apply _| |].
  - apply moves_upsert; [apply _|..]; intros; frame_runs.
  - walk; frame_runs.
Qed.
#[local] Hint Resolve moves_applyTarget_runs : moves.

Lemma moves_setTarget_runs pid did now : moves runs_move (setProjectSchedulerTarget pid did now).
Proof. unfold setProjectSchedulerTarget. walk. Qed.

Lemma new_run_fresh id sid vid rid did due tr m now :
  fresh_run (new_run id sid vid rid did due tr m now).
Proof. split; simpl; [lia | done]. Qed.

Lemma moves_insert_run r : fresh_run r -> moves runs_move (insert_row schedule_runs_table r).
Proof.
  intros Hf. apply moves_insert_row; [apply _|]. intros d Hn. by apply runs_move_insert.
Qed.

Lemma moves_manual_runs pid sid now : moves runs_move (createManualScheduleRun pid sid now).
Proof. unfold createManualScheduleRun. walk. apply moves_insert_run, new_run_fresh. Qed.

Lemma moves_claimDue_runs now limit : moves runs_move (claimDueScheduleRuns now limit).
Proof.
  unfold claimDueScheduleRuns, claim_due, disable_schedule, insert_or_ignore.
  walk; first [frame_runs | apply moves_insert_run, new_run_fresh].
Qed.

Lemma moves_update_run k p (f : ScheduleRun.schedule_run_row -> ScheduleRun.schedule_run_row) :
  (forall r, p r = true -> run_moves r (f r)) ->
  moves runs_move (update_key schedule_runs_table k p f).
Proof.
  intros Hf. apply moves_update_key; [apply _|]. intros d r Hk Hp.
  apply runs_move_update; auto.
Qed.

Lemma moves_claimActivation_runs id now stale :
  moves runs_move (claimScheduleRunActivation id now stale).
Proof.
  unfold claimScheduleRunActivation. walk. apply moves_update_run. intros r Hp.
  apply run_moves_late; [done..|right]. symmetry. unfold early, run_has in *. simpl.
  apply orb_true_iff in Hp as [->|[-> _]%andb_true_iff]; [done|by rewrite orb_true_r].
Qed.

Lemma moves_redeem_runs id did : moves runs_move (redeemScheduleRunDispatch id did).
Proof.
  unfold redeemScheduleRunDispatch. walk. apply moves_update_run. intros r Hp.
  apply andb_true_iff in Hp as [_ Hp]. constructor; [done..|]. simpl. unfold early.
  rewrite Hp, orb_true_r. lia.
Qed.

Lemma moves_link_runs run pid o err eve : moves runs_move (link_session run pid o err eve).
Proof. unfold link_session, insert_unless_conflict. walk; frame_runs. Qed.
#[local] Hint Resolve moves_link_runs : moves.

Lemma moves_complete_runs id input : moves runs_move (completeScheduleRun id input).
Proof.
  unfold completeScheduleRun, retryOnIdentityRace. apply moves_retry; [apply _|].
  unfold completeScheduleRun_attempt. walk.
  apply moves_update_run. intros r _. apply run_moves_finish.
Qed.

Lemma moves_failExecutions_runs rti reason now :
  moves runs_move (failScheduleExecutionsForRuntimeInstance rti reason now).
Proof. unfold failScheduleExecutionsForRuntimeInstance. walk. frame_runs. Qed.

Lemma moves_failExpired_runs now limit : moves runs_move (failExpiredScheduleExecutions now limit).
Proof. unfold failExpiredScheduleExecutions, fail_expired. walk; frame_runs. Qed.

Lemma moves_acknowledge_runs pid ids now : moves runs_move (acknowledgeScheduleRuns pid ids now).
Proof.
  unfold acknowledgeScheduleRuns. walk. apply moves_update_where; [apply _|]. intros d.
  apply runs_move_update_rows. intros r. by apply run_moves_late; [..|right].
Qed.

(** ** Executions of the schedule store *)
Inductive schedule_step : store -> store -> Prop :=
  | step_recordScheduleVersions pid rev defs s :
      schedule_step s (exec (recordScheduleVersions pid rev defs) s)
  | step_setProjectSchedulerTarget pid did now s :
      schedule_step s (exec (setProjectSchedulerTarget pid did now) s)
  | step_createManualScheduleRun pid sid now s :
      schedule_step s (exec (createManualScheduleRun pid sid now) s)
  | step_claimDueScheduleRuns now limit s :
      schedule_step s (exec (claimDueScheduleRuns now limit) s)
  | step_claimScheduleRunActivation id now stale s :
      schedule_step s (exec (claimScheduleRunActivation id now stale) s)
  | step_redeemScheduleRunDispatch id did s :
      schedule_step s (exec (redeemScheduleRunDispatch id did) s)
  | step_completeScheduleRun id input s :
      schedule_step s (exec (completeScheduleRun id input) s)
  | step_failScheduleExecutions rti reason now s :
      schedule_step s (exec (failScheduleExecutionsForRuntimeInstance rti reason now) s)
  | step_failExpiredScheduleExecutions now limit s :
      schedule_step s (exec (failExpiredScheduleExecutions now limit) s)
  | step_acknowledgeScheduleRuns pid ids now s :
      schedule_step s (exec (acknowledgeScheduleRuns pid ids now) s)
  | step_failRunningSessions rti reason now s :
      schedule_step s (exec (failRunningSessionsForRuntimeInstance rti reason now) s).

Lemma moves_failRunning_runs rti reason now :
  moves runs_move (failRunningSessionsForRuntimeInstance rti reason now).
Proof. unfold failRunningSessionsForRuntimeInstance, lost_tail. walk. frame_runs. Qed.

Lemma schedule_step_runs s s' : schedule_step s s' -> runs_move (st_db s) (st_db s').
Proof.
  intros Hs; destruct Hs.
  - apply moves_recordVersions_runs.
  - apply moves_setTarget_runs.
  - apply moves_manual_runs.
  - apply moves_claimDue_runs.
  - apply moves_claimActivation_runs.
  - apply moves_redeem_runs.
  - apply moves_complete_runs.
  - apply moves_failExecutions_runs.
  - apply moves_failExpired_runs.
  - apply moves_acknowledge_runs.
  - apply moves_failRunning_runs.
Qed.

(** C8. A run is dispatched at most once: in every execution of the schedule
    store a run keeps what it runs, is handed out for dispatch at most one time
    more, and only by leaving [queued] and [activating] for good; a run created
    on the way has been dispatched at most once. *)
Theorem runs_dispatch_at_most_once s s' :
  rtc schedule_step s s' ->
  (forall k r, scheduleRuns (st_db s) !! k = Some r ->
     exists r', scheduleRuns (st_db s') !! k = Some r' /\
       run_identity r' = run_identity r /\
       (ScheduleRun.attempt r <= ScheduleRun.attempt r' <= ScheduleRun.attempt r + 1)%Z /\
       (early r = false -> early r' = false /\ ScheduleRun.attempt r' = ScheduleRun.attempt r)) /\
  (forall k r', scheduleRuns (st_db s') !! k = Some r' -> scheduleRuns (st_db s) !! k = None ->
     (0 <= ScheduleRun.attempt r' <= 1)%Z /\ (early r' = true -> ScheduleRun.attempt r' = 0%Z)).
Proof.
  intros Hsteps. assert (Hm : runs_move (st_db s) (st_db s')).
  { induction Hsteps as [|s1 s2 s3 Hstep _ IH]; [reflexivity|].
    etransitivity; [by apply schedule_step_runs | exact IH]. }
  destruct Hm as [Hold Hnew]. split; [|exact Hnew].
  intros k r Hk. destruct (Hold k r Hk) as (r' & Hk' & [Hi He Ha]).
  exists r'. split; [done|]. split; [done|]. split; [destruct (early r); lia|].
  intros Hl. rewrite Hl in *. split; [|lia]. destruct (early r'); [|done]. by destruct He.
Qed.

(** ** The claim of due ticks *)

(** What a turn for the schedule [sid] leaves alone. *)
Definition claim_frame (sid : string) (d d' : database) : Prop :=
  (forall k, k <> sid -> projectSchedules d' !! k = projectSchedules d !! k) /\
  scheduleRuns d ⊆ scheduleRuns d' /\ jobs d ⊆ jobs d'.

Definition du_id (row : due_row) : string := ProjectSchedule.id (du_schedule row).

(** The [trigger_schedule] job queued for a run. *)
Definition trigger_job (projectId : string) (run : ScheduleRun.schedule_run_row)
    (j : Job.job_row) : Prop :=
  Job.type j = "trigger_schedule" /\ Job.status j = "queued" /\ Job.projectId j = projectId /\
  decodeJobPayload "trigger_schedule" (trigger_payload run) = Ok (Job.payload j).

(** The cron run [r] holds the tick of the row's version. *)
Definition holds_tick (row : due_row) (dueAt : time) (r : ScheduleRun.schedule_run_row) : Prop :=
  ScheduleRun.trigger r = RunTrigger.cron /\
  ScheduleRun.scheduleVersionId r = ScheduleVersion.id (du_version row) /\
  ScheduleRun.dueAt r = dueAt.

(** [run] claims the tick [dueAt] of the row, from the tables [d] to [d']. *)
Record claimed_from (now : time) (row : due_row) (run : ScheduleRun.schedule_run_row)
    (dueAt next : time) (missed : Z) (d d' : database) : Prop := {
  cf_run : run = new_run (ScheduleRun.id run) (du_id row) (ScheduleVersion.id (du_version row))
                   (Release.id (du_release row)) (Deployment.id (du_deployment row)) dueAt
                   RunTrigger.cron missed now;
  cf_fresh : scheduleRuns d !! ScheduleRun.id run = None;
  cf_first : forall k r, scheduleRuns d !! k = Some r -> ~ holds_tick row dueAt r;
  cf_stored : scheduleRuns d' !! ScheduleRun.id run = Some run;
  cf_schedule : projectSchedules d' !! du_id row = Some
    ((du_schedule row) <| ProjectSchedule.nextRunAt := Some next |>
                       <| ProjectSchedule.updatedAt := now |>);
  cf_job : exists k j, jobs d !! k = None /\ jobs d' !! k = Some j /\
             trigger_job (ProjectSchedule.projectId (du_schedule row)) run j
}.

(** What the claim makes of a due row: a run for its tick, with the schedule
    moved on to the next one; nothing, when a cron run of the version holds the
    tick already; or a schedule switched off because its cron throws. *)
Definition row_outcome (now : time) (row : due_row) (runs : list ScheduleRun.schedule_run_row)
    (d d' : database) : Prop :=
  exists dueAt, ProjectSchedule.nextRunAt (du_schedule row) = Some dueAt /\
  match calculateScheduleAdvance (ScheduleVersion.cron (du_version row)) dueAt now with
  | Some (next, missed) =>
      (exists run, run ∈ runs /\ claimed_from now row run dueAt next missed d d') \/
      (projectSchedules d' !! du_id row = Some (du_schedule row) /\
       exists k r, scheduleRuns d' !! k = Some r /\ holds_tick row dueAt r)
  | None =>
      projectSchedules d' !! du_id row = Some
        ((du_schedule row) <| ProjectSchedule.enabled := false |>
                           <| ProjectSchedule.nextRunAt := None |>
                           <| ProjectSchedule.updatedAt := now |>)
  end.

Lemma claimed_from_mono now row run due next m d0 d d1 d2 :
  claimed_from now row run due next m d d1 ->
  scheduleRuns d0 ⊆ scheduleRuns d -> jobs d0 ⊆ jobs d ->
  projectSchedules d2 !! du_id row = projectSchedules d1 !! du_id row ->
  scheduleRuns d1 ⊆ scheduleRuns d2 -> jobs d1 ⊆ jobs d2 ->
  claimed_from now row run due next m d0 d2.
Proof.
  intros [Hr Hf Hfst Hs Hp (k & j & Hk & Hj & Ht)] Hr0 Hj0 Hp2 Hr2 Hj2.
  constructor; [done| | | | |].
  - by eapply lookup_weaken_None.
  - intros k0 r0 Hk0. eapply Hfst. by eapply lookup_weaken.
  - by eapply lookup_weaken.
  - by rewrite Hp2.
  - exists k, j. split; [by eapply lookup_weaken_None|]. split; [by eapply lookup_weaken|done].
Qed.

Lemma row_outcome_mono now row runs runs' d0 d d1 d2 :
  row_outcome now row runs d d1 -> runs ⊆ runs' ->
  scheduleRuns d0 ⊆ scheduleRuns d -> jobs d0 ⊆ jobs d ->
  projectSchedules d2 !! du_id row = projectSchedules d1 !! du_id row ->
  scheduleRuns d1 ⊆ scheduleRuns d2 -> jobs d1 ⊆ jobs d2 ->
  row_outcome now row runs' d0 d2.
Proof.
  intros (due & Hdue & Ho) Hsub Hr0 Hj0 Hp Hr Hj. exists due. split; [done|].
  destruct (calculateScheduleAdvance _ _ _) as [[next m]|]; [|by rewrite Hp].
  destruct Ho as [(run & Hin & Hc)|(Hs & k & r & Hk & Hrest)]; [left|right].
  - exists run. split; [by apply Hsub|]. by eapply claimed_from_mono.
  - rewrite Hp. split; [done|]. exists k, r. split; [by eapply lookup_weaken|done].
Qed.

(** One turn of the loop. *)
Lemma claim_due_ok now acc row s acc' s' :
  claim_due now acc row s = (Ok acc', s') ->
  projectSchedules (st_db s) !! du_id row = Some (du_schedule row) ->
  ProjectSchedule.nextRunAt (du_schedule row) <> None ->
  claim_frame (du_id row) (st_db s) (st_db s') /\
  exists new, acc' = acc ++ new /\ row_outcome now row new (st_db s) (st_db s') /\
    (new = [] \/ exists run due next m, new = [run] /\
       ProjectSchedule.nextRunAt (du_schedule row) = Some due /\
       calculateScheduleAdvance (ScheduleVersion.cron (du_version row)) due now = Some (next, m) /\
       claimed_from now row run due next m (st_db s) (st_db s')).
Proof.
  unfold claim_due. cbv zeta. intros Hrun Hk Hnn.
  destruct (ProjectSchedule.nextRunAt _) as [due|] eqn:Hdue; [clear Hnn|done].
  destruct (calculateScheduleAdvance _ _ _) as [[next m]|] eqn:Hadv.
  - apply bind_ok in Hrun as (id & s1 & [= <- <-] & Hrun).
    match type of Hrun with context [insert_or_ignore _ _ ?r] => set (run := r) in * end.
    apply bind_ok in Hrun as (ins & s2 & Hins & Hrun).
    apply insert_or_ignore_ok in Hins as [(-> & -> & Hc)|(-> & Hc & Hins)].
    + injection Hrun as <- <-. simpl in *. split; [split; [done|split; reflexivity]|].
      exists []. rewrite app_nil_r. split; [done|]. split; [|by left]. exists due.
      split; [done|]. rewrite Hadv. right. split; [done|].
      apply clashes_true in Hc as (k & r & Hr & _ & Hcl).
      unfold schedule_runs_version_due_idx in Hcl. simpl in Hcl.
      apply same_key_clash in Hcl as ([v t] & [= <- <-] & Hkey). exists k, r. split; [done|].
      unfold holds_tick. destruct (ScheduleRun.trigger r); [|done]. by injection Hkey as -> ->.
    + apply insert_row_ok in Hins as (_ & Hn & _ & ->).
      apply bind_ok in Hrun as (o & s3 & Hup & Hrun).
      apply update_key_ok in Hup as [(_ & _ & Hno)|(sch & Hsch & _ & _ & _ & ->)].
      { by specialize (Hno _ Hk). }
      simpl in Hsch. unfold du_id in Hk. rewrite Hk in Hsch. injection Hsch as <-.
      apply bind_ok in Hrun as (j & s4 & Hj & [= <- <-]).
      apply insertJobRowTx_ok in Hj as (Hp & Hpid & Hty & Hst & Hjn & Hdb). rewrite Hdb. simpl in *.
      assert (Hcf : claimed_from now row run due next m (st_db s) (st_db s4)).
      { rewrite Hdb. constructor; simpl; [done|done| |by rewrite lookup_insert_eq| |].
        - intros k r Hkr (Htr & Hv & Hd). rewrite clashes_false in Hc.
          assert (Hne : k <> ScheduleRun.id run) by
            (intros ->; change (scheduleRuns (st_db s) !! ScheduleRun.id run = None) in Hn; congruence).
          specialize (Hc k r Hkr Hne). unfold schedule_runs_version_due_idx in Hc. simpl in Hc.
          eapply same_key_false in Hc; [|reflexivity]. apply Hc. by rewrite Htr, Hv, Hd.
        - apply lookup_insert_eq.
        - exists (Job.id j), j. split; [done|]. split; [apply lookup_insert_eq|]. done. }
      split.
      * split; [intros k Hne; simpl; rewrite lookup_insert_ne; [done|by apply not_eq_sym]|].
        split; simpl; by apply insert_subseteq.
      * rewrite Hdb in Hcf. exists [run]. split; [done|]. split; [|right; by exists run, due, next, m].
        exists due. split; [done|]. rewrite Hadv. left. exists run. split; [by left|done].
  - apply bind_ok in Hrun as (u & s1 & Hdis & [= <- <-]). unfold disable_schedule in Hdis.
    apply bind_ok in Hdis as (o & s2 & Hup & [= _ <-]).
    apply update_key_ok in Hup as [(_ & _ & Hno)|(sch & Hsch & _ & _ & _ & ->)].
    { by specialize (Hno _ Hk). }
    simpl in Hsch. unfold du_id in Hk. rewrite Hk in Hsch. injection Hsch as <-. simpl.
    split; [split; [|by split]|].
    + intros k Hne. simpl. rewrite lookup_insert_ne; [done|by apply not_eq_sym].
    + exists []. rewrite app_nil_r. split; [done|]. split; [|by left]. exists due. split; [done|].
      rewrite Hadv. apply lookup_insert_eq.
Qed.

Lemma due_of_schedule d sch row : due_of d sch = Some row -> du_schedule row = sch.
Proof.
  unfold due_of. intros (t & _ & Hrow)%bind_Some.
  apply bind_Some in Hrow as (dr & _ & Hrow). apply bind_Some in Hrow as (v & _ & [= <-]). done.
Qed.

Lemma elem_of_due now n d row :
  keyed project_schedules_table d -> row ∈ due_schedules now n d ->
  projectSchedules d !! du_id row = Some (du_schedule row) /\
  due_of d (du_schedule row) = Some row /\ ProjectSchedule.enabled (du_schedule row) = true /\
  exists dueAt, ProjectSchedule.nextRunAt (du_schedule row) = Some dueAt /\ (dueAt <= now)%Z.
Proof.
  intros Hkey Hin. unfold due_schedules in Hin.
  apply elem_of_take in Hin as (i & Hi & _). apply list_elem_of_lookup_2 in Hi.
  apply elem_of_order_by, list_elem_of_omap in Hi as (sch & Hsel & Hof).
  pose proof (due_of_schedule _ _ _ Hof) as <-.
  apply elem_of_select in Hsel as (Hdue & k & Hk).
  assert (du_id row = k) as -> by by apply Hkey.
  split; [done|]. split; [done|]. unfold is_due, next_run_within in Hdue.
  apply andb_true_iff in Hdue as [-> Hle]. split; [done|].
  destruct (ProjectSchedule.nextRunAt _) as [t|]; [|done]. exists t.
  apply andb_true_iff in Hle as [Hle _]. by apply Z.leb_le in Hle.
Qed.

Lemma omap_ids (f : ProjectSchedule.project_schedule_row -> option due_row) l :
  (forall a row, f a = Some row -> du_schedule row = a) ->
  du_id <$> omap f l `sublist_of` ProjectSchedule.id <$> l.
Proof.
  intros Hf. induction l as [|a l IH]; [done|]. simpl.
  destruct (f a) as [row|] eqn:Ha; [|by apply sublist_cons]. simpl. unfold du_id at 1.
  rewrite (Hf a row Ha). by apply sublist_skip.
Qed.

Lemma due_distinct now n d :
  keyed project_schedules_table d -> NoDup (du_id <$> due_schedules now n d).
Proof.
  intros Hkey. unfold due_schedules. rewrite fmap_take.
  eapply sublist_NoDup; [|apply sublist_take]. rewrite order_by_perm.
  eapply sublist_NoDup; [|apply omap_ids, due_of_schedule].
  apply NoDup_select_ids. exact Hkey.
Qed.

(** The loop over due rows of distinct schedules. *)
Lemma claim_loop_ok now d0 rows acc s runs s' :
  NoDup (du_id <$> rows) ->
  (forall row, row ∈ rows -> projectSchedules (st_db s) !! du_id row = Some (du_schedule row) /\
     ProjectSchedule.nextRunAt (du_schedule row) <> None) ->
  scheduleRuns d0 ⊆ scheduleRuns (st_db s) -> jobs d0 ⊆ jobs (st_db s) ->
  fold_m (claim_due now) rows acc s = (Ok runs, s') ->
  (forall k, k ∉ (du_id <$> rows) -> projectSchedules (st_db s') !! k = projectSchedules (st_db s) !! k) /\
  scheduleRuns (st_db s) ⊆ scheduleRuns (st_db s') /\ jobs (st_db s) ⊆ jobs (st_db s') /\
  exists new, runs = acc ++ new /\
    (forall row, row ∈ rows -> row_outcome now row new d0 (st_db s')) /\
    (ScheduleRun.scheduleId <$> new) `sublist_of` (du_id <$> rows) /\
    (forall run, run ∈ new -> exists row due next m, row ∈ rows /\
       ProjectSchedule.nextRunAt (du_schedule row) = Some due /\
       calculateScheduleAdvance (ScheduleVersion.cron (du_version row)) due now = Some (next, m) /\
       claimed_from now row run due next m d0 (st_db s')).
Proof.
  revert acc s. induction rows as [|row rows IH]; intros acc s Hnd Hrows Hr0 Hj0 Hrun.
  { injection Hrun as <- <-. split; [done|]. split; [done|]. split; [done|]. exists [].
    rewrite app_nil_r. split; [done|].
    split; [by intros ? ?%not_elem_of_nil|]. split; [done|by intros ? ?%not_elem_of_nil]. }
  apply bind_ok in Hrun as (acc1 & s1 & Hrow & Hrun). rewrite fmap_cons in *.
  apply NoDup_cons in Hnd as [Hni Hnd]. destruct (Hrows row) as [Hk Hnn]; [by left|].
  apply claim_due_ok in Hrow as ((Hp & Hr & Hj) & new & -> & Ho & Hnew); [|done..].
  assert (Hne : forall row', row' ∈ rows -> du_id row' <> du_id row).
  { intros row' Hin Heq. apply Hni. rewrite <- Heq. by apply list_elem_of_fmap_2. }
  apply IH in Hrun as (Hp' & Hr' & Hj' & new' & -> & Hos & Hsub & Hfrom); [|done| | |].
  - split; [intros k [Hk1 Hk2]%not_elem_of_cons; by rewrite Hp', Hp|].
    split; [by etransitivity|]. split; [by etransitivity|]. exists (new ++ new').
    split; [by rewrite app_assoc|].
    assert (Hmono : forall run due next m, claimed_from now row run due next m (st_db s) (st_db s1) ->
      claimed_from now row run due next m d0 (st_db s')).
    { intros. eapply claimed_from_mono; [done|done|done|by apply Hp'|done|done]. }
    split; [|split].
    + intros row' [->|Hin]%elem_of_cons.
      * eapply row_outcome_mono; [exact Ho|intros x Hx; apply elem_of_app; by left|done|done|by apply Hp'|done|done].
      * eapply row_outcome_mono; [by apply Hos|intros x Hx; apply elem_of_app; by right|reflexivity..].
    + rewrite fmap_app. destruct Hnew as [->|(run & due & next & m & -> & _ & _ & Hc)].
      * by apply sublist_cons.
      * rewrite (cf_run _ _ _ _ _ _ _ _ Hc). by apply sublist_skip.
    + intros run [Hin|Hin]%elem_of_app.
      * destruct Hnew as [->|(run' & due & next & m & -> & Hdue & Hadv & Hc)];
          [by apply not_elem_of_nil in Hin|]. apply list_elem_of_singleton in Hin as ->.
        exists row, due, next, m. split; [by left|]. by split; [|split; [|apply Hmono]].
      * destruct (Hfrom run Hin) as (row' & due & next & m & Hin' & Hrest).
        exists row', due, next, m. split; [by right|done].
  - intros row' Hin. destruct (Hrows row') as [Hk' ?]; [by right|]. split; [|done].
    rewrite Hp; [done|by apply Hne].
  - by etransitivity.
  - by etransitivity.
Qed.

(** The claim as a whole. *)
Lemma claim_outcomes now limit n s runs s' :
  cron_advances -> keyed project_schedules_table (st_db s) ->
  positive_limit limit = Some n -> claimDueScheduleRuns now limit s = (Ok runs, s') ->
  (forall row, row ∈ due_schedules now n (st_db s) ->
     row_outcome now row runs (st_db s) (st_db s')) /\
  (ScheduleRun.scheduleId <$> runs) `sublist_of` (du_id <$> due_schedules now n (st_db s)) /\
  (forall run, run ∈ runs -> exists row due next m, row ∈ due_schedules now n (st_db s) /\
     ProjectSchedule.nextRunAt (du_schedule row) = Some due /\
     calculateScheduleAdvance (ScheduleVersion.cron (du_version row)) due now = Some (next, m) /\
     claimed_from now row run due next m (st_db s) (st_db s')).
Proof.
  intros Hadv Hkey Hlim. unfold claimDueScheduleRuns. rewrite Hlim. intros Hrun.
  change (transaction (due <- read (due_schedules now n);; fold_m (claim_due now) due []) s
          = (Ok runs, s')) in Hrun.
  rewrite transaction_ok in Hrun. apply bind_ok in Hrun as (rows & s1 & [= <- <-] & Hrun).
  eapply (claim_loop_ok now (st_db s)) in Hrun as (_ & _ & _ & new & -> & Ho & Hsub & Hfrom);
    [done| | |done|done].
  - by apply due_distinct.
  - intros row Hrow. destruct (elem_of_due now n _ row Hkey Hrow) as (? & _ & _ & due & -> & _).
    done.
Qed.

(** C9. The claim of due ticks: every due row within the limit ends with a run
    for its tick, with its schedule switched off because the cron throws, or
    untouched because a cron run of the version holds the tick already.  The
    runs answered are of distinct schedules, each new, queued for the tick that
    was due together with its [trigger_schedule] job, counting the ticks missed,
    and its schedule is left at the first tick after [now]. *)
Theorem claimDueScheduleRuns_claims now limit n s runs s' :
  cron_advances -> keyed project_schedules_table (st_db s) ->
  positive_limit limit = Some n -> claimDueScheduleRuns now limit s = (Ok runs, s') ->
  (forall row, row ∈ due_schedules now n (st_db s) ->
     row_outcome now row runs (st_db s) (st_db s')) /\
  NoDup (ScheduleRun.scheduleId <$> runs) /\ length runs <= n /\
  forall run, run ∈ runs -> exists row due next missed,
    row ∈ due_schedules now n (st_db s) /\ (due <= now < next)%Z /\
    advance_spec (ScheduleVersion.cron (du_version row)) due now (Some (next, missed)) /\
    ProjectSchedule.nextRunAt (du_schedule row) = Some due /\
    claimed_from now row run due next missed (st_db s) (st_db s').
Proof.
  intros Hadv Hkey Hlim Hrun.
  destruct (claim_outcomes _ _ _ _ _ _ Hadv Hkey Hlim Hrun) as (Ho & Hsub & Hfrom).
  split; [done|]. split; [eapply sublist_NoDup; [|done]; by apply due_distinct|]. split.
  - apply sublist_length in Hsub. rewrite !length_fmap in Hsub. unfold due_schedules in Hsub.
    rewrite length_take in Hsub. lia.
  - intros run Hin. destruct (Hfrom run Hin) as (row & due & next & m & Hrow & Hdue & Hc & Hcf).
    exists row, due, next, m. split; [done|].
    destruct (elem_of_due now n _ row Hkey Hrow) as (_ & _ & _ & due' & Hdue' & Hle).
    pose proof (calculateScheduleAdvance_ok (ScheduleVersion.cron (du_version row)) due now Hadv)
      as Hspec. rewrite Hc in Hspec. split; [|done]. simpl in Hspec. simplify_eq. lia.
Qed.

(** A tick that a cron run of the version holds already stops its schedule:
    a due row whose tick is held keeps its schedule as it is, gets no run, and
    is due again, for the same tick, at every later claim. *)
Lemma claimed_tick_wedges_schedule now limit n s runs s' row dueAt k r :
  cron_advances -> keyed project_schedules_table (st_db s) ->
  positive_limit limit = Some n -> claimDueScheduleRuns now limit s = (Ok runs, s') ->
  row ∈ due_schedules now n (st_db s) ->
  ProjectSchedule.nextRunAt (du_schedule row) = Some dueAt ->
  calculateScheduleAdvance (ScheduleVersion.cron (du_version row)) dueAt now <> None ->
  scheduleRuns (st_db s) !! k = Some r -> holds_tick row dueAt r ->
  projectSchedules (st_db s') !! du_id row = Some (du_schedule row) /\
  (du_id row ∉ (ScheduleRun.scheduleId <$> runs)) /\
  forall later, (now <= later)%Z -> is_due later (du_schedule row) = true.
Proof.
  intros Hadv Hkey Hlim Hrun Hrow Hdue Hc Hk Hr.
  destruct (claim_outcomes _ _ _ _ _ _ Hadv Hkey Hlim Hrun) as (Ho & _ & Hfrom).
  destruct (elem_of_due now n _ row Hkey Hrow) as (Hsch & _ & Hen & due' & Hdue' & Hle).
  rewrite Hdue in Hdue'. injection Hdue' as <-.
  split; [|split].
  - destruct (Ho row Hrow) as (due' & Hdue' & Hout). rewrite Hdue in Hdue'. injection Hdue' as <-.
    destruct (calculateScheduleAdvance _ _ _) as [[next m]|]; [|done].
    destruct Hout as [(run & _ & Hcf)|[Hsame _]]; [|done].
    by destruct (cf_first _ _ _ _ _ _ _ _ Hcf k r Hk).
  - intros (run & Hid & Hin)%list_elem_of_fmap.
    destruct (Hfrom run Hin) as (row' & due' & next & m & Hrow' & Hdue' & _ & Hcf).
    assert (Hidr : du_id row = du_id row') by (by rewrite Hid, (cf_run _ _ _ _ _ _ _ _ Hcf)).
    assert (row = row') as <-.
    { destruct (elem_of_due now n _ row' Hkey Hrow') as (Hsch' & Hof' & _).
      destruct (elem_of_due now n _ row Hkey Hrow) as (_ & Hof & _).
      rewrite Hidr, Hsch' in Hsch. injection Hsch as Hsch. rewrite Hsch in Hof'. congruence. }
    rewrite Hdue in Hdue'. injection Hdue' as <-.
    by destruct (cf_first _ _ _ _ _ _ _ _ Hcf k r Hk).
  - intros later Hlater. unfold is_due, next_run_within. rewrite Hen, Hdue. simpl.
    rewrite andb_true_r. apply Z.leb_le. lia.
Qed.

(** ** The scheduler target *)

(** The next run of a schedule under a source revision. *)
Definition next_run (sourceRevisionId : string) (now : time) (d : database)
    (s : ProjectSchedule.project_schedule_row) : result (option time) :=
  match version_for (ProjectSchedule.id s) sourceRevisionId d with
  | Some v =>
      if ProjectSchedule.enabled s then
        match getNextRunAt (ScheduleVersion.cron v) now with
        | Ok t => Ok (Some t)
        | Err e => Err e
        end
      else Ok None
  | None => Ok None
  end.

Definition retargeted (next : option time) (now : time) (s : ProjectSchedule.project_schedule_row)
    : ProjectSchedule.project_schedule_row :=
  s <| ProjectSchedule.nextRunAt := next |> <| ProjectSchedule.updatedAt := now |>.

Lemma retarget_ok rev now row s u s' :
  retarget rev now row s = (Ok u, s') ->
  projectSchedules (st_db s) !! ProjectSchedule.id row = Some row ->
  exists next, next_run rev now (st_db s) row = Ok next /\
    st_db s' = (st_db s) <| projectSchedules ::=
                 insert (ProjectSchedule.id row) (retargeted next now row) |>.
Proof.
  unfold retarget, next_run. intros Hrun Hk.
  apply bind_ok in Hrun as (v & s1 & [= <- <-] & Hrun).
  apply bind_ok in Hrun as (next & s1 & Hnext & Hrun).
  apply bind_ok in Hrun as (o & s2 & Hup & [= _ <-]).
  assert (s1 = s /\ next_run rev now (st_db s) row = Ok next) as [-> Hn].
  { unfold next_run. destruct (version_for _ _ _) as [v|]; [|by injection Hnext as <- <-].
    destruct (ProjectSchedule.enabled row); [|by injection Hnext as <- <-].
    apply bind_ok in Hnext as (t & s3 & [= Ht <-] & [= <- <-]). by rewrite Ht. }
  exists next. split; [exact Hn|].
  apply update_key_ok in Hup as [(_ & _ & Hno)|(r & Hr & _ & _ & _ & ->)].
  - by specialize (Hno _ Hk).
  - simpl in Hr. rewrite Hk in Hr. by injection Hr as <-.
Qed.

Lemma retarget_loop rev now rows s u s' :
  NoDup (ProjectSchedule.id <$> rows) ->
  (forall row, row ∈ rows -> projectSchedules (st_db s) !! ProjectSchedule.id row = Some row) ->
  for_m rows (retarget rev now) s = (Ok u, s') ->
  exists t, st_db s' = (st_db s) <| projectSchedules := t |> /\
    (forall k, k ∉ (ProjectSchedule.id <$> rows) -> t !! k = projectSchedules (st_db s) !! k) /\
    (forall row, row ∈ rows -> exists next, next_run rev now (st_db s) row = Ok next /\
       t !! ProjectSchedule.id row = Some (retargeted next now row)).
Proof.
  revert s u. induction rows as [|row rows IH]; intros s u Hnd Hrows Hrun.
  { injection Hrun as <- <-. exists (projectSchedules (st_db s)). split; [by destruct (st_db s)|].
    split; [done|by intros ? ?%not_elem_of_nil]. }
  apply bind_ok in Hrun as ([] & s1 & Hrow & Hrun). change (for_m rows (retarget rev now) s1 = (Ok u, s')) in Hrun.
  rewrite fmap_cons in *. apply NoDup_cons in Hnd as [Hni Hnd].
  apply retarget_ok in Hrow as (next & Hn & Hdb); [|apply Hrows; by left].
  apply IH in Hrun as (t & Hdb' & Hout & Hin); [|done|].
  - exists t. rewrite Hdb', Hdb. split; [done|]. rewrite Hdb in Hout. simpl in Hout. split.
    + intros k [Hk1 Hk2]%not_elem_of_cons. rewrite Hout by done.
      by rewrite lookup_insert_ne by by apply not_eq_sym.
    + intros row' [->|Hr]%elem_of_cons.
      * exists next. split; [done|]. rewrite Hout by done. apply lookup_insert_eq.
      * destruct (Hin row' Hr) as (next' & Hn' & Ht). exists next'. split; [|done].
        rewrite Hdb in Hn'. exact Hn'.
  - intros row' Hr. rewrite Hdb. simpl. rewrite lookup_insert_ne; [apply Hrows; by right|].
    intros Heq. apply Hni. rewrite Heq. by apply list_elem_of_fmap_2.
Qed.

Lemma applySchedulerTargetTx_ok pid did rev now s target s' :
  keyed project_schedules_table (st_db s) -> keyed scheduler_targets_table (st_db s) ->
  applySchedulerTargetTx pid did rev now s = (Ok target, s') ->
  projectSchedulerTargets (st_db s') !! pid = Some target /\
  SchedulerTarget.deploymentId target = did /\ SchedulerTarget.projectId target = pid /\
  (forall k, k <> pid ->
     projectSchedulerTargets (st_db s') !! k = projectSchedulerTargets (st_db s) !! k) /\
  forall k sch, projectSchedules (st_db s) !! k = Some sch ->
    if bool_decide (ProjectSchedule.projectId sch = pid)
    then exists next, next_run rev now (st_db s) sch = Ok next /\
           projectSchedules (st_db s') !! k = Some (retargeted next now sch)
    else projectSchedules (st_db s') !! k = Some sch.
Proof.
  intros Hks Hkt Hrun. unfold applySchedulerTargetTx in Hrun.
  apply bind_ok in Hrun as (tg & s1 & Hup & Hrun).
  assert (Ht : projectSchedulerTargets (st_db s1) = <[pid := tg]> (projectSchedulerTargets (st_db s))
    /\ SchedulerTarget.deploymentId tg = did /\ SchedulerTarget.projectId tg = pid
    /\ projectSchedules (st_db s1) = projectSchedules (st_db s)
    /\ scheduleVersions (st_db s1) = scheduleVersions (st_db s)).
  { apply upsert_ok in Hup as [[_ Hins]|(r0 & Hk0 & Htg & -> & ->)]; [| |done].
    - apply insert_row_ok in Hins as (-> & _ & _ & ->). done.
    - simpl in Htg. apply bool_decide_eq_true in Htg. by rewrite Htg. }
  destruct Ht as (Htt & Hd & Hp & Hsch & Hver).
  apply bind_ok in Hrun as (rows & s2 & [= <- <-] & Hrun).
  apply bind_ok in Hrun as (u & s2 & Hloop & [= <- <-]). rewrite Hsch in Hloop.
  apply retarget_loop in Hloop as (t & Hdb & Hout & Hin).
  - rewrite Hdb. simpl. rewrite Htt, lookup_insert_eq. do 3 (split; [done|]). split.
    { intros k Hne. by rewrite lookup_insert_ne by by apply not_eq_sym. }
    intros k sch Hk. assert (Hid : ProjectSchedule.id sch = k) by by apply Hks.
    case_bool_decide as Hpid.
    + destruct (Hin sch) as (next & Hn & Htk).
      { apply elem_of_select. split; [by apply bool_decide_eq_true|eauto]. }
      exists next. rewrite Hid in Htk. split; [|done].
      unfold next_run, version_for in *. by rewrite Hver in Hn.
    + rewrite Hout; [by rewrite Hsch|]. intros (sch' & Heq & Hel)%list_elem_of_fmap.
      apply elem_of_select in Hel as (Hp' & k' & Hk'). apply bool_decide_eq_true in Hp'.
      assert (ProjectSchedule.id sch' = k') by by apply Hks. congruence.
  - apply NoDup_select_ids. exact Hks.
  - intros row (_ & k & Hk)%elem_of_select. rewrite Hsch. by rewrite (Hks _ _ Hk : ProjectSchedule.id row = k).
Qed.

(** Pointing a project's scheduler at one of its deployments recomputes
    every schedule of the project from that deployment's release: an enabled
    schedule the release's source revision declares gets the first tick after
    [now], every other one gets none; other projects' targets and schedules are
    untouched.  A throw, of a cron included, changes nothing. *)
Lemma setProjectSchedulerTarget_retargets pid did now s r s' :
  cron_advances ->
  keyed project_schedules_table (st_db s) -> keyed scheduler_targets_table (st_db s) ->
  setProjectSchedulerTarget pid did (Some now) s = (r, s') ->
  match r with
  | Ok target =>
      exists deployment release,
        deployment_release did (st_db s) = Some (deployment, release) /\
        Deployment.projectId deployment = pid /\
        projectSchedulerTargets (st_db s') !! pid = Some target /\
        SchedulerTarget.deploymentId target = did /\
        (forall k, k <> pid ->
           projectSchedulerTargets (st_db s') !! k = projectSchedulerTargets (st_db s) !! k) /\
        forall k sch, projectSchedules (st_db s) !! k = Some sch ->
          exists sch', projectSchedules (st_db s') !! k = Some sch' /\
            if bool_decide (ProjectSchedule.projectId sch = pid) then
              next_run (Release.sourceRevisionId release) now (st_db s) sch
                = Ok (ProjectSchedule.nextRunAt sch') /\
              (forall t, ProjectSchedule.nextRunAt sch' = Some t -> (now < t)%Z)
            else sch' = sch
  | Err _ => st_db s' = st_db s
  end.
Proof.
  intros Hadv Hks Hkt Hrun. unfold setProjectSchedulerTarget in Hrun.
  rewrite (bind_step (now_or (Some now)) _ s now s eq_refl) in Hrun.
  destruct r as [target|e]; [|by apply transaction_err in Hrun].
  rewrite transaction_ok in Hrun. apply bind_ok in Hrun as (f & s1 & [= <- <-] & Hrun).
  destruct (deployment_release _ _) as [[dep rel]|] eqn:Hdr; [|done].
  case_bool_decide as Hp; [|done]. exists dep, rel. split; [done|]. split; [done|].
  apply applySchedulerTargetTx_ok in Hrun as (Ht & Hd & _ & Ho & Hsch); [|done..].
  do 3 (split; [done|]). intros k sch Hk. specialize (Hsch k sch Hk). case_bool_decide.
  - destruct Hsch as (next & Hn & Hk'). eexists. split; [done|]. split; [done|].
    simpl. intros t ->. unfold next_run in Hn. destruct (version_for _ _ _) as [v|]; [|done].
    destruct (ProjectSchedule.enabled sch); [|done].
    destruct (getNextRunAt _ now) as [t'|] eqn:Hg; [|done]. injection Hn as ->.
    by eapply getNextRunAt_later.
  - by exists sch.
Qed.

(** ** The completion of a run *)

Lemma insert_unless_conflict_ok {K R} `{Countable K} (T : table K R) r s o s' :
  tbl_uniques T = [] -> insert_unless_conflict T r s = (Ok o, s') ->
  (is_Some (tbl T (st_db s) !! tbl_id T r) /\ s' = s) \/
  (tbl T (st_db s) !! tbl_id T r = None /\
   s' = s <| st_db ::= tbl_set T (insert (tbl_id T r) r) |>).
Proof.
  intros Hu. unfold insert_unless_conflict. intros Hrun.
  apply bind_ok in Hrun as (t & s1 & [= <- <-] & Hrun). rewrite Hu in Hrun. simpl in Hrun.
  rewrite orb_false_r in Hrun. case_bool_decide as Hs.
  - injection Hrun as _ <-. by left.
  - right. apply bind_ok in Hrun as (r' & s1 & Hins & [= _ <-]).
    by apply insert_row_ok in Hins as (-> & Hn & _ & ->).
Qed.

(** What linking sessions to a run may change. *)
Definition links_grow (runId : string) (d d' : database) : Prop :=
  (forall k s, sessions d !! k = Some s -> exists s', sessions d' !! k = Some s' /\
     Session.id s' = Session.id s /\ Session.projectId s' = Session.projectId s /\
     Session.eveSessionId s' = Session.eveSessionId s /\
     (Session.scheduleRunId s = Some runId -> Session.scheduleRunId s' = Some runId)) /\
  scheduleRunSessions d ⊆ scheduleRunSessions d'.

#[global] Instance links_grow_preorder runId : PreOrder (links_grow runId).
Proof.
  split.
  - intros d. split; [intros k s Hk; by exists s | done].
  - intros d1 d2 d3 [H12 G12] [H23 G23]. split; [|by etransitivity].
    intros k s Hk. destruct (H12 k s Hk) as (s2 & Hk2 & Hi2 & Hp2 & He2 & Hr2).
    destruct (H23 k s2 Hk2) as (s3 & Hk3 & Hi3 & Hp3 & He3 & Hr3). exists s3.
    split; [done|]. split; [congruence|]. split; [congruence|]. split; [congruence|]. auto.
Qed.

Lemma links_grow_frame runId d d' :
  sessions d' = sessions d -> scheduleRunSessions d' = scheduleRunSessions d ->
  links_grow runId d d'.
Proof.
  intros Hs Hx. unfold links_grow. rewrite Hs, Hx. split; [intros k s Hk; by exists s|done].
Qed.

Lemma moves_link_grow run pid o err eve :
  moves (links_grow (ScheduleRun.id run)) (link_session run pid o err eve).
Proof.
  assert (Hexec : forall x, moves (links_grow (ScheduleRun.id run))
    (insert_unless_conflict schedule_run_sessions_table x)).
  { intros x. unfold insert_unless_conflict. walk. apply moves_insert_row; [apply _|].
    intros d Hn. split; simpl; [intros k s Hk; by exists s|]. by apply insert_subseteq. }
  unfold link_session. walk; try apply Hexec.
  - apply moves_update_key; [apply _|]. intros d ss Hk _. split; simpl; [|done].
    intros k s0 Hk0. destruct (decide (Session.id s = k)) as [<-|Hne].
    + rewrite lookup_insert_eq. simpl in Hk. rewrite Hk in Hk0. injection Hk0 as <-. by eexists.
    + rewrite lookup_insert_ne by done. by exists s0.
  - apply moves_insert_row; [apply _|]. intros d Hn. split; simpl; [|done].
    intros k s0 Hk0. exists s0. simpl in Hn. rewrite lookup_insert_ne; [done|congruence].
Qed.

(** The Eve session [eve] of the project is linked to the run: a Session that
    carries it points at the run, and the run has an execution for it. *)
Definition session_linked (runId pid eve : string) (d : database) : Prop :=
  exists k sess x, sessions d !! k = Some sess /\ Session.projectId sess = pid /\
    Session.eveSessionId sess = Some eve /\ Session.scheduleRunId sess = Some runId /\
    scheduleRunSessions d !! (runId, Session.id sess) = Some x.

Lemma session_linked_grow runId pid eve d d' :
  links_grow runId d d' -> session_linked runId pid eve d -> session_linked runId pid eve d'.
Proof.
  intros [Hs Hx] (k & sess & x & Hk & Hp & He & Hr & Hxx).
  destruct (Hs k sess Hk) as (s' & Hk' & Hi & Hp' & He' & Hr').
  exists k, s', x. rewrite Hi. repeat split; try congruence; [auto|].
  by eapply lookup_weaken.
Qed.

Lemma link_session_ok run pid o err eve s u s' :
  keyed sessions_table (st_db s) -> link_session run pid o err eve s = (Ok u, s') ->
  session_linked (ScheduleRun.id run) pid eve (st_db s').
Proof.
  intros Hkey Hrun. unfold link_session in Hrun. cbv zeta in Hrun.
  apply bind_ok in Hrun as (ex & s1 & [= <- <-] & Hrun).
  apply bind_ok in Hrun as ([sid [xst xerr]] & s1 & Hlink & Hrun).
  assert (Hsess : exists sess, sessions (st_db s1) !! sid = Some sess /\ Session.id sess = sid /\
    Session.projectId sess = pid /\ Session.eveSessionId sess = Some eve /\
    Session.scheduleRunId sess = Some (ScheduleRun.id run)).
  { destruct (session_by_eve pid eve (st_db s)) as [e|] eqn:He.
    - unfold session_by_eve in He. apply find_where_Some in He as
        ([Hp%bool_decide_eq_true Hev%bool_decide_eq_true]%andb_true_iff & k & Hk).
      assert (Session.id e = k) as <- by by apply Hkey.
      apply bind_ok in Hlink as (o' & s2 & Hup & Hlink).
      apply update_key_ok in Hup as [(_ & _ & Hno)|(e' & He' & _ & _ & _ & ->)];
        [by specialize (Hno _ Hk)|]. simpl in He'. rewrite Hk in He'. injection He' as <-.
      assert (Hs1 : sid = Session.id e /\ st_db s1 = st_db (s <| st_db ::= tbl_set sessions_table
        (insert (Session.id e) (e <| Session.deploymentId := Some (ScheduleRun.deploymentId run) |>
           <| Session.trigger := trigger_of_run (ScheduleRun.trigger run) |>
           <| Session.scheduleId := Some (ScheduleRun.scheduleId run) |>
           <| Session.scheduleRunId := Some (ScheduleRun.id run) |>)) |>)).
      { destruct (truthy _); [destruct (bool_decide (o = RunOutcome.succeeded));
          [apply bind_ok in Hlink as (ob & s3 & [= <- <-] & Hlink)|]|]; by inversion Hlink. }
      destruct Hs1 as [-> ->]. simpl. rewrite lookup_insert_eq. by eexists.
    - apply bind_ok in Hlink as (id & s2 & [= <- <-] & Hlink).
      apply bind_ok in Hlink as (now & s2 & [= <- <-] & Hlink).
      apply bind_ok in Hlink as (c & s2 & Hins & Hlink).
      apply insert_row_ok in Hins as (-> & _ & _ & ->). injection Hlink as <- _ <-.
      simpl. rewrite lookup_insert_eq. by eexists. }
  destruct Hsess as (sess & Hk & Hid & Hp & He & Hr).
  apply bind_ok in Hrun as (now & s2 & [= <- <-] & Hrun).
  apply bind_ok in Hrun as (ox & s2 & Hins & [= _ <-]).
  apply insert_unless_conflict_ok in Hins as [([x Hx] & ->)|(Hn & ->)]; [| |done].
  - exists sid, sess, x. simpl in Hx. by rewrite Hid.
  - exists sid, sess. eexists. simpl. rewrite Hid, lookup_insert_eq. done.
Qed.

Lemma moves_link_keyed run pid o err eve :
  moves (preserves (keyed sessions_table)) (link_session run pid o err eve).
Proof.
  unfold link_session, insert_unless_conflict. walk.
  - apply moves_update_key; [apply _|]. intros d ss Hk _ Hkey.
    apply keyed_insert; [apply _|done|]. exact (Hkey _ _ Hk).
  - apply moves_insert_row; [apply _|]. intros d Hn Hkey. by apply keyed_insert; [apply _|..].
  - apply moves_insert_row; [apply _|]. by intros d Hn Hkey.
Qed.

Lemma link_loop run pid o err eves s u s' :
  keyed sessions_table (st_db s) ->
  for_m eves (link_session run pid o err) s = (Ok u, s') ->
  links_grow (ScheduleRun.id run) (st_db s) (st_db s') /\
  forall eve, eve ∈ eves -> session_linked (ScheduleRun.id run) pid eve (st_db s').
Proof.
  revert s u. induction eves as [|eve eves IH]; intros s u Hkey Hrun.
  { injection Hrun as <- <-. split; [reflexivity|by intros ? ?%not_elem_of_nil]. }
  apply bind_ok in Hrun as ([] & s1 & Hlink & Hrun).
  change (for_m eves (link_session run pid o err) s1 = (Ok u, s')) in Hrun.
  pose proof (moves_link_grow run pid o err eve s) as Hgrow. unfold exec in Hgrow.
  pose proof (moves_link_keyed run pid o err eve s Hkey) as Hkey1. unfold exec in Hkey1.
  rewrite Hlink in Hgrow, Hkey1. simpl in Hgrow, Hkey1.
  apply link_session_ok in Hlink; [|done].
  apply IH in Hrun as [Hgrow' Hall]; [|done].
  split; [by etransitivity|]. intros eve' [->|Hin]%elem_of_cons; [|by apply Hall].
  by eapply session_linked_grow.
Qed.

Lemma retry_loop_attempted {A} (body : Tx A) arbiters attempt n s a s' :
  retry_loop (transaction body) alone arbiters attempt n s = (Ok a, s') ->
  exists s0, st_db s0 = st_db s /\ body s0 = (Ok a, s').
Proof.
  revert attempt s. induction n as [|n IH]; intros attempt s Hrun.
  - exists s. split; [done|]. by apply transaction_ok.
  - simpl in Hrun. unfold try_catch in Hrun.
    destruct (transaction body s) as [[a1|e] s1] eqn:Hbody.
    + injection Hrun as <- <-. exists s. split; [done|]. by apply transaction_ok.
    + destruct (existsb _ _); [|done]. apply IH in Hrun as (s0 & Hs0 & Hb). exists s0.
      split; [|done]. rewrite Hs0. by apply transaction_err in Hbody.
Qed.

Definition executions_of (runId : string) (d : database)
    : list ScheduleRunSession.schedule_run_session_row :=
  select_where (fun x => bool_decide (ScheduleRunSession.scheduleRunId x = runId))
    (scheduleRunSessions d).

(** The status a completion leaves the run in. *)
Definition settled (o : RunOutcome.run_outcome)
    (xs : list ScheduleRunSession.schedule_run_session_row) : schedule_run_status :=
  match o with
  | RunOutcome.succeeded =>
      if existsb (execution_has ExecutionStatus.running) xs then RunStatus.running
      else if existsb (execution_has ExecutionStatus.failed) xs then RunStatus.failed
      else RunStatus.succeeded
  | RunOutcome.failed => RunStatus.failed
  | RunOutcome.dispatch_unknown => RunStatus.dispatch_unknown
  end.

Lemma finish_run_status input err xs now r :
  let running := bool_decide (cr_status input = RunOutcome.succeeded)
                 && existsb (execution_has ExecutionStatus.running) xs in
  ScheduleRun.status (finish_run input err xs running now r) = settled (cr_status input) xs.
Proof.
  simpl. assert (Hf : bool_decide (is_Some (head (base.filter (fun x =>
      execution_has ExecutionStatus.failed x = true) xs)))
    = existsb (execution_has ExecutionStatus.failed) xs).
  { induction xs as [|x xs IH]; [done|]. rewrite filter_cons. simpl.
    by destruct (execution_has ExecutionStatus.failed x). }
  unfold finish_run. cbv zeta. rewrite Hf. unfold settled.
  destruct (cr_status input); simpl; [|done|done].
  by destruct (existsb _ _).
Qed.

Lemma release_run_leases_ok ids now s u s' :
  release_run_leases ids now s = (Ok u, s') ->
  (forall k l, activationLeases (st_db s') !! k = Some l ->
     ActivationLease.kind l = LeaseKind.schedule_run -> ActivationLease.ownerId l ∈ ids ->
     ActivationLease.releasedAt l <> None) /\
  st_db s' = (st_db s) <| activationLeases := activationLeases (st_db s') |>.
Proof.
  unfold release_run_leases. intros Hrun.
  apply bind_ok in Hrun as (l & s1 & (_ & ->)%update_where_ok & [= _ <-]). split; [|done].
  intros k r Hk Hkind Hown. simpl in Hk. rewrite update_rows_lookup in Hk.
  apply fmap_Some in Hk as (r0 & _ & ->). destruct (_ && _) eqn:Hp; [done|].
  intros Hnone. rewrite !bool_decide_eq_true_2 in Hp by done. done.
Qed.

Lemma js_set_nil {A} `{EqDecision A} (l : list A) : js_set l = [] <-> l = [].
Proof. by destruct l. Qed.

(** The end of a completion: the run's row and its leases. *)
Lemma complete_tail_ok runId input err xs now s row s' :
  (let remainsRunning := bool_decide (cr_status input = RunOutcome.succeeded)
                         && existsb (execution_has ExecutionStatus.running) xs in
   completed <- update_key schedule_runs_table runId (fun _ => true)
     (finish_run input err xs remainsRunning now) ;;
   (if remainsRunning then ret tt else release_run_leases [runId] now) ;;
   ret completed) s = (Ok (Some row), s') ->
  sessions (st_db s') = sessions (st_db s) /\
  scheduleRunSessions (st_db s') = scheduleRunSessions (st_db s) /\
  scheduleRuns (st_db s') !! runId = Some row /\
  ScheduleRun.status row = settled (cr_status input) xs /\
  (exists r, scheduleRuns (st_db s) !! runId = Some r /\
     ScheduleRun.scheduleId row = ScheduleRun.scheduleId r) /\
  if bool_decide (ScheduleRun.status row = RunStatus.running)
  then ScheduleRun.completedAt row = None
  else is_Some (ScheduleRun.completedAt row) /\
       forall k l, activationLeases (st_db s') !! k = Some l ->
         ActivationLease.kind l = LeaseKind.schedule_run -> ActivationLease.ownerId l = runId ->
         ActivationLease.releasedAt l <> None.
Proof.
  cbv zeta. set (running := bool_decide _ && _). intros Hrun.
  apply bind_ok in Hrun as (o & s1 & Hup & Hrun). apply bind_ok in Hrun as ([] & s2 & Hrel & Hrun).
  injection Hrun as -> <-.
  apply update_key_ok in Hup as [[? _]|(r & Hr & _ & [= ->] & _ & ->)]; [done|].
  assert (Hst : ScheduleRun.status (finish_run input err xs running now r)
                = settled (cr_status input) xs) by apply finish_run_status.
  assert (Hrunning : settled (cr_status input) xs = RunStatus.running <-> running = true).
  { unfold settled, running. destruct (cr_status input); simpl; [|done|done].
    destruct (existsb _ xs); [done|]. by destruct (existsb _ xs). }
  rewrite Hst.
  assert (Hdb : st_db s2 = (st_db s) <| scheduleRuns ::=
      insert runId (finish_run input err xs running now r) |>
      <| activationLeases := activationLeases (st_db s2) |>).
  { destruct running; [by injection Hrel as <-|]. by apply release_run_leases_ok in Hrel as [_ ->]. }
  rewrite Hdb. simpl. rewrite lookup_insert_eq. do 4 (split; [done|]).
  split; [exists r; by split; [exact Hr|]|].
  case_bool_decide as Hb; rewrite Hrunning in Hb.
  - unfold finish_run. simpl. by rewrite Hb.
  - apply not_true_is_false in Hb. split; [unfold finish_run; simpl; by rewrite Hb|].
    rewrite Hb in Hrel. apply release_run_leases_ok in Hrel as [Hl _].
    intros k l Hk Hkind Hown. eapply Hl; [done..|]. rewrite Hown. by left.
Qed.

(** The completion of a run: the reported outcome and the executions of the
    dispatched sessions decide its status, a running execution keeping it
    running and a failed one failing it; every dispatched Eve session ends
    linked to the run with an execution of its own; and unless the run stays
    running it is completed, with no lease held for it. *)
Lemma completeScheduleRun_settles runId input s row s' :
  keyed schedule_runs_table (st_db s) -> keyed sessions_table (st_db s) ->
  completeScheduleRun runId input s = (Ok (Some row), s') ->
  let dispatched := default [] (cr_eveSessionIds input) in
  let xs := if bool_decide (dispatched = []) then [] else executions_of runId (st_db s') in
  scheduleRuns (st_db s') !! runId = Some row /\
  ScheduleRun.status row = settled (cr_status input) xs /\
  (exists schedule,
     projectSchedules (st_db s) !! ScheduleRun.scheduleId row = Some schedule /\
     forall eve, eve ∈ dispatched ->
       session_linked runId (ProjectSchedule.projectId schedule) eve (st_db s')) /\
  if bool_decide (ScheduleRun.status row = RunStatus.running)
  then ScheduleRun.completedAt row = None
  else is_Some (ScheduleRun.completedAt row) /\
       forall k l, activationLeases (st_db s') !! k = Some l ->
         ActivationLease.kind l = LeaseKind.schedule_run -> ActivationLease.ownerId l = runId ->
         ActivationLease.releasedAt l <> None.
Proof.
  intros Hkr Hks Hrun. cbv zeta.
  apply retry_loop_attempted in Hrun as (s0 & Hs0 & Hrun). rewrite <- Hs0 in *. clear s Hs0.
  apply bind_ok in Hrun as (run & s1 & [= <- <-] & Hrun).
  destruct (scheduleRuns (st_db s0) !! runId) as [run|] eqn:Hk; [|done].
  assert (Hid : ScheduleRun.id run = runId) by by apply Hkr.
  apply bind_ok in Hrun as (f & s1 & [= <- <-] & Hrun).
  apply bind_ok in Hrun as (schedule & s1 & [Hsch ->]%some_or_ok & Hrun). cbv zeta in Hrun.
  apply bind_ok in Hrun as ([] & s1 & Hloop & Hrun).
  pose proof (moves_for_m runs_move (js_set (default [] (cr_eveSessionIds input))) _
    (moves_link_runs run (ProjectSchedule.projectId schedule) (cr_status input)
       (sanitizeStoredErrorText <$> cr_error input)) s0) as Hruns.
  unfold exec in Hruns. rewrite Hloop in Hruns. simpl in Hruns.
  apply link_loop in Hloop as [_ Hlinked]; [|done]. rewrite Hid in *.
  apply bind_ok in Hrun as (now & s2 & [= <- <-] & Hrun).
  apply bind_ok in Hrun as (xs & s2 & Hxs & Hrun).
  apply complete_tail_ok in Hrun as (Hsess & Hexec & Hrow & Hst & (r & Hr & Hsid) & Hrest).
  assert (s2 = s1 /\ xs = if bool_decide (default [] (cr_eveSessionIds input) = []) then []
                           else executions_of runId (st_db s')) as [-> <-].
  { destruct (bool_decide_reflect (default [] (cr_eveSessionIds input) = [])) as [Hd|Hd].
    - rewrite Hd in Hxs. by injection Hxs as <- <-.
    - rewrite bool_decide_eq_false_2 in Hxs by by rewrite js_set_nil.
      injection Hxs as <- <-. split; [done|]. unfold executions_of. by rewrite Hexec. }
  split; [done|]. split; [done|]. split; [|done].
  destruct Hruns as [Hruns _]. destruct (Hruns runId run Hk) as (r' & Hr' & [Hident _ _]).
  exists schedule. split.
  - rewrite Hsid. rewrite Hr in Hr'. injection Hr' as <-. by injection Hident as _ -> _ _ _ _ _ _ _.
  - intros eve Heve. destruct (Hlinked eve) as (k & sess & x & Hin); [by apply elem_of_js_set|].
    exists k, sess, x. by rewrite Hsess, Hexec.
Qed.

(** ** Versions are recorded once *)

Lemma find_where_unique {K R} `{Countable K} (p : R -> bool) (t : gmap K R) k r :
  t !! k = Some r -> p r = true -> (forall k' r', t !! k' = Some r' -> p r' = true -> k' = k) ->
  find_where p t = Some r.
Proof.
  intros Hk Hp Huniq. destruct (find_where p t) as [r'|] eqn:Hf.
  - apply find_where_Some in Hf as (Hp' & k' & Hk'). rewrite (Huniq k' r' Hk' Hp') in Hk'. congruence.
  - rewrite find_where_None in Hf. by rewrite (Hf k r Hk) in Hp.
Qed.

(** The schedule and the version of a definition are in the tables. *)
Record recorded_in (pid rev : string) (d : database) (definition : schedule_definition)
    (sv : recorded) : Prop := {
  ri_schedule : exists k, projectSchedules d !! k = Some sv.1;
  ri_project : ProjectSchedule.projectId sv.1 = pid;
  ri_key : ProjectSchedule.key sv.1 = sd_key definition;
  ri_version : exists k, scheduleVersions d !! k = Some sv.2;
  ri_scheduleId : ScheduleVersion.scheduleId sv.2 = ProjectSchedule.id sv.1;
  ri_revision : ScheduleVersion.sourceRevisionId sv.2 = rev;
  ri_same : same_definition definition sv.2 = true
}.

Definition schedules_unique (d : database) : Prop :=
  unique_ok project_schedules_project_key_idx (projectSchedules d) /\
  unique_ok schedule_versions_schedule_revision_idx (scheduleVersions d).

Definition schedules_grow (d d' : database) : Prop :=
  projectSchedules d ⊆ projectSchedules d' /\ scheduleVersions d ⊆ scheduleVersions d' /\
  (schedules_unique d -> schedules_unique d').

#[global] Instance schedules_grow_preorder : PreOrder schedules_grow.
Proof.
  split; [by intros d|]. intros d1 d2 d3 (?&?&?) (?&?&?).
  split; [by etransitivity|]. split; [by etransitivity|auto].
Qed.

Lemma recorded_in_grow pid rev d d' definition sv :
  schedules_grow d d' -> recorded_in pid rev d definition sv ->
  recorded_in pid rev d' definition sv.
Proof.
  intros (Hs & Hv & _) [[k Hk] ? ? [k' Hk'] ? ? ?]. constructor; try done.
  - exists k. by eapply lookup_weaken.
  - exists k'. by eapply lookup_weaken.
Qed.

Lemma schedule_by_key_unique pid key d k r :
  schedules_unique d -> projectSchedules d !! k = Some r ->
  ProjectSchedule.projectId r = pid -> ProjectSchedule.key r = key ->
  schedule_by_key pid key d = Some r.
Proof.
  intros [Hu _] Hk Hp Hkey. unfold schedule_by_key. eapply find_where_unique; [exact Hk| |].
  - by rewrite Hp, Hkey, !bool_decide_eq_true_2.
  - intros k' r' Hk' [Hp'%bool_decide_eq_true Hkey'%bool_decide_eq_true]%andb_true_iff.
    destruct (decide (k' = k)) as [|Hne]; [done|]. specialize (Hu k' k r' r Hk' Hk Hne).
    unfold project_schedules_project_key_idx in Hu. simpl in Hu.
    eapply same_key_false in Hu; [|reflexivity]. destruct Hu. by rewrite Hp', Hkey', Hp, Hkey.
Qed.

Lemma version_for_unique sid rev d k r :
  schedules_unique d -> scheduleVersions d !! k = Some r ->
  ScheduleVersion.scheduleId r = sid -> ScheduleVersion.sourceRevisionId r = rev ->
  version_for sid rev d = Some r.
Proof.
  intros [_ Hu] Hk Hp Hkey. unfold version_for. eapply find_where_unique; [exact Hk| |].
  - by rewrite Hp, Hkey, !bool_decide_eq_true_2.
  - intros k' r' Hk' [Hp'%bool_decide_eq_true Hkey'%bool_decide_eq_true]%andb_true_iff.
    destruct (decide (k' = k)) as [|Hne]; [done|]. specialize (Hu k' k r' r Hk' Hk Hne).
    unfold schedule_versions_schedule_revision_idx in Hu. simpl in Hu.
    eapply same_key_false in Hu; [|reflexivity]. destruct Hu. by rewrite Hp', Hkey', Hp, Hkey.
Qed.

Lemma ensure_schedule_ok pid key s row s' :
  ensure_schedule pid key s = (Ok row, s') ->
  schedules_grow (st_db s) (st_db s') /\ ProjectSchedule.projectId row = pid /\
  ProjectSchedule.key row = key /\ exists k, projectSchedules (st_db s') !! k = Some row.
Proof.
  unfold ensure_schedule. intros Hrun.
  apply bind_ok in Hrun as (id & s1 & [= <- <-] & Hrun).
  apply bind_ok in Hrun as (now & s1 & [= <- <-] & Hrun).
  apply bind_ok in Hrun as (ins & s1 & Hins & Hrun).
  apply bind_ok in Hrun as (ex & s2 & [= <- <-] & [Hor ->]%some_or_ok).
  apply insert_or_ignore_ok in Hins as [(-> & -> & _)|(-> & Hc & Hins)]; simpl in Hor.
  - unfold schedule_by_key in Hor. apply find_where_Some in Hor as
      ([Hp%bool_decide_eq_true Hk%bool_decide_eq_true]%andb_true_iff & Hin). done.
  - injection Hor as <-. apply insert_row_ok in Hins as (_ & Hn & _ & ->). simpl.
    split; [|split; [done|split; [done|eexists; apply lookup_insert_eq]]].
    split; [by apply insert_subseteq|]. split; [done|]. intros [Hu Hv]. split; [|done].
    apply unique_insert; [apply index_on_symmetric|exact Hc|done].
Qed.

Lemma ensure_version_ok sid rev definition s row s' :
  ensure_version sid rev definition s = (Ok row, s') ->
  schedules_grow (st_db s) (st_db s') /\ ScheduleVersion.scheduleId row = sid /\
  ScheduleVersion.sourceRevisionId row = rev /\
  exists k, scheduleVersions (st_db s') !! k = Some row.
Proof.
  unfold ensure_version. intros Hrun.
  apply bind_ok in Hrun as (id & s1 & [= <- <-] & Hrun).
  apply bind_ok in Hrun as (now & s1 & [= <- <-] & Hrun).
  apply bind_ok in Hrun as (ins & s1 & Hins & Hrun).
  apply bind_ok in Hrun as (ex & s2 & [= <- <-] & [Hor ->]%some_or_ok).
  apply insert_or_ignore_ok in Hins as [(-> & -> & _)|(-> & Hc & Hins)]; simpl in Hor.
  - unfold version_for in Hor. apply find_where_Some in Hor as
      ([Hp%bool_decide_eq_true Hk%bool_decide_eq_true]%andb_true_iff & Hin). done.
  - injection Hor as <-. apply insert_row_ok in Hins as (_ & Hn & _ & ->). simpl.
    split; [|split; [done|split; [done|eexists; apply lookup_insert_eq]]].
    split; [done|]. split; [by apply insert_subseteq|]. intros [Hu Hv]. split; [done|].
    apply unique_insert; [apply index_on_symmetric|exact Hc|done].
Qed.

(** The keys still to come are new, and distinct. *)
Fixpoint fresh_keys (seen : list string) (defs : list schedule_definition) : Prop :=
  match defs with
  | [] => True
  | definition :: defs =>
      (sd_key definition ∉ seen) /\ fresh_keys (sd_key definition :: seen) defs
  end.

Lemma record_loop_ok pid rev defs seen rs s acc s' :
  fold_m (record_definition pid rev) defs (seen, rs) s = (Ok acc, s') ->
  schedules_grow (st_db s) (st_db s') /\ fresh_keys seen defs /\
  exists new, acc.2 = rs ++ new /\ Forall2 (recorded_in pid rev (st_db s')) defs new.
Proof.
  revert seen rs s. induction defs as [|definition defs IH]; intros seen rs s Hrun.
  { injection Hrun as <- <-. split; [reflexivity|]. split; [done|]. exists [].
    by rewrite app_nil_r. }
  apply bind_ok in Hrun as (acc1 & s1 & Hone & Hrun). unfold record_definition in Hone.
  apply bind_ok in Hone as (u & s2 & [Hseen ->]%throw_if_ok & Hone).
  apply bind_ok in Hone as (sch & s2 & (Hg1 & Hp & Hk & Hsch)%ensure_schedule_ok & Hone).
  apply bind_ok in Hone as (v & s3 & (Hg2 & Hsid & Hrev & Hv)%ensure_version_ok & Hone).
  apply bind_ok in Hone as (u' & s4 & [Hsame ->]%throw_if_ok & [= <- <-]).
  apply IH in Hrun as (Hg3 & Hfresh & new & -> & Hall).
  split; [by do 2 (etransitivity; [eassumption|])|]. split.
  { split; [by apply bool_decide_eq_false in Hseen|done]. }
  exists ((sch, v) :: new). split; [by rewrite <- app_assoc|]. constructor; [|done].
  eapply recorded_in_grow; [exact Hg3|].
  constructor; simpl; try done; [|by apply negb_false_iff].
  destruct Hsch as [k Hsk]. exists k. destruct Hg2 as [Hg2 _]. by eapply lookup_weaken.
Qed.

Lemma ids_fresh_later {R} prefix (T : table string R) s s' :
  ids_fresh prefix T s -> st_db s' = st_db s -> st_draws s <= st_draws s' ->
  ids_fresh prefix T s'.
Proof. intros Hf Hdb Hle n Hn. rewrite Hdb. apply Hf. lia. Qed.

(** An insert that meets an existing entry of its index is ignored. *)
Lemma insert_or_ignore_taken {K R} `{Countable K} (T : table K R) target r r0 k s :
  tbl T (st_db s) !! tbl_id T r = None -> tbl T (st_db s) !! k = Some r0 ->
  ui_clash target r r0 = true -> insert_or_ignore T target r s = (Ok None, s).
Proof.
  intros Hn Hk Hc. unfold insert_or_ignore, bind, read, gets.
  replace (clashes _ _ _ _) with true; [done|]. symmetry. apply clashes_true.
  exists k, r0. split; [done|]. split; [|done]. intros ->. congruence.
Qed.

Lemma record_again pid rev defs seen rs new s :
  ids_fresh "sch" project_schedules_table s -> ids_fresh "schv" schedule_versions_table s ->
  schedules_unique (st_db s) -> fresh_keys seen defs ->
  Forall2 (recorded_in pid rev (st_db s)) defs new ->
  exists acc s', fold_m (record_definition pid rev) defs (seen, rs) s = (Ok acc, s') /\
    acc.2 = rs ++ new /\ st_db s' = st_db s.
Proof.
  intros Hfs Hfv Hu Hkeys Hall. revert seen rs s Hfs Hfv Hu Hkeys Hall. revert new.
  induction defs as [|definition defs IH]; intros new seen rs s Hfs Hfv Hu Hkeys Hall.
  { apply Forall2_nil_inv_l in Hall as ->. eexists _, s. split; [reflexivity|].
    by rewrite app_nil_r. }
  apply Forall2_cons_inv_l in Hall as ([sch v] & new' & [[k Hk] Hp Hkey [kv Hkv] Hsid Hrev Hsame] & Hall & ->).
  simpl in *. destruct Hkeys as [Hni Hkeys].
  set (s1 := s <| st_draws ::= S |>). set (s2 := s1 <| st_draws ::= S |>).
  destruct (IH new' (sd_key definition :: seen) (rs ++ [(sch, v)]) s2) as (acc & s' & Hrun & Hacc & Hdb).
  { by eapply ids_fresh_later; [exact Hfs| |simpl; lia]. }
  { by eapply ids_fresh_later; [exact Hfv| |simpl; lia]. }
  { done. } { done. } { done. }
  exists acc, s'. split; [|split; [by rewrite Hacc, <- app_assoc|by rewrite Hdb]].
  rewrite <- Hrun. apply bind_step. unfold record_definition.
  rewrite bool_decide_eq_false_2 by done.
  erewrite bind_step; [|reflexivity].
  assert (Hes : ensure_schedule pid (sd_key definition) s = (Ok sch, s1)).
  { unfold ensure_schedule. erewrite bind_step; [|reflexivity]. erewrite bind_step; [|reflexivity].
    erewrite bind_step.
    2: { eapply (insert_or_ignore_taken _ _ _ sch k s1); [by apply Hfs|exact Hk|].
         apply same_key_clash. eexists. split; [reflexivity|]. simpl. by rewrite Hp, Hkey. }
    erewrite bind_step; [|reflexivity].
    by rewrite (schedule_by_key_unique _ _ (st_db s1) k sch Hu Hk Hp Hkey). }
  rewrite (bind_step _ _ _ _ _ Hes).
  assert (Hev : ensure_version (ProjectSchedule.id sch) rev definition s1 = (Ok v, s2)).
  { unfold ensure_version. erewrite bind_step; [|reflexivity]. erewrite bind_step; [|reflexivity].
    erewrite bind_step.
    2: { eapply (insert_or_ignore_taken _ _ _ v kv s2); [|exact Hkv|].
         - apply (ids_fresh_later _ _ s s1 Hfv); [done|simpl; lia|simpl; lia].
         - apply same_key_clash. eexists. split; [reflexivity|]. simpl. by rewrite Hsid, Hrev. }
    erewrite bind_step; [|reflexivity].
    by rewrite (version_for_unique _ _ (st_db s2) kv v Hu Hkv Hsid Hrev). }
  rewrite (bind_step _ _ _ _ _ Hev). rewrite Hsame. reflexivity.
Qed.

Lemma for_m_lift_ok {A} (f : A -> result unit) xs (s : store) u s' :
  for_m xs (fun x => lift (f x)) s = (Ok u, s') ->
  s' = s /\ forall s2 : store, for_m xs (fun x => lift (f x)) s2 = (Ok tt, s2).
Proof.
  revert s u. induction xs as [|x xs IH]; intros s u Hrun; [by injection Hrun as <- <-|].
  apply bind_ok in Hrun as ([] & s1 & [= Hx <-] & Hrun). apply IH in Hrun as [-> Hall].
  split; [done|]. intros s2. etransitivity; [|apply (Hall s2)].
  unfold for_m. cbn [fold_m]. unfold bind at 1, lift at 1. by rewrite Hx.
Qed.

(** Recording the versions of a source revision is idempotent: the same
    definitions recorded again answer the same schedules and versions, those of
    each definition, and change no table. *)
Lemma recordScheduleVersions_idempotent pid rev defs s rs s1 :
  schedules_unique (st_db s) -> recordScheduleVersions pid rev defs s = (Ok rs, s1) ->
  ids_fresh "sch" project_schedules_table s1 -> ids_fresh "schv" schedule_versions_table s1 ->
  Forall2 (recorded_in pid rev (st_db s1)) defs rs /\
  exists s2, recordScheduleVersions pid rev defs s1 = (Ok rs, s2) /\ st_db s2 = st_db s1.
Proof.
  intros Hu Hrun Hfs Hfv. unfold recordScheduleVersions in Hrun.
  apply bind_ok in Hrun as (u & s0 & Hval & Hrun). apply for_m_lift_ok in Hval as [-> Hval].
  rewrite transaction_ok in Hrun. apply bind_ok in Hrun as (revision & s2 & [= <- <-] & Hrun).
  apply bind_ok in Hrun as (u' & s2 & [Hrevn ->]%throw_if_ok & Hrun).
  apply bind_ok in Hrun as (acc & s2 & Hloop & [= <- <-]).
  assert (Hsrc : sourceRevisions (st_db s2) = sourceRevisions (st_db s)).
  { assert (Hm : moves (fun d d' => sourceRevisions d' = sourceRevisions d)
      (fold_m (record_definition pid rev) defs ([], []))).
    { assert (Hpre : PreOrder (fun d d' => sourceRevisions d' = sourceRevisions d))
        by (split; [done|intros d1 d2 d3; congruence]).
      unfold record_definition, ensure_schedule, ensure_version, insert_or_ignore.
      walk; apply moves_insert_row; by try apply _. }
    specialize (Hm s). unfold exec in Hm. by rewrite Hloop in Hm. }
  apply record_loop_ok in Hloop as ((_ & _ & Hu') & Hkeys & new & Hnew & Hall).
  simpl in Hnew. rewrite Hnew. split; [done|].
  destruct (record_again pid rev defs [] [] new s2 Hfs Hfv (Hu' Hu) Hkeys Hall)
    as (acc' & s3 & Hrun & Hacc & Hdb).
  exists s3. split; [|done]. unfold recordScheduleVersions. rewrite (bind_step _ _ _ _ _ (Hval s2)).
  apply transaction_ok. erewrite bind_step; [|reflexivity]. rewrite Hsrc, Hrevn.
  erewrite bind_step; [|reflexivity]. rewrite (bind_step _ _ _ _ _ Hrun).
  unfold ret. by rewrite Hacc.
Qed.
End RunFacts.

(** ** Witnesses *)
Section ScheduleWitnesses.
#[local] Existing Instance sample_platform.

(** A project whose release declares one schedule: recorded, targeted at 1000,
    claimed at 1150 for the tick 1100, activated, dispatched, and completed with
    an Eve session that is still running. *)
Definition day_database : database :=
  sample_database
    <| releases := {[ "rel_1" := Release.mk "rel_1" "p" "srev_1" "img" None None "none" None None
                        None None "none" false 0 ]} |>
    <| sourceRevisions := {[ "srev_1" := SourceRevision.mk "srev_1" "p" "git" None None None None
                               None "/src" JNull (JArr []) 0 ]} |>.
Definition daily : schedule_definition :=
  mk_schedule_definition "daily" "markdown" "0 9 * * *" "agent/schedules/daily.md"
    "0123456789abcdef0123456789abcdef0123456789abcdef0123456789abcdef".
Definition day0 : store := sample_store day_database.
Definition day1 : store := exec (recordScheduleVersions "p" "srev_1" [daily]) day0.
Definition day2 : store := exec (setProjectSchedulerTarget "p" "dep_1" (Some 1000%Z)) day1.
Definition day3 : store := exec (claimDueScheduleRuns 1150 (Some 10%Z)) day2.
Definition day4 : store := exec (claimScheduleRunActivation "srun_2" (Some 1160%Z) None) day3.
Definition day5 : store := exec (redeemScheduleRunDispatch "srun_2" "dep_1") day4.
Definition day_report : complete_run_input :=
  mk_complete_run_input RunOutcome.succeeded None (Some ["e1"]).
Definition day6 : store := exec (completeScheduleRun "srun_2" day_report) day5.

Lemma day_steps : rtc schedule_step day0 day6.
Proof.
  apply (rtc_l _ _ day1); [apply step_recordScheduleVersions|].
  apply (rtc_l _ _ day2); [apply step_setProjectSchedulerTarget|].
  apply (rtc_l _ _ day3); [apply step_claimDueScheduleRuns|].
  apply (rtc_l _ _ day4); [apply step_claimScheduleRunActivation|].
  apply (rtc_l _ _ day5); [apply step_redeemScheduleRunDispatch|].
  apply (rtc_l _ _ day6); [apply step_completeScheduleRun | apply rtc_refl].
Qed.

Lemma runs_dispatch_at_most_once_witness :
  exists r, scheduleRuns (st_db day6) !! "srun_2" = Some r /\
    ScheduleRun.status r = RunStatus.running /\ (0 <= ScheduleRun.attempt r <= 1)%Z.
Proof.
  destruct (scheduleRuns (st_db day6) !! "srun_2") as [r|] eqn:Hr; [|by vm_compute in Hr].
  exists r. split; [reflexivity|]. split; [vm_compute in Hr; by injection Hr as <-|].
  destruct (runs_dispatch_at_most_once day0 day6 day_steps) as [_ Hnew].
  apply (Hnew "srun_2" r Hr). reflexivity.
Defined.

Lemma keyed_schedules d :
  bool_decide (map_Forall (fun k r => ProjectSchedule.id r = k) (projectSchedules d)) = true ->
  keyed project_schedules_table d.
Proof. intros Hb k r Hk. by apply (bool_decide_eq_true_1 _ Hb). Qed.

Lemma claimDueScheduleRuns_claims_witness :
  exists runs, claimDueScheduleRuns 1150 (Some 10%Z) day2 = (Ok runs, day3) /\
    (ScheduleRun.dueAt <$> runs) = [1100%Z] /\
    forall run, run ∈ runs -> exists row due next missed,
      row ∈ due_schedules 1150 10 (st_db day2) /\ (due <= 1150 < next)%Z /\
      claimed_from 1150 row run due next missed (st_db day2) (st_db day3).
Proof.
  destruct (claimDueScheduleRuns 1150 (Some 10%Z) day2) as [[runs|e] s1] eqn:Hrun;
    [|by vm_compute in Hrun].
  assert (Hs1 : s1 = day3) by (unfold day3, exec; by rewrite Hrun). subst s1.
  exists runs. split; [reflexivity|].
  split; [vm_compute in Hrun; injection Hrun as <-; reflexivity|].
  assert (Hkey : keyed project_schedules_table (st_db day2))
    by (apply keyed_schedules; by vm_compute).
  destruct (claimDueScheduleRuns_claims 1150 (Some 10%Z) 10 day2 runs day3 sample_advances Hkey
    eq_refl Hrun) as (_ & _ & _ & Hfrom).
  intros run Hin. destruct (Hfrom run Hin) as (row & due & next & m & Hrow & Hle & _ & _ & Hc).
  exists row, due, next, m. exact (conj Hrow (conj Hle Hc)).
Defined.

(** The scheduler target set again with a clock behind the claim: the tick 1100
    is due a second time, and held by the run of the first claim. *)
Definition wedged : store := exec (setProjectSchedulerTarget "p" "dep_1" (Some 1050%Z)) day3.
Definition wedged_after : store := exec (claimDueScheduleRuns 1170 (Some 10%Z)) wedged.

Lemma claimed_tick_wedges_schedule_witness :
  exists row runs, claimDueScheduleRuns 1170 (Some 10%Z) wedged = (Ok runs, wedged_after) /\
    row ∈ due_schedules 1170 10 (st_db wedged) /\
    projectSchedules (st_db wedged_after) !! "sch_0" = Some (du_schedule row) /\
    forall later, (1170 <= later)%Z -> is_due later (du_schedule row) = true.
Proof.
  destruct (due_schedules 1170 10 (st_db wedged)) as [|row rows] eqn:Hrows;
    [by vm_compute in Hrows|].
  destruct (claimDueScheduleRuns 1170 (Some 10%Z) wedged) as [[runs|e] s1] eqn:Hrun;
    [|by vm_compute in Hrun].
  assert (Hs1 : s1 = wedged_after) by (unfold wedged_after, exec; by rewrite Hrun). subst s1.
  destruct (scheduleRuns (st_db wedged) !! "srun_2") as [r|] eqn:Hr; [|by vm_compute in Hr].
  assert (Hkey : keyed project_schedules_table (st_db wedged))
    by (apply keyed_schedules; by vm_compute).
  assert (Hin : row ∈ due_schedules 1170 10 (st_db wedged)) by (rewrite Hrows; left).
  assert (Hfacts : du_id row = "sch_0" /\
    ProjectSchedule.nextRunAt (du_schedule row) = Some 1100%Z /\
    calculateScheduleAdvance (ScheduleVersion.cron (du_version row)) 1100 1170 <> None /\
    holds_tick row 1100 r).
  { vm_compute in Hrows, Hr. injection Hrows as <- _. injection Hr as <-.
    split; [reflexivity|]. split; [reflexivity|]. split; [by vm_compute|].
    exact (conj eq_refl (conj eq_refl eq_refl)). }
  destruct Hfacts as (Hid & Hdue & Hadv & Hholds).
  destruct (claimed_tick_wedges_schedule 1170 (Some 10%Z) 10 wedged runs wedged_after row 1100
    "srun_2" r sample_advances Hkey eq_refl Hrun Hin Hdue Hadv Hr Hholds) as (Hsame & _ & Hlater).
  exists row, runs. rewrite Hid in Hsame.
  exact (conj eq_refl (conj (list_elem_of_here _ _) (conj Hsame Hlater))).
Defined.

Lemma setProjectSchedulerTarget_retargets_witness :
  exists target, setProjectSchedulerTarget "p" "dep_1" (Some 1000%Z) day1 = (Ok target, day2) /\
    projectSchedulerTargets (st_db day2) !! "p" = Some target /\
    SchedulerTarget.deploymentId target = "dep_1".
Proof.
  destruct (setProjectSchedulerTarget "p" "dep_1" (Some 1000%Z) day1) as [[target|e] s1] eqn:Hrun;
    [|by vm_compute in Hrun].
  assert (Hs1 : s1 = day2) by (unfold day2, exec; by rewrite Hrun). subst s1.
  assert (Hkey : keyed project_schedules_table (st_db day1))
    by (apply keyed_schedules; by vm_compute).
  assert (Hkt : keyed scheduler_targets_table (st_db day1)) by (intros k r Hk; by vm_compute in Hk).
  destruct (setProjectSchedulerTarget_retargets "p" "dep_1" 1000 day1 (Ok target) day2
    sample_advances Hkey Hkt Hrun) as (dep & rel & _ & _ & Ht & Hd & _).
  exists target. exact (conj eq_refl (conj Ht Hd)).
Defined.

Lemma completeScheduleRun_settles_witness :
  exists row, completeScheduleRun "srun_2" day_report day5 = (Ok (Some row), day6) /\
    ScheduleRun.status row = RunStatus.running /\
    scheduleRuns (st_db day6) !! "srun_2" = Some row /\
    exists schedule,
      projectSchedules (st_db day5) !! ScheduleRun.scheduleId row = Some schedule /\
      forall eve, eve ∈ ["e1"] ->
        session_linked "srun_2" (ProjectSchedule.projectId schedule) eve (st_db day6).
Proof.
  destruct (completeScheduleRun "srun_2" day_report day5) as [[[row|]|e] s1] eqn:Hrun;
    [|by vm_compute in Hrun..].
  assert (Hs1 : s1 = day6) by (unfold day6, exec; by rewrite Hrun). subst s1.
  assert (Hkr : keyed schedule_runs_table (st_db day5)).
  { apply (bool_decide_unpack (map_Forall (fun k r => ScheduleRun.id r = k)
      (scheduleRuns (st_db day5)))). by vm_compute. }
  assert (Hks : keyed sessions_table (st_db day5)) by (intros k r Hk; by vm_compute in Hk).
  destruct (completeScheduleRun_settles "srun_2" day_report day5 row day6 Hkr Hks Hrun)
    as (Hrow & _ & Hlinked & _).
  exists row. split; [reflexivity|].
  split; [vm_compute in Hrow; by injection Hrow as <-|]. exact (conj Hrow Hlinked).
Defined.

Lemma sch_id_0 n : "sch" +:+ "_" +:+ pretty.pretty n = "sch_0" -> n = 0.
Proof. intros Heq. injection Heq as Heq. by apply (inj pretty.pretty n 0). Qed.

Lemma schv_id_1 n : "schv" +:+ "_" +:+ pretty.pretty n = "schv_1" -> n = 1.
Proof. intros Heq. injection Heq as Heq. by apply (inj pretty.pretty n 1). Qed.

Lemma recordScheduleVersions_idempotent_witness :
  exists rs s2, recordScheduleVersions "p" "srev_1" [daily] day0 = (Ok rs, day1) /\
    recordScheduleVersions "p" "srev_1" [daily] day1 = (Ok rs, s2) /\ st_db s2 = st_db day1.
Proof.
  destruct (recordScheduleVersions "p" "srev_1" [daily] day0) as [[rs|e] s1] eqn:Hrun;
    [|by vm_compute in Hrun].
  assert (Hs1 : s1 = day1) by (unfold day1, exec; by rewrite Hrun). subst s1.
  assert (Hu : schedules_unique (st_db day0))
    by (split; intros k1 k2 r1 r2 Hk1; by vm_compute in Hk1).
  assert (Hdraws : st_draws day1 = 2) by (by vm_compute).
  assert (Hfs : ids_fresh "sch" project_schedules_table day1).
  { intros n Hn. destruct (tbl project_schedules_table (st_db day1) !! _) as [r|] eqn:Hr; [|done].
    assert (Hall : map_Forall (fun k _ => k = "sch_0") (tbl project_schedules_table (st_db day1))).
    { apply (bool_decide_unpack (map_Forall (fun k _ => k = "sch_0") _)). by vm_compute. }
    apply Hall, sch_id_0 in Hr. lia. }
  assert (Hfv : ids_fresh "schv" schedule_versions_table day1).
  { intros n Hn. destruct (tbl schedule_versions_table (st_db day1) !! _) as [r|] eqn:Hr; [|done].
    assert (Hall : map_Forall (fun k _ => k = "schv_1") (tbl schedule_versions_table (st_db day1))).
    { apply (bool_decide_unpack (map_Forall (fun k _ => k = "schv_1") _)). by vm_compute. }
    apply Hall, schv_id_1 in Hr. lia. }
  destruct (recordScheduleVersions_idempotent "p" "srev_1" [daily] day0 rs day1 Hu Hrun Hfs Hfv)
    as (_ & s2 & Hrun2 & Hdb).
  exists rs, s2. exact (conj eq_refl (conj Hrun2 Hdb)).
Defined.
End ScheduleWitnesses.
