(* ===== verification/Deployments.v ===== *)
(** * Deployments and routes

    [packages/db/src/postgres-deployment-routing-store.ts], the deployment keys
    of [packages/core/src/ids.ts] and [normalizeBaseDomain] of
    [packages/db/src/postgres-store-support.ts]: the recording of a release
    with its deployment, the status changes, the host names and weighted targets
    of a project's routes, promotion, retention, and the bindings of sessions
    and operations to deployments.

    The [users] columns a source's provenance is reported with belong to the
    authentication library, so the two reads that join them
    ([listReleaseSources], [getProjectHotfixDrift]) are left out, as is
    [getDeploymentEveVersion], which only formats a version. *)

From S2P Require Import Prelude Strings Schema Store Tables Sample Jobs Runtime Routing EveEvents Sessions Cron Schedules.
From stdpp Require Import pretty.

Open Scope eve_scope.
Open Scope string_scope.

(** Why a deployment is kept. *)
Module RetentionReason.
Inductive retention_reason :=
  | route_target | active_session | active_operation | active_request | recent_artifact
  | active_workflow_run.
End RetentionReason.

Section DeploymentStore.
Context `{Platform}.

(** ** Deployment keys *)

Definition createDeploymentKey : Tx string :=
  fun s => (Ok (nanoid_key (st_draws s)), s <| st_draws ::= S |>).

(** The loop: [remaining] attempts of [maxAttempts] are left. *)
Fixpoint claim_key_loop {A} (claim : string -> Tx (option A)) (maxAttempts remaining : nat)
    : Tx A :=
  match remaining with
  | O => throw (Error ("Failed to claim a unique deployment key after " +:+ pretty maxAttempts
                       +:+ " attempts."))
  | S remaining =>
      key <- createDeploymentKey ;;
      claimed <- claim key ;;
      match claimed with
      | Some a => ret a
      | None => claim_key_loop claim maxAttempts remaining
      end
  end.

Definition claimDeploymentKey {A} (claim : string -> Tx (option A)) (maxAttempts : option nat)
    : Tx A :=
  claim_key_loop claim (default 8 maxAttempts) (default 8 maxAttempts).

(** ** Releases and deployments *)

Record workflow_attestation : Type := mk_workflow_attestation {
  wa_worldKind : string; wa_worldPackage : option string; wa_worldVersion : option string;
  wa_storageSpec : option Z; wa_dispatchProtocol : option Z; wa_enqueueCapability : string
}.

Record deployment_input : Type := mk_deployment_input {
  di_releaseId : option string; di_deploymentId : option string; di_projectId : string;
  di_sourceRevisionId : string; di_imageTag : string; di_observerContract : option Z;
  di_summary : option json; di_containerName : string; di_internalPort : Z; di_hostPort : Z;
  di_runtimeKind : string; di_workflowWorld : option workflow_attestation;
  di_modelGatewayProvider : option bool
}.

(** [input.id ?? createId(prefix)] *)
Definition id_or_create (given : option string) (prefix : string) : Tx string :=
  match given with Some id => ret id | None => createId prefix end.

(** No attestation means "unknown". *)
Definition release_of (input : deployment_input) (id : string) (now : time)
    : Release.release_row :=
  let attestation := di_workflowWorld input in
  Release.mk id (di_projectId input) (di_sourceRevisionId input) (di_imageTag input)
    (di_observerContract input) (di_summary input)
    (default "unknown" (wa_worldKind <$> attestation))
    (attestation ≫= wa_worldPackage) (attestation ≫= wa_worldVersion) (attestation ≫= wa_storageSpec)
    (attestation ≫= wa_dispatchProtocol)
    (default "unknown" (wa_enqueueCapability <$> attestation))
    (default false (di_modelGatewayProvider input)) now.

(** One attempt at a key, in a savepoint. *)
Definition claim_deployment (input : deployment_input) (releaseId deploymentKey : string)
    : Tx (option Deployment.deployment_row) :=
  try_catch
    (transaction (
       id <- id_or_create (di_deploymentId input) "dep" ;;
       now <- clock ;;
       claimed <- insert_row deployments_table
         (Deployment.mk id deploymentKey (di_projectId input) releaseId (di_containerName input)
            (di_internalPort input) (di_hostPort input) DeploymentStatus.running
            (di_runtimeKind input) now now) ;;
       ret (Some claimed)))
    (fun e => if isUniqueConstraint e "deployments_project_key_idx" then ret None else throw e).

Definition deployed (releaseId deploymentId : string) (now : time) (p : Project.project_row)
    : Project.project_row :=
  p <| Project.status := ProjectStatus.deployed |>
    <| Project.deploymentStatus := DeploymentStatus.running |>
    <| Project.releaseId := Some releaseId |>
    <| Project.deploymentId := Some deploymentId |>
    <| Project.updatedAt := now |>.

Definition recordDeployment (input : deployment_input) : Tx Deployment.deployment_row :=
  transaction (
    id <- id_or_create (di_releaseId input) "rel" ;;
    now <- clock ;;
    releaseRow <- insert_row releases_table (release_of input id now) ;;
    deploymentRow <- claimDeploymentKey (claim_deployment input (Release.id releaseRow)) None ;;
    _p <- update_key projects_table (di_projectId input)
      (fun p => bool_decide (Project.deploymentId p = None))
      (deployed (Release.id releaseRow) (Deployment.id deploymentRow) now) ;;
    ret deploymentRow).

Definition getDeployment (deploymentId : string) : Tx (option Deployment.deployment_row) :=
  read (fun d => deployments d !! deploymentId).

Definition getCurrentDeployment (projectId : string) : Tx (option Deployment.deployment_row) :=
  read (fun d => project ← projects d !! projectId;
                 id ← truthy (Project.deploymentId project);
                 deployments d !! id).

(** [desc(createdAt), desc(id)] *)
Definition newest_deployment (a b : Deployment.deployment_row) : bool :=
  then_by (desc_by Deployment.createdAt)
    (fun a b => collation_leb (Deployment.id b) (Deployment.id a)) a b.

Definition project_deployments (projectId : string) (includeArchived : bool) (d : database)
    : list Deployment.deployment_row :=
  order_by newest_deployment
    (select_where (fun r => bool_decide (Deployment.projectId r = projectId)
        && (includeArchived
            || negb (bool_decide (Deployment.status r = DeploymentStatus.archived))))
      (deployments d)).

Definition listDeployments (projectId : string) (includeArchived : option bool)
    (limit : option nat) : Tx (list Deployment.deployment_row) :=
  read (fun d =>
    let found := project_deployments projectId (default true includeArchived) d in
    match limit with Some n => take n found | None => found end).

Definition listReservedDeploymentHostPorts : Tx (list Z) :=
  read (fun d => js_set (
    js_set (Deployment.hostPort <$>
      select_where (fun r => negb (bool_decide (Deployment.status r = DeploymentStatus.archived)))
        (deployments d)) ++
    js_set (omap RuntimeInstance.endpointPort
      (select_where (fun r => runtime_live (RuntimeInstance.status r)) (runtimeInstances d))))%list).

Definition getDeploymentByContainerName (containerName : string)
    : Tx (option Deployment.deployment_row) :=
  read (fun d => head (order_by newest_deployment
    (select_where (fun r => bool_decide (Deployment.containerName r = containerName))
      (deployments d)))).

Definition set_status (st : deployment_status) (now : time) (r : Deployment.deployment_row)
    : Deployment.deployment_row :=
  r <| Deployment.status := st |> <| Deployment.updatedAt := now |>.

Definition updateDeploymentStatus (deploymentId : string) (st : deployment_status)
    : Tx (option Deployment.deployment_row) :=
  now <- clock ;;
  update_key deployments_table deploymentId (fun _ => true) (set_status st now).

Definition transitionDeploymentStatus (deploymentId : string) (to : deployment_status)
    (from : list deployment_status) : Tx (option Deployment.deployment_row) :=
  if bool_decide (from = []) then ret None
  else
    now <- clock ;;
    update_key deployments_table deploymentId
      (fun r => bool_decide (Deployment.status r ∈ from)) (set_status to now).

Definition getRelease (releaseId : string) : Tx (option Release.release_row) :=
  read (fun d => releases d !! releaseId).

(** A summary that is not a plain object is reported as null. *)
Definition listReleaseSummaries (projectId : string)
    : Tx (list (string * option (list (string * json)))) :=
  read (fun d => (fun r => (Release.id r,
                            match Release.summary r with
                            | Some (JObj fs) => Some fs
                            | _ => None
                            end)) <$>
    select_where (fun r => bool_decide (Release.projectId r = projectId)) (releases d)).

(** ** Host names *)

Definition domain_char (c : Ascii.ascii) : bool :=
  let n := Ascii.nat_of_ascii c in
  (((97 <=? n) && (n <=? 122)) || ((48 <=? n) && (n <=? 57)) || (n =? 46) || (n =? 45))%nat.

Definition normalizeBaseDomain (value : string) : result string :=
  let normalized := strip_dots (to_lower (js_trim value)) in
  if bool_decide (normalized = "")
     || negb (forallb domain_char (String.list_ascii_of_string normalized))
  then Err (Error ("Invalid Agent base domain: " +:+ value))
  else Ok normalized.

Definition project_hostname (slug domain : string) : string := slug +:+ "." +:+ domain.

(** [`${prefix}--${slug}.${domain}`]: previews and aliases. *)
Definition labelled_hostname (prefix slug domain : string) : string :=
  prefix +:+ "--" +:+ slug +:+ "." +:+ domain.

(** [/^[a-z0-9](?:[a-z0-9-]{0,61}[a-z0-9])?$/] *)
Definition label_end (c : Ascii.ascii) : bool := domain_char c && negb (ascii_is 46 c || ascii_is 45 c).

Definition valid_alias (alias : string) : bool :=
  let l := String.list_ascii_of_string alias in
  bool_decide (1 <= length l <= 63)
  && forallb (fun c => domain_char c && negb (ascii_is 46 c)) l
  && match head l, last l with
     | Some a, Some b => label_end a && label_end b
     | _, _ => false
     end.

(** ** Routes *)

Record resolved_target : Type := mk_resolved_target {
  rs_target : RouteTarget.route_target_row; rs_hostPort : Z; rs_status : deployment_status
}.

Record resolved_route : Type := mk_resolved_route {
  rr_route : AgentRoute.agent_route_row; rr_targets : list resolved_target
}.

Definition targets_of (routeId : string) (d : database) : list RouteTarget.route_target_row :=
  select_where (fun t => bool_decide (RouteTarget.routeId t = routeId)) (routeTargets d).

Definition resolve_route (d : database) (route : AgentRoute.agent_route_row) : resolved_route :=
  mk_resolved_route route
    ((fun td => mk_resolved_target td.1 (Deployment.hostPort td.2) (Deployment.status td.2)) <$>
       inner_join (fun t dep => bool_decide (Deployment.id dep = RouteTarget.deploymentId t))
         (targets_of (AgentRoute.id route) d) (rows (deployments d))).

Definition route_by_hostname (hostname : string) (d : database)
    : option AgentRoute.agent_route_row :=
  find_where (fun r => bool_decide (AgentRoute.hostname r = hostname)) (agentRoutes d).

Definition findRouteByHostname (hostname : string) : Tx (option resolved_route) :=
  read (fun d => resolve_route d <$> route_by_hostname (to_lower hostname) d).

(** The stable route of a project. *)
Definition project_route (projectId : string) (d : database)
    : option AgentRoute.agent_route_row :=
  find_where (fun r => bool_decide (AgentRoute.projectId r = projectId)
                       && bool_decide (AgentRoute.kind r = RouteKind.project)) (agentRoutes d).

Definition findProjectRoute (projectId : string) : Tx (option resolved_route) :=
  read (fun d => resolve_route d <$> project_route projectId d).

Definition project_routes (projectId : string) (d : database) : list resolved_route :=
  resolve_route d <$>
    select_where (fun r => bool_decide (AgentRoute.projectId r = projectId)) (agentRoutes d).

Definition listProjectRoutes (projectId : string) : Tx (list resolved_route) :=
  read (project_routes projectId).

(** A route at a host name: the row of [existing], renamed and enabled, or a new
    one of the kind. *)
Definition place_route (existing : option AgentRoute.agent_route_row) (projectId hostname : string)
    (kind : route_kind) : Tx (option AgentRoute.agent_route_row) :=
  match existing with
  | Some r =>
      now <- clock ;;
      update_key agent_routes_table (AgentRoute.id r) (fun _ => true)
        (fun r => r <| AgentRoute.hostname := hostname |> <| AgentRoute.enabled := true |>
                    <| AgentRoute.updatedAt := now |>)
  | None =>
      id <- createId "route" ;;
      now <- clock ;;
      row <- insert_row agent_routes_table
        (AgentRoute.mk id projectId hostname kind true 1 now now) ;;
      ret (Some row)
  end.

(** The preview route whose target is the deployment. *)
Definition preview_route (projectId deploymentId : string) (d : database)
    : option AgentRoute.agent_route_row :=
  fst <$> head (base.filter (fun rt =>
      bool_decide (AgentRoute.projectId rt.1 = projectId)
      && bool_decide (AgentRoute.kind rt.1 = RouteKind.deployment)
      && bool_decide (RouteTarget.deploymentId rt.2 = deploymentId) = true)
    (inner_join (fun r t => bool_decide (RouteTarget.routeId t = AgentRoute.id r))
       (rows (agentRoutes d)) (rows (routeTargets d)))).

Definition deployment_in (projectId deploymentId : string) (d : database)
    : option Deployment.deployment_row :=
  match deployments d !! deploymentId with
  | Some dep => if bool_decide (Deployment.projectId dep = projectId) then Some dep else None
  | None => None
  end.

(** The whole weight of a route on one deployment. *)
Definition sole_target (routeId deploymentId : string) : RouteTarget.route_target_row :=
  RouteTarget.mk routeId deploymentId 10000%Z None.

Definition whole_weight (t : RouteTarget.route_target_row) : RouteTarget.route_target_row :=
  t <| RouteTarget.weight := 10000%Z |> <| RouteTarget.variantName := None |>.

Definition ensureDeploymentRoutes (projectId deploymentId baseDomain : string)
    : Tx (list AgentRoute.agent_route_row) :=
  domain <- lift (normalizeBaseDomain baseDomain) ;;
  transaction (
    found <- read (fun d => projects d !! projectId) ;;
    foundDeployment <- read (deployment_in projectId deploymentId) ;;
    project <- some_or found
      (Error "Cannot create Agent routes for an unknown project or deployment.") ;;
    deployment <- some_or foundDeployment
      (Error "Cannot create Agent routes for an unknown project or deployment.") ;;
    existing <- read (project_route projectId) ;;
    placed <- place_route existing projectId (project_hostname (Project.slug project) domain)
      RouteKind.project ;;
    stable <- some_or placed (Error "Failed to materialize the stable Agent route.") ;;
    existing <- read (preview_route projectId deploymentId) ;;
    placed <- place_route existing projectId
      (labelled_hostname (Deployment.deploymentKey deployment) (Project.slug project) domain)
      RouteKind.deployment ;;
    preview <- some_or placed (Error "Failed to materialize the deployment preview route.") ;;
    existing <- read (fun d => head (targets_of (AgentRoute.id stable) d)) ;;
    (match existing with
     | Some _ => ret tt
     | None =>
         _t <- insert_row route_targets_table (sole_target (AgentRoute.id stable) deploymentId) ;;
         ret tt
     end) ;;
    _t <- upsert route_targets_table
      (fun a b => bool_decide (RouteTarget.routeId a = RouteTarget.routeId b)
                  && bool_decide (RouteTarget.deploymentId a = RouteTarget.deploymentId b))
      (sole_target (AgentRoute.id preview) deploymentId) whole_weight ;;
    ret [stable; preview]).

(** Each project in its own transaction; a throw stops the loop. *)
Definition reconcileAgentRoutes (baseDomain : string) : Tx unit :=
  found <- read (fun d => rows (projects d)) ;;
  for_m found (fun p =>
    match truthy (Project.deploymentId p) with
    | Some deploymentId =>
        _r <- ensureDeploymentRoutes (Project.id p) deploymentId baseDomain ;; ret tt
    | None => ret tt
    end).

(** [tx.delete(routeTargets)...; tx.insert(routeTargets).values(...)] *)
Definition replace_targets (routeId : string) (targets : list route_target_input) : Tx unit :=
  delete_where route_targets_table (fun t => bool_decide (RouteTarget.routeId t = routeId)) ;;
  for_m targets (fun t =>
    _t <- insert_row route_targets_table
      (RouteTarget.mk routeId (rt_deploymentId t) (default 0%Z (rt_weight t))
         (rt_variantName t)) ;;
    ret tt).

Definition bump_policy (now : time) (r : AgentRoute.agent_route_row)
    : AgentRoute.agent_route_row :=
  r <| AgentRoute.policyRevision ::= Z.succ |> <| AgentRoute.updatedAt := now |>.

(** [target.weight > 0] *)
Definition weighted (t : route_target_input) : bool := (0 <? default 0 (rt_weight t))%Z.

Definition check_target (projectId : string) (t : route_target_input) : Tx unit :=
  deployment <- read (fun d => deployments d !! rt_deploymentId t) ;;
  match deployment with
  | Some dep =>
      throw_if (negb (bool_decide (Deployment.projectId dep = projectId)))
        (Error "Route target deployment does not belong to the project.") ;;
      throw_if (weighted t && negb (bool_decide (Deployment.status dep = DeploymentStatus.running)))
        (Error "A weighted route target must be running.")
  | None => throw (Error "Route target deployment does not belong to the project.")
  end.

Definition updateRouteTargets (routeId : string) (targets : list route_target_input)
    : Tx (option resolved_route) :=
  _v <- lift (validateRouteTargets targets) ;;
  transaction (
    found <- read (fun d => agentRoutes d !! routeId) ;;
    route <- some_or found (Error "Agent route not found.") ;;
    throw_if (bool_decide (AgentRoute.kind route = RouteKind.deployment))
      (Error "Deployment preview routes are immutable.") ;;
    for_m targets (check_target (AgentRoute.projectId route)) ;;
    replace_targets routeId targets ;;
    now <- clock ;;
    _r <- update_key agent_routes_table routeId (fun _ => true) (bump_policy now) ;;
    ret tt) ;;
  found <- read (fun d => agentRoutes d !! routeId) ;;
  route <- some_or found (Error "Agent route not found after update.") ;;
  findRouteByHostname (AgentRoute.hostname route).

Definition status_text (st : deployment_status) : string :=
  match st with
  | DeploymentStatus.not_deployed => "not_deployed"
  | DeploymentStatus.building => "building"
  | DeploymentStatus.starting => "starting"
  | DeploymentStatus.running => "running"
  | DeploymentStatus.draining => "draining"
  | DeploymentStatus.stopped => "stopped"
  | DeploymentStatus.archiving => "archiving"
  | DeploymentStatus.archived => "archived"
  | DeploymentStatus.failed => "failed"
  end.

Definition promote (projectId deploymentId : string) : Tx string :=
  route <- read (project_route projectId) ;;
  deployment <- read (deployment_in projectId deploymentId) ;;
  route <- some_or route ProjectRouteNotFoundError ;;
  deployment <- some_or deployment DeploymentNotFoundError ;;
  throw_if (negb (bool_decide (Deployment.status deployment = DeploymentStatus.running)))
    (DeploymentNotPromotableError
       ("A promoted deployment must be running, but this one is "
        +:+ status_text (Deployment.status deployment) +:+ ".")) ;;
  replace_targets (AgentRoute.id route)
    [mk_route_target_input deploymentId (Some 10000%Z) None] ;;
  now <- clock ;;
  _r <- update_key agent_routes_table (AgentRoute.id route) (fun _ => true) (bump_policy now) ;;
  _p <- update_key projects_table projectId (fun _ => true)
    (fun p => p <| Project.deploymentId := Some deploymentId |>
                <| Project.releaseId := Some (Deployment.releaseId deployment) |>
                <| Project.deploymentStatus := Deployment.status deployment |>
                <| Project.updatedAt := now |>) ;;
  found <- read (fun d => releases d !! Deployment.releaseId deployment) ;;
  release <- some_or found (Error "Promoted Deployment has no Release.") ;;
  _t <- applySchedulerTargetTx projectId deploymentId (Release.sourceRevisionId release) now ;;
  ret (AgentRoute.hostname route).

Definition promoteDeployment (projectId deploymentId : string) : Tx (option resolved_route) :=
  hostname <- transaction (promote projectId deploymentId) ;;
  findRouteByHostname hostname.

Definition check_alias_target (projectId : string) (t : route_target_input) : Tx unit :=
  deployment <- read (fun d => deployments d !! rt_deploymentId t) ;;
  throw_if (match deployment with
            | Some dep =>
                negb (bool_decide (Deployment.projectId dep = projectId))
                || (weighted t
                    && negb (bool_decide (Deployment.status dep = DeploymentStatus.running)))
            | None => true
            end)
    (Error "Alias target must be a running deployment in this project.").

(** The transaction of an alias: the host name it is served at. *)
Definition alias_body (projectId alias baseDomain : string) (targets : list route_target_input)
    : Tx string :=
  found <- read (fun d => projects d !! projectId) ;;
  project <- some_or found (Error "Project not found.") ;;
  for_m targets (check_alias_target projectId) ;;
  domain <- lift (normalizeBaseDomain baseDomain) ;;
  let hostname := labelled_hostname alias (Project.slug project) domain in
  existing <- read (route_by_hostname hostname) ;;
  placed <-
    match existing with
    | Some existing =>
        now <- clock ;;
        update_key agent_routes_table (AgentRoute.id existing) (fun _ => true)
          (fun r => (bump_policy now r) <| AgentRoute.enabled := true |>)
    | None =>
        id <- createId "route" ;;
        now <- clock ;;
        row <- insert_row agent_routes_table
          (AgentRoute.mk id projectId hostname RouteKind.alias true 1 now now) ;;
        ret (Some row)
    end ;;
  route <- some_or placed (Error "Failed to materialize alias route.") ;;
  replace_targets (AgentRoute.id route) targets ;;
  ret hostname.

Definition ensureAliasRoute (projectId alias baseDomain : string)
    (targets : list route_target_input) : Tx (option resolved_route) :=
  _v <- lift (validateRouteTargets targets) ;;
  throw_if (negb (valid_alias alias)) (Error "Alias must be a DNS-safe label.") ;;
  hostname <- transaction (alias_body projectId alias baseDomain targets) ;;
  findRouteByHostname hostname.

(** ** Bindings *)

Definition binding_of (projectId eveSessionId : string) (b : SessionBinding.session_binding_row)
    : bool :=
  bool_decide (SessionBinding.projectId b = projectId)
  && bool_decide (SessionBinding.eveSessionId b = eveSessionId).

Definition operation_of (projectId operationKey : string)
    (b : OperationBinding.operation_binding_row) : bool :=
  bool_decide (OperationBinding.projectId b = projectId)
  && bool_decide (OperationBinding.operationKey b = operationKey).

Definition findSessionBinding (projectId eveSessionId : string)
    : Tx (option SessionBinding.session_binding_row) :=
  read (fun d => find_where (binding_of projectId eveSessionId) (sessionBindings d)).

Definition findOperationBinding (projectId operationKey : string)
    : Tx (option OperationBinding.operation_binding_row) :=
  read (fun d => find_where (operation_of projectId operationKey) (operationBindings d)).

Record operation_input : Type := mk_operation_input {
  oi_projectId : string; oi_operationKey : string; oi_routeId : string; oi_deploymentId : string;
  oi_trigger : binding_trigger; oi_variantName : option string; oi_experimentId : option string
}.

Definition bindOperation (input : operation_input) : Tx OperationBinding.operation_binding_row :=
  transaction (
    id <- createId "opbind" ;;
    now <- clock ;;
    inserted <- insert_or_ignore operation_bindings_table operation_bindings_project_key_idx
      (OperationBinding.mk id (oi_projectId input) (oi_operationKey input) (oi_routeId input)
         (oi_deploymentId input) (oi_trigger input) (oi_variantName input)
         (oi_experimentId input) now now) ;;
    existing <- read (fun d =>
      find_where (operation_of (oi_projectId input) (oi_operationKey input))
        (operationBindings d)) ;;
    some_or (or_else inserted existing)
      (Error "Failed to persist the Agent Gateway OperationBinding.")).

Definition touchOperationBinding (projectId operationKey : string) (now : option time)
    : Tx (option OperationBinding.operation_binding_row) :=
  now <- now_or now ;;
  touched <- update_where operation_bindings_table (operation_of projectId operationKey)
    (fun b => b <| OperationBinding.updatedAt := now |>) ;;
  ret (head touched).

Record binding_input : Type := mk_binding_input {
  bi_projectId : string; bi_eveSessionId : string; bi_routeId : string; bi_deploymentId : string;
  bi_trigger : binding_trigger; bi_variantName : option string; bi_experimentId : option string;
  bi_requestId : string; bi_remoteIp : option string; bi_affinityFingerprint : option string;
  bi_affinitySource : option string
}.

Definition binding_row (id : string) (input : binding_input) (createdAt now : time)
    : SessionBinding.session_binding_row :=
  SessionBinding.mk id (bi_projectId input) (bi_eveSessionId input) (bi_routeId input)
    (bi_deploymentId input) (bi_trigger input) (bi_variantName input) (bi_experimentId input)
    (bi_requestId input) (bi_remoteIp input) (bi_affinityFingerprint input)
    (bi_affinitySource input) createdAt now.

Definition bind_session_row (input : binding_input) (s : Session.session_row)
    : Session.session_row :=
  s <| Session.trigger := trigger_of_binding (bi_trigger input) |>
    <| Session.routeId := Some (bi_routeId input) |>
    <| Session.experimentId := bi_experimentId input |>
    <| Session.variantName := bi_variantName input |>
    <| Session.deploymentId := Some (bi_deploymentId input) |>.

Definition bindSession (input : binding_input) : Tx SessionBinding.session_binding_row :=
  transaction (
    id <- createId "bind" ;;
    now <- clock ;;
    binding <- upsert session_bindings_table (ui_clash session_bindings_project_eve_idx)
      (binding_row id input now now)
      (fun b => binding_row (SessionBinding.id b) input (SessionBinding.createdAt b) now) ;;
    _s <- update_where sessions_table
      (fun s => bool_decide (Session.projectId s = bi_projectId input)
                && bool_decide (Session.eveSessionId s = Some (bi_eveSessionId input)))
      (bind_session_row input) ;;
    ret binding).

Definition touchSessionBinding (projectId eveSessionId : string) (now : option time)
    : Tx (option SessionBinding.session_binding_row) :=
  now <- now_or now ;;
  touched <- update_where session_bindings_table (binding_of projectId eveSessionId)
    (fun b => b <| SessionBinding.updatedAt := now |>) ;;
  ret (head touched).

(** ** Retention *)

Record retention_options : Type := mk_retention_options {
  ro_now : option time;
  ro_policy : session_binding_idle_policy;
  ro_deploymentsWithActiveWorkflowRuns : option (list string)
}.

(** [terminalByEveId]: a later row of a session overwrites an earlier one. *)
Definition terminal_by_eve (projectId : string) (d : database) : gmap string bool :=
  foldl (fun m s =>
      match truthy (Session.eveSessionId s) with
      | Some eve => <[eve := bool_decide (Session.status s = SessionStatus.completed)
                             || bool_decide (Session.status s = SessionStatus.failed)]> m
      | None => m
      end) ∅
    (select_where (fun s => bool_decide (Session.projectId s = projectId)) (sessions d)).

(** [bindings.filter(active).map((binding) => binding.deploymentId)] *)
Fixpoint active_deployments {A} (active : A -> result bool) (deployment : A -> string)
    (l : list A) : result (list string) :=
  match l with
  | [] => Ok []
  | a :: l =>
      match active a, active_deployments active deployment l with
      | Err e, _ => Err e
      | _, Err e => Err e
      | Ok true, Ok rest => Ok (deployment a :: rest)
      | Ok false, Ok rest => Ok rest
      end
  end.

(** The weighted or reserved targets of the routes that are not previews. *)
Definition targeted_deployments (projectId : string) (d : database) : list string :=
  r ← base.filter (fun r => AgentRoute.kind (rr_route r) <> RouteKind.deployment)
        (project_routes projectId d);
  (fun t => RouteTarget.deploymentId (rs_target t)) <$> rr_targets r.

Definition active_sessions (projectId : string) (now : time) (policy : session_binding_idle_policy)
    (d : database) : result (list string) :=
  active_deployments (fun b =>
      if bool_decide (terminal_by_eve projectId d !! SessionBinding.eveSessionId b = Some true)
      then Ok false
      else isSessionBindingActive (SessionBinding.trigger b) (SessionBinding.updatedAt b) now policy)
    SessionBinding.deploymentId
    (select_where (fun b => bool_decide (SessionBinding.projectId b = projectId))
       (sessionBindings d)).

Definition active_operations (projectId : string) (now : time)
    (policy : session_binding_idle_policy) (d : database) : result (list string) :=
  active_deployments (fun b =>
      isSessionBindingActive (OperationBinding.trigger b) (OperationBinding.updatedAt b) now policy)
    OperationBinding.deploymentId
    (select_where (fun b => bool_decide (OperationBinding.projectId b = projectId))
       (operationBindings d)).

(** The deployments of the list that hold an unreleased, unexpired lease. *)
Definition active_requests (ids : list string) (now : time) (d : database) : list string :=
  ActivationLease.deploymentId <$>
    select_where (fun l => bool_decide (ActivationLease.deploymentId l ∈ ids)
                           && lease_active now l) (activationLeases d).


Record deployment_retention : Type := mk_deployment_retention {
  dr_deployment : Deployment.deployment_row; dr_protected : bool;
  dr_reasons : list RetentionReason.retention_reason
}.

Definition retention_reasons (targeted sessions operations requests recent : list string)
    (workflowRuns : option (list string)) (id : string)
    : list RetentionReason.retention_reason :=
  let reason (l : list string) r := if bool_decide (id ∈ l) then [r] else [] in
  (reason targeted RetentionReason.route_target
   ++ reason sessions RetentionReason.active_session
   ++ reason operations RetentionReason.active_operation
   ++ reason requests RetentionReason.active_request
   ++ reason recent RetentionReason.recent_artifact
   ++ reason (default [] workflowRuns) RetentionReason.active_workflow_run)%list.

Definition getDeploymentRetention (projectId : string) (keepRecent : option nat)
    (options : retention_options) : Tx (list deployment_retention) :=
  now <- now_or (ro_now options) ;;
  deploymentList <- listDeployments projectId None None ;;
  targeted <- read (targeted_deployments projectId) ;;
  found <- read (active_sessions projectId now (ro_policy options)) ;;
  sessions <- lift found ;;
  found <- read (active_operations projectId now (ro_policy options)) ;;
  operations <- lift found ;;
  requests <- read (active_requests (Deployment.id <$> deploymentList) now) ;;
  let recent := Deployment.id <$> take (default 3 keepRecent) deploymentList in
  ret ((fun dep =>
          let reasons := retention_reasons targeted sessions operations requests recent
                           (ro_deploymentsWithActiveWorkflowRuns options) (Deployment.id dep) in
          mk_deployment_retention dep (negb (bool_decide (length reasons = 0))) reasons)
       <$> deploymentList).
End DeploymentStore.

(** ** Facts *)
#[local] Open Scope list_scope.

Section DeploymentFacts.
Context `{Platform}.

(** ** Operation bindings *)

Lemma operation_unique d pid key k k' b b' :
  unique_ok operation_bindings_project_key_idx (operationBindings d) ->
  operationBindings d !! k = Some b -> operation_of pid key b = true ->
  operationBindings d !! k' = Some b' -> operation_of pid key b' = true -> k' = k.
Proof.
  intros Hu Hk Hb Hk' Hb'. destruct (decide (k' = k)) as [|Hne]; [done|exfalso].
  pose proof (Hu k' k b' b Hk' Hk Hne) as Hc.
  unfold operation_bindings_project_key_idx in Hc. simpl in Hc.
  apply andb_true_iff in Hb as [Hp%bool_decide_eq_true Ho%bool_decide_eq_true].
  apply andb_true_iff in Hb' as [Hp'%bool_decide_eq_true Ho'%bool_decide_eq_true].
  apply (same_key_false _ _ _ (pid, key)) in Hc; congruence.
Qed.

(** What a returning [bindOperation] answers: the one binding of its key. *)
Lemma bindOperation_ok input s b s1 :
  unique_ok operation_bindings_project_key_idx (operationBindings (st_db s)) ->
  bindOperation input s = (Ok b, s1) ->
  unique_ok operation_bindings_project_key_idx (operationBindings (st_db s1)) /\
  operation_of (oi_projectId input) (oi_operationKey input) b = true /\
  (exists k, operationBindings (st_db s1) !! k = Some b) /\
  (st_db s1 = st_db s \/
   find_where (operation_of (oi_projectId input) (oi_operationKey input))
     (operationBindings (st_db s)) = None /\
   OperationBinding.deploymentId b = oi_deploymentId input /\
   OperationBinding.routeId b = oi_routeId input).
Proof.
  intros Hu Hrun. unfold bindOperation in Hrun. rewrite transaction_ok in Hrun.
  apply bind_ok in Hrun as (id & s2 & [= <- <-] & Hrun).
  apply bind_ok in Hrun as (now & s2 & [= <- <-] & Hrun).
  apply bind_ok in Hrun as (inserted & s2 & Hins & Hrun).
  apply bind_ok in Hrun as (existing & s3 & [= <- <-] & [Ho ->]%some_or_ok).
  apply insert_or_ignore_ok in Hins as [(-> & -> & _)|(-> & Hc & Hins)].
  - simpl in Ho. apply find_where_Some in Ho as (Hb & k & Hk).
    split; [done|]. split; [done|]. split; [by exists k|by left].
  - simpl in Ho. injection Ho as <-. apply insert_row_ok in Hins as (_ & Hn & _ & ->). simpl in *.
    split; [by apply unique_insert; [apply index_on_symmetric|..]|].
    split; [unfold operation_of; simpl; by rewrite !bool_decide_eq_true_2|].
    split; [eexists; apply lookup_insert_eq|right]. split; [|done].
    apply find_where_None. intros k r Hk. apply not_true_iff_false.
    intros [Hp%bool_decide_eq_true Hkey%bool_decide_eq_true]%andb_true_iff.
    rewrite clashes_false in Hc. pose proof (Hc k r Hk) as Hcl.
    unfold operation_bindings_project_key_idx in Hcl. simpl in Hcl.
    assert (Hne : k <> "opbind" +:+ "_" +:+ nanoid (st_draws s)) by congruence.
    eapply same_key_false; [|exact (Hcl Hne)|]; [done|]. simpl. by rewrite Hp, Hkey.
Qed.

(** The deployment of an operation is decided once: the first
    [bindOperation] of a project's operation key records its input, and every
    later one for that key, whatever route, deployment or variant it names,
    answers the same row and changes nothing. *)
Lemma bindOperation_sticky input input' s b s1 :
  unique_ok operation_bindings_project_key_idx (operationBindings (st_db s)) ->
  bindOperation input s = (Ok b, s1) -> ids_fresh "opbind" operation_bindings_table s1 ->
  oi_projectId input' = oi_projectId input -> oi_operationKey input' = oi_operationKey input ->
  match find_where (operation_of (oi_projectId input) (oi_operationKey input))
          (operationBindings (st_db s)) with
  | Some b0 => b = b0 /\ st_db s1 = st_db s
  | None => OperationBinding.deploymentId b = oi_deploymentId input /\
      OperationBinding.routeId b = oi_routeId input
  end /\
  exists s2, bindOperation input' s1 = (Ok b, s2) /\ st_db s2 = st_db s1.
Proof.
  intros Hu Hrun Hfresh Hpid Hkey.
  destruct (bindOperation_ok _ _ _ _ Hu Hrun) as (Hu1 & Hb & (k & Hk) & Hcase). split.
  - destruct (find_where _ _) as [b0|] eqn:Hf; destruct Hcase as [Hdb|(Hnone & Hd & Hr)]; try done.
    + split; [|done]. apply find_where_Some in Hf as (Hb0 & k0 & Hk0). rewrite <- Hdb in Hk0.
      pose proof (operation_unique _ _ _ _ _ _ _ Hu1 Hk Hb Hk0 Hb0) as ->. congruence.
    + rewrite Hdb in Hk. rewrite find_where_None in Hf. by rewrite (Hf k b Hk) in Hb.
  - exists (s1 <| st_draws ::= S |>). split; [|done]. unfold bindOperation. apply transaction_ok.
    erewrite bind_step; [|reflexivity]. erewrite bind_step; [|reflexivity].
    erewrite bind_step.
    2: { apply (insert_or_ignore_taken _ _ _ b k); [by apply Hfresh|exact Hk|].
         apply same_key_clash. simpl. rewrite Hpid, Hkey.
         apply andb_true_iff in Hb as [Hp%bool_decide_eq_true Ho%bool_decide_eq_true].
         eexists. split; [done|]. by rewrite Hp, Ho. }
    erewrite bind_step; [|reflexivity]. simpl. rewrite Hpid, Hkey.
    rewrite (find_where_unique _ _ k b Hk Hb); [done|].
    intros k' b' Hk' Hb'. by eapply operation_unique.
Qed.

(** ** Claiming a deployment key *)

(** How many identifiers an attempt draws. *)
Definition attempt_draws (input : deployment_input) : nat :=
  match di_deploymentId input with Some _ => 1 | None => 2 end.

(** The key of the i-th attempt of a loop entered at [s]. *)
Definition attempt_key (input : deployment_input) (first i : nat) : string :=
  nanoid_key (first + i * attempt_draws input).

Definition key_taken (pid key : string) (d : database) : Prop :=
  exists k r, deployments d !! k = Some r /\ Deployment.projectId r = pid /\
    Deployment.deploymentKey r = key.

(** The identifiers a recording may use are free. *)
Definition deployment_ids_free (input : deployment_input) (s : store) : Prop :=
  match di_deploymentId input with
  | Some id => deployments (st_db s) !! id = None
  | None => ids_fresh "dep" deployments_table s
  end.

Lemma clash_key_taken k r d :
  deployments d !! k = None ->
  clashes deployments_project_key_idx (deployments d) k r = true <->
  key_taken (Deployment.projectId r) (Deployment.deploymentKey r) d.
Proof.
  intros Hn. rewrite clashes_true. unfold key_taken, deployments_project_key_idx. simpl.
  split; intros (k' & r' & Hk' & H1).
  - destruct H1 as [_ (c & [= <-] & [= H1 H2])%same_key_clash]. eauto 6.
  - exists k', r'. split; [done|]. split; [congruence|]. apply same_key_clash.
    destruct H1 as [H1 H2]. eexists. split; [done|]. simpl. by rewrite H1, H2.
Qed.

Definition deployment_row_of (input : deployment_input) (releaseId key id : string) (now : time)
    : Deployment.deployment_row :=
  Deployment.mk id key (di_projectId input) releaseId (di_containerName input)
    (di_internalPort input) (di_hostPort input) DeploymentStatus.running (di_runtimeKind input)
    now now.

Lemma insert_row_violates {K R} `{Countable K} (T : table K R) r s name :
  tbl T (st_db s) !! tbl_id T r = None ->
  violation (tbl_uniques T) (tbl T (st_db s)) (tbl_id T r) r = Some name ->
  insert_row T r s = (Err (UniqueViolation name), s).
Proof.
  intros Hn Hv. unfold insert_row, read, bind, gets. rewrite Hn.
  rewrite bool_decide_eq_false_2 by by intros [? ?]. simpl. by rewrite Hv.
Qed.

(** One attempt: a taken key is turned down without a trace, a free one is
    recorded. *)
Lemma claim_attempt input rid key s :
  deployment_ids_free input s ->
  exists s1, st_draws s1 = attempt_draws input - 1 + st_draws s /\ st_clock s1 = st_clock s /\
  ((key_taken (di_projectId input) key (st_db s) /\ st_db s1 = st_db s /\
    claim_deployment input rid key s = (Ok None, s1)) \/
   (~ key_taken (di_projectId input) key (st_db s) /\ exists dep,
      Deployment.deploymentKey dep = key /\ Deployment.releaseId dep = rid /\
      Deployment.projectId dep = di_projectId input /\
      Deployment.status dep = DeploymentStatus.running /\
      deployments (st_db s) !! Deployment.id dep = None /\
      st_db s1 = (st_db s) <| deployments ::= insert (Deployment.id dep) dep |> /\
      claim_deployment input rid key s = (Ok (Some dep), s1))).
Proof.
  intros Hfree.
  assert (Hid : exists id s0, id_or_create (di_deploymentId input) "dep" s = (Ok id, s0) /\
    st_draws s0 = attempt_draws input - 1 + st_draws s /\ st_clock s0 = st_clock s /\
    st_db s0 = st_db s /\ deployments (st_db s) !! id = None).
  { unfold deployment_ids_free, attempt_draws in *. destruct (di_deploymentId input) as [id|].
    - by exists id, s.
    - eexists _, _. split; [reflexivity|]. repeat split. by apply Hfree. }
  destruct Hid as (id & s0 & Hid & Hdraws & Hclock & Hdb & Hn).
  set (row := deployment_row_of input rid key id (st_clock s0)).
  destruct (clashes deployments_project_key_idx (deployments (st_db s)) id row) eqn:Hc.
  - exists (s0 <| st_db := st_db s |>). split; [done|]. split; [done|left].
    split; [by apply (clash_key_taken id row) in Hc|]. split; [done|].
    unfold claim_deployment, try_catch, transaction. rewrite (bind_step _ _ _ _ _ Hid).
    erewrite bind_step; [|reflexivity].
    rewrite (bind_err _ _ _ (UniqueViolation "deployments_project_key_idx") s0);
      [by rewrite <- Hdb; destruct s0|].
    apply insert_row_violates; [simpl; by rewrite Hdb|]. unfold violation. simpl.
    rewrite Hdb. unfold row, deployment_row_of in Hc. by rewrite Hc.
  - exists (s0 <| st_db ::= tbl_set deployments_table (insert id row) |>).
    split; [done|]. split; [done|right]. split.
    { intros Ht. apply not_true_iff_false in Hc. by apply Hc, (clash_key_taken id row). }
    exists row. do 5 (split; [done|]). split; [simpl; by rewrite Hdb|].
    unfold claim_deployment, try_catch, transaction. rewrite (bind_step _ _ _ _ _ Hid).
    erewrite bind_step; [|reflexivity]. erewrite bind_step; [|apply insert_row_succeeds].
    + done.
    + simpl. by rewrite Hdb.
    + simpl. rewrite Hdb. intros u ->%list_elem_of_singleton. exact Hc.
Qed.

(** What a recorded deployment is. *)
Record claimed_row (input : deployment_input) (rid key : string) (d : database)
    (dep : Deployment.deployment_row) : Prop := {
  cr_free : ~ key_taken (di_projectId input) key d;
  cr_key : Deployment.deploymentKey dep = key;
  cr_release : Deployment.releaseId dep = rid;
  cr_project : Deployment.projectId dep = di_projectId input;
  cr_status : Deployment.status dep = DeploymentStatus.running;
  cr_new : deployments d !! Deployment.id dep = None
}.

Lemma attempt_key_first input n : attempt_key input n 0 = nanoid_key n.
Proof. unfold attempt_key. f_equal. lia. Qed.

Lemma attempt_key_next input n i :
  attempt_key input n (S i) = attempt_key input (attempt_draws input - 1 + S n) i.
Proof.
  unfold attempt_key. f_equal. assert (1 <= attempt_draws input)
    by (unfold attempt_draws; destruct (di_deploymentId input); lia). lia.
Qed.

Lemma ids_free_later input s s' :
  deployment_ids_free input s -> deployments (st_db s') = deployments (st_db s) ->
  st_draws s <= st_draws s' -> deployment_ids_free input s'.
Proof.
  unfold deployment_ids_free. intros Hf Hdb Hle. destruct (di_deploymentId input).
  - by rewrite Hdb.
  - intros n Hn. simpl. rewrite Hdb. apply Hf. lia.
Qed.

(** The loop ends with the first free key of its attempts, or, when there is
    none, throws. *)
Lemma claim_loop input rid m k s :
  deployment_ids_free input s ->
  let key := attempt_key input (st_draws s) in
  (exists i dep s', i < k /\
     (forall j, j < i -> key_taken (di_projectId input) (key j) (st_db s)) /\
     claimed_row input rid (key i) (st_db s) dep /\
     claim_key_loop (claim_deployment input rid) m k s = (Ok dep, s') /\
     st_db s' = (st_db s) <| deployments ::= insert (Deployment.id dep) dep |>) \/
  ((forall j, j < k -> key_taken (di_projectId input) (key j) (st_db s)) /\
   exists s', claim_key_loop (claim_deployment input rid) m k s
     = (Err (Error ("Failed to claim a unique deployment key after " +:+ pretty m
                    +:+ " attempts.")), s') /\ st_db s' = st_db s).
Proof.
  revert s. induction k as [|k IH]; intros s Hfree; cbv zeta.
  { right. split; [lia|]. by exists s. }
  set (s0 := s <| st_draws ::= S |>).
  destruct (claim_attempt input rid (nanoid_key (st_draws s)) s0)
    as (s1 & Hdr & _ & [(Ht & Hdb & Hrun)|(Hnt & dep & H1 & H2 & H3 & H4 & H5 & H6 & Hrun)]).
  { apply (ids_free_later _ s); [done..|simpl; lia]. }
  2: { left. exists 0, dep, s1. split; [lia|]. split; [lia|]. rewrite attempt_key_first.
       split; [by constructor|]. split; [|done]. simpl.
       erewrite bind_step; [|reflexivity]. by rewrite (bind_step _ _ _ _ _ Hrun). }
  assert (Hstep : claim_key_loop (claim_deployment input rid) m (S k) s
    = claim_key_loop (claim_deployment input rid) m k s1).
  { simpl. erewrite bind_step; [|reflexivity]. by rewrite (bind_step _ _ _ _ _ Hrun). }
  assert (Hkey : forall i, attempt_key input (st_draws s) (S i) = attempt_key input (st_draws s1) i)
    by (intros i; rewrite attempt_key_next; by rewrite Hdr).
  assert (Ht0 : key_taken (di_projectId input) (attempt_key input (st_draws s) 0) (st_db s))
    by (by rewrite attempt_key_first).
  assert (Hall : forall n, (forall j, j < n ->
      key_taken (di_projectId input) (attempt_key input (st_draws s1) j) (st_db s)) ->
    forall j, j < S n -> key_taken (di_projectId input) (attempt_key input (st_draws s) j) (st_db s)).
  { intros n Hj [|j] Hlt; [done|]. rewrite Hkey. apply Hj. lia. }
  rewrite Hstep. change (st_db s0) with (st_db s) in Hdb.
  destruct (IH s1) as [(i & dep & s' & Hi & Hj & Hrow & Hl & Hdb')|(Hj & s' & Hl & Hdb')].
  { apply (ids_free_later _ s); [done|by rewrite Hdb|rewrite Hdr; simpl; lia]. }
  - rewrite Hdb in *. left. exists (S i), dep, s'. rewrite Hkey. split; [lia|]. eauto.
  - rewrite Hdb in *. right. split; [by apply Hall|]. by exists s'.
Qed.

(** The row of the project after a recording: the first deployment of a project
    becomes its current one. *)
Definition adopt (rid did : string) (now : time) (p : Project.project_row) : Project.project_row :=
  if bool_decide (Project.deploymentId p = None) then deployed rid did now p else p.

Lemma alter_stays (f : Project.project_row -> Project.project_row) k (t : gmap string _) :
  (forall p, t !! k = Some p -> f p = p) -> alter f k t = t.
Proof.
  intros Hf. apply map_eq. intros k'. destruct (decide (k' = k)) as [->|Hne];
    [rewrite lookup_alter_eq|by rewrite lookup_alter_ne].
  destruct (t !! k) as [p|]; [|done]. simpl. by rewrite (Hf p eq_refl).
Qed.

Lemma alter_inserts (f : Project.project_row -> Project.project_row) k (t : gmap string _) p :
  t !! k = Some p -> alter f k t = <[k := f p]> t.
Proof.
  intros Hp. apply map_eq. intros k'. destruct (decide (k' = k)) as [->|Hne].
  - by rewrite lookup_insert_eq, lookup_alter_eq, Hp.
  - by rewrite lookup_insert_ne, lookup_alter_ne.
Qed.

(** The update of the project's row cannot fail, since the slug stays. *)
Lemma adopt_ok pid rid did now s :
  (forall u, u ∈ tbl_uniques projects_table -> unique_ok u (projects (st_db s))) ->
  exists o s', update_key projects_table pid
      (fun p => bool_decide (Project.deploymentId p = None)) (deployed rid did now) s = (Ok o, s') /\
    st_db s' = (st_db s) <| projects ::= alter (adopt rid did now) pid |>.
Proof.
  intros Hu. destruct (update_key _ _ _ _ s) as [[o|e] s'] eqn:Hup.
  - exists o, s'. split; [done|].
    apply update_key_ok in Hup as [(_ & -> & Hn)|(p & Hp & Hd & _ & _ & ->)]; simpl in *;
      unfold set_field; simpl.
    + rewrite alter_stays; [by destruct (st_db s)|]. intros p Hp. unfold adopt. by rewrite Hn.
    + rewrite (alter_inserts _ _ _ p Hp). unfold adopt. by rewrite Hd.
  - exfalso. unfold update_key, read, bind, gets in Hup.
    change (tbl projects_table (st_db s)) with (projects (st_db s)) in Hup.
    destruct (projects (st_db s) !! pid) as [p|] eqn:Hp; [|done].
    destruct (bool_decide (Project.deploymentId p = None)); [|done].
    replace (violation _ _ _ _) with (@None string) in Hup; [done|]. symmetry.
    apply violation_None. intros u Hin. apply clashes_false. intros k' r' Hk' Hne.
    pose proof (Hu u Hin _ _ _ _ Hp Hk' (not_eq_sym Hne)) as Hc.
    apply list_elem_of_singleton in Hin as ->. exact Hc.
Qed.

(** A deployment is recorded with the first of at most eight drawn keys
    that no deployment of its project holds: the release, the deployment and,
    for a project without a current deployment, its row are written together.
    It fails exactly when all eight keys are taken, and then writes nothing. *)
Lemma recordDeployment_claims_key input s :
  (match di_releaseId input with
   | Some id => releases (st_db s) !! id = None
   | None => ids_fresh "rel" releases_table s
   end) ->
  deployment_ids_free input s ->
  (forall u, u ∈ tbl_uniques projects_table -> unique_ok u (projects (st_db s))) ->
  let first := match di_releaseId input with
               | Some _ => st_draws s
               | None => S (st_draws s)
               end in
  match recordDeployment input s with
  | (Ok dep, s') => exists i rel, i < 8 /\
      claimed_row input (Release.id rel) (attempt_key input first i) (st_db s) dep /\
      (forall j, j < i ->
         key_taken (di_projectId input) (attempt_key input first j) (st_db s)) /\
      releases (st_db s) !! Release.id rel = None /\
      rel = release_of input (Release.id rel) (st_clock s) /\
      st_db s' = (st_db s)
        <| releases ::= insert (Release.id rel) rel |>
        <| deployments ::= insert (Deployment.id dep) dep |>
        <| projects ::= alter (adopt (Release.id rel) (Deployment.id dep) (st_clock s))
                          (di_projectId input) |>
  | (Err e, s') => st_db s' = st_db s /\
      e = Error "Failed to claim a unique deployment key after 8 attempts." /\
      forall i, i < 8 -> key_taken (di_projectId input) (attempt_key input first i) (st_db s)
  end.
Proof.
  intros Hrel Hfree Hu. cbv zeta.
  assert (Hid : exists id s0, id_or_create (di_releaseId input) "rel" s = (Ok id, s0) /\
    st_draws s0 = match di_releaseId input with Some _ => st_draws s | None => S (st_draws s) end /\
    st_clock s0 = st_clock s /\ st_db s0 = st_db s /\ releases (st_db s) !! id = None).
  { destruct (di_releaseId input) as [id|]; [by exists id, s|].
    eexists _, _. split; [reflexivity|]. repeat split. by apply Hrel. }
  destruct Hid as (id & s0 & Hid & Hdr & Hclock & Hdb & Hn).
  rewrite <- Hdr.
  set (rel := release_of input id (st_clock s0)).
  set (s1 := s0 <| st_db ::= tbl_set releases_table (insert id rel) |>).
  assert (Hins : insert_row releases_table rel s0 = (Ok rel, s1)).
  { apply (insert_row_succeeds releases_table rel s0).
    - simpl. by rewrite Hdb.
    - simpl. intros u Hin. by apply not_elem_of_nil in Hin. }
  unfold recordDeployment, transaction. rewrite (bind_step _ _ _ _ _ Hid).
  erewrite bind_step; [|reflexivity]. fold rel. rewrite (bind_step _ _ _ _ _ Hins).
  change (Release.id rel) with id.
  assert (Hs1 : st_db s1 = (st_db s) <| releases ::= insert id rel |>) by (simpl; by rewrite Hdb).
  destruct (claim_loop input id 8 8 s1)
    as [(i & dep & s2 & Hi & Hj & Hrow & Hl & Hdb2)|(Hj & s2 & Hl & Hdb2)].
  { apply (ids_free_later _ s); [done|by rewrite Hs1|].
    simpl. rewrite Hdr. destruct (di_releaseId input); lia. }
  - unfold claimDeploymentKey. simpl. rewrite (bind_step _ _ _ _ _ Hl).
    destruct (adopt_ok (di_projectId input) id (Deployment.id dep) (st_clock s0) s2)
      as (o & s3 & Hup & Hdb3); [by rewrite Hdb2, Hs1|].
    rewrite (bind_step _ _ _ _ _ Hup). simpl. exists i, rel. split; [done|].
    rewrite Hs1 in *. split; [by destruct Hrow; constructor|]. split; [exact Hj|].
    split; [done|]. split; [by unfold rel; rewrite Hclock|]. by rewrite Hdb3, Hdb2, Hclock.
  - unfold claimDeploymentKey. simpl. rewrite (bind_err _ _ _ _ _ Hl). simpl.
    split; [done|]. split; [done|]. by rewrite Hs1 in Hj.
Qed.
End DeploymentFacts.

(** ** Witnesses *)
Section DeploymentWitnesses.
#[local] Existing Instance sample_platform.

Definition bind_input (did : string) : operation_input :=
  mk_operation_input "p" "op" "route_0" did BindingTrigger.api None None.

Definition bound : store := exec (bindOperation (bind_input "dep_1")) (sample_store sample_database).

Lemma opbind_id_0 n : "opbind" +:+ "_" +:+ pretty.pretty n = "opbind_0" -> n = 0.
Proof. intros Heq. injection Heq as Heq. by apply (inj pretty.pretty n 0). Qed.

Lemma bindOperation_sticky_witness :
  exists b s1 s2, bindOperation (bind_input "dep_1") (sample_store sample_database) = (Ok b, s1) /\
    OperationBinding.deploymentId b = "dep_1" /\
    bindOperation (bind_input "dep_2") s1 = (Ok b, s2) /\ st_db s2 = st_db s1.
Proof.
  destruct (bindOperation (bind_input "dep_1") (sample_store sample_database)) as [[b|e] s1] eqn:Hrun;
    [|by vm_compute in Hrun].
  assert (Hs1 : s1 = bound) by (unfold bound, exec; by rewrite Hrun).
  assert (Hu : unique_ok operation_bindings_project_key_idx
    (operationBindings (st_db (sample_store sample_database))))
    by (intros k1 k2 r1 r2 Hk; by vm_compute in Hk).
  assert (Hfresh : ids_fresh "opbind" operation_bindings_table s1).
  { rewrite Hs1. assert (Hd : st_draws bound = 1) by (by vm_compute). intros n Hn. rewrite Hd in Hn.
    destruct (_ !! _) as [r|] eqn:Hr; [|done].
    assert (Hb : bool_decide (map_Forall (fun k _ => k = "opbind_0") (operationBindings (st_db bound)))
      = true) by (by vm_compute).
    pose proof (bool_decide_eq_true_1 _ Hb) as Hk.
    apply Hk, opbind_id_0 in Hr. lia. }
  destruct (bindOperation_sticky (bind_input "dep_1") (bind_input "dep_2") _ b s1 Hu Hrun Hfresh
    eq_refl eq_refl) as ([Hd _] & s2 & H2 & Hdb).
  exists b, s1, s2. exact (conj eq_refl (conj Hd (conj H2 Hdb))).
Defined.

(** A deployment of the project holds the first key drawn, so the second is
    claimed. *)
Definition record_input : deployment_input :=
  mk_deployment_input (Some "rel_9") (Some "dep_9") "p" "srev_1" "img" None None "c9" 3000 4009
    "docker" None None.
Definition keyed_store : store :=
  sample_store (sample_database <| deployments := {[ "dep_1" :=
    (sample_deployment "p" "dep_1" DeploymentStatus.running) <| Deployment.deploymentKey := "0" |> ]} |>).

Lemma recordDeployment_claims_key_witness :
  exists dep s', recordDeployment record_input keyed_store = (Ok dep, s') /\
    Deployment.deploymentKey dep = "1" /\
    deployments (st_db s') !! Deployment.id dep = Some dep /\
    ~ key_taken "p" "1" (st_db keyed_store).
Proof.
  assert (Hu : forall u, u ∈ tbl_uniques projects_table -> unique_ok u (projects (st_db keyed_store))).
  { intros u ->%list_elem_of_singleton k1 k2 r1 r2 H1 H2 Hne.
    change (projects (st_db keyed_store)) with ({[ "p" := sample_project "p" ]} : gmap string _) in *.
    apply lookup_singleton_Some in H1 as [<- _]. by apply lookup_singleton_Some in H2 as [<- _]. }
  pose proof (recordDeployment_claims_key record_input keyed_store eq_refl eq_refl Hu) as Hspec.
  cbv zeta in Hspec.
  destruct (recordDeployment record_input keyed_store) as [[dep|e] s'] eqn:Hrun.
  - destruct Hspec as (i & rel & Hi & Hrow & _ & _ & _ & Hdb).
    assert (Hkey : Deployment.deploymentKey dep = "1") by (vm_compute in Hrun; by injection Hrun as <- _).
    pose proof (cr_key _ _ _ _ _ Hrow) as Hk. pose proof (cr_free _ _ _ _ _ Hrow) as Hfree.
    rewrite <- Hk, Hkey in Hfree. exists dep, s'. rewrite Hdb.
    exact (conj eq_refl (conj Hkey (conj (lookup_insert_eq _ _ _) Hfree))).
  - vm_compute in Hrun. discriminate.
Defined.
End DeploymentWitnesses.
