(* ===== verification/RouteWeights.v ===== *)
(** * The weights of the routes

    What the writes of [Deployments] do to the stored targets of a project's
    routes: the invariant that every route with targets can be routed on, the
    promotion of a deployment, and the alias that takes the host name of a
    preview. *)

From S2P Require Import Prelude Strings Schema Store Tables Sample Jobs Runtime Routing EveEvents Sessions Cron Schedules Deployments.
From stdpp Require Import pretty.

Open Scope eve_scope.
Open Scope string_scope.

(** ** The targets of a route *)
#[local] Open Scope list_scope.

Section RouteFacts.
Context `{Platform}.

Lemma rows_filter {K R} `{Countable K} (q : R -> bool) (t : gmap K R) :
  rows (base.filter (fun kr => q kr.2 = false) t) ≡ₚ base.filter (fun r => q r = false) (rows t).
Proof.
  unfold rows. transitivity ((base.filter (fun kr : K * R => q kr.2 = false) (map_to_list t)).*2).
  - apply fmap_Permutation, NoDup_Permutation.
    + apply NoDup_map_to_list.
    + apply NoDup_filter, NoDup_map_to_list.
    + intros [k r]. rewrite list_elem_of_filter, !elem_of_map_to_list, map_lookup_filter_Some.
      simpl. tauto.
  - induction (map_to_list t) as [|[k r] l IH]; [done|].
    rewrite fmap_cons, !filter_cons. simpl. case_decide; simpl; by rewrite IH.
Qed.

Lemma select_filter {K R} `{Countable K} (p q : R -> bool) (t : gmap K R) :
  (forall r, p r = true -> q r = false) ->
  select_where p (base.filter (fun kr => q kr.2 = false) t) ≡ₚ select_where p t.
Proof.
  intros Hpq. unfold select_where. rewrite (filter_perm p _ _ (rows_filter q t)).
  induction (rows t) as [|r l IH]; [done|]. destruct (decide (q r = false)) as [Hq|Hq].
  - rewrite (filter_cons_True (fun r => q r = false)) by done.
    rewrite !filter_cons. case_decide; [by rewrite IH | done].
  - rewrite (filter_cons_False (fun r => q r = false)) by done.
    rewrite (filter_cons_False (fun r => p r = true) r l); [done|].
    intros Hp. by rewrite (Hpq r Hp) in Hq.
Qed.

Lemma select_filter_none {K R} `{Countable K} (p : R -> bool) (t : gmap K R) :
  select_where p (base.filter (fun kr => p kr.2 = false) t) = [].
Proof.
  apply elem_of_nil_inv. intros r (Hp & k & Hk)%elem_of_select.
  apply map_lookup_filter_Some in Hk as [_ Hk]. simpl in Hk. congruence.
Qed.

Definition target_row (routeId : string) (t : route_target_input) : RouteTarget.route_target_row :=
  RouteTarget.mk routeId (rt_deploymentId t) (default 0%Z (rt_weight t)) (rt_variantName t).

Lemma targets_insert rid d k t :
  routeTargets d !! k = None ->
  targets_of rid (d <| routeTargets ::= insert k t |>) ≡ₚ
    (if bool_decide (RouteTarget.routeId t = rid) then [t] else []) ++ targets_of rid d.
Proof. intros Hk. unfold targets_of. simpl. by rewrite select_insert. Qed.

(** Replacing the targets of a route leaves it those given, and the other
    routes theirs. *)
Lemma replace_targets_ok rid ts s u s' :
  keyed route_targets_table (st_db s) -> replace_targets rid ts s = (Ok u, s') ->
  targets_of rid (st_db s') ≡ₚ target_row rid <$> ts /\
  (forall rid', rid' <> rid -> targets_of rid' (st_db s') ≡ₚ targets_of rid' (st_db s)) /\
  keyed route_targets_table (st_db s') /\
  st_db s' = (st_db s) <| routeTargets := routeTargets (st_db s') |>.
Proof.
  intros Hkey Hrun. unfold replace_targets in Hrun.
  apply bind_ok in Hrun as ([] & s1 & [= <-] & Hrun).
  set (is_rid := fun t => bool_decide (RouteTarget.routeId t = rid)) in *.
  set (d1 := (st_db s) <| routeTargets ::= base.filter (fun kr => is_rid kr.2 = false) |>).
  assert (Hd1 : targets_of rid d1 = [] /\
    (forall rid', rid' <> rid -> targets_of rid' d1 ≡ₚ targets_of rid' (st_db s)) /\
    keyed route_targets_table d1).
  { split; [apply select_filter_none|]. split.
    - intros rid' Hne. apply select_filter. intros t Ht%bool_decide_eq_true.
      unfold is_rid. rewrite Ht. by apply bool_decide_eq_false.
    - intros k t Hk. apply map_lookup_filter_Some in Hk as [Hk _]. by apply Hkey. }
  destruct Hd1 as (Hnil & Hother & Hkey1).
  match type of Hrun with for_m ts ?f ?s1 = _ => set (s0 := s1) in *; set (put := f) in * end.
  assert (Hloop : forall ts s0, keyed route_targets_table (st_db s0) ->
    for_m ts put s0 = (Ok u, s') ->
    targets_of rid (st_db s') ≡ₚ (target_row rid <$> ts) ++ targets_of rid (st_db s0) /\
    (forall rid', rid' <> rid -> targets_of rid' (st_db s') ≡ₚ targets_of rid' (st_db s0)) /\
    keyed route_targets_table (st_db s') /\
    st_db s' = (st_db s0) <| routeTargets := routeTargets (st_db s') |>).
  { clear. intros ts. induction ts as [|t ts IH]; intros s0 Hkey Hrun.
    - injection Hrun as <- <-. repeat split; try done. by destruct (st_db s0).
    - apply bind_ok in Hrun as ([] & s1 & Hput & Hrun).
      apply bind_ok in Hput as (row & s2 & Hins & [= <-]).
      apply insert_row_ok in Hins as (-> & Hn & _ & ->). simpl in Hn.
      change (for_m ts put (s0 <| st_db ::= tbl_set route_targets_table
        (insert (rid, rt_deploymentId t) (target_row rid t)) |>) = (Ok u, s')) in Hrun.
      apply IH in Hrun as (Ht & Ho & Hk & Hdb).
      + simpl in *. split; [|split; [|split; [done|by rewrite Hdb]]].
        * rewrite Ht, (targets_insert rid _ _ _ Hn). simpl.
          rewrite bool_decide_eq_true_2 by done. simpl. by rewrite <- Permutation_middle.
        * intros rid' Hne. rewrite Ho by done. rewrite (targets_insert rid' _ _ _ Hn). simpl.
          by rewrite bool_decide_eq_false_2.
      + apply keyed_insert; [apply _|done|done]. }
  destruct (Hloop ts s0 Hkey1 Hrun) as (Ht & Ho & Hk & Hdb). change (st_db s0) with d1 in *.
  rewrite Hnil, app_nil_r in Ht. split; [done|]. split; [|split; [done|by rewrite Hdb]].
  intros rid' Hne. by rewrite Ho, Hother.
Qed.

(** ** The weights of the routes *)

Definition target_input (t : RouteTarget.route_target_row) : route_target_input :=
  mk_route_target_input (RouteTarget.deploymentId t) (Some (RouteTarget.weight t))
    (RouteTarget.variantName t).

Lemma weights_perm ts ts' : ts ≡ₚ ts' -> weights ts = weights ts'.
Proof. induction 1; simpl; lia. Qed.

Lemma valid_perm ts ts' : ts ≡ₚ ts' -> valid_targets ts -> valid_targets ts'.
Proof.
  intros Hp [H1 H2 H3 H4].
  constructor; [by rewrite <- Hp|by rewrite <- Hp|by rewrite <- Hp|by rewrite <- (weights_perm _ _ Hp)].
Qed.

Lemma target_round rid ts : valid_targets ts -> target_input <$> (target_row rid <$> ts) = ts.
Proof.
  intros [_ _ Hr _]. clear -Hr. induction Hr as [|t ts (w & Hw & _) _ IH]; [done|].
  rewrite !fmap_cons, IH. destruct t. simpl in *. by subst.
Qed.

(** Every target belongs to a route, the targets of a route are ones
    [validateRouteTargets] accepts, and a preview has one. *)
Record routes_ok (d : database) : Prop := {
  ro_routes : keyed agent_routes_table d;
  ro_targets : keyed route_targets_table d;
  ro_placed : forall rid t, t ∈ targets_of rid d -> is_Some (agentRoutes d !! rid);
  ro_valid : forall rid, targets_of rid d <> [] -> valid_targets (target_input <$> targets_of rid d);
  ro_preview : forall rid r, agentRoutes d !! rid = Some r ->
    AgentRoute.kind r = RouteKind.deployment -> length (targets_of rid d) <= 1
}.

Lemma routes_ok_frame d d' :
  agentRoutes d' = agentRoutes d -> routeTargets d' = routeTargets d -> routes_ok d -> routes_ok d'.
Proof.
  intros Hr Ht [H1 H2 H3 H4 H5].
  assert (Hto : forall rid, targets_of rid d' = targets_of rid d)
    by (intros rid; unfold targets_of; by rewrite Ht).
  constructor.
  - intros k r. simpl. rewrite Hr. apply H1.
  - intros k r. simpl. rewrite Ht. apply H2.
  - intros rid t. rewrite Hto, Hr. apply H3.
  - intros rid. rewrite Hto. apply H4.
  - intros rid r. rewrite Hto, Hr. apply H5.
Qed.

(** A route's row changes, its kind and its targets do not. *)
Lemma routes_ok_row d r :
  routes_ok d ->
  (forall r0, agentRoutes d !! AgentRoute.id r = Some r0 ->
     AgentRoute.kind r = RouteKind.deployment -> AgentRoute.kind r0 = RouteKind.deployment) ->
  routes_ok (d <| agentRoutes ::= insert (AgentRoute.id r) r |>).
Proof.
  intros [H1 H2 H3 H4 H5] Hkind. constructor; [|exact H2| |exact H4|].
  - by apply (keyed_insert agent_routes_table).
  - intros rid t Ht. simpl. destruct (decide (AgentRoute.id r = rid)) as [<-|Hne].
    + rewrite lookup_insert_eq. by eexists.
    + rewrite lookup_insert_ne by done. by apply (H3 rid t).
  - intros rid r' Hk Hr'. simpl in Hk. change (length (targets_of rid d) <= 1).
    apply lookup_insert_Some in Hk as [[<- <-]|[_ Hk]]; [|by eapply H5].
    destruct (agentRoutes d !! AgentRoute.id r) as [r0|] eqn:Hr0.
    + eapply H5; [exact Hr0|]. by apply Hkind.
    + destruct (targets_of (AgentRoute.id r) d) as [|t l] eqn:Ht; [simpl; lia|].
      destruct (H3 (AgentRoute.id r) t) as [? Hs]; [rewrite Ht; by left|]. congruence.
Qed.

(** The targets of one route are replaced by valid ones. *)
Lemma routes_ok_replace d d' rid ts :
  routes_ok d -> is_Some (agentRoutes d !! rid) ->
  agentRoutes d' = agentRoutes d -> keyed route_targets_table d' ->
  targets_of rid d' ≡ₚ target_row rid <$> ts ->
  (forall rid', rid' <> rid -> targets_of rid' d' ≡ₚ targets_of rid' d) ->
  valid_targets ts ->
  (forall r, agentRoutes d !! rid = Some r -> AgentRoute.kind r = RouteKind.deployment ->
     length ts <= 1) ->
  routes_ok d'.
Proof.
  intros [H1 H2 H3 H4 H5] Hsome Hr Hk Ht Ho Hval Hprev. constructor; [|done| | |].
  - intros k r. simpl. rewrite Hr. apply H1.
  - intros rid' t Hin. rewrite Hr. destruct (decide (rid' = rid)) as [->|Hne]; [done|].
    rewrite Ho in Hin by done. by apply (H3 rid' t).
  - intros rid' Hnn. destruct (decide (rid' = rid)) as [->|Hne].
    + apply (valid_perm ts); [|done]. by rewrite Ht, target_round.
    + apply (valid_perm (target_input <$> targets_of rid' d)); [by rewrite Ho|].
      apply H4. intros Hnil. apply Hnn. specialize (Ho rid' Hne). rewrite Hnil in Ho.
      by apply Permutation_nil_r.
  - intros rid' r. rewrite Hr. intros Hk' Hkind. destruct (decide (rid' = rid)) as [->|Hne].
    + rewrite Ht, length_fmap. by eapply Hprev.
    + rewrite Ho by done. by eapply H5.
Qed.


Lemma sole_valid did v : valid_targets [mk_route_target_input did (Some 10000%Z) v].
Proof.
  constructor; [simpl; lia|apply NoDup_singleton| |done]. constructor; [|done].
  exists 10000%Z. split; [done|lia].
Qed.

Lemma targets_update d k t t' :
  routeTargets d !! k = Some t -> RouteTarget.routeId t' = RouteTarget.routeId t ->
  let d' := d <| routeTargets ::= insert k t' |> in
  (exists rest, targets_of (RouteTarget.routeId t) d ≡ₚ t :: rest /\
                targets_of (RouteTarget.routeId t) d' ≡ₚ t' :: rest) /\
  forall rid, rid <> RouteTarget.routeId t -> targets_of rid d' ≡ₚ targets_of rid d.
Proof.
  intros Hk Hid. cbv zeta. set (d0 := d <| routeTargets ::= delete k |>).
  assert (Hd0 : routeTargets d0 !! k = None) by apply lookup_delete_eq.
  assert (Hd : forall rid, targets_of rid d ≡ₚ
    (if bool_decide (RouteTarget.routeId t = rid) then [t] else []) ++ targets_of rid d0).
  { intros rid. rewrite <- (targets_insert rid d0 k t Hd0). unfold targets_of, d0. simpl.
    by rewrite insert_delete_id. }
  assert (Hd' : forall rid, targets_of rid (d <| routeTargets ::= insert k t' |>) ≡ₚ
    (if bool_decide (RouteTarget.routeId t = rid) then [t'] else []) ++ targets_of rid d0).
  { intros rid. rewrite <- Hid, <- (targets_insert rid d0 k t' Hd0). unfold targets_of, d0. simpl.
    by rewrite insert_delete_eq. }
  split.
  - exists (targets_of (RouteTarget.routeId t) d0). rewrite Hd, Hd'.
    by rewrite bool_decide_eq_true_2.
  - intros rid Hne. rewrite Hd, Hd'. by rewrite bool_decide_eq_false_2 by congruence.
Qed.

(** Placing a route: the row of an existing one keeps its identifier and kind,
    a new one has neither a row nor targets. *)
Lemma place_route_ok existing pid host kind s row s' :
  place_route existing pid host kind s = (Ok (Some row), s') ->
  routes_ok (st_db s) ->
  (forall r0, existing = Some r0 -> agentRoutes (st_db s) !! AgentRoute.id r0 = Some r0) ->
  st_db s' = (st_db s) <| agentRoutes ::= insert (AgentRoute.id row) row |> /\
  routes_ok (st_db s') /\ AgentRoute.hostname row = host /\ AgentRoute.enabled row = true /\
  match existing with
  | Some r0 => AgentRoute.id row = AgentRoute.id r0 /\ AgentRoute.kind row = AgentRoute.kind r0
  | None => AgentRoute.kind row = kind /\ agentRoutes (st_db s) !! AgentRoute.id row = None
  end.
Proof.
  intros Hrun Hok Hex. unfold place_route in Hrun. destruct existing as [r0|].
  - apply bind_ok in Hrun as (now & s1 & [= <- <-] & Hrun). specialize (Hex r0 eq_refl).
    apply update_key_ok in Hrun as [[? _]|(r & Hr & _ & [= ->] & _ & ->)]; [done|].
    simpl in Hr. rewrite Hex in Hr. injection Hr as <-. simpl. split; [done|].
    split; [|done]. pose proof (routes_ok_row (st_db s) (r0 <| AgentRoute.hostname := host |>
      <| AgentRoute.enabled := true |> <| AgentRoute.updatedAt := st_clock s |>) Hok) as Hgoal.
    simpl in Hgoal. apply Hgoal. intros r1 Hr1. rewrite Hex in Hr1. by injection Hr1 as <-.
  - apply bind_ok in Hrun as (id & s1 & [= <- <-] & Hrun).
    apply bind_ok in Hrun as (now & s1 & [= <- <-] & Hrun).
    apply bind_ok in Hrun as (r & s1 & Hins & [= <- <-]).
    apply insert_row_ok in Hins as (-> & Hn & _ & ->). simpl in Hn. simpl.
    split; [done|]. split; [|done]. apply routes_ok_row; [done|]. simpl. intros r1 Hr1. congruence.
Qed.

Lemma no_targets d rid : routes_ok d -> agentRoutes d !! rid = None -> targets_of rid d = [].
Proof.
  intros Hok Hn. apply elem_of_nil_inv. intros t Ht. destruct (ro_placed _ Hok rid t Ht). congruence.
Qed.

(** The preview's target: one of the whole weight. *)
Lemma upsert_preview_ok preview did s t s' :
  routes_ok (st_db s) -> agentRoutes (st_db s) !! AgentRoute.id preview = Some preview ->
  AgentRoute.kind preview = RouteKind.deployment ->
  (targets_of (AgentRoute.id preview) (st_db s) = [] \/
   exists t0, t0 ∈ targets_of (AgentRoute.id preview) (st_db s) /\ RouteTarget.deploymentId t0 = did) ->
  upsert route_targets_table
    (fun a b => bool_decide (RouteTarget.routeId a = RouteTarget.routeId b)
                && bool_decide (RouteTarget.deploymentId a = RouteTarget.deploymentId b))
    (sole_target (AgentRoute.id preview) did)
    whole_weight s
    = (Ok t, s') ->
  routes_ok (st_db s') /\ targets_of (AgentRoute.id preview) (st_db s')
    = [sole_target (AgentRoute.id preview) did].
Proof.
  intros Hok Hr Hkind Hcase Hup. set (rid := AgentRoute.id preview) in *.
  assert (Hgoal : forall d', agentRoutes d' = agentRoutes (st_db s) -> keyed route_targets_table d' ->
    targets_of rid d' ≡ₚ [sole_target rid did] ->
    (forall rid', rid' <> rid -> targets_of rid' d' ≡ₚ targets_of rid' (st_db s)) ->
    routes_ok d' /\ targets_of rid d' = [sole_target rid did]).
  { intros d' Hr' Hk' Ht Ho. split; [|by apply Permutation_singleton_r in Ht].
    apply (routes_ok_replace (st_db s) d' rid [mk_route_target_input did (Some 10000%Z) None]);
      try done. apply sole_valid. }
  apply upsert_ok in Hup as [[Hnone Hins]|(t0 & Hk0 & Htg & -> & ->)]; [| |apply ro_targets; done].
  - apply insert_row_ok in Hins as (-> & Hn & _ & ->). simpl in Hn. apply Hgoal; [done| | |].
    + apply keyed_insert; [apply _|by apply ro_targets|done].
    + etransitivity; [exact (targets_insert rid _ _ (sole_target rid did) Hn)|]. simpl. rewrite bool_decide_eq_true_2 by done.
      destruct Hcase as [->|(t0 & Ht0 & Hd)]; [done|].
      apply elem_of_select in Ht0 as (Hrid & k & Hk). rewrite find_where_None in Hnone.
      specialize (Hnone k t0 Hk). apply bool_decide_eq_true in Hrid. simpl in Hnone.
      by rewrite Hrid, Hd, !bool_decide_eq_true_2 in Hnone.
    + intros rid' Hne. etransitivity; [exact (targets_insert rid' _ _ (sole_target rid did) Hn)|]. simpl.
      by rewrite bool_decide_eq_false_2 by congruence.
  - apply andb_true_iff in Htg as [Hrid%bool_decide_eq_true Hd%bool_decide_eq_true].
    simpl in Hrid, Hd, Hk0. fold rid in Hrid.
    destruct (targets_update (st_db s) _ t0 (whole_weight t0) Hk0 eq_refl) as [(rest & Ht & Ht') Ho].
    rewrite <- Hrid in Ht, Ht', Ho.
    pose proof (ro_preview _ Hok rid preview Hr Hkind) as Hlen. rewrite Ht in Hlen. simpl in Hlen.
    assert (rest = []) as -> by (destruct rest; [done|simpl in Hlen; lia]).
    simpl. rewrite <- Hrid. apply Hgoal; [done| | |exact Ho].
    + apply (keyed_insert route_targets_table (st_db s) _ (whole_weight t0)); [apply _|by apply ro_targets|].
      simpl. by rewrite Hrid.
    + etransitivity; [exact Ht'|]. unfold sole_target. destruct t0; simpl in *. by subst.
Qed.

Lemma project_route_ok pid d r :
  keyed agent_routes_table d -> project_route pid d = Some r ->
  agentRoutes d !! AgentRoute.id r = Some r /\ AgentRoute.projectId r = pid /\
  AgentRoute.kind r = RouteKind.project.
Proof.
  intros Hkey Hf. unfold project_route in Hf. apply find_where_Some in Hf as
    ([Hp%bool_decide_eq_true Hk%bool_decide_eq_true]%andb_true_iff & k & Hr).
  by rewrite (Hkey _ _ Hr : AgentRoute.id r = k).
Qed.

Lemma preview_route_ok pid did d r :
  keyed agent_routes_table d -> preview_route pid did d = Some r ->
  agentRoutes d !! AgentRoute.id r = Some r /\ AgentRoute.kind r = RouteKind.deployment /\
  exists t, t ∈ targets_of (AgentRoute.id r) d /\ RouteTarget.deploymentId t = did.
Proof.
  intros Hkey Hf. unfold preview_route in Hf. apply fmap_Some in Hf as ([r' t] & Hh & ->).
  apply head_Some_elem_of in Hh. apply list_elem_of_filter in Hh as [Hp Hin].
  apply andb_true_iff in Hp as [Hp Hd%bool_decide_eq_true].
  apply andb_true_iff in Hp as [_ Hk%bool_decide_eq_true]. simpl in *.
  apply elem_of_inner_join in Hin as (Hr & Ht & Hon). apply elem_of_rows in Hr as (k & Hr).
  rewrite (Hkey _ _ Hr : AgentRoute.id r' = k). split; [done|]. split; [done|]. exists t.
  split; [|done]. apply elem_of_select. apply elem_of_rows in Ht.
  rewrite (Hkey _ _ Hr : AgentRoute.id r' = k) in Hon. done.
Qed.


(** A project route without a target gets one of the whole weight. *)
Lemma seed_target_ok stable did s u s' :
  routes_ok (st_db s) -> agentRoutes (st_db s) !! AgentRoute.id stable = Some stable ->
  AgentRoute.kind stable <> RouteKind.deployment ->
  (match head (targets_of (AgentRoute.id stable) (st_db s)) with
   | Some _ => ret tt
   | None =>
       _t <- insert_row route_targets_table (sole_target (AgentRoute.id stable) did) ;; ret tt
   end) s = (Ok u, s') ->
  routes_ok (st_db s') /\ agentRoutes (st_db s') = agentRoutes (st_db s) /\
  forall rid, rid <> AgentRoute.id stable -> targets_of rid (st_db s') ≡ₚ targets_of rid (st_db s).
Proof.
  intros Hok Hr Hkind Hrun. set (rid := AgentRoute.id stable) in *.
  destruct (head (targets_of rid (st_db s))) eqn:Hhead; [by injection Hrun as _ <-|].
  apply head_None in Hhead. apply bind_ok in Hrun as (t & s1 & Hins & [= _ <-]).
  apply insert_row_ok in Hins as (-> & Hn & _ & ->). simpl in Hn.
  assert (Hto : forall rid', targets_of rid' ((st_db s) <| routeTargets ::=
      insert (rid, did) (sole_target rid did) |>) ≡ₚ
    (if bool_decide (rid = rid') then [sole_target rid did] else []) ++ targets_of rid' (st_db s))
    by (intros rid'; exact (targets_insert rid' _ _ (sole_target rid did) Hn)).
  assert (Hother : forall rid', rid' <> rid -> targets_of rid' ((st_db s) <| routeTargets ::=
      insert (rid, did) (sole_target rid did) |>) ≡ₚ targets_of rid' (st_db s))
    by (intros rid' Hne; rewrite Hto; by rewrite bool_decide_eq_false_2).
  split; [|by split]. simpl.
  apply (routes_ok_replace (st_db s) _ rid [mk_route_target_input did (Some 10000%Z) None]);
    try done.
  - by apply (keyed_insert route_targets_table); [apply _|apply ro_targets|].
  - rewrite Hto, Hhead. by rewrite bool_decide_eq_true_2.
  - apply sole_valid.
Qed.

(** The stable route of the project, placed. *)
Lemma stable_route_ok pid host s stable s' :
  place_route (project_route pid (st_db s)) pid host RouteKind.project s = (Ok (Some stable), s') ->
  routes_ok (st_db s) ->
  routes_ok (st_db s') /\ agentRoutes (st_db s') !! AgentRoute.id stable = Some stable /\
  AgentRoute.kind stable = RouteKind.project.
Proof.
  intros Hpl Hok. pose proof (fun r0 => project_route_ok pid (st_db s) r0 (ro_routes _ Hok)) as Hex.
  apply place_route_ok in Hpl as (Hdb & Hok' & _ & _ & Hst); [|done|intros; by apply Hex].
  split; [done|]. split; [rewrite Hdb; apply lookup_insert_eq|].
  destruct (project_route pid (st_db s)) as [r0|]; destruct Hst as [? Hst]; [|done].
  rewrite Hst. by apply Hex.
Qed.

(** The preview route of the deployment, placed beside it. *)
Lemma preview_placed_ok pid did host s preview s' stable :
  place_route (preview_route pid did (st_db s)) pid host RouteKind.deployment s
    = (Ok (Some preview), s') ->
  routes_ok (st_db s) ->
  agentRoutes (st_db s) !! AgentRoute.id stable = Some stable ->
  AgentRoute.kind stable = RouteKind.project ->
  routes_ok (st_db s') /\ agentRoutes (st_db s') !! AgentRoute.id preview = Some preview /\
  agentRoutes (st_db s') !! AgentRoute.id stable = Some stable /\
  AgentRoute.id preview <> AgentRoute.id stable /\
  AgentRoute.kind preview = RouteKind.deployment /\
  (targets_of (AgentRoute.id preview) (st_db s') = [] \/ exists t0,
     t0 ∈ targets_of (AgentRoute.id preview) (st_db s') /\ RouteTarget.deploymentId t0 = did).
Proof.
  intros Hpl Hok Hs Hsk.
  pose proof (fun r0 => preview_route_ok pid did (st_db s) r0 (ro_routes _ Hok)) as Hex.
  apply place_route_ok in Hpl as (Hdb & Hok' & _ & _ & Hpv); [|done|intros; by apply Hex].
  assert (Hne : AgentRoute.id preview <> AgentRoute.id stable).
  { intros Heq. destruct (preview_route pid did (st_db s)) as [r0|] eqn:Hr0.
    - destruct (Hex r0 eq_refl) as (Hr & Hk & _). destruct Hpv as [Hid _].
      rewrite Hid in Heq. rewrite <- Heq, Hr in Hs. injection Hs as ->. congruence.
    - destruct Hpv as [_ Hn]. rewrite Heq in Hn. congruence. }
  split; [done|]. split; [rewrite Hdb; apply lookup_insert_eq|].
  split; [rewrite Hdb; simpl; by rewrite lookup_insert_ne|]. split; [done|].
  destruct (preview_route pid did (st_db s)) as [r0|] eqn:Hr0.
  - destruct Hpv as [-> ->]. destruct (Hex r0 eq_refl) as (_ & Hk & Ht). split; [done|right].
    rewrite Hdb. exact Ht.
  - destruct Hpv as [-> Hn]. split; [done|left]. rewrite Hdb. exact (no_targets _ _ Hok Hn).
Qed.

Lemma seed_target_some rid did s u s' :
  (match head (targets_of rid (st_db s)) with
   | Some _ => ret tt
   | None => _t <- insert_row route_targets_table (sole_target rid did) ;; ret tt
   end) s = (Ok u, s') -> targets_of rid (st_db s') <> [].
Proof.
  intros Hrun. destruct (targets_of rid (st_db s)) as [|t l] eqn:Ht; simpl in Hrun.
  - apply bind_ok in Hrun as (t & s1 & Hins & [= _ <-]).
    apply insert_row_ok in Hins as (-> & Hn & _ & ->). simpl in Hn. intros Hnil.
    pose proof (targets_insert rid _ _ (sole_target rid did) Hn) as Hp. simpl in Hnil.
    rewrite Hnil, bool_decide_eq_true_2 in Hp by done. by apply Permutation_nil_l in Hp.
  - injection Hrun as _ <-. by rewrite Ht.
Qed.

(** The preview's upsert touches no other route. *)
Lemma upsert_routes rid did s t s' :
  keyed route_targets_table (st_db s) ->
  upsert route_targets_table
    (fun a b => bool_decide (RouteTarget.routeId a = RouteTarget.routeId b)
                && bool_decide (RouteTarget.deploymentId a = RouteTarget.deploymentId b))
    (sole_target rid did)
    whole_weight s
    = (Ok t, s') ->
  agentRoutes (st_db s') = agentRoutes (st_db s) /\
  forall rid', rid' <> rid -> targets_of rid' (st_db s') ≡ₚ targets_of rid' (st_db s).
Proof.
  intros Hkey Hup. apply upsert_ok in Hup as [[_ Hins]|(t0 & Hk0 & Htg & -> & ->)]; [| |done].
  - apply insert_row_ok in Hins as (-> & Hn & _ & ->). simpl in Hn. split; [done|].
    intros rid' Hne. etransitivity; [exact (targets_insert rid' _ _ (sole_target rid did) Hn)|]. simpl.
    by rewrite bool_decide_eq_false_2.
  - split; [done|]. simpl in Htg.
    apply andb_true_iff in Htg as [Hr%bool_decide_eq_true _]. simpl in Hr. subst rid. simpl.
    eapply (proj2 (targets_update (st_db s) _ t0 _ Hk0 _)).
    Unshelve. done.
Qed.

(** What a returning run leaves: the routes in order, and the preview's one
    target on the deployment. *)
Lemma ensureDeploymentRoutes_run pid did base s l s' :
  ensureDeploymentRoutes pid did base s = (Ok l, s') -> routes_ok (st_db s) ->
  routes_ok (st_db s') /\
  exists stable preview, l = [stable; preview] /\
    agentRoutes (st_db s') !! AgentRoute.id stable = Some stable /\
    agentRoutes (st_db s') !! AgentRoute.id preview = Some preview /\
    AgentRoute.kind stable = RouteKind.project /\ AgentRoute.kind preview = RouteKind.deployment /\
    targets_of (AgentRoute.id stable) (st_db s') <> [] /\
    targets_of (AgentRoute.id preview) (st_db s') = [sole_target (AgentRoute.id preview) did].
Proof.
  intros Hrun Hok. unfold ensureDeploymentRoutes in Hrun.
  apply bind_ok in Hrun as (domain & s1 & [= _ <-] & Hrun). rewrite transaction_ok in Hrun.
  apply bind_ok in Hrun as (p & s1 & [= <- <-] & Hrun).
  apply bind_ok in Hrun as (dep & s1 & [= <- <-] & Hrun).
  apply bind_ok in Hrun as (project & s1 & [_ ->]%some_or_ok & Hrun).
  apply bind_ok in Hrun as (deployment & s1 & [_ ->]%some_or_ok & Hrun).
  apply bind_ok in Hrun as (ex & s1 & [= <- <-] & Hrun).
  apply bind_ok in Hrun as (o & s1 & Hpl & Hrun).
  apply bind_ok in Hrun as (stable & s2 & [-> ->]%some_or_ok & Hrun).
  apply stable_route_ok in Hpl as (Hok1 & Hs1 & Hsk); [|done].
  apply bind_ok in Hrun as (ex2 & s2 & [= <- <-] & Hrun).
  apply bind_ok in Hrun as (o & s2 & Hpl & Hrun).
  apply bind_ok in Hrun as (preview & s3 & [-> ->]%some_or_ok & Hrun).
  destruct (preview_placed_ok _ _ _ _ _ _ stable Hpl Hok1 Hs1 Hsk)
    as (Hok2 & Hp2 & Hs2 & Hne & Hpk & Hcase).
  apply bind_ok in Hrun as (ex3 & s3 & [= <- <-] & Hrun).
  apply bind_ok in Hrun as ([] & s3 & Hmid & Hrun).
  pose proof (seed_target_some _ _ _ _ _ Hmid) as Hseed.
  apply seed_target_ok in Hmid as (Hok3 & Hr3 & Ho3); [|done|done|congruence].
  apply bind_ok in Hrun as (t & s4 & Hup & [= <- <-]).
  pose proof (upsert_routes _ _ _ _ _ (ro_targets _ Hok3) Hup) as [Hr4 Ho4].
  apply upsert_preview_ok in Hup as (Hok4 & Ht4); try done.
  2: by rewrite Hr3.
  2: { destruct Hcase as [Hnil|(t0 & Hin & Hd)].
       - left. specialize (Ho3 _ Hne). rewrite Hnil in Ho3. by apply Permutation_nil_r.
       - right. exists t0. by rewrite (Ho3 _ Hne). }
  split; [done|]. exists stable, preview. rewrite Hr4, Hr3. repeat (split; [done|]).
  split; [|done]. intros Hnil. apply Hseed, Permutation_nil_r.
  rewrite <- (Ho4 (AgentRoute.id stable)) by done. by rewrite Hnil.
Qed.

(** ** Changes of the routes' policy *)

(** Statements that touch neither the routes nor their targets. *)
Definition routes_frame : relation database :=
  fun d d' => agentRoutes d' = agentRoutes d /\ routeTargets d' = routeTargets d.

#[local] Instance routes_frame_preorder : PreOrder routes_frame.
Proof. split; [by split|]. intros d1 d2 d3 [H1 H2] [H3 H4]. split; congruence. Qed.

Lemma routes_frame_ok d d' : routes_frame d d' -> preserves routes_ok d d'.
Proof. intros [Hr Ht] Hok. by apply (routes_ok_frame d). Qed.

Ltac frame_routes :=
  first [ apply moves_insert_row; [apply _|] | apply moves_update_key; [apply _|]
        | apply moves_update_where; [apply _|] | apply moves_write ];
  intros; by split.

Lemma moves_applyTarget_routes pid did rev now :
  moves routes_frame (applySchedulerTargetTx pid did rev now).
Proof.
  unfold applySchedulerTargetTx, retarget. apply moves_bind; [apply _| |].
  - apply moves_upsert; [apply _|..]; intros; frame_routes.
  - walk; frame_routes.
Qed.

Lemma run_frame {A} (m : Tx A) s a s' :
  moves routes_frame m -> m s = (Ok a, s') -> routes_ok (st_db s) -> routes_ok (st_db s').
Proof.
  intros Hm Hrun. specialize (Hm s). unfold exec in Hm. rewrite Hrun in Hm.
  exact (routes_frame_ok _ _ Hm).
Qed.

Lemma bump_ok rid f s o s' :
  update_key agent_routes_table rid (fun _ => true) f s = (Ok o, s') ->
  (forall r, AgentRoute.id (f r) = AgentRoute.id r /\ AgentRoute.kind (f r) = AgentRoute.kind r) ->
  routes_ok (st_db s) -> routes_ok (st_db s').
Proof.
  intros Hup Hf Hok. apply update_key_ok in Hup as [(_ & -> & _)|(r & Hr & _ & -> & _ & ->)];
    [done|]. simpl in *. pose proof (ro_routes _ Hok _ _ Hr : AgentRoute.id r = rid) as Hid.
  destruct (Hf r) as [Hfid Hfk]. pose proof (routes_ok_row (st_db s) (f r) Hok) as Hgoal.
  rewrite Hfid, Hid in Hgoal. apply Hgoal. intros r0 Hr0. rewrite Hr in Hr0.
  injection Hr0 as <-. congruence.
Qed.

(** Replacing the targets of a route that is no preview, by valid ones. *)
Lemma policy_ok route ts s u s' :
  replace_targets (AgentRoute.id route) ts s = (Ok u, s') ->
  agentRoutes (st_db s) !! AgentRoute.id route = Some route ->
  AgentRoute.kind route <> RouteKind.deployment -> valid_targets ts ->
  routes_ok (st_db s) -> routes_ok (st_db s').
Proof.
  intros Hrun Hr Hkind Hval Hok.
  apply replace_targets_ok in Hrun as (Ht & Ho & Hk & Hdb); [|by apply ro_targets].
  apply (routes_ok_replace (st_db s) _ (AgentRoute.id route) ts); try done.
  - by rewrite Hdb.
  - intros r Hr'. rewrite Hr in Hr'. by injection Hr' as <-.
Qed.

Lemma check_loop_same {A} (check : A -> Tx unit) ts s u s' :
  (forall t s u s', check t s = (Ok u, s') -> s' = s) -> for_m ts check s = (Ok u, s') -> s' = s.
Proof.
  intros Hc. revert s. induction ts as [|t ts IH]; intros s Hrun; [by injection Hrun as _ <-|].
  apply bind_ok in Hrun as ([] & s1 & Ht & Hrun). apply Hc in Ht as ->. by apply IH.
Qed.

Lemma check_target_same pid t s u s' : check_target pid t s = (Ok u, s') -> s' = s.
Proof. intros Hrun. unfold check_target in Hrun. by inv_ok Hrun. Qed.

Lemma check_alias_same pid t s u s' : check_alias_target pid t s = (Ok u, s') -> s' = s.
Proof. intros Hrun. unfold check_alias_target in Hrun. by inv_ok Hrun. Qed.

Lemma moves_transaction_run {A} R `{!PreOrder R} (m : Tx A) :
  (forall s a s', m s = (Ok a, s') -> R (st_db s) (st_db s')) -> moves R (transaction m).
Proof.
  intros Hm s. destruct (transaction_db m s) as [->|[a Ha]]; [reflexivity|]. by apply Hm in Ha.
Qed.

Lemma updateRouteTargets_routes rid ts :
  moves (preserves routes_ok) (updateRouteTargets rid ts).
Proof.
  unfold updateRouteTargets. apply moves_bind_lift; [apply _|].
  intros [] Hval%validateRouteTargets_ok.
  apply moves_bind; [apply _| |walk]. apply moves_transaction_run; [apply _|].
  intros s u s' Hrun Hok.
  apply bind_ok in Hrun as (found & s1 & [= <- <-] & Hrun).
  apply bind_ok in Hrun as (route & s1 & [Hr ->]%some_or_ok & Hrun).
  apply bind_ok in Hrun as ([] & s1 & [Hk%bool_decide_eq_false ->]%throw_if_ok & Hrun).
  apply bind_ok in Hrun as ([] & s1 & Hchk & Hrun).
  apply check_loop_same in Hchk as ->; [|intros; by eapply check_target_same].
  apply bind_ok in Hrun as ([] & s1 & Hrep & Hrun).
  pose proof (ro_routes _ Hok _ _ Hr : AgentRoute.id route = rid) as <-.
  apply (policy_ok route) in Hrep; [|done..].
  apply bind_ok in Hrun as (now & s2 & [= <- <-] & Hrun).
  apply bind_ok in Hrun as (o & s2 & Hup & [= _ <-]).
  by apply bump_ok in Hup.
Qed.

Lemma promoteDeployment_routes pid did :
  moves (preserves routes_ok) (promoteDeployment pid did).
Proof.
  unfold promoteDeployment. apply moves_bind; [apply _| |walk].
  apply moves_transaction_run; [apply _|]. intros s u s' Hrun Hok. unfold promote in Hrun.
  apply bind_ok in Hrun as (found & s1 & [= <- <-] & Hrun).
  apply bind_ok in Hrun as (dep & s1 & [= <- <-] & Hrun).
  apply bind_ok in Hrun as (route & s1 & [Hr ->]%some_or_ok & Hrun).
  apply (project_route_ok pid _ _ (ro_routes _ Hok)) in Hr as (Hr & _ & Hk).
  apply bind_ok in Hrun as (deployment & s1 & [_ ->]%some_or_ok & Hrun).
  apply bind_ok in Hrun as ([] & s1 & [_ ->]%throw_if_ok & Hrun).
  apply bind_ok in Hrun as ([] & s1 & Hrep & Hrun).
  apply (policy_ok route) in Hrep; [|done|congruence|apply sole_valid|done].
  apply bind_ok in Hrun as (now & s2 & [= <- <-] & Hrun).
  apply bind_ok in Hrun as (o & s2 & Hup & Hrun). apply bump_ok in Hup; [|done|done].
  refine (run_frame _ _ _ _ _ Hrun Hup). walk; [frame_routes|].
  apply (moves_mono routes_frame); [done|apply moves_applyTarget_routes].
Qed.

(** The route at an alias's host name is no preview. *)
Definition alias_free (projectId alias baseDomain : string) (d : database) : Prop :=
  forall p domain r, projects d !! projectId = Some p -> normalizeBaseDomain baseDomain = Ok domain ->
    route_by_hostname (labelled_hostname alias (Project.slug p) domain) d = Some r ->
    AgentRoute.kind r <> RouteKind.deployment.

Lemma alias_route_ok existing pid host s row s' :
  (match existing with
   | Some existing =>
       now <- clock ;;
       update_key agent_routes_table (AgentRoute.id existing) (fun _ => true)
         (fun r => (bump_policy now r) <| AgentRoute.enabled := true |>)
   | None =>
       id <- createId "route" ;;
       now <- clock ;;
       row <- insert_row agent_routes_table
         (AgentRoute.mk id pid host RouteKind.alias true 1 now now) ;;
       ret (Some row)
   end) s = (Ok (Some row), s') ->
  routes_ok (st_db s) ->
  (forall r, existing = Some r -> agentRoutes (st_db s) !! AgentRoute.id r = Some r) ->
  routes_ok (st_db s') /\ agentRoutes (st_db s') !! AgentRoute.id row = Some row /\
  AgentRoute.kind row = match existing with Some r => AgentRoute.kind r | None => RouteKind.alias end.
Proof.
  intros Hrun Hok Hex. destruct existing as [r0|].
  - apply bind_ok in Hrun as (now & s1 & [= <- <-] & Hrun). specialize (Hex r0 eq_refl).
    pose proof Hrun as Hup. apply bump_ok in Hup; [|done|done]. split; [done|].
    apply update_key_ok in Hrun as [[? _]|(r & Hr & _ & [= ->] & _ & ->)]; [done|].
    simpl in *. rewrite Hex in Hr. injection Hr as <-. split; [apply lookup_insert_eq|done].
  - apply bind_ok in Hrun as (id & s1 & [= <- <-] & Hrun).
    apply bind_ok in Hrun as (now & s1 & [= <- <-] & Hrun).
    apply bind_ok in Hrun as (r & s1 & Hins & [= <- <-]).
    apply insert_row_ok in Hins as (-> & Hn & _ & ->). simpl in Hn. simpl.
    split; [|split; [apply lookup_insert_eq|done]].
    apply routes_ok_row; [done|]. simpl. intros r1 Hr1. congruence.
Qed.

Lemma ensureAliasRoute_routes pid alias base ts s :
  alias_free pid alias base (st_db s) ->
  preserves routes_ok (st_db s) (st_db (exec (ensureAliasRoute pid alias base ts) s)).
Proof.
  intros Hfree. revert s Hfree.
  assert (Htx : forall s host s', valid_targets ts ->
    alias_free pid alias base (st_db s) -> routes_ok (st_db s) ->
    alias_body pid alias base ts s = (Ok host, s') -> routes_ok (st_db s')).
  { intros s host s' Hval Hfree Hok Hrun. unfold alias_body in Hrun.
    apply bind_ok in Hrun as (found & s1 & [= <- <-] & Hrun).
    apply bind_ok in Hrun as (project & s1 & [Hp ->]%some_or_ok & Hrun).
    apply bind_ok in Hrun as ([] & s1 & Hchk & Hrun).
    apply check_loop_same in Hchk as ->; [|intros; by eapply check_alias_same].
    apply bind_ok in Hrun as (domain & s1 & [= Hdom <-] & Hrun).
    apply bind_ok in Hrun as (existing & s1 & [= Hexi <-] & Hrun).
    apply bind_ok in Hrun as (placed & s1 & Hpl & Hrun).
    apply bind_ok in Hrun as (route & s2 & [-> ->]%some_or_ok & Hrun).
    apply bind_ok in Hrun as ([] & s2 & Hrep & [= _ <-]).
    apply alias_route_ok in Hpl as (Hok1 & Hr & Hk); [|done|].
    - apply (policy_ok route) in Hrep; [done|done| |done|done]. rewrite Hk.
      destruct existing as [r0|]; [|done]. by eapply Hfree.
    - intros r ->. apply find_where_Some in Hexi as (_ & k & Hk').
      by rewrite (ro_routes _ Hok _ _ Hk' : AgentRoute.id r = k). }
  intros s Hfree Hok. unfold exec. destruct (ensureAliasRoute pid alias base ts s) as [res s'] eqn:Hrun.
  unfold ensureAliasRoute in Hrun. unfold bind at 1, lift in Hrun.
  destruct (validateRouteTargets ts) as [[]|e] eqn:Hval; [|by injection Hrun as _ <-].
  unfold bind at 1, throw_if in Hrun. destruct (valid_alias alias); [|by injection Hrun as _ <-].
  simpl in Hrun. unfold bind at 1 in Hrun.
  destruct (transaction (alias_body pid alias base ts) s) as [[host|e] s1] eqn:Htr.
  - rewrite transaction_ok in Htr. injection Hrun as _ <-. apply (Htx s host s1); [|done..].
    by apply validateRouteTargets_ok.
  - injection Hrun as _ <-. apply transaction_err in Htr. simpl. by rewrite Htr.
Qed.

Lemma ensureDeploymentRoutes_routes pid did base :
  moves (preserves routes_ok) (ensureDeploymentRoutes pid did base).
Proof.
  intros s Hok. unfold exec. destruct (ensureDeploymentRoutes pid did base s) as [[l|e] s'] eqn:Hrun.
  - by apply ensureDeploymentRoutes_run in Hrun as [? _].
  - unfold ensureDeploymentRoutes in Hrun. unfold bind at 1, lift in Hrun.
    destruct (normalizeBaseDomain base); [|injection Hrun as _ <-; done].
    apply transaction_err in Hrun. simpl. by rewrite Hrun.
Qed.

Lemma moves_claim_key {A} R `{!PreOrder R} (claim : string -> Tx (option A)) n k :
  (forall key, moves R (claim key)) -> moves R (claim_key_loop claim n k).
Proof.
  intros Hc. induction k as [|k IH]; simpl; [walk|].
  apply moves_bind; [done|by apply moves_pure|]. intros key. apply moves_bind; [done|done|].
  intros [a|]; [walk|done].
Qed.

Lemma moves_id_or_create R `{!PreOrder R} o prefix : moves R (id_or_create o prefix).
Proof. destruct o; simpl; walk. Qed.
#[local] Hint Resolve moves_id_or_create : moves.

Lemma recordDeployment_routes input : moves routes_frame (recordDeployment input).
Proof.
  unfold recordDeployment. walk; try frame_routes.
  apply moves_claim_key; [apply _|]. intros key. unfold claim_deployment. walk. frame_routes.
Qed.

Lemma bindings_routes :
  (forall input, moves routes_frame (bindOperation input)) /\
  (forall input, moves routes_frame (bindSession input)).
Proof.
  split; intros input.
  - unfold bindOperation, insert_or_ignore. walk; frame_routes.
  - unfold bindSession. apply moves_transaction; [apply _|].
    walk; [|frame_routes]. apply moves_upsert; [apply _|..]; intros; frame_routes.
Qed.

(** A write of the store, an alias not taking a preview's host name. *)
Inductive route_step (s : store) : store -> Prop :=
  | step_recordDeployment input : route_step s (exec (recordDeployment input) s)
  | step_updateDeploymentStatus did st :
      route_step s (exec (updateDeploymentStatus did st) s)
  | step_transitionDeploymentStatus did to from :
      route_step s (exec (transitionDeploymentStatus did to from) s)
  | step_ensureDeploymentRoutes pid did base :
      route_step s (exec (ensureDeploymentRoutes pid did base) s)
  | step_reconcileAgentRoutes base : route_step s (exec (reconcileAgentRoutes base) s)
  | step_updateRouteTargets rid ts : route_step s (exec (updateRouteTargets rid ts) s)
  | step_promoteDeployment pid did : route_step s (exec (promoteDeployment pid did) s)
  | step_ensureAliasRoute pid alias base ts :
      alias_free pid alias base (st_db s) ->
      route_step s (exec (ensureAliasRoute pid alias base ts) s)
  | step_bindOperation input : route_step s (exec (bindOperation input) s)
  | step_bindSession input : route_step s (exec (bindSession input) s).

Lemma route_step_ok s s' : route_step s s' -> routes_ok (st_db s) -> routes_ok (st_db s').
Proof.
  assert (Hfr : forall A (m : Tx A), moves routes_frame m ->
      routes_ok (st_db s) -> routes_ok (st_db (exec m s)))
    by (intros A m Hm; exact (routes_frame_ok _ _ (Hm s))).
  intros [input|did st|did to from|pid did base|base|rid ts|pid did|pid alias base ts Hfree
         |input|input].
  - apply Hfr, recordDeployment_routes.
  - apply Hfr. unfold updateDeploymentStatus. walk. frame_routes.
  - apply Hfr. unfold transitionDeploymentStatus. walk. frame_routes.
  - apply ensureDeploymentRoutes_routes.
  - revert s Hfr. intros s _. assert (Hm : moves (preserves routes_ok) (reconcileAgentRoutes base)); [|exact (Hm s)].
    unfold reconcileAgentRoutes. walk. apply ensureDeploymentRoutes_routes.
  - apply updateRouteTargets_routes.
  - apply promoteDeployment_routes.
  - by apply ensureAliasRoute_routes.
  - apply Hfr, bindings_routes.
  - apply Hfr, bindings_routes.
Qed.

Lemma no_routes_ok d : agentRoutes d = ∅ -> routeTargets d = ∅ -> routes_ok d.
Proof.
  intros Hr Ht. assert (Hto : forall rid, targets_of rid d = [])
    by (intros rid; unfold targets_of; by rewrite Ht).
  constructor; intros; rewrite ?Hto in *; try done.
  - intros k r. simpl. by rewrite Hr.
  - intros k r. simpl. by rewrite Ht.
  - by apply not_elem_of_nil in H0.
  - simpl. lia.
Qed.

(** A preview with a target has one, of the whole weight. *)
Lemma preview_sole d rid r :
  routes_ok d -> agentRoutes d !! rid = Some r -> AgentRoute.kind r = RouteKind.deployment ->
  targets_of rid d <> [] ->
  exists did v, targets_of rid d = [RouteTarget.mk rid did 10000%Z v].
Proof.
  intros Hok Hr Hk Hnn. pose proof (ro_preview _ Hok rid r Hr Hk) as Hle.
  pose proof (ro_valid _ Hok rid Hnn) as Hval.
  destruct (targets_of rid d) as [|t l] eqn:Hl; [done|].
  destruct l; [|simpl in Hle; lia]. pose proof (vt_total _ Hval) as Htot.
  unfold weights, Routing.weight in Htot. simpl in Htot.
  assert (Hin : t ∈ targets_of rid d) by (rewrite Hl; by left).
  apply elem_of_select in Hin as [Hid%bool_decide_eq_true _].
  exists (RouteTarget.deploymentId t), (RouteTarget.variantName t).
  destruct t; simpl in *. subst. by rewrite <- Htot, Z.add_0_r.
Qed.

Lemma route_steps_ok s s' :
  rtc route_step s s' -> agentRoutes (st_db s) = ∅ -> routeTargets (st_db s) = ∅ ->
  routes_ok (st_db s').
Proof.
  intros Hsteps Hr Ht. pose proof (no_routes_ok _ Hr Ht) as Hok. clear Hr Ht.
  induction Hsteps as [|s s1 s' Hst _ IH]; [done|]. by apply IH, (route_step_ok s).
Qed.

(** C10. From empty route tables on, whatever the writes of the store (as long
    as no alias takes the host name of a preview), a route with targets exists
    and its stored targets are ones [validateRouteTargets] accepts: the gateway
    always finds a target of positive weight on it, for every affinity key; a
    preview's single target holds the whole weight. *)
Theorem stored_targets_stay_valid s s' rid :
  rtc route_step s s' -> agentRoutes (st_db s) = ∅ -> routeTargets (st_db s) = ∅ ->
  targets_of rid (st_db s') <> [] ->
  validateRouteTargets (target_input <$> targets_of rid (st_db s')) = Ok tt /\
  (exists r, agentRoutes (st_db s') !! rid = Some r /\
     (AgentRoute.kind r = RouteKind.deployment ->
        exists did v, targets_of rid (st_db s') = [RouteTarget.mk rid did 10000%Z v])) /\
  forall key route, exists row,
    selectWeightedTarget (target_input <$> targets_of rid (st_db s')) key route
      = Ok (Some (target_input row)) /\
    row ∈ targets_of rid (st_db s') /\ (0 < RouteTarget.weight row)%Z.
Proof.
  intros Hsteps Hr Ht Hnn. pose proof (route_steps_ok _ _ Hsteps Hr Ht) as Hok.
  pose proof (ro_valid _ Hok rid Hnn) as Hval.
  split; [by apply validateRouteTargets_ok|]. split.
  - destruct (targets_of rid (st_db s')) as [|t l] eqn:Hl; [done|].
    destruct (ro_placed _ Hok rid t) as [r Hr']; [rewrite Hl; by left|]. exists r.
    split; [done|]. intros Hk. rewrite <- Hl. apply (preview_sole _ _ r Hok Hr' Hk). by rewrite Hl.
  - intros key route. destruct (select_valid _ key route Hval) as (t & Hsel & Hin & Hw).
    apply list_elem_of_fmap in Hin as (row & -> & Hin). by exists row.
Qed.

(** A route whose policy is bumped by an alias. *)
Lemma bumped_row r s row s' :
  agentRoutes (st_db s) !! AgentRoute.id r = Some r ->
  (now <- clock ;;
   update_key agent_routes_table (AgentRoute.id r) (fun _ => true)
     (fun r => (bump_policy now r) <| AgentRoute.enabled := true |>)) s = (Ok (Some row), s') ->
  AgentRoute.id row = AgentRoute.id r /\
  agentRoutes (st_db s') !! AgentRoute.id r = Some row /\
  (keyed route_targets_table (st_db s) -> keyed route_targets_table (st_db s')) /\
  AgentRoute.kind row = AgentRoute.kind r /\
  AgentRoute.policyRevision row = Z.succ (AgentRoute.policyRevision r).
Proof.
  intros Hr Hrun. apply bind_ok in Hrun as (now & s1 & [= <- <-] & Hrun).
  apply update_key_ok in Hrun as [[? _]|(r0 & Hr0 & _ & [= ->] & _ & ->)]; [done|].
  simpl in *. rewrite Hr in Hr0. injection Hr0 as <-. rewrite lookup_insert_eq. done.
Qed.

Lemma preview_immutable r ts s :
  agentRoutes (st_db s) !! AgentRoute.id r = Some r -> AgentRoute.kind r = RouteKind.deployment ->
  validateRouteTargets ts = Ok tt ->
  updateRouteTargets (AgentRoute.id r) ts s
    = (Err (Error "Deployment preview routes are immutable."), s).
Proof.
  intros Hr Hk Hval. unfold updateRouteTargets, bind, lift, transaction, read, gets, some_or, throw_if.
  rewrite Hval, Hr. simpl. rewrite bool_decide_eq_true_2 by done. simpl. by destruct s.
Qed.

(** An alias equal to a deployment's key takes the host name of that
    deployment's preview: [ensureAliasRoute] finds the preview's route at its
    host name and replaces its targets, which [updateRouteTargets] refuses to
    do because previews are immutable. *)
Lemma alias_overwrites_preview pid alias base ts s o s' p domain r :
  routes_ok (st_db s) -> ensureAliasRoute pid alias base ts s = (Ok o, s') ->
  projects (st_db s) !! pid = Some p -> normalizeBaseDomain base = Ok domain ->
  route_by_hostname (labelled_hostname alias (Project.slug p) domain) (st_db s) = Some r ->
  AgentRoute.kind r = RouteKind.deployment ->
  targets_of (AgentRoute.id r) (st_db s') ≡ₚ target_row (AgentRoute.id r) <$> ts /\
  (exists r', agentRoutes (st_db s') !! AgentRoute.id r = Some r' /\
     AgentRoute.kind r' = RouteKind.deployment /\
     AgentRoute.policyRevision r' = Z.succ (AgentRoute.policyRevision r)) /\
  updateRouteTargets (AgentRoute.id r) ts s
    = (Err (Error "Deployment preview routes are immutable."), s).
Proof.
  intros Hok Hrun Hp Hdom Hhost Hk. unfold ensureAliasRoute in Hrun.
  apply bind_ok in Hrun as ([] & s1 & [= Hval <-] & Hrun).
  apply bind_ok in Hrun as ([] & s1 & [_ ->]%throw_if_ok & Hrun).
  apply bind_ok in Hrun as (host & s1 & Hbody & [= _ <-]). rewrite transaction_ok in Hbody.
  unfold alias_body in Hbody.
  apply bind_ok in Hbody as (found & s2 & [= <- <-] & Hbody).
  apply bind_ok in Hbody as (project & s2 & [Hp' ->]%some_or_ok & Hbody).
  rewrite Hp in Hp'. injection Hp' as <-.
  apply bind_ok in Hbody as ([] & s2 & Hchk & Hbody).
  apply check_loop_same in Hchk as ->; [|intros; by eapply check_alias_same].
  apply bind_ok in Hbody as (domain' & s2 & [= Hdom' <-] & Hbody).
  rewrite Hdom in Hdom'. injection Hdom' as <-.
  apply bind_ok in Hbody as (existing & s2 & [= <- <-] & Hbody). rewrite Hhost in Hbody.
  apply bind_ok in Hbody as (placed & s2 & Hpl & Hbody).
  apply bind_ok in Hbody as (route & s3 & [-> ->]%some_or_ok & Hbody).
  apply bind_ok in Hbody as ([] & s3 & Hrep & [= _ <-]).
  apply find_where_Some in Hhost as (_ & k & Hr).
  rewrite <- (ro_routes _ Hok _ _ Hr : AgentRoute.id r = k) in Hr.
  destruct (bumped_row _ _ _ _ Hr Hpl) as (Hid & Hrow & Hkeyed & Hkind & Hrev).
  rewrite Hid in Hrep. apply replace_targets_ok in Hrep as (Ht & _ & _ & Hdb); [|by apply Hkeyed, Hok].
  split; [done|]. split; [|by apply preview_immutable].
  exists route. rewrite Hdb. simpl. by rewrite Hrow, Hkind, Hk.
Qed.

(** ** Promotion *)

Definition promoted (did : string) (dep : Deployment.deployment_row) (now : time)
    (p : Project.project_row) : Project.project_row :=
  p <| Project.deploymentId := Some did |>
    <| Project.releaseId := Some (Deployment.releaseId dep) |>
    <| Project.deploymentStatus := Deployment.status dep |> <| Project.updatedAt := now |>.

(** What the steps of a promotion leave of the other tables. *)
Lemma applyTarget_frame pid did rev now s t s' :
  applySchedulerTargetTx pid did rev now s = (Ok t, s') ->
  agentRoutes (st_db s') = agentRoutes (st_db s) /\ routeTargets (st_db s') = routeTargets (st_db s) /\
  projects (st_db s') = projects (st_db s).
Proof.
  intros Hrun.
  set (R := fun d d' => agentRoutes d' = agentRoutes d /\ routeTargets d' = routeTargets d /\
    projects d' = projects d).
  assert (Hpre : PreOrder R).
  { split; [by split|]. intros d1 d2 d3 (?&?&?) (?&?&?). repeat split; congruence. }
  assert (Hm : moves R (applySchedulerTargetTx pid did rev now)).
  { unfold applySchedulerTargetTx, retarget. apply moves_bind; [apply _| |].
    - apply moves_upsert; [apply _|..]; intros;
        [apply moves_insert_row; [apply _|]|apply moves_update_key; [apply _|]]; by repeat split.
    - walk. apply moves_update_key; [apply _|]. by repeat split. }
  specialize (Hm s). unfold exec in Hm. by rewrite Hrun in Hm.
Qed.

Lemma replace_clock rid ts s u s' : replace_targets rid ts s = (Ok u, s') -> st_clock s' = st_clock s.
Proof.
  intros Hrun. unfold replace_targets in Hrun. apply bind_ok in Hrun as ([] & s1 & [= <-] & Hrun).
  match type of Hrun with for_m _ _ ?s1 = _ => change (st_clock s) with (st_clock s1); revert Hrun;
    generalize s1 end. clear s. induction ts as [|t ts IH]; intros s Hrun; [by injection Hrun as _ <-|].
  apply bind_ok in Hrun as ([] & s1 & Hput & Hrun). rewrite (IH s1 Hrun).
  apply bind_ok in Hput as (row & s2 & Hins & [= <-]).
  by apply insert_row_ok in Hins as (_ & _ & _ & ->).
Qed.

(** The project's row, if there is one, and nothing else. *)
Lemma project_updated pid f s o s' :
  update_key projects_table pid (fun _ => true) f s = (Ok o, s') ->
  st_db s' = (st_db s) <| projects ::= alter f pid |>.
Proof.
  intros Hup. apply update_key_ok in Hup as [(_ & -> & Hn)|(p & Hp & _ & _ & _ & ->)].
  - simpl in Hn. destruct (projects (st_db s) !! pid) as [p|] eqn:Hp; [by specialize (Hn p eq_refl)|].
    assert (Ha : alter f pid (projects (st_db s)) = projects (st_db s)).
    { apply map_eq. intros k. destruct (decide (k = pid)) as [->|Hne];
        [by rewrite lookup_alter_eq, Hp|by rewrite lookup_alter_ne]. }
    unfold set_field. simpl. rewrite Ha. by destruct (st_db s).
  - simpl in *. unfold set_field. simpl. f_equal. apply map_eq. intros k.
    destruct (decide (k = pid)) as [->|Hne];
      [by rewrite lookup_insert_eq, lookup_alter_eq, Hp|
       by rewrite lookup_insert_ne, lookup_alter_ne].
Qed.

Lemma promote_ok pid did s host s' :
  routes_ok (st_db s) -> keyed project_schedules_table (st_db s) ->
  keyed scheduler_targets_table (st_db s) ->
  promote pid did s = (Ok host, s') ->
  exists route dep, project_route pid (st_db s) = Some route /\
    deployment_in pid did (st_db s) = Some dep /\
    Deployment.status dep = DeploymentStatus.running /\
    is_Some (releases (st_db s) !! Deployment.releaseId dep) /\
    host = AgentRoute.hostname route /\
    targets_of (AgentRoute.id route) (st_db s') = [sole_target (AgentRoute.id route) did] /\
    (forall rid, rid <> AgentRoute.id route ->
       targets_of rid (st_db s') ≡ₚ targets_of rid (st_db s)) /\
    agentRoutes (st_db s')
      = <[AgentRoute.id route := bump_policy (st_clock s) route]> (agentRoutes (st_db s)) /\
    projects (st_db s') = alter (promoted did dep (st_clock s)) pid (projects (st_db s)) /\
    exists t, projectSchedulerTargets (st_db s') !! pid = Some t /\
      SchedulerTarget.deploymentId t = did.
Proof.
  intros Hok Hks Hkt Hrun. unfold promote in Hrun.
  apply bind_ok in Hrun as (found & s1 & [= <- <-] & Hrun).
  apply bind_ok in Hrun as (found & s1 & [= <- <-] & Hrun).
  apply bind_ok in Hrun as (route & s1 & [Hr ->]%some_or_ok & Hrun).
  apply bind_ok in Hrun as (dep & s1 & [Hdep ->]%some_or_ok & Hrun).
  apply bind_ok in Hrun as ([] & s1 & [Hst%negb_false_iff%bool_decide_eq_true ->]%throw_if_ok & Hrun).
  apply bind_ok in Hrun as ([] & s1 & Hrep & Hrun).
  pose proof (replace_clock _ _ _ _ _ Hrep) as Hclock.
  apply replace_targets_ok in Hrep as (Ht & Ho & _ & Hdb); [|apply Hok].
  apply bind_ok in Hrun as (now & s2 & [= <- <-] & Hrun). rewrite Hclock in Hrun.
  apply bind_ok in Hrun as (o & s2 & Hup & Hrun).
  destruct (project_route_ok _ _ _ (ro_routes _ Hok) Hr) as (Hrow & _ & _).
  apply update_key_ok in Hup as [(_ & _ & Hnone)|(r0 & Hr0 & _ & _ & _ & ->)].
  { simpl in Hnone. rewrite Hdb in Hnone. simpl in Hnone. by specialize (Hnone _ Hrow). }
  simpl in Hr0. rewrite Hdb in Hr0. simpl in Hr0. rewrite Hrow in Hr0. injection Hr0 as <-.
  apply bind_ok in Hrun as (op & s2 & Hproj & Hrun).
  apply bind_ok in Hrun as (found & s3 & [= <- <-] & Hrun).
  apply bind_ok in Hrun as (rel & s3 & [Hrel ->]%some_or_ok & Hrun).
  apply bind_ok in Hrun as (t & s3 & Htg & [= <- <-]).
  apply project_updated in Hproj. rewrite Hproj in Hrel.
  pose proof (applyTarget_frame _ _ _ _ _ _ _ Htg) as (Fr & Ft & Fp).
  apply applySchedulerTargetTx_ok in Htg as (Hset & Hd & _).
  2, 3: intros k r; rewrite Hproj; simpl; rewrite Hdb; simpl; first [apply Hks|apply Hkt].
  exists route, dep. do 3 (split; [done|]).
  split; [simpl in Hrel; rewrite Hdb in Hrel; by eexists|]. split; [done|].
  unfold targets_of. rewrite Ft, Fr, Fp, Hproj. simpl.
  split; [by apply Permutation_singleton_r in Ht|]. split; [done|].
  rewrite Hdb. simpl. split; [done|]. split; [done|]. by exists t.
Qed.

(** C11. Promotion is all or nothing.  When it returns, the project's stable
    route has the deployment, which belongs to the project and runs, as its
    sole target; the route's policy revision is one higher, the project's row
    and the scheduler's target name the deployment, and every other route is
    as it was.  When it throws, no table has changed, and a missing route, a
    missing deployment and a deployment that does not run are told apart, in
    this order. *)
Theorem promoteDeployment_all_or_nothing pid did s :
  routes_ok (st_db s) -> keyed project_schedules_table (st_db s) ->
  keyed scheduler_targets_table (st_db s) ->
  match promoteDeployment pid did s with
  | (Ok _, s') => exists route dep, project_route pid (st_db s) = Some route /\
      deployment_in pid did (st_db s) = Some dep /\
      Deployment.status dep = DeploymentStatus.running /\
      targets_of (AgentRoute.id route) (st_db s') = [sole_target (AgentRoute.id route) did] /\
      (forall rid, rid <> AgentRoute.id route ->
         targets_of rid (st_db s') ≡ₚ targets_of rid (st_db s)) /\
      agentRoutes (st_db s')
        = <[AgentRoute.id route := bump_policy (st_clock s) route]> (agentRoutes (st_db s)) /\
      projects (st_db s') = alter (promoted did dep (st_clock s)) pid (projects (st_db s)) /\
      exists t, projectSchedulerTargets (st_db s') !! pid = Some t /\
        SchedulerTarget.deploymentId t = did
  | (Err e, s') => st_db s' = st_db s /\
      match project_route pid (st_db s), deployment_in pid did (st_db s) with
      | None, _ => e = ProjectRouteNotFoundError
      | Some _, None => e = DeploymentNotFoundError
      | Some _, Some dep => Deployment.status dep <> DeploymentStatus.running ->
          e = DeploymentNotPromotableError
                ("A promoted deployment must be running, but this one is "
                 +:+ status_text (Deployment.status dep) +:+ ".")
      end
  end.
Proof.
  intros Hok Hks Hkt. destruct (promoteDeployment pid did s) as [[o|e] s'] eqn:Hrun.
  - unfold promoteDeployment in Hrun. apply bind_ok in Hrun as (host & s1 & Htx & [= _ <-]).
    rewrite transaction_ok in Htx.
    apply promote_ok in Htx as (route & dep & H1 & H2 & H3 & _ & _ & H4); [|done..].
    by exists route, dep.
  - unfold promoteDeployment, bind at 1 in Hrun.
    destruct (transaction (promote pid did) s) as [[host|e'] s1] eqn:Htx; [done|].
    injection Hrun as -> ->. split; [by apply transaction_err in Htx|].
    unfold transaction, promote, bind, read, gets, some_or, throw_if, throw, ret in Htx.
    destruct (project_route pid (st_db s)) as [route|]; [|by injection Htx as <- _].
    destruct (deployment_in pid did (st_db s)) as [dep|]; [|by injection Htx as <- _].
    intros Hst. rewrite bool_decide_eq_false_2 in Htx by done. by injection Htx as <- _.
Qed.
End RouteFacts.

(** ** Witnesses *)
Section RouteWitnesses.
#[local] Existing Instance sample_platform.

(** A project with two running deployments, whose keys are labels. *)
Definition two_database : database :=
  sample_database
    <| releases := {[ "rel_1" := Release.mk "rel_1" "p" "srev_1" "img" None None "none" None None
                        None None "none" false 0 ]} |>
    <| deployments := {[
         "dep_1" := (sample_deployment "p" "dep_1" DeploymentStatus.running)
                      <| Deployment.deploymentKey := "k1" |>;
         "dep_2" := (sample_deployment "p" "dep_2" DeploymentStatus.running)
                      <| Deployment.deploymentKey := "k2" |> ]} |>.

Definition split_targets : list route_target_input :=
  [mk_route_target_input "dep_2" (Some 6000%Z) None;
   mk_route_target_input "dep_1" (Some 4000%Z) (Some "canary")].

Definition rw0 : store := sample_store two_database.
Definition rw1 : store := exec (ensureDeploymentRoutes "p" "dep_1" " .Agents.Example. ") rw0.
Definition rw2 : store := exec (ensureAliasRoute "p" "canary" "agents.example" split_targets) rw1.

Lemma canary_free : alias_free "p" "canary" "agents.example" (st_db rw1).
Proof.
  intros p domain r Hp Hd Hr. vm_compute in Hp, Hd. injection Hp as <-. injection Hd as <-.
  exfalso. vm_compute in Hr. discriminate.
Qed.

Lemma route_steps_rw2 : rtc route_step rw0 rw2.
Proof.
  apply (rtc_l _ _ rw1); [apply step_ensureDeploymentRoutes|].
  apply (rtc_l _ _ rw2); [apply step_ensureAliasRoute, canary_free | apply rtc_refl].
Qed.

Lemma routes_ok_rw2 : routes_ok (st_db rw2).
Proof. exact (route_steps_ok rw0 rw2 route_steps_rw2 eq_refl eq_refl). Qed.

Lemma routes_ok_rw1 : routes_ok (st_db rw1).
Proof.
  apply (route_steps_ok rw0 rw1); [|reflexivity..].
  apply rtc_once, step_ensureDeploymentRoutes.
Qed.

Lemma stored_targets_stay_valid_witness :
  exists rid, targets_of rid (st_db rw2) <> [] /\
    validateRouteTargets (target_input <$> targets_of rid (st_db rw2)) = Ok tt /\
    forall key route, exists row,
      selectWeightedTarget (target_input <$> targets_of rid (st_db rw2)) key route
        = Ok (Some (target_input row)) /\
      row ∈ targets_of rid (st_db rw2) /\ (0 < RouteTarget.weight row)%Z.
Proof.
  exists "route_2". assert (Hnn : targets_of "route_2" (st_db rw2) <> []) by (by vm_compute).
  destruct (stored_targets_stay_valid rw0 rw2 "route_2" route_steps_rw2 eq_refl eq_refl Hnn)
    as (Hv & _ & Hsel).
  exact (conj Hnn (conj Hv Hsel)).
Defined.

(** The alias [k1] takes the preview of [dep_1]; the next deployment of it
    leaves the preview with targets no request can be routed on. *)
Definition rw3 : store := exec (ensureAliasRoute "p" "k1" "agents.example" split_targets) rw2.
Definition rw4 : store := exec (ensureDeploymentRoutes "p" "dep_1" "agents.example") rw3.

Lemma alias_overwrites_preview_witness :
  exists r, route_by_hostname "k1--p.agents.example" (st_db rw2) = Some r /\
    AgentRoute.kind r = RouteKind.deployment /\
    targets_of (AgentRoute.id r) (st_db rw3) ≡ₚ target_row (AgentRoute.id r) <$> split_targets /\
    validateRouteTargets (target_input <$> targets_of (AgentRoute.id r) (st_db rw4))
      = Err (Error "Route target weights must total 10,000 basis points.").
Proof.
  destruct (route_by_hostname "k1--p.agents.example" (st_db rw2)) as [r|] eqn:Hr;
    [|by vm_compute in Hr].
  assert (Hid : AgentRoute.id r = "route_1" /\ AgentRoute.kind r = RouteKind.deployment)
    by (vm_compute in Hr; by injection Hr as <-).
  destruct Hid as [Hid Hk].
  destruct (ensureAliasRoute "p" "k1" "agents.example" split_targets rw2) as [[o|e] s'] eqn:Hrun;
    [|by vm_compute in Hrun].
  assert (Hs' : s' = rw3) by (unfold rw3, exec; by rewrite Hrun). subst s'.
  destruct (alias_overwrites_preview "p" "k1" "agents.example" split_targets rw2 o rw3
    (sample_project "p") "agents.example" r routes_ok_rw2 Hrun) as (Ht & _);
    [by vm_compute..|exact Hr|exact Hk|].
  exists r. assert (Hv : validateRouteTargets (target_input <$> targets_of "route_1" (st_db rw4))
    = Err (Error "Route target weights must total 10,000 basis points.")) by (by vm_compute).
  rewrite <- Hid in Hv. exact (conj eq_refl (conj Hk (conj Ht Hv))).
Defined.

Lemma promoteDeployment_all_or_nothing_witness :
  match promoteDeployment "p" "dep_2" rw1 with
  | (Ok _, s') => exists route, project_route "p" (st_db rw1) = Some route /\
      targets_of (AgentRoute.id route) (st_db s') = [sole_target (AgentRoute.id route) "dep_2"]
  | (Err _, _) => False
  end.
Proof.
  assert (Hks : keyed project_schedules_table (st_db rw1)) by (intros k r Hk; by vm_compute in Hk).
  assert (Hkt : keyed scheduler_targets_table (st_db rw1)) by (intros k r Hk; by vm_compute in Hk).
  pose proof (promoteDeployment_all_or_nothing "p" "dep_2" rw1 routes_ok_rw1 Hks Hkt) as Hspec.
  destruct (promoteDeployment "p" "dep_2" rw1) as [[o|e] s'] eqn:Hrun.
  - destruct Hspec as (route & dep & H1 & _ & _ & H2 & _). exists route. exact (conj H1 H2).
  - vm_compute in Hrun. discriminate.
Defined.
End RouteWitnesses.
