(* ===== verification/Transcript.v ===== *)
(** * Session transcripts

    [packages/core/src/transcript.ts]: the turns a list of Eve events builds,
    the grouping of a turn's items for display, and the tree of a session's
    nodes, where a delegated node hangs below the tool call that opened it.

    A tool call is one mutable object that the items of its turn, the map from
    call identifiers and, later, the tree share: the calls of a node are a heap
    here, and an item holds the address of its call.  A child is named by the
    identifier of its node.  [eventAt] is opaque text. *)

From S2P Require Import Prelude Strings EveEvents.
From stdpp Require Import gmap.

Open Scope eve_scope.
Open Scope string_scope.

(** ** Data *)

Module CallStatus.
Inductive call_status := completed | failed | cancelled | pending.
End CallStatus.
Module TurnStatus.
Inductive turn_status := completed | failed | cancelled | incomplete.
End TurnStatus.
Module ActivityStatus.
Inductive activity_status := completed | failed | cancelled | running.
End ActivityStatus.
Export CallStatus (call_status).
Export TurnStatus (turn_status).
Export ActivityStatus (activity_status).

#[export] Instance call_status_eq_dec : EqDecision call_status.
Proof. solve_decision. Defined.
#[export] Instance turn_status_eq_dec : EqDecision turn_status.
Proof. solve_decision. Defined.

Record transcript_event : Type := mk_transcript_event {
  te_type : string; te_payload : json; te_eventAt : string; te_sessionNodeId : option string
}.

Record transcript_source_node : Type := mk_source_node {
  sn_id : string; sn_eveSessionId : option string; sn_parentNodeId : option string;
  sn_nodeId : option string; sn_agentId : option string; sn_agentName : option string;
  sn_status : option string; sn_resolutionStatus : option string; sn_remoteUrl : option string
}.

Record transcript_usage : Type := mk_usage {
  tu_inputTokens : jsnum; tu_outputTokens : jsnum; tu_cacheReadTokens : jsnum;
  tu_cacheWriteTokens : jsnum
}.

Record tool_call : Type := mk_tool_call {
  tc_callId : option string; tc_name : string; tc_isSubagent : bool; tc_input : json;
  tc_output : json; tc_status : call_status; tc_errorText : option string;
  tc_usage : option transcript_usage; tc_targetNodeId : option string;
  tc_childEveSessionId : option string; tc_eventAt : string; tc_child : option string
}.
#[export] Instance eta_tool_call : Eta tool_call := fun c =>
  mk_tool_call (tc_callId c) (tc_name c) (tc_isSubagent c) (tc_input c) (tc_output c)
    (tc_status c) (tc_errorText c) (tc_usage c) (tc_targetNodeId c) (tc_childEveSessionId c)
    (tc_eventAt c) (tc_child c).

(** [IsTool] holds the address of its call. *)
Inductive transcript_item :=
  | IsUser (text eventAt : string)
  | IsAssistant (text eventAt : string)
  | IsReasoning (text eventAt : string)
  | IsTool (call : nat)
  | IsSystem (label : string) (text : option string) (eventAt : string).

Record transcript_turn : Type := mk_turn {
  tt_turnId : option string; tt_startedAt : string; tt_items : list transcript_item;
  tt_userMessage : option string; tt_assistantMessage : option string; tt_status : turn_status;
  tt_usage : option transcript_usage
}.
#[export] Instance eta_transcript_turn : Eta transcript_turn := fun t =>
  mk_turn (tt_turnId t) (tt_startedAt t) (tt_items t) (tt_userMessage t)
    (tt_assistantMessage t) (tt_status t) (tt_usage t).

(** ** Reading a payload *)

Definition asRecord (value : option json) : option json :=
  match value with Some (JObj fs) => Some (JObj fs) | _ => None end.

Definition asNumber (value : option json) : jsnum :=
  match value with Some (JNum n) => if js_is_finite n then n else js_zero | _ => js_zero end.

(** [payload?.[key]] as a string. *)
Definition text_field (key : string) (payload : option json) : option string :=
  json_string (record_field key payload).

(** ["key" in payload ? payload[key] : null] *)
Definition value_field (key : string) (payload : option json) : json :=
  default JNull (record_field key payload).

Definition part_texts (parts : list json) : string :=
  String.concat "" (omap (fun part => text_field "text" (Some part)) parts).

Definition messageText (payload : option json) : string :=
  match or_else (text_field "message" payload)
          (or_else (text_field "text" payload) (text_field "content" payload)) with
  | Some direct => direct
  | None => match record_field "parts" payload with
            | Some (JArr parts) => part_texts parts
            | _ => ""
            end
  end.

Definition errorMessage (payload : option json) : option string :=
  let error := record_field "error" payload in
  or_else (json_string error)
    (or_else (text_field "message" error)
       (or_else (text_field "reason" payload) (text_field "message" payload))).

Definition usageFrom (value : option json) : option transcript_usage :=
  match asRecord value with
  | Some usage =>
      let number key := asNumber (record_field key (Some usage)) in
      Some (mk_usage (number "inputTokens") (number "outputTokens") (number "cacheReadTokens")
              (number "cacheWriteTokens"))
  | None => None
  end.

Definition addUsage (base : option transcript_usage) (extra : transcript_usage)
    : transcript_usage :=
  match base with
  | None => extra
  | Some b =>
      mk_usage (js_add (tu_inputTokens b) (tu_inputTokens extra))
        (js_add (tu_outputTokens b) (tu_outputTokens extra))
        (js_add (tu_cacheReadTokens b) (tu_cacheReadTokens extra))
        (js_add (tu_cacheWriteTokens b) (tu_cacheWriteTokens extra))
  end.

Section Stringify.
(** [Number.prototype.toString]: the text of a number in JSON. *)
Variable number_text : jsnum -> string.

(** [JSON.stringify] of a value that came from JSON. *)
Fixpoint stringify (j : json) : string :=
  match j with
  | JNull => "null"
  | JBool true => "true"
  | JBool false => "false"
  | JNum n => if js_is_finite n then number_text n else "null"
  | JStr s => json_quote s
  | JArr l => "[" +:+ String.concat "," (List.map stringify l) +:+ "]"
  | JObj fs =>
      "{" +:+ String.concat "," (List.map (fun kv =>
                 let '(k, v) := kv in json_quote k +:+ ":" +:+ stringify v) fs) +:+ "}"
  end.

Definition contentText (payload : option json) : option string :=
  match record_field "value" payload with
  | Some (JStr s) => truthy (Some s)
  | Some JNull | None => text_field "fallbackText" payload
  | Some value => Some (stringify value)
  end.
End Stringify.

(** ** Building turns *)

Record builder : Type := mk_builder {
  b_calls : list tool_call;
  b_turns : list transcript_turn;
  b_turnsById : gmap string nat;
  b_callsById : gmap string nat;
  b_taskCallIds : gset string;
  b_interactionKinds : gmap string string
}.
#[export] Instance eta_builder : Eta builder := fun b =>
  mk_builder (b_calls b) (b_turns b) (b_turnsById b) (b_callsById b) (b_taskCallIds b)
    (b_interactionKinds b).

Definition empty_builder : builder := mk_builder [] [] ∅ ∅ ∅ ∅.

(** [turnFor]: the position of the event's turn, opened when it is not there. *)
Definition turnFor (payload : option json) (eventAt : string) (b : builder) : nat * builder :=
  let turnId := text_field "turnId" payload in
  let existing :=
    match truthy turnId with
    | Some id => b_turnsById b !! id
    | None => match length (b_turns b) with O => None | S last => Some last end
    end in
  match existing with
  | Some i => (i, b)
  | None =>
      let i := length (b_turns b) in
      let b := b <| b_turns ::= fun ts =>
                 (ts ++ [mk_turn turnId eventAt [] None None TurnStatus.incomplete None])%list |> in
      (i, match truthy turnId with
          | Some id => b <| b_turnsById ::= insert id i |>
          | None => b
          end)
  end.

(** A change of the event's turn. *)
Definition in_turn (payload : option json) (eventAt : string)
    (f : transcript_turn -> transcript_turn) (b : builder) : builder :=
  let (i, b) := turnFor payload eventAt b in
  b <| b_turns ::= alter f i |>.

Definition push (item : transcript_item) (t : transcript_turn) : transcript_turn :=
  t <| tt_items ::= fun items => (items ++ [item])%list |>.

Definition push_system (label : string) (text : option string) (eventAt : string)
    : transcript_turn -> transcript_turn :=
  push (IsSystem label text eventAt).

Definition set_status (st : turn_status) (t : transcript_turn) : transcript_turn :=
  t <| tt_status := st |>.

Definition add_turn_usage (usage : transcript_usage) (t : transcript_turn) : transcript_turn :=
  t <| tt_usage ::= fun base => Some (addUsage base usage) |>.

(** A new call shown by the i-th turn: its address, its entry under its
    identifier when it is [named], its item. *)
Definition alloc_call (i : nat) (named : bool) (call : tool_call) (b : builder) : builder :=
  let addr := length (b_calls b) in
  let byId := match truthy (tc_callId call) with
              | Some id => if named then insert id addr else fun m => m
              | None => fun m => m
              end in
  b <| b_calls ::= fun cs => (cs ++ [call])%list |>
    <| b_turns ::= alter (push (IsTool addr)) i |>
    <| b_callsById ::= byId |>.

(** The turn is opened first; the source opens it after recording the call,
    which does not show. *)
Definition push_call (payload : option json) (eventAt : string) (named : bool) (call : tool_call)
    (b : builder) : builder :=
  let (i, b) := turnFor payload eventAt b in alloc_call i named call b.

(** [callId ? callsById.get(callId) : undefined] *)
Definition call_of (callId : option string) (b : builder) : option nat :=
  id ← truthy callId; b_callsById b !! id.

Definition update_call (addr : nat) (f : tool_call -> tool_call) (b : builder) : builder :=
  b <| b_calls ::= alter f addr |>.

Definition tool_addresses (items : list transcript_item) : list nat :=
  omap (fun item => match item with IsTool addr => Some addr | _ => None end) items.

(** [turnToolCalls] *)
Definition turnToolCalls (calls : list tool_call) (t : transcript_turn) : list tool_call :=
  omap (fun addr => calls !! addr) (tool_addresses (tt_items t)).

Definition cancel_pending (c : tool_call) : tool_call :=
  if decide (tc_status c = CallStatus.pending)
  then c <| tc_status := CallStatus.cancelled |> <| tc_errorText := Some "Turn cancelled" |>
  else c.

(** The turn's pending calls end with it. *)
Definition cancel_turn (payload : option json) (eventAt : string) (b : builder) : builder :=
  let (i, b) := turnFor payload eventAt b in
  let addrs := from_option (fun t => tool_addresses (tt_items t)) [] (b_turns b !! i) in
  let b := b <| b_calls ::= fun cs => fold_left (fun cs addr => alter cancel_pending addr cs) addrs cs |> in
  b <| b_turns ::= alter (fun t => push_system "Turn cancelled" None eventAt
                                     (set_status TurnStatus.cancelled t)) i |>.

(** The name of a call: its tool's, its own, its subagent's, or its kind. *)
Definition action_name (action : option json) (kind : string) : string :=
  default (default "tool" (truthy (Some kind)))
    (or_else (text_field "toolName" action)
       (or_else (text_field "name" action) (text_field "subagentName" action))).

Definition requested_call (action : option json) (eventAt : string) : tool_call :=
  let kind := default "" (text_field "kind" action) in
  mk_tool_call (text_field "callId" action) (action_name action kind)
    (String.prefix "subagent" kind) (value_field "input" action) JNull CallStatus.pending None None
    (text_field "nodeId" action) None eventAt None.

(** [actions.requested]: the turn is opened before the loop, which pushes on it. *)
Definition on_actions_requested (payload : option json) (eventAt : string) (b : builder)
    : builder :=
  let (i, b) := turnFor payload eventAt b in
  let actions := match record_field "actions" payload with Some (JArr l) => l | _ => [] end in
  fold_left (fun b raw =>
    match asRecord (Some raw) with
    | None => b
    | Some action => alloc_call i true (requested_call (Some action) eventAt) b
    end) actions b.

Definition settle_action (failed : bool) (output : json) (errorText : option string)
    (usage : option transcript_usage) (c : tool_call) : tool_call :=
  c <| tc_output := output |>
    <| tc_status := if failed then CallStatus.failed else CallStatus.completed |>
    <| tc_errorText := errorText |> <| tc_usage := usage |>.

(** [action.result]: of a known call, unless a task carries its end; of an
    unknown one a call of its own, kept out of the map. *)
Definition on_action_result (payload : option json) (eventAt : string) (b : builder) : builder :=
  let result := asRecord (record_field "result" payload) in
  let status := text_field "status" payload in
  let failed := match status with
                | Some st => negb (bool_decide (st = "completed"))
                | None => false
                end in
  let callId := text_field "callId" result in
  let output := value_field "output" result in
  let errorText := if failed then or_else (errorMessage result) (or_else (errorMessage payload) status)
                   else None in
  let usage := usageFrom (record_field "usage" result) in
  match call_of callId b with
  | Some addr =>
      if bool_decide (default "" callId ∈ b_taskCallIds b) then b
      else update_call addr (settle_action failed output errorText usage) b
  | None =>
      let kind := default "" (text_field "kind" result) in
      push_call payload eventAt false
        (mk_tool_call callId (action_name result kind) (String.prefix "subagent" kind) JNull output
           (if failed then CallStatus.failed else CallStatus.completed) errorText usage None None
           eventAt None) b
  end.

Definition on_task_started (payload : option json) (b : builder) : builder :=
  let callId := text_field "callId" payload in
  match call_of callId b with
  | None => b
  | Some addr =>
      let b := b <| b_taskCallIds ::= union {[ default "" callId ]} |> in
      if bool_decide (text_field "kind" payload = Some "agent")
      then update_call addr (fun c => c <| tc_isSubagent := true |>) b
      else b
  end.

(** The call opened the Eve session [sessionId]. *)
Definition opened (sessionId : option string) (c : tool_call) : tool_call :=
  c <| tc_isSubagent := true |> <| tc_childEveSessionId := sessionId |>.

Definition on_agent_started (payload : option json) (b : builder) : builder :=
  match call_of (text_field "callId" payload) b with
  | Some addr => update_call addr (opened (text_field "sessionId" payload)) b
  | None => b
  end.

Definition on_task_settled (payload : option json) (b : builder) : builder :=
  match call_of (text_field "callId" payload) b with
  | None => b
  | Some addr =>
      let status := text_field "status" payload in
      let ended st := bool_decide (status = Some st) in
      update_call addr (fun c =>
        c <| tc_status := if ended "failed" then CallStatus.failed
                          else if ended "cancelled" then CallStatus.cancelled
                          else CallStatus.completed |>
          <| tc_output := value_field "output" payload |>
          <| tc_errorText := if ended "failed" then Some (default "failed" (errorMessage payload))
                             else if ended "cancelled"
                             then text_field "reason" (record_field "cancel" payload)
                             else None |>) b
  end.

(** A message of the user; the first one is the turn's. *)
Definition push_user (text eventAt : string) (t : transcript_turn) : transcript_turn :=
  (push (IsUser text eventAt) t) <| tt_userMessage ::= fun m => or_else m (Some text) |>.

(** A message of the agent; the last one is the turn's. *)
Definition push_assistant (text eventAt : string) (t : transcript_turn) : transcript_turn :=
  (push (IsAssistant text eventAt) t) <| tt_assistantMessage := Some text |>.

(** A message Eve wrote itself opens its turn and is not shown. *)
Definition on_message_received (payload : option json) (eventAt : string) (b : builder) : builder :=
  in_turn payload eventAt
    (fun t => if bool_decide (text_field "kind" payload = Some "execution.background_task") then t
              else push_user (messageText payload) eventAt t) b.

Definition on_reasoning (payload : option json) (eventAt : string) (b : builder) : builder :=
  match truthy (Some (messageText payload)) with
  | Some text => in_turn payload eventAt (push (IsReasoning text eventAt)) b
  | None => b
  end.

Definition on_usage (payload : option json) (eventAt : string) (b : builder) : builder :=
  match usageFrom (record_field "usage" payload) with
  | Some usage => in_turn payload eventAt (add_turn_usage usage) b
  | None => b
  end.

Definition fail_incomplete (t : transcript_turn) : transcript_turn :=
  if decide (tt_status t = TurnStatus.incomplete) then set_status TurnStatus.failed t else t.

Definition on_session_failed (payload : option json) (eventAt : string) : builder -> builder :=
  in_turn payload eventAt
    (fun t => fail_incomplete (push_system "Session failed" (errorMessage payload) eventAt t)).

Definition on_turn_failed (payload : option json) (eventAt : string) : builder -> builder :=
  in_turn payload eventAt (fun t => push_system "Turn failed" (errorMessage payload) eventAt
                                      (set_status TurnStatus.failed t)).

Definition on_input_requested (payload : option json) (eventAt : string) : builder -> builder :=
  let request := record_field "request" payload in
  in_turn payload eventAt
    (push_system "Input requested"
       (or_else (text_field "prompt" request)
          (or_else (text_field "prompt" payload) (truthy (Some (messageText payload))))) eventAt).

(** ** The events of eve 0.84 *)

Definition on_delivery_consumed (payload : option json) (eventAt : string) : builder -> builder :=
  in_turn payload eventAt (push_user (messageText payload) eventAt).

Definition on_content (number_text : jsnum -> string) (payload : option json) (eventAt : string)
    (b : builder) : builder :=
  match truthy (contentText number_text payload) with
  | None => b
  | Some text =>
      let of_kind k := bool_decide (text_field "kind" payload = Some k) in
      in_turn payload eventAt
        (fun t => if of_kind "reasoning" then push (IsReasoning text eventAt) t
                  else if of_kind "text" || of_kind "result" then push_assistant text eventAt t
                  else t) b
  end.

(** Task controls are not shown. *)
Definition on_call_requested (payload : option json) (eventAt : string) (b : builder) : builder :=
  let capability := record_field "capability" payload in
  let capabilityKind := text_field "kind" capability in
  if bool_decide (capabilityKind = Some "control") then b
  else
    push_call payload eventAt true
      (mk_tool_call (text_field "callId" payload)
         (default "tool" (or_else (text_field "name" capability) capabilityKind))
         (bool_decide (capabilityKind = Some "agent")) (value_field "input" payload) JNull
         CallStatus.pending None None None None eventAt None) b.

Definition on_call_settled (payload : option json) (b : builder) : builder :=
  match call_of (text_field "callId" payload) b with
  | None => b
  | Some addr =>
      let outcome := text_field "outcome" payload in
      let ended o := bool_decide (outcome = Some o) in
      let st := if ended "completed" then CallStatus.completed
                else if ended "interrupted" || ended "abandoned" then CallStatus.cancelled
                else CallStatus.failed in
      update_call addr (fun c =>
        c <| tc_status := st |> <| tc_output := value_field "output" payload |>
          <| tc_errorText := if decide (st = CallStatus.completed) then None
                             else or_else (errorMessage payload)
                                    (or_else (text_field "reason" payload) outcome) |>) b
  end.

Definition on_child_opened (payload : option json) (b : builder) : builder :=
  match call_of (text_field "callId" (record_field "owner" payload)) b with
  | Some addr => update_call addr (opened (text_field "sessionId" payload)) b
  | None => b
  end.

(** A record a call owns repeats what the child's own node shows. *)
Definition on_usage_recorded (payload : option json) (eventAt : string) (b : builder) : builder :=
  let owner := record_field "owner" payload in
  match truthy (text_field "runId" owner), truthy (text_field "changeId" owner) with
  | None, None => b
  | _, _ => on_usage payload eventAt b
  end.

Definition on_turn_settled (payload : option json) (eventAt : string) (b : builder) : builder :=
  let ended o := bool_decide (text_field "outcome" payload = Some o) in
  if ended "completed" then in_turn payload eventAt (set_status TurnStatus.completed) b
  else if ended "failed" then on_turn_failed payload eventAt b
  else if ended "cancelled" then cancel_turn payload eventAt b
  else in_turn payload eventAt (fun t => t) b.

Definition on_interaction_opened (payload : option json) (eventAt : string) (b : builder)
    : builder :=
  let request := record_field "request" payload in
  let kind := default "question" (text_field "kind" request) in
  let b := match truthy (text_field "interactionId" payload) with
           | Some id => b <| b_interactionKinds ::= insert id kind |>
           | None => b
           end in
  let signIn := record_field "signIn" request in
  in_turn payload eventAt
    (if bool_decide (kind = "sign-in")
     then push_system "Authorization required"
            (or_else (text_field "displayName" signIn)
               (or_else (text_field "name" signIn) (text_field "prompt" request))) eventAt
     else push_system "Input requested" (text_field "prompt" request) eventAt) b.

Definition on_interaction_settled (payload : option json) (eventAt : string) (b : builder)
    : builder :=
  let kind := id ← truthy (text_field "interactionId" payload); b_interactionKinds b !! id in
  if bool_decide (kind = Some "sign-in")
  then in_turn payload eventAt
         (push_system "Authorization completed" (text_field "outcome" payload) eventAt) b
  else b.

(** Only a failed outcome is shown. *)
Definition if_failed (payload : option json) (f : builder -> builder) (b : builder) : builder :=
  if bool_decide (text_field "outcome" payload = Some "failed") then f b else b.

Section Build.
Variable number_text : jsnum -> string.

(** The [switch] over an event's type. *)
Definition step_event (b : builder) (event : transcript_event) : builder :=
  let payload := asRecord (Some (te_payload event)) in
  let at_ := te_eventAt event in
  let is_type t := bool_decide (te_type event = t) in
  if is_type "message.received" then on_message_received payload at_ b
  else if is_type "message.completed" then
    in_turn payload at_ (push_assistant (messageText payload) at_) b
  else if is_type "reasoning.completed" then on_reasoning payload at_ b
  else if is_type "actions.requested" then on_actions_requested payload at_ b
  else if is_type "action.result" then on_action_result payload at_ b
  else if is_type "task.started" then on_task_started payload b
  else if is_type "agent.started" then on_agent_started payload b
  else if is_type "task.settled" then on_task_settled payload b
  else if is_type "step.completed" then on_usage payload at_ b
  else if is_type "turn.completed" then in_turn payload at_ (set_status TurnStatus.completed) b
  else if is_type "turn.failed" then on_turn_failed payload at_ b
  else if is_type "turn.cancelled" then cancel_turn payload at_ b
  else if is_type "step.failed" then
    in_turn payload at_ (push_system "Step failed" (errorMessage payload) at_) b
  else if is_type "session.failed" then on_session_failed payload at_ b
  else if is_type "input.requested" then on_input_requested payload at_ b
  else if is_type "authorization.required" then
    in_turn payload at_ (push_system "Authorization required"
      (or_else (text_field "displayName" payload) (text_field "description" payload)) at_) b
  else if is_type "authorization.completed" then
    in_turn payload at_
      (push_system "Authorization completed" (text_field "outcome" payload) at_) b
  else if is_type "delivery.consumed" then on_delivery_consumed payload at_ b
  else if is_type "content.completed" then on_content number_text payload at_ b
  else if is_type "call.requested" then on_call_requested payload at_ b
  else if is_type "call.settled" then on_call_settled payload b
  else if is_type "child.opened" then on_child_opened payload b
  else if is_type "usage.recorded" then on_usage_recorded payload at_ b
  else if is_type "model.settled" then
    if_failed payload
      (in_turn payload at_ (push_system "Step failed" (errorMessage payload) at_)) b
  else if is_type "turn.settled" then on_turn_settled payload at_ b
  else if is_type "session.ended" then if_failed payload (on_session_failed payload at_) b
  else if is_type "interaction.opened" then on_interaction_opened payload at_ b
  else if is_type "interaction.settled" then on_interaction_settled payload at_ b
  else b.

(** The turns with the heap of their calls. *)
Definition buildTranscriptTurns (events : list transcript_event) : builder :=
  fold_left step_event events empty_builder.
End Build.

(** ** Display *)

(** [value.includes(needle)] *)
Definition text_includes (needle value : string) : bool :=
  bool_decide (is_Some (String.index 0 needle value)).

Inductive display_item :=
  | DUser (text eventAt : string)
  | DAssistant (text eventAt : string)
  | DActivity (st : activity_status) (items : list transcript_item).

Definition item_call (calls : list tool_call) (st : call_status) (item : transcript_item) : bool :=
  match item with
  | IsTool addr => bool_decide (tc_status <$> calls !! addr = Some st)
  | _ => false
  end.

Definition item_label (needle : string) (item : transcript_item) : bool :=
  match item with
  | IsSystem label _ _ => text_includes needle (to_lower label)
  | _ => false
  end.

Definition activityStatus (calls : list tool_call) (items : list transcript_item)
    (turnStatus : turn_status) (trailing : bool) : activity_status :=
  if existsb (fun i => item_call calls CallStatus.failed i || item_label "failed" i) items
  then ActivityStatus.failed
  else if existsb (fun i => item_call calls CallStatus.cancelled i || item_label "cancelled" i) items
  then ActivityStatus.cancelled
  else if existsb (item_call calls CallStatus.pending) items then ActivityStatus.running
  else if bool_decide (turnStatus = TurnStatus.incomplete) && trailing then ActivityStatus.running
  else ActivityStatus.completed.

Definition flushActivity (calls : list tool_call) (turnStatus : turn_status) (trailing : bool)
    (activity : list transcript_item) (shown : list display_item) : list display_item :=
  match activity with
  | [] => shown
  | _ => (shown ++ [DActivity (activityStatus calls activity turnStatus trailing) activity])%list
  end.

(** The loop: what is shown, and the activity items not flushed yet. *)
Definition group_item (calls : list tool_call) (turnStatus : turn_status)
    (acc : list display_item * list transcript_item) (item : transcript_item)
    : list display_item * list transcript_item :=
  let (shown, activity) := acc in
  match item with
  | IsUser text at_ =>
      ((flushActivity calls turnStatus false activity shown ++ [DUser text at_])%list, [])
  | IsAssistant text at_ =>
      ((flushActivity calls turnStatus false activity shown ++ [DAssistant text at_])%list, [])
  | _ => (shown, (activity ++ [item])%list)
  end.

Definition groupTranscriptItems (calls : list tool_call) (turn : transcript_turn)
    : list display_item :=
  let (shown, activity) :=
    fold_left (group_item calls (tt_status turn)) (tt_items turn) ([], []) in
  flushActivity calls (tt_status turn) true activity shown.

(** ** The tree of a session's nodes *)

(** The view of a node, with the heap of its calls. *)
Record transcript_node : Type := mk_transcript_node {
  tn_sessionNodeId : option string; tn_agentId : option string; tn_agentName : option string;
  tn_nodeId : option string; tn_status : option string; tn_resolutionStatus : option string;
  tn_remoteUrl : option string; tn_turns : list transcript_turn; tn_calls : list tool_call
}.
#[export] Instance eta_transcript_node : Eta transcript_node := fun n =>
  mk_transcript_node (tn_sessionNodeId n) (tn_agentId n) (tn_agentName n) (tn_nodeId n)
    (tn_status n) (tn_resolutionStatus n) (tn_remoteUrl n) (tn_turns n) (tn_calls n).

(** The views by node, the root (a node, or the view of a session without nodes),
    and the nodes no call opened. *)
Record session_transcript : Type := mk_session_transcript {
  st_views : gmap string transcript_node;
  st_root : option (string + transcript_node);
  st_detached : list string
}.

(** The addresses of a node's calls, in the order of its turns' items. *)
Definition call_addresses (view : transcript_node) : list nat :=
  t ← tn_turns view; tool_addresses (tt_items t).

(** [find] over the node's calls. *)
Definition find_call (p : tool_call -> bool) (view : transcript_node) : option nat :=
  head (base.filter (fun addr => from_option p false (tn_calls view !! addr) = true)
          (call_addresses view)).

Definition unopened (c : tool_call) : bool := bool_decide (tc_child c = None).

Definition findCallThatOpened (view : transcript_node) (eveSessionId : option string)
    : option nat :=
  match eveSessionId with
  | None => None
  | Some id => find_call (fun c => unopened c && bool_decide (tc_childEveSessionId c = Some id)) view
  end.

Definition findOpenSubagentCall (view : transcript_node) (nodeId : option string) : option nat :=
  let open p := find_call (fun c => tc_isSubagent c && unopened c && p c) view in
  match nodeId with
  | Some _ => open (fun c => bool_decide (tc_targetNodeId c = nodeId))
  | None => open (fun _ => true)
  end.

(** The call a node hangs below: its parent's view and the call's address. *)
Definition slot_for (views : gmap string transcript_node) (node : transcript_source_node)
    : option (string * nat) :=
  parent ← truthy (sn_parentNodeId node);
  view ← views !! parent;
  addr ← or_else (findCallThatOpened view (sn_eveSessionId node))
           (findOpenSubagentCall view (sn_nodeId node));
  Some (parent, addr).

(** [slot.child = view] *)
Definition set_child (child : string) (addr : nat) (view : transcript_node) : transcript_node :=
  view <| tn_calls ::= alter (fun c => c <| tc_child := Some child |>) addr |>.

(** One node of the second loop. *)
Definition place_node (rootId : option string)
    (acc : gmap string transcript_node * list string) (node : transcript_source_node)
    : gmap string transcript_node * list string :=
  let (views, detached) := acc in
  if bool_decide (rootId = Some (sn_id node)) then acc
  else match views !! sn_id node with
       | None => acc
       | Some _ =>
           match slot_for views node with
           | Some (parent, addr) => (alter (set_child (sn_id node) addr) parent views, detached)
           | None => (views, (detached ++ [sn_id node])%list)
           end
       end.

Section Tree.
Variable number_text : jsnum -> string.

(** The events of a node; those of no node belong to the root. *)
Definition events_of (rootId : option string) (nodeId : string) (events : list transcript_event)
    : list transcript_event :=
  base.filter (fun e => te_sessionNodeId e = Some nodeId
                        \/ rootId = Some nodeId /\ te_sessionNodeId e = None) events.

Definition node_view (rootId : option string) (events : list transcript_event)
    (node : transcript_source_node) : transcript_node :=
  let built := buildTranscriptTurns number_text (events_of rootId (sn_id node) events) in
  mk_transcript_node (Some (sn_id node)) (sn_agentId node) (sn_agentName node) (sn_nodeId node)
    (sn_status node) (sn_resolutionStatus node) (sn_remoteUrl node) (b_turns built) (b_calls built).

Definition node_views (rootId : option string) (events : list transcript_event)
    (nodes : list transcript_source_node) : gmap string transcript_node :=
  fold_left (fun views node => <[sn_id node := node_view rootId events node]> views) nodes ∅.

Definition root_of (nodes : list transcript_source_node) : option string :=
  sn_id <$> head (base.filter (fun n => sn_parentNodeId n = None) nodes).

Definition buildSessionTranscript (events : list transcript_event)
    (nodes : list transcript_source_node) : session_transcript :=
  let rootId := root_of nodes in
  let views := node_views rootId events nodes in
  let root :=
    match rootId with
    | Some id => (fun _ => inl id) <$> views !! id
    | None =>
        match nodes, events with
        | [], _ :: _ =>
            let built := buildTranscriptTurns number_text events in
            Some (inr (mk_transcript_node None None None None None None None (b_turns built)
                         (b_calls built)))
        | _, _ => None
        end
    end in
  let (views, detached) := fold_left (place_node rootId) nodes (views, []) in
  mk_session_transcript views root detached.
End Tree.

(** ** What an event changes *)
#[local] Open Scope list_scope.

Record turn_grows (t t' : transcript_turn) : Prop := {
  tg_turnId : tt_turnId t' = tt_turnId t;
  tg_startedAt : tt_startedAt t' = tt_startedAt t;
  tg_items : tt_items t `prefix_of` tt_items t';
  tg_user : forall m, tt_userMessage t = Some m -> tt_userMessage t' = Some m
}.

Record call_grows (c c' : tool_call) : Prop := {
  cg_callId : tc_callId c' = tc_callId c;
  cg_name : tc_name c' = tc_name c;
  cg_input : tc_input c' = tc_input c;
  cg_target : tc_targetNodeId c' = tc_targetNodeId c;
  cg_eventAt : tc_eventAt c' = tc_eventAt c;
  cg_child : tc_child c' = tc_child c;
  cg_subagent : tc_isSubagent c = true -> tc_isSubagent c' = true
}.

#[export] Instance turn_grows_preorder : PreOrder turn_grows.
Proof.
  split; [by intros t; constructor|]. intros t1 t2 t3 [A1 A2 A3 A4] [B1 B2 B3 B4].
  constructor; [congruence..|by etrans|auto].
Qed.

#[export] Instance call_grows_preorder : PreOrder call_grows.
Proof.
  split; [by intros c; constructor|]. intros c1 c2 c3 [] []. constructor; [congruence..|auto].
Qed.

(** Each element of the first list is still there, grown. *)
Definition pointwise {A} (R : relation A) (l l' : list A) : Prop :=
  forall i x, l !! i = Some x -> exists x', l' !! i = Some x' /\ R x x'.

#[export] Instance pointwise_preorder {A} (R : relation A) `{!PreOrder R} : PreOrder (pointwise R).
Proof.
  split.
  - intros l i x Hi. by exists x.
  - intros l1 l2 l3 H1 H2 i x Hi. destruct (H1 i x Hi) as (y & Hy & Hxy).
    destruct (H2 i y Hy) as (z & Hz & Hyz). exists z. split; [done|by etransitivity].
Qed.

Lemma pointwise_alter {A} (R : relation A) `{!PreOrder R} f i (l : list A) :
  (forall x, R x (f x)) -> pointwise R l (alter f i l).
Proof.
  intros Hf j x Hj. destruct (decide (i = j)) as [<-|Hne].
  - exists (f x). split; [|done]. by rewrite list_lookup_alter_eq, Hj.
  - exists x. by rewrite list_lookup_alter_ne.
Qed.

Lemma pointwise_app {A} (R : relation A) `{!PreOrder R} (l k : list A) : pointwise R l (l ++ k).
Proof. intros i x Hi. exists x. by rewrite (lookup_app_l_Some _ _ _ _ Hi). Qed.

Record grows (b b' : builder) : Prop := {
  gr_turns : pointwise turn_grows (b_turns b) (b_turns b');
  gr_calls : pointwise call_grows (b_calls b) (b_calls b')
}.

#[export] Instance grows_preorder : PreOrder grows.
Proof.
  split; [by intros b|]. intros b1 b2 b3 [] []. constructor; by etransitivity.
Qed.

(** The calls the items show. *)
Definition shown (ts : list transcript_turn) : list nat :=
  t ← ts; tool_addresses (tt_items t).

(** The turns known by their identifiers are the turns that have one, each call
    is shown by one item, and none has a child yet. *)
Record builder_ok (b : builder) : Prop := {
  ok_turns : forall id i, b_turnsById b !! id = Some i ->
    exists t, b_turns b !! i = Some t /\ truthy (tt_turnId t) = Some id;
  ok_known : forall id i t, b_turns b !! i = Some t -> truthy (tt_turnId t) = Some id ->
    b_turnsById b !! id = Some i;
  ok_shown : shown (b_turns b) ≡ₚ seq 0 (length (b_calls b));
  ok_childless : Forall (fun c => tc_child c = None) (b_calls b)
}.

Definition advances (b b' : builder) : Prop := grows b b' /\ (builder_ok b -> builder_ok b').

#[export] Instance advances_preorder : PreOrder advances.
Proof.
  split; [by split|]. intros b1 b2 b3 [] []. split; [by etransitivity|auto].
Qed.

(** A change of a turn that shows no call. *)
Definition quiet (f : transcript_turn -> transcript_turn) : Prop :=
  forall t, turn_grows t (f t) /\ tool_addresses (tt_items (f t)) = tool_addresses (tt_items t).

Lemma tool_addresses_app l k : tool_addresses (l ++ k) = tool_addresses l ++ tool_addresses k.
Proof. apply omap_app. Qed.

Lemma push_grows item t : turn_grows t (push item t).
Proof. constructor; try done. simpl. by exists [item]. Qed.

Lemma quiet_push item : tool_addresses [item] = [] -> quiet (push item).
Proof.
  intros Hi t. split; [apply push_grows|]. simpl. by rewrite tool_addresses_app, Hi, app_nil_r.
Qed.

Lemma quiet_compose f g : quiet f -> quiet g -> quiet (fun t => g (f t)).
Proof.
  intros Hf Hg t. destruct (Hf t) as [H1 H2], (Hg (f t)) as [H3 H4].
  split; [by etransitivity|congruence].
Qed.

Lemma quiet_id : quiet (fun t => t).
Proof. by intros t. Qed.
Lemma quiet_status st : quiet (set_status st).
Proof. intros t. split; [by constructor|done]. Qed.
Lemma quiet_usage u : quiet (add_turn_usage u).
Proof. intros t. split; [by constructor|done]. Qed.
Lemma quiet_user text at_ : quiet (push_user text at_).
Proof.
  intros t. destruct (quiet_push (IsUser text at_) eq_refl t) as [[H1 H2 H3 H4] Ha].
  split; [|exact Ha]. constructor; try done. intros m Hm. simpl. by rewrite Hm.
Qed.
Lemma quiet_assistant text at_ : quiet (push_assistant text at_).
Proof.
  intros t. destruct (quiet_push (IsAssistant text at_) eq_refl t) as [[H1 H2 H3 H4] Ha].
  split; [by constructor|exact Ha].
Qed.
Lemma quiet_system label text at_ : quiet (push_system label text at_).
Proof. by apply quiet_push. Qed.
Lemma quiet_fail_incomplete : quiet fail_incomplete.
Proof. intros t. unfold fail_incomplete. case_decide; [apply quiet_status|apply quiet_id]. Qed.

Create HintDb transcript.
#[export] Hint Resolve quiet_id quiet_status quiet_usage quiet_user quiet_assistant quiet_system
  quiet_fail_incomplete : transcript.
#[export] Hint Extern 1 (quiet (push (IsReasoning _ _))) => by apply quiet_push : transcript.

Lemma shown_app ts ts' : shown (ts ++ ts') = shown ts ++ shown ts'.
Proof. apply bind_app. Qed.

Lemma alter_split {A} (f : A -> A) (l1 : list A) x l2 :
  alter f (length l1) (l1 ++ x :: l2) = l1 ++ f x :: l2.
Proof. rewrite alter_app_r_alt by done. by rewrite Nat.sub_diag. Qed.

Lemma shown_alter f i ts extra :
  i < length ts ->
  (forall t, tool_addresses (tt_items (f t)) ≡ₚ extra ++ tool_addresses (tt_items t)) ->
  shown (alter f i ts) ≡ₚ extra ++ shown ts.
Proof.
  intros Hi Hf. destruct (lookup_lt_is_Some_2 _ _ Hi) as [t Ht].
  apply list_elem_of_split_length in Ht as (l1 & l2 & -> & ->).
  rewrite alter_split, !shown_app. simpl. fold (shown l2). rewrite (Hf t).
  rewrite (Permutation_app_comm (shown l1)). rewrite <- !(assoc_L (++)).
  f_equiv. rewrite (Permutation_app_comm (shown l1)). by rewrite (assoc_L (++)).
Qed.

Lemma alter_beyond {A} (f : A -> A) i (l : list A) : length l <= i -> alter f i l = l.
Proof.
  revert i. induction l as [|x l IH]; intros [|i] Hle; simpl in *; [done|done|lia|].
  f_equal. apply IH. lia.
Qed.

Lemma shown_alter_quiet f i ts : quiet f -> shown (alter f i ts) ≡ₚ shown ts.
Proof.
  intros Hf. destruct (decide (i < length ts)) as [Hi|Hi].
  - rewrite (shown_alter f i ts []); [done..|]. intros t. by rewrite (proj2 (Hf t)).
  - by rewrite alter_beyond by lia.
Qed.

(** ** Each handler advances the builder *)

Lemma turns_alter_ok b f i :
  quiet f -> advances b (b <| b_turns ::= alter f i |>).
Proof.
  intros Hf. split.
  - constructor; [|done]. apply pointwise_alter; [apply _|]. intros t. apply Hf.
  - intros [H1 H2 H3 H4].
    assert (Hl : forall j t', alter f i (b_turns b) !! j = Some t' -> exists t,
      b_turns b !! j = Some t /\ tt_turnId t' = tt_turnId t).
    { intros j t' Ht'. destruct (decide (i = j)) as [<-|Hne].
      - rewrite list_lookup_alter_eq in Ht'. apply fmap_Some in Ht' as (t & Ht & ->).
        exists t. split; [done|apply Hf].
      - rewrite list_lookup_alter_ne in Ht' by done. by exists t'. }
    constructor; simpl.
    + intros id j Hid. destruct (H1 id j Hid) as (t & Ht & Hti).
      destruct (pointwise_alter turn_grows f i (b_turns b) (fun t => proj1 (Hf t)) j t Ht)
        as (t' & Ht' & Hg). exists t'. split; [done|]. by rewrite (tg_turnId _ _ Hg).
    + intros id j t' Ht' Hti. destruct (Hl j t' Ht') as (t & Ht & Heq).
      apply (H2 id j t Ht). by rewrite <- Heq.
    + by rewrite shown_alter_quiet.
    + done.
Qed.

Lemma calls_alter_ok b f addr :
  (forall c, call_grows c (f c)) -> advances b (b <| b_calls ::= alter f addr |>).
Proof.
  intros Hf. split.
  - constructor; [done|]. by apply pointwise_alter; [apply _|].
  - intros [H1 H2 H3 H4]. constructor; simpl; try done; [by rewrite length_alter|].
    apply Forall_lookup. intros i c Hi. destruct (decide (addr = i)) as [<-|Hne].
    + rewrite list_lookup_alter_eq in Hi. apply fmap_Some in Hi as (c0 & Hc0 & ->).
      rewrite (cg_child _ _ (Hf c0)). exact (Forall_lookup_1 _ _ _ _ H4 Hc0).
    + rewrite list_lookup_alter_ne in Hi by done. exact (Forall_lookup_1 _ _ _ _ H4 Hi).
Qed.

(** Fields the invariant does not mention. *)
Lemma advances_frame b b' :
  b_calls b' = b_calls b -> b_turns b' = b_turns b -> b_turnsById b' = b_turnsById b ->
  advances b b'.
Proof.
  intros Hc Ht Hi. split.
  - constructor; [by rewrite Ht|by rewrite Hc].
  - intros [H1 H2 H3 H4]. constructor; rewrite ?Hc, ?Ht, ?Hi; done.
Qed.

(** A turn without items is opened at the end. *)
Lemma new_turn_ok b t (byId : gmap string nat) :
  tt_items t = [] ->
  match truthy (tt_turnId t) with
  | Some id => b_turnsById b !! id = None /\ byId = <[id := length (b_turns b)]> (b_turnsById b)
  | None => byId = b_turnsById b
  end ->
  advances b (b <| b_turns ::= fun ts => ts ++ [t] |> <| b_turnsById := byId |>).
Proof.
  intros Hitems Hid. split; [constructor; [apply pointwise_app; apply _|done]|].
  intros [H1 H2 H3 H4]. constructor; simpl; [| | |done].
  - intros id j Hj. assert (Hold : b_turnsById b !! id = Some j ->
      exists t0, (b_turns b ++ [t]) !! j = Some t0 /\ truthy (tt_turnId t0) = Some id).
    { intros Hj'. destruct (H1 id j Hj') as (t0 & Ht0 & Hti). exists t0. split; [|done].
      by apply lookup_app_l_Some. }
    destruct (truthy (tt_turnId t)) as [id'|] eqn:Htid; [destruct Hid as [_ ->]|subst; auto].
    apply lookup_insert_Some in Hj as [[<- <-]|[_ Hj]]; [|auto].
    exists t. split; [by apply list_lookup_middle|done].
  - intros id j t0 Ht0 Hti. apply lookup_app_Some in Ht0 as [Ht0|[Hle Ht0]].
    + pose proof (H2 _ _ _ Ht0 Hti) as Hj.
      destruct (truthy (tt_turnId t)) as [id'|]; [destruct Hid as [Hn ->]|by subst].
      rewrite lookup_insert_ne by congruence. done.
    + apply list_lookup_singleton_Some in Ht0 as [Hz <-]. rewrite Hti in Hid.
      destruct Hid as [_ ->]. replace j with (length (b_turns b)) by lia. apply lookup_insert_eq.
  - rewrite shown_app. simpl. by rewrite Hitems, !app_nil_r.
Qed.

(** The event's turn is open, and nothing is shown that was not. *)
Lemma turnFor_ok payload at_ b i b' :
  turnFor payload at_ b = (i, b') ->
  advances b b' /\ b_calls b' = b_calls b /\ (builder_ok b -> i < length (b_turns b')).
Proof.
  unfold turnFor. set (tid := text_field "turnId" payload).
  set (t := mk_turn tid at_ [] None None TurnStatus.incomplete None).
  assert (Hlast : length (b_turns b) < length (b_turns b ++ [t]))
    by (rewrite length_app; simpl; lia).
  destruct (truthy tid) as [id|] eqn:Htid.
  - destruct (b_turnsById b !! id) as [j|] eqn:Hid; intros [= <- <-].
    + split; [done|]. split; [done|]. intros [H1 _ _ _]. destruct (H1 id j Hid) as (t0 & Ht0 & _).
      by apply lookup_lt_Some in Ht0.
    + split; [|by split]. apply (new_turn_ok b t); [done|]. simpl. by rewrite Htid.
  - destruct (length (b_turns b)) as [|last] eqn:Hlen; intros [= <- <-].
    + split; [|by split]. apply (new_turn_ok b t (b_turnsById b)); [done|]. simpl. by rewrite Htid.
    + split; [done|]. split; [done|lia].
Qed.

Lemma in_turn_ok payload at_ f b : quiet f -> advances b (in_turn payload at_ f b).
Proof.
  intros Hf. unfold in_turn. destruct (turnFor payload at_ b) as [i b'] eqn:Ht.
  apply turnFor_ok in Ht as (Ha & _ & _). etransitivity; [exact Ha|]. by apply turns_alter_ok.
Qed.

(** A step that needs the invariant of where it started. *)
Lemma advances_then b b' b'' :
  advances b b' -> grows b' b'' -> (builder_ok b -> builder_ok b' -> builder_ok b'') ->
  advances b b''.
Proof. intros [Hg Ho] Hg' Ho'. split; [by etransitivity|auto]. Qed.

(** A new call and the item that shows it. *)
Lemma alloc_grows i named call b : grows b (alloc_call i named call b).
Proof.
  constructor; [apply pointwise_alter; [apply _|apply push_grows]|apply pointwise_app; apply _].
Qed.

Lemma alloc_keeps i named call b :
  i < length (b_turns b) -> tc_child call = None -> builder_ok b ->
  builder_ok (alloc_call i named call b).
Proof.
  intros Hi Hcall [H1 H2 H3 H4]. unfold alloc_call. set (f := push (IsTool (length (b_calls b)))).
  constructor; simpl.
  - intros id j Hid. destruct (H1 id j Hid) as (t & Ht & Hti).
    destruct (pointwise_alter turn_grows f i (b_turns b) (push_grows _) j t Ht) as (t' & Ht' & Hg).
    exists t'. split; [done|]. by rewrite (tg_turnId _ _ Hg).
  - intros id j t' Ht' Hti. destruct (decide (i = j)) as [<-|Hne].
    + rewrite list_lookup_alter_eq in Ht'. apply fmap_Some in Ht' as (t & Ht & ->).
      by apply (H2 id i t).
    + rewrite list_lookup_alter_ne in Ht' by done. by apply (H2 id j t').
  - rewrite (shown_alter f i (b_turns b) [length (b_calls b)]); [|done|].
    + rewrite H3, length_app, seq_app. simpl. by rewrite Permutation_app_comm.
    + intros t. simpl. rewrite tool_addresses_app. by rewrite Permutation_app_comm.
  - apply Forall_app. by repeat constructor.
Qed.

Lemma push_call_ok payload at_ named call b :
  tc_child call = None -> advances b (push_call payload at_ named call b).
Proof.
  intros Hcall. unfold push_call. destruct (turnFor payload at_ b) as [i b'] eqn:Hrun.
  apply turnFor_ok in Hrun as (Ha & _ & Hlt).
  apply (advances_then _ b'); [done|apply alloc_grows|]. intros Hok. apply alloc_keeps; [by apply Hlt|done].
Qed.

Lemma update_call_ok addr f b : (forall c, call_grows c (f c)) -> advances b (update_call addr f b).
Proof. apply calls_alter_ok. Qed.

Lemma calls_fold_ok f addrs b :
  (forall c, call_grows c (f c)) ->
  advances b (b <| b_calls ::= fun cs => fold_left (fun cs addr => alter f addr cs) addrs cs |>).
Proof.
  intros Hf. revert b. induction addrs as [|a addrs IH]; intros b; [by apply advances_frame|].
  etransitivity; [exact (calls_alter_ok b f a Hf)|]. exact (IH (b <| b_calls ::= alter f a |>)).
Qed.

Lemma cancel_turn_ok payload at_ b : advances b (cancel_turn payload at_ b).
Proof.
  unfold cancel_turn. destruct (turnFor payload at_ b) as [i b'] eqn:Hrun.
  apply turnFor_ok in Hrun as (Ha & _ & _). etransitivity; [exact Ha|].
  etransitivity; [apply (calls_fold_ok cancel_pending)|].
  - intros c. unfold cancel_pending. by case_decide; constructor.
  - apply turns_alter_ok. apply (quiet_compose _ (push_system "Turn cancelled" None at_));
      auto with transcript.
Qed.

Lemma on_actions_requested_ok payload at_ b : advances b (on_actions_requested payload at_ b).
Proof.
  unfold on_actions_requested. destruct (turnFor payload at_ b) as [i b0] eqn:Hrun.
  apply turnFor_ok in Hrun as (Ha & _ & Hlt).
  match goal with |- context [fold_left ?f ?l b0] => set (step := f); set (acts := l) end.
  clearbody acts.
  assert (Hfold : forall l b', advances b b' -> (builder_ok b -> i < length (b_turns b')) ->
    advances b (fold_left step l b')).
  { induction l as [|raw l IH]; intros b' Hb' Hi; [done|]. simpl. apply IH.
    - unfold step. destruct (asRecord (Some raw)) as [action|]; [|done].
      apply (advances_then _ b'); [done|apply alloc_grows|]. intros Hok. apply alloc_keeps; [by apply Hi|done].
    - intros Hok. unfold step. destruct (asRecord (Some raw)); [|by apply Hi].
      simpl. rewrite length_alter. by apply Hi. }
  by apply Hfold.
Qed.

Lemma opened_grows sid c : call_grows c (opened sid c).
Proof. by constructor. Qed.
#[export] Hint Resolve in_turn_ok push_call_ok cancel_turn_ok on_actions_requested_ok update_call_ok
  opened_grows : transcript.

(** Decides the branches of a handler and closes each by the lemmas above. *)
Ltac by_handler :=
  repeat case_match; first
    [ reflexivity
    | solve [eauto with transcript]
    | apply update_call_ok; intros ?; by constructor
    | etransitivity; [by apply advances_frame|]; solve [eauto with transcript]
    | by apply advances_frame ].

Lemma on_usage_ok payload at_ b : advances b (on_usage payload at_ b).
Proof. unfold on_usage. by_handler. Qed.
Lemma on_turn_failed_ok payload at_ b : advances b (on_turn_failed payload at_ b).
Proof.
  unfold on_turn_failed. apply in_turn_ok, (quiet_compose _ (push_system _ _ _)); auto with transcript.
Qed.
Lemma on_session_failed_ok payload at_ b : advances b (on_session_failed payload at_ b).
Proof.
  unfold on_session_failed. apply in_turn_ok, (quiet_compose (push_system _ _ _) fail_incomplete);
    auto with transcript.
Qed.
Lemma on_message_received_ok payload at_ b : advances b (on_message_received payload at_ b).
Proof. unfold on_message_received. apply in_turn_ok. case_bool_decide; auto with transcript. Qed.
Lemma on_action_result_ok payload at_ b : advances b (on_action_result payload at_ b).
Proof. unfold on_action_result. by_handler. Qed.
Lemma on_task_started_ok payload b : advances b (on_task_started payload b).
Proof.
  unfold on_task_started. destruct (call_of _ b) as [addr|]; [|reflexivity].
  set (b1 := b <| b_taskCallIds ::= _ |>).
  assert (H1 : advances b b1) by by apply advances_frame.
  case_bool_decide; [|done]. etransitivity; [exact H1|]. apply update_call_ok. by constructor.
Qed.
#[export] Hint Resolve on_usage_ok on_turn_failed_ok on_session_failed_ok on_message_received_ok
  on_action_result_ok on_task_started_ok : transcript.

Lemma on_content_ok nt payload at_ b : advances b (on_content nt payload at_ b).
Proof.
  unfold on_content. case_match; [|reflexivity]. apply in_turn_ok.
  repeat case_bool_decide; simpl; first [by apply quiet_push | auto with transcript].
Qed.
Lemma on_interaction_opened_ok payload at_ b : advances b (on_interaction_opened payload at_ b).
Proof.
  unfold on_interaction_opened. etransitivity; [|apply in_turn_ok].
  - case_match; by apply advances_frame.
  - case_bool_decide; auto with transcript.
Qed.
#[export] Hint Resolve on_content_ok on_interaction_opened_ok : transcript.

Lemma on_reasoning_ok payload at_ b : advances b (on_reasoning payload at_ b).
Proof. unfold on_reasoning. by_handler. Qed.
Lemma on_agent_started_ok payload b : advances b (on_agent_started payload b).
Proof. unfold on_agent_started. by_handler. Qed.
Lemma on_task_settled_ok payload b : advances b (on_task_settled payload b).
Proof. unfold on_task_settled. by_handler. Qed.
Lemma on_call_requested_ok payload at_ b : advances b (on_call_requested payload at_ b).
Proof. unfold on_call_requested. by_handler. Qed.
Lemma on_call_settled_ok payload b : advances b (on_call_settled payload b).
Proof. unfold on_call_settled. by_handler. Qed.
Lemma on_child_opened_ok payload b : advances b (on_child_opened payload b).
Proof. unfold on_child_opened. by_handler. Qed.
Lemma on_usage_recorded_ok payload at_ b : advances b (on_usage_recorded payload at_ b).
Proof. unfold on_usage_recorded. by_handler. Qed.
Lemma on_turn_settled_ok payload at_ b : advances b (on_turn_settled payload at_ b).
Proof. unfold on_turn_settled. by_handler. Qed.
Lemma on_interaction_settled_ok payload at_ b : advances b (on_interaction_settled payload at_ b).
Proof. unfold on_interaction_settled. by_handler. Qed.
Lemma if_failed_ok payload f b : advances b (f b) -> advances b (if_failed payload f b).
Proof. intros Hf. unfold if_failed. by case_bool_decide. Qed.
#[export] Hint Resolve on_reasoning_ok on_agent_started_ok on_task_settled_ok on_call_requested_ok
  on_call_settled_ok on_child_opened_ok on_usage_recorded_ok on_turn_settled_ok
  on_interaction_settled_ok if_failed_ok : transcript.

Lemma step_event_ok nt b event : advances b (step_event nt b event).
Proof.
  unfold step_event. cbv zeta.
  repeat match goal with
         | |- advances _ (if bool_decide ?P then _ else _) => destruct (bool_decide P)
         end; solve [eauto with transcript | reflexivity].
Qed.

Lemma steps_ok nt events b : advances b (fold_left (step_event nt) events b).
Proof.
  revert b. induction events as [|e events IH]; intros b; [reflexivity|].
  etransitivity; [apply step_event_ok|apply IH].
Qed.

Lemma empty_builder_ok : builder_ok empty_builder.
Proof. by constructor. Qed.

Lemma built_ok nt events : builder_ok (buildTranscriptTurns nt events).
Proof. exact (proj2 (steps_ok nt events empty_builder) empty_builder_ok). Qed.

(** Replaying more events only extends a transcript: every turn keeps its
    place, its identifier, its start, its first user message and the items
    already shown, in their order, and every call keeps its place and what was
    requested.  Turns with an identifier are told apart by it, and each call is
    shown by exactly one item. *)
Lemma transcript_only_grows nt events more :
  let before := buildTranscriptTurns nt events in
  let after := buildTranscriptTurns nt (events ++ more) in
  (forall i t, b_turns before !! i = Some t ->
     exists t', b_turns after !! i = Some t' /\ turn_grows t t') /\
  (forall a c, b_calls before !! a = Some c ->
     exists c', b_calls after !! a = Some c' /\ call_grows c c') /\
  (forall i j t t' id, b_turns after !! i = Some t -> b_turns after !! j = Some t' ->
     truthy (tt_turnId t) = Some id -> truthy (tt_turnId t') = Some id -> i = j) /\
  shown (b_turns after) ≡ₚ seq 0 (length (b_calls after)).
Proof.
  cbv zeta. pose proof (built_ok nt (events ++ more)) as [_ Hknown Hshown _].
  assert (Hgrows : grows (buildTranscriptTurns nt events) (buildTranscriptTurns nt (events ++ more)))
    by (unfold buildTranscriptTurns; rewrite fold_left_app; apply steps_ok).
  split; [exact (gr_turns _ _ Hgrows)|]. split; [exact (gr_calls _ _ Hgrows)|]. split; [|done].
  intros i j t t' id Hi Hj Hti Htj. pose proof (Hknown _ _ _ Hi Hti).
  pose proof (Hknown _ _ _ Hj Htj). congruence.
Qed.

(** ** Grouping *)

Definition display_items (d : display_item) : list transcript_item :=
  match d with
  | DUser text at_ => [IsUser text at_]
  | DAssistant text at_ => [IsAssistant text at_]
  | DActivity _ items => items
  end.

Definition is_activity (d : display_item) : bool :=
  match d with DActivity _ _ => true | _ => false end.

Definition is_message (item : transcript_item) : bool :=
  match item with IsUser _ _ | IsAssistant _ _ => true | _ => false end.

(** No two activities follow each other. *)
Definition separated (ds : list display_item) : Prop :=
  forall i d d', ds !! i = Some d -> ds !! S i = Some d' ->
    is_activity d = false \/ is_activity d' = false.

Lemma separated_snoc ds d :
  separated ds ->
  (forall d', last ds = Some d' -> is_activity d' = false \/ is_activity d = false) ->
  separated (ds ++ [d]).
Proof.
  intros Hs Hl i d1 d2 H1 H2. apply lookup_app_Some in H2 as [H2|[Hle H2]].
  - apply (Hs i); [|done]. rewrite lookup_app_l in H1; [done|]. apply lookup_lt_Some in H2. lia.
  - apply list_lookup_singleton_Some in H2 as [Hz <-]. apply Hl.
    rewrite last_lookup. replace (pred (length ds)) with i by lia.
    rewrite lookup_app_l in H1; [done|]. lia.
Qed.

(** An activity of items that are no messages, with their status. *)
Definition activity_ok (calls : list tool_call) (st : turn_status) (trailing : bool)
    (d : display_item) : Prop :=
  match d with
  | DActivity a items =>
      items <> [] /\ Forall (fun i => is_message i = false) items /\
      a = activityStatus calls items st trailing
  | _ => True
  end.

Record grouped (calls : list tool_call) (st : turn_status) (items : list transcript_item)
    (acc : list display_item * list transcript_item) : Prop := {
  gd_items : (acc.1 ≫= display_items) ++ acc.2 = items;
  gd_shown : Forall (activity_ok calls st false) acc.1;
  gd_activity : Forall (fun i => is_message i = false) acc.2;
  gd_separated : separated acc.1;
  gd_last : forall d, last acc.1 = Some d -> is_activity d = false
}.

(** Flushing shows the pending items, in their place. *)
Lemma flush_ok calls st items acc trailing :
  grouped calls st items acc ->
  let ds := flushActivity calls st trailing acc.2 acc.1 in
  ds ≫= display_items = items /\ separated ds /\
  (acc.2 = [] /\ ds = acc.1 \/ exists d, ds = acc.1 ++ [d] /\ activity_ok calls st trailing d).
Proof.
  intros [H1 H2 H3 H4 H5]. destruct acc as [shown [|x activity]]; simpl in *.
  - rewrite app_nil_r in H1. split; [done|]. split; [done|by left].
  - split; [|split].
    + rewrite bind_app. simpl. by rewrite app_nil_r.
    + apply separated_snoc; [done|]. intros d Hd. left. by apply H5.
    + right. eexists. split; [done|]. by split.
Qed.

Lemma group_message calls st items acc item d :
  grouped calls st items acc -> is_activity d = false -> display_items d = [item] ->
  grouped calls st (items ++ [item]) (flushActivity calls st false acc.2 acc.1 ++ [d], []).
Proof.
  intros Hg Hd Hi. destruct (flush_ok _ _ _ _ false Hg) as (Hit & Hsep & Hcase).
  constructor; simpl.
  - rewrite bind_app, Hit. simpl. by rewrite Hi, !app_nil_r.
  - apply Forall_app. split; [|by constructor; [destruct d|]].
    destruct Hcase as [[_ ->]|(d' & -> & Ha)]; [apply Hg|]. apply Forall_app. split; [apply Hg|].
    by constructor.
  - done.
  - apply separated_snoc; [done|]. by right.
  - intros d' Hd'. rewrite last_snoc in Hd'. by injection Hd' as <-.
Qed.

Lemma group_item_ok calls st items acc item :
  grouped calls st items acc -> grouped calls st (items ++ [item]) (group_item calls st acc item).
Proof.
  intros Hg. destruct acc as [shown activity].
  destruct item; simpl; try (by apply (group_message _ _ _ (shown, activity)));
    destruct Hg as [H1 H2 H3 H4 H5]; constructor; simpl in *; try done;
    rewrite ?(assoc_L (++)), ?H1; try done; apply Forall_app; (split; [done|by constructor]).
Qed.

(** The display of a turn is a partition of its items: read in order, the
    messages and the activity groups give back exactly the items of the turn.
    A group holds no message, is not empty, and never follows another group;
    its status comes from its own items, and only the last display item can
    run because the turn is not over. *)
Lemma groupTranscriptItems_partition calls turn :
  let ds := groupTranscriptItems calls turn in
  ds ≫= display_items = tt_items turn /\ separated ds /\
  forall i d, ds !! i = Some d ->
    activity_ok calls (tt_status turn) (bool_decide (S i = length ds)) d.
Proof.
  cbv zeta. unfold groupTranscriptItems.
  destruct (fold_left _ (tt_items turn) ([], [])) as [shown activity] eqn:Hfold.
  assert (Hg : grouped calls (tt_status turn) (tt_items turn) (shown, activity)).
  { rewrite <- Hfold. clear Hfold. induction (tt_items turn) as [|item items IH] using rev_ind.
    - by constructor.
    - rewrite fold_left_app. by apply group_item_ok. }
  destruct (flush_ok _ _ _ _ true Hg) as (Hit & Hsep & Hcase). simpl in *.
  split; [done|]. split; [done|]. intros i d Hd. destruct Hcase as [[-> ->]|(d' & Heq & Ha)].
  - pose proof (Forall_lookup_1 _ _ _ _ (gd_shown _ _ _ _ Hg) Hd) as Hok. simpl in Hok.
    case_bool_decide as Hlen; [|done]. assert (Hlast : last shown = Some d)
      by (rewrite last_lookup, <- Hlen; done).
    apply (gd_last _ _ _ _ Hg) in Hlast. by destruct d.
  - rewrite Heq in *. rewrite length_app. simpl. apply lookup_app_Some in Hd as [Hd|[Hle Hd]].
    + rewrite bool_decide_eq_false_2 by (apply lookup_lt_Some in Hd; lia).
      exact (Forall_lookup_1 _ _ _ _ (gd_shown _ _ _ _ Hg) Hd).
    + apply list_lookup_singleton_Some in Hd as [Hz <-].
      rewrite bool_decide_eq_true_2 by lia. done.
Qed.

(** ** The tree *)

(** The nodes that hang below a call. *)
Definition call_children (v : transcript_node) : list string := omap tc_child (tn_calls v).

Definition children (views : gmap string transcript_node) : list string :=
  kv ← map_to_list views; call_children kv.2.

Lemma children_insert k v (views : gmap string transcript_node) :
  children (<[k := v]> views) ≡ₚ call_children v ++ children (delete k views).
Proof.
  unfold children. rewrite <- insert_delete_eq. rewrite map_to_list_insert by apply lookup_delete_eq.
  done.
Qed.

Lemma children_lookup k v (views : gmap string transcript_node) :
  views !! k = Some v -> children views ≡ₚ call_children v ++ children (delete k views).
Proof. intros Hk. rewrite <- children_insert. by rewrite insert_id. Qed.

Lemma set_child_children child addr v c :
  tn_calls v !! addr = Some c -> tc_child c = None ->
  call_children (set_child child addr v) ≡ₚ child :: call_children v.
Proof.
  intros Hc Hn. unfold call_children, set_child. simpl.
  apply list_elem_of_split_length in Hc as (l1 & l2 & -> & ->). rewrite alter_split, !omap_app.
  simpl. rewrite Hn. by rewrite Permutation_middle.
Qed.

Lemma find_call_ok p v addr :
  find_call p v = Some addr -> exists c, tn_calls v !! addr = Some c /\ p c = true.
Proof.
  intros Hf. apply head_Some_elem_of, list_elem_of_filter in Hf as [Hp _].
  destruct (tn_calls v !! addr) as [c|]; [by exists c|done].
Qed.

(** What a call and the node hung below it share. *)
Definition opens (c : tool_call) (node : transcript_source_node) : Prop :=
  (is_Some (sn_eveSessionId node) /\ tc_childEveSessionId c = sn_eveSessionId node) \/
  (tc_isSubagent c = true /\ (sn_nodeId node = None \/ tc_targetNodeId c = sn_nodeId node)).

Lemma open_call_ok v node addr :
  findOpenSubagentCall v (sn_nodeId node) = Some addr ->
  exists c, tn_calls v !! addr = Some c /\ tc_child c = None /\ opens c node.
Proof.
  intros Hf. unfold findOpenSubagentCall in Hf. destruct (sn_nodeId node) as [nid|] eqn:Hnid;
    apply find_call_ok in Hf as (c & Hc & Hp);
    apply andb_true_iff in Hp as [[Hs Hu%bool_decide_eq_true]%andb_true_iff Ht];
    exists c; (split; [done|]); (split; [done|]); right; (split; [done|]).
  - right. rewrite Hnid. by apply bool_decide_eq_true in Ht.
  - by left.
Qed.

Lemma slot_for_ok views node parent addr :
  slot_for views node = Some (parent, addr) ->
  exists v c, sn_parentNodeId node = Some parent /\ views !! parent = Some v /\
    tn_calls v !! addr = Some c /\ tc_child c = None /\ opens c node.
Proof.
  intros Hs. unfold slot_for in Hs.
  apply bind_Some in Hs as (parent' & Hp & Hs). apply bind_Some in Hs as (v & Hv & Hs).
  apply bind_Some in Hs as (addr' & Ha & [= <- <-]).
  assert (Hpar : sn_parentNodeId node = Some parent').
  { unfold truthy in Hp. destruct (sn_parentNodeId node) as [[|]|]; congruence. }
  unfold findCallThatOpened in Ha.
  assert (Hcase : exists c, tn_calls v !! addr' = Some c /\ tc_child c = None /\ opens c node).
  { unfold or_else in Ha. destruct (sn_eveSessionId node) as [eve|] eqn:Heve.
    - destruct (find_call _ v) as [a|] eqn:Hf in Ha.
      + injection Ha as ->. apply find_call_ok in Hf as (c & Hc & [Hu He]%andb_true_iff).
        exists c. split; [done|]. split; [by apply bool_decide_eq_true in Hu|]. left.
        apply bool_decide_eq_true in He. rewrite Heve. by split; [eexists|].
      + by apply open_call_ok in Ha.
    - by apply open_call_ok in Ha. }
  destruct Hcase as (c & Hc & Hn & Ho). by exists v, c.
Qed.

(** Each child was hung below a call of its parent that opened it. *)
Definition attached_right (nodes : list transcript_source_node)
    (views : gmap string transcript_node) : Prop :=
  forall id v addr c child, views !! id = Some v -> tn_calls v !! addr = Some c ->
    tc_child c = Some child ->
    exists node, node ∈ nodes /\ sn_id node = child /\ sn_parentNodeId node = Some id /\ opens c node.

Record placed (nodes : list transcript_source_node) (all : gset string) (rootId : option string)
    (done : list string) (acc : gmap string transcript_node * list string) : Prop := {
  pl_dom : dom acc.1 = all;
  pl_each : acc.2 ++ children acc.1 ≡ₚ base.filter (fun id => rootId <> Some id) done;
  pl_right : attached_right nodes acc.1;
  pl_shown : forall id v, acc.1 !! id = Some v ->
    shown (tn_turns v) ≡ₚ seq 0 (length (tn_calls v))
}.

(** A node that is not the root is hung below a call or detached. *)
Lemma place_node_ok nodes all rootId ids acc node :
  placed nodes all rootId ids acc -> node ∈ nodes -> sn_id node ∈ all ->
  placed nodes all rootId (ids ++ [sn_id node]) (place_node rootId acc node).
Proof.
  intros Hpl Hin Hall. destruct acc as [views detached]. destruct Hpl as [H1 H2 H3 H4].
  simpl in *. unfold place_node. case_bool_decide as Hroot.
  { constructor; simpl; try done. rewrite H2, filter_app, (filter_cons_False _ (sn_id node));
      [by rewrite app_nil_r|by intros []]. }
  rewrite <- H1 in Hall. apply elem_of_dom in Hall as [v0 Hv0]. rewrite Hv0.
  assert (Hdone : base.filter (fun id => rootId <> Some id) (ids ++ [sn_id node])
    = base.filter (fun id => rootId <> Some id) ids ++ [sn_id node])
    by (rewrite filter_app; by rewrite (filter_cons_True _ (sn_id node))).
  destruct (slot_for views node) as [[parent addr]|] eqn:Hslot.
  - apply slot_for_ok in Hslot as (v & c & Hpar & Hv & Hc & Hn & Ho).
    assert (Halter : alter (set_child (sn_id node) addr) parent views
      = <[parent := set_child (sn_id node) addr v]> views)
      by (rewrite <- (insert_id views parent v Hv) at 1; by rewrite alter_insert_eq).
    rewrite Halter. constructor; simpl.
    + rewrite dom_insert_lookup_L; [done|by eexists].
    + rewrite Hdone, <- H2, children_insert, (set_child_children _ _ _ _ Hc Hn).
      rewrite (children_lookup _ _ _ Hv). simpl. rewrite <- Permutation_middle.
      by rewrite <- Permutation_cons_append.
    + intros id v' addr' c' child Hv' Hc' Hch.
      apply lookup_insert_Some in Hv' as [[<- <-]|[Hne Hv']]; [|by eapply H3].
      simpl in Hc'. destruct (decide (addr = addr')) as [<-|Hne].
      * rewrite list_lookup_alter_eq, Hc in Hc'. injection Hc' as <-. simpl in Hch.
        injection Hch as <-. by exists node.
      * rewrite list_lookup_alter_ne in Hc' by done. by eapply H3.
    + intros id v' Hv'. apply lookup_insert_Some in Hv' as [[<- <-]|[_ Hv']]; [|by apply (H4 id)].
      simpl. rewrite length_alter. by apply (H4 parent).
  - constructor; simpl; try done. rewrite Hdone, <- H2.
    rewrite <- !(assoc_L (++)). f_equiv. by rewrite Permutation_app_comm.
Qed.

Lemma node_views_ok nt rootId events nodes :
  dom (node_views nt rootId events nodes) = list_to_set (sn_id <$> nodes) /\
  forall id v, node_views nt rootId events nodes !! id = Some v ->
    exists node, node ∈ nodes /\ sn_id node = id /\ v = node_view nt rootId events node.
Proof.
  unfold node_views. induction nodes as [|node nodes [IH1 IH2]] using rev_ind; [by split|].
  rewrite fold_left_app. simpl. split.
  - rewrite dom_insert_L, IH1, fmap_app, list_to_set_app_L. simpl. set_solver.
  - intros id v Hv. apply lookup_insert_Some in Hv as [[<- <-]|[_ Hv]].
    + exists node. set_solver.
    + destruct (IH2 id v Hv) as (node' & Hin & Hid & ->). exists node'. set_solver.
Qed.

Lemma omap_childless cs : Forall (fun c => tc_child c = None) cs -> omap tc_child cs = [].
Proof. induction 1 as [|c cs Hn _ IH]; [done|]. simpl. by rewrite Hn. Qed.

Lemma node_view_ok nt rootId events node :
  shown (tn_turns (node_view nt rootId events node))
    ≡ₚ seq 0 (length (tn_calls (node_view nt rootId events node))) /\
  call_children (node_view nt rootId events node) = [].
Proof.
  unfold node_view, call_children. simpl.
  destruct (built_ok nt (events_of rootId (sn_id node) events)) as [_ _ Hs Hc]. split; [done|].
  by apply omap_childless.
Qed.

Lemma no_children (views : gmap string transcript_node) :
  (forall id v, views !! id = Some v -> call_children v = []) -> children views = [].
Proof.
  intros Hn. unfold children. apply elem_of_nil_inv. intros x (kv & Hx & Hin)%list_elem_of_bind.
  destruct kv as [k v]. apply elem_of_map_to_list in Hin. simpl in Hx.
  rewrite (Hn k v Hin) in Hx. by apply not_elem_of_nil in Hx.
Qed.

Lemma place_nodes_ok nodes all rootId l ids acc :
  placed nodes all rootId ids acc -> (forall node, node ∈ l -> node ∈ nodes /\ sn_id node ∈ all) ->
  placed nodes all rootId (ids ++ (sn_id <$> l)) (fold_left (place_node rootId) l acc).
Proof.
  revert ids acc. induction l as [|node l IH]; intros ids acc Hpl Hl; simpl.
  - by rewrite app_nil_r.
  - rewrite (cons_middle (sn_id node) ids), (assoc_L (++)). apply IH.
    + apply place_node_ok; [done|..]; apply Hl; by left.
    + intros node' Hin. apply Hl. by right.
Qed.

(** The tree shows every node of a session once.  Each node but the root
    either hangs below exactly one call, a call of its parent that opened its
    Eve session or, failing that, an open subagent call, or is listed as
    detached; no call is given two children, and each call of a node is shown
    by one item of its turns. *)
Lemma buildSessionTranscript_places_each nt events nodes :
  let t := buildSessionTranscript nt events nodes in
  st_detached t ++ children (st_views t)
    ≡ₚ base.filter (fun id => root_of nodes <> Some id) (sn_id <$> nodes) /\
  dom (st_views t) = list_to_set (sn_id <$> nodes) /\
  attached_right nodes (st_views t) /\
  (forall id v, st_views t !! id = Some v ->
     shown (tn_turns v) ≡ₚ seq 0 (length (tn_calls v))) /\
  (forall id, root_of nodes = Some id -> st_root t = Some (inl id)).
Proof.
  cbv zeta. unfold buildSessionTranscript.
  destruct (node_views_ok nt (root_of nodes) events nodes) as [Hdom Hview].
  set (views := node_views nt (root_of nodes) events nodes) in *.
  assert (Hempty : placed nodes (list_to_set (sn_id <$> nodes)) (root_of nodes) [] (views, [])).
  { assert (Hno : forall id v, views !! id = Some v -> call_children v = [])
      by (intros id v (node & _ & _ & ->)%Hview; apply node_view_ok).
    constructor; simpl; [done|by rewrite no_children| |].
    - intros id v addr c child Hv Hc Hch. specialize (Hno id v Hv).
      assert (Hin : child ∈ call_children v).
      { apply list_elem_of_omap. exists c. split; [|done]. by apply list_elem_of_lookup_2 in Hc. }
      rewrite Hno in Hin. by apply not_elem_of_nil in Hin.
    - intros id v (node & _ & _ & ->)%Hview. apply node_view_ok. }
  apply (place_nodes_ok _ _ _ nodes) in Hempty.
  2: { intros node Hin. split; [done|]. apply elem_of_list_to_set. by apply list_elem_of_fmap_2. }
  destruct (fold_left _ nodes (views, [])) as [views' detached]. destruct Hempty as [H1 H2 H3 H4].
  simpl in *. split; [done|]. split; [done|]. split; [done|]. split; [done|].
  intros id Hid. rewrite Hid. unfold root_of in Hid. apply fmap_Some in Hid as (root & Hh & ->).
  apply head_Some_elem_of, list_elem_of_filter in Hh as [_ Hin].
  assert (Hs : is_Some (views !! sn_id root)).
  { apply elem_of_dom. rewrite Hdom. apply elem_of_list_to_set. by apply list_elem_of_fmap_2. }
  by destruct Hs as [v ->].
Qed.

(** ** A session with a delegated node *)
Section TranscriptExample.

Definition text_event (type : string) (fields : list (string * json)) (node : option string)
    : transcript_event :=
  mk_transcript_event type (JObj fields) "t" node.

(** The root asks for a subagent call; the child answers in its own node, and a
    second child that no call opened is detached. *)
Definition delegated_events : list transcript_event :=
  [text_event "message.received" [("turnId", JStr "t1"); ("message", JStr "hi")] None;
   text_event "call.requested"
     [("turnId", JStr "t1"); ("callId", JStr "c1");
      ("capability", JObj [("kind", JStr "agent"); ("name", JStr "helper")])] (Some "n0");
   text_event "child.opened"
     [("owner", JObj [("callId", JStr "c1")]); ("sessionId", JStr "e1")] (Some "n0");
   text_event "content.completed" [("kind", JStr "text"); ("value", JStr "done")] (Some "n1")].

Definition delegated_node (id : string) (parent eve : option string) : transcript_source_node :=
  mk_source_node id eve parent (Some id) None None None None None.

Definition delegated_nodes : list transcript_source_node :=
  [delegated_node "n0" None None; delegated_node "n1" (Some "n0") (Some "e1");
   delegated_node "n2" (Some "n0") (Some "e2")].

Lemma buildSessionTranscript_places_each_witness :
  let t := buildSessionTranscript (fun _ => "0") delegated_events delegated_nodes in
  st_root t = Some (inl "n0") /\ st_detached t = ["n2"] /\ children (st_views t) = ["n1"] /\
  st_detached t ++ children (st_views t)
    ≡ₚ base.filter (fun id => root_of delegated_nodes <> Some id) (sn_id <$> delegated_nodes).
Proof.
  cbv zeta. destruct (buildSessionTranscript_places_each (fun _ => "0") delegated_events
    delegated_nodes) as (Hperm & _).
  split; [by vm_compute|]. split; [by vm_compute|]. split; [by vm_compute|exact Hperm].
Defined.
End TranscriptExample.
