(* ===== verification/EveVersion.v ===== *)
(** * The Eve version window

    [packages/core/src/eve-compatibility.ts]: the minor line an Eve dependency
    pins, whether the platform supports it, and the refusals that follow;
    [readDeclaredEveVersion] of [packages/core/src/source.ts] and
    [getDeploymentEveVersion] of
    [packages/db/src/postgres-deployment-routing-store.ts], which find the
    version a deployment runs.

    A number of a specifier is an [N]: [Number] keeps it exactly up to 2^53, and
    above that it is no supported line either way. *)

From stdpp Require Import pretty.
From S2P Require Import Prelude Schema Store Strings Encoding.

Open Scope eve_scope.
Open Scope string_scope.

(** ** Specifiers *)

(** [supportedLines] *)
Definition SUPPORTED_EVE_VERSION_RANGES : list string := ["1.0.x"].

(** One range; two; or a list with "or" before the last. *)
Definition SUPPORTED_EVE_VERSION_RANGE : string :=
  match SUPPORTED_EVE_VERSION_RANGES with
  | [r] => r
  | [r1; r2] => r1 +:+ " or " +:+ r2
  | rs => String.concat ", " (removelast rs) +:+ ", or " +:+ List.last rs "undefined"
  end.

(** The leading digits of a text, and what follows them. *)
Fixpoint span_digits (s : string) : string * string :=
  match s with
  | "" => ("", "")
  | String c r => if digit c then let (ds, r) := span_digits r in (String c ds, r) else ("", s)
  end.

(** [\d+] *)
Definition take_digits (s : string) : option (string * string) :=
  let (ds, r) := span_digits s in if bool_decide (ds = "") then None else Some (ds, r).

(** [[0-9A-Za-z]+(?:\.[0-9A-Za-z]+)*] *)
Definition alphanumeric (c : Ascii.ascii) : bool := digit c || upper_letter c || lower_letter c.

Definition prerelease_tag (s : string) : bool :=
  forallb (fun part => negb (bool_decide (part = "")) && all_chars alphanumeric part)
    (split_at (chr 46) s).

Module Patch.
Inductive patch := Exact (digits : string) | Wildcard.
#[global] Instance patch_eq : EqDecision patch.
Proof. solve_decision. Defined.
End Patch.
Abbreviation patch := Patch.patch.

Record specifier : Type := mk_specifier {
  sp_operator : option Ascii.ascii; sp_major : string; sp_minor : string;
  sp_patch : option patch; sp_prerelease : option string
}.

(** [(?:\.(\d+|[x*])(?:-tag)?)?$] *)
Definition parse_patch (s : string) : option (option patch * option string) :=
  match s with
  | "" => Some (None, None)
  | String c r =>
      if negb (ascii_is 46 c) then None
      else
        '(patch, r) ← match take_digits r with
                      | Some (ds, r) => Some (Patch.Exact ds, r)
                      | None =>
                          match r with
                          | String c r =>
                              if ascii_is 120 c || ascii_is 42 c then Some (Patch.Wildcard, r)
                              else None
                          | "" => None
                          end
                      end;
        match r with
        | "" => Some (Some patch, None)
        | String c r =>
            if ascii_is 45 c && prerelease_tag r then Some (Some patch, Some r) else None
        end
  end.

(** [^([~^]?)(\d+)\.(\d+)], then the patch. *)
Definition parse_specifier (s : string) : option specifier :=
  let '(operator, s) :=
    match s with
    | String c r => if ascii_is 126 c || ascii_is 94 c then (Some c, r) else (None, s)
    | "" => (None, s)
    end in
  '(major, s) ← take_digits s;
  s ← strip_prefix "." s;
  '(minor, s) ← take_digits s;
  '(patch, prerelease) ← parse_patch s;
  Some (mk_specifier operator major minor patch prerelease).

(** [Number(digits)] *)
Fixpoint digits_value (acc : N) (s : string) : N :=
  match s with
  | "" => acc
  | String c r => digits_value (acc * 10 + N.of_nat (code c - 48))%N r
  end.

Definition eveLineOfSpecifier (spec : option string) : option string :=
  text ← spec;
  sp ← parse_specifier (js_trim text);
  let exact := match sp_patch sp with Some (Patch.Exact _) => true | _ => false end in
  let prerelease := match sp_prerelease sp with Some _ => true | None => false end in
  if prerelease && negb exact then None
  else
    match sp_operator sp with
    | Some operator =>
        if negb exact then None
        else if ascii_is 94 operator && negb (bool_decide (sp_major sp = "0")) then None
        else Some (pretty (digits_value 0 (sp_major sp)) +:+ "."
                   +:+ pretty (digits_value 0 (sp_minor sp)))
    | None =>
        Some (pretty (digits_value 0 (sp_major sp)) +:+ "."
              +:+ pretty (digits_value 0 (sp_minor sp)))
    end.

Definition isSupportedEveDependency (spec : option string) : bool :=
  match eveLineOfSpecifier spec with
  | Some line => bool_decide (line +:+ ".x" ∈ SUPPORTED_EVE_VERSION_RANGES)
  | None => false
  end.

(** ** Messages and refusals *)

(** A double quote. *)
Definition dquote : string := String (chr 34) "".

Definition unsupportedEveVersionMessage (spec : option string) : string :=
  match spec with
  | None =>
      "Missing Eve dependency. Eveland requires Eve " +:+ SUPPORTED_EVE_VERSION_RANGE
      +:+ ". Add the " +:+ dquote +:+ "eve" +:+ dquote
      +:+ " dependency before importing or deploying."
  | Some s =>
      "Unsupported Eve dependency " +:+ dquote +:+ s +:+ dquote +:+ ". Eveland requires Eve "
      +:+ SUPPORTED_EVE_VERSION_RANGE +:+ ". Upgrade the project's " +:+ dquote +:+ "eve"
      +:+ dquote +:+ " dependency before importing or deploying."
  end.

(** [\b] after a word character: the end, or a character of no word. *)
Definition word_char (c : Ascii.ascii) : bool := alphanumeric c || ascii_is 95 c.

Definition word_ends (s : string) : bool :=
  match s with "" => true | String c _ => negb (word_char c) end.

(** [/^(?:Unsupported|Missing) Eve dependency\b/] *)
Definition isUnsupportedEveVersionMessage (message : string) : bool :=
  match or_else (strip_prefix "Unsupported Eve dependency" message)
                (strip_prefix "Missing Eve dependency" message) with
  | Some rest => word_ends rest
  | None => false
  end.

Definition unsupportedReleaseEveVersionMessage (releaseSummary : option json) : option string :=
  match json_string (releaseSummary ≫= json_get "eveVersionResolved") with
  | Some resolved =>
      if isSupportedEveDependency (Some resolved) then None
      else Some (unsupportedEveVersionMessage (Some resolved))
  | None => None
  end.

Definition displayedDeploymentEveRefusal (status : deployment_status)
    (releaseSummary : option json) : option string :=
  match status with
  | DeploymentStatus.archived | DeploymentStatus.archiving => None
  | _ => unsupportedReleaseEveVersionMessage releaseSummary
  end.

Definition permanentDeploymentActivationRefusal (deployment : option Deployment.deployment_row)
    (releaseSummary : option json) : option string :=
  match deployment with
  | None => Some "Deployment no longer exists."
  | Some d =>
      let refusal st :=
        Some ("Deployment " +:+ Deployment.id d +:+ " is " +:+ st
              +:+ " and can never activate again.") in
      match Deployment.status d with
      | DeploymentStatus.archiving => refusal "archiving"
      | DeploymentStatus.archived => refusal "archived"
      | _ => unsupportedReleaseEveVersionMessage releaseSummary
      end
  end.

Record eve_version_info : Type := mk_eve_version_info {
  ev_version : option string; ev_expected : string; ev_supportedRanges : list string;
  ev_supported : bool; ev_sourceRevisionId : option string
}.

Definition createEveVersionInfo (version sourceRevisionId : option string) : eve_version_info :=
  mk_eve_version_info version SUPPORTED_EVE_VERSION_RANGE SUPPORTED_EVE_VERSION_RANGES
    (isSupportedEveDependency version) sourceRevisionId.

(** ** The version of a deployment *)

(** A value that is neither [null] nor [undefined]. *)
Definition non_nullish (j : option json) : option json :=
  match j with Some JNull => None | _ => j end.

Section EveVersion.
Context `{Platform} `{NodePlatform}.

(** [content] of the file [package.json]. *)
Definition readDeclaredEveVersion (files : list (string * string)) : option string :=
  file ← find (fun f => bool_decide (f.1 = "package.json")) files;
  parsed ← json_parse file.2;
  let eve key := non_nullish (non_nullish (json_get key parsed) ≫= json_get "eve") in
  truthy (js_trim <$> json_string (or_else (eve "dependencies") (eve "devDependencies"))).

(** The build's version outranks the declared one; a package.json is read when
    neither is recorded. *)
Definition deployment_eve_version (d : database) (revision : SourceRevision.source_revision_row)
    (release : Release.release_row) : option string :=
  let version := or_else
    (json_string (Release.summary release ≫= json_get "eveVersionResolved"))
    (json_string (json_get "eveVersion" (SourceRevision.summary revision))) in
  match truthy version with
  | Some v => Some v
  | None =>
      match find_where (fun f => bool_decide (SourceFile.revisionId f = SourceRevision.id revision)
                                 && bool_decide (SourceFile.path f = "package.json"))
              (sourceFiles d) with
      | Some f => readDeclaredEveVersion [(SourceFile.path f, SourceFile.content f)]
      | None => version
      end
  end.

Definition getDeploymentEveVersion (deploymentId : string) : Tx (option eve_version_info) :=
  read (fun d =>
    deployment ← deployments d !! deploymentId;
    release ← releases d !! Deployment.releaseId deployment;
    revision ← sourceRevisions d !! Release.sourceRevisionId release;
    Some (createEveVersionInfo (deployment_eve_version d revision release)
            (Some (SourceRevision.id revision)))).
End EveVersion.

(** ** Facts *)

(** A refusal is recognised after it has travelled as plain text. *)
Lemma unsupported_message_recognised spec :
  isUnsupportedEveVersionMessage (unsupportedEveVersionMessage spec) = true.
Proof. by destruct spec. Qed.

Example pinned_lines :
  eveLineOfSpecifier <$> [Some "1.0.0-rc.6"; Some " ~1.0.3 "; Some "1.0.x"; Some "^0.83.2"; Some "01.0"]
  = [Some "1.0"; Some "1.0"; Some "1.0"; Some "0.83"; Some "1.0"].
Proof. vm_compute. reflexivity. Qed.

Example unpinned_lines :
  eveLineOfSpecifier <$> [Some "^1.0.0"; Some "~1.0"; Some "1.0.x-rc"; Some "1"; Some "latest"; None]
  = [None; None; None; None; None; None].
Proof. vm_compute. reflexivity. Qed.
