(* ===== verification/GatewayText.v ===== *)
(** * The gateway's reading of a request

    The pure part of [apps/gateway/src]: which Eve operation a path names
    ([packages/core/src/eve.ts]), the front-door split
    ([packages/core/src/front-door.ts]), the host names it serves, the affinity
    cookie, the headers it forwards ([gateway-routing.ts],
    [gateway-front-door.ts]) and the create-once and MCP requests it finds in a
    body ([gateway-durable-routing.ts]).

    A [Headers] object is the list of its entries in iteration order, names in
    lower case. *)

From S2P Require Import Prelude Strings Encoding EveEvents.

Open Scope eve_scope.
Open Scope string_scope.

(** ** Eve session requests *)

Module EveRequestKind.
Inductive eve_request_kind :=
  | initial | continuation | cancel | reset | end_ | stream | clear | compact
  | mcp_start | mcp_invocation.
#[global] Instance eve_request_kind_eq : EqDecision eve_request_kind.
Proof. solve_decision. Defined.
End EveRequestKind.
Abbreviation eve_request_kind := EveRequestKind.eve_request_kind.

Record eve_session_request : Type := mk_eve_request {
  er_kind : eve_request_kind; er_sessionId : option string
}.

#[export] Instance eve_session_request_eq_dec : EqDecision eve_session_request.
Proof. solve_decision. Defined.

(** The segments after [/eve/v1/session/]. *)
Definition session_segments (pathname : string) : option (list string) :=
  match split_at slash pathname with
  | a :: b :: c :: d :: rest =>
      if bool_decide ([a; b; c; d] = [""; "eve"; "v1"; "session"]) then Some rest else None
  | _ => None
  end.

(** [(?:\/(cancel|stream|clear|compact|reset|end))?], with [end] an alias of
    [reset]. *)
Definition suffix_kind (suffix : option string) : option eve_request_kind :=
  match suffix with
  | None => Some EveRequestKind.continuation
  | Some s =>
      if bool_decide (s = "cancel") then Some EveRequestKind.cancel
      else if bool_decide (s = "stream") then Some EveRequestKind.stream
      else if bool_decide (s = "clear") then Some EveRequestKind.clear
      else if bool_decide (s = "compact") then Some EveRequestKind.compact
      else if bool_decide (s = "reset") || bool_decide (s = "end") then Some EveRequestKind.reset
      else None
  end.

(** The method a request of the kind must have. *)
Definition kind_method (kind : eve_request_kind) : string :=
  match kind with EveRequestKind.stream => "GET" | _ => "POST" end.

Definition classify_canonical (method segment : string) (suffix : option string)
    : option eve_session_request :=
  if bool_decide (segment = "") then None
  else
    kind ← suffix_kind suffix;
    if bool_decide (method = kind_method kind) then
      sessionId ← decodeURIComponent segment; Some (mk_eve_request kind (Some sessionId))
    else None.

(** The streams below a session: every identity of the path must decode. *)
Definition classify_stream (method session : string) (others : list string)
    : option eve_session_request :=
  if bool_decide (method = "GET") then
    sessionId ← decodeURIComponent session;
    _ ← mapM decodeURIComponent others;
    Some (mk_eve_request EveRequestKind.stream (Some sessionId))
  else None.

(** The three patterns, which differ in the number of segments. *)
Definition classify_segments (method : string) (segments : list string)
    : option eve_session_request :=
  match segments with
  | [segment] => classify_canonical method segment None
  | [segment; suffix] => classify_canonical method segment (Some suffix)
  | [session; family; leaf] =>
      if negb (bool_decide (session = "")) && bool_decide (family = "descendants")
         && bool_decide (leaf = "stream")
      then classify_stream method session [] else None
  | [session; family; call; child; leaf] =>
      if forallb (fun s => negb (bool_decide (s = ""))) [session; call; child]
         && bool_decide (family = "subagents") && bool_decide (leaf = "stream")
      then classify_stream method session [call; child] else None
  | _ => None
  end.

Definition classifyEveSessionRequest (method pathname : string) : option eve_session_request :=
  if bool_decide (method = "POST") && bool_decide (pathname = "/eve/v1/session")
  then Some (mk_eve_request EveRequestKind.initial None)
  else segments ← session_segments pathname; classify_segments method segments.

Definition isEveSessionNamespace (pathname : string) : bool :=
  bool_decide (pathname = "/eve/v1/session") || String.prefix "/eve/v1/session/" pathname.

Definition isWorkflowQueueNamespace (pathname : string) : bool :=
  bool_decide (pathname = "/.well-known/workflow/v1")
  || String.prefix "/.well-known/workflow/v1/" pathname.

(** [/^\/\.well-known\/workflow\/v1\/webhook\/[^/]+$/] *)
Definition isWorkflowWebhookRoute (pathname : string) : bool :=
  match split_at slash pathname with
  | [a; b; c; d; e; token] =>
      bool_decide ([a; b; c; d; e] = [""; ".well-known"; "workflow"; "v1"; "webhook"])
      && negb (bool_decide (token = ""))
  | _ => false
  end.

(** ** The front door *)

Module FrontDoorTarget.
Inductive front_door_target := api | web.
End FrontDoorTarget.
Abbreviation front_door_target := FrontDoorTarget.front_door_target.

Definition PUBLIC_API_PREFIX : string := "/api".
Definition WELL_KNOWN_PREFIX : string := "/.well-known".

Definition under (prefix pathname : string) : bool :=
  bool_decide (pathname = prefix) || String.prefix (prefix +:+ "/") pathname.

Definition classifyFrontDoorPath (pathname : string) : front_door_target * string :=
  if under WELL_KNOWN_PREFIX pathname then (FrontDoorTarget.api, pathname)
  else if under PUBLIC_API_PREFIX pathname then (FrontDoorTarget.api, pathname)
  else (FrontDoorTarget.web, pathname).

(** ** Host names *)

Definition canonicalAuthority (value : string) : string := to_lower (js_trim value).

(** [value.indexOf(c)] *)
Fixpoint indexOf (c : Ascii.ascii) (s : string) : option nat :=
  match s with
  | "" => None
  | String x r => if bool_decide (x = c) then Some 0 else S <$> indexOf c r
  end.

(** The text before the first [c], the whole text when there is none. *)
Fixpoint before_char (c : Ascii.ascii) (s : string) : string :=
  match s with
  | "" => ""
  | String x r => if bool_decide (x = c) then "" else String x (before_char c r)
  end.

(** [authority.slice(1, authority.indexOf("]"))]: without a bracket the index is
    -1, and the slice ends one character early. *)
Definition hostnameFromAuthority (authority : string) : string :=
  match authority with
  | String c r =>
      if ascii_is 91 c then
        match indexOf (Ascii.ascii_of_nat 93) r with
        | Some n => String.substring 0 n r
        | None => slice_off 1 r
        end
      else before_char (Ascii.ascii_of_nat 58) authority
  | "" => ""
  end.

(** [value.endsWith(suffix)] *)
Definition endsWith (s suffix : string) : bool :=
  bool_decide (String.length suffix <= String.length s)%nat
  && bool_decide (slice_from (String.length s - String.length suffix) s = suffix).

Definition isAllowedHostname (hostname : string) (domains : list string) : bool :=
  existsb (fun domain =>
    let normalized := strip_dots (to_lower domain) in
    endsWith hostname ("." +:+ normalized)
    && bool_decide (String.length normalized + 1 < String.length hostname)%nat) domains.

Definition matchingBaseDomain (hostname : string) (domains : list string) : option string :=
  find (fun domain => endsWith hostname ("." +:+ domain))
    ((fun domain => strip_dots (to_lower domain)) <$> domains).

(** ** Headers *)

Abbreviation headers := (list (string * string)).

Definition hdr_has (hs : headers) (name : string) : bool :=
  existsb (fun h => bool_decide (h.1 = to_lower name)) hs.

(** [headers.get(name)] of entries with distinct names. *)
Fixpoint hdr_get (hs : headers) (name : string) : option string :=
  match hs with
  | [] => None
  | (n, v) :: hs => if bool_decide (n = to_lower name) then Some v else hdr_get hs name
  end.

(** [headers.append(name, value)]: values of one name are joined. *)
Fixpoint hdr_join (hs : headers) (name value : string) : headers :=
  match hs with
  | [] => [(name, value)]
  | (n, v) :: hs =>
      if bool_decide (n = name)
      then (n, v +:+ (if bool_decide (name = "cookie") then "; " else ", ") +:+ value) :: hs
      else (n, v) :: hdr_join hs name value
  end.

Definition hdr_append (hs : headers) (name value : string) : headers :=
  hdr_join hs (to_lower name) value.

(** [headers.set(name, value)] *)
Definition hdr_set (hs : headers) (name value : string) : headers :=
  (base.filter (fun h => h.1 <> to_lower name) hs ++ [(to_lower name, value)])%list.

Definition hopByHopHeaders : list string :=
  ["connection"; "keep-alive"; "proxy-authenticate"; "proxy-authorization"; "te"; "trailer";
   "transfer-encoding"; "upgrade"].

(** [value.split(";").map(trim).filter(...).join("; ")] *)
Definition without_affinity (cookie : string) : string :=
  String.concat "; "
    (base.filter (fun part => String.prefix "eveland_affinity=" part = false)
       (js_trim <$> split_at (Ascii.ascii_of_nat 59) cookie)).

(** Is the entry kept out of the forwarded request? *)
Definition stripped_name (lower : string) : bool :=
  bool_decide (lower = "host") || bool_decide (lower ∈ hopByHopHeaders)
  || bool_decide (lower = "forwarded") || String.prefix "x-forwarded-" lower
  || String.prefix "x-eveland-" lower.

Definition forward_header (hs : headers) (entry : string * string) : headers :=
  let lower := to_lower entry.1 in
  if stripped_name lower then hs
  else if bool_decide (lower = "cookie") then
    let cookie := without_affinity entry.2 in
    if bool_decide (cookie = "") then hs else hdr_append hs entry.1 cookie
  else hdr_append hs entry.1 entry.2.

(** The value in double quotes, its own quotes and backslashes removed. *)
Definition quoteForwarded (value : string) : string :=
  let quote := String (Ascii.ascii_of_nat 34) "" in
  quote +:+ String.string_of_list_ascii
    (base.filter (fun c => ascii_is 34 c || ascii_is 92 c = false)
       (String.list_ascii_of_string value)) +:+ quote.

(** The headers the gateway sets itself. *)
Definition own_headers (hs : headers) (authority protocol requestId : string)
    (remoteIp : option string) : headers :=
  let proto := if bool_decide (protocol = "https:") then "https" else "http" in
  let forwardedFor := default "unknown" remoteIp in
  let hs := hdr_set hs "host" authority in
  let hs := hdr_set hs "forwarded"
    ("for=" +:+ quoteForwarded forwardedFor +:+ ";proto=" +:+ proto +:+ ";host="
     +:+ quoteForwarded authority) in
  let hs := hdr_set hs "x-forwarded-for" forwardedFor in
  let hs := hdr_set hs "x-forwarded-host" authority in
  let hs := hdr_set hs "x-forwarded-proto" proto in
  hdr_set hs "x-eveland-request-id" requestId.

Definition buildUpstreamHeaders (input : headers) (authority protocol requestId : string)
    (remoteIp injectedCallerToken : option string) : headers :=
  let hs := own_headers (foldl forward_header [] input) authority protocol requestId remoteIp in
  match truthy injectedCallerToken with
  | Some token =>
      if hdr_has hs "authorization" then hs
      else hdr_set hs "authorization" ("Bearer " +:+ token)
  | None => hs
  end.

Definition buildInternalPlaygroundHeaders (input : headers) (authority : string)
    (credentials : headers) : headers :=
  let hs := [("host", authority)] in
  let hs := match truthy (hdr_get input "accept") with
            | Some accept => hdr_set hs "accept" accept | None => hs end in
  let hs := match truthy (hdr_get input "content-type") with
            | Some type => hdr_set hs "content-type" type | None => hs end in
  foldl (fun hs h => hdr_set hs h.1 h.2) hs credentials.

Definition requestHasBody (method : string) : bool :=
  negb (bool_decide (method = "GET")) && negb (bool_decide (method = "HEAD")).

(** [DROPPED_REQUEST_HEADERS] of the front door. *)
Definition DROPPED_REQUEST_HEADERS : list string :=
  (hopByHopHeaders
   ++ ["accept-encoding"; "host"; "forwarded"; "x-forwarded-for"; "x-real-ip"])%list.

(** [url.protocol.replace(/:$/, "")] *)
Definition without_colon (protocol : string) : string :=
  if endsWith protocol ":" then String.substring 0 (String.length protocol - 1) protocol
  else protocol.

Definition front_door_headers (input : headers) (host protocol : string)
    (remoteIp : option string) : headers :=
  let hs := foldl (fun hs h =>
      if bool_decide (to_lower h.1 ∈ DROPPED_REQUEST_HEADERS) then hs
      else hdr_append hs h.1 h.2) [] input in
  let hs := hdr_set hs "x-forwarded-host" host in
  let hs := hdr_set hs "x-forwarded-proto" (without_colon protocol) in
  hdr_set hs "x-forwarded-for" (default "unknown" remoteIp).

(** ** The affinity cookie *)

Module AffinitySource.
Inductive affinity_source := cookie | version_key | generated.
End AffinitySource.
Abbreviation affinity_source := AffinitySource.affinity_source.

Record affinity : Type := mk_affinity {
  af_key : string; af_fingerprint : string; af_source : affinity_source;
  af_cookieValue : option string
}.

Section Affinity.
Context `{NodePlatform}.

Definition signAffinityCookie (key secret : string) : string :=
  key +:+ "." +:+ base64url (hmac_sha256 secret key).

Definition verifyAffinityCookie (value secret : string) : option string :=
  match lastIndexOf (Ascii.ascii_of_nat 46) value with
  | None | Some O => None
  | Some separator =>
      let key := String.substring 0 separator value in
      let signature := slice_from (separator + 1) value in
      let actual := from_base64url signature in
      if negb (bool_decide (base64url actual = signature)) then None
      else if bool_decide (actual = hmac_sha256 secret key) then Some key else None
  end.

Definition affinityResult (key : string) (source : affinity_source) (cookieValue : option string)
    : affinity :=
  mk_affinity key ("sha256-" +:+ hex_of (sha256 key)) source cookieValue.

(** [eveland_affinity=([^;]+)] at the head of the text. *)
Definition affinity_value (s : string) : option string :=
  v ← strip_prefix "eveland_affinity=" s;
  let value := before_char (Ascii.ascii_of_nat 59) v in
  if bool_decide (value = "") then None else Some value.

(** [;\s*eveland_affinity=([^;]+)] anywhere in it. *)
Fixpoint affinity_search (s : string) : option string :=
  match s with
  | "" => None
  | String c r =>
      if ascii_is 59 c then or_else (affinity_value (trim_start r)) (affinity_search r)
      else affinity_search r
  end.

Definition affinity_cookie (cookies : string) : option string :=
  or_else (affinity_value cookies) (affinity_search cookies).

(** [random]: the 32 bytes drawn. *)
Definition affinityKey (hs : headers) (secret random : string) : affinity :=
  let decoded :=
    cookie ← hdr_get hs "cookie"; value ← affinity_cookie cookie; decodeURIComponent value in
  match decoded ≫= (fun value => verifyAffinityCookie value secret) with
  | Some key => affinityResult key AffinitySource.cookie None
  | None =>
      match truthy (js_trim <$> hdr_get hs "x-eveland-version-key") with
      | Some versionKey => affinityResult versionKey AffinitySource.version_key None
      | None =>
          let key := base64url random in
          affinityResult key AffinitySource.generated (Some (signAffinityCookie key secret))
      end
  end.

Definition serializeAffinityCookie (value domain : string) (secure : bool) : string :=
  "eveland_affinity=" +:+ encodeURIComponent value +:+ "; Domain=" +:+ domain
  +:+ "; Path=/; HttpOnly;" +:+ (if secure then " Secure;" else "") +:+ " SameSite=Lax".

(** ** Bodies *)

Definition createOperationKey (operationId secret : string) : string :=
  "hmac-sha256-" +:+ hex_of (hmac_sha256 secret operationId).

(** A body is [None] for [null] and [undefined]. *)
Definition jsonObjectFromBody (body : option string) : option json :=
  body ← truthy body; parsed ← json_parse body;
  match parsed with JObj _ => Some parsed | _ => None end.

Definition operationIdFromBody (body : option string) : option string :=
  truthy (js_trim <$> json_string (record_field "operationId" (jsonObjectFromBody body))).

(** [String(value)] of a parsed value, [None] when it throws: the own
    [toString] of a parsed object is never a function. *)
Fixpoint js_string (j : json) : option string :=
  match j with
  | JNull => Some "null"
  | JBool b => Some (if b then "true" else "false")
  | JNum n => Some (number_string n)
  | JStr s => Some s
  | JArr l =>
      String.concat "," <$>
        mapM (fun j => match j with JNull => Some "" | _ => js_string j end) l
  | JObj fs => match field "toString" fs with Some _ => None | None => Some "[object Object]" end
  end.

Definition classifyMcpInvocation (body : option string) : result (option eve_session_request) :=
  let parsed := jsonObjectFromBody body in
  let params := record_field "params" parsed in
  match json_string (record_field "jsonrpc" parsed), json_string (record_field "method" parsed),
        params with
  | Some jsonrpc, Some method, Some (JObj fields) =>
      if negb (bool_decide (jsonrpc = "2.0")) || negb (bool_decide (method = "tools/call"))
      then Ok None
      else
        let name := field "name" fields in
        if bool_decide (json_string name = Some "agent_start")
        then Ok (Some (mk_eve_request EveRequestKind.mcp_start None))
        else
          match match name with None => Some "undefined" | Some j => js_string j end with
          | None => Err (Error "Cannot convert object to primitive value")
          | Some tool =>
              if negb (bool_decide (tool ∈ ["agent_get"; "agent_update"; "agent_cancel"]))
              then Ok None
              else Ok (
                id ← truthy (js_trim <$>
                  json_string (record_field "invocationId" (field "arguments" fields)));
                Some (mk_eve_request EveRequestKind.mcp_invocation (Some id)))
          end
  | _, _, _ => Ok None
  end.

Definition mcpInvocationIdFromValue (parsed : json) : option string :=
  let content := record_field "structuredContent" (record_field "result" (Some parsed)) in
  truthy (js_trim <$> json_string (record_field "invocationId" content)).
End Affinity.

(** ** Facts: what the encodings leave out *)

Lemma all_chars_app p s t : all_chars p (s +:+ t) = all_chars p s && all_chars p t.
Proof.
  induction s as [|c s IH]; [done|]. rewrite string_app_cons. unfold all_chars in *. simpl.
  by rewrite IH, andb_assoc.
Qed.

Lemma includes_all_chars (p : Ascii.ascii -> bool) c s :
  p c = false -> all_chars p s = true -> includes c s = false.
Proof.
  intros Hc. induction s as [|x s IH]; [done|]. rewrite includes_cons. unfold all_chars in *.
  simpl. intros [Hx Hs]%andb_true_iff. rewrite IH by done.
  rewrite bool_decide_eq_false_2; [done | congruence].
Qed.

Lemma all_chars_impl (p q : Ascii.ascii -> bool) s :
  forallb (fun n => implb (p (chr n)) (q (chr n))) (seq 0 256) = true ->
  all_chars p s = true -> all_chars q s = true.
Proof.
  intros Hpq. induction s as [|c s IH]; [done|]. unfold all_chars in *. simpl.
  intros [Hc Hs]%andb_true_iff. rewrite IH by done.
  pose proof (byte_cases (fun c => implb (p c) (q c)) Hpq c) as Hi. simpl in Hi. rewrite Hc in Hi.
  simpl in Hi. by rewrite Hi.
Qed.

(** The characters an encoded component is made of. *)
Definition uri_char (c : Ascii.ascii) : bool := uri_unreserved c || ascii_is 37 c.

Lemma percent_chars c : all_chars uri_char (percent c) = true.
Proof.
  exact (byte_cases (fun c => all_chars uri_char (percent c))
           ltac:(vm_compute; reflexivity) c).
Qed.

Lemma encodeURIComponent_chars s : all_chars uri_char (encodeURIComponent s) = true.
Proof.
  induction s as [|c s IH]; [done|]. cbn [encodeURIComponent]. rewrite all_chars_app, IH.
  destruct (uri_unreserved c) eqn:Hc; [|by rewrite percent_chars].
  unfold all_chars, uri_char. simpl. by rewrite Hc.
Qed.

Lemma encodeURIComponent_nonempty s : s <> "" -> encodeURIComponent s <> "".
Proof. destruct s as [|c s]; [done|]. intros _. simpl. by destruct (uri_unreserved c). Qed.

Lemma utf8_ascii s : all_chars (fun c => code c <? 128)%nat s = true -> valid_utf8 s = true.
Proof.
  unfold valid_utf8. induction s as [|c s IH]; [done|]. unfold all_chars in *. simpl.
  intros [Hc Hs]%andb_true_iff. unfold utf8_tail. rewrite Hc. by apply IH.
Qed.

Lemma before_char_stop c s t : includes c s = false -> before_char c (s +:+ String c t) = s.
Proof.
  induction s as [|x s IH].
  - intros _. simpl. by rewrite bool_decide_eq_true_2.
  - rewrite includes_cons, string_app_cons. intros [Hx Hs]%orb_false_iff. simpl.
    by rewrite Hx, (IH Hs).
Qed.

Lemma before_char_none c s : includes c s = false -> before_char c s = s.
Proof.
  induction s as [|x s IH]; [done|]. rewrite includes_cons. intros [Hx Hs]%orb_false_iff. simpl.
  by rewrite Hx, (IH Hs).
Qed.

(** ** Facts: the affinity cookie *)

Section AffinityFacts.
Context `{NodePlatform}.

(** A cookie is accepted exactly when the gateway signed it. *)
Lemma verifyAffinityCookie_ok value secret key :
  verifyAffinityCookie value secret = Some key <->
  key <> "" /\ value = signAffinityCookie key secret.
Proof.
  unfold verifyAffinityCookie. split.
  - destruct (lastIndexOf _ value) as [[|n]|] eqn:Hl; [done| |done].
    apply lastIndexOf_split in Hl as (s1 & s2 & -> & Hn). rewrite <- Hn, substring_app.
    rewrite (slice_from_app 1 s1). change (slice_from 1 (String ?c ?s)) with s.
    destruct (bool_decide _) eqn:Hcanon; [|done]. apply bool_decide_eq_true in Hcanon. simpl.
    case_bool_decide as Hsig; [|done]. intros [= <-]. split; [by destruct s1|].
    unfold signAffinityCookie. by rewrite <- Hsig, Hcanon.
  - intros [Hne ->]. unfold signAffinityCookie. change ("." +:+ ?s) with (String (chr 46) s).
    rewrite lastIndexOf_last.
    2: { apply (includes_all_chars base64_char); [done | apply base64url_chars]. }
    destruct (String.length key) as [|n] eqn:Hn; [by destruct key|]. rewrite <- Hn, substring_app.
    rewrite (slice_from_app 1 key). change (slice_from 1 (String ?c ?s)) with s.
    rewrite from_base64url_encode. by rewrite !bool_decide_eq_true_2.
Qed.

End AffinityFacts.

(** A cookie of another name, as a browser sends it. *)
Definition other_cookie (c : string) : bool :=
  negb (includes (chr 59) c)
  && match c with String h _ => between 33 127 (code h) | "" => false end
  && negb (String.prefix "eveland_affinity=" c).

Lemma prefix_stop sep p s t :
  includes sep p = false -> String.prefix p (s +:+ String sep t) = String.prefix p s.
Proof.
  revert s. induction p as [|x p IH]; intros [|y s]; [done..| |].
  - rewrite includes_cons. intros [Hx _]%orb_false_iff. apply bool_decide_eq_false in Hx. simpl.
    by destruct (Ascii.ascii_dec x sep).
  - rewrite includes_cons. intros [_ Hp]%orb_false_iff. rewrite string_app_cons. simpl.
    destruct (Ascii.ascii_dec x y); [by apply IH | done].
Qed.

Lemma affinity_search_skip s t :
  includes (chr 59) s = false ->
  affinity_search (s +:+ String (chr 59) t)
  = or_else (affinity_value (trim_start t)) (affinity_search t).
Proof.
  induction s as [|x s IH]; [done|]. rewrite includes_cons, string_app_cons.
  intros [Hx Hs]%orb_false_iff. cbn [affinity_search]. unfold ascii_is.
  rewrite bool_decide_eq_false_2; [by apply IH|]. intros Hc.
  apply bool_decide_eq_false in Hx. apply Hx. rewrite <- (chr_code x). by rewrite Hc.
Qed.

Lemma affinity_cookie_skip c h rest :
  other_cookie c = true -> between 33 127 (code h) = true ->
  affinity_cookie (c +:+ "; " +:+ String h rest) = affinity_cookie (String h rest).
Proof.
  intros [[Hc _]%andb_true_iff Hp]%andb_true_iff Hh.
  apply negb_true_iff in Hc, Hp.
  change ("; " +:+ String h rest) with (String (chr 59) (String (chr 32) (String h rest))).
  unfold affinity_cookie at 1. rewrite affinity_search_skip by done.
  unfold affinity_value at 1, strip_prefix. rewrite prefix_stop, Hp by done.
  change (trim_start (String (chr 32) (String h rest))) with (trim_start (String h rest)).
  rewrite trim_start_token; [done|].
  apply andb_true_iff in Hh as [?%Nat.leb_le ?%Nat.leb_le]. lia.
Qed.

(** The gateway's cookie is found wherever the browser puts it. *)
Lemma affinity_cookie_found before value after :
  forallb other_cookie before = true -> value <> "" -> includes (chr 59) value = false ->
  affinity_cookie (String.concat "; " (before ++ ("eveland_affinity=" +:+ value) :: after))
  = Some value.
Proof.
  intros Hb Hne Hv.
  assert (Hhead : forall l, affinity_cookie (String.concat "; " (("eveland_affinity=" +:+ value) :: l))
                            = Some value).
  { intros l. unfold affinity_cookie, affinity_value.
    assert (exists t, String.concat "; " (("eveland_affinity=" +:+ value) :: l)
                      = "eveland_affinity=" +:+ value +:+ t /\
                      before_char (chr 59) (value +:+ t) = value) as (t & -> & Ht).
    { destruct l as [|x l].
      - exists "". rewrite !string_app_nil_r. split; [done | by apply before_char_none].
      - exists ("; " +:+ String.concat "; " (x :: l)). rewrite <- string_app_assoc.
        split; [done | by apply before_char_stop]. }
    rewrite strip_prefix_app. simpl. rewrite Ht. by rewrite bool_decide_eq_false_2. }
  induction before as [|c before IH]; [apply Hhead|]. simpl in Hb.
  apply andb_true_iff in Hb as [Hc Hb]. specialize (IH Hb).
  assert (exists h r, String.concat "; " (before ++ ("eveland_affinity=" +:+ value) :: after)
                      = String h r /\ between 33 127 (code h) = true) as (h & r & Hr & Hh).
  { destruct before as [|c' before].
    - destruct after; by eexists _, _.
    - simpl in Hb. apply andb_true_iff in Hb as [Hc' _].
      apply andb_true_iff in Hc' as [[_ Hc']%andb_true_iff _]. destruct c' as [|h r]; [done|].
      cbn [app String.concat].
      destruct (before ++ (("eveland_affinity=" +:+ value) :: after))%list; by eexists _, _. }
  rewrite <- app_comm_cons.
  replace (String.concat "; " (c :: (before ++ ("eveland_affinity=" +:+ value) :: after)%list))
    with (c +:+ "; " +:+ String.concat "; " (before ++ ("eveland_affinity=" +:+ value) :: after)%list)
    by (by destruct before).
  rewrite Hr in IH |- *. by rewrite affinity_cookie_skip.
Qed.

(** ** Facts: session paths *)

Lemma split_at_cons sep s : exists w ws, split_at sep s = w :: ws.
Proof.
  destruct s as [|c s]; simpl; [by eexists _, _|]. case_bool_decide; [by eexists _, _|].
  destruct (split_at sep s); by eexists _, _.
Qed.

Lemma split_at_concat sep s : String.concat (String sep "") (split_at sep s) = s.
Proof.
  induction s as [|c s IH]; [done|]. simpl. destruct (split_at_cons sep s) as (w & ws & Hw).
  rewrite Hw in IH |- *. case_bool_decide as Hc.
  - subst c. change (String.concat (String sep "") ("" :: w :: ws))
      with (String sep (String.concat (String sep "") (w :: ws))). by rewrite IH.
  - rewrite <- IH. by destruct ws.
Qed.

Lemma session_segments_namespace pathname rest :
  session_segments pathname = Some rest -> rest <> [] -> isEveSessionNamespace pathname = true.
Proof.
  unfold session_segments. intros Hs Hne. unfold isEveSessionNamespace. apply orb_true_iff. right.
  destruct (split_at slash pathname) as [|a [|b [|c [|d l]]]] eqn:Hsp; try done.
  case_bool_decide as Hp; [|done]. injection Hs as ->. injection Hp as -> -> -> ->.
  rewrite <- (split_at_concat slash pathname), Hsp. destruct rest as [|x rest]; [done|].
  change (String.prefix "/eve/v1/session/"
            ("/eve/v1/session/" +:+ String.concat (String slash "") (x :: rest)) = true).
  apply prefix_app.
Qed.

(** The segments below a session. *)
Lemma session_segments_app segment rest :
  includes slash segment = false ->
  session_segments ("/eve/v1/session/" +:+ segment +:+ String slash rest)
    = Some (segment :: split_at slash rest) /\
  session_segments ("/eve/v1/session/" +:+ segment) = Some [segment].
Proof.
  intros Hs. unfold session_segments.
  assert (Hsplit : forall t, split_at slash ("/eve/v1/session/" +:+ t)
            = "" :: "eve" :: "v1" :: "session" :: split_at slash t) by reflexivity.
  rewrite !Hsplit. rewrite split_at_app, (split_at_none _ segment) by done.
  by rewrite bool_decide_eq_true_2.
Qed.

Lemma encoded_segment s :
  s <> "" -> includes slash (encodeURIComponent s) = false /\ encodeURIComponent s <> "".
Proof.
  intros Hne. split; [|by apply encodeURIComponent_nonempty].
  apply (includes_all_chars uri_char); [done | apply encodeURIComponent_chars].
Qed.

(** What a session path ends in, by the operation. *)
Definition session_suffixes : list (eve_request_kind * string) :=
  [(EveRequestKind.continuation, ""); (EveRequestKind.cancel, "/cancel");
   (EveRequestKind.stream, "/stream"); (EveRequestKind.clear, "/clear");
   (EveRequestKind.compact, "/compact"); (EveRequestKind.reset, "/reset");
   (EveRequestKind.reset, "/end"); (EveRequestKind.stream, "/descendants/stream")].

Definition session_path (sessionId suffix : string) : string :=
  "/eve/v1/session/" +:+ encodeURIComponent sessionId +:+ suffix.

(** The request a path names, when it comes with the method of its kind. *)
Definition under_method (method : string) (kind : eve_request_kind) (sessionId : string)
    : option eve_session_request :=
  if bool_decide (method = kind_method kind) then Some (mk_eve_request kind (Some sessionId))
  else None.

Lemma classify_not_create method pathname :
  pathname <> "/eve/v1/session" ->
  classifyEveSessionRequest method pathname
  = (segments ← session_segments pathname; classify_segments method segments).
Proof.
  intros Hne. unfold classifyEveSessionRequest.
  rewrite (bool_decide_eq_false_2 (pathname = _)) by done. by rewrite andb_false_r.
Qed.

Lemma below_session_not_create s : ("/eve/v1/session/" +:+ s) <> "/eve/v1/session".
Proof. simpl. discriminate. Qed.

Lemma classify_canonical_ok method sessionId suffix kind :
  valid_utf8 sessionId = true -> sessionId <> "" -> suffix_kind suffix = Some kind ->
  classify_canonical method (encodeURIComponent sessionId) suffix
  = under_method method kind sessionId.
Proof.
  intros Hv Hne Hk. unfold classify_canonical.
  rewrite bool_decide_eq_false_2 by by apply encodeURIComponent_nonempty. rewrite Hk. simpl.
  unfold under_method. case_bool_decide; [|done]. by rewrite decode_encodeURIComponent.
Qed.

Lemma classify_session_path method sessionId kind suffix :
  valid_utf8 sessionId = true -> sessionId <> "" -> (kind, suffix) ∈ session_suffixes ->
  classifyEveSessionRequest method (session_path sessionId suffix)
  = under_method method kind sessionId.
Proof.
  intros Hv Hne Hin. unfold session_path. rewrite classify_not_create by apply below_session_not_create.
  destruct (encoded_segment sessionId Hne) as [Hs He].
  pose proof (fun rest => proj1 (session_segments_app _ rest Hs)) as Hseg.
  assert (Hcanon : forall word, suffix = String slash word -> suffix_kind (Some word) = Some kind ->
            includes slash word = false ->
            classifyEveSessionRequest method (session_path sessionId suffix)
            = under_method method kind sessionId).
  { intros word -> Hk Hw. unfold session_path.
    rewrite classify_not_create by apply below_session_not_create. rewrite Hseg.
    rewrite split_at_none by done. simpl. by apply classify_canonical_ok. }
  rewrite <- classify_not_create by apply below_session_not_create.
  unfold session_suffixes in Hin. repeat (apply elem_of_cons in Hin as [Hin|Hin]);
    [|..|by apply not_elem_of_nil in Hin]; injection Hin as -> ->;
    try by (eapply Hcanon; [reflexivity|reflexivity|reflexivity]).
  - rewrite string_app_nil_r. rewrite classify_not_create by apply below_session_not_create.
    destruct (session_segments_app (encodeURIComponent sessionId) "" Hs) as [_ ->]. simpl.
    by apply classify_canonical_ok.
  - change "/descendants/stream" with (String slash "descendants/stream").
    rewrite classify_not_create by apply below_session_not_create. rewrite Hseg.
    change (split_at slash "descendants/stream") with ["descendants"; "stream"]. simpl.
    rewrite bool_decide_eq_false_2 by done. simpl. unfold classify_stream, under_method. simpl.
    case_bool_decide; [|done]. by rewrite decode_encodeURIComponent.
Qed.

Lemma classify_accepts method pathname r :
  classifyEveSessionRequest method pathname = Some r ->
  isEveSessionNamespace pathname = true /\ method = kind_method (er_kind r) /\
  (er_sessionId r = None <-> er_kind r = EveRequestKind.initial).
Proof.
  unfold classifyEveSessionRequest. destruct (_ && _) eqn:Hc.
  - intros [= <-]. apply andb_true_iff in Hc as [->%bool_decide_eq_true ->%bool_decide_eq_true].
    done.
  - clear Hc. destruct (session_segments pathname) as [rest|] eqn:Hs; [|done]. simpl. intros Hr.
    assert (Hne : rest <> []) by by intros ->.
    split; [by eapply session_segments_namespace|].
    assert (Hcanon : forall segment suffix,
              classify_canonical method segment suffix = Some r ->
              method = kind_method (er_kind r) /\
              (er_sessionId r = None <-> er_kind r = EveRequestKind.initial)).
    { intros segment suffix. unfold classify_canonical.
      destruct (bool_decide (segment = "")); [done|].
      destruct (suffix_kind suffix) as [kind|] eqn:Hk; [|done]. simpl.
      case_bool_decide; [|done]. destruct (decodeURIComponent segment); [|done].
      intros [= <-]. split; [done|]. split; [done|]. simpl. intros ->.
      unfold suffix_kind in Hk. repeat case_match; discriminate. }
    assert (Hstream : forall session others,
              classify_stream method session others = Some r ->
              method = kind_method (er_kind r) /\
              (er_sessionId r = None <-> er_kind r = EveRequestKind.initial)).
    { intros session others. unfold classify_stream. case_bool_decide; [|done].
      destruct (decodeURIComponent session); [|done]. simpl.
      destruct (mapM decodeURIComponent others); [|done]. by intros [= <-]. }
    unfold classify_segments in Hr. repeat case_match; try done; eauto.
Qed.

(** ** Facts: headers *)

(** The entries of a [Headers] object. *)
Definition header_entries (hs : headers) : Prop :=
  NoDup hs.*1 /\ forall h, h ∈ hs -> to_lower h.1 = h.1.

Section HeaderFacts.
Implicit Types (hs input : headers) (name value : string).

Lemma hdr_get_app hs hs' name :
  hdr_get (hs ++ hs')%list name = or_else (hdr_get hs name) (hdr_get hs' name).
Proof. induction hs as [|[n v] hs IH]; [done|]. simpl. by case_bool_decide. Qed.

Lemma hdr_get_None hs name : hdr_get hs name = None <-> to_lower name ∉ hs.*1.
Proof.
  induction hs as [|[n v] hs IH]; simpl; [by split; [intros _ ?%not_elem_of_nil|]|].
  rewrite not_elem_of_cons. destruct (decide (n = to_lower name)).
  - rewrite bool_decide_eq_true_2 by done. naive_solver.
  - rewrite bool_decide_eq_false_2, IH by done. naive_solver.
Qed.

Lemma hdr_join_new hs name value : name ∉ hs.*1 -> hdr_join hs name value = (hs ++ [(name, value)])%list.
Proof.
  induction hs as [|[n v] hs IH]; [done|]. rewrite fmap_cons. simpl.
  intros [Hne Hn]%not_elem_of_cons. rewrite bool_decide_eq_false_2 by done. by rewrite IH.
Qed.

Lemma hdr_set_get hs n v name :
  to_lower n = n -> to_lower name = name ->
  hdr_get (hdr_set hs n v) name = if bool_decide (name = n) then Some v else hdr_get hs name.
Proof.
  intros Hn Hname. unfold hdr_set. rewrite hdr_get_app, Hn. simpl. rewrite Hname.
  destruct (decide (name = n)) as [->|Hne].
  - rewrite !bool_decide_eq_true_2 by done.
    replace (hdr_get _ n) with (@None string); [done|]. symmetry. apply hdr_get_None.
    rewrite Hname. intros (h & Hh & Hin)%list_elem_of_fmap.
    apply list_elem_of_filter in Hin as [Hne _]. congruence.
  - rewrite !bool_decide_eq_false_2 by congruence.
    assert (Hf : hdr_get (base.filter (fun h => h.1 <> n) hs) name = hdr_get hs name).
    { induction hs as [|[k w] hs IH]; [done|]. rewrite filter_cons. simpl.
      destruct (decide (k <> n)); simpl; rewrite ?IH; [done|].
      rewrite bool_decide_eq_false_2; [done|]. rewrite Hname. intros ->. naive_solver. }
    rewrite Hf. by destruct (hdr_get hs name).
Qed.

Lemma hdr_has_get hs name : hdr_has hs name = bool_decide (is_Some (hdr_get hs name)).
Proof.
  induction hs as [|[n v] hs IH]; [done|]. simpl. rewrite IH.
  destruct (bool_decide (n = to_lower name)); done.
Qed.

(** The names a client does not decide: the hop's own, those of its connection,
    and the two name spaces of the gateway. *)
Definition gateway_names : list string :=
  ["host"; "forwarded"; "connection"; "keep-alive"; "proxy-authenticate"; "proxy-authorization";
   "te"; "trailer"; "transfer-encoding"; "upgrade"].

Definition gateway_name name : bool :=
  bool_decide (name ∈ gateway_names)
  || existsb (fun space => String.prefix space name) ["x-forwarded-"; "x-eveland-"].

Lemma stripped_gateway name : stripped_name name = gateway_name name.
Proof.
  apply eq_iff_eq_true. unfold stripped_name, gateway_name, gateway_names. cbn [existsb].
  rewrite !orb_true_iff, !bool_decide_eq_true. unfold hopByHopHeaders. rewrite !elem_of_cons.
  naive_solver.
Qed.

(** What of a client's header goes on. *)
Definition client_header input name : option string :=
  if gateway_name name then None
  else
    value ← hdr_get input name;
    if bool_decide (name = "cookie") then
      let cookie := without_affinity value in
      if bool_decide (cookie = "") then None else Some cookie
    else Some value.

Lemma forward_header_get hs entry name :
  to_lower entry.1 = entry.1 -> to_lower name = name -> entry.1 ∉ hs.*1 ->
  hdr_get (forward_header hs entry) name = or_else (hdr_get hs name) (client_header [entry] name) /\
  forall k, k ∈ (forward_header hs entry).*1 -> k ∈ hs.*1 \/ k = entry.1.
Proof.
  destruct entry as [n v]. simpl. intros Hn Hname Hnew.
  assert (Hadd : forall w, hdr_get (hs ++ [(n, w)])%list name
            = or_else (hdr_get hs name) (if bool_decide (n = name) then Some w else None)).
  { intros w. rewrite hdr_get_app. simpl. by rewrite Hname. }
  assert (Hkeys : forall w k, k ∈ (hs ++ [(n, w)])%list.*1 -> k ∈ hs.*1 \/ k = n).
  { intros w k. rewrite fmap_app, elem_of_app. simpl. rewrite list_elem_of_singleton. done. }
  assert (Hid : hdr_get hs name = or_else (hdr_get hs name) None) by by destruct (hdr_get hs name).
  unfold forward_header, client_header. simpl. rewrite Hn, stripped_gateway, Hname.
  destruct (decide (n = name)) as [<-|Hne].
  - rewrite !(bool_decide_eq_true_2 (n = n)) by done. simpl.
    destruct (gateway_name n); [by split; [|left]|].
    unfold hdr_append. rewrite Hn, !hdr_join_new by done.
    repeat case_bool_decide; (split; [|by auto || eauto]); rewrite ?Hadd; try done.
    all: by rewrite bool_decide_eq_true_2.
  - rewrite !(bool_decide_eq_false_2 (n = name)) by done. simpl.
    assert (Hskip : or_else (hdr_get hs name)
              (if gateway_name name then None else None) = hdr_get hs name)
      by (destruct (gateway_name name); by destruct (hdr_get hs name)).
    rewrite Hskip. destruct (gateway_name n); [by split; [|left]|].
    unfold hdr_append. rewrite Hn, !hdr_join_new by done.
    repeat case_bool_decide; (split; [|by auto || eauto]); rewrite ?Hadd; try done.
    all: by rewrite bool_decide_eq_false_2.
Qed.

Lemma forward_headers_get hs input name :
  header_entries input -> to_lower name = name -> (forall k, k ∈ hs.*1 -> k ∉ input.*1) ->
  hdr_get (foldl forward_header hs input) name
  = or_else (hdr_get hs name) (client_header input name).
Proof.
  intros [Hnd Hlow] Hname. revert hs. induction input as [|[n v] input IH]; intros hs Hdis.
  - simpl. unfold client_header. simpl. destruct (gateway_name name); by destruct (hdr_get hs name).
  - rewrite fmap_cons in Hnd. apply NoDup_cons in Hnd as [Hn Hnd]. cbn [foldl].
    assert (Hnl : to_lower n = n) by (apply (Hlow (n, v)); left).
    destruct (forward_header_get hs (n, v) name) as [Hget Hkeys]; simpl; try done.
    { intros Hin. apply (Hdis n Hin). left. }
    rewrite IH; [|done| |].
    + rewrite Hget. unfold client_header. simpl. rewrite Hname.
      destruct (gateway_name name); [by destruct (hdr_get hs name)|].
      destruct (decide (n = name)) as [<-|Hne].
      * rewrite !(bool_decide_eq_true_2 (n = n)) by done. simpl.
        replace (hdr_get input n) with (@None string)
          by (symmetry; apply hdr_get_None; by rewrite Hnl).
        simpl. destruct (hdr_get hs n); simpl; [done|].
        repeat case_bool_decide; done.
      * rewrite !(bool_decide_eq_false_2 (n = name)) by done. by destruct (hdr_get hs name).
    + intros h Hh. apply Hlow. by right.
    + intros k [Hk| ->]%Hkeys; [|done]. intros Hin. apply (Hdis k Hk). by right.
Qed.
End HeaderFacts.

(** The header of a name in the forwarded request. *)
Definition forwarded_header (input : headers) (authority protocol requestId : string)
    (remoteIp injectedCallerToken : option string) (name : string) : option string :=
  let proto := if bool_decide (protocol = "https:") then "https" else "http" in
  let forwardedFor := default "unknown" remoteIp in
  if bool_decide (name = "host") then Some authority
  else if bool_decide (name = "forwarded") then
    Some ("for=" +:+ quoteForwarded forwardedFor +:+ ";proto=" +:+ proto +:+ ";host="
          +:+ quoteForwarded authority)
  else if bool_decide (name = "x-forwarded-for") then Some forwardedFor
  else if bool_decide (name = "x-forwarded-host") then Some authority
  else if bool_decide (name = "x-forwarded-proto") then Some proto
  else if bool_decide (name = "x-eveland-request-id") then Some requestId
  else if bool_decide (name = "authorization") then
    or_else (hdr_get input name) (String.append "Bearer " <$> truthy injectedCallerToken)
  else client_header input name.

(** Before the Caller Token, the client's [authorization] is the only header
    the reference treats apart. *)
Lemma own_headers_get input authority protocol requestId remoteIp token name :
  header_entries input -> to_lower name = name -> name <> "authorization" ->
  hdr_get (own_headers (foldl forward_header [] input) authority protocol requestId remoteIp) name
  = forwarded_header input authority protocol requestId remoteIp token name.
Proof.
  intros Hin Hname Hna. unfold own_headers. rewrite !hdr_set_get by done.
  rewrite forward_headers_get; [|done..|by intros k ?%not_elem_of_nil].
  unfold forwarded_header. rewrite (bool_decide_eq_false_2 (name = "authorization")) by done.
  destruct (decide (name = "host")) as [->|?]; [done|].
  destruct (decide (name = "forwarded")) as [->|?]; [done|].
  destruct (decide (name = "x-forwarded-for")) as [->|?]; [done|].
  destruct (decide (name = "x-forwarded-host")) as [->|?]; [done|].
  destruct (decide (name = "x-forwarded-proto")) as [->|?]; [done|].
  destruct (decide (name = "x-eveland-request-id")) as [->|?]; [done|].
  by rewrite !bool_decide_eq_false_2 by done.
Qed.

Lemma own_headers_authorization input authority protocol requestId remoteIp :
  header_entries input ->
  hdr_get (own_headers (foldl forward_header [] input) authority protocol requestId remoteIp)
    "authorization" = hdr_get input "authorization".
Proof.
  intros Hin. unfold own_headers. rewrite !hdr_set_get by done.
  rewrite forward_headers_get; [|done..|by intros k ?%not_elem_of_nil].
  rewrite !bool_decide_eq_false_2 by done. unfold client_header. simpl.
  by destruct (hdr_get input "authorization").
Qed.

Lemma upstream_header input authority protocol requestId remoteIp token name :
  header_entries input -> to_lower name = name ->
  hdr_get (buildUpstreamHeaders input authority protocol requestId remoteIp token) name
  = forwarded_header input authority protocol requestId remoteIp token name.
Proof.
  intros Hin Hname. unfold buildUpstreamHeaders.
  pose proof (own_headers_authorization input authority protocol requestId remoteIp Hin) as Hauth.
  destruct (decide (name = "authorization")) as [->|Hna].
  - unfold forwarded_header. cbv zeta.
    rewrite (bool_decide_eq_true_2 ("authorization" = "authorization")) by done.
    repeat rewrite (bool_decide_eq_false_2 ("authorization" = _)) by done.
    destruct (truthy token) as [t|]; [|rewrite Hauth; by destruct (hdr_get input "authorization")].
    rewrite hdr_has_get, Hauth. destruct (hdr_get input "authorization") as [v|] eqn:Hv.
    + by rewrite bool_decide_eq_true_2 by by eexists.
    + rewrite bool_decide_eq_false_2 by (intros [? ?]; done). by rewrite hdr_set_get.
  - pose proof (own_headers_get input authority protocol requestId remoteIp token name Hin Hname Hna)
      as Hown.
    destruct (truthy token); [|exact Hown]. destruct (hdr_has _ "authorization"); [exact Hown|].
    rewrite hdr_set_get by done. by rewrite bool_decide_eq_false_2.
Qed.

Lemma forwarded_hop_by_hop input authority protocol requestId remoteIp token name :
  name ∈ hopByHopHeaders ->
  forwarded_header input authority protocol requestId remoteIp token name = None.
Proof.
  unfold hopByHopHeaders. intros Hin.
  repeat (apply elem_of_cons in Hin as [->|Hin]; [reflexivity|]). by apply not_elem_of_nil in Hin.
Qed.

Lemma forwarded_other input authority protocol requestId remoteIp token name :
  gateway_name name = false -> name <> "cookie" -> name <> "authorization" ->
  forwarded_header input authority protocol requestId remoteIp token name = hdr_get input name.
Proof.
  intros Hg Hc Ha. assert (Hne : forall own, gateway_name own = true -> name <> own) by congruence.
  unfold forwarded_header, client_header. cbv zeta.
  rewrite !bool_decide_eq_false_2 by first [done | by apply Hne].
  rewrite Hg. by destruct (hdr_get input name).
Qed.

(** ** Properties *)

(** C12. A session path is read back: the path of a session identifier and an
    operation, whatever text the identifier is, names that operation of that
    session, with the one method the operation has; so does the stream of a
    remote child under its parent. Conversely only paths of the session
    namespace are read, with their operation's method, and only a create names
    no session. *)
Theorem classifyEveSessionRequest_roundtrip method sessionId call child :
  valid_utf8 sessionId = true -> sessionId <> "" ->
  valid_utf8 call = true -> call <> "" -> valid_utf8 child = true -> child <> "" ->
  (forall kind suffix, (kind, suffix) ∈ session_suffixes ->
     classifyEveSessionRequest method (session_path sessionId suffix)
     = under_method method kind sessionId) /\
  classifyEveSessionRequest method
    (session_path sessionId ("/subagents/" +:+ encodeURIComponent call +:+ "/"
                             +:+ encodeURIComponent child +:+ "/stream"))
  = under_method method EveRequestKind.stream sessionId /\
  (forall pathname r, classifyEveSessionRequest method pathname = Some r ->
     isEveSessionNamespace pathname = true /\ method = kind_method (er_kind r) /\
     (er_sessionId r = None <-> er_kind r = EveRequestKind.initial)).
Proof.
  intros Hv Hne Hvc Hnc Hvd Hnd. split; [by intros; apply classify_session_path|].
  split; [|by intros; apply classify_accepts].
  unfold session_path. rewrite classify_not_create by apply below_session_not_create.
  destruct (encoded_segment sessionId Hne) as [Hs Hse], (encoded_segment call Hnc) as [Hc Hce],
    (encoded_segment child Hnd) as [Hd Hde].
  change ("/subagents/" +:+ ?r) with (String slash ("subagents" +:+ String slash r)).
  change ("/" +:+ ?r) with (String slash r).
  change "/stream" with (String slash "stream").
  rewrite (proj1 (session_segments_app _ _ Hs)), !split_at_app by done.
  change (split_at slash "stream") with ["stream"]. cbn [mbind option_bind].
  unfold classify_segments. cbn [forallb]. rewrite !bool_decide_eq_false_2 by done. simpl.
  unfold classify_stream, under_method. simpl. case_bool_decide; [|done].
  by rewrite !decode_encodeURIComponent.
Qed.

(** C13. What of a client's headers goes on, exactly. [host], [forwarded],
    [x-forwarded-*] and [x-eveland-*] of the forwarded request are the gateway's
    own or absent, and the hop-by-hop headers absent, whatever the client sends;
    of its cookies only the affinity cookie is taken out; its [authorization] is
    forwarded untouched, the Caller Token going in only when it sent none; and
    every other header of the client, [x-real-ip] among them, goes on as sent. *)
Theorem buildUpstreamHeaders_owned input authority protocol requestId remoteIp token name :
  header_entries input -> to_lower name = name ->
  let upstream := hdr_get (buildUpstreamHeaders input authority protocol requestId remoteIp token) in
  upstream name = forwarded_header input authority protocol requestId remoteIp token name /\
  (name ∈ hopByHopHeaders -> upstream name = None) /\
  (gateway_name name = false -> name <> "cookie" -> name <> "authorization" ->
     upstream name = hdr_get input name).
Proof.
  intros Hin Hname. cbv zeta. rewrite upstream_header by done.
  split; [done|]. split; [by apply forwarded_hop_by_hop|]. by apply forwarded_other.
Qed.

(** An affinity comes back: the cookie the gateway sets on a client is
    read back as the same key by every later request that carries it, among
    whatever other cookies; and a cookie value yields a key exactly when the
    gateway signed that key. *)
Lemma affinity_cookie_roundtrip `{NodePlatform}
    hs hs' secret random random' value domain secure before after :
  af_cookieValue (affinityKey hs secret random) = Some value -> random <> "" ->
  forallb other_cookie before = true ->
  hdr_get hs' "cookie"
  = Some (String.concat "; "
            (before ++ before_char (chr 59) (serializeAffinityCookie value domain secure)
                    :: after)) ->
  affinityKey hs' secret random'
  = affinityResult (af_key (affinityKey hs secret random)) AffinitySource.cookie None /\
  (forall v key, verifyAffinityCookie v secret = Some key <->
     key <> "" /\ v = signAffinityCookie key secret).
Proof.
  intros Hset Hr Hb Hc. split; [|intros; apply verifyAffinityCookie_ok].
  assert (af_key (affinityKey hs secret random) = base64url random /\
          value = signAffinityCookie (base64url random) secret) as [-> ->].
  { revert Hset. unfold affinityKey. destruct (_ ≫= fun value => _); [done|].
    destruct (truthy _); [done|]. intros [= <-]. done. }
  assert (Hk : base64url random <> "") by (destruct random as [|? [|? [|? ?]]]; done).
  set (value := signAffinityCookie _ secret) in *.
  assert (Hv : valid_utf8 value = true).
  { apply utf8_ascii. unfold value, signAffinityCookie. rewrite !all_chars_app.
    rewrite !andb_true_iff. split; [|split; [done|]];
      (apply (all_chars_impl base64_char); [vm_compute; reflexivity | apply base64url_chars]). }
  assert (Hvn : value <> "") by (unfold value, signAffinityCookie; by destruct (base64url random)).
  assert (Hsep : includes (chr 59) (encodeURIComponent value) = false)
    by (apply (includes_all_chars uri_char); [done | apply encodeURIComponent_chars]).
  assert (Hpair : before_char (chr 59) (serializeAffinityCookie value domain secure)
                  = "eveland_affinity=" +:+ encodeURIComponent value).
  { unfold serializeAffinityCookie. rewrite <- string_app_assoc.
    change ("; Domain=" +:+ ?r) with (String (chr 59) (" Domain=" +:+ r)).
    rewrite before_char_stop; [done|]. by rewrite includes_app, Hsep. }
  unfold affinityKey. rewrite Hc, Hpair. simpl.
  rewrite affinity_cookie_found by (done || by apply encodeURIComponent_nonempty). simpl.
  rewrite decode_encodeURIComponent by done. simpl.
  by rewrite (proj2 (verifyAffinityCookie_ok value secret (base64url random))).
Qed.

(** ** Witnesses *)

Lemma classifyEveSessionRequest_roundtrip_witness :
  (forall kind suffix, (kind, suffix) ∈ session_suffixes ->
     classifyEveSessionRequest "POST" (session_path "wrun/01 é" suffix)
     = under_method "POST" kind "wrun/01 é") /\
  classifyEveSessionRequest "POST"
    (session_path "wrun/01 é" ("/subagents/" +:+ encodeURIComponent "call-1" +:+ "/"
                             +:+ encodeURIComponent "child/2" +:+ "/stream"))
  = under_method "POST" EveRequestKind.stream "wrun/01 é" /\
  (forall pathname r, classifyEveSessionRequest "POST" pathname = Some r ->
     isEveSessionNamespace pathname = true /\ "POST" = kind_method (er_kind r) /\
     (er_sessionId r = None <-> er_kind r = EveRequestKind.initial)).
Proof.
  apply (classifyEveSessionRequest_roundtrip "POST" "wrun/01 é" "call-1" "child/2");
    first [vm_compute; reflexivity | discriminate].
Defined.

Lemma header_entries_check hs :
  bool_decide (NoDup hs.*1) && forallb (fun h => bool_decide (to_lower h.1 = h.1)) hs = true ->
  header_entries hs.
Proof.
  intros [Hnd%bool_decide_eq_true Hl]%andb_true_iff. split; [done|]. intros h Hh.
  rewrite forallb_forall in Hl. apply list_elem_of_In in Hh. by apply Hl, bool_decide_eq_true in Hh.
Qed.

Definition forged_headers : headers :=
  [("accept", "text/event-stream"); ("authorization", "Bearer mine"); ("connection", "close");
   ("cookie", "theme=dark; eveland_affinity=abc.def"); ("x-eveland-request-id", "forged");
   ("x-forwarded-for", "203.0.113.9"); ("x-real-ip", "203.0.113.9")].

Definition forged_upstream : headers :=
  buildUpstreamHeaders forged_headers "a.example.com" "https:" "req_1" (Some "198.51.100.7")
    (Some "tok").

Lemma buildUpstreamHeaders_owned_witness :
  (hdr_get forged_upstream "cookie"
   = forwarded_header forged_headers "a.example.com" "https:" "req_1" (Some "198.51.100.7")
       (Some "tok") "cookie" /\
   forwarded_header forged_headers "a.example.com" "https:" "req_1" (Some "198.51.100.7")
     (Some "tok") "cookie" = Some "theme=dark") /\
  hdr_get forged_upstream "connection" = None /\
  hdr_get forged_upstream "x-real-ip" = Some "203.0.113.9".
Proof.
  assert (Hin : header_entries forged_headers)
    by (apply header_entries_check; vm_compute; reflexivity).
  pose proof (fun name => buildUpstreamHeaders_owned forged_headers "a.example.com" "https:" "req_1"
    (Some "198.51.100.7") (Some "tok") name Hin) as Hall. cbv zeta in Hall.
  split; [|split].
  - split; [|vm_compute; reflexivity]. exact (proj1 (Hall "cookie" eq_refl)).
  - apply (Hall "connection" eq_refl). apply list_elem_of_here.
  - refine (eq_trans (proj2 (proj2 (Hall "x-real-ip" eq_refl)) eq_refl _ _) eq_refl); discriminate.
Defined.

(** A keyed digest stands in for HMAC; [null] is the one text that parses. *)
Definition sample_gateway : NodePlatform := {|
  hmac_sha256 secret data := "tag" +:+ secret +:+ data;
  sha256 data := data;
  json_parse text := if bool_decide (text = "null") then Some JNull else None;
  js_number _ := js_zero;
  number_string _ := "0"
|}.

Lemma affinity_cookie_roundtrip_witness :
  let _ := sample_gateway in
  affinityKey [("cookie", "theme=dark; eveland_affinity=YWJj.dGFnc2VjcmV0WVdKag; lang=en")]
    "secret" "xyz"
  = affinityResult (af_key (affinityKey [] "secret" "abc")) AffinitySource.cookie None /\
  (forall v key, verifyAffinityCookie v "secret" = Some key <->
     key <> "" /\ v = signAffinityCookie key "secret").
Proof.
  apply (@affinity_cookie_roundtrip sample_gateway []
           [("cookie", "theme=dark; eveland_affinity=YWJj.dGFnc2VjcmV0WVdKag; lang=en")]
           "secret" "abc" "xyz" "YWJj.dGFnc2VjcmV0WVdKag" "agent.localhost" false
           ["theme=dark"] ["lang=en"]); first [discriminate | vm_compute; reflexivity].
Defined.
