(* ===== verification/Gateway.v ===== *)
(** * The agent gateway

    [apps/gateway/src]: the target of a request ([gateway-routing.ts]), the
    bindings that pin a session or a create operation to a deployment
    ([gateway-durable-routing.ts], [gateway-session-lifecycle.ts]), the life of
    a proxied request from its target to its session
    ([gateway-request-lifecycle.ts]) and the two handlers of [app.ts].

    A request runs on the gateway's state: the control plane's store and the
    calls it has made of the activation service and of deployments, newest
    last.  A body is the list of its chunks; a chunk may be the error the stream
    fails with. *)

From stdpp Require Import pretty.
From S2P Require Import Prelude Schema Store Tables Sample Strings Encoding Jobs Runtime Routing EveEvents Sessions Cron Schedules Deployments RouteWeights EveVersion GatewayText.

Open Scope eve_scope.
Open Scope string_scope.

(** ** Targets *)

(** [ResolvedAgentRoute["targets"][number]] *)
Record gateway_target : Type := mk_gateway_target {
  gt_routeId : string; gt_deploymentId : string; gt_weight : Z; gt_variantName : option string;
  gt_hostPort : Z; gt_status : deployment_status
}.

Definition target_of (t : resolved_target) : gateway_target :=
  mk_gateway_target (RouteTarget.routeId (rs_target t)) (RouteTarget.deploymentId (rs_target t))
    (RouteTarget.weight (rs_target t)) (RouteTarget.variantName (rs_target t)) (rs_hostPort t)
    (rs_status t).

Definition route_targets (route : resolved_route) : list gateway_target :=
  target_of <$> rr_targets route.

Definition serves_pinned (allowStopped : bool) (st : deployment_status) : bool :=
  match st with
  | DeploymentStatus.running | DeploymentStatus.draining => true
  | DeploymentStatus.stopped => allowStopped
  | _ => false
  end.

Definition serves_new (allowStopped : bool) (st : deployment_status) : bool :=
  match st with
  | DeploymentStatus.running => true
  | DeploymentStatus.stopped => allowStopped
  | _ => false
  end.

(** A target as the weighted choice reads it. *)
Definition weighted_input (t : gateway_target) : route_target_input :=
  mk_route_target_input (gt_deploymentId t) (Some (gt_weight t)) (gt_variantName t).

(** The choice by weight, among targets of distinct deployments. *)
Definition select_target (targets : list gateway_target) (key : string)
    (route : AgentRoute.agent_route_row) : result (option gateway_target) :=
  match selectWeightedTarget (weighted_input <$> targets) (code_units key)
          (Some (code_units (AgentRoute.id route), AgentRoute.policyRevision route)) with
  | Ok (Some t) =>
      Ok (find (fun g => bool_decide (gt_deploymentId g = rt_deploymentId t)) targets)
  | Ok None => Ok None
  | Err e => Err e
  end.

(** ** Streams, responses and the calls of a request *)

Inductive chunk :=
  | Chunk (bytes : string)
  | Broken (e : error).

(** The text of a body, [None] once it exceeds [limit] bytes: the reader is
    cancelled there. *)
Fixpoint read_chunks (limit total : Z) (body : list chunk) : result (option string) :=
  match body with
  | [] => Ok (Some "")
  | Chunk bytes :: body =>
      let total := (total + Z.of_nat (String.length bytes))%Z in
      if (limit <? total)%Z then Ok None
      else match read_chunks limit total body with
           | Ok (Some rest) => Ok (Some (bytes +:+ rest))
           | r => r
           end
  | Broken e :: _ => Err e
  end.

Definition readLimitedBody (body : option (list chunk)) (maxBytes : Z) : result (option string) :=
  match body with
  | None => Ok None
  | Some body =>
      match read_chunks maxBytes 0 body with
      | Ok (Some text) => Ok (Some text)
      | Ok None => Err RequestBodyTooLargeError
      | Err e => Err e
      end
  end.

Definition readBodyWithin (body : option (list chunk)) (maxBytes : Z) : result (option string) :=
  match body with None => Ok None | Some body => read_chunks maxBytes 0 body end.

Record upstream_response : Type := mk_upstream {
  up_status : Z; up_headers : headers; up_body : option (list chunk)
}.

Definition up_ok (r : upstream_response) : bool := ((200 <=? up_status r) && (up_status r <=? 299))%Z.

(** What the gateway answers: an error of its own, the upstream's response, with
    the lease its body's end will release and whether idle heartbeats are woven
    in, or what the front door asks the API or the dashboard. *)
Inductive gateway_response :=
  | Refusal (status : Z) (reason : string)
  | Forwarded (response : upstream_response) (lease : option string) (heartbeats : bool)
  | ToFrontDoor (target : front_door_target) (upstreamPath : string) (hs : headers).

(** [Granted] notes the lease an activation was answered with. *)
Inductive gateway_call :=
  | Activate (deploymentId : string) (kind : lease_kind) (ownerId : string)
  | Granted (leaseId : string)
  | ReleaseLease (leaseId : string)
  | Send (port : Z) (path method : string) (hs : headers) (body : option string)
  | Report (eveErrorId : string).

(** [createGatewayRouteCache]: the entries in insertion order, a [null] route
    among them, each with the instant it expires. *)
Definition route_cache : Type := list (string * (option resolved_route * time)).

Record gateway : Type := mk_gateway {
  gw_store : store; gw_calls : list gateway_call; gw_cache : route_cache
}.

Record gateway_activation : Type := mk_gateway_activation {
  ac_leaseId : string; ac_runtimeInstanceId : option string; ac_endpointPort : Z
}.

(** The activation service, reached over HTTP; it works on the same store. *)
Record activation_client : Type := mk_activation_client {
  client_activate : string -> lease_kind -> string -> Tx gateway_activation;
  client_release : string -> Tx unit
}.

Definition repo {A} (m : Tx A) : M gateway A :=
  fun g => let (r, s) := m (gw_store g) in (r, mk_gateway s (gw_calls g) (gw_cache g)).

Definition call (c : gateway_call) : M gateway unit :=
  fun g => (Ok tt, mk_gateway (gw_store g) (gw_calls g ++ [c])%list (gw_cache g)).

(** [return response], early or not. *)
Inductive step_result (A : Type) :=
  | Stop (response : gateway_response)
  | Go (a : A).
Arguments Stop {_} _.
Arguments Go {_} _.

Definition proceed {A} (m : M gateway (step_result A)) (k : A -> M gateway gateway_response)
    : M gateway gateway_response :=
  r <- m ;; match r with Stop response => ret response | Go a => k a end.

Section Gateway.
Context `{Platform} `{NodePlatform}.

(** [binding]: the deployment and the variant of a binding. *)
Definition resolveTarget (route : resolved_route) (binding : option (string * option string))
    (key : string) (allowStopped : bool) : Tx (option gateway_target) :=
  match binding with
  | Some (deploymentId, variantName) =>
      match find (fun t => bool_decide (gt_deploymentId t = deploymentId)
                           && serves_pinned allowStopped (gt_status t)) (route_targets route) with
      | Some routed => ret (Some routed)
      | None =>
          deployment <- getDeployment deploymentId ;;
          ret (match deployment with
               | Some d =>
                   if serves_pinned allowStopped (Deployment.status d)
                   then Some (mk_gateway_target (AgentRoute.id (rr_route route)) (Deployment.id d)
                                0 variantName (Deployment.hostPort d) (Deployment.status d))
                   else None
               | None => None
               end)
      end
  | None =>
      let targets := route_targets route in
      let eligible := base.filter (fun t => serves_new allowStopped (gt_status t) = true) targets in
      if bool_decide (eligible = []) then ret None
      else if bool_decide (length eligible < length targets)%nat then ret (head eligible)
      else lift (select_target eligible key (rr_route route))
  end.

Definition routeExperimentId (route : resolved_route) : option string :=
  if bool_decide (1 < length (rr_targets route))%nat then
    Some (AgentRoute.id (rr_route route) +:+ ":r"
          +:+ pretty (AgentRoute.policyRevision (rr_route route)))
  else None.

(** ** Bindings *)

Inductive operation_resolution :=
  | OperationUnbound
  | OperationActive (binding : OperationBinding.operation_binding_row)
  | OperationExpired (binding : OperationBinding.operation_binding_row).

Definition resolveGatewayOperationBinding (projectId : string) (operationKey : option string)
    (idlePolicy : session_binding_idle_policy) : Tx operation_resolution :=
  match truthy operationKey with
  | None => ret OperationUnbound
  | Some operationKey =>
      binding <- findOperationBinding projectId operationKey ;;
      match binding with
      | None => ret OperationUnbound
      | Some binding =>
          requestTime <- clock ;;
          active <- lift (isSessionBindingActive (OperationBinding.trigger binding)
                            (OperationBinding.updatedAt binding) requestTime idlePolicy) ;;
          if active : bool then
            touched <- touchOperationBinding projectId operationKey (Some requestTime) ;;
            ret (match touched with
                 | Some touched => OperationActive touched
                 | None => OperationExpired binding
                 end)
          else ret (OperationExpired binding)
      end
  end.

(** [SessionUnbound looked_up]: was a session identifier looked up? *)
Inductive session_resolution :=
  | SessionUnbound (looked_up : bool)
  | SessionActive (binding : SessionBinding.session_binding_row)
  | SessionExpired (binding : SessionBinding.session_binding_row).

Definition resolveGatewaySessionBinding (projectId : string)
    (request : option eve_session_request) (idlePolicy : session_binding_idle_policy)
    : Tx session_resolution :=
  match truthy (request ≫= er_sessionId) with
  | None => ret (SessionUnbound false)
  | Some sessionId =>
      binding <- findSessionBinding projectId sessionId ;;
      match binding with
      | None => ret (SessionUnbound true)
      | Some binding =>
          requestTime <- clock ;;
          active <- lift (isSessionBindingActive (SessionBinding.trigger binding)
                            (SessionBinding.updatedAt binding) requestTime idlePolicy) ;;
          if active : bool then
            touched <- touchSessionBinding projectId (SessionBinding.eveSessionId binding)
                         (Some requestTime) ;;
            ret (match touched with
                 | Some _ => SessionActive binding
                 | None => SessionExpired binding
                 end)
          else ret (SessionExpired binding)
      end
  end.

(** ** Reading the routing body *)

(** [Number.isFinite(declared) && declared > limit]; an absent header is 0. *)
Definition declared_over (hs : headers) (limit : Z) : bool :=
  match hdr_get hs "content-length" with
  | None => false
  | Some text =>
      let declared := js_number text in
      js_is_finite declared && SFltb (json_number limit) declared
  end.

(** [value.includes(part)] *)
Fixpoint contains (part s : string) : bool :=
  String.prefix part s || match s with "" => false | String _ r => contains part r end.

Definition content_type_is (hs : headers) (type : string) : bool :=
  match hdr_get hs "content-type" with Some value => contains type value | None => false end.

Record request : Type := mk_request {
  rq_method : string; rq_urlHost : string; rq_pathname : string; rq_search : string;
  rq_protocol : string; rq_headers : headers; rq_body : option (list chunk);
  rq_remoteIp : option string; rq_aborted : bool
}.

Definition is_kind (kind : eve_request_kind) (request : option eve_session_request) : bool :=
  match request with Some r => bool_decide (er_kind r = kind) | None => false end.

Definition too_large : gateway_response := Refusal 413 "Request body too large".
Definition clientClosedResponse : gateway_response := Refusal 499 "Client closed request".
Definition sessionExpiredResponse : gateway_response := Refusal 410 "Session expired".

(** [Go None] for a body left unread ([undefined]), [Go (Some None)] for
    [null]. *)
Definition readRoutingBody (rq : request) (eveRequest : option eve_session_request)
    (limitBytes : Z) : result (step_result (option (option string))) :=
  if declared_over (rq_headers rq) limitBytes then Ok (Stop too_large)
  else if negb (is_kind EveRequestKind.initial eveRequest)
          && negb (content_type_is (rq_headers rq) "application/json")
  then Ok (Go None)
  else
    match (if requestHasBody (rq_method rq) then readLimitedBody (rq_body rq) limitBytes
           else Ok None) with
    | Ok body => Ok (Go (Some body))
    | Err RequestBodyTooLargeError => Ok (Stop too_large)
    | Err DownstreamAbortedError => Ok (Stop clientClosedResponse)
    | Err e => if rq_aborted rq then Ok (Stop clientClosedResponse) else Err e
    end.

(** ** The session a response names *)

Inductive session_provenance :=
  | FromApi (requestId : string) (remoteIp : option string) (fingerprint : string)
      (source : affinity_source)
  | FromPlayground (requestId : string).

Definition provenance_trigger (p : session_provenance) : binding_trigger :=
  match p with FromApi _ _ _ _ => BindingTrigger.api | FromPlayground _ => BindingTrigger.playground end.

Definition provenance_requestId (p : session_provenance) : string :=
  match p with FromApi id _ _ _ | FromPlayground id => id end.

Definition source_text (source : affinity_source) : string :=
  match source with
  | AffinitySource.cookie => "cookie"
  | AffinitySource.version_key => "version_key"
  | AffinitySource.generated => "generated"
  end.

(** [GatewaySessionTarget] *)
Record session_target : Type := mk_session_target {
  st_routeId : string; st_deploymentId : string; st_variantName : option string;
  st_experimentId : option string
}.

Definition bindingProvenance (projectId eveSessionId : string) (target : session_target)
    (p : session_provenance) : binding_input :=
  let bind requestId remoteIp fingerprint source :=
    mk_binding_input projectId eveSessionId (st_routeId target) (st_deploymentId target)
      (provenance_trigger p) (st_variantName target) (st_experimentId target) requestId remoteIp
      fingerprint source in
  match p with
  | FromApi requestId remoteIp fingerprint source =>
      bind requestId remoteIp (Some fingerprint) (Some (source_text source))
  | FromPlayground requestId => bind requestId None None None
  end.

(** [parseEveJsonObject] *)
Definition parse_object (text : string) : option json :=
  parsed ← json_parse text; match parsed with JObj _ => Some parsed | _ => None end.

Definition parseMcpSseEnvelope (text : string) : option json :=
  head (omap (fun line =>
    data ← strip_prefix "data:" line;
    parsed ← parse_object (trim_start data);
    _ ← mcpInvocationIdFromValue parsed;
    Some parsed) (split_lines text)).

(** [PLAYGROUND_MAX_TRANSPORT_BYTES]: [Math.ceil(10 MiB * 4 / 3) + 64 KiB]. *)
Definition PLAYGROUND_MAX_TRANSPORT_BYTES : Z := (- (- (10 * 1024 * 1024 * 4) / 3) + 64 * 1024)%Z.

Definition sessionResponseMetadata (upstream : upstream_response)
    : result (option (option string * option string)) :=
  match readBodyWithin (up_body upstream) PLAYGROUND_MAX_TRANSPORT_BYTES with
  | Err e => Err e
  | Ok None => Ok None
  | Ok (Some text) =>
      Ok (parsed ← (if content_type_is (up_headers upstream) "application/json"
                    then parse_object text else parseMcpSseEnvelope text);
          Some (json_string (json_get "sessionId" parsed), mcpInvocationIdFromValue parsed))
  end.

(** The session the response of a create names. *)
Definition response_session (mcp : bool) (upstream : upstream_response) : result (option string) :=
  let metadata :=
    if (content_type_is (up_headers upstream) "application/json"
        || content_type_is (up_headers upstream) "text/event-stream")
       && negb (declared_over (up_headers upstream) PLAYGROUND_MAX_TRANSPORT_BYTES)
    then sessionResponseMetadata upstream else Ok None in
  match metadata with
  | Err e => Err e
  | Ok metadata =>
      Ok (truthy (if mcp then metadata ≫= snd
                  else or_else (hdr_get (up_headers upstream) "x-eve-session-id")
                         (metadata ≫= fst)))
  end.

Definition applyGatewaySessionResponse (projectId : string)
    (request : option eve_session_request) (upstream : upstream_response)
    (target : session_target) (provenance : session_provenance) : Tx unit :=
  let mcp := is_kind EveRequestKind.mcp_start request in
  if up_ok upstream && (is_kind EveRequestKind.initial request || mcp) then
    found <- lift (response_session mcp upstream) ;;
    match found with
    | None => ret tt
    | Some eveSessionId =>
        _b <- bindSession (bindingProvenance projectId eveSessionId target provenance) ;; ret tt
    end
  else ret tt.

(** ** Opaque create failures *)

Definition MAX_EVE_ERROR_BODY_BYTES : Z := 16384.

(** [EVE_ERROR_ID_PATTERN]: a version 1-8 UUID. *)
Definition hex_digits (n : nat) (s : string) : bool :=
  bool_decide (String.length s = n)
  && all_chars (fun c => match hex_value c with Some _ => true | None => false end) s.

Definition starts_between (lo hi : nat) (s : string) : bool :=
  match s with
  | String c _ => match hex_value c with Some n => between lo hi n | None => false end
  | "" => false
  end.

Definition eve_error_id (s : string) : bool :=
  match split_at (chr 45) s with
  | [a; b; c; d; e] =>
      hex_digits 8 a && hex_digits 4 b && hex_digits 4 c && starts_between 1 8 c
      && hex_digits 4 d && starts_between 8 11 d && hex_digits 12 e
  | _ => false
  end.

(** The identifier to report, [None] for no opaque failure.  A body that is the
    JSON text [null] throws. *)
Definition opaque_failure (eveRequest : option eve_session_request)
    (upstream : upstream_response) : result (option string) :=
  if negb (is_kind EveRequestKind.initial eveRequest)
     || negb (bool_decide (up_status upstream = 500%Z))
     || negb (content_type_is (up_headers upstream) "application/json")
     || declared_over (up_headers upstream) MAX_EVE_ERROR_BODY_BYTES
  then Ok None
  else
    match readBodyWithin (up_body upstream) MAX_EVE_ERROR_BODY_BYTES with
    | Err e => Err e
    | Ok None => Ok None
    | Ok (Some text) =>
        match json_parse text with
        | None => Ok None
        | Some JNull => Err (Error "Cannot read properties of null (reading 'errorId')")
        | Some body =>
            Ok (id ← json_string (json_get "errorId" body);
                if eve_error_id id then Some id else None)
        end
    end.

Definition observeOpaqueSessionCreateFailure (eveRequest : option eve_session_request)
    (upstream : upstream_response) : M gateway bool :=
  found <- lift (opaque_failure eveRequest upstream) ;;
  match found with
  | Some eveErrorId => call (Report eveErrorId) ;; ret true
  | None => ret false
  end.

(** ** A proxied request *)

(** The arguments of [executeGatewaySessionProxy]; [px_send] is the upstream,
    which sees every call made so far. *)
Record proxy_input : Type := mk_proxy_input {
  px_activationClient : option activation_client;
  px_send : list gateway_call -> result upstream_response;
  px_route : resolved_route; px_eveRequest : option eve_session_request;
  px_binding : option SessionBinding.session_binding_row;
  px_operationBinding : option OperationBinding.operation_binding_row;
  px_operationKey : option string; px_targetKey : string; px_activationOwnerId : string;
  px_provenance : session_provenance; px_request : request;
  px_routingBody : option (option string); px_upstreamPath : string; px_bodyLimitBytes : Z;
  px_streamHeartbeatMs : Z; px_buildHeaders : Z -> headers;
  px_decorateResponseHeaders : headers -> headers
}.

Definition activationKind (request : option eve_session_request) : lease_kind :=
  match request with
  | Some r =>
      if bool_decide (er_kind r = EveRequestKind.stream) then LeaseKind.stream else LeaseKind.turn
  | None => LeaseKind.public_request
  end.

Definition no_target : gateway_response := Refusal 503 "No running deployment target".

(** The version gate. *)
Definition unsupportedDeploymentResponse (deploymentId : string)
    : M gateway (option gateway_response) :=
  found <- repo (getDeploymentEveVersion deploymentId) ;;
  let info := default (createEveVersionInfo None None) found in
  ret (if ev_supported info then None else Some (Refusal 409 "Unsupported Eve version")).

(** The gated target of a binding, or of none. *)
Definition gated_target (input : proxy_input) (binding : option (string * option string))
    : M gateway (step_result gateway_target) :=
  target <- repo (resolveTarget (px_route input) binding (px_targetKey input)
                    (bool_decide (is_Some (px_activationClient input)))) ;;
  match target with
  | None => ret (Stop no_target)
  | Some target =>
      failure <- unsupportedDeploymentResponse (gt_deploymentId target) ;;
      ret (match failure with Some response => Stop response | None => Go target end)
  end.

Definition session_pin (b : SessionBinding.session_binding_row) : string * option string :=
  (SessionBinding.deploymentId b, SessionBinding.variantName b).

Definition operation_pin (b : OperationBinding.operation_binding_row) : string * option string :=
  (OperationBinding.deploymentId b, OperationBinding.variantName b).

(** [binding ?? effectiveOperationBinding] *)
Definition routing_binding (input : proxy_input) : option (string * option string) :=
  or_else (session_pin <$> px_binding input) (operation_pin <$> px_operationBinding input).

Definition operation_claim (input : proxy_input) (operationKey : string) (target : gateway_target)
    : operation_input :=
  let route := rr_route (px_route input) in
  mk_operation_input (AgentRoute.projectId route) operationKey (AgentRoute.id route)
    (gt_deploymentId target) (provenance_trigger (px_provenance input)) (gt_variantName target)
    (routeExperimentId (px_route input)).

(** The operation to claim: one with a key and no binding yet. *)
Definition unclaimed_operation (input : proxy_input) : option string :=
  match px_operationBinding input with
  | None => truthy (px_operationKey input)
  | Some _ => None
  end.

(** The target, and the operation binding that decided it: a claim another
    request won sends this one to the winner's deployment. *)
Definition claim_target (input : proxy_input) (target : gateway_target)
    : M gateway (step_result (gateway_target * option OperationBinding.operation_binding_row)) :=
  match unclaimed_operation input with
  | None => ret (Go (target, px_operationBinding input))
  | Some operationKey =>
      claimed <- repo (bindOperation (operation_claim input operationKey target)) ;;
      if bool_decide (OperationBinding.deploymentId claimed = gt_deploymentId target)
      then ret (Go (target, Some claimed))
      else
        moved <- gated_target input (Some (operation_pin claimed)) ;;
        ret (match moved with
             | Stop response => Stop response
             | Go target => Go (target, Some claimed)
             end)
  end.

Definition activate_target (input : proxy_input) (target : gateway_target)
    : M gateway (step_result (option (activation_client * gateway_activation))) :=
  match px_activationClient input with
  | None => ret (Go None)
  | Some client =>
      let kind := activationKind (px_eveRequest input) in
      call (Activate (gt_deploymentId target) kind (px_activationOwnerId input)) ;;
      try_catch
        (activation <- repo (client_activate client (gt_deploymentId target) kind
                               (px_activationOwnerId input)) ;;
         call (Granted (ac_leaseId activation)) ;;
         ret (Go (Some (client, activation))))
        (fun e =>
           if rq_aborted (px_request input) || bool_decide (e = AbortError)
           then ret (Stop clientClosedResponse)
           else ret (Stop (Refusal 503 "Deployment activation failed")))
  end.

(** [await client.release(leaseId).catch(() => undefined)] *)
Definition release_activation (held : option (activation_client * gateway_activation)) : M gateway unit :=
  match held with
  | None => ret tt
  | Some (client, activation) =>
      call (ReleaseLease (ac_leaseId activation)) ;;
      try_catch (repo (client_release client (ac_leaseId activation))) (fun _ => ret tt)
  end.

Definition send_upstream (input : proxy_input) (port : Z) : M gateway upstream_response :=
  body <- lift (match px_routingBody input with
                | Some body => Ok body
                | None =>
                    if requestHasBody (rq_method (px_request input))
                    then readLimitedBody (rq_body (px_request input)) (px_bodyLimitBytes input)
                    else Ok None
                end) ;;
  call (Send port (px_upstreamPath input) (rq_method (px_request input))
          (px_buildHeaders input port) body) ;;
  fun g => (px_send input (gw_calls g), g).

Definition proxied (input : proxy_input) (held : option (activation_client * gateway_activation))
    (port : Z) : M gateway (step_result upstream_response) :=
  try_catch (upstream <- send_upstream input port ;; ret (Go upstream))
    (fun e =>
       release_activation held ;;
       match e with
       | RequestBodyTooLargeError => ret (Stop too_large)
       | DownstreamAbortedError => ret (Stop clientClosedResponse)
       | e => throw e
       end).

(** The session binding of a create names the deployment that served it. *)
Definition served_target (input : proxy_input) (target : gateway_target)
    (operation : option OperationBinding.operation_binding_row) : session_target :=
  match operation with
  | Some b =>
      mk_session_target (OperationBinding.routeId b) (gt_deploymentId target)
        (OperationBinding.variantName b) (OperationBinding.experimentId b)
  | None =>
      mk_session_target (AgentRoute.id (rr_route (px_route input))) (gt_deploymentId target)
        (gt_variantName target) (routeExperimentId (px_route input))
  end.

Definition record_session (input : proxy_input) (target : gateway_target)
    (operation : option OperationBinding.operation_binding_row)
    (held : option (activation_client * gateway_activation)) (upstream : upstream_response)
    : M gateway unit :=
  try_catch
    (repo (applyGatewaySessionResponse (AgentRoute.projectId (rr_route (px_route input)))
             (px_eveRequest input) upstream (served_target input target operation)
             (px_provenance input)))
    (fun e => release_activation held ;; throw e).

(** [manageActivationResponse]: a response without a body releases at once. *)
Definition answer_upstream (input : proxy_input)
    (held : option (activation_client * gateway_activation)) (opaque : bool)
    (upstream : upstream_response) : M gateway gateway_response :=
  let hs := if opaque
            then hdr_set (up_headers upstream) "x-eveland-request-id"
                   (provenance_requestId (px_provenance input))
            else up_headers upstream in
  let heartbeats :=
    bool_decide (activationKind (px_eveRequest input) = LeaseKind.stream)
    && (0 <? px_streamHeartbeatMs input)%Z && bool_decide (is_Some (up_body upstream))
    && bool_decide (hdr_get (up_headers upstream) "x-eve-stream-format" = Some "ndjson") in
  let response :=
    mk_upstream (up_status upstream) (px_decorateResponseHeaders input hs) (up_body upstream) in
  match up_body upstream with
  | None => release_activation held ;; ret (Forwarded response None heartbeats)
  | Some _ => ret (Forwarded response ((fun h => ac_leaseId h.2) <$> held) heartbeats)
  end.

(** The deployment that is to serve, decided before anything is activated. *)
Definition decide_target (input : proxy_input)
    : M gateway (step_result (gateway_target * option OperationBinding.operation_binding_row)) :=
  first <- gated_target input (routing_binding input) ;;
  match first with
  | Stop response => ret (Stop response)
  | Go target => claim_target input target
  end.

Definition executeGatewaySessionProxy (input : proxy_input) : M gateway gateway_response :=
  proceed (decide_target input) (fun '(target, operation) =>
  proceed (activate_target input target) (fun held =>
  let port := match held with Some h => ac_endpointPort h.2 | None => gt_hostPort target end in
  proceed (proxied input held port) (fun upstream =>
  opaque <- observeOpaqueSessionCreateFailure (px_eveRequest input) upstream ;;
  record_session input target operation held upstream ;;
  answer_upstream input held opaque upstream))).

(** ** The managed response *)

(** What happens to the body of [manageActivationResponse]: a read of the
    upstream gives a chunk, ends or fails, the client goes away, the renewal
    timer fires. *)
Inductive stream_event := ReadChunk | ReadDone | ReadFailed | Cancelled | RenewTick.

Inductive lease_call := Renewed | Released.

Record managed : Type := mk_managed { mg_finalized : bool; mg_calls : list lease_call }.

Definition finalize (m : managed) : managed :=
  if mg_finalized m then m else mk_managed true (mg_calls m ++ [Released])%list.

(** The timer is cleared by [finalize]. *)
Definition managed_step (m : managed) (e : stream_event) : managed :=
  match e with
  | ReadChunk => m
  | ReadDone | ReadFailed | Cancelled => finalize m
  | RenewTick =>
      if mg_finalized m then m else mk_managed false (mg_calls m ++ [Renewed])%list
  end.

Definition manage_stream (events : list stream_event) : managed :=
  foldl managed_step (mk_managed false []) events.

(** ** The route cache *)

Fixpoint cache_entry (cache : route_cache) (hostname : string)
    : option (option resolved_route * time) :=
  match cache with
  | [] => None
  | (h, entry) :: cache =>
      if bool_decide (h = hostname) then Some entry else cache_entry cache hostname
  end.

(** [None] for [undefined], a miss. *)
Definition cache_read (cache : route_cache) (hostname : string) (now : time)
    : option (option resolved_route) :=
  match cache_entry cache hostname with
  | Some (route, expiresAt) => if (expiresAt <=? now)%Z then None else Some route
  | None => None
  end.

(** [while (entries.size >= maxEntries)] the oldest goes. *)
Fixpoint evict_oldest (cache : route_cache) (maxEntries : nat) : route_cache :=
  match cache with
  | [] => []
  | _ :: rest =>
      if (maxEntries <=? length cache)%nat then evict_oldest rest maxEntries else cache
  end.

(** [entries.set]: a key that is there keeps its place. *)
Fixpoint cache_set (cache : route_cache) (hostname : string)
    (entry : option resolved_route * time) : route_cache :=
  match cache with
  | [] => [(hostname, entry)]
  | (h, e) :: rest =>
      if bool_decide (h = hostname) then (h, entry) :: rest
      else (h, e) :: cache_set rest hostname entry
  end.

Definition cache_store (cache : route_cache) (hostname : string) (route : option resolved_route)
    (now : time) (ttlMs : Z) (maxEntries : nat) : route_cache :=
  let kept :=
    if (maxEntries <=? length cache)%nat
    then evict_oldest (base.filter (fun e => (now < e.2.2)%Z) cache) maxEntries
    else cache in
  cache_set kept hostname (route, now + ttlMs)%Z.

Definition cache_delete (cache : route_cache) (hostname : string) : route_cache :=
  base.filter (fun e => e.1 <> hostname) cache.

(** ** The handlers *)

(** What [createGatewayApp] is configured with. [go_callerToken]: the identity
    client; [go_uuid], [go_random]: what [crypto] draws for the request. *)
Record gateway_options : Type := mk_gateway_options {
  go_allowedBaseDomains : list string; go_affinitySecret : string;
  go_internalServiceToken : option string; go_routeCacheTtlMs : Z; go_routeCacheMaxEntries : nat;
  go_maxRequestBodyBytes : Z; go_affinityCookieSecure : option bool;
  go_idlePolicy : session_binding_idle_policy; go_streamHeartbeatMs : Z;
  go_activationClient : option activation_client;
  go_callerToken : option (string -> option string); go_frontDoor : bool;
  go_uuid : string; go_random : string
}.

(** [isInternalRequest] *)
Definition isInternalRequest (authorization token : option string) : bool :=
  match truthy token, truthy authorization with
  | Some token, Some authorization =>
      bool_decide (sha256 ("Bearer " +:+ token) = sha256 authorization)
  | _, _ => false
  end.

(** [routeCache.read] and, on a miss, the store's answer kept. *)
Definition cached_route (options : gateway_options) (hostname : string)
    : M gateway (option resolved_route) :=
  now <- repo clock ;;
  cache <- gets gw_cache ;;
  match cache_read cache hostname now with
  | Some route => ret route
  | None =>
      route <- repo (findRouteByHostname hostname) ;;
      modify (fun g => mk_gateway (gw_store g) (gw_calls g)
        (cache_store (gw_cache g) hostname route now (go_routeCacheTtlMs options)
           (go_routeCacheMaxEntries options))) ;;
      ret route
  end.

Definition enabled_route (route : option resolved_route) : option resolved_route :=
  match route with
  | Some r => if AgentRoute.enabled (rr_route r) then Some r else None
  | None => None
  end.

Definition operation_key_of (options : gateway_options) (eveRequest : option eve_session_request)
    (body : option (option string)) : option string :=
  if is_kind EveRequestKind.initial eveRequest then
    operationId ← operationIdFromBody (default None body);
    Some (createOperationKey operationId (go_affinitySecret options))
  else None.

Definition active_operation (r : operation_resolution)
    : option OperationBinding.operation_binding_row :=
  match r with OperationActive b => Some b | _ => None end.

Definition active_session (r : session_resolution) : option SessionBinding.session_binding_row :=
  match r with SessionActive b => Some b | _ => None end.

Definition affinity_headers (options : gateway_options) (rq : request) (hostname : string)
    (affinity : affinity) (hs : headers) : headers :=
  match truthy (af_cookieValue affinity) with
  | Some value =>
      hdr_append hs "set-cookie"
        (serializeAffinityCookie value
           (default "undefined" (matchingBaseDomain hostname (go_allowedBaseDomains options)))
           (default (bool_decide (rq_protocol rq = "https:")) (go_affinityCookieSecure options)))
  | None => hs
  end.

Definition route_not_found : gateway_response := Refusal 404 "Route not found".

(** A public request for a route, past the namespaces the gateway refuses. *)
Definition serve_public (options : gateway_options) (send : list gateway_call -> result upstream_response)
    (rq : request) (authority hostname : string) (route : resolved_route)
    (eveRequest : option eve_session_request) : M gateway gateway_response :=
  let projectId := AgentRoute.projectId (rr_route route) in
  let affinity := affinityKey (rq_headers rq) (go_affinitySecret options) (go_random options) in
  read_body <- lift (readRoutingBody rq eveRequest (go_maxRequestBodyBytes options)) ;;
  match read_body with
  | Stop response => ret response
  | Go body =>
      eveRequest <- lift (match eveRequest with
                          | Some r => Ok (Some r)
                          | None => classifyMcpInvocation (default None body)
                          end) ;;
      let operationKey := operation_key_of options eveRequest body in
      operation <- repo (resolveGatewayOperationBinding projectId operationKey
                           (go_idlePolicy options)) ;;
      match operation with
      | OperationExpired _ => ret sessionExpiredResponse
      | operation =>
          let token :=
            match go_callerToken options with
            | Some mint =>
                match truthy (hdr_get (rq_headers rq) "authorization") with
                | Some _ => None
                | None => mint projectId
                end
            | None => None
            end in
          session <- repo (resolveGatewaySessionBinding projectId eveRequest
                             (go_idlePolicy options)) ;;
          match session with
          | SessionExpired _ => ret sessionExpiredResponse
          | session =>
              executeGatewaySessionProxy
                (mk_proxy_input (go_activationClient options) send route eveRequest
                   (active_session session) (active_operation operation) operationKey
                   (af_key affinity) (go_uuid options)
                   (FromApi (go_uuid options) (rq_remoteIp rq) (af_fingerprint affinity)
                      (af_source affinity))
                   rq body (rq_pathname rq +:+ rq_search rq) (go_maxRequestBodyBytes options)
                   (go_streamHeartbeatMs options)
                   (fun _ => buildUpstreamHeaders (rq_headers rq) authority (rq_protocol rq)
                               (go_uuid options) (rq_remoteIp rq) token)
                   (affinity_headers options rq hostname affinity))
          end
      end
  end.

(** [app.all("*")] *)
Definition public_handler (options : gateway_options)
    (send : list gateway_call -> result upstream_response) (rq : request)
    : M gateway gateway_response :=
  let authority := canonicalAuthority (default (rq_urlHost rq) (hdr_get (rq_headers rq) "host")) in
  let hostname := hostnameFromAuthority authority in
  if negb (isAllowedHostname hostname (go_allowedBaseDomains options)) then
    ret (if go_frontDoor options then
           let (target, path) := classifyFrontDoorPath (rq_pathname rq) in
           ToFrontDoor target (path +:+ rq_search rq)
             (front_door_headers (rq_headers rq) (rq_urlHost rq) (rq_protocol rq) (rq_remoteIp rq))
         else route_not_found)
  else
    found <- cached_route options hostname ;;
    match enabled_route found with
    | None => ret route_not_found
    | Some route =>
        if isWorkflowQueueNamespace (rq_pathname rq) && negb (isWorkflowWebhookRoute (rq_pathname rq))
        then ret route_not_found
        else
          let eveRequest := classifyEveSessionRequest (rq_method rq) (rq_pathname rq) in
          if bool_decide (eveRequest = None) && isEveSessionNamespace (rq_pathname rq)
          then ret route_not_found
          else serve_public options send rq authority hostname route eveRequest
    end.

(** The request identifier an internal caller may propagate. *)
Definition playground_request_id (options : gateway_options) (rq : request) : string :=
  match hdr_get (rq_headers rq) "x-eveland-request-id" with
  | Some id => String.substring 0 64 id
  | None => go_uuid options
  end.

(** The Playground's proxy, behind the service token. [agentAuth]: the decoded
    envelope, whether it asks for the loopback authority and its credentials;
    [None] when it does not decode. *)
Definition playground_handler (options : gateway_options)
    (send : list gateway_call -> result upstream_response)
    (agentAuth : option (bool * headers)) (projectId evePath : string) (rq : request)
    : M gateway gateway_response :=
  if negb (isInternalRequest (hdr_get (rq_headers rq) "authorization")
             (go_internalServiceToken options))
  then ret (Refusal 404 "Not found")
  else
  match agentAuth with
  | None => ret (Refusal 400 "Invalid Agent Auth envelope")
  | Some (loopback, credentials) =>
  match classifyEveSessionRequest (rq_method rq) evePath with
  | None => ret (Refusal 404 "Not found")
  | Some eveRequest =>
      found <- repo (findProjectRoute projectId) ;;
      match enabled_route found with
      | None => ret (Refusal 404 "Project route not found")
      | Some route =>
          let projectId := AgentRoute.projectId (rr_route route) in
          read_body <- lift (readRoutingBody rq (Some eveRequest) PLAYGROUND_MAX_TRANSPORT_BYTES) ;;
          match read_body with
          | Stop response => ret response
          | Go body =>
              let operationKey := operation_key_of options (Some eveRequest) body in
              operation <- repo (resolveGatewayOperationBinding projectId operationKey
                                   (go_idlePolicy options)) ;;
              match operation with
              | OperationExpired _ => ret sessionExpiredResponse
              | operation =>
                  session <- repo (resolveGatewaySessionBinding projectId (Some eveRequest)
                                     (go_idlePolicy options)) ;;
                  match session with
                  | SessionUnbound true => ret (Refusal 404 "Playground session not found")
                  | SessionExpired _ => ret sessionExpiredResponse
                  | session =>
                      let requestId := playground_request_id options rq in
                      executeGatewaySessionProxy
                        (mk_proxy_input (go_activationClient options) send route (Some eveRequest)
                           (active_session session) (active_operation operation) operationKey
                           (go_uuid options) requestId (FromPlayground requestId) rq body
                           (evePath +:+ rq_search rq) PLAYGROUND_MAX_TRANSPORT_BYTES
                           (go_streamHeartbeatMs options)
                           (fun port => buildInternalPlaygroundHeaders (rq_headers rq)
                              (if loopback then "localhost:" +:+ pretty port
                               else AgentRoute.hostname (rr_route route)) credentials)
                           (fun hs => hs))
                  end
              end
          end
      end
  end
  end.

(** [/internal/cache/invalidate] *)
Definition invalidate_cache (hostname : option string) : M gateway unit :=
  modify (fun g => mk_gateway (gw_store g) (gw_calls g)
    (match hostname with
     | Some h => cache_delete (gw_cache g) (hostnameFromAuthority (canonicalAuthority h))
     | None => []
     end)).
End Gateway.
