(* ===== verification/GatewayRuns.v ===== *)
(** * Properties of the gateway

    Which deployment a request of [Gateway] reaches, what becomes of its
    activation lease, and that a route always has a target for a new request
    while one of its deployments serves. *)

From stdpp Require Import pretty.
From S2P Require Import Prelude Schema Store Tables Sample Strings Encoding Jobs Runtime Routing EveEvents Sessions Cron Schedules Deployments RouteWeights EveVersion GatewayText Gateway.

Open Scope eve_scope.
Open Scope list_scope.

(** ** What each step of a request calls *)

Section Steps.
Context `{Platform} `{NodePlatform}.
Implicit Types (g : gateway) (input : proxy_input) (t : gateway_target).

Lemma repo_calls {A} (m : Tx A) g r g' : repo m g = (r, g') -> gw_calls g' = gw_calls g.
Proof. unfold repo. destruct (m (gw_store g)). by intros [= _ <-]. Qed.

Lemma gated_target_ok input binding g t g' :
  gated_target input binding g = (Ok (Go t), g') ->
  exists s1, resolveTarget (px_route input) binding (px_targetKey input)
    (bool_decide (is_Some (px_activationClient input))) (gw_store g) = (Ok (Some t), s1).
Proof.
  intros Hrun. apply bind_ok in Hrun as (o & g1 & Hres & Hrun).
  unfold repo in Hres. destruct (resolveTarget _ _ _ _ _) as [r s1].
  injection Hres as -> <-. destruct o as [t'|]; [|discriminate].
  apply bind_ok in Hrun as (f & g2 & _ & Hrun). destruct f; [discriminate|].
  injection Hrun as -> _. by exists s1.
Qed.

Lemma gated_target_calls input binding g r g' :
  gated_target input binding g = (r, g') -> gw_calls g' = gw_calls g.
Proof.
  unfold gated_target, unsupportedDeploymentResponse, bind.
  destruct (repo (resolveTarget _ _ _ _) g) as [[[t|]|e] g1] eqn:Hres;
    apply repo_calls in Hres; [|by intros [= _ <-]..].
  destruct (repo (getDeploymentEveVersion _) g1) as [[o|e] g2] eqn:Hev;
    apply repo_calls in Hev; intros [= _ <-]; congruence.
Qed.

Lemma claim_target_calls input t g r g' :
  claim_target input t g = (r, g') -> gw_calls g' = gw_calls g.
Proof.
  unfold claim_target. destruct (unclaimed_operation input); [|by intros [= _ <-]].
  unfold bind. destruct (repo (bindOperation _) g) as [[b|e] g1] eqn:Hb; apply repo_calls in Hb;
    [|by intros [= _ <-]].
  case_bool_decide; [by intros [= _ <-]|].
  destruct (gated_target _ _ g1) as [[m|e] g2] eqn:Hg; apply gated_target_calls in Hg;
    intros [= _ <-]; congruence.
Qed.

Lemma decide_target_calls input g r g' :
  decide_target input g = (r, g') -> gw_calls g' = gw_calls g.
Proof.
  unfold decide_target, bind. destruct (gated_target _ _ g) as [[[resp|t]|e] g1] eqn:Hg;
    apply gated_target_calls in Hg; [by intros [= _ <-] | | by intros [= _ <-]].
  intros Hc%claim_target_calls. congruence.
Qed.

(** The lease a request holds, and its release. *)
Definition held_lease (held : option (activation_client * gateway_activation)) : option string :=
  (fun h => ac_leaseId h.2) <$> held.

Definition release_calls (held : option (activation_client * gateway_activation)) : list gateway_call :=
  match held_lease held with Some l => [ReleaseLease l] | None => [] end.

Lemma release_activation_run held g :
  exists s, release_activation held g
            = (Ok tt, mk_gateway s (gw_calls g ++ release_calls held) (gw_cache g)).
Proof.
  destruct held as [[c a]|]; unfold release_activation, release_calls; simpl.
  - unfold bind, call, try_catch, repo. simpl.
    destruct (client_release c (ac_leaseId a) (gw_store g)) as [[[]|e] s]; simpl; by exists s.
  - exists (gw_store g). unfold ret. rewrite app_nil_r. by destruct g.
Qed.

(** An activation answers a lease for the target, or ends the request. *)
Lemma activate_target_run input t g :
  match px_activationClient input with
  | None => activate_target input t g = (Ok (Go None), g)
  | Some c =>
      let asked := Activate (gt_deploymentId t) (activationKind (px_eveRequest input))
                     (px_activationOwnerId input) in
      exists g',
        (exists response, activate_target input t g = (Ok (Stop response), g') /\
           (exists n e, response = Refusal n e) /\ gw_calls g' = gw_calls g ++ [asked]) \/
        (exists a s s', activate_target input t g = (Ok (Go (Some (c, a))), g') /\
           client_activate c (gt_deploymentId t) (activationKind (px_eveRequest input))
             (px_activationOwnerId input) s = (Ok a, s') /\
           gw_calls g' = gw_calls g ++ [asked; Granted (ac_leaseId a)])
  end.
Proof.
  unfold activate_target. destruct (px_activationClient input) as [c|]; [|done].
  unfold bind, call, try_catch, repo. simpl.
  destruct (client_activate c _ _ _ (gw_store g)) as [[a|e] s'] eqn:Ha; simpl; eexists.
  - right. exists a, (gw_store g), s'. split; [done|]. split; [done|]. simpl. by rewrite <- app_assoc.
  - left. destruct (rq_aborted _ || _); simpl; eexists; (split; [done|]); split; [|done| |done];
      by eexists _, _.
Qed.

Lemma send_upstream_run input port g r g' :
  send_upstream input port g = (r, g') ->
  exists sent, gw_calls g' = gw_calls g ++ sent /\
    (sent = [] /\ is_ok r = false \/
     exists hs body, sent = [Send port (px_upstreamPath input)
       (rq_method (px_request input)) hs body]).
Proof.
  unfold send_upstream. match goal with |- context [lift ?b] => destruct b as [body|e] end;
    unfold bind, lift, call.
  - intros [= <- <-]. simpl. eexists. split; [done|]. right. by eexists _, _.
  - intros [= <- <-]. exists []. rewrite app_nil_r. auto.
Qed.

Lemma proxied_run input held port g r g' :
  proxied input held port g = (r, g') ->
  exists sent, gw_calls g' = gw_calls g ++ sent ++
      match r with Ok (Go _) => [] | _ => release_calls held end /\
    (sent = [] \/ exists hs body, sent = [Send port (px_upstreamPath input)
       (rq_method (px_request input)) hs body]) /\
    match r with
    | Ok (Stop response) => exists n e, response = Refusal n e
    | _ => True
    end.
Proof.
  unfold proxied, try_catch, bind. destruct (send_upstream input port g) as [[up|e] g1] eqn:Hs;
    apply send_upstream_run in Hs as (sent & Hcalls & Hsent).
  - intros [= <- <-]. exists sent. rewrite app_nil_r. split; [done|].
    split; [|done]. destruct Hsent as [[-> _]|Hs]; auto.
  - intros Hrun. destruct (release_activation_run held g1) as [s Hrel]. rewrite Hrel in Hrun.
    exists sent. destruct e; injection Hrun as <- <-; simpl; rewrite Hcalls, app_assoc;
      (split; [done|]); (split; [destruct Hsent as [[-> _]|Hs]; auto|]);
      try done; by eexists _, _.
Qed.

Lemma observe_run eveRequest up g r g' :
  observeOpaqueSessionCreateFailure eveRequest up g = (r, g') ->
  exists reports, gw_calls g' = gw_calls g ++ reports /\
    (reports = [] \/ exists id, reports = [Report id]) /\
    match r with Ok _ => True | Err e => opaque_failure eveRequest up = Err e end.
Proof.
  unfold observeOpaqueSessionCreateFailure, bind, lift, call.
  destruct (opaque_failure eveRequest up) as [[id|]|e]; intros [= <- <-]; simpl.
  - eexists. split; [done|]. split; [right; by eexists | done].
  - exists []. rewrite app_nil_r. auto.
  - exists []. rewrite app_nil_r. auto.
Qed.

Lemma record_session_run input t op held up g r g' :
  record_session input t op held up g = (r, g') ->
  gw_calls g' = gw_calls g ++ match r with Ok _ => [] | Err _ => release_calls held end.
Proof.
  unfold record_session, try_catch, bind. destruct (repo _ g) as [[u|e] g1] eqn:Hr;
    apply repo_calls in Hr.
  - intros [= <- <-]. by rewrite app_nil_r.
  - destruct (release_activation_run held g1) as [s ->]. intros [= <- <-]. simpl. by rewrite Hr.
Qed.

Lemma answer_upstream_run input held opaque up g r g' :
  answer_upstream input held opaque up g = (r, g') ->
  exists response heartbeats,
    (r = Ok (Forwarded response None heartbeats) /\
     gw_calls g' = gw_calls g ++ release_calls held) \/
    (r = Ok (Forwarded response (held_lease held) heartbeats) /\ gw_calls g' = gw_calls g).
Proof.
  unfold answer_upstream, bind. destruct (up_body up).
  - intros [= <- <-]. eexists _, _. right. done.
  - destruct (release_activation_run held g) as [s ->]. intros [= <- <-]. eexists _, _. left. done.
Qed.
End Steps.

(** ** The life of a request *)

Section Life.
Context `{Platform} `{NodePlatform}.
Implicit Types (g : gateway) (input : proxy_input) (t : gateway_target).

Definition asked input t : gateway_call :=
  Activate (gt_deploymentId t) (activationKind (px_eveRequest input)) (px_activationOwnerId input).

(** The calls that open a request, the lease they leave it holding, and the port
    it is sent to: the deployment's own without an activation service. *)
Inductive opened input t :
    list gateway_call -> option (activation_client * gateway_activation) -> Z -> Prop :=
  | OpenedDirectly :
      px_activationClient input = None -> opened input t [] None (gt_hostPort t)
  | OpenedActivated c a s s' :
      px_activationClient input = Some c ->
      client_activate c (gt_deploymentId t) (activationKind (px_eveRequest input))
        (px_activationOwnerId input) s = (Ok a, s') ->
      opened input t [asked input t; Granted (ac_leaseId a)] (Some (c, a)) (ac_endpointPort a).

(** How a request that opened ends: its lease handed to the response, released,
    or, when the observation of a failed create throws, neither. *)
Inductive ended input (held : option (activation_client * gateway_activation)) :
    list gateway_call -> result gateway_response -> Prop :=
  | EndedForwarded response heartbeats :
      ended input held [] (Ok (Forwarded response (held_lease held) heartbeats))
  | EndedBodiless response heartbeats :
      ended input held (release_calls held) (Ok (Forwarded response None heartbeats))
  | EndedRefused n e : ended input held (release_calls held) (Ok (Refusal n e))
  | EndedThrown e : ended input held (release_calls held) (Err e)
  | EndedUnobserved e up :
      opaque_failure (px_eveRequest input) up = Err e -> ended input held [] (Err e).

Inductive request_life input t : list gateway_call -> result gateway_response -> Prop :=
  | LifeRefused n e :
      is_Some (px_activationClient input) ->
      request_life input t [asked input t] (Ok (Refusal n e))
  | LifeOpened acts held port sent reports closing r :
      opened input t acts held port ->
      (sent = [] \/ exists hs body, sent = [Send port (px_upstreamPath input)
         (rq_method (px_request input)) hs body]) ->
      (reports = [] \/ exists id, reports = [Report id]) ->
      ended input held closing r ->
      request_life input t (acts ++ sent ++ reports ++ closing) r.

Lemma proceed_run {A} (m : M gateway (step_result A)) k g r g' :
  proceed m k g = (r, g') ->
  (exists response, m g = (Ok (Stop response), g') /\ r = Ok response) \/
  (exists e, m g = (Err e, g') /\ r = Err e) \/
  (exists a g1, m g = (Ok (Go a), g1) /\ k a g1 = (r, g')).
Proof.
  unfold proceed, bind. destruct (m g) as [[[response|a]|e] g1]; intros Hrun.
  - injection Hrun as <- <-. left. by eexists.
  - right. right. by eexists _, _.
  - injection Hrun as <- <-. right. left. by eexists.
Qed.

(** From the opened request on. *)
Lemma opened_life input t op acts held port g0 g r g' :
  opened input t acts held port -> gw_calls g = gw_calls g0 ++ acts ->
  proceed (proxied input held port) (fun upstream =>
    opaque <- observeOpaqueSessionCreateFailure (px_eveRequest input) upstream ;;
    record_session input t op held upstream ;;
    answer_upstream input held opaque upstream) g = (r, g') ->
  exists new, gw_calls g' = gw_calls g0 ++ new /\ request_life input t new r.
Proof.
  intros Hopen Hg Hrun.
  apply proceed_run in Hrun as [(resp & Hp & ->)|[(e & Hp & ->)|(up & g1 & Hp & Hrun)]];
    apply proxied_run in Hp as (sent & Hcalls & Hsent & Hresp).
  - destruct Hresp as (n & e & ->). exists (acts ++ sent ++ [] ++ release_calls held).
    split; [by rewrite Hcalls, Hg, <- app_assoc|].
    eapply LifeOpened; [done | done | by left | constructor].
  - exists (acts ++ sent ++ [] ++ release_calls held).
    split; [by rewrite Hcalls, Hg, <- app_assoc|].
    eapply LifeOpened; [done | done | by left | constructor].
  - rewrite app_nil_r in Hcalls. unfold bind at 1 in Hrun.
    destruct (observeOpaqueSessionCreateFailure _ up g1) as [[opaque|e] g2] eqn:Hobs;
      apply observe_run in Hobs as (reports & Hc2 & Hrep & Hfail).
    2: { injection Hrun as <- <-. exists (acts ++ sent ++ reports ++ []).
         split; [by rewrite app_nil_r, Hc2, Hcalls, Hg, <- !app_assoc|].
         eapply LifeOpened; [done|done|done|]. by eapply EndedUnobserved. }
    unfold bind in Hrun. destruct (record_session _ _ _ _ _ g2) as [[u|e] g3] eqn:Hrec;
      apply record_session_run in Hrec.
    2: { injection Hrun as <- <-. exists (acts ++ sent ++ reports ++ release_calls held).
         split; [by rewrite Hrec, Hc2, Hcalls, Hg, <- !app_assoc|].
         eapply LifeOpened; [done|done|done|constructor]. }
    rewrite app_nil_r in Hrec.
    apply answer_upstream_run in Hrun as (resp & hb & [[-> Hc4]|[-> Hc4]]).
    + exists (acts ++ sent ++ reports ++ release_calls held).
      split; [by rewrite Hc4, Hrec, Hc2, Hcalls, Hg, <- !app_assoc|].
      eapply LifeOpened; [done|done|done|constructor].
    + exists (acts ++ sent ++ reports ++ []).
      split; [by rewrite app_nil_r, Hc4, Hrec, Hc2, Hcalls, Hg, <- !app_assoc|].
      eapply LifeOpened; [done|done|done|constructor].
Qed.

(** A request is settled before its target is, or lives on it. *)
Lemma execute_life input g r g' :
  executeGatewaySessionProxy input g = (r, g') ->
  gw_calls g' = gw_calls g /\ (forall response, r = Ok response ->
     exists g1, decide_target input g = (Ok (Stop response), g1)) \/
  exists t op g1 new,
    decide_target input g = (Ok (Go (t, op)), g1) /\
    gw_calls g' = gw_calls g ++ new /\ request_life input t new r.
Proof.
  intros Hrun.
  apply proceed_run in Hrun as [(resp & Hd & ->)|[(e & Hd & ->)|([t op] & g1 & Hd & Hrun)]].
  - left. split; [by eapply decide_target_calls|]. intros ? [= <-]. by eexists.
  - left. split; [by eapply decide_target_calls|]. done.
  - right. exists t, op, g1. pose proof (decide_target_calls _ _ _ _ Hd) as Hg1.
    cut (exists new, gw_calls g' = gw_calls g ++ new /\ request_life input t new r).
    { intros (new & ? & ?). by exists new. }
    pose proof (activate_target_run input t g1) as Hact.
    destruct (px_activationClient input) as [c|] eqn:Hc.
    + destruct Hact as (g2 & [(resp & Ha & (n & e & ->) & Hc2)|(a & s & s' & Ha & Hcl & Hc2)]);
        unfold proceed in Hrun; rewrite (bind_step _ _ _ _ _ Ha) in Hrun; cbv iota in Hrun.
      * injection Hrun as <- <-. exists [asked input t]. split; [by rewrite Hc2, Hg1|].
        constructor. by rewrite Hc.
      * eapply (opened_life input t op [asked input t; Granted (ac_leaseId a)] (Some (c, a)));
          [by econstructor | by rewrite Hc2, Hg1 | exact Hrun].
    + unfold proceed in Hrun. rewrite (bind_step _ _ _ _ _ Hact) in Hrun. cbv iota in Hrun.
      eapply (opened_life input t op [] None); [by constructor | by rewrite app_nil_r | exact Hrun].
Qed.
End Life.

(** ** Create operations are decided once *)

(** Operation bindings only ever gain rows and touch their clock. *)
Definition operations_kept : relation database := fun d d' =>
  forall k b, operationBindings d !! k = Some b ->
    exists b', operationBindings d' !! k = Some b' /\
      OperationBinding.projectId b' = OperationBinding.projectId b /\
      OperationBinding.operationKey b' = OperationBinding.operationKey b /\
      OperationBinding.deploymentId b' = OperationBinding.deploymentId b.

#[export] Instance operations_kept_preorder : PreOrder operations_kept.
Proof.
  split.
  - intros d k b Hk. by exists b.
  - intros d1 d2 d3 H12 H23 k b Hk. destruct (H12 k b Hk) as (b2 & Hk2 & Hp & Ho & Hd).
    destruct (H23 k b2 Hk2) as (b3 & ? & ? & ? & ?). exists b3. split; [done|]. by repeat split; etrans.
Qed.

Lemma operations_frame d d' : operationBindings d' = operationBindings d -> operations_kept d d'.
Proof. intros Heq k b Hk. exists b. by rewrite Heq. Qed.

(** What the gateway needs of an activation service. *)
Class LawfulClient (c : activation_client) : Prop := {
  activate_keeps did kind owner : moves operations_kept (client_activate c did kind owner);
  release_keeps lease : moves operations_kept (client_release c lease)
}.

Ltac frame_ops :=
  first [ apply moves_insert_row; [apply _|] | apply moves_update_key; [apply _|]
        | apply moves_update_where; [apply _|] | apply moves_write ];
  intros; by apply operations_frame.

Section CreateOnce.
Context `{Platform} `{NodePlatform}.

Lemma moves_bindOperation input : moves operations_kept (bindOperation input).
Proof.
  unfold bindOperation, insert_or_ignore. walk; try apply _.
  apply moves_insert_row; [apply _|]. intros d Hn k b Hk. exists b. simpl. split; [|done].
  rewrite lookup_insert_ne; [done|]. intros ->. simpl in Hn. congruence.
Qed.

Lemma moves_touchOperation pid key now : moves operations_kept (touchOperationBinding pid key now).
Proof.
  unfold touchOperationBinding. walk; try apply _. apply moves_update_where; [apply _|].
  intros d k b Hk. simpl. eexists. rewrite update_rows_lookup, Hk. split; [done|].
  by destruct (operation_of pid key b).
Qed.

Lemma moves_bindSession_ops input : moves operations_kept (bindSession input).
Proof.
  unfold bindSession. walk; try apply _.
  - apply moves_upsert; [apply _|..]; intros; frame_ops.
  - frame_ops.
Qed.

(** The computations of the gateway, over its store. *)
Definition gmoves {A} (R : relation database) (m : M gateway A) : Prop :=
  forall g, R (st_db (gw_store g)) (st_db (gw_store (exec m g))).

Section GMoves.
Context (R : relation database) `{!PreOrder R}.

Lemma gmoves_same {A} (m : M gateway A) : (forall g, gw_store (exec m g) = gw_store g) -> gmoves R m.
Proof. intros Hm g. rewrite Hm. reflexivity. Qed.

Lemma gmoves_repo {A} (m : Tx A) : moves R m -> gmoves R (repo m).
Proof.
  intros Hm g. specialize (Hm (gw_store g)). unfold exec, repo in *.
  by destruct (m (gw_store g)).
Qed.

Lemma gmoves_bind {A B} (m : M gateway A) (k : A -> M gateway B) :
  gmoves R m -> (forall a, gmoves R (k a)) -> gmoves R (bind m k).
Proof.
  intros Hm Hk g. specialize (Hm g). unfold exec, bind in *.
  destruct (m g) as [[a|e] g1]; [|exact Hm]. etransitivity; [exact Hm|]. exact (Hk a g1).
Qed.

Lemma gmoves_bind_ok {A B} (m : M gateway A) (k : A -> M gateway B) :
  gmoves R m -> (forall a, (exists g g1, m g = (Ok a, g1)) -> gmoves R (k a)) ->
  gmoves R (bind m k).
Proof.
  intros Hm Hk g. specialize (Hm g). unfold exec, bind in *.
  destruct (m g) as [[a|e] g1] eqn:Hrun; [|exact Hm]. etransitivity; [exact Hm|].
  apply (Hk a). by exists g, g1.
Qed.

Lemma gmoves_try_catch {A} (m : M gateway A) h :
  gmoves R m -> (forall e, gmoves R (h e)) -> gmoves R (try_catch m h).
Proof.
  intros Hm Hh g. specialize (Hm g). unfold exec, try_catch in *.
  destruct (m g) as [[a|e] g1]; [exact Hm|]. etransitivity; [exact Hm|]. exact (Hh e g1).
Qed.
End GMoves.

Ltac gwalk :=
  repeat first
    [ progress (intros; cbv beta zeta)
    | match goal with
      | |- gmoves _ (match ?x with _ => _ end) => destruct x
      | |- gmoves _ (let '_ := ?x in _) => destruct x
      | |- gmoves _ (bind _ _) => apply gmoves_bind; [apply _|..]
      | |- gmoves _ (try_catch _ _) => apply gmoves_try_catch; [apply _|..]
      | |- gmoves _ (repo _) => apply gmoves_repo
      | |- gmoves _ (proceed _ _) => unfold proceed
      end
    | solve [apply gmoves_same; [apply _|]; intros; reflexivity]
    | solve [eauto with moves typeclass_instances] ].

Lemma moves_resolveTarget route binding key allow :
  moves operations_kept (resolveTarget route binding key allow).
Proof. unfold resolveTarget, getDeployment. walk; apply _. Qed.

Lemma gmoves_gated input binding : gmoves operations_kept (gated_target input binding).
Proof.
  unfold gated_target, unsupportedDeploymentResponse, getDeploymentEveVersion. gwalk.
  apply moves_resolveTarget.
Qed.

Lemma gmoves_claim input t : gmoves operations_kept (claim_target input t).
Proof.
  unfold claim_target. gwalk; [apply moves_bindOperation | apply gmoves_gated].
Qed.

Lemma gmoves_decide input : gmoves operations_kept (decide_target input).
Proof. unfold decide_target. gwalk; [apply gmoves_gated | apply gmoves_claim]. Qed.

Lemma gmoves_release held :
  match held with Some (c, _) => LawfulClient c | None => True end ->
  gmoves operations_kept (release_activation held).
Proof.
  unfold release_activation. destruct held as [[c a]|]; intros Hc; gwalk. apply release_keeps.
Qed.

Lemma gmoves_activate input t :
  match px_activationClient input with Some c => LawfulClient c | None => True end ->
  gmoves operations_kept (activate_target input t).
Proof.
  intros Hc. unfold activate_target. destruct (px_activationClient input) as [c|]; gwalk.
  apply activate_keeps.
Qed.

Lemma gmoves_rest input t op held port :
  match held with Some (c, _) => LawfulClient c | None => True end ->
  gmoves operations_kept (proceed (proxied input held port) (fun upstream =>
    opaque <- observeOpaqueSessionCreateFailure (px_eveRequest input) upstream ;;
    record_session input t op held upstream ;;
    answer_upstream input held opaque upstream)).
Proof.
  intros Hc. assert (Hrel := gmoves_release held Hc).
  assert (Hthrow : forall (A : Type) e, gmoves operations_kept (throw (A := A) e))
    by (intros; apply gmoves_same; [apply _|done]).
  unfold proceed, proxied, send_upstream, observeOpaqueSessionCreateFailure, record_session,
    answer_upstream. gwalk; try exact Hrel; auto.
  unfold applyGatewaySessionResponse. walk; try apply _. apply moves_bindSession_ops.
Qed.

Lemma gmoves_after_decision input t op :
  (forall c, px_activationClient input = Some c -> LawfulClient c) ->
  gmoves operations_kept
    (proceed (activate_target input t) (fun held =>
       let port := match held with Some h => ac_endpointPort h.2 | None => gt_hostPort t end in
       proceed (proxied input held port) (fun upstream =>
         opaque <- observeOpaqueSessionCreateFailure (px_eveRequest input) upstream ;;
         record_session input t op held upstream ;;
         answer_upstream input held opaque upstream))).
Proof.
  intros Hlaw.
  assert (Hc : match px_activationClient input with Some c => LawfulClient c | None => True end)
    by (destruct (px_activationClient input); auto).
  unfold proceed at 1. apply gmoves_bind_ok; [apply _|by apply gmoves_activate|].
  intros [resp|held] (g & g1 & Ha); [gwalk|]. apply gmoves_rest.
  pose proof (activate_target_run input t g) as Hrun.
  destruct (px_activationClient input) as [c|].
  - destruct Hrun as (g2 & [(resp & Hr & _)|(a & s & s' & Hr & _)]); [congruence|].
    rewrite Hr in Ha. by injection Ha as <- _.
  - rewrite Hrun in Ha. by injection Ha as <- _.
Qed.
End CreateOnce.

(** ** The deployment a request is decided for *)

Section Decisions.
Context `{Platform} `{NodePlatform}.
Implicit Types (g : gateway) (input : proxy_input) (t : gateway_target).

Lemma resolveTarget_reads route binding key allow s r s1 :
  resolveTarget route binding key allow s = (r, s1) -> s1 = s.
Proof.
  unfold resolveTarget, getDeployment, read, gets, bind, ret, lift.
  destruct binding as [[did v]|].
  - destruct (find _ _); by intros [= _ <-].
  - repeat case_bool_decide; by intros [= _ <-].
Qed.

Lemma resolveTarget_pinned route did v key allow s t s1 :
  keyed deployments_table (st_db s) ->
  resolveTarget route (Some (did, v)) key allow s = (Ok (Some t), s1) ->
  gt_deploymentId t = did /\ serves_pinned allow (gt_status t) = true.
Proof.
  intros Hkey. unfold resolveTarget. destruct (find _ _) as [t'|] eqn:Hf.
  - intros [= <- _]. apply find_some in Hf as [_ [Hd%bool_decide_eq_true Hs]%andb_true_iff]. done.
  - unfold getDeployment, read, gets, bind, ret.
    destruct (deployments (st_db s) !! did) as [dep|] eqn:Hk; [|done].
    destruct (serves_pinned allow (Deployment.status dep)) eqn:Hs; [|done].
    intros [= <- _]. simpl. split; [exact (Hkey did dep Hk) | done].
Qed.

Lemma gated_target_store input binding g r g' :
  gated_target input binding g = (r, g') -> gw_store g' = gw_store g.
Proof.
  unfold gated_target, unsupportedDeploymentResponse, repo, bind, read, gets, ret.
  destruct (resolveTarget _ _ _ _ _) as [[[t|]|e] s1] eqn:Hres;
    apply resolveTarget_reads in Hres as ->; by intros [= _ <-].
Qed.

Lemma gated_target_pinned input did v g t g' :
  keyed deployments_table (st_db (gw_store g)) ->
  gated_target input (Some (did, v)) g = (Ok (Go t), g') -> gt_deploymentId t = did.
Proof. intros Hkey (s1 & Hres)%gated_target_ok. by apply resolveTarget_pinned in Hres as [? _]. Qed.

Lemma decide_target_pinned input did v g t op g' :
  keyed deployments_table (st_db (gw_store g)) ->
  routing_binding input = Some (did, v) -> unclaimed_operation input = None ->
  decide_target input g = (Ok (Go (t, op)), g') ->
  gt_deploymentId t = did /\ op = px_operationBinding input /\ gw_store g' = gw_store g.
Proof.
  intros Hkey Hpin Hun Hrun. unfold decide_target in Hrun. rewrite Hpin in Hrun.
  apply bind_ok in Hrun as ([resp|t'] & g1 & Hg & Hrun); [discriminate|].
  unfold claim_target in Hrun. rewrite Hun in Hrun. injection Hrun as -> <- <-.
  split; [by eapply gated_target_pinned|]. split; [done|]. by eapply gated_target_store.
Qed.

Definition deployments_kept : relation database := fun d d' => deployments d' = deployments d.

#[local] Instance deployments_kept_preorder : PreOrder deployments_kept.
Proof. unfold deployments_kept. split; [by intros d | intros d1 d2 d3; congruence]. Qed.

Lemma bindOperation_deployments claim s r s1 :
  bindOperation claim s = (r, s1) -> deployments (st_db s1) = deployments (st_db s).
Proof.
  intros Hrun. assert (Hm : moves deployments_kept (bindOperation claim)).
  { unfold bindOperation, insert_or_ignore. walk; try apply _.
    apply moves_insert_row; [apply _|]. done. }
  specialize (Hm s). unfold exec in Hm. by rewrite Hrun in Hm.
Qed.

(** A request that claims its operation serves the deployment the operation is
    bound to. *)
Lemma decide_target_claimed input key g t op g' :
  keyed deployments_table (st_db (gw_store g)) ->
  unique_ok operation_bindings_project_key_idx (operationBindings (st_db (gw_store g))) ->
  unclaimed_operation input = Some key ->
  decide_target input g = (Ok (Go (t, op)), g') ->
  exists b k, op = Some b /\ operationBindings (st_db (gw_store g')) !! k = Some b /\
    operation_of (AgentRoute.projectId (rr_route (px_route input))) key b = true /\
    gt_deploymentId t = OperationBinding.deploymentId b /\
    unique_ok operation_bindings_project_key_idx (operationBindings (st_db (gw_store g'))).
Proof.
  intros Hkey Hu Hun Hrun.
  apply bind_ok in Hrun as ([resp|t'] & g1 & Hg & Hrun); [discriminate|].
  apply gated_target_store in Hg. unfold claim_target in Hrun. rewrite Hun in Hrun.
  apply bind_ok in Hrun as (b & g2 & Hb & Hrun). unfold repo in Hb.
  destruct (bindOperation _ _) as [r s2] eqn:Hbind. injection Hb as -> <-. rewrite Hg in Hbind.
  pose proof (bindOperation_deployments _ _ _ _ Hbind) as Hdep.
  apply bindOperation_ok in Hbind as (Hu2 & Hop & (k & Hk) & _); [|done].
  exists b, k. case_bool_decide as Hsame.
  - injection Hrun as <- <- <-. done.
  - apply bind_ok in Hrun as ([resp|t2] & g3 & Hg2 & Hrun); [discriminate|].
    injection Hrun as <- <- <-. rewrite (gated_target_store _ _ _ _ _ Hg2). simpl.
    split; [done|]. split; [done|]. split; [done|]. split; [|done].
    eapply gated_target_pinned; [|exact Hg2]. simpl. intros k' r'. simpl. rewrite Hdep. apply Hkey.
Qed.

(** A request for an operation of a project: with a binding the store holds, or
    with none yet. *)
Definition for_operation (pid key : string) input (d : database) : Prop :=
  AgentRoute.projectId (rr_route (px_route input)) = pid /\
  truthy (px_operationKey input) = Some key /\ px_binding input = None /\
  match px_operationBinding input with
  | None => True
  | Some b =>
      exists k b', operationBindings d !! k = Some b' /\ operation_of pid key b' = true /\
        OperationBinding.deploymentId b' = OperationBinding.deploymentId b
  end.

Lemma decide_for_operation pid key input g t op g' :
  keyed deployments_table (st_db (gw_store g)) ->
  unique_ok operation_bindings_project_key_idx (operationBindings (st_db (gw_store g))) ->
  for_operation pid key input (st_db (gw_store g)) ->
  decide_target input g = (Ok (Go (t, op)), g') ->
  exists b k, operationBindings (st_db (gw_store g')) !! k = Some b /\
    operation_of pid key b = true /\ gt_deploymentId t = OperationBinding.deploymentId b /\
    unique_ok operation_bindings_project_key_idx (operationBindings (st_db (gw_store g'))).
Proof.
  intros Hkey Hu (Hpid & Hk & Hnone & Hop) Hrun.
  destruct (px_operationBinding input) as [b|] eqn:Hb.
  - destruct Hop as (k & b' & Hlk & Hof & Hdep). exists b', k. rewrite Hdep.
    destruct (decide_target_pinned input (OperationBinding.deploymentId b)
                (OperationBinding.variantName b) g t op g') as (Ht & _ & Hst);
      [done| | |done|by rewrite Hst].
    + unfold routing_binding. by rewrite Hnone, Hb.
    + unfold unclaimed_operation. by rewrite Hb.
  - subst pid. destruct (decide_target_claimed input key g t op g') as (b & k & _ & ?);
      [done|done| |done|by exists b, k].
    unfold unclaimed_operation. by rewrite Hb.
Qed.

Lemma operation_of_kept pid key b b' :
  OperationBinding.projectId b' = OperationBinding.projectId b ->
  OperationBinding.operationKey b' = OperationBinding.operationKey b ->
  operation_of pid key b = true -> operation_of pid key b' = true.
Proof. unfold operation_of. by intros -> ->. Qed.

(** What an activation asks for in a request's life. *)
Lemma life_activates input t new r d kind owner :
  request_life input t new r -> Activate d kind owner ∈ new -> d = gt_deploymentId t.
Proof.
  intros Hl Hin. inversion Hl as [n e Hc|acts held port sent reports closing r' Ho Hs Hr Hen]; subst.
  - apply list_elem_of_singleton in Hin. by injection Hin.
  - rewrite !elem_of_app in Hin. destruct Hin as [Hin|[Hin|[Hin|Hin]]].
    + inversion Ho; subst; [by apply not_elem_of_nil in Hin|].
      apply elem_of_cons in Hin as [Hin|Hin%list_elem_of_singleton]; [by injection Hin | done].
    + destruct Hs as [->|(hs & body & ->)]; [by apply not_elem_of_nil in Hin|].
      by apply list_elem_of_singleton in Hin.
    + destruct Hr as [->|(id & ->)]; [by apply not_elem_of_nil in Hin|].
      by apply list_elem_of_singleton in Hin.
    + assert (Hrel : Activate d kind owner ∉ release_calls held).
      { unfold release_calls. destruct (held_lease held); [|apply not_elem_of_nil].
        by intros ?%list_elem_of_singleton. }
      inversion Hen; subst; try done; by apply not_elem_of_nil in Hin.
Qed.

(** A request that activates a deployment was decided for it. *)
Lemma execute_decided input g r g' new d kind owner :
  executeGatewaySessionProxy input g = (r, g') -> gw_calls g' = gw_calls g ++ new ->
  Activate d kind owner ∈ new ->
  exists t op g1, decide_target input g = (Ok (Go (t, op)), g1) /\ d = gt_deploymentId t.
Proof.
  intros Hrun Hnew Hin.
  apply execute_life in Hrun as [(Hcalls & _)|(t & op & g1 & new' & Hd & Hcalls & Hlife)].
  - rewrite Hcalls in Hnew. rewrite <- (app_nil_r (gw_calls g)) in Hnew at 1.
    apply app_inv_head in Hnew as <-. by apply not_elem_of_nil in Hin.
  - rewrite Hcalls in Hnew. apply app_inv_head in Hnew as ->. exists t, op, g1.
    split; [done|]. by eapply life_activates.
Qed.

(** What is bound when the request is decided stays bound while it runs. *)
Lemma execute_keeps input g r g' g1 decided :
  (forall c, px_activationClient input = Some c -> LawfulClient c) ->
  decide_target input g = (Ok (Go decided), g1) ->
  executeGatewaySessionProxy input g = (r, g') ->
  operations_kept (st_db (gw_store g1)) (st_db (gw_store g')).
Proof.
  intros Hlaw Hd Hrun. destruct decided as [t op].
  apply proceed_run in Hrun as [(resp & Hd2 & _)|[(e & Hd2 & _)|(decided & g2 & Hd2 & Hrun)]];
    [congruence..|]. rewrite Hd in Hd2. injection Hd2 as <- <-.
  replace g' with ((r, g').2) by done. rewrite <- Hrun. by apply gmoves_after_decision.
Qed.

Lemma decide_target_stops input g response g1 :
  decide_target input g = (Ok (Stop response), g1) -> exists n e, response = Refusal n e.
Proof.
  assert (Hgated : forall binding g response g1, gated_target input binding g = (Ok (Stop response), g1) ->
            exists n e, response = Refusal n e).
  { intros binding g0 resp g2 Hrun. unfold gated_target in Hrun.
    apply bind_ok in Hrun as ([t|] & g3 & _ & Hrun); [|injection Hrun as <- _; by eexists _, _].
    unfold unsupportedDeploymentResponse in Hrun.
    apply bind_ok in Hrun as (f & g4 & Hf & Hrun). apply bind_ok in Hf as (o & g5 & _ & Hf).
    destruct (ev_supported _); injection Hf as <- _; simpl in Hrun; [discriminate|].
    injection Hrun as <- _. by eexists _, _. }
  intros Hrun. apply bind_ok in Hrun as ([resp|t] & g2 & Hg & Hrun).
  - injection Hrun as <- _. by eapply Hgated.
  - unfold claim_target in Hrun. destruct (unclaimed_operation input); [|discriminate].
    apply bind_ok in Hrun as (b & g3 & _ & Hrun). case_bool_decide; [discriminate|].
    apply bind_ok in Hrun as ([resp|t'] & g4 & Hg2 & Hrun); [|discriminate].
    injection Hrun as <- _. by eapply Hgated.
Qed.
End Decisions.

(** ** Targets of a stored route *)

Lemma bind_singleton {A B} (p : A -> bool) (f : A -> B) l a :
  NoDup l -> a ∈ l -> (forall b, b ∈ l -> p b = true <-> b = a) ->
  (b ← l; if p b then [f b] else []) = [f a].
Proof.
  induction l as [|x l IH]; intros Hnd Hin Hp; [by apply not_elem_of_nil in Hin|].
  apply NoDup_cons in Hnd as [Hx Hnd]. rewrite bind_cons.
  destruct (p x) eqn:Hpx.
  - apply Hp in Hpx as ->; [|left].
    assert (Hnil : (b ← l; if p b then [f b] else []) = []); [|by rewrite Hnil].
    assert (Hl : forall b, b ∈ l -> p b = false).
    { intros b Hb. apply not_true_iff_false. intros Hpb. apply Hp in Hpb; [by subst|by right]. }
    clear -Hl. induction l as [|y l IH]; [done|]. rewrite bind_cons, (Hl y) by left.
    apply IH. intros b Hb. apply Hl. by right.
  - simpl. apply IH; [done| |intros b Hb; apply Hp; by right].
    apply elem_of_cons in Hin as [->|]; [|done]. by rewrite (proj2 (Hp x ltac:(left)) eq_refl) in Hpx.
Qed.

Lemma NoDup_rows {R} (idf : R -> string) (t : gmap string R) :
  (forall k r, t !! k = Some r -> idf r = k) -> NoDup (rows t).
Proof.
  intros Hid. apply (NoDup_fmap_1 idf). unfold rows. rewrite <- list_fmap_compose.
  assert (Hext : (idf ∘ snd) <$> map_to_list t = (map_to_list t).*1).
  { apply list_fmap_ext. intros i [k r] Hk. simpl. apply Hid.
    apply elem_of_map_to_list. by apply list_elem_of_lookup_2 in Hk. }
  rewrite Hext. apply NoDup_fst_map_to_list.
Qed.

(** The deployment each target of a route names is stored. *)
Definition targets_deployed (rid : string) (d : database) : Prop :=
  forall t, t ∈ targets_of rid d -> is_Some (deployments d !! RouteTarget.deploymentId t).

(** The resolved targets are the stored ones, one each. *)
Lemma resolved_targets d r :
  keyed deployments_table d -> targets_deployed (AgentRoute.id r) d ->
  weighted_input <$> route_targets (resolve_route d r)
  = target_input <$> targets_of (AgentRoute.id r) d.
Proof.
  intros Hkey Hdep. unfold route_targets, resolve_route. simpl.
  rewrite <- !list_fmap_compose. unfold inner_join. unfold targets_deployed in Hdep.
  induction (targets_of (AgentRoute.id r) d) as [|t l IH]; [done|].
  destruct (Hdep t) as [dep Hd]; [by left|].
  rewrite bind_cons.
  rewrite (bind_singleton (fun b => bool_decide (Deployment.id b = RouteTarget.deploymentId t))
             (pair t) (rows (deployments d)) dep).
  - rewrite fmap_app, IH; [by destruct t|]. intros t' Ht'. apply Hdep. by right.
  - by apply (NoDup_rows Deployment.id).
  - apply elem_of_rows. by eexists.
  - intros b (k & Hk)%elem_of_rows. rewrite bool_decide_eq_true.
    pose proof (Hkey k b Hk) as Hb. pose proof (Hkey _ dep Hd) as Hdid. simpl in *.
    split; [|by intros ->]. intros Heq. rewrite <- Hb, Heq, Hd in Hk. by injection Hk.
Qed.

Lemma find_by_deployment (targets : list gateway_target) did :
  did ∈ gt_deploymentId <$> targets ->
  exists t, find (fun g => bool_decide (gt_deploymentId g = did)) targets = Some t /\
    t ∈ targets /\ gt_deploymentId t = did.
Proof.
  induction targets as [|x l IH]; [by intros ?%not_elem_of_nil|].
  rewrite fmap_cons, elem_of_cons. intros Hin. simpl. case_bool_decide as Hx.
  - exists x. split; [done|]. split; [by left | done].
  - destruct Hin as [->|Hin]; [done|]. destruct (IH Hin) as (t & Hf & Ht & Hd).
    exists t. split; [done|]. split; [by right | done].
Qed.

(** The choice among targets whose weights are valid. *)
Lemma select_target_ok targets key route :
  valid_targets (weighted_input <$> targets) ->
  exists t, select_target targets key route = Ok (Some t) /\ t ∈ targets /\ (0 < gt_weight t)%Z.
Proof.
  intros Hv. unfold select_target.
  destruct (select_valid _ (code_units key)
              (Some (code_units (AgentRoute.id route), AgentRoute.policyRevision route)) Hv)
    as (ti & -> & Hin & Hw).
  apply list_elem_of_fmap in Hin as (g & -> & Hg).
  destruct (find_by_deployment targets (gt_deploymentId g)) as (t & Hf & Ht & Hd);
    [apply list_elem_of_fmap; by exists g|].
  simpl. rewrite Hf. exists t. split; [done|]. split; [done|].
  assert (t = g) as ->; [|exact Hw].
  pose proof (vt_unique _ Hv) as Hnd. rewrite <- list_fmap_compose in Hnd.
  apply list_elem_of_lookup in Ht as [i Hi], Hg as [j Hj].
  assert (i = j) as ->; [|congruence].
  eapply (NoDup_lookup _ i j (gt_deploymentId t) Hnd);
    rewrite list_lookup_fmap, ?Hi, ?Hj; simpl; congruence.
Qed.

Section BoolFilter.
Context {A : Type} (p : A -> bool).

Lemma filter_all_true (l : list A) :
  (forall x, x ∈ l -> p x = true) -> base.filter (fun x => p x = true) l = l.
Proof.
  induction l as [|x l IH]; intros Hp; [done|].
  rewrite filter_cons_True by (apply Hp; left). f_equal. apply IH. intros y Hy. apply Hp. by right.
Qed.

Lemma filter_full (l : list A) :
  ~ (length (base.filter (fun x => p x = true) l) < length l)%nat ->
  base.filter (fun x => p x = true) l = l.
Proof.
  induction l as [|x l IH]; [done|]. rewrite filter_cons.
  pose proof (length_filter (fun x => p x = true) l).
  case_decide; simpl; [|lia]. intros Hlt. f_equal. apply IH. lia.
Qed.
End BoolFilter.

Lemma resolve_new `{Platform} `{NodePlatform} route key allow s :
  (route_targets route <> [] -> valid_targets (weighted_input <$> route_targets route)) ->
  exists o, resolveTarget route None key allow s = (Ok o, s) /\
    match o with
    | Some t => t ∈ route_targets route /\ serves_new allow (gt_status t) = true /\
        ((forall t', t' ∈ route_targets route -> serves_new allow (gt_status t') = true) ->
           (0 < gt_weight t)%Z)
    | None => forall t, t ∈ route_targets route -> serves_new allow (gt_status t) = false
    end.
Proof.
  intros Hv. unfold resolveTarget. set (targets := route_targets route) in *.
  set (eligible := base.filter _ targets).
  assert (Helig : forall t, t ∈ eligible <-> serves_new allow (gt_status t) = true /\ t ∈ targets)
    by (intros t; subst eligible; by rewrite list_elem_of_filter).
  case_bool_decide as Hnil; [|case_bool_decide as Hlt].
  - exists None. split; [done|]. intros t Ht. apply not_true_iff_false. intros Hs.
    assert (t ∈ eligible) as Hin by by apply Helig. rewrite Hnil in Hin.
    by apply not_elem_of_nil in Hin.
  - destruct eligible as [|t l] eqn:He; [done|]. exists (Some t). split; [done|].
    destruct (proj1 (Helig t) ltac:(left)) as [Hs Ht]. split; [done|]. split; [done|].
    intros Hall. exfalso. rewrite <- He in Hlt. subst eligible.
    rewrite (filter_all_true (fun t => serves_new allow (gt_status t))) in Hlt; [lia | done].
  - assert (Heq : eligible = targets).
    { by apply (filter_full (fun t => serves_new allow (gt_status t))). }
    rewrite Heq in *. destruct (select_target_ok targets key (rr_route route)) as (t & Hsel & Ht & Hw).
    { apply Hv. by intros ->. }
    exists (Some t). unfold lift. rewrite Hsel. split; [done|]. split; [done|].
    split; [by apply Helig | done].
Qed.

(** ** Leases *)

Definition leases_granted (calls : list gateway_call) : list string :=
  omap (fun c => match c with Granted l => Some l | _ => None end) calls.

Definition leases_released (calls : list gateway_call) : list string :=
  omap (fun c => match c with ReleaseLease l => Some l | _ => None end) calls.

(** The lease a response keeps for the end of its body. *)
Definition kept_lease (r : result gateway_response) : option string :=
  match r with Ok (Forwarded _ lease _) => lease | _ => None end.

Lemma omap_release {B} (f : gateway_call -> option B) held :
  (forall l, f (ReleaseLease l) = None) -> omap f (release_calls held) = [].
Proof. intros Hf. unfold release_calls. destruct (held_lease held); [|done]. simpl. by rewrite Hf. Qed.

Lemma released_release held :
  leases_released (release_calls held) = match held_lease held with Some l => [l] | None => [] end.
Proof. unfold release_calls. by destruct (held_lease held). Qed.

(** The number of renewals before the stream ends. *)
Fixpoint renewals (events : list stream_event) : nat :=
  match events with
  | RenewTick :: events => S (renewals events)
  | ReadChunk :: events => renewals events
  | _ => 0
  end.

Definition ends_stream (e : stream_event) : bool :=
  match e with ReadDone | ReadFailed | Cancelled => true | ReadChunk | RenewTick => false end.

Lemma managed_finalized calls events :
  foldl managed_step (mk_managed true calls) events = mk_managed true calls.
Proof. induction events as [|[] events IH]; done. Qed.

Lemma managed_calls calls events :
  mg_calls (foldl managed_step (mk_managed false calls) events)
  = calls ++ replicate (renewals events) Renewed
          ++ (if existsb ends_stream events then [Released] else []).
Proof.
  revert calls. induction events as [|[] events IH]; intros calls; simpl;
    unfold finalize; simpl; rewrite ?managed_finalized, ?IH, ?app_nil_r, <- ?app_assoc; done.
Qed.

Section LeaseFacts.
Context `{Platform} `{NodePlatform}.

(** What a life does with leases. *)
Lemma life_leases input t new r :
  request_life input t new r ->
  match leases_granted new with
  | [] => leases_released new = [] /\ kept_lease r = None
  | [l] =>
      match kept_lease r with
      | Some l' => l' = l /\ leases_released new = []
      | None =>
          leases_released new = [l] \/
          leases_released new = [] /\
          exists e up, r = Err e /\ opaque_failure (px_eveRequest input) up = Err e
      end
  | _ => False
  end.
Proof.
  intros [n e Hc|acts held port sent reports closing r' Ho Hs Hr Hen]; [done|].
  assert (Hsent : forall B (f : gateway_call -> option B),
            (forall p u m h b, f (Send p u m h b) = None) -> omap f sent = []).
  { intros B f Hf. destruct Hs as [->|(hs & body & ->)]; [done|]. simpl. by rewrite Hf. }
  assert (Hrep : forall B (f : gateway_call -> option B),
            (forall id, f (Report id) = None) -> omap f reports = []).
  { intros B f Hf. destruct Hr as [->|(id & ->)]; [done|]. simpl. by rewrite Hf. }
  assert (Hgc : leases_granted closing = [])
    by (inversion Hen; subst; try done; unfold leases_granted; by rewrite omap_release).
  unfold leases_granted, leases_released in *. rewrite !omap_app, Hgc, !Hsent, !Hrep by done.
  simpl. rewrite ?app_nil_r.
  assert (Hclose : omap (fun c => match c with ReleaseLease l => Some l | _ => None end) closing
                   = leases_released closing) by done.
  rewrite Hclose. inversion Ho; subst; simpl.
  - inversion Hen; subst; simpl; rewrite ?released_release; done.
  - inversion Hen; subst; simpl; rewrite ?released_release; eauto 6.
Qed.
End LeaseFacts.

(** ** The runtime store as an activation service *)

Section RuntimeClient.
Context `{Platform}.

(** A lease on a ready instance; a cold start is refused here. *)
Definition runtime_client (ttlMs : Z) : activation_client :=
  mk_activation_client
    (fun deploymentId kind ownerId =>
       now <- clock ;;
       a <- acquireActivationLease
              (mk_acquire_input deploymentId kind ownerId (now + ttlMs)%Z (Some now)) ;;
       let instance := act_runtimeInstance a in
       match RuntimeInstance.endpointPort instance with
       | Some port =>
           ret (mk_gateway_activation (ActivationLease.id (act_lease a))
                  (Some (RuntimeInstance.id instance)) port)
       | None => throw (Error "Deployment activation failed")
       end)
    (fun leaseId => _l <- releaseActivationLease leaseId None ;; ret tt).

#[export] Instance runtime_client_lawful ttlMs : LawfulClient (runtime_client ttlMs).
Proof.
  split.
  - intros did kind owner. simpl. unfold acquireActivationLease, upsert_lease.
    walk; try apply _; try frame_ops. apply moves_upsert; [apply _|..]; intros; frame_ops.
  - intros lease. simpl. unfold releaseActivationLease. walk; try apply _; frame_ops.
Qed.
End RuntimeClient.

(** ** Properties *)

Section Properties.
Context `{Platform} `{NodePlatform}.

(** A pinned request keeps its deployment: one that continues a session, or
    repeats a create whose operation is bound, either ends before any call, or
    lives as a request of that one deployment: nothing else is activated, and
    without an activation service it is sent to that deployment's own port. *)
Lemma pinned_request_keeps_deployment input g r g' did variant :
  keyed deployments_table (st_db (gw_store g)) ->
  routing_binding input = Some (did, variant) -> unclaimed_operation input = None ->
  executeGatewaySessionProxy input g = (r, g') ->
  exists new, gw_calls g' = gw_calls g ++ new /\
    (new = [] \/ exists t, gt_deploymentId t = did /\ request_life input t new r) /\
    (forall d kind owner, Activate d kind owner ∈ new -> d = did).
Proof.
  intros Hkey Hpin Hun Hrun.
  apply execute_life in Hrun as [(Hcalls & _)|(t & op & g1 & new & Hd & Hcalls & Hlife)].
  - exists []. rewrite app_nil_r. split; [done|]. split; [by left|].
    intros d kind owner Hin. by apply not_elem_of_nil in Hin.
  - destruct (decide_target_pinned _ _ _ _ _ _ _ Hkey Hpin Hun Hd) as (Ht & _ & _).
    exists new. split; [done|]. split; [right; by exists t|]. intros d kind owner Hin.
    rewrite <- Ht. by eapply life_activates.
Qed.

(** C14. A create runs once: whatever happens between them, as long as no binding
    is lost, two requests for one operation of a project that reach an
    activation reach the activation of one deployment, also when each chose its
    target before either had claimed the operation. *)
Theorem operation_serves_one_deployment pid key input1 input2 g1 r1 g1' g2 r2 g2' new1 new2
    d1 kind1 owner1 d2 kind2 owner2 :
  (forall c, px_activationClient input1 = Some c -> LawfulClient c) ->
  keyed deployments_table (st_db (gw_store g1)) ->
  unique_ok operation_bindings_project_key_idx (operationBindings (st_db (gw_store g1))) ->
  for_operation pid key input1 (st_db (gw_store g1)) ->
  executeGatewaySessionProxy input1 g1 = (r1, g1') -> gw_calls g1' = gw_calls g1 ++ new1 ->
  operations_kept (st_db (gw_store g1')) (st_db (gw_store g2)) ->
  keyed deployments_table (st_db (gw_store g2)) ->
  unique_ok operation_bindings_project_key_idx (operationBindings (st_db (gw_store g2))) ->
  for_operation pid key input2 (st_db (gw_store g2)) ->
  executeGatewaySessionProxy input2 g2 = (r2, g2') -> gw_calls g2' = gw_calls g2 ++ new2 ->
  Activate d1 kind1 owner1 ∈ new1 -> Activate d2 kind2 owner2 ∈ new2 -> d1 = d2.
Proof.
  intros Hlaw Hk1 Hu1 Hf1 Hrun1 Hn1 Hkept Hk2 Hu2 Hf2 Hrun2 Hn2 Ha1 Ha2.
  destruct (execute_decided _ _ _ _ _ _ _ _ Hrun1 Hn1 Ha1) as (t1 & op1 & g1d & Hd1 & ->).
  destruct (execute_decided _ _ _ _ _ _ _ _ Hrun2 Hn2 Ha2) as (t2 & op2 & g2d & Hd2 & ->).
  destruct (decide_for_operation _ _ _ _ _ _ _ Hk1 Hu1 Hf1 Hd1) as (b1 & k1 & Hb1 & Ho1 & -> & _).
  destruct (decide_for_operation _ _ _ _ _ _ _ Hk2 Hu2 Hf2 Hd2) as (b2 & k2 & Hb2 & Ho2 & -> & Hu2d).
  destruct (execute_keeps _ _ _ _ _ _ Hlaw Hd1 Hrun1 k1 b1 Hb1) as (b & Hb & Hbp & Hbk & Hbd).
  destruct (Hkept k1 b Hb) as (b' & Hb' & Hbp' & Hbk' & Hbd').
  assert (Hm := gmoves_decide input2 g2). unfold exec in Hm. rewrite Hd2 in Hm.
  destruct (Hm k1 b' Hb') as (b'' & Hb'' & Hbp'' & Hbk'' & Hbd''). simpl in Hb''.
  assert (k2 = k1) as ->.
  { eapply operation_unique; [exact Hu2d | exact Hb'' | | exact Hb2 | exact Ho2].
    eapply (operation_of_kept pid key b1); [congruence|congruence|done]. }
  congruence.
Qed.

(** C15. A lease is accounted for: a request that is granted a lease either
    releases it once before it answers or throws, or hands it to its response,
    whose body then renews it and, on its end, failure or cancellation, releases
    it exactly once and renews it no more.  The one exception is the throw of
    the observation of a failed create. *)
Theorem leases_are_accounted input g r g' events :
  executeGatewaySessionProxy input g = (r, g') ->
  (exists new, gw_calls g' = gw_calls g ++ new /\
   match leases_granted new with
   | [] => leases_released new = [] /\ kept_lease r = None
   | [l] =>
       match kept_lease r with
       | Some l' => l' = l /\ leases_released new = []
       | None =>
           leases_released new = [l] \/
           leases_released new = [] /\
           exists e up, r = Err e /\ opaque_failure (px_eveRequest input) up = Err e
       end
   | _ => False
   end) /\
  mg_calls (manage_stream events)
  = replicate (renewals events) Renewed ++ (if existsb ends_stream events then [Released] else []).
Proof.
  intros Hrun. split; [|apply (managed_calls [])].
  apply execute_life in Hrun as [(Hcalls & Hstop)|(t & op & g1 & new & Hd & Hcalls & Hlife)].
  - exists []. rewrite app_nil_r. split; [done|]. split; [done|]. destruct r as [resp|e]; [|done].
    destruct (Hstop resp eq_refl) as (g1 & Hd). by eapply decide_target_stops in Hd as (n & e & ->).
  - exists new. split; [done|]. by eapply life_leases.
Qed.

(** Unless it throws in observing a failed create: an upstream that answers
    a create with a JSON 500 whose body is [null], or breaks off, makes the
    request throw with its lease neither released nor handed on. *)
Lemma observation_failure_leaks_lease input g t op g1 c a s' body up e :
  decide_target input g = (Ok (Go (t, op)), g1) -> px_activationClient input = Some c ->
  client_activate c (gt_deploymentId t) (activationKind (px_eveRequest input))
    (px_activationOwnerId input) (gw_store g1) = (Ok a, s') ->
  px_routingBody input = Some body ->
  (forall calls, px_send input calls = Ok up) -> opaque_failure (px_eveRequest input) up = Err e ->
  exists g', executeGatewaySessionProxy input g = (Err e, g') /\
    gw_calls g' = gw_calls g ++
      [asked input t; Granted (ac_leaseId a);
       Send (ac_endpointPort a) (px_upstreamPath input) (rq_method (px_request input))
         (px_buildHeaders input (ac_endpointPort a)) body].
Proof.
  intros Hd Hc Ha Hbody Hsend Hfail. pose proof (decide_target_calls _ _ _ _ Hd) as Hcalls.
  unfold executeGatewaySessionProxy, proceed. erewrite bind_step; [|exact Hd]. cbv iota beta.
  unfold activate_target. rewrite Hc. cbv zeta. unfold bind, call, try_catch, repo. simpl.
  rewrite Ha. cbv iota beta. unfold proxied, send_upstream, bind, call, try_catch. rewrite Hbody.
  unfold lift. simpl. rewrite Hsend. simpl.
  unfold observeOpaqueSessionCreateFailure, bind, lift. rewrite Hfail. eexists.
  split; [reflexivity|]. simpl. rewrite Hcalls, <- !app_assoc. reflexivity.
Qed.

(** C16. A new request finds a target, where no alias covers a preview: on a
    route whose targets are left by any sequence of the store's writes that puts
    no alias over the route of a preview ([alias_free] at every
    [ensureAliasRoute]; the store itself does not refuse that), and name stored
    deployments, the choice never throws, whatever the affinity key, and finds a
    deployment that can serve exactly when one of the targets can, one of
    positive weight unless some target cannot serve. *)
Theorem new_request_finds_target s0 s route key allow s' :
  rtc route_step s0 s -> agentRoutes (st_db s0) = ∅ -> routeTargets (st_db s0) = ∅ ->
  keyed deployments_table (st_db s) -> targets_deployed (AgentRoute.id route) (st_db s) ->
  let resolved := resolve_route (st_db s) route in
  exists o, resolveTarget resolved None key allow s' = (Ok o, s') /\
    match o with
    | Some t => t ∈ route_targets resolved /\ serves_new allow (gt_status t) = true /\
        ((forall t', t' ∈ route_targets resolved -> serves_new allow (gt_status t') = true) ->
           (0 < gt_weight t)%Z)
    | None => forall t, t ∈ route_targets resolved -> serves_new allow (gt_status t) = false
    end.
Proof.
  intros Hsteps Hr Ht Hkey Hdep. simpl. apply resolve_new. intros Hne.
  pose proof (resolved_targets _ route Hkey Hdep) as Heq. rewrite Heq.
  apply (ro_valid _ (route_steps_ok _ _ Hsteps Hr Ht)). intros Hnil. apply Hne.
  rewrite Hnil in Heq. by apply fmap_nil_inv in Heq.
Qed.
End Properties.

(** ** Witnesses *)
Section GatewayWitnesses.
#[local] Existing Instance sample_platform.
#[local] Existing Instance sample_gateway.

Lemma unique_small {R} (u : unique_index R) (t : gmap string R) :
  bool_decide (length (map_to_list t) <= 1)%nat = true -> unique_ok u t.
Proof.
  intros Hl%bool_decide_eq_true_1 k1 k2 r1 r2 H1 H2 Hne. exfalso.
  apply elem_of_map_to_list in H1, H2.
  destruct (map_to_list t) as [|x [|y l]]; simpl in Hl; [by apply not_elem_of_nil in H1| |lia].
  apply list_elem_of_singleton in H1, H2. congruence.
Qed.

Lemma keyed_deployments d :
  bool_decide (map_Forall (fun k r => Deployment.id r = k) (deployments d)) = true ->
  keyed deployments_table d.
Proof. intros Hb k r Hk. by apply (bool_decide_eq_true_1 _ Hb). Qed.

(** Two running deployments of a supported release, each with a ready instance,
    and an alias that splits its traffic between them. *)
Definition ready_instance (id did : string) (port : Z) : RuntimeInstance.runtime_instance_row :=
  RuntimeInstance.mk id did 1 RuntimeStatus.ready (Some "127.0.0.1"%string) (Some port)
    (Some 0%Z) (Some 0%Z) None None.

Definition gateway_database : database :=
  two_database
    <| releases := {[ "rel_1"%string := Release.mk "rel_1" "p" "srev_1" "img" None
         (Some (JObj [("eveVersionResolved"%string, JStr "1.0.0-rc.6")])) "none" None None None None
         "none" false 0 ]} |>
    <| sourceRevisions := {[ "srev_1"%string :=
         SourceRevision.mk "srev_1" "p" "git" None None None None None "src" (JObj []) (JObj []) 0 ]} |>
    <| runtimeInstances := {[ "rti_a"%string := ready_instance "rti_a" "dep_1" 4101;
                              "rti_b"%string := ready_instance "rti_b" "dep_2" 4102 ]} |>.

Definition gw0 : store := sample_store gateway_database.
Definition gw1 : store := exec (ensureDeploymentRoutes "p" "dep_1" "agents.example") gw0.
Definition gw2 : store := exec (ensureAliasRoute "p" "canary" "agents.example" split_targets) gw1.

Definition alias_route : AgentRoute.agent_route_row :=
  default (AgentRoute.mk "" "" "" RouteKind.alias false 0 0 0) (agentRoutes (st_db gw2) !! "route_2"%string).

Definition gateway_start : gateway := mk_gateway gw2 [] [].

Definition create_request : request :=
  mk_request "POST" "canary--p.agents.example" "/eve/v1/session" "" "http:" [] None None false.

Definition accepted (_ : list gateway_call) : result upstream_response :=
  Ok (mk_upstream 202 [("x-eve-session-id", "wrun_1")]%string (Some [Chunk "{}"])).

Definition create_input (send : list gateway_call -> result upstream_response)
    (binding : option SessionBinding.session_binding_row) (operationKey : option string)
    (targetKey : string) : proxy_input :=
  mk_proxy_input (Some (runtime_client 1000)) send (resolve_route (st_db gw2) alias_route)
    (Some (mk_eve_request EveRequestKind.initial None)) binding None operationKey targetKey "req_1"
    (FromPlayground "req_1") create_request (Some (Some "{}"%string)) "/eve/v1/session" 1000 0
    (fun _ => []) (fun hs => hs).

Definition pinned_session : SessionBinding.session_binding_row :=
  SessionBinding.mk "bind_1" "p" "wrun_0" "route_2" "dep_2" BindingTrigger.api None None "req_0"
    None None None 0 0.

Lemma pinned_request_keeps_deployment_witness :
  let (r, g') := executeGatewaySessionProxy
                   (create_input accepted (Some pinned_session) None "k") gateway_start in
  (exists new, gw_calls g' = gw_calls gateway_start ++ new /\
     (new = [] \/ exists t, gt_deploymentId t = "dep_2"%string /\
        request_life (create_input accepted (Some pinned_session) None "k") t new r) /\
     (forall d kind owner, Activate d kind owner ∈ new -> d = "dep_2"%string)) /\
  leases_granted (gw_calls g') = ["lease_3"%string].
Proof.
  destruct (executeGatewaySessionProxy (create_input accepted (Some pinned_session) None "k")
              gateway_start) as [r g'] eqn:Hrun.
  split.
  - refine (pinned_request_keeps_deployment
              (create_input accepted (Some pinned_session) None "k") gateway_start r g' "dep_2" None
              _ _ _ Hrun); [apply keyed_deployments; by vm_compute | reflexivity..].
  - replace g' with (exec (executeGatewaySessionProxy
        (create_input accepted (Some pinned_session) None "k")) gateway_start)
      by (unfold exec; by rewrite Hrun).
    vm_compute. reflexivity.
Defined.

(** Two requests for one create, whose affinities choose different deployments;
    the second runs on what the first left, with no binding looked up. *)
Definition first_create : proxy_input := create_input accepted None (Some "op_1"%string) "a".
Definition second_create : proxy_input := create_input accepted None (Some "op_1"%string) "c".
Definition after_first : gateway := exec (executeGatewaySessionProxy first_create) gateway_start.
Definition after_second : gateway := exec (executeGatewaySessionProxy second_create) after_first.
Definition second_calls : list gateway_call := drop (length (gw_calls after_first)) (gw_calls after_second).

Lemma operation_serves_one_deployment_witness :
  (exists t op g, decide_target (create_input accepted None None "c") gateway_start
                  = (Ok (Go (t, op)), g) /\ gt_deploymentId t = "dep_2"%string) /\
  exists d1 d2 k1 k2 o1 o2, Activate d1 k1 o1 ∈ gw_calls after_first /\
    Activate d2 k2 o2 ∈ second_calls /\ d1 = d2.
Proof.
  split; [eexists _, _, _; vm_compute; split; reflexivity|].
  destruct (executeGatewaySessionProxy first_create gateway_start) as [r1 g1'] eqn:Hrun1.
  destruct (executeGatewaySessionProxy second_create after_first) as [r2 g2'] eqn:Hrun2.
  assert (Hg1 : g1' = after_first) by (unfold after_first, exec; by rewrite Hrun1).
  assert (Hg2 : g2' = after_second) by (unfold after_second, exec; by rewrite Hrun2).
  subst g1' g2'.
  assert (Ha1 : Activate "dep_1" LeaseKind.turn "req_1" ∈ gw_calls after_first)
    by (apply (list_elem_of_lookup_2 _ 0); vm_compute; reflexivity).
  assert (Ha2 : Activate "dep_1" LeaseKind.turn "req_1" ∈ second_calls)
    by (apply (list_elem_of_lookup_2 _ 0); vm_compute; reflexivity).
  exists "dep_1"%string, "dep_1"%string, LeaseKind.turn, LeaseKind.turn, "req_1"%string, "req_1"%string.
  split; [exact Ha1|]. split; [exact Ha2|].
  refine (operation_serves_one_deployment "p" "op_1" first_create second_create gateway_start r1
            after_first after_first r2 after_second (gw_calls after_first) second_calls
            _ _ _ _ _ _ _ _ _ _ Hrun1 _ _ _ _ _ Hrun2 _ Ha1 Ha2).
  - intros c Hc. injection Hc as <-. exact (runtime_client_lawful 1000).
  - apply keyed_deployments. by vm_compute.
  - apply unique_small. by vm_compute.
  - exact (conj eq_refl (conj eq_refl (conj eq_refl I))).
  - reflexivity.
  - exact (reflexivity (st_db (gw_store after_first))).
  - apply keyed_deployments. by vm_compute.
  - apply unique_small. by vm_compute.
  - exact (conj eq_refl (conj eq_refl (conj eq_refl I))).
  - vm_compute. reflexivity.
Defined.

Definition breaking_events : list stream_event :=
  [RenewTick; ReadChunk; RenewTick; ReadFailed; Cancelled; RenewTick].

Lemma leases_are_accounted_witness :
  let g' := exec (executeGatewaySessionProxy first_create) gateway_start in
  (exists new, gw_calls g' = gw_calls gateway_start ++ new /\ leases_released new = []) /\
  mg_calls (manage_stream breaking_events) = [Renewed; Renewed; Released].
Proof.
  destruct (executeGatewaySessionProxy first_create gateway_start) as [r g'] eqn:Hrun.
  destruct (leases_are_accounted first_create gateway_start r g' breaking_events Hrun)
    as ((new & Hnew & Hl) & Hm).
  assert (Hg : exec (executeGatewaySessionProxy first_create) gateway_start = g')
    by (unfold exec; by rewrite Hrun).
  rewrite Hg. split; [|rewrite Hm; reflexivity]. exists new. split; [exact Hnew|].
  assert (Hn : new = gw_calls after_first) by (unfold after_first; by rewrite Hg, Hnew).
  rewrite Hn. vm_compute. reflexivity.
Defined.

(** The deployment answers a create with status 500 and the JSON [null]. *)
Definition null_response : upstream_response :=
  mk_upstream 500 [("content-type", "application/json")]%string (Some [Chunk "null"]).

Definition failing_create : proxy_input := create_input (fun _ => Ok null_response) None None "a".

(** The request gets as far as a lease. *)
Definition reaches_lease (px : proxy_input) (c : activation_client) (g : gateway) : bool :=
  match decide_target px g with
  | (Ok (Go (t, _)), g1) =>
      match client_activate c (gt_deploymentId t) (activationKind (px_eveRequest px))
              (px_activationOwnerId px) (gw_store g1) with
      | (Ok _, _) => true
      | (Err _, _) => false
      end
  | _ => false
  end.

Lemma observation_failure_leaks_lease_witness :
  exists g' l, executeGatewaySessionProxy failing_create gateway_start
      = (Err (Error "Cannot read properties of null (reading 'errorId')"), g') /\
    leases_granted (gw_calls g') = [l] /\ leases_released (gw_calls g') = [].
Proof.
  assert (Hr : reaches_lease failing_create (runtime_client 1000) gateway_start = true)
    by (vm_compute; reflexivity).
  unfold reaches_lease in Hr.
  destruct (decide_target failing_create gateway_start) as [[[resp|[t op]]|e] g1] eqn:Hd;
    [discriminate Hr| |discriminate Hr].
  destruct (client_activate (runtime_client 1000) (gt_deploymentId t)
              (activationKind (px_eveRequest failing_create))
              (px_activationOwnerId failing_create) (gw_store g1)) as [[a|e] s'] eqn:Ha;
    [|discriminate Hr].
  destruct (observation_failure_leaks_lease failing_create gateway_start t op g1
              (runtime_client 1000) a s' (Some "{}"%string) null_response
              (Error "Cannot read properties of null (reading 'errorId')") Hd eq_refl Ha eq_refl
              (fun _ => eq_refl)) as (g' & Hrun & Hcalls); [by vm_compute|].
  exists g', (ac_leaseId a). rewrite Hcalls. exact (conj Hrun (conj eq_refl eq_refl)).
Defined.

Lemma gateway_canary_free : alias_free "p" "canary" "agents.example" (st_db gw1).
Proof.
  intros p domain r Hp Hd Hr. vm_compute in Hp, Hd. injection Hp as <-. injection Hd as <-.
  exfalso. vm_compute in Hr. discriminate.
Qed.

Lemma gateway_route_steps : rtc route_step gw0 gw2.
Proof.
  apply (rtc_l _ _ gw1); [apply step_ensureDeploymentRoutes|].
  apply (rtc_l _ _ gw2); [apply step_ensureAliasRoute, gateway_canary_free | apply rtc_refl].
Qed.

Lemma new_request_finds_target_witness :
  exists t, resolveTarget (resolve_route (st_db gw2) alias_route) None "user-1" false gw2
            = (Ok (Some t), gw2) /\ serves_new false (gt_status t) = true.
Proof.
  assert (Hdep : targets_deployed (AgentRoute.id alias_route) (st_db gw2)).
  { intros t Ht.
    assert (Hall : forallb (fun t => bool_decide
        (is_Some (deployments (st_db gw2) !! RouteTarget.deploymentId t)))
        (targets_of (AgentRoute.id alias_route) (st_db gw2)) = true) by (by vm_compute).
    rewrite forallb_forall in Hall. apply list_elem_of_In, Hall in Ht.
    exact (bool_decide_eq_true_1 _ Ht). }
  assert (Hkey : keyed deployments_table (st_db gw2)) by (apply keyed_deployments; by vm_compute).
  destruct (new_request_finds_target gw0 gw2 alias_route "user-1" false gw2 gateway_route_steps
              eq_refl eq_refl Hkey Hdep) as ([t|] & Hres & Hspec).
  - destruct Hspec as (_ & Hs & _). exists t. exact (conj Hres Hs).
  - exfalso.
    assert (Hf : match resolveTarget (resolve_route (st_db gw2) alias_route) None "user-1" false gw2
                 with (Ok None, _) => false | _ => true end = true) by (vm_compute; reflexivity).
    rewrite Hres in Hf. discriminate Hf.
Defined.
End GatewayWitnesses.
