(* ===== verification/Discovery.v ===== *)
(** * Discovery manifests

    [packages/core/src/discovery.ts]: the manifest Eve writes when a release is
    built, read into the summary the platform keeps.  Version 15 lists the entries
    by kind; version 16 lists all sources in one list and the first segment of a
    path tells the kind.  [locale_leb] is [localeCompare]; two entries that a
    manifest repeats stay in its order, as a stable sort keeps them. *)

From S2P Require Import Prelude Strings.

Open Scope eve_scope.
Open Scope string_scope.

Class Locale := { locale_leb : string -> string -> bool }.

(** ** Entries *)

(** [{ logicalPath: string; subagentId?: unknown }], the identifier when it is a
    string. *)
Record entry : Type := mk_entry { en_logicalPath : string; en_subagentId : option string }.

Definition isRecord (j : json) : bool := match j with JObj _ => true | _ => false end.

(** [isEntry], with what is read of the entry. *)
Definition entry_of (j : json) : option entry :=
  p ← json_string (json_get "logicalPath" j);
  Some (mk_entry p (json_string (json_get "subagentId" j))).

(** [Array.isArray(value) && value.every(isEntry)] *)
Definition entries_of (j : option json) : option (list entry) :=
  match j with Some (JArr l) => mapM entry_of l | _ => None end.

(** ** Slots *)

(** [SourceKind] *)
Inductive source_kind :=
  | Instructions | Tools | Skills | Connections | Schedules | Hooks | Channels.
#[export] Instance source_kind_eq_dec : EqDecision source_kind.
Proof. solve_decision. Defined.

Inductive slot := SlotKind (kind : source_kind) | SlotSandbox | SlotMemory.
#[export] Instance slot_eq_dec : EqDecision slot.
Proof. solve_decision. Defined.

(** [SOURCE_KINDS], by the key each has in a manifest. *)
Definition SOURCE_KINDS : list (source_kind * string) :=
  [(Instructions, "instructions"); (Tools, "tools"); (Skills, "skills"); (Connections, "connections");
   (Schedules, "schedules"); (Hooks, "hooks"); (Channels, "channels")].

Definition SOURCE_KIND_BY_SLOT_ROOT : list (string * slot) :=
  [("channels", SlotKind Channels); ("connections", SlotKind Connections); ("hooks", SlotKind Hooks);
   ("instructions", SlotKind Instructions); ("memory", SlotMemory); ("sandbox", SlotSandbox);
   ("schedules", SlotKind Schedules); ("skills", SlotKind Skills); ("system", SlotKind Instructions);
   ("tools", SlotKind Tools)].

(** The text before the first [c], all of it when there is none. *)
Definition before (c : Ascii.ascii) (s : string) : string := default "" (head (split_at c s)).

Definition dot : Ascii.ascii := Ascii.ascii_of_nat 46.

Definition slotOf (logicalPath : string) : option slot :=
  let root := before dot (before slash logicalPath) in
  snd <$> List.find (fun kv => bool_decide (kv.1 = root)) SOURCE_KIND_BY_SLOT_ROOT.

(** ** The entities of a manifest *)

(** [EntityLists] *)
Record entity_lists : Type := mk_lists {
  el_of : source_kind -> list entry;
  el_sandbox : option entry
}.

Definition no_entities : entity_lists := mk_lists (fun _ => []) None.

(** [lists[slot].push(source)] *)
Definition push_entry (kind : source_kind) (e : entry) (lists : entity_lists) : entity_lists :=
  mk_lists (fun k => if decide (k = kind) then (el_of lists k ++ [e])%list else el_of lists k)
    (el_sandbox lists).

(** One turn of the loop over the sources. *)
Definition place_source (lists : option entity_lists) (e : entry) : option entity_lists :=
  lists ← lists;
  match slotOf (en_logicalPath e) with
  | None => None
  | Some SlotMemory => Some lists
  | Some SlotSandbox =>
      match el_sandbox lists with
      | Some _ => None
      | None => Some (mk_lists (el_of lists) (Some e))
      end
  | Some (SlotKind kind) => Some (push_entry kind e lists)
  end.

Definition place_sources (sources : list entry) (lists : option entity_lists) : option entity_lists :=
  fold_left place_source sources lists.

(** [manifest.sandbox]: null or an entry. *)
Definition sandbox_of (j : option json) : option (option entry) :=
  match j with Some JNull => Some None | Some j => Some <$> entry_of j | None => None end.

Definition listed_entities (manifest : json) : option entity_lists :=
  instructions ← entries_of (json_get "instructions" manifest);
  tools ← entries_of (json_get "tools" manifest);
  skills ← entries_of (json_get "skills" manifest);
  connections ← entries_of (json_get "connections" manifest);
  schedules ← entries_of (json_get "schedules" manifest);
  hooks ← entries_of (json_get "hooks" manifest);
  channels ← entries_of (json_get "channels" manifest);
  sandbox ← sandbox_of (json_get "sandbox" manifest);
  Some (mk_lists (fun kind =>
    match kind with
    | Instructions => instructions | Tools => tools | Skills => skills | Connections => connections
    | Schedules => schedules | Hooks => hooks | Channels => channels
    end) sandbox).

Definition SOURCES_LIST_VERSION : Z := 16.

Definition readEntityLists (manifest : json) (version : Z) : option entity_lists :=
  if (SOURCES_LIST_VERSION <=? version)%Z then
    sources ← entries_of (json_get "sources" manifest);
    place_sources sources (Some no_entities)
  else listed_entities manifest.

(** ** Extensions *)

(** [ExtensionManifestProjection]: its schedules are read by its version. *)
Record extension_manifest : Type := mk_extension {
  xm_schedules : list entry; xm_subagents : list entry
}.

(** [ResolvedExtensionProjection] *)
Record extension_mount : Type := mk_mount {
  mt_namespace : string; mt_manifest : extension_manifest; mt_overrides : option extension_manifest
}.

Definition ends_with (suffix s : string) : bool :=
  bool_decide (slice_from (String.length s - String.length suffix) s = suffix).

(** [/\.(?:md|[cm]?[jt]s)$/] *)
Definition schedule_suffixes : list string := [".cjs"; ".mjs"; ".cts"; ".mts"; ".md"; ".js"; ".ts"].

Definition schedule_suffix (s : string) : option string :=
  List.find (fun suffix => ends_with suffix s) schedule_suffixes.

Definition isSupportedExtensionScheduleEntry (e : entry) : bool :=
  match strip_prefix "schedules/" (replaceAll backslash slash (en_logicalPath e)) with
  | None => false
  | Some relative =>
      negb (bool_decide (relative = ""))
      && forallb (fun segment => negb (bool_decide (segment ∈ [""; "."; ".."]))) (split_at slash relative)
      && bool_decide (is_Some (schedule_suffix relative))
  end.

Definition in_schedules (e : entry) : bool := bool_decide (slotOf (en_logicalPath e) = Some (SlotKind Schedules)).

(** [extensionSchedules] of a manifest that [isExtensionManifest] accepts. *)
Definition extension_schedules (version : Z) (value : json) : option (list entry) :=
  schedules ← (if (SOURCES_LIST_VERSION <=? version)%Z
               then base.filter in_schedules <$> entries_of (json_get "sources" value)
               else entries_of (json_get "schedules" value));
  if forallb isSupportedExtensionScheduleEntry schedules then Some schedules else None.

(** [isExtensionManifest], with what is read of it. *)
Definition extension_manifest_of (version : Z) (value : json) : option extension_manifest :=
  _root ← json_string (json_get "agentRoot" value);
  subagents ← entries_of (json_get "subagents" value);
  schedules ← extension_schedules version value;
  Some (mk_extension schedules subagents).

(** [isResolvedExtensionMount], with what is read of it. *)
Definition mount_of (version : Z) (value : json) : option extension_mount :=
  namespace ← truthy (json_string (json_get "namespace" value));
  manifest ← (json_get "manifest" value ≫= extension_manifest_of version);
  match json_get "overrides" value with
  | None => Some (mk_mount namespace manifest None)
  | Some overrides =>
      overrides ← extension_manifest_of version overrides;
      Some (mk_mount namespace manifest (Some overrides))
  end.

Definition mounts_of (version : Z) (j : option json) : option (list extension_mount) :=
  match j with Some (JArr l) => mapM (mount_of version) l | _ => None end.

(** The loop of [mergeNamedEntries], from the names seen. *)
Fixpoint merge_entries (name : entry -> string) (names : list string) (entries : list entry) : list entry :=
  match entries with
  | [] => []
  | e :: entries =>
      if bool_decide (name e ∈ names) then merge_entries name names entries
      else e :: merge_entries name (name e :: names) entries
  end.

Definition mergeNamedEntries (primary secondary : list entry) (name : entry -> string) : list entry :=
  merge_entries name [] (primary ++ secondary)%list.

Definition scheduleName (e : entry) : string :=
  let relative := default (en_logicalPath e) (strip_prefix "schedules/" (en_logicalPath e)) in
  match schedule_suffix relative with
  | Some suffix => String.substring 0 (String.length relative - String.length suffix) relative
  | None => relative
  end.

Definition subagent_name (e : entry) : string := default (en_logicalPath e) (en_subagentId e).

Definition mount_path (root namespace : string) (e : entry) : string :=
  root +:+ "extensions/" +:+ namespace +:+ "/" +:+ en_logicalPath e.

Definition mount_schedules (root : string) (mount : extension_mount) : list string :=
  mount_path root (mt_namespace mount) <$>
    mergeNamedEntries (from_option xm_schedules [] (mt_overrides mount))
      (xm_schedules (mt_manifest mount)) scheduleName.

(** The identifier and the path of a mount's subagents. *)
Definition mount_subagents (root : string) (mount : extension_mount) : list (string * string) :=
  omap (fun e => id ← en_subagentId e;
                 Some (mt_namespace mount +:+ "__" +:+ id, mount_path root (mt_namespace mount) e))
    (mergeNamedEntries (from_option xm_subagents [] (mt_overrides mount))
       (xm_subagents (mt_manifest mount)) subagent_name).

Definition readExtensionContributions `{Locale} (mounts : list extension_mount) (root : string)
    : list string * list (string * string) :=
  let mounts := order_by (fun a b => locale_leb (mt_namespace a) (mt_namespace b)) mounts in
  (mounts ≫= mount_schedules root, mounts ≫= mount_subagents root).

(** ** The projection *)

(** [EveProjectLayout], as far as a manifest tells it. *)
Inductive layout := Nested | Flat.
#[export] Instance layout_eq_dec : EqDecision layout.
Proof. solve_decision. Defined.

(** [DiscoverySummaryProjection] *)
Record summary_projection : Type := mk_projection {
  pr_manifestVersion : Z; pr_agentId : option string; pr_layout : layout;
  pr_diagnostics : option (jsnum * jsnum);
  pr_instructions : list string; pr_tools : list string; pr_skills : list string;
  pr_subagents : list string; pr_connections : list string; pr_schedules : list string;
  pr_sandbox : list string; pr_hooks : list string; pr_channels : list string;
  pr_subagentIds : list string
}.
#[export] Instance eta_projection : Eta summary_projection := fun p =>
  mk_projection (pr_manifestVersion p) (pr_agentId p) (pr_layout p) (pr_diagnostics p)
    (pr_instructions p) (pr_tools p) (pr_skills p) (pr_subagents p) (pr_connections p) (pr_schedules p)
    (pr_sandbox p) (pr_hooks p) (pr_channels p) (pr_subagentIds p).

Definition MANIFEST_KIND : string := "eve-agent-discovery-manifest".
Definition SUPPORTED_DISCOVERY_MANIFEST_VERSIONS : list Z := [15; 16]%Z.

(** The version of a manifest, when it is one of the supported ones. *)
Definition manifest_version (manifest : json) : option Z :=
  match json_get "version" manifest with
  | Some (JNum n) =>
      List.find (fun v => bool_decide (json_number v = n)) SUPPORTED_DISCOVERY_MANIFEST_VERSIONS
  | _ => None
  end.

Definition readDiagnostics (value : option json) : option (jsnum * jsnum) :=
  match value ≫= json_get "errors", value ≫= json_get "warnings" with
  | Some (JNum errors), Some (JNum warnings) => Some (errors, warnings)
  | _, _ => None
  end.

Definition logicalPaths (entries : list entry) : list string := en_logicalPath <$> entries.

(** What a recognised manifest becomes. *)
Definition project_entities `{Locale} (manifest : json) (version : Z) (agentRoot appRoot : string)
    (lists : entity_lists) (subagents : list entry) (mounts : list extension_mount) : summary_projection :=
  let layout := if bool_decide (agentRoot = appRoot) then Flat else Nested in
  let root := match layout with Nested => "agent/" | Flat => "" end in
  let prefix (entries : list entry) : list string := String.append root <$> logicalPaths entries in
  let contributions := readExtensionContributions mounts root in
  mk_projection version (json_string (json_get "agentId" manifest)) layout
    (readDiagnostics (json_get "diagnosticsSummary" manifest))
    (prefix (el_of lists Instructions)) (prefix (el_of lists Tools)) (prefix (el_of lists Skills))
    (prefix subagents ++ (snd <$> contributions.2))
    (prefix (el_of lists Connections))
    (prefix (el_of lists Schedules) ++ contributions.1)
    (prefix (option_list (el_sandbox lists)))
    (prefix (el_of lists Hooks)) (prefix (el_of lists Channels))
    (omap en_subagentId subagents ++ (fst <$> contributions.2)).

Definition projectDiscoveryManifest `{Locale} (manifest : json) : option summary_projection :=
  if bool_decide (json_string (json_get "kind" manifest) = Some MANIFEST_KIND) then
    version ← manifest_version manifest;
    lists ← readEntityLists manifest version;
    subagents ← entries_of (json_get "subagents" manifest);
    _extensions ← entries_of (json_get "extensions" manifest);
    mounts ← mounts_of version (json_get "resolvedExtensions" manifest);
    agentRoot ← truthy (json_string (json_get "agentRoot" manifest));
    appRoot ← truthy (json_string (json_get "appRoot" manifest));
    Some (project_entities manifest version agentRoot appRoot lists subagents mounts)
  else None.

(** ** The two versions tell the same *)

Open Scope list_scope.

Definition json_set (key : string) (v : json) (j : json) : json :=
  match j with JObj fields => JObj ((key, v) :: fields) | _ => j end.

Definition section (key : string) (j : json) : list json :=
  match json_get key j with Some (JArr l) => l | _ => [] end.

(** An extension and a manifest of version 15 as Eve writes them from version 16
    on: the sources of every kind in one list. *)
Definition to_v16_extension (value : json) : json :=
  json_set "sources" (JArr (section "schedules" value)) value.

Definition upgrade (key : string) (f : json -> json) (j : json) : json :=
  match json_get key j with Some v => json_set key (f v) j | None => j end.

Definition to_v16_mount (mount : json) : json :=
  upgrade "overrides" to_v16_extension (upgrade "manifest" to_v16_extension mount).

Definition sandbox_sources (manifest : json) : list json :=
  match json_get "sandbox" manifest with Some JNull | None => [] | Some j => [j] end.

Definition to_v16 (manifest : json) : json :=
  json_set "version" (JNum (json_number 16))
    (json_set "sources"
       (JArr (section "channels" manifest ++ section "connections" manifest ++ section "hooks" manifest
              ++ sandbox_sources manifest ++ section "tools" manifest ++ section "instructions" manifest
              ++ section "schedules" manifest ++ section "skills" manifest))
       (json_set "resolvedExtensions" (JArr (to_v16_mount <$> section "resolvedExtensions" manifest))
          manifest)).

(** Paths that name the kind they are listed under. *)
Definition placed_in (s : slot) (l : list json) : Prop :=
  forall j e, j ∈ l -> entry_of j = Some e -> slotOf (en_logicalPath e) = Some s.

Definition placed_extension (value : option json) : Prop :=
  forall v, value = Some v -> placed_in (SlotKind Schedules) (section "schedules" v).

Definition well_placed (manifest : json) : Prop :=
  (forall kind key, (kind, key) ∈ SOURCE_KINDS -> placed_in (SlotKind kind) (section key manifest)) /\
  placed_in SlotSandbox (sandbox_sources manifest) /\
  forall mount, mount ∈ section "resolvedExtensions" manifest ->
    placed_extension (json_get "manifest" mount) /\ placed_extension (json_get "overrides" mount).

Lemma get_set_same key v j : isRecord j = true -> json_get key (json_set key v j) = Some v.
Proof. destruct j; try done. intros _. simpl. by rewrite decide_True. Qed.

Lemma record_set key v j : isRecord (json_set key v j) = isRecord j.
Proof. by destruct j. Qed.

Lemma get_set_other key key' v j : key <> key' -> json_get key (json_set key' v j) = json_get key j.
Proof. intros Hne. destruct j; try done. simpl. rewrite decide_False; auto. Qed.

#[local] Opaque json_set.

Lemma entries_section key j l :
  entries_of (json_get key j) = Some l -> json_get key j = Some (JArr (section key j)) /\ mapM entry_of (section key j) = Some l.
Proof. unfold section. by destruct (json_get key j) as [[]|]. Qed.

Lemma get_some_record key j v : json_get key j = Some v -> isRecord j = true.
Proof. by destruct j. Qed.

(** *** The sources of a slot *)

Lemma placed_entries s l es : placed_in s l -> mapM entry_of l = Some es -> Forall (fun e => slotOf (en_logicalPath e) = Some s) es.
Proof.
  intros Hp Hes. apply mapM_Some in Hes. apply Forall_forall. intros e [i Hi]%list_elem_of_lookup.
  destruct (Forall2_lookup_r _ _ _ _ _ Hes Hi) as (j & Hj & He). eapply Hp; [|exact He]. by eapply list_elem_of_lookup_2.
Qed.

Lemma place_kind kind es lists :
  Forall (fun e => slotOf (en_logicalPath e) = Some (SlotKind kind)) es ->
  exists lists', place_sources es (Some lists) = Some lists' /\ el_sandbox lists' = el_sandbox lists /\
    forall k, el_of lists' k = if decide (k = kind) then el_of lists k ++ es else el_of lists k.
Proof.
  intros Hes. revert lists. induction Hes as [|e es He _ IH]; intros lists; simpl.
  { exists lists. split; [done|]. split; [done|]. intros k. destruct (decide _); by rewrite ?app_nil_r. }
  rewrite He. destruct (IH (push_entry kind e lists)) as (lists' & Hl & Hs & Hk). exists lists'.
  split; [exact Hl|]. split; [exact Hs|]. intros k. rewrite Hk. simpl. destruct (decide _); [|done].
  by rewrite <- app_assoc.
Qed.

Lemma place_sandbox e lists :
  slotOf (en_logicalPath e) = Some SlotSandbox -> el_sandbox lists = None ->
  place_sources [e] (Some lists) = Some (mk_lists (el_of lists) (Some e)).
Proof. intros He Hl. simpl. by rewrite He, Hl. Qed.

Lemma place_app es fs lists : place_sources (es ++ fs) lists = place_sources fs (place_sources es lists).
Proof. apply fold_left_app. Qed.

Lemma mapM_app_some {A B} (f : A -> option B) l1 l2 r1 r2 :
  mapM f l1 = Some r1 -> mapM f l2 = Some r2 -> mapM f (l1 ++ l2) = Some (r1 ++ r2).
Proof. rewrite !mapM_Some. apply Forall2_app. Qed.

(** *** Mounts *)

Lemma filter_placed es : Forall (fun e => slotOf (en_logicalPath e) = Some (SlotKind Schedules)) es ->
  base.filter in_schedules es = es.
Proof.
  induction 1 as [|e es He _ IH]; [done|]. rewrite filter_cons_True, IH; [done|].
  unfold in_schedules. by rewrite He.
Qed.

Lemma extension_upgraded v x : extension_manifest_of 15 v = Some x -> placed_in (SlotKind Schedules) (section "schedules" v) ->
  extension_manifest_of 16 (to_v16_extension v) = Some x.
Proof.
  unfold extension_manifest_of, to_v16_extension. intros Hx Hp. simplify_option_eq.
  rename select (json_string _ = _) into Hroot. rename select (entries_of _ = _) into Hsub.
  rename select (extension_schedules _ _ = _) into Hsch. unfold extension_schedules in Hsch. simpl in Hsch.
  destruct (entries_of (json_get "schedules" v)) as [es|] eqn:Hes; [|done]. simpl in Hsch.
  apply entries_section in Hes as [Hget Hes]. pose proof (get_some_record _ _ _ Hget) as Hrec.
  rewrite !get_set_other by done. rewrite Hroot, Hsub. cbn [mbind option_bind].
  unfold extension_schedules. change (SOURCES_LIST_VERSION <=? 16)%Z with true. cbv iota. rewrite get_set_same by done. unfold entries_of. rewrite Hes.
  cbn [fmap option_fmap option_map mbind option_bind]. rewrite filter_placed by by eapply placed_entries.
  by rewrite Hsch.
Qed.

Lemma get_upgrade_other key key' f j : key <> key' -> json_get key (upgrade key' f j) = json_get key j.
Proof. intros Hne. unfold upgrade. destruct (json_get key' j); [by apply get_set_other|done]. Qed.

Lemma get_upgrade key f j : json_get key (upgrade key f j) = f <$> json_get key j.
Proof.
  unfold upgrade. destruct (json_get key j) as [v|] eqn:Hv; simpl; [|done].
  apply get_set_same. by eapply get_some_record.
Qed.

Lemma mount_upgraded m x : mount_of 15 m = Some x ->
  placed_extension (json_get "manifest" m) -> placed_extension (json_get "overrides" m) ->
  mount_of 16 (to_v16_mount m) = Some x.
Proof.
  unfold mount_of, to_v16_mount. intros Hx Hm Ho.
  rewrite (get_upgrade_other "namespace"), (get_upgrade_other "namespace") by done.
  rewrite (get_upgrade_other "manifest") by done. rewrite !get_upgrade, (get_upgrade_other "overrides") by done.
  destruct (truthy _) as [namespace|]; [|done]. simpl in *.
  destruct (json_get "manifest" m) as [v|]; [|done]. simpl in *.
  destruct (extension_manifest_of 15 v) as [xm|] eqn:Hv; [|done].
  rewrite (extension_upgraded _ _ Hv (Hm _ eq_refl)). simpl in *.
  destruct (json_get "overrides" m) as [o|]; [|done]. simpl.
  destruct (extension_manifest_of 15 o) as [xo|] eqn:Hxo; [|done].
  by rewrite (extension_upgraded _ _ Hxo (Ho _ eq_refl)).
Qed.

Lemma mounts_upgraded m xs : mounts_of 15 (json_get "resolvedExtensions" m) = Some xs -> well_placed m ->
  mounts_of 16 (Some (JArr (to_v16_mount <$> section "resolvedExtensions" m))) = Some xs.
Proof.
  intros Hxs (_ & _ & Hm). unfold section in *. destruct (json_get "resolvedExtensions" m) as [[]|]; try done.
  simpl in *. revert xs Hxs. induction l as [|j l IH]; intros xs Hxs; [done|]. simpl in *.
  destruct (mount_of 15 j) as [x|] eqn:Hj; [|done]. simpl in Hxs.
  destruct (mapM _ l) as [xs'|] eqn:Hl; [|done]. simpl in Hxs. injection Hxs as <-.
  destruct (Hm j) as [H1 H2]; [by left|]. rewrite (mount_upgraded _ _ Hj H1 H2). simpl.
  change (list_fmap json json to_v16_mount l) with (to_v16_mount <$> l).
  by rewrite (IH ltac:(intros; apply Hm; by right) xs' eq_refl).
Qed.

(** *** The entities *)

Ltac source_kind := apply list_elem_of_In; simpl; tauto.


Lemma same_entities m lists : listed_entities m = Some lists -> well_placed m ->
  exists sources lists', entries_of (json_get "sources" (to_v16 m)) = Some sources /\
    place_sources sources (Some no_entities) = Some lists' /\ el_sandbox lists' = el_sandbox lists /\
    forall k, el_of lists' k = el_of lists k.
Proof.
  intros Hl (Hp & Hs & _). unfold listed_entities in Hl.
  destruct (entries_of (json_get "instructions" m)) as [l1|] eqn:H1; [|done].
  destruct (entries_of (json_get "tools" m)) as [l2|] eqn:H2; [|done].
  destruct (entries_of (json_get "skills" m)) as [l3|] eqn:H3; [|done].
  destruct (entries_of (json_get "connections" m)) as [l4|] eqn:H4; [|done].
  destruct (entries_of (json_get "schedules" m)) as [l5|] eqn:H5; [|done].
  destruct (entries_of (json_get "hooks" m)) as [l6|] eqn:H6; [|done].
  destruct (entries_of (json_get "channels" m)) as [l7|] eqn:H7; [|done].
  destruct (sandbox_of (json_get "sandbox" m)) as [sandbox|] eqn:H8; [|done].
  cbn [mbind option_bind] in Hl. injection Hl as <-.
  apply entries_section in H1 as [Hget H1]. pose proof (get_some_record _ _ _ Hget) as Hrec.
  apply entries_section in H2 as [_ H2], H3 as [_ H3], H4 as [_ H4], H5 as [_ H5], H6 as [_ H6], H7 as [_ H7].
  assert (Hbox : mapM entry_of (sandbox_sources m) = Some (option_list sandbox)).
  { unfold sandbox_of, sandbox_sources in *. destruct (json_get "sandbox" m) as [j|]; [|done].
    assert (Hone : (Some <$> entry_of j) = Some sandbox -> mapM entry_of [j] = Some (option_list sandbox)).
    { simpl. destruct (entry_of j); [|done]. by intros [= <-]. }
    destruct j; [by injection H8 as <-|by apply Hone..]. }
  exists (l7 ++ l4 ++ l6 ++ option_list sandbox ++ l2 ++ l1 ++ l5 ++ l3).
  assert (Hsources : mapM entry_of (section "channels" m ++ section "connections" m ++ section "hooks" m
    ++ sandbox_sources m ++ section "tools" m ++ section "instructions" m
    ++ section "schedules" m ++ section "skills" m) = Some (l7 ++ l4 ++ l6 ++ option_list sandbox ++ l2 ++ l1 ++ l5 ++ l3))
    by repeat (apply mapM_app_some; [done|]; try done).
  assert (Hget16 : json_get "sources" (to_v16 m) = Some (JArr (section "channels" m ++ section "connections" m ++ section "hooks" m
    ++ sandbox_sources m ++ section "tools" m ++ section "instructions" m
    ++ section "schedules" m ++ section "skills" m))).
  { unfold to_v16. rewrite get_set_other by done. apply get_set_same. by rewrite record_set. }
  rewrite Hget16. unfold entries_of. rewrite Hsources.
  assert (Hk : forall kind key l lists, (kind, key) ∈ SOURCE_KINDS -> mapM entry_of (section key m) = Some l ->
    exists lists', place_sources l (Some lists) = Some lists' /\ el_sandbox lists' = el_sandbox lists /\
    forall k, el_of lists' k = if decide (k = kind) then el_of lists k ++ l else el_of lists k).
  { intros kind key l lists Hkey Hm. apply place_kind. eapply placed_entries; [|exact Hm]. by apply Hp. }
  rewrite !place_app.
  destruct (Hk Channels "channels" l7 no_entities ltac:(source_kind) H7) as (e7 & -> & B7 & E7).
  destruct (Hk Connections "connections" l4 e7 ltac:(source_kind) H4) as (e4 & -> & B4 & E4).
  destruct (Hk Hooks "hooks" l6 e4 ltac:(source_kind) H6) as (e6 & -> & B6 & E6).
  assert (exists e8, place_sources (option_list sandbox) (Some e6) = Some e8 /\ el_sandbox e8 = sandbox /\
    forall k, el_of e8 k = el_of e6 k) as (e8 & -> & B8 & E8).
  { destruct sandbox as [e|]; simpl option_list; [|exists e6; by rewrite B6, B4, B7].
    rewrite place_sandbox; [by eexists| |by rewrite B6, B4, B7].
    pose proof (placed_entries _ _ _ Hs Hbox) as Hall. by inversion Hall. }
  destruct (Hk Tools "tools" l2 e8 ltac:(source_kind) H2) as (e2 & -> & B2 & E2).
  destruct (Hk Instructions "instructions" l1 e2 ltac:(source_kind) H1) as (e1 & -> & B1 & E1).
  destruct (Hk Schedules "schedules" l5 e1 ltac:(source_kind) H5) as (e5 & -> & B5 & E5).
  destruct (Hk Skills "skills" l3 e5 ltac:(source_kind) H3) as (e3 & -> & B3 & E3).
  exists e3. split; [done|]. split; [done|]. split; [by rewrite B3, B5, B1, B2, B8|].
  intros k. rewrite E3, E5, E1, E2, E8, E6, E4, E7. by destruct k.
Qed.

(** C33. A manifest of version 15 that is recognised, whose paths name the kind they
    are listed under, reads the same when its sources are written in the one list
    of version 16: the same summary but for the version it reports. *)
Theorem to_v16_projects_alike `{Locale} m p :
  projectDiscoveryManifest m = Some p -> pr_manifestVersion p = 15%Z -> well_placed m ->
  projectDiscoveryManifest (to_v16 m) = Some (p <| pr_manifestVersion := 16%Z |>).
Proof.
  intros Hp Hv Hm. unfold projectDiscoveryManifest in *.
  assert (Hget : forall key, key <> "version" -> key <> "sources" -> key <> "resolvedExtensions" ->
    json_get key (to_v16 m) = json_get key m) by (intros; unfold to_v16; by rewrite !get_set_other).
  rewrite (Hget "kind") by done. destruct (bool_decide _); [|done].
  destruct (manifest_version m) as [version|] eqn:Hversion; [|done].
  assert (Hrec : isRecord m = true).
  { unfold manifest_version in Hversion. destruct (json_get "version" m) eqn:Hg; [|done]. by eapply get_some_record. }
  assert (Hversion' : manifest_version (to_v16 m) = Some 16%Z).
  { unfold manifest_version, to_v16. by rewrite get_set_same by by rewrite !record_set. }
  rewrite Hversion'. cbn [mbind option_bind] in *.
  destruct (readEntityLists m version) as [lists|] eqn:Hlists; [|done]. cbn [mbind option_bind] in *.
  rewrite (Hget "subagents"), (Hget "extensions"), (Hget "agentRoot"), (Hget "appRoot") by done.
  destruct (entries_of (json_get "subagents" m)) as [subagents|]; [|done].
  destruct (entries_of (json_get "extensions" m)) as [extensions|]; [|done]. cbn [mbind option_bind] in *.
  destruct (mounts_of version _) as [mounts|] eqn:Hmounts; [|done].
  destruct (truthy (json_string (json_get "agentRoot" m))) as [agentRoot|]; [|done].
  destruct (truthy (json_string (json_get "appRoot" m))) as [appRoot|]; [|done]. cbn [mbind option_bind] in *.
  injection Hp as <-. simpl in Hv. subst version.
  destruct (same_entities m lists Hlists Hm) as (sources & lists' & Hsources & Hplace & Hbox & Hof).
  unfold readEntityLists. change (SOURCES_LIST_VERSION <=? 16)%Z with true. cbv iota. rewrite Hsources. cbn [mbind option_bind]. rewrite Hplace.
  assert (json_get "resolvedExtensions" (to_v16 m) = Some (JArr (to_v16_mount <$> section "resolvedExtensions" m))) as ->.
  { unfold to_v16. rewrite !get_set_other by done. by apply get_set_same. }
  rewrite (mounts_upgraded _ _ Hmounts Hm). cbn [mbind option_bind]. f_equal.
  unfold project_entities. rewrite (Hget "agentId"), (Hget "diagnosticsSummary"), Hbox, !Hof by done. reflexivity.
Qed.

(** *** A nested agent with an extension that overrides a schedule *)

Definition sample_locale : Locale := {| locale_leb := fun a b => String.leb a b |}.

Definition path_entry (path : string) : json := JObj [("logicalPath", JStr path)].

Definition extension_json (paths : list string) : json :=
  JObj [("agentRoot", JStr "/ext"); ("subagents", JArr []); ("schedules", JArr (path_entry <$> paths))].

Definition sample_manifest : json :=
  JObj [("kind", JStr MANIFEST_KIND); ("version", JNum (json_number 15)); ("agentId", JStr "fixture");
        ("agentRoot", JStr "/srv/app/agent"); ("appRoot", JStr "/srv/app");
        ("instructions", JArr [path_entry "instructions.md"]); ("tools", JArr [path_entry "tools/weather.ts"]);
        ("skills", JArr []); ("connections", JArr []); ("schedules", JArr []); ("hooks", JArr []);
        ("channels", JArr []); ("sandbox", path_entry "sandbox.ts");
        ("subagents", JArr []); ("extensions", JArr []);
        ("resolvedExtensions",
           JArr [JObj [("namespace", JStr "crm"); ("manifest", extension_json ["schedules/sync.md"; "schedules/gc.ts"]);
                       ("overrides", extension_json ["schedules/sync.ts"])]])].

Definition sample_projection : summary_projection :=
  mk_projection 15 (Some "fixture") Nested None ["agent/instructions.md"] ["agent/tools/weather.ts"] [] [] []
    ["agent/extensions/crm/schedules/sync.ts"; "agent/extensions/crm/schedules/gc.ts"] ["agent/sandbox.ts"] [] [] [].

Ltac placed_entry :=
  intros j e Hj He; apply list_elem_of_In in Hj; vm_compute in Hj;
  repeat (destruct Hj as [<-|Hj]; [vm_compute in He; injection He as <-; reflexivity|]); contradiction.

Lemma to_v16_projects_alike_witness :
  @projectDiscoveryManifest sample_locale (to_v16 sample_manifest)
  = Some (sample_projection <| pr_manifestVersion := 16%Z |>).
Proof.
  apply (@to_v16_projects_alike sample_locale sample_manifest sample_projection);
    [vm_compute; reflexivity|reflexivity|].
  split; [|split].
  - intros kind key Hkey. apply list_elem_of_In in Hkey.
    repeat (destruct Hkey as [Hkey|Hkey]; [injection Hkey as <- <-; placed_entry|]). contradiction.
  - placed_entry.
  - intros mount Hm. apply list_elem_of_In in Hm. destruct Hm as [<-|[]].
    split; intros v Hv; injection Hv as <-; placed_entry.
Defined.
