(* ===== verification/Dispatcher.v ===== *)
(** * The workflow dispatcher

    [packages/core/src/workflow-dispatch.ts]: whether the external dispatcher can
    be proven to be claiming, the budgets of requests, the storage generations the
    platform admits; and [apps/worker/src/runtime/workflow-world.ts]: the
    attestation of the workflow world a build injects. *)

From stdpp Require Import pretty.
From S2P Require Import Prelude Strings Encoding Schema Deployments EveVersion.

Open Scope eve_scope.
Open Scope string_scope.

Definition WORKFLOW_UNAVAILABLE : string := "workflow_unavailable".
Definition WORKFLOW_MIGRATION_REQUIRED : string := "workflow_migration_required".
Definition WORKFLOW_DISPATCHER_HEARTBEAT_TTL_MS : Z := 60000.

(** ** Numbers in text *)

(** [Number.parseInt(text, 10)], [None] for [NaN]; a number of more than 308
    digits, which is infinite there, stays one here. *)
Definition parse_int (text : string) : option Z :=
  let s := trim_start text in
  let (negative, s) :=
    match s with
    | String c rest =>
        if ascii_is 45 c then (true, rest) else if ascii_is 43 c then (false, rest) else (false, s)
    | "" => (false, s)
    end in
  match take_digits s with
  | None => None
  | Some (digits, _) =>
      let n := Z.of_N (digits_value 0 digits) in Some (if negative : bool then - n else n)%Z
  end.

Definition positiveOr (value : option string) (fallback : Z) : Z :=
  match parse_int (default "" value) with
  | Some parsed => if (0 <? parsed)%Z then parsed else fallback
  | None => fallback
  end.

(** The variable is [EVELAND_WORKFLOW_DISPATCHER_HEARTBEAT_TTL_MS]. *)
Definition resolveDispatcherHeartbeatTtlMs (value : option string) : Z :=
  positiveOr value WORKFLOW_DISPATCHER_HEARTBEAT_TTL_MS.

Record request_budget : Type := mk_budget {
  bu_coldStartMs : Z; bu_upstreamMs : Z; bu_marginMs : Z; bu_totalMs : Z
}.

Definition resolveCanonicalRequestBudget (env : gmap string string) : request_budget :=
  let coldStartMs := positiveOr (env !! "EVELAND_COLD_START_TIMEOUT_MS") 30000 in
  let upstreamMs := Z.max (positiveOr (env !! "EVELAND_PLAYGROUND_TIMEOUT_MS") 120000)
                      (positiveOr (env !! "EVELAND_GATEWAY_UPSTREAM_TIMEOUT_MS") 120000) in
  let marginMs := positiveOr (env !! "EVELAND_WEB_PROXY_MARGIN_MS") 15000 in
  mk_budget coldStartMs upstreamMs marginMs (coldStartMs + upstreamMs + marginMs).

(** ** Storage generations *)

Definition SUPPORTED_WORKFLOW_STORAGE_SPECS : list Z := [6; 7; 8; 9]%Z.

Definition isSupportedWorkflowStorageSpec (storageSpec : option Z) : bool :=
  match storageSpec with Some spec => bool_decide (spec ∈ SUPPORTED_WORKFLOW_STORAGE_SPECS) | None => false end.

(** ** Readiness *)

Definition clusterWorldIdentity (systemIdentifier databaseName : string) : string :=
  "cluster:" +:+ systemIdentifier +:+ "/" +:+ databaseName.

(** [WorkflowDispatcherRegistration], as far as it is read. *)
Record dispatcher_registration : Type := mk_registration {
  wd_state : string; wd_ownershipAcquired : bool; wd_bootRecoveryCompleted : bool;
  wd_worldDatabaseIdentity : string; wd_lastHeartbeatAt : time
}.

Inductive readiness := DispatcherReady | NotReady (reason : string).

Definition not_ready (why : string) : readiness := NotReady (WORKFLOW_UNAVAILABLE +:+ ": " +:+ why).

Definition foreign_world (registration : dispatcher_registration) (expected : option string) : option string :=
  expected ← expected;
  if negb (bool_decide (wd_worldDatabaseIdentity registration = expected))
     || negb (String.prefix "cluster:" (wd_worldDatabaseIdentity registration))
  then Some expected else None.

Definition assessDispatcherReadiness (registration : option dispatcher_registration) (now : time)
    (ttlMs : Z) (expectedWorldDatabaseIdentity : option string) : readiness :=
  match registration with
  | None => not_ready "no workflow dispatcher registration exists"
  | Some registration =>
      let age := (now - wd_lastHeartbeatAt registration)%Z in
      if (ttlMs <? age)%Z then
        not_ready ("dispatcher heartbeat is " +:+ pretty age +:+ "ms old (ttl " +:+ pretty ttlMs +:+ "ms)")
      else if negb (wd_ownershipAcquired registration) || negb (wd_bootRecoveryCompleted registration) then
        not_ready "dispatcher has not completed ownership and boot recovery"
      else
        match foreign_world registration expectedWorldDatabaseIdentity with
        | Some expected =>
            not_ready ("dispatcher is claiming from " +:+ wd_worldDatabaseIdentity registration
                       +:+ ", not the expected " +:+ expected)
        | None =>
            if bool_decide (wd_state registration = "ready") then DispatcherReady
            else not_ready ("dispatcher is " +:+ wd_state registration)
        end
  end.

(** ** The workflow world of a build *)

(** [WorkflowWorldBuildConfig] *)
Record world_config : Type := mk_world_config { wc_packageName : string; wc_packageVersion : string }.

Definition PLATFORM_WORKFLOW_WORLD : world_config := mk_world_config "@workflow/world-postgres" "5.0.0-beta.34".
Definition EVELAND_WORKFLOW_WORLD : world_config := mk_world_config "@evelandhq/workflow-world" "0.31.1".

(** [/^(\d+)\.(\d+)\./] *)
Definition version_numbers (version : string) : option (Z * Z) :=
  a ← take_digits version;
  rest ← strip_prefix "." a.2;
  b ← take_digits rest;
  _rest ← strip_prefix "." b.2;
  Some (Z.of_N (digits_value 0 a.1), Z.of_N (digits_value 0 b.1)).

Definition sharedWorldVersionAtLeast (version : string) (major minor : Z) : bool :=
  match version_numbers (js_trim version) with
  | Some (parsedMajor, parsedMinor) =>
      (major <? parsedMajor)%Z || ((parsedMajor =? major) && (minor <=? parsedMinor))%Z
  | None => false
  end.

Definition EVELAND_WORKFLOW_WORLD_STORAGE_SPEC : Z := 9.
Definition HOOK_FORCE_CLAIM_WORKFLOW_STORAGE_SPEC : Z := 8.
Definition SEALED_LOG_WORKFLOW_STORAGE_SPEC : Z := 7.
Definition SLOT_IDENTITY_WORKFLOW_STORAGE_SPEC : Z := 6.
Definition EVELAND_WORKFLOW_WORLD_DISPATCH_PROTOCOL : Z := 1.

Definition shared_storage_spec (version : string) : Z :=
  if sharedWorldVersionAtLeast version 0 30 then EVELAND_WORKFLOW_WORLD_STORAGE_SPEC
  else if sharedWorldVersionAtLeast version 0 27 then HOOK_FORCE_CLAIM_WORKFLOW_STORAGE_SPEC
  else if sharedWorldVersionAtLeast version 0 18 then SEALED_LOG_WORKFLOW_STORAGE_SPEC
  else if sharedWorldVersionAtLeast version 0 5 then SLOT_IDENTITY_WORKFLOW_STORAGE_SPEC
  else 5.

Definition deriveWorkflowWorldAttestation (config : world_config) : workflow_attestation :=
  let name := wc_packageName config in
  let version := wc_packageVersion config in
  if bool_decide (name = wc_packageName EVELAND_WORKFLOW_WORLD) then
    let perRunQueue := sharedWorldVersionAtLeast version 0 5 in
    mk_workflow_attestation "shared" (Some name) (Some version) (Some (shared_storage_spec version))
      (if perRunQueue then Some EVELAND_WORKFLOW_WORLD_DISPATCH_PROTOCOL else None)
      (if perRunQueue then "per_run_queue_v1" else "unscoped")
  else if bool_decide (name = wc_packageName PLATFORM_WORKFLOW_WORLD) then
    mk_workflow_attestation "legacy_project" (Some name) (Some version)
      (Some SLOT_IDENTITY_WORKFLOW_STORAGE_SPEC) None "unscoped"
  else mk_workflow_attestation "unknown" (Some name) (Some version) None None "unknown".

(** A deployment that scopes its jobs to their runs is of a generation the
    platform reads. *)
Lemma scoped_worlds_are_supported config :
  wa_enqueueCapability (deriveWorkflowWorldAttestation config) = "per_run_queue_v1" ->
  isSupportedWorkflowStorageSpec (wa_storageSpec (deriveWorkflowWorldAttestation config)) = true.
Proof.
  unfold deriveWorkflowWorldAttestation, shared_storage_spec, isSupportedWorkflowStorageSpec.
  case_bool_decide; [|by case_bool_decide].
  cbn [wa_enqueueCapability wa_storageSpec]. destruct (sharedWorldVersionAtLeast _ 0 5); [|done]. intros _.
  by repeat destruct (sharedWorldVersionAtLeast _ _ _).
Qed.

Example pinned_world_attests :
  deriveWorkflowWorldAttestation EVELAND_WORKFLOW_WORLD
  = mk_workflow_attestation "shared" (Some "@evelandhq/workflow-world") (Some "0.31.1") (Some 9%Z) (Some 1%Z)
      "per_run_queue_v1".
Proof. reflexivity. Qed.

Example old_worlds_attest :
  (wa_storageSpec ∘ deriveWorkflowWorldAttestation ∘ mk_world_config "@evelandhq/workflow-world") <$>
    [" 0.30.0"; "0.29.9"; "0.18.0"; "0.17.3"; "0.4.9"; "1.0.0"; "0.31"; "v0.31.0"]
  = Some <$> [9; 8; 7; 6; 5; 9; 5; 5]%Z.
Proof. vm_compute. reflexivity. Qed.
