(* ===== verification/JobPump.v ===== *)
(** * The job pump

    [apps/worker/src/runtime/job-pump.ts]: the bounded pool that drains the job
    queue.  Each loop claims, runs what it claimed and claims again; claims go
    through one promise chain; an idle loop sleeps until its delay is over, a
    wake or the stop.

    The state is what the closures share.  An event is one turn of the event
    loop: a loop's continuation, the start or the answer of a claim, the end of
    a run or of a sleep, and the two calls from outside.  Any order of the
    events that are enabled is an execution, so a theorem about all of them holds
    for whatever the scheduling of the microtasks is. *)

From S2P Require Import Prelude.

Open Scope list_scope.
Open Scope nat_scope.

Section JobPump.
Context {T : Type}.

(** ** State *)

(** A link of [claimChain]: waiting for the one before it, calling
    [options.claim], or settled, with [None] for [null] and for a rejection. *)
Inductive claim_state := ClaimWaiting | ClaimActive | ClaimSettled (item : option T).

(** [cl_version] is the [versionBeforeClaim] of the loop that asked. *)
Record claim : Type := mk_claim { cl_owner : nat; cl_version : nat; cl_state : claim_state }.

(** Where a loop stands: at the test of [while (!stopped)], awaiting its claim,
    awaiting [options.run], in [Promise.race], or returned. *)
Inductive loop_state :=
  | AtTop
  | Claiming (k : nat)
  | Running (item : T)
  | Sleeping (k : nat)
  | Finished.

Record pump : Type := mk_pump {
  pm_stopped : bool; pm_wakeVersion : nat; pm_loops : list loop_state; pm_claims : list claim;
  pm_runs : list T
}.
#[export] Instance eta_pump : Eta pump := fun p =>
  mk_pump (pm_stopped p) (pm_wakeVersion p) (pm_loops p) (pm_claims p) (pm_runs p).

(** [startJobPump]: [None] for a concurrency it refuses. *)
Definition startJobPump (concurrency : Z) : option pump :=
  if (concurrency <? 1)%Z then None
  else Some (mk_pump false 0 (replicate (Z.to_nat concurrency) AtTop) [] []).

(** ** Events *)

Inductive pump_event :=
  | LoopContinues (i : nat)
  | ClaimStarts (k : nat)
  | ClaimAnswers (k : nat) (item : option T)
  | ClaimReturns (i : nat)
  | RunEnds (i : nat)
  | SleepEnds (i : nat)
  | WakeCall
  | StopCall.

(** [while (!stopped)]: the loop returns, or asks for a claim. *)
Definition loop_continues (i : nat) (p : pump) : pump :=
  if pm_stopped p then p <| pm_loops ::= <[i := Finished]> |>
  else p <| pm_loops ::= <[i := Claiming (length (pm_claims p))]> |>
         <| pm_claims ::= fun cs => cs ++ [mk_claim i (pm_wakeVersion p) ClaimWaiting] |>.

Definition set_claim (k : nat) (st : claim_state) (p : pump) : pump :=
  p <| pm_claims ::= alter (fun c => mk_claim (cl_owner c) (cl_version c) st) k |>.

Definition claim_settled (c : claim) : bool :=
  match cl_state c with ClaimSettled _ => true | _ => false end.

(** [claimChain.then(...)]: the link before has settled. *)
Definition chain_ready (k : nat) (p : pump) : bool :=
  match k with
  | O => true
  | S j => match pm_claims p !! j with Some c => claim_settled c | None => false end
  end.

(** [stopped ? null : options.claim()] *)
Definition claim_starts (k : nat) (p : pump) : pump :=
  set_claim k (if pm_stopped p then ClaimSettled None else ClaimActive) p.

(** What the loop does with the answer of its claim. *)
Definition claim_returns (i k : nat) (c : claim) (item : option T) (p : pump) : pump :=
  match item with
  | Some item => p <| pm_loops ::= <[i := Running item]> |> <| pm_runs ::= fun rs => rs ++ [item] |>
  | None =>
      if pm_stopped p then p <| pm_loops ::= <[i := Finished]> |>
      else if bool_decide (pm_wakeVersion p = cl_version c)
      then p <| pm_loops ::= <[i := Sleeping k]> |>
      else p <| pm_loops ::= <[i := AtTop]> |>
  end.

(** An open gate or the stop signal ends every sleep. *)
Definition rouse (l : loop_state) : loop_state :=
  match l with Sleeping _ => AtTop | l => l end.

Definition pump_step (e : pump_event) (p : pump) : option pump :=
  match e with
  | LoopContinues i =>
      match pm_loops p !! i with Some AtTop => Some (loop_continues i p) | _ => None end
  | ClaimStarts k =>
      match pm_claims p !! k with
      | Some (mk_claim _ _ ClaimWaiting) =>
          if chain_ready k p then Some (claim_starts k p) else None
      | _ => None
      end
  | ClaimAnswers k item =>
      match pm_claims p !! k with
      | Some (mk_claim _ _ ClaimActive) => Some (set_claim k (ClaimSettled item) p)
      | _ => None
      end
  | ClaimReturns i =>
      match pm_loops p !! i with
      | Some (Claiming k) =>
          c ← pm_claims p !! k;
          match cl_state c with
          | ClaimSettled item => Some (claim_returns i k c item p)
          | _ => None
          end
      | _ => None
      end
  | RunEnds i =>
      match pm_loops p !! i with
      | Some (Running _) => Some (p <| pm_loops ::= <[i := AtTop]> |>)
      | _ => None
      end
  | SleepEnds i =>
      match pm_loops p !! i with
      | Some (Sleeping _) => Some (p <| pm_loops ::= <[i := AtTop]> |>)
      | _ => None
      end
  | WakeCall =>
      if pm_stopped p then Some p
      else Some (p <| pm_wakeVersion ::= S |> <| pm_loops ::= fmap rouse |>)
  | StopCall => Some (p <| pm_stopped := true |> <| pm_loops ::= fmap rouse |>)
  end.

(** An execution. *)
Definition pump_run (p : pump) (events : list pump_event) : option pump :=
  foldl (fun o e => o ≫= pump_step e) (Some p) events.

(** The events a stopped pump waits for: all but the calls from outside. *)
Definition internal (e : pump_event) : bool :=
  match e with WakeCall | StopCall => false | _ => true end.

(** ** [nonOverlapping]: a timer whose task is skipped while it runs *)

Inductive timer_event := TimerFires | TaskSettles.

(** [inFlight], and how often the task was started. *)
Definition nonOverlapping (st : bool * nat) (e : timer_event) : bool * nat :=
  match e with
  | TimerFires => if st.1 then st else (true, S st.2)
  | TaskSettles => (false, st.2)
  end.
End JobPump.
Arguments claim_state : clear implicits.
Arguments claim : clear implicits.
Arguments loop_state : clear implicits.
Arguments pump : clear implicits.
Arguments pump_event : clear implicits.

(** ** Facts *)

Section PumpFacts.
Context {T : Type}.
Implicit Types (p : pump T) (l : list (loop_state T)) (c : claim T).

Definition claim_waiting c : bool :=
  match cl_state c with ClaimWaiting => true | _ => false end.

Definition no_answer c : bool :=
  match cl_state c with ClaimSettled None => true | _ => false end.

(** The claims settle in the order they were asked for, each by the loop that
    waits for it; a loop sleeps on an empty claim it asked for after the last
    wake. *)
Record pump_ok p : Prop := {
  po_chain : forall j k cj ck, pm_claims p !! j = Some cj -> pm_claims p !! k = Some ck ->
    j < k -> claim_waiting ck = false -> claim_settled cj = true;
  po_claiming : forall i k, pm_loops p !! i = Some (Claiming k) ->
    exists c, pm_claims p !! k = Some c /\ cl_owner c = i;
  po_pending : forall k c, pm_claims p !! k = Some c -> claim_settled c = false ->
    pm_loops p !! cl_owner c = Some (Claiming k);
  po_sleeping : forall i k, pm_loops p !! i = Some (Sleeping k) ->
    pm_stopped p = false /\
    exists c, pm_claims p !! k = Some c /\ cl_owner c = i /\ no_answer c = true /\
      cl_version c = pm_wakeVersion p
}.

Lemma claim_at_alter p k st j c' :
  pm_claims (set_claim k st p) !! j = Some c' ->
  exists c, pm_claims p !! j = Some c /\ cl_owner c' = cl_owner c /\ cl_version c' = cl_version c /\
    cl_state c' = if decide (j = k) then st else cl_state c.
Proof.
  simpl. destruct (decide (j = k)) as [->|Hne].
  - rewrite list_lookup_alter_eq. intros (c & -> & ->)%fmap_Some. by exists c.
  - rewrite list_lookup_alter_ne by done. intros ->. by exists c'.
Qed.

Lemma claim_at_alter_fwd p k st j c :
  pm_claims p !! j = Some c ->
  pm_claims (set_claim k st p) !! j
  = Some (mk_claim (cl_owner c) (cl_version c) (if decide (j = k) then st else cl_state c)).
Proof.
  intros Hj. simpl. destruct (decide (j = k)) as [->|Hne].
  - by rewrite list_lookup_alter_eq, Hj.
  - rewrite list_lookup_alter_ne, Hj by done. by destruct c.
Qed.

(** A loop that neither claims nor sleeps after the event. *)
Lemma pump_ok_loop p i x y :
  pump_ok p -> pm_loops p !! i = Some y -> (forall k, y = Claiming k ->
    exists c, pm_claims p !! k = Some c /\ claim_settled c = true) ->
  (forall k, x <> Claiming k) ->
  (forall k, x = Sleeping k -> pm_stopped p = false /\ exists c, pm_claims p !! k = Some c /\
     cl_owner c = i /\ no_answer c = true /\ cl_version c = pm_wakeVersion p) ->
  pump_ok (p <| pm_loops ::= <[i := x]> |>).
Proof.
  intros Hok Hi Hy Hnc Hsl. split; simpl; [apply Hok| | |].
  - intros j k. destruct (decide (i = j)) as [<-|Hne].
    + rewrite list_lookup_insert_eq by by eapply lookup_lt_Some. intros [= ->]. by destruct (Hnc k).
    + rewrite list_lookup_insert_ne by done. apply Hok.
  - intros k c Hk Hns. pose proof (po_pending p Hok k c Hk Hns) as Hl.
    rewrite list_lookup_insert_ne; [done|]. intros ->. rewrite Hi in Hl. injection Hl as ->.
    destruct (Hy k eq_refl) as (c' & Hk' & Hs'). congruence.
  - intros j k. destruct (decide (i = j)) as [<-|Hne].
    + rewrite list_lookup_insert_eq by by eapply lookup_lt_Some. intros [= ->]. by apply Hsl.
    + rewrite list_lookup_insert_ne by done. apply Hok.
Qed.

Lemma pump_ok_rouse p v b :
  pump_ok p -> pump_ok (mk_pump b v (rouse <$> pm_loops p) (pm_claims p) (pm_runs p)).
Proof.
  intros Hok. split; simpl; [apply Hok| | |].
  - intros i k. rewrite list_lookup_fmap. destruct (pm_loops p !! i) as [[| | | |]|] eqn:Hi; try done.
    intros [= ->]. by eapply po_claiming.
  - intros k c Hk Hns. rewrite list_lookup_fmap. by rewrite (po_pending p Hok k c Hk Hns).
  - intros i k. rewrite list_lookup_fmap. by destruct (pm_loops p !! i) as [[| | | |]|].
Qed.

Lemma pump_ok_asks p i :
  pump_ok p -> pm_loops p !! i = Some AtTop -> pm_stopped p = false ->
  pump_ok (loop_continues i p).
Proof.
  intros Hok Hi Hst. unfold loop_continues. rewrite Hst.
  assert (Hlen : i < length (pm_loops p)) by by eapply lookup_lt_Some.
  assert (Hnew : forall k c, pm_claims p !! k = Some c ->
            (pm_claims p ++ [mk_claim i (pm_wakeVersion p) ClaimWaiting]) !! k = Some c)
    by (intros k c Hk; by apply lookup_app_l_Some).
  split; simpl.
  - intros j k cj ck Hj Hk Hlt Hw.
    apply lookup_app_Some in Hk as [Hk|[Hge Hk]].
    + apply lookup_app_Some in Hj as [Hj|[Hge Hj]];
        [by eapply po_chain|apply lookup_lt_Some in Hk; lia].
    + destruct (k - length (pm_claims p)) as [|m]; [|by destruct m]. by injection Hk as <-.
  - intros j k. destruct (decide (i = j)) as [<-|Hne].
    + rewrite list_lookup_insert_eq by done. intros [= <-].
      rewrite list_lookup_middle by done. by eexists.
    + rewrite list_lookup_insert_ne by done. intros Hj.
      destruct (po_claiming p Hok j k Hj) as (c & Hk & Ho). eauto.
  - intros k c [Hk|[Hge Hk]]%lookup_app_Some Hns.
    + pose proof (po_pending p Hok k c Hk Hns) as Hl.
      rewrite list_lookup_insert_ne; [done|]. intros ->. congruence.
    + assert (k = length (pm_claims p)) as ->.
      { destruct (k - length (pm_claims p)) as [|m] eqn:Hm; [lia|by destruct m]. }
      rewrite Nat.sub_diag in Hk. injection Hk as <-. simpl. by apply list_lookup_insert_eq.
  - intros j k. destruct (decide (i = j)) as [<-|Hne].
    + by rewrite list_lookup_insert_eq.
    + rewrite list_lookup_insert_ne by done. intros Hj.
      destruct (po_sleeping p Hok j k Hj) as (? & c & Hk & ?). eauto.
Qed.

Lemma pump_ok_claim p k c st :
  pump_ok p -> pm_claims p !! k = Some c -> claim_settled c = false ->
  (claim_waiting c = true -> chain_ready k p = true) ->
  st <> ClaimWaiting -> pump_ok (set_claim k st p).
Proof.
  intros Hok Hk Hns Hready Hst. split.
  - intros j m cj cm Hj Hm Hlt Hw.
    apply claim_at_alter in Hj as (cj0 & Hj & _ & _ & Hsj), Hm as (cm0 & Hm & _ & _ & Hsm).
    unfold claim_settled, claim_waiting in *.
    destruct (decide (m = k)) as [->|Hmk]; destruct (decide (j = k)) as [->|Hjk]; try lia.
    + assert (cm0 = c) as -> by congruence. rewrite Hsj.
      destruct k as [|k']; [lia|]. destruct (cl_state c) eqn:Hc.
      * specialize (Hready eq_refl). simpl in Hready.
        destruct (pm_claims p !! k') as [ck'|] eqn:Hk'; [|done].
        destruct (decide (j = k')) as [->|Hne]; [assert (cj0 = ck') as -> by congruence; exact Hready|].
        eapply (po_chain p Hok j k' cj0 ck'); [done..|lia|].
        unfold claim_waiting, claim_settled in *. by destruct (cl_state ck').
      * eapply (po_chain p Hok j (S k') cj0 c); [done..|lia|]. unfold claim_waiting. by rewrite Hc.
      * done.
    + rewrite Hsj. assert (cj0 = c) as -> by congruence.
      exfalso. rewrite Hsm in Hw.
      pose proof (po_chain p Hok k m c cm0 Hk Hm Hlt) as Hx. unfold claim_waiting, claim_settled in Hx.
      by rewrite Hx in Hns.
    + rewrite Hsj. rewrite Hsm in Hw. by eapply (po_chain p Hok j m cj0 cm0).
  - intros i m Hi. destruct (po_claiming p Hok i m Hi) as (cm & Hm & Ho).
    eexists. split; [by apply claim_at_alter_fwd|done].
  - intros m c' Hm Hns'. apply claim_at_alter in Hm as (c0 & Hm & -> & _ & Hs').
    unfold claim_settled in Hns'. rewrite Hs' in Hns'.
    apply (po_pending p Hok m c0 Hm). unfold claim_settled.
    destruct (decide (m = k)) as [->|]; [|done]. assert (c0 = c) as -> by congruence. done.
  - intros i m Hi. destruct (po_sleeping p Hok i m Hi) as (Hs & cm & Hm & Ho & Hna & Hv).
    split; [done|]. eexists. split; [by apply claim_at_alter_fwd|]. simpl. split; [done|]. split; [|done].
    unfold no_answer in *. simpl. destruct (decide (m = k)) as [->|]; [|done].
    assert (cm = c) as -> by congruence. unfold claim_settled in Hns. by destruct (cl_state c).
Qed.

Lemma pump_step_ok e p p' : pump_step e p = Some p' -> pump_ok p -> pump_ok p'.
Proof.
  intros Hstep Hok. destruct e as [i|k|k item|i|i|i| |]; simpl in Hstep.
  - destruct (pm_loops p !! i) as [[]|] eqn:Hi; try done. injection Hstep as <-.
    destruct (pm_stopped p) eqn:Hst; [|by apply pump_ok_asks].
    unfold loop_continues. rewrite Hst. by eapply pump_ok_loop.
  - destruct (pm_claims p !! k) as [[o v []]|] eqn:Hk; try done.
    destruct (chain_ready k p) eqn:Hr; [|done]. injection Hstep as <-. unfold claim_starts.
    eapply pump_ok_claim; [done|exact Hk|done|done|]. by destruct (pm_stopped p).
  - destruct (pm_claims p !! k) as [[o v []]|] eqn:Hk; try done. injection Hstep as <-.
    by eapply pump_ok_claim.
  - destruct (pm_loops p !! i) as [[|k| | |]|] eqn:Hi; try done.
    destruct (pm_claims p !! k) as [c|] eqn:Hk; [|done]. simpl in Hstep.
    destruct (cl_state c) as [| |item] eqn:Hc; try done. injection Hstep as <-.
    assert (Hy : forall k', Claiming k = Claiming (T := T) k' ->
      exists c, pm_claims p !! k' = Some c /\ claim_settled c = true).
    { intros k' [= <-]. exists c. split; [done|]. unfold claim_settled. by rewrite Hc. }
    destruct (po_claiming p Hok i k Hi) as (c0 & Hk0 & Ho). assert (c0 = c) as -> by congruence.
    unfold claim_returns. destruct item as [item|].
    + assert (Hr : pump_ok (p <| pm_loops ::= <[i := Running item]> |>)) by by eapply pump_ok_loop.
      by destruct Hr.
    + destruct (pm_stopped p) eqn:Hst; [by eapply pump_ok_loop|].
      case_bool_decide as Hv; [|by eapply pump_ok_loop].
      eapply pump_ok_loop; [done..|]. intros k' [= <-]. split; [done|]. exists c.
      split; [done|]. split; [done|]. split; [|done]. unfold no_answer. by rewrite Hc.
  - destruct (pm_loops p !! i) as [[]|] eqn:Hi; try done. injection Hstep as <-.
    by eapply pump_ok_loop.
  - destruct (pm_loops p !! i) as [[]|] eqn:Hi; try done. injection Hstep as <-.
    by eapply pump_ok_loop.
  - destruct (pm_stopped p) eqn:Hst; injection Hstep as <-; [done|].
    exact (pump_ok_rouse p (S (pm_wakeVersion p)) (pm_stopped p) Hok).
  - injection Hstep as <-. exact (pump_ok_rouse p (pm_wakeVersion p) true Hok).
Qed.
End PumpFacts.

(** ** What was claimed and what was run *)

Section Accounting.
Context {T : Type}.
Implicit Types (p : pump T) (c : claim T) (l : loop_state T).

Lemma omap_one {A B} (f : A -> option B) (x : A) (xs : list A) : omap f (x :: xs) = option_list (f x) ++ omap f xs.
Proof. simpl. by destruct (f x). Qed.

Lemma omap_change {A B} (f f' : A -> option B) (xs : list A) i (y : A) :
  xs !! i = Some y -> f y = None -> (forall j z, xs !! j = Some z -> j <> i -> f' z = f z) ->
  omap f' xs ≡ₚ option_list (f' y) ++ omap f xs.
Proof.
  revert i. induction xs as [|x xs IH]; intros i Hi Hy Hsame; [done|]. destruct i as [|i].
  - injection Hi as ->. rewrite !omap_one, Hy.
    assert (Heq : omap f' xs = omap f xs).
    { apply list_omap_ext, Forall2_same_length_lookup. split; [done|].
      intros j a b Ha Hb. simplify_eq. by apply (Hsame (S j)). }
    by rewrite Heq.
  - rewrite !omap_one, (Hsame 0 x) by done. specialize (IH i Hi Hy).
    assert (Hp : omap f' xs ≡ₚ option_list (f' y) ++ omap f xs)
      by (apply IH; intros j z Hj Hne; apply (Hsame (S j)); [done|lia]).
    rewrite Hp. by rewrite Permutation_app_swap_app.
Qed.

Lemma omap_insert_perm {A B} (f : A -> option B) (xs : list A) i (x y : A) :
  xs !! i = Some y ->
  exists rest, omap f xs ≡ₚ option_list (f y) ++ rest /\
    omap f (<[i := x]> xs) ≡ₚ option_list (f x) ++ rest.
Proof.
  intros Hi. exists (omap f (take i xs) ++ omap f (drop (S i) xs)).
  pose proof (lookup_lt_Some _ _ _ Hi) as Hlt. split.
  - rewrite <- (take_drop_middle xs i y Hi) at 1. rewrite omap_app, omap_one. by rewrite Permutation_app_swap_app.
  - rewrite insert_take_drop, omap_app, omap_one by done. by rewrite Permutation_app_swap_app.
Qed.

Definition claim_item c : option T :=
  match cl_state c with ClaimSettled item => item | _ => None end.

(** The items the queue handed out, and those whose loop has not yet seen them. *)
Definition claimed p : list T := omap claim_item (pm_claims p).
Definition loop_item p l : option T :=
  match l with Claiming k => pm_claims p !! k ≫= claim_item | _ => None end.
Definition pending p : list T := omap (loop_item p) (pm_loops p).

Definition accounted p : Prop := claimed p ≡ₚ pm_runs p ++ pending p.

(** What settling a claim with [st] hands over. *)
Definition handed (st : claim_state T) : option T :=
  match st with ClaimSettled item => item | _ => None end.

Lemma claimed_set p k c st :
  pm_claims p !! k = Some c -> claim_settled c = false ->
  claimed (set_claim k st p) ≡ₚ option_list (handed st) ++ claimed p.
Proof.
  intros Hk Hns. set (c' := mk_claim (cl_owner c) (cl_version c) st).
  assert (Halt : pm_claims (set_claim k st p) = <[k := c']> (pm_claims p)).
  { simpl. apply list_eq. intros j. destruct (decide (j = k)) as [->|Hne].
    - rewrite list_lookup_alter_eq, list_lookup_insert_eq by by eapply lookup_lt_Some. by rewrite Hk.
    - by rewrite list_lookup_alter_ne, list_lookup_insert_ne. }
  unfold claimed. rewrite Halt.
  destruct (omap_insert_perm claim_item (pm_claims p) k c' c Hk) as (rest & Hold & Hnew).
  assert (Hnone : claim_item c = None)
    by (unfold claim_item, claim_settled in *; by destruct (cl_state c)).
  rewrite Hnone in Hold. by rewrite Hnew, Hold.
Qed.

Lemma accounted_claim p k c st :
  pump_ok p -> pm_claims p !! k = Some c -> claim_settled c = false ->
  accounted p -> accounted (set_claim k st p).
Proof.
  intros Hok Hk Hns Hacc. pose proof (po_pending p Hok k c Hk Hns) as Hl.
  assert (Hnone : claim_item c = None)
    by (unfold claim_item, claim_settled in *; by destruct (cl_state c)).
  assert (Hp : pending (set_claim k st p) ≡ₚ option_list (handed st) ++ pending p).
  { unfold pending. simpl pm_loops.
    rewrite (omap_change (loop_item p) (loop_item (set_claim k st p)) _ (cl_owner c) (Claiming k) Hl).
    - unfold loop_item at 1. rewrite (claim_at_alter_fwd _ _ _ _ _ Hk), decide_True by done.
      by destruct st.
    - simpl. by rewrite Hk.
    - intros j z Hj Hne. destruct z as [|m| | |]; try done. simpl. rewrite list_lookup_alter_ne; [done|].
      intros ->. destruct (po_claiming p Hok j m Hj) as (c' & Hc' & Ho). congruence. }
  unfold accounted in *. rewrite (claimed_set _ _ _ _ Hk Hns), Hp, Hacc. by rewrite Permutation_app_swap_app.
Qed.

(** A loop that moves between states without an item. *)
Lemma accounted_loop p i x y :
  pm_loops p !! i = Some y -> loop_item p x = None -> loop_item p y = None ->
  accounted p -> accounted (p <| pm_loops ::= <[i := x]> |>).
Proof.
  intros Hi Hx Hy Hacc. unfold accounted, claimed, pending in *. simpl.
  change (loop_item (p <| pm_loops ::= <[i := x]> |>)) with (loop_item p).
  destruct (omap_insert_perm (loop_item p) (pm_loops p) i x y Hi) as (rest & Hold & Hnew).
  rewrite Hx in Hnew. rewrite Hy in Hold. by rewrite Hnew, <- Hold.
Qed.

Lemma accounted_rouse p b v :
  accounted p -> accounted (mk_pump b v (rouse <$> pm_loops p) (pm_claims p) (pm_runs p)).
Proof.
  unfold accounted, claimed, pending. simpl. intros ->. apply Permutation_app_head.
  set (p' := mk_pump _ _ _ _ _). generalize (pm_loops p) as ls.
  induction ls as [|x ls IH]; [done|]. rewrite fmap_cons, !omap_one, IH. by destruct x.
Qed.

Lemma accounted_asks p i :
  pump_ok p -> pm_loops p !! i = Some AtTop -> pm_stopped p = false ->
  accounted p -> accounted (loop_continues i p).
Proof.
  intros Hok Hi Hst Hacc. unfold loop_continues. rewrite Hst.
  unfold accounted, claimed, pending in *. simpl. rewrite omap_app. simpl. rewrite app_nil_r, Hacc.
  apply Permutation_app_head.
  set (p' := p <| pm_loops ::= _ |> <| pm_claims ::= _ |>).
  assert (Hsame : omap (loop_item p') (pm_loops p) = omap (loop_item p) (pm_loops p)).
  { apply list_omap_ext, Forall2_same_length_lookup. split; [done|]. intros j a b Ha Hb.
    assert (b = a) as -> by congruence. clear Hb. destruct a as [|k| | |]; try done. simpl.
    destruct (po_claiming p Hok j k Ha) as (c & Hk & _).
    rewrite lookup_app_l by by eapply lookup_lt_Some. done. }
  rewrite <- Hsame.
  destruct (omap_insert_perm (loop_item p') (pm_loops p) i (Claiming (length (pm_claims p))) _ Hi)
    as (rest & Hold & Hnew).
  rewrite Hold, Hnew. simpl. rewrite list_lookup_middle by done. done.
Qed.

Lemma pump_step_accounted e p p' :
  pump_step e p = Some p' -> pump_ok p -> accounted p -> accounted p'.
Proof.
  intros Hstep Hok Hacc. destruct e as [i|k|k item|i|i|i| |]; simpl in Hstep.
  - destruct (pm_loops p !! i) as [[]|] eqn:Hi; try done. injection Hstep as <-.
    destruct (pm_stopped p) eqn:Hst; [|by apply accounted_asks].
    unfold loop_continues. rewrite Hst. by eapply accounted_loop.
  - destruct (pm_claims p !! k) as [[o v []]|] eqn:Hk; try done.
    destruct (chain_ready k p); [|done]. injection Hstep as <-. by eapply accounted_claim.
  - destruct (pm_claims p !! k) as [[o v []]|] eqn:Hk; try done. injection Hstep as <-.
    by eapply accounted_claim.
  - destruct (pm_loops p !! i) as [[|k| | |]|] eqn:Hi; try done.
    destruct (pm_claims p !! k) as [c|] eqn:Hk; [|done]. simpl in Hstep.
    destruct (cl_state c) as [| |item] eqn:Hc; try done. injection Hstep as <-.
    assert (Hitem : loop_item p (Claiming k) = item)
      by (simpl; rewrite Hk; simpl; unfold claim_item; by rewrite Hc).
    unfold claim_returns. destruct item as [item|].
    + unfold accounted, claimed, pending in *. simpl.
      destruct (omap_insert_perm (loop_item p) (pm_loops p) i (Running item) _ Hi)
        as (rest & Hold & Hnew).
      change (loop_item (p <| pm_loops ::= <[i:=Running item]> |> <| pm_runs ::= _ |>))
        with (loop_item p).
      rewrite Hnew, Hacc, Hold, Hitem. simpl. by rewrite <- app_assoc.
    + destruct (pm_stopped p); [by eapply accounted_loop|].
      case_bool_decide; by eapply accounted_loop.
  - destruct (pm_loops p !! i) as [[]|] eqn:Hi; try done. injection Hstep as <-.
    by eapply accounted_loop.
  - destruct (pm_loops p !! i) as [[]|] eqn:Hi; try done. injection Hstep as <-.
    by eapply accounted_loop.
  - destruct (pm_stopped p) eqn:Hst; injection Hstep as <-; [done|].
    exact (accounted_rouse p (pm_stopped p) (S (pm_wakeVersion p)) Hacc).
  - injection Hstep as <-. exact (accounted_rouse p true (pm_wakeVersion p) Hacc).
Qed.
End Accounting.

(** ** Executions *)

Section Executions.
Context {T : Type}.
Implicit Types (p q : pump T) (c : claim T) (l : loop_state T) (e : pump_event T).

Lemma pump_run_nil p : pump_run p [] = Some p.
Proof. reflexivity. Qed.

Lemma pump_run_snoc p es e : pump_run p (es ++ [e]) = pump_run p es ≫= pump_step e.
Proof. unfold pump_run. by rewrite foldl_app. Qed.

Lemma pump_run_app p es es' : pump_run p (es ++ es') = pump_run p es ≫= fun q => pump_run q es'.
Proof.
  induction es' as [|e es' IH] using rev_ind.
  - rewrite app_nil_r. by destruct (pump_run p es).
  - rewrite app_assoc, pump_run_snoc, IH. destruct (pump_run p es) as [q|]; [|done]. simpl.
    by rewrite pump_run_snoc.
Qed.

(** Induction along an execution: what every enabled event preserves holds at the end. *)
Lemma pump_run_ind (P : list (pump_event T) -> pump T -> Prop) p :
  P [] p ->
  (forall es e q q', P es q -> pump_step e q = Some q' -> P (es ++ [e]) q') ->
  forall es q, pump_run p es = Some q -> P es q.
Proof.
  intros Hnil Hstep es. induction es as [|e es IH] using rev_ind; intros q Hrun.
  - by injection Hrun as <-.
  - rewrite pump_run_snoc in Hrun. apply bind_Some in Hrun as (q0 & Hq0 & Hq). eauto.
Qed.

(** The invariant of an execution from the start. *)
Definition pump_inv (n : nat) p : Prop :=
  pump_ok p /\ accounted p /\ length (pm_loops p) = n /\
  (forall k c, pm_claims p !! k = Some c -> cl_version c <= pm_wakeVersion p).

Lemma set_claim_versions p k st :
  (forall j c, pm_claims p !! j = Some c -> cl_version c <= pm_wakeVersion p) ->
  forall j c, pm_claims (set_claim k st p) !! j = Some c -> cl_version c <= pm_wakeVersion p.
Proof. intros Hv j c' (c & Hj & _ & -> & _)%claim_at_alter. eauto. Qed.

Lemma pump_step_versions e p p' :
  pump_step e p = Some p' ->
  length (pm_loops p') = length (pm_loops p) /\
  ((forall k c, pm_claims p !! k = Some c -> cl_version c <= pm_wakeVersion p) ->
   forall k c, pm_claims p' !! k = Some c -> cl_version c <= pm_wakeVersion p').
Proof.
  intros Hstep. destruct e as [i|k|k item|i|i|i| |]; simpl in Hstep.
  - destruct (pm_loops p !! i) as [[]|]; try done. injection Hstep as <-. unfold loop_continues.
    destruct (pm_stopped p); simpl; rewrite length_insert; split; try done.
    intros Hv k c [Hk|[_ Hk]]%lookup_app_Some; [eauto|].
    destruct (k - length (pm_claims p)); [|done]. by injection Hk as <-.
  - destruct (pm_claims p !! k) as [[? ? []]|]; try done. destruct (chain_ready k p); [|done].
    injection Hstep as <-. split; [done|]. exact (set_claim_versions p k _).
  - destruct (pm_claims p !! k) as [[? ? []]|]; try done. injection Hstep as <-.
    split; [done|]. exact (set_claim_versions p k _).
  - destruct (pm_loops p !! i) as [[|k| | |]|]; try done. apply bind_Some in Hstep as (c & _ & Hstep).
    destruct (cl_state c) as [| |[item|]]; try done; injection Hstep as <-; simpl.
    + by rewrite length_insert.
    + destruct (pm_stopped p); [|case_bool_decide]; simpl; by rewrite length_insert.
  - destruct (pm_loops p !! i) as [[]|]; try done. injection Hstep as <-. simpl. by rewrite length_insert.
  - destruct (pm_loops p !! i) as [[]|]; try done. injection Hstep as <-. simpl. by rewrite length_insert.
  - destruct (pm_stopped p); injection Hstep as <-; [done|]. simpl. rewrite length_fmap.
    split; [done|]. intros Hv k c Hk. specialize (Hv k c Hk). lia.
  - injection Hstep as <-. simpl. by rewrite length_fmap.
Qed.

Lemma pump_inv_step n e p p' : pump_inv n p -> pump_step e p = Some p' -> pump_inv n p'.
Proof.
  intros (Hok & Hacc & Hlen & Hv) Hstep. pose proof (pump_step_versions e p p' Hstep) as [Hl Hv'].
  split; [by eapply pump_step_ok|]. split; [by eapply pump_step_accounted|].
  split; [congruence|exact (Hv' Hv)].
Qed.

Lemma pump_inv_start concurrency p :
  startJobPump concurrency = Some p -> pump_inv (Z.to_nat concurrency) p.
Proof.
  unfold startJobPump. destruct (concurrency <? 1)%Z; [done|]. intros [= <-].
  assert (Htop : forall i (x : loop_state T), replicate (Z.to_nat concurrency) AtTop !! i = Some x -> x = AtTop)
    by (by intros i x [-> _]%lookup_replicate).
  split; [|split; [|split]].
  - split; simpl; try done; intros i k Hi; by apply Htop in Hi.
  - unfold accounted, claimed, pending. simpl. generalize (Z.to_nat concurrency) as n.
    induction n as [|n IH]; [done|]. exact IH.
  - apply length_replicate.
  - done.
Qed.

Lemma pump_inv_run n p es q : pump_inv n p -> pump_run p es = Some q -> pump_inv n q.
Proof.
  intros Hp. apply (pump_run_ind (fun _ => pump_inv n)); [done|]. intros. by eapply pump_inv_step.
Qed.

Definition claim_active c : bool := match cl_state c with ClaimActive => true | _ => false end.

Lemma active_unique p j k cj ck :
  pump_ok p -> pm_claims p !! j = Some cj -> pm_claims p !! k = Some ck ->
  claim_active cj = true -> claim_active ck = true -> j = k.
Proof.
  intros Hok Hj Hk Haj Hak. unfold claim_active in *.
  destruct (Nat.lt_trichotomy j k) as [Hlt|[->|Hlt]]; [|done|].
  - pose proof (po_chain p Hok j k cj ck Hj Hk Hlt) as Hx. unfold claim_waiting, claim_settled in Hx.
    destruct (cl_state cj), (cl_state ck); naive_solver.
  - pose proof (po_chain p Hok k j ck cj Hk Hj Hlt) as Hx. unfold claim_waiting, claim_settled in Hx.
    destruct (cl_state cj), (cl_state ck); naive_solver.
Qed.

(** ** Wakes *)

(** What events that wake nobody do to the claims: the old ones keep their
    version, the new ones have been started and answered since. *)
Definition since (q : pump T) (es : list (pump_event T)) p : Prop :=
  pm_wakeVersion p = pm_wakeVersion q /\
  length (pm_claims q) <= length (pm_claims p) /\
  (forall k c, k < length (pm_claims q) -> pm_claims p !! k = Some c ->
     exists c0, pm_claims q !! k = Some c0 /\ cl_version c = cl_version c0) /\
  (pm_stopped p = false -> forall k c, length (pm_claims q) <= k -> pm_claims p !! k = Some c ->
     (claim_waiting c = false -> ClaimStarts k ∈ es) /\
     (forall item, cl_state c = ClaimSettled item -> ClaimAnswers k item ∈ es)).

(** Events that leave the claims alone. *)
Lemma since_same q es e p p' :
  since q es p -> pm_claims p' = pm_claims p -> pm_wakeVersion p' = pm_wakeVersion p ->
  (pm_stopped p' = false -> pm_stopped p = false) -> since q (es ++ [e]) p'.
Proof.
  intros (Hw & Hlen & Hold & Hnew) Hc Hv Hs. unfold since. rewrite Hc, Hv.
  split; [done|]. split; [done|]. split; [done|]. intros Hst k c Hk Hck.
  destruct (Hnew (Hs Hst) k c Hk Hck) as [H1 H2]. split; intros; apply elem_of_app; left; auto.
Qed.

Lemma since_claim q es e p k c st :
  since q es p -> pm_claims p !! k = Some c ->
  (pm_stopped p = false -> length (pm_claims q) <= k ->
     (st <> ClaimWaiting -> ClaimStarts k ∈ es ++ [e]) /\
     (forall item, st = ClaimSettled item -> ClaimAnswers k item ∈ es ++ [e])) ->
  since q (es ++ [e]) (set_claim k st p).
Proof.
  intros (Hw & Hlen & Hold & Hnew) Hk Hst. split; [done|]. split; [by simpl; rewrite length_alter|].
  split.
  - intros j c' Hj (c0 & Hc0 & _ & -> & _)%claim_at_alter. eauto.
  - intros Hs j c' Hj (c0 & Hc0 & _ & _ & Hc')%claim_at_alter. unfold claim_waiting. rewrite Hc'.
    destruct (decide (j = k)) as [->|Hne].
    + destruct (Hst Hs Hj) as [H1 H2]. split; [|by intros item ->; apply H2].
      intros Hwt. apply H1. by intros ->.
    + destruct (Hnew Hs j c0 Hj Hc0) as [H1 H2].
      split; [intros Hwt; apply elem_of_app; left; by apply H1|intros item Hi; apply elem_of_app; left; by apply H2].
Qed.

Lemma since_step q es e p p' :
  since q es p -> pump_ok p -> e <> WakeCall -> pump_step e p = Some p' -> since q (es ++ [e]) p'.
Proof.
  intros Hs Hok Hne Hstep. pose proof Hs as (Hw & Hlen & Hold & Hnew).
  destruct e as [i|k|k item|i|i|i| |]; simpl in Hstep; [| | | | | |done|].
  - destruct (pm_loops p !! i) as [[]|]; try done. injection Hstep as <-.
    unfold loop_continues. destruct (pm_stopped p) eqn:Hst; [by eapply since_same|].
    split; [done|]. simpl. rewrite length_app. split; [lia|]. split.
    + intros k c Hlt [Hk|[Hge _]]%lookup_app_Some; [eauto|lia].
    + intros _ k c Hge [Hk|[_ Hk]]%lookup_app_Some.
      * destruct (Hnew eq_refl k c Hge Hk) as [H1 H2].
        split; intros; apply elem_of_app; left; auto.
      * destruct (k - length (pm_claims p)); [|done]. injection Hk as <-. by split.
  - destruct (pm_claims p !! k) as [[? ? []]|] eqn:Hk; try done. destruct (chain_ready k p); [|done].
    injection Hstep as <-. eapply since_claim; [done|exact Hk|]. intros Hst _. rewrite Hst.
    split; [|done]. intros _. apply elem_of_app. right. apply list_elem_of_singleton. done.
  - destruct (pm_claims p !! k) as [[? ? []]|] eqn:Hk; try done. injection Hstep as <-.
    eapply since_claim; [done|exact Hk|]. intros Hst Hge.
    destruct (Hnew Hst k _ Hge Hk) as [H1 _]. split.
    + intros _. apply elem_of_app. left. by apply H1.
    + intros item' [= <-]. apply elem_of_app. right. by apply list_elem_of_singleton.
  - destruct (pm_loops p !! i) as [[|k| | |]|]; try done. apply bind_Some in Hstep as (c & _ & Hstep).
    destruct (cl_state c) as [| |[item|]]; try done; injection Hstep as <-; simpl.
    + by eapply since_same.
    + destruct (pm_stopped p); [|case_bool_decide]; by eapply since_same.
  - destruct (pm_loops p !! i) as [[]|]; try done. injection Hstep as <-. by eapply since_same.
  - destruct (pm_loops p !! i) as [[]|]; try done. injection Hstep as <-. by eapply since_same.
  - injection Hstep as <-. by eapply since_same.
Qed.

Lemma since_run n q es p :
  pump_inv n q -> WakeCall ∉ es -> pump_run q es = Some p -> since q es p.
Proof.
  intros Hq Hes Hrun. revert Hes.
  apply (pump_run_ind (fun es p => pump_inv n p /\ (WakeCall ∉ es -> since q es p)) q)
    with (es := es) (q := p); [| |done].
  - split; [done|]. intros _. split; [done|]. split; [done|]. split; [eauto|].
    intros _ k c Hge Hk. apply lookup_lt_Some in Hk. lia.
  - intros es' e p0 p1 [Hinv Hs] Hstep. split; [by eapply pump_inv_step|].
    rewrite not_elem_of_app, not_elem_of_cons. intros (H1 & H2 & _).
    eapply since_step; [by apply Hs|apply Hinv|congruence|done].
Qed.

Lemma pump_step_stopped e p p' :
  pump_step e p = Some p' -> pm_stopped p = true -> pm_stopped p' = true.
Proof.
  intros Hstep Hs. destruct e as [i|k|k item|i|i|i| |]; simpl in Hstep; repeat case_match; try done;
    try apply bind_Some in Hstep as (? & ? & Hstep); repeat case_match; try done;
    injection Hstep as <-; try done; unfold loop_continues, claim_returns; simpl;
    repeat case_match; try done.
Qed.

Lemma pump_run_stopped p es q : pm_stopped p = true -> pump_run p es = Some q -> pm_stopped q = true.
Proof.
  intros Hp. apply (pump_run_ind (fun _ p => pm_stopped p = true)); [done|]. intros ? ? ? ? ? ?.
  by eapply pump_step_stopped.
Qed.

(** C18. No wake is lost: while the pump is not stopped, a loop that sleeps
    after a wake sleeps on a claim that was started after that wake and that the
    queue answered with nothing after it; a claim in flight when the wake came
    in never lets its loop sleep. *)
Theorem wake_forces_claim concurrency start before after p i k :
  startJobPump concurrency = Some start ->
  pump_run start (before ++ WakeCall :: after) = Some p ->
  WakeCall ∉ after ->
  pm_loops p !! i = Some (Sleeping k) ->
  ClaimStarts k ∈ after /\ ClaimAnswers k None ∈ after.
Proof.
  intros Hstart Hrun Hafter Hsleep. apply pump_inv_start in Hstart.
  rewrite pump_run_app in Hrun. apply bind_Some in Hrun as (q0 & Hq0 & Hrun).
  pose proof (pump_inv_run _ _ _ _ Hstart Hq0) as Hinv0.
  change (WakeCall :: after) with ([WakeCall] ++ after) in Hrun.
  rewrite pump_run_app in Hrun. apply bind_Some in Hrun as (q & Hq & Hrun).
  pose proof (pump_inv_run _ _ _ _ Hinv0 Hq) as Hinv.
  pose proof (pump_inv_run _ _ _ _ Hinv Hrun) as (Hok & _).
  destruct (since_run _ _ _ _ Hinv Hafter Hrun) as (Hw & _ & Hold & Hnew).
  destruct (po_sleeping p Hok i k Hsleep) as (Hst & c & Hk & _ & Hna & Hv).
  assert (Hge : length (pm_claims q) <= k).
  { destruct (decide (length (pm_claims q) <= k)) as [|Hlt]; [done|]. exfalso.
    destruct (Hold k c) as (c0 & Hc0 & Hvc); [lia|done|].
    change (pump_step WakeCall q0 = Some q) in Hq. simpl in Hq.
    destruct (pm_stopped q0) eqn:Hst0; injection Hq as <-.
    - by rewrite (pump_run_stopped _ _ _ Hst0 Hrun) in Hst.
    - destruct Hinv0 as (_ & _ & _ & Hv0). specialize (Hv0 k c0 Hc0). simpl in Hw. lia. }
  destruct (Hnew Hst k c Hge Hk) as [H1 H2]. unfold no_answer, claim_waiting in *.
  destruct (cl_state c) as [| |[]] eqn:Hc; try done. split; [by apply H1|by apply H2].
Qed.

(** ** What the pool claims and runs *)

(** The items the queue answered with, in the order of its answers. *)
Definition answered (es : list (pump_event T)) : list T :=
  omap (fun e => match e with ClaimAnswers _ item => item | _ => None end) es.

Lemma claimed_same p p' : pm_claims p' = pm_claims p -> claimed p' = claimed p.
Proof. unfold claimed. by intros ->. Qed.

Lemma claimed_step e p p' :
  pump_step e p = Some p' -> claimed p' ≡ₚ answered [e] ++ claimed p.
Proof.
  intros Hstep. destruct e as [i|k|k item|i|i|i| |]; simpl in Hstep.
  - destruct (pm_loops p !! i) as [[]|]; try done. injection Hstep as <-. unfold loop_continues.
    destruct (pm_stopped p); [done|]. unfold claimed. simpl. by rewrite omap_app, app_nil_r.
  - destruct (pm_claims p !! k) as [[? ? []]|] eqn:Hk; try done. destruct (chain_ready k p); [|done].
    injection Hstep as <-. unfold claim_starts. rewrite (claimed_set p k _ _ Hk eq_refl).
    by destruct (pm_stopped p).
  - destruct (pm_claims p !! k) as [[? ? []]|] eqn:Hk; try done. injection Hstep as <-.
    rewrite (claimed_set p k _ _ Hk eq_refl). by destruct item.
  - destruct (pm_loops p !! i) as [[|k| | |]|]; try done. apply bind_Some in Hstep as (c & _ & Hstep).
    destruct (cl_state c) as [| |[item|]]; try done; injection Hstep as <-; simpl;
      rewrite (claimed_same p); try done. destruct (pm_stopped p); [|case_bool_decide]; done.
  - destruct (pm_loops p !! i) as [[]|]; try done. by injection Hstep as <-.
  - destruct (pm_loops p !! i) as [[]|]; try done. by injection Hstep as <-.
  - destruct (pm_stopped p); by injection Hstep as <-.
  - by injection Hstep as <-.
Qed.

Lemma claimed_run p es q :
  pump_run p es = Some q -> claimed q ≡ₚ answered es ++ claimed p.
Proof.
  apply (pump_run_ind (fun es q => claimed q ≡ₚ answered es ++ claimed p)); [done|].
  intros es' e q0 q1 Hq0 Hstep. rewrite (claimed_step _ _ _ Hstep), Hq0. unfold answered.
  rewrite omap_app. by rewrite Permutation_app_swap_app, app_assoc.
Qed.

Definition loop_running l : bool := match l with Running _ => true | _ => false end.

(** C19. Claims are admitted in single file and no claimed item is lost or run
    twice: at every point of every execution at most one call of
    [options.claim] is in flight, at most [concurrency] runs are, and the items
    the queue answered with are exactly those handed to [options.run] and those
    whose loop has yet to see them. *)
Theorem pump_claims_serialized concurrency start events p :
  startJobPump concurrency = Some start ->
  pump_run start events = Some p ->
  (forall j k cj ck, pm_claims p !! j = Some cj -> pm_claims p !! k = Some ck ->
     claim_active cj = true -> claim_active ck = true -> j = k) /\
  (Z.of_nat (length (filter (fun l => loop_running l = true) (pm_loops p))) <= concurrency)%Z /\
  answered events ≡ₚ pm_runs p ++ pending p.
Proof.
  intros Hstart Hrun. pose proof (pump_inv_run _ _ _ _ (pump_inv_start _ _ Hstart) Hrun)
    as (Hok & Hacc & Hlen & _).
  split; [intros; by eapply active_unique|]. split.
  - pose proof (length_filter (fun l => loop_running l = true) (pm_loops p)).
    unfold startJobPump in Hstart. destruct (Z.ltb_spec concurrency 1); [done|]. lia.
  - rewrite <- Hacc, (claimed_run _ _ _ Hrun). unfold startJobPump in Hstart.
    destruct (concurrency <? 1)%Z; [done|]. injection Hstart as <-. by rewrite app_nil_r.
Qed.

(** ** The stop *)

Definition claim_weight c : nat :=
  match cl_state c with ClaimWaiting => 2 | ClaimActive => 1 | ClaimSettled _ => 0 end.

(** How many events a stopped loop can still take part in. *)
Definition loop_weight p l : nat :=
  match l with
  | AtTop => 1
  | Claiming k => 3 + default 0 (claim_weight <$> pm_claims p !! k)
  | Running _ | Sleeping _ => 2
  | Finished => 0
  end.

Definition pump_weight p : nat := sum_list_with (loop_weight p) (pm_loops p).

Lemma sum_list_ext {A} (f f' : A -> nat) (xs : list A) :
  (forall j z, xs !! j = Some z -> f' z = f z) -> sum_list_with f' xs = sum_list_with f xs.
Proof.
  induction xs as [|z xs IH]; intros Hsame; [done|]. simpl.
  rewrite (Hsame 0 z), IH by (intros; try done; by eapply (Hsame (S _))). done.
Qed.

Lemma sum_insert_lt {A} (f : A -> nat) (xs : list A) i (x y : A) :
  xs !! i = Some y -> f x < f y ->
  sum_list_with f (<[i := x]> xs) < sum_list_with f xs.
Proof.
  revert i. induction xs as [|z xs IH]; intros [|i] Hi Hlt; try done; simpl in *.
  - injection Hi as ->. lia.
  - specialize (IH i Hi Hlt). lia.
Qed.

Lemma sum_change_lt {A} (f f' : A -> nat) (xs : list A) i (y : A) :
  xs !! i = Some y -> f' y < f y ->
  (forall j z, xs !! j = Some z -> j <> i -> f' z = f z) ->
  sum_list_with f' xs < sum_list_with f xs.
Proof.
  revert i. induction xs as [|z xs IH]; intros [|i] Hi Hlt Hsame; try done; simpl in *.
  - injection Hi as ->.
    assert (sum_list_with f' xs = sum_list_with f xs) as ->; [|lia].
    apply sum_list_ext. intros j z Hj. by apply (Hsame (S j) z).
  - rewrite (Hsame 0 z) by done. specialize (IH i Hi Hlt).
    assert (sum_list_with f' xs < sum_list_with f xs); [|lia].
    apply IH. intros j z' Hj Hne. apply (Hsame (S j)); [done|lia].
Qed.

Lemma weight_loop p i x y :
  pm_loops p !! i = Some y -> loop_weight p x < loop_weight p y ->
  pump_weight (p <| pm_loops ::= <[i := x]> |>) < pump_weight p.
Proof. apply sum_insert_lt. Qed.

Lemma weight_claim p k c st :
  pump_ok p -> pm_claims p !! k = Some c -> claim_settled c = false ->
  claim_weight (mk_claim (cl_owner c) (cl_version c) st) < claim_weight c ->
  pump_weight (set_claim k st p) < pump_weight p.
Proof.
  intros Hok Hk Hns Hlt. pose proof (po_pending p Hok k c Hk Hns) as Hl.
  apply (sum_change_lt _ _ (pm_loops p) (cl_owner c) (Claiming k) Hl).
  - unfold loop_weight. rewrite (claim_at_alter_fwd _ _ _ _ _ Hk), Hk, decide_True by done. simpl.
    unfold claim_weight in *. simpl in *. lia.
  - intros j z Hj Hne. destruct z as [|m| | |]; try done. simpl.
    rewrite list_lookup_alter_ne; [done|]. intros ->.
    destruct (po_claiming p Hok j m Hj) as (c' & Hc' & Ho). congruence.
Qed.

Lemma stopped_step_weight e p p' :
  pump_ok p -> pm_stopped p = true -> internal e = true -> pump_step e p = Some p' ->
  pump_weight p' < pump_weight p.
Proof.
  intros Hok Hst Hint Hstep. destruct e as [i|k|k item|i|i|i| |]; simpl in Hstep; try done.
  - destruct (pm_loops p !! i) as [[]|] eqn:Hi; try done. injection Hstep as <-.
    unfold loop_continues. rewrite Hst. eapply weight_loop; [done|]. simpl. lia.
  - destruct (pm_claims p !! k) as [[? ? []]|] eqn:Hk; try done. destruct (chain_ready k p); [|done].
    injection Hstep as <-. unfold claim_starts. rewrite Hst.
    eapply weight_claim; [done..|]. unfold claim_weight. simpl. lia.
  - destruct (pm_claims p !! k) as [[? ? []]|] eqn:Hk; try done. injection Hstep as <-.
    eapply weight_claim; [done..|]. unfold claim_weight. simpl. lia.
  - destruct (pm_loops p !! i) as [[|k| | |]|] eqn:Hi; try done.
    apply bind_Some in Hstep as (c & Hk & Hstep).
    destruct (cl_state c) as [| |[item|]] eqn:Hc; try done; injection Hstep as <-; simpl.
    + apply (weight_loop p i (Running item) _ Hi). simpl. lia.
    + rewrite Hst. eapply weight_loop; [done|]. simpl. lia.
  - destruct (pm_loops p !! i) as [[]|] eqn:Hi; try done. injection Hstep as <-.
    eapply weight_loop; [done|]. simpl. lia.
  - destruct (pm_loops p !! i) as [[]|] eqn:Hi; try done. injection Hstep as <-.
    eapply weight_loop; [done|]. simpl. lia.
Qed.

Lemma weight_bound p : pump_weight p <= 5 * length (pm_loops p).
Proof.
  unfold pump_weight. induction (pm_loops p) as [|l ls IH]; [done|]. simpl.
  assert (loop_weight p l <= 5); [|lia]. destruct l as [|k| | |]; simpl; try lia.
  destruct (pm_claims p !! k) as [c|]; simpl; [|lia]. unfold claim_weight. destruct (cl_state c); lia.
Qed.

(** A stopped pump starts no claim. *)
Lemma stopped_active e p p' k c' :
  pump_step e p = Some p' -> pm_stopped p = true ->
  pm_claims p' !! k = Some c' -> claim_active c' = true -> pm_claims p !! k = Some c'.
Proof.
  intros Hstep Hst Hk' Ha. destruct e as [i|m|m item|i|i|i| |]; simpl in Hstep.
  - destruct (pm_loops p !! i) as [[]|]; try done. injection Hstep as <-.
    unfold loop_continues in Hk'. by rewrite Hst in Hk'.
  - destruct (pm_claims p !! m) as [[? ? []]|] eqn:Hm; try done. destruct (chain_ready m p); [|done].
    injection Hstep as <-. unfold claim_starts in Hk'. rewrite Hst in Hk'.
    simpl in Hk'. destruct (decide (k = m)) as [->|Hne].
    + rewrite list_lookup_alter_eq, Hm in Hk'. by injection Hk' as <-.
    + by rewrite list_lookup_alter_ne in Hk'.
  - destruct (pm_claims p !! m) as [[? ? []]|] eqn:Hm; try done. injection Hstep as <-.
    simpl in Hk'. destruct (decide (k = m)) as [->|Hne].
    + rewrite list_lookup_alter_eq, Hm in Hk'. by injection Hk' as <-.
    + by rewrite list_lookup_alter_ne in Hk'.
  - destruct (pm_loops p !! i) as [[|m| | |]|]; try done. apply bind_Some in Hstep as (c & _ & Hstep).
    destruct (cl_state c) as [| |[item|]]; try done; injection Hstep as <-; [done|].
    simpl in Hk'. by rewrite Hst in Hk'.
  - destruct (pm_loops p !! i) as [[]|]; try done. by injection Hstep as <-.
  - destruct (pm_loops p !! i) as [[]|]; try done. by injection Hstep as <-.
  - rewrite Hst in Hstep. by injection Hstep as <-.
  - by injection Hstep as <-.
Qed.

(** Some claim can move as long as one is unsettled. *)
Lemma chain_moves p k c :
  pm_claims p !! k = Some c -> claim_settled c = false ->
  exists e, internal e = true /\ is_Some (pump_step e p).
Proof.
  revert c. induction k as [|k IH]; intros c Hk Hns.
  - destruct c as [o v []]; [exists (ClaimStarts 0)|exists (ClaimAnswers 0 None)|done];
      simpl; rewrite Hk; by split.
  - destruct (lookup_lt_is_Some_2 (pm_claims p) k) as [c0 Hc0];
      [apply lookup_lt_Some in Hk; lia|].
    destruct (claim_settled c0) eqn:Hs0; [|by eapply IH].
    destruct c as [o v []]; [exists (ClaimStarts (S k))|exists (ClaimAnswers (S k) None)|done];
      simpl; rewrite Hk; [|by split]. rewrite Hc0, Hs0. by split.
Qed.

Lemma loop_moves p i l :
  pump_ok p -> pm_loops p !! i = Some l -> l <> Finished ->
  exists e, internal e = true /\ is_Some (pump_step e p).
Proof.
  intros Hok Hi Hne. destruct l as [|k|item|k|]; [| | | |done].
  - exists (LoopContinues i). simpl. rewrite Hi. by split.
  - destruct (po_claiming p Hok i k Hi) as (c & Hk & _).
    destruct (claim_settled c) eqn:Hs; [|by eapply chain_moves].
    exists (ClaimReturns i). simpl. rewrite Hi, Hk. simpl. unfold claim_settled in Hs.
    destruct (cl_state c); by split.
  - exists (RunEnds i). simpl. rewrite Hi. by split.
  - exists (SleepEnds i). simpl. rewrite Hi. by split.
Qed.

Lemma stopped_run n p after p' :
  pump_inv n p -> pm_stopped p = true -> pump_run p after = Some p' ->
  Forall (fun e => internal e = true) after ->
  pump_inv n p' /\ pm_stopped p' = true /\ length after + pump_weight p' <= pump_weight p /\
  (forall k c, pm_claims p' !! k = Some c -> claim_active c = true -> pm_claims p !! k = Some c).
Proof.
  intros Hinv Hst. apply (pump_run_ind (fun after p' => Forall _ after ->
    pump_inv n p' /\ pm_stopped p' = true /\ length after + pump_weight p' <= pump_weight p /\
    forall k c, pm_claims p' !! k = Some c -> claim_active c = true -> pm_claims p !! k = Some c) p).
  { intros _. split; [done|]. split; [done|]. split; [simpl; lia|done]. }
  intros es e q q' IH Hstep Hes. apply Forall_app in Hes as [He Hes].
  destruct (IH He) as (Hq & Hsq & Hwq & Haq). apply Forall_cons in Hes as [Hes _].
  pose proof (stopped_step_weight e q q' (proj1 Hq) Hsq Hes Hstep).
  split; [by eapply pump_inv_step|]. split; [by eapply pump_step_stopped|].
  split; [rewrite length_app; simpl; lia|]. intros k c Hk Ha.
  apply Haq; [|done]. by eapply stopped_active.
Qed.

(** A pump in which nothing can happen has returned from every loop. *)
Lemma stuck_finished p :
  pump_ok p -> (forall e, internal e = true -> pump_step e p = None) ->
  Forall (eq Finished) (pm_loops p) /\ pending p = [].
Proof.
  intros Hok Hstuck. assert (Hfin : Forall (eq Finished) (pm_loops p)).
  { apply Forall_lookup. intros i l Hi. destruct l; try done;
      (edestruct (loop_moves p i) as (e & He & Hsome); [done|exact Hi|done|]);
      rewrite (Hstuck e He) in Hsome; by destruct Hsome. }
  split; [done|]. unfold pending. clear -Hfin. revert Hfin. generalize (pm_loops p) as ls.
  induction 1 as [|l ls <- _ IH]; [done|]. by rewrite omap_one, IH.
Qed.

(** [stop] drains the pool: after it the pool takes at most five further
    turns per loop, starts no new claim, and when nothing more can happen every
    loop has returned - the promise of [stop] resolves - with every item the
    queue ever answered with handed to [options.run] once. *)
Lemma stop_drains concurrency start before p after p' :
  startJobPump concurrency = Some start ->
  pump_run start (before ++ [StopCall]) = Some p ->
  Forall (fun e => internal e = true) after ->
  pump_run p after = Some p' ->
  length after <= 5 * Z.to_nat concurrency /\
  (forall k c, pm_claims p' !! k = Some c -> claim_active c = true -> pm_claims p !! k = Some c) /\
  ((forall e, internal e = true -> pump_step e p' = None) ->
     Forall (eq Finished) (pm_loops p') /\ answered (before ++ after) ≡ₚ pm_runs p').
Proof.
  intros Hstart Hp Hint Hp'. pose proof (pump_inv_start _ _ Hstart) as Hinv0.
  pose proof (pump_inv_run _ _ _ _ Hinv0 Hp) as Hinv.
  assert (Hst : pm_stopped p = true).
  { rewrite pump_run_snoc in Hp. apply bind_Some in Hp as (? & _ & [= <-]). done. }
  destruct (stopped_run _ _ _ _ Hinv Hst Hp' Hint) as ((Hok & Hacc & Hlen & _) & _ & Hw & Hact).
  split; [|split; [done|]].
  - pose proof (weight_bound p). destruct Hinv as (_ & _ & Hlenp & _). lia.
  - intros Hstuck. destruct (stuck_finished p' Hok Hstuck) as [Hfin Hnone]. split; [done|].
    assert (Hrun : pump_run start ((before ++ [StopCall]) ++ after) = Some p')
      by (rewrite pump_run_app, Hp; exact Hp').
    unfold accounted in Hacc. rewrite Hnone, app_nil_r in Hacc. rewrite <- Hacc, (claimed_run _ _ _ Hrun).
    unfold startJobPump in Hstart. destruct (concurrency <? 1)%Z; [done|]. injection Hstart as <-.
    unfold answered. rewrite !omap_app. simpl. by rewrite !app_nil_r.
Qed.
End Executions.

(** ** Executions that show the hypotheses hold *)

Definition one_loop : pump nat := mk_pump false 0 [AtTop] [] [].
Definition two_loops : pump nat := mk_pump false 0 [AtTop; AtTop] [] [].

(** The claim in flight when the wake comes answers nothing; the loop asks again. *)
Definition woken : list (pump_event nat) :=
  [ClaimAnswers 0 None; ClaimReturns 0; LoopContinues 0; ClaimStarts 1; ClaimAnswers 1 None; ClaimReturns 0].

Lemma wake_forces_claim_witness :
  startJobPump 1 = Some one_loop /\ ClaimStarts 1 ∈ woken /\ ClaimAnswers 1 None ∈ woken.
Proof.
  split; [reflexivity|].
  apply (wake_forces_claim 1 one_loop [LoopContinues 0; ClaimStarts 0] woken
    (mk_pump false 1 [Sleeping 1] [mk_claim 0 0 (ClaimSettled None); mk_claim 0 1 (ClaimSettled None)] [])
    0 1); [reflexivity|reflexivity| |reflexivity].
  unfold woken. rewrite !not_elem_of_cons. repeat split; try discriminate. apply not_elem_of_nil.
Defined.

Definition two_claims : list (pump_event nat) :=
  [LoopContinues 0; LoopContinues 1; ClaimStarts 0; ClaimAnswers 0 (Some 7); ClaimStarts 1; ClaimReturns 0].

Definition two_claims_state : pump nat :=
  mk_pump false 0 [Running 7; Claiming 1]
    [mk_claim 0 0 (ClaimSettled (Some 7)); mk_claim 1 0 ClaimActive] [7].

Lemma pump_claims_serialized_witness :
  pump_run two_loops two_claims = Some two_claims_state /\ answered two_claims ≡ₚ [7].
Proof.
  split; [reflexivity|].
  apply (pump_claims_serialized 2 two_loops two_claims two_claims_state); reflexivity.
Defined.

(** The stop comes while an item runs and another is claimed. *)
Definition drained_events : list (pump_event nat) :=
  [ClaimAnswers 1 (Some 8); ClaimReturns 1; RunEnds 0; LoopContinues 0; RunEnds 1; LoopContinues 1].

Definition drained_state : pump nat :=
  mk_pump true 0 [Finished; Finished]
    [mk_claim 0 0 (ClaimSettled (Some 7)); mk_claim 1 0 (ClaimSettled (Some 8))] [7; 8].

Lemma stop_drains_witness :
  pump_run two_loops (two_claims ++ [StopCall] ++ drained_events) = Some drained_state /\
  length drained_events <= 10 /\ answered (two_claims ++ drained_events) ≡ₚ [7; 8].
Proof.
  split; [reflexivity|].
  destruct (stop_drains 2 two_loops two_claims (two_claims_state <| pm_stopped := true |>) drained_events
    drained_state) as (Hlen & _ & Hdone); [reflexivity|reflexivity| |reflexivity|].
  - repeat constructor.
  - split; [exact Hlen|]. apply Hdone. intros [i|k|k item|i|i|i| |] Hint.
    1, 4, 5, 6: by destruct i as [|[|i]].
    1, 2: by destruct k as [|[|k]].
    all: discriminate Hint.
Defined.
