(* ===== verification/Worker.v ===== *)
(** * The worker's computations

    What the files of [apps/worker/src/runtime] and [apps/worker/src/jobs] run
    on: the control plane's store, which other processes write between any two
    awaited calls, the host (Docker or systemd, sockets, HTTP) and time.

    A computation works on a [world]: the store and the log of the awaited calls
    with their answers, oldest first.  Every awaited call, and every reading of
    the clock, first lets the rest of the system run: [others], any function of
    the log so far and the store.  The host answers each call as it likes, as a
    function of the log.  A theorem for every [others] and every host is
    therefore one for every interleaving; a theorem that needs the others to
    behave says so with [fair_others].

    Here are also the health gate ([health.ts]) and the allocation of ports
    ([ports.ts]). *)

From stdpp Require Import pretty.
From S2P Require Import Prelude Strings Schema Store Tables Sample Jobs Runtime Sessions Schedules Deployments Sources Dispatcher.

Open Scope eve_scope.
Open Scope string_scope.

(** ** Hosts *)

(** [PortOwnership] and the answers of [inspectProcess] ([types.ts]). *)
Inductive port_ownership := PortOwned | PortUnbound | PortForeign (holder : string).

Inductive process_status :=
  ProcessMissing | ProcessStarting | ProcessReady | ProcessStopped | ProcessFailed.

(** [ProcessStartInput] *)
Record process_start : Type := mk_process_start {
  ps_processName : string; ps_releaseRef : string; ps_port : Z; ps_env : gmap string string;
  ps_packageManager : option string; ps_hasLockfile : bool; ps_sandboxCacheDir : string;
  ps_memoryRootDir : string; ps_observabilityPolicyDir : string
}.
#[export] Instance eta_process_start : Eta process_start := fun p =>
  mk_process_start (ps_processName p) (ps_releaseRef p) (ps_port p) (ps_env p)
    (ps_packageManager p) (ps_hasLockfile p) (ps_sandboxCacheDir p) (ps_memoryRootDir p)
    (ps_observabilityPolicyDir p).

(** The awaited calls of the host with their answers, each of a runtime adapter
    under its kind; [Dispatch] is the POST to an agent's Scheduler Channel.
    [BuildRelease] answers with the reference of the release; [ReadDispatcher] is
    the registration of the workflow dispatcher, a table the model does not have;
    [ClaimPort] and [FreePort] change the ports in flight and are not awaited. *)
Inductive host_call :=
  | StartProcess (kind : string) (input : process_start) (answer : result unit)
  | StopProcess (kind name : string) (answer : result unit)
  | InspectProcess (kind name : string) (answer : result process_status)
  | VerifyPort (kind name : string) (port : Z) (answer : result port_ownership)
  | ListProcesses (kind prefix : string) (answer : result (list string))
  | RemoveRelease (kind releaseRef : string) (answer : result unit)
  | RemoveFiles (path : string) (answer : result unit)
  | ProbePort (address : string) (port : Z) (answer : result bool)
  | Fetch (url : string) (timeoutMs : Z) (answer : result unit)
  | Health (address : string) (port timeoutMs : Z) (answer : result unit)
  | ListNetworks (answer : result (list (string * string)))
  | RemoveNetwork (name : string) (answer : result bool)
  | ListWorkflowRuns (projectId : option string) (answer : result (list string))
  | SettleRuns (projectId deploymentId disposition : string) (answer : result nat)
  | Dispatch (port : Z) (scheduleRunId : string) (answer : result (list string))
  | Diagnostics (kind name : string) (answer : result (string * string))
  | RealPath (path : string) (answer : option string)
  | BuildRelease (kind releaseId : string) (answer : result string)
  | CloneRepository (targetDir : string) (ok : bool)
  | ReadDispatcher (answer : result (option dispatcher_registration))
  | ClaimPort (port : Z)
  | FreePort (port : Z)
  | HostCall (name : string)
  | Delay (ms : Z).

(** The awaited calls of the store; the answer where a theorem reads it. *)
Inductive store_call :=
  | AcquireLease (leaseId : option string)
  | ReleaseLease (leaseId : string)
  | RenewLease (leaseId : string) (renewed : bool)
  | ClaimRun (scheduleRunId : string) (won : bool)
  | ReservePort (runtimeInstanceId : string) (port : Z) (answer : result bool)
  | RecordDeployment (deploymentId : string) (recorded : bool)
  | PromoteDeployment (deploymentId : string)
  | RecordRevision (input : revision_input) (recorded : bool)
  | EnqueueJob (type : string) (payload : json)
  | SettlePreflight (preflightId : string) (completed held : bool)
  | CompleteJob (jobId : string)
  | FailJob (jobId : string) (held : bool)
  | StoreCall (name : string).

(** [Stuck]: a loop of the model ran out of fuel. *)
Inductive work_event :=
  | Host (c : host_call)
  | Stored (c : store_call) (before after : database)
  | Stuck.

Record world : Type := mk_world { w_store : store; w_log : list work_event }.

Abbreviation Work := (M world).

(** [RuntimeAdapter]: what a host answers to each call, from the log so far. *)
Record runtime_adapter : Type := mk_adapter {
  ra_name : string;
  ra_startProcess : process_start -> list work_event -> result unit;
  ra_ensureProcess : option (process_start -> list work_event -> result unit);
  ra_stopProcess : string -> list work_event -> result unit;
  ra_inspectProcess : string -> list work_event -> result process_status;
  ra_verifyPortOwnership : option (string -> Z -> list work_event -> result port_ownership);
  ra_listProcesses : string -> list work_event -> result (list string);
  ra_removeRelease : option (string -> list work_event -> result unit)
}.

(** The rest of the system ([others]), a bind of a TCP port, an HTTP request,
    the set [inFlightPorts] that concurrent builds of the process share, the
    environment's first port, and the message of an error that the program does not define itself.  The
    error of a failed request carries the text [waitForHttpHealth] reports. *)
Class WorkerHost := {
  others : list work_event -> store -> store;
  tcp_available : string -> Z -> list work_event -> result bool;
  http_fetch : string -> list work_event -> result unit;
  in_flight_ports : list work_event -> list Z;
  EVELAND_DEPLOYMENT_PORT : option Z;
  other_error_text : error -> string
}.

(** The reason the job's signal was aborted with, if it was. *)
Class AbortSignal := { signal_aborted : list work_event -> option error }.

(** [options.signal?.throwIfAborted()] *)
Definition throw_if_aborted `{AbortSignal} : Work unit :=
  aborted <- gets (fun w => signal_aborted (w_log w)) ;;
  match aborted with Some e => throw e | None => ret tt end.

(** [error instanceof Error ? error.message : String(error)] *)
Definition error_text `{WorkerHost} (e : error) : string :=
  match e with
  | Error message => message
  | RuntimeInstanceDrainingError => "RuntimeInstance is draining; retry activation after it stops."
  | e => other_error_text e
  end.

Section Work.
Context `{Platform} `{WorkerHost}.

Definition settle : Work unit :=
  fun w => (Ok tt, mk_world (others (w_log w) (w_store w)) (w_log w)).

(** [await store.operation(...)] *)
Definition stored {A} (c : result A -> store_call) (m : Tx A) : Work A :=
  settle ;;
  fun w => let (r, s) := m (w_store w) in
           (r, mk_world s (w_log w ++ [Stored (c r) (st_db (w_store w)) (st_db s)])%list).

Definition op {A} (name : string) (m : Tx A) : Work A := stored (fun _ => StoreCall name) m.

(** [await] of a call of the host. *)
Definition hosted {A} (c : result A -> host_call) (answer : list work_event -> result A) : Work A :=
  settle ;;
  fun w => let r := answer (w_log w) in
           (r, mk_world (w_store w) (w_log w ++ [Host (c r)])%list).

(** [Date.now()] *)
Definition date_now : Work time := settle ;; gets (fun w => st_clock (w_store w)).

(** A timer of less than a millisecond fires after one. *)
Definition delay (ms : Z) : Work unit :=
  settle ;;
  fun w => (Ok tt, mk_world ((w_store w) <| st_clock ::= fun t => (t + Z.max 1 ms)%Z |>)
                     (w_log w ++ [Host (Delay ms)])%list).

Definition stuck {A} : Work A :=
  fun w => (Err (Error ""), mk_world (w_store w) (w_log w ++ [Stuck])%list).

(** ** The calls of an adapter *)

Definition startProcess (r : runtime_adapter) (input : process_start) : Work unit :=
  hosted (StartProcess (ra_name r) input) (ra_startProcess r input).

(** [runtime.ensureProcess?.bind(runtime) ?? runtime.startProcess.bind(runtime)] *)
Definition ensure_or_start (r : runtime_adapter) (input : process_start) : Work unit :=
  hosted (StartProcess (ra_name r) input)
    (default (ra_startProcess r) (ra_ensureProcess r) input).

Definition stopProcess (r : runtime_adapter) (name : string) : Work unit :=
  hosted (StopProcess (ra_name r) name) (ra_stopProcess r name).

Definition inspectProcess (r : runtime_adapter) (name : string) : Work process_status :=
  hosted (InspectProcess (ra_name r) name) (ra_inspectProcess r name).

Definition verify_port (r : runtime_adapter)
    (verify : string -> Z -> list work_event -> result port_ownership) (name : string) (port : Z)
    : Work port_ownership :=
  hosted (VerifyPort (ra_name r) name port) (verify name port).

Definition listProcesses (r : runtime_adapter) (prefix : string) : Work (list string) :=
  hosted (ListProcesses (ra_name r) prefix) (ra_listProcesses r prefix).

Definition isTcpPortAvailable (address : string) (port : Z) : Work bool :=
  hosted (ProbePort address port) (tcp_available address port).

(** ** Health *)

(** The [HttpHealthInput] whose [healthPath] no caller of this code sets. *)
Record health_input : Type := mk_health_input {
  hi_host : string; hi_port : Z; hi_timeoutMs : Z
}.

Definition health_url (input : health_input) : string :=
  "http://" +:+ hi_host input +:+ ":" +:+ pretty (hi_port input) +:+ "/eve/v1/health".

Definition health_failure (input : health_input) (lastError : option error) : error :=
  let detail := from_option error_text "" lastError in
  Error ("Deployment " +:+ health_url input +:+ " did not respond within "
         +:+ pretty (hi_timeoutMs input) +:+ "ms."
         +:+ (if bool_decide (detail = "") then "" else " Last error: " +:+ detail)).

(** [while (Date.now() < deadline)] *)
Fixpoint http_health_loop (fuel : nat) (input : health_input) (deadline : time)
    (lastError : option error) : Work unit :=
  match fuel with
  | O => stuck
  | S fuel =>
      now <- date_now ;;
      if (now <? deadline)%Z then
        now <- date_now ;;
        answer <- try_catch
          (_u <- hosted (Fetch (health_url input) (Z.max 1 (Z.min 1000 (deadline - now))))
                   (http_fetch (health_url input)) ;;
           ret None)
          (fun e => ret (Some e)) ;;
        match answer with
        | None => ret tt
        | Some e =>
            now <- date_now ;;
            if (deadline - now <=? 0)%Z then throw (health_failure input (Some e))
            else
              delay (Z.min 250 (deadline - now)) ;;
              http_health_loop fuel input deadline (Some e)
        end
      else throw (health_failure input lastError)
  end.

(** One turn per millisecond, and the last test. *)
Definition wait_fuel (ms : Z) : nat := S (Z.to_nat ms).

Definition waitForHttpHealth (input : health_input) : Work unit :=
  now <- date_now ;;
  http_health_loop (wait_fuel (hi_timeoutMs input)) input (now + hi_timeoutMs input)%Z None.

(** A [waitForHealth] of the caller, when it passes one. *)
Definition wait_for_health : Type := health_input -> list work_event -> result unit.

Definition await_health (waitForHealth : option wait_for_health) (input : health_input)
    : Work unit :=
  match waitForHealth with
  | Some f => hosted (Health (hi_host input) (hi_port input) (hi_timeoutMs input)) (f input)
  | None => waitForHttpHealth input
  end.

Definition foreign_holder (processName : string) (input : health_input) (holder : string) : error :=
  Error ("Deployment process " +:+ processName +:+ " does not hold " +:+ hi_host input +:+ ":"
         +:+ pretty (hi_port input) +:+ ": the listening socket is held by " +:+ holder
         +:+ ". Refusing to mark this deployment ready against another process's responses.").

Definition never_bound (processName : string) (input : health_input) : error :=
  Error ("Deployment process " +:+ processName +:+ " did not bind " +:+ hi_host input +:+ ":"
         +:+ pretty (hi_port input) +:+ " within " +:+ pretty (hi_timeoutMs input) +:+ "ms.").

(** The loop until the socket is owned, polled every 250 ms. *)
Fixpoint ownership_loop (fuel : nat) (r : runtime_adapter)
    (verify : string -> Z -> list work_event -> result port_ownership)
    (processName : string) (input : health_input) (deadline : time) : Work unit :=
  match fuel with
  | O => stuck
  | S fuel =>
      ownership <- verify_port r verify processName (hi_port input) ;;
      match ownership with
      | PortForeign holder => throw (foreign_holder processName input holder)
      | PortOwned => ret tt
      | PortUnbound =>
          now <- date_now ;;
          if (deadline - now <=? 0)%Z then throw (never_bound processName input)
          else
            delay (Z.min 250 (deadline - now)) ;;
            ownership_loop fuel r verify processName input deadline
      end
  end.

Definition waitForOwnedHttpHealth (r : runtime_adapter) (processName : string)
    (waitForHealth : option wait_for_health) (input : health_input) : Work unit :=
  now <- date_now ;;
  let deadline := (now + hi_timeoutMs input)%Z in
  match ra_verifyPortOwnership r with
  | Some verify =>
      ownership_loop (wait_fuel (hi_timeoutMs input)) r verify processName input deadline
  | None => ret tt
  end ;;
  now <- date_now ;;
  await_health waitForHealth
    (mk_health_input (hi_host input) (hi_port input) (Z.max 1 (deadline - now))).

(** ** Ports *)

Definition DEPLOYMENT_PORT_START : Z := 18000.

Definition start_port : Z := default DEPLOYMENT_PORT_START EVELAND_DEPLOYMENT_PORT.

(** [for (let port = startPort; port <= endPort; port += 1)] *)
Definition port_range (startPort endPort : Z) : list Z := seqZ startPort (endPort - startPort + 1).

(** [reservedPorts.has(port) || inFlightPorts.has(port)] *)
Definition taken (reserved : list Z) (port : Z) : Work bool :=
  gets (fun w => bool_decide (port ∈ reserved) || bool_decide (port ∈ in_flight_ports (w_log w))).

Fixpoint first_available (reserved : list Z) (ports : list Z) (failure : error) : Work Z :=
  match ports with
  | [] => throw failure
  | port :: ports =>
      skip <- taken reserved port ;;
      if skip : bool then first_available reserved ports failure
      else
        available <- isTcpPortAvailable "127.0.0.1" port ;;
        if available : bool then ret port else first_available reserved ports failure
  end.

Definition allocateAvailableHostPort (startPort endPort : option Z) (reserved : list Z) : Work Z :=
  let startPort := default start_port startPort in
  let endPort := default (startPort + 100)%Z endPort in
  first_available reserved (port_range startPort endPort)
    (Error ("No available deployment host port in range " +:+ pretty startPort +:+ "-"
            +:+ pretty endPort +:+ ".")).

Record allocation_input : Type := mk_allocation {
  al_preferredPort : option Z; al_startPort : option Z; al_endPort : option Z;
  al_dbReservedPorts : list Z
}.

Definition al_first (input : allocation_input) : Z := default start_port (al_startPort input).
Definition al_last (input : allocation_input) : Z :=
  default (al_first input + 100)%Z (al_endPort input).

(** [candidates]: the preferred port, then the range without it. *)
Definition port_candidates (input : allocation_input) : list Z :=
  (option_list (al_preferredPort input) ++
   base.filter (fun port => Some port <> al_preferredPort input)
     (port_range (al_first input) (al_last input)))%list.

(** A candidate other than the preferred port must be free to try. *)
Definition candidate_free (input : allocation_input) (port : Z) : Work bool :=
  if bool_decide (al_preferredPort input = Some port) then ret true
  else
    skip <- taken (al_dbReservedPorts input) port ;;
    if skip : bool then ret false else isTcpPortAvailable "127.0.0.1" port.

Definition reserve_port (runtimeInstanceId : string) (port : Z) : Work bool :=
  stored (ReservePort runtimeInstanceId port) (reserveRuntimeInstancePort runtimeInstanceId port).

Fixpoint reserve_first (runtimeInstanceId : string) (input : allocation_input) (ports : list Z)
    : Work Z :=
  match ports with
  | [] =>
      throw (Error ("No reservable deployment host port in range " +:+ pretty (al_first input)
                    +:+ "-" +:+ pretty (al_last input) +:+ "."))
  | port :: ports =>
      free <- candidate_free input port ;;
      if free : bool then
        reserved <- reserve_port runtimeInstanceId port ;;
        if reserved : bool then ret port else reserve_first runtimeInstanceId input ports
      else reserve_first runtimeInstanceId input ports
  end.

Definition allocateReservedInstancePort (runtimeInstanceId : string) (input : allocation_input)
    : Work Z :=
  reserve_first runtimeInstanceId input (port_candidates input).
End Work.

(** ** The clock of the store *)

Definition same_clock (s s' : store) : Prop := st_clock s' = st_clock s.

#[export] Instance same_clock_preorder : PreOrder same_clock.
Proof. split; [done|]. intros s1 s2 s3 H1 H2. unfold same_clock in *. congruence. Qed.

(** A store operation reads the clock and never moves it. *)
Abbreviation steady := (within same_clock).

Lemma steady_modify f : (forall s, same_clock s (f s)) -> steady (modify f).
Proof. intros Hf s. apply Hf. Qed.
Lemma steady_read {A} (q : database -> A) : steady (read q).
Proof. by intros s. Qed.
Lemma steady_write f : steady (write f).
Proof. by intros s. Qed.
Lemma steady_now_or o : steady (now_or o).
Proof. by destruct o; intros s. Qed.
Lemma steady_clock : steady clock.
Proof. by intros s. Qed.
Lemma steady_createId `{Platform} prefix : steady (createId prefix).
Proof. by intros s. Qed.
Lemma steady_transaction {A} (m : Tx A) : steady m -> steady (transaction m).
Proof.
  intros Hm s. specialize (Hm s). unfold exec, transaction in *. destruct (m s) as [[a|e] s']; done.
Qed.
#[export] Hint Resolve steady_read steady_write steady_now_or steady_clock steady_createId
  steady_transaction : within.

Ltac steadily := repeat first [progress stroll | apply steady_transaction].

Section SteadyTables.
Context {K R : Type} `{Countable K}.

Lemma steady_insert_row (T : table K R) r : steady (insert_row T r).
Proof. unfold insert_row. steadily. Qed.
Lemma steady_update_key (T : table K R) k p f : steady (update_key T k p f).
Proof. unfold update_key. steadily. Qed.
Lemma steady_update_where (T : table K R) p f : steady (update_where T p f).
Proof. unfold update_where. steadily. Qed.
Lemma steady_upsert (T : table K R) target r set : steady (upsert T target r set).
Proof. unfold upsert. stroll; auto using steady_insert_row, steady_update_key with within. Qed.
End SteadyTables.
#[export] Hint Resolve steady_insert_row steady_update_key steady_update_where steady_upsert : within.

(** ** Others that are fair

    They move the clock forward only and keep [I], an invariant that every
    operation of the store keeps too. *)
Record fair_others `{WorkerHost} (I : database -> Prop) : Prop := {
  others_clock log s : (st_clock s <= st_clock (others log s))%Z;
  others_keep log s : I (st_db s) -> I (st_db (others log s))
}.

Section WorkFacts.
Context `{Platform} `{WorkerHost}.

(** What is appended to the log, by the events it may consist of. *)
Definition logs_only (P : work_event -> Prop) (w w' : world) : Prop :=
  exists es, w_log w' = (w_log w ++ es)%list /\ Forall P es.

#[export] Instance logs_only_preorder P : PreOrder (logs_only P).
Proof.
  split; [intros w; exists []; by rewrite app_nil_r|].
  intros w1 w2 w3 (es & H1 & He) (fs & H2 & Hf). exists (es ++ fs)%list.
  rewrite H2, H1, app_assoc. split; [done|]. by apply Forall_app.
Qed.

Lemma logs_settle P : within (logs_only P) settle.
Proof. intros w. exists []. by rewrite app_nil_r. Qed.

Lemma logs_stored {A} P (c : result A -> store_call) (m : Tx A) :
  (forall s r s', m s = (r, s') -> P (Stored (c r) (st_db s) (st_db s'))) ->
  within (logs_only P) (stored c m).
Proof.
  intros Hp w. unfold exec, stored, bind, settle. simpl.
  destruct (m (others (w_log w) (w_store w))) as [r s'] eqn:Hm. simpl. eexists. split; [done|].
  apply Forall_singleton. by apply Hp.
Qed.

Lemma logs_hosted {A} P (c : result A -> host_call) answer :
  (forall r, P (Host (c r))) -> within (logs_only P) (hosted c answer).
Proof.
  intros Hp w. unfold exec, hosted, bind, settle. simpl. eexists. split; [done|].
  by apply Forall_singleton.
Qed.

Lemma logs_delay P ms : P (Host (Delay ms)) -> within (logs_only P) (delay ms).
Proof.
  intros Hp w. unfold exec, delay, bind, settle. simpl. eexists. split; [done|].
  by apply Forall_singleton.
Qed.

Lemma logs_date_now P : within (logs_only P) date_now.
Proof. intros w. unfold exec, date_now, bind, settle, gets. simpl. exists []. by rewrite app_nil_r. Qed.

(** Time passes. *)
Definition later (w w' : world) : Prop := (st_clock (w_store w) <= st_clock (w_store w'))%Z.

#[export] Instance later_preorder : PreOrder later.
Proof. unfold later. split; [intros w; lia|intros w1 w2 w3; lia]. Qed.

Context {I : database -> Prop} (Hfair : fair_others I).

Lemma later_settle : within later settle.
Proof. intros w. apply Hfair. Qed.

Lemma later_stored {A} (c : result A -> store_call) (m : Tx A) :
  steady m -> within later (stored c m).
Proof.
  intros Hm w. unfold exec, stored, bind, settle. simpl. specialize (Hm (others (w_log w) (w_store w))).
  unfold exec, same_clock in Hm. destruct (m (others (w_log w) (w_store w))) as [r s']. simpl in *.
  unfold later. simpl. rewrite Hm. apply Hfair.
Qed.

Lemma later_hosted {A} (c : result A -> host_call) answer : within later (hosted c answer).
Proof. intros w. apply Hfair. Qed.

Lemma later_date_now : within later date_now.
Proof. intros w. apply Hfair. Qed.

Lemma later_delay ms : within later (delay ms).
Proof.
  intros w. unfold exec, delay, bind, settle, later. simpl.
  pose proof (others_clock I Hfair (w_log w) (w_store w)). lia.
Qed.

Lemma date_now_run w t w' :
  date_now w = (t, w') -> t = Ok (st_clock (w_store w')) /\ w_log w' = w_log w /\ later w w'.
Proof. intros [= <- <-]. simpl. split; [done|]. split; [done|]. apply Hfair. Qed.

Lemma delay_run ms w u w' :
  delay ms w = (u, w') ->
  u = Ok tt /\ (st_clock (w_store w) + Z.max 1 ms <= st_clock (w_store w'))%Z.
Proof.
  intros [= <- <-]. simpl. split; [done|].
  pose proof (others_clock I Hfair (w_log w) (w_store w)). lia.
Qed.
End WorkFacts.

(** ** Runs of single calls *)

Section Runs.
Context `{Platform} `{WorkerHost}.

Lemma hosted_run {A} (c : result A -> host_call) answer w r w' :
  hosted c answer w = (r, w') ->
  w_log w' = (w_log w ++ [Host (c r)])%list /\ w_store w' = others (w_log w) (w_store w).
Proof. by intros [= <- <-]. Qed.

Lemma stored_run {A} (c : result A -> store_call) (m : Tx A) w r w' :
  stored c m w = (r, w') ->
  exists s, m (others (w_log w) (w_store w)) = (r, s) /\ w_store w' = s /\
    w_log w' = (w_log w ++ [Stored (c r) (st_db (others (w_log w) (w_store w))) (st_db s)])%list.
Proof.
  unfold stored, bind, settle. simpl.
  destruct (m (others (w_log w) (w_store w))) as [r0 s] eqn:Hm. intros [= <- <-]. by exists s.
Qed.

Lemma read_run {A} name (q : database -> A) w r w' :
  op name (read q) w = (r, w') ->
  r = Ok (q (st_db (w_store w'))) /\ w_store w' = others (w_log w) (w_store w) /\
  w_log w' = (w_log w ++ [Stored (StoreCall name) (st_db (w_store w')) (st_db (w_store w'))])%list.
Proof. by intros [= <- <-]. Qed.

Definition anything (e : work_event) : Prop := True.
Definition unstuck (e : work_event) : Prop := e <> Stuck.

(** What is in the log stays there. *)
Lemma logs_keep P w w' e : logs_only P w w' -> e ∈ w_log w -> e ∈ w_log w'.
Proof. intros (es & -> & _) He. apply elem_of_app. by left. Qed.

Lemma logs_last w w' c : w_log w' = (w_log w ++ [c])%list -> c ∈ w_log w'.
Proof. intros ->. apply elem_of_app. right. by apply list_elem_of_singleton. Qed.

Lemma logs_run {A} (P : work_event -> Prop) (m : Work A) w r w' :
  within (logs_only P) m -> m w = (r, w') -> logs_only P w w'.
Proof. apply within_run. Qed.

Lemma logs_weaken (P Q : work_event -> Prop) w w' :
  (forall e, P e -> Q e) -> logs_only P w w' -> logs_only Q w w'.
Proof. intros Hpq (es & Hes & Hp). exists es. split; [done|]. by eapply Forall_impl. Qed.

Lemma logs_stuck {A} (P : work_event -> Prop) : P Stuck -> within (logs_only P) (stuck (A := A)).
Proof. intros Hp w. exists [Stuck]. split; [done|]. by apply Forall_singleton. Qed.
End Runs.

#[export] Hint Resolve logs_settle logs_date_now : within.

(** *** Events that the past justifies

    [G past e]: [e] may come after [past], and after any longer past. *)
Section Justified.
Context (G : list work_event -> work_event -> Prop).
Context (HG : forall earlier past e, G past e -> G (earlier ++ past)%list e).

Definition justified (es : list work_event) : Prop :=
  forall past e future, es = (past ++ e :: future)%list -> G past e.

Lemma justified_nil : justified [].
Proof. by intros [|] e future. Qed.

Lemma justified_app es fs : justified es -> justified fs -> justified (es ++ fs)%list.
Proof.
  intros He Hf past e future Heq. apply app_eq_inv in Heq as [(k & -> & Hk)|(k & -> & Hk)].
  - destruct k as [|e' k]; simpl in Hk.
    + rewrite <- (app_nil_r past). apply HG. by eapply (Hf []).
    + injection Hk as -> ->. by eapply He.
  - apply HG. by eapply Hf.
Qed.

(** Events that need no past. *)
Lemma justified_free es : Forall (G []) es -> justified es.
Proof.
  intros Hall past e future ->. rewrite <- (app_nil_r past). apply HG.
  rewrite Forall_app, Forall_cons in Hall. tauto.
Qed.

Lemma justified_cons e es : G [] e -> justified es -> justified (e :: es).
Proof. intros He. apply (justified_app [e]). apply justified_free. by apply Forall_singleton. Qed.

(** An event after the past it needs. *)
Lemma justified_snoc es e : justified es -> G es e -> justified (es ++ [e])%list.
Proof.
  intros He Hg past e' future Heq. destruct future as [|f future _] using rev_ind.
  - apply app_inj_tail in Heq as [-> ->]. done.
  - rewrite app_comm_cons, app_assoc in Heq. apply app_inj_tail in Heq as [-> _]. by eapply He.
Qed.

Definition logs_justified (w w' : world) : Prop :=
  exists es, w_log w' = (w_log w ++ es)%list /\ justified es.

#[export] Instance logs_justified_preorder : PreOrder logs_justified.
Proof.
  split; [intros w; exists []; rewrite app_nil_r; split; [done|apply justified_nil]|].
  intros w1 w2 w3 (es & H1 & He) (fs & H2 & Hf). exists (es ++ fs)%list.
  rewrite H2, H1, app_assoc. split; [done|]. by apply justified_app.
Qed.

Lemma logs_free w w' : logs_only (G []) w w' -> logs_justified w w'.
Proof. intros (es & Hlog & Hes). exists es. split; [done|]. by apply justified_free. Qed.
End Justified.

(** Every call of a computation is one of [P]. *)
Ltac log_calls :=
  stroll; first
    [ apply logs_hosted; intros; done
    | apply logs_stored; intros; done
    | apply logs_delay; done
    | apply logs_stuck; done
    | idtac ].

(** ** Health *)

Section Health.
Context `{Platform} `{WorkerHost} {I : database -> Prop} (Hfair : fair_others I).
Context (P : work_event -> Prop) (HP : forall c, P (Host c)).

(** Events of [P] only, time forward, and [I] kept. *)
Definition sane (w w' : world) : Prop :=
  logs_only P w w' /\ later w w' /\ (I (st_db (w_store w)) -> I (st_db (w_store w'))).

#[export] Instance sane_preorder : PreOrder sane.
Proof.
  split; [by intros w|]. intros w1 w2 w3 (H1 & H2 & H3) (H4 & H5 & H6).
  split; [by etransitivity|]. split; [by etransitivity|auto].
Qed.

Lemma sane_hosted {A} (c : result A -> host_call) answer : within sane (hosted c answer).
Proof.
  intros w. split; [by apply logs_hosted|]. split; [by apply (later_hosted Hfair)|]. apply Hfair.
Qed.

Lemma sane_stored {A} (c : result A -> store_call) (m : Tx A) :
  (forall r d d', P (Stored (c r) d d')) -> steady m -> moves (preserves I) m ->
  within sane (stored c m).
Proof.
  intros Hc Hm Hi w. split; [by apply logs_stored|]. split; [by apply (later_stored Hfair)|].
  intros Hw. unfold exec. destruct (stored c m w) as [r w'] eqn:Hrun. simpl.
  apply stored_run in Hrun as (s & Hs & -> & _). specialize (Hi (others (w_log w) (w_store w))).
  unfold exec in Hi. rewrite Hs in Hi. apply Hi. by apply Hfair.
Qed.

Lemma sane_date_now : within sane date_now.
Proof.
  intros w. split; [by apply logs_date_now|]. split; [by apply (later_date_now Hfair)|]. apply Hfair.
Qed.

Lemma sane_delay ms : within sane (delay ms).
Proof.
  intros w. split; [by apply logs_delay|]. split; [by apply (later_delay Hfair)|].
  intros Hi. by apply (others_keep I Hfair).
Qed.

Ltac sane_calls :=
  stroll; first [apply sane_hosted | apply sane_date_now | apply sane_delay | idtac].

Lemma http_health_loop_sane fuel input deadline e w :
  (deadline < st_clock (w_store w) + Z.of_nat fuel)%Z -> (0 < fuel)%nat ->
  sane w (exec (http_health_loop fuel input deadline e) w).
Proof.
  revert e w. induction fuel as [|fuel IH]; intros e w Hd Hf; [lia|]. clear Hf. simpl.
  apply along_step; [apply _|apply sane_date_now|]. intros t w1 Hn1.
  apply (date_now_run Hfair) in Hn1 as ([= ->] & _ & Ht1).
  destruct (Z.ltb_spec (st_clock (w_store w1)) deadline) as [Hlt|Hge]; [|reflexivity].
  apply along_step; [apply _|apply sane_date_now|]. intros t w2 Hn2.
  apply (date_now_run Hfair) in Hn2 as ([= ->] & _ & Ht2).
  apply along_step; [apply _|sane_calls|]. intros [e'|] w3 Hc; [|reflexivity].
  apply (within_run later) in Hc as Ht3; [|stroll; apply (later_hosted Hfair)].
  apply along_step; [apply _|apply sane_date_now|]. intros t w4 Hn4.
  apply (date_now_run Hfair) in Hn4 as ([= ->] & _ & Ht4).
  destruct (Z.leb_spec (deadline - st_clock (w_store w4)) 0) as [Hle|Hgt]; [reflexivity|].
  apply along_step; [apply _|apply sane_delay|]. intros u w5 [_ Ht5]%(delay_run Hfair).
  unfold later in *. apply IH; lia.
Qed.

Lemma waitForHttpHealth_sane input : within sane (waitForHttpHealth input).
Proof.
  intros w. unfold waitForHttpHealth. apply along_step; [apply _|apply sane_date_now|].
  intros t w1 ([= ->] & _ & _)%(date_now_run Hfair). unfold wait_fuel.
  apply http_health_loop_sane; lia.
Qed.

Lemma ownership_loop_sane fuel r verify name input deadline w :
  (deadline < st_clock (w_store w) + Z.of_nat fuel)%Z -> (0 < fuel)%nat ->
  sane w (exec (ownership_loop fuel r verify name input deadline) w).
Proof.
  revert w. induction fuel as [|fuel IH]; intros w Hd Hf; [lia|]. clear Hf. simpl.
  apply along_step; [apply _|apply sane_hosted|]. intros o w1 Ho.
  apply (within_run later) in Ho as Ht1; [|apply (later_hosted Hfair)].
  destruct o as [| |holder]; [reflexivity| |reflexivity].
  apply along_step; [apply _|apply sane_date_now|]. intros t w2 ([= ->] & _ & Ht2)%(date_now_run Hfair).
  destruct (Z.leb_spec (deadline - st_clock (w_store w2)) 0) as [Hle|Hgt]; [reflexivity|].
  apply along_step; [apply _|apply sane_delay|]. intros u w3 [_ Ht3]%(delay_run Hfair).
  unfold later in *. apply IH; lia.
Qed.

Lemma waitForOwnedHttpHealth_sane r name f input : within sane (waitForOwnedHttpHealth r name f input).
Proof.
  intros w. unfold waitForOwnedHttpHealth. apply along_step; [apply _|apply sane_date_now|].
  intros t w1 ([= ->] & _ & _)%(date_now_run Hfair). apply along_bind; [apply _| |].
  - destruct (ra_verifyPortOwnership r) as [verify|]; [|reflexivity].
    unfold wait_fuel. apply ownership_loop_sane; lia.
  - intros u w2 _. apply along_step; [apply _|apply sane_date_now|]. intros t w3 _.
    unfold await_health. destruct f; [apply sane_hosted|apply waitForHttpHealth_sane].
Qed.
End Health.

(** *** What a gate that opens has seen *)

(** An event of this run, not of the log before it. *)
Definition fresh_event (w w' : world) (e : work_event) : Prop :=
  exists es, w_log w' = (w_log w ++ es)%list /\ e ∈ es.

Lemma fresh_last w w' e : w_log w' = (w_log w ++ [e])%list -> fresh_event w w' e.
Proof. intros Hlog. exists [e]. split; [done|]. by apply list_elem_of_singleton. Qed.

Lemma fresh_after P w w1 w' e : logs_only P w w1 -> fresh_event w1 w' e -> fresh_event w w' e.
Proof.
  intros (es & H1 & _) (fs & H2 & He). exists (es ++ fs)%list. split; [by rewrite H2, H1, app_assoc|].
  apply elem_of_app. by right.
Qed.

Lemma fresh_keep P w w1 w' e : fresh_event w w1 e -> logs_only P w1 w' -> fresh_event w w' e.
Proof.
  intros (es & H1 & He) (fs & H2 & _). exists (es ++ fs)%list. split; [by rewrite H2, H1, app_assoc|].
  apply elem_of_app. by left.
Qed.

Section Gate.
Context `{Platform} `{WorkerHost}.

(** A call that shows the process answers. *)
Definition healthy (c : host_call) : bool :=
  match c with Fetch _ _ (Ok _) | Health _ _ _ (Ok _) => true | _ => false end.

Definition gate_seen (r : runtime_adapter) (name : string) (port : Z) (w w' : world) : Prop :=
  (ra_verifyPortOwnership r <> None ->
   fresh_event w w' (Host (VerifyPort (ra_name r) name port (Ok PortOwned)))) /\
  exists c, healthy c = true /\ fresh_event w w' (Host c).

Lemma logs_http_health_loop fuel input deadline e :
  within (logs_only anything) (http_health_loop fuel input deadline e).
Proof. revert e. induction fuel as [|fuel IH]; intros e; simpl; log_calls. Qed.

Lemma logs_ownership_loop fuel r verify name input deadline :
  within (logs_only anything) (ownership_loop fuel r verify name input deadline).
Proof. induction fuel as [|fuel IH]; simpl; log_calls. Qed.

Lemma logs_await_health f input : within (logs_only anything) (await_health f input).
Proof. unfold await_health, waitForHttpHealth. log_calls; apply logs_http_health_loop. Qed.

Lemma logs_waitForOwnedHttpHealth r name f input :
  within (logs_only anything) (waitForOwnedHttpHealth r name f input).
Proof.
  unfold waitForOwnedHttpHealth. log_calls; first [apply logs_ownership_loop|apply logs_await_health].
Qed.

Lemma http_health_loop_ok fuel input deadline e w u w' :
  http_health_loop fuel input deadline e w = (Ok u, w') ->
  exists c, healthy c = true /\ fresh_event w w' (Host c).
Proof.
  revert e w. induction fuel as [|fuel IH]; intros e w Hrun; [done|]. simpl in Hrun.
  apply bind_ok in Hrun as (t & w1 & Hn & Hrun). destruct (t <? deadline)%Z; [|done].
  apply bind_ok in Hrun as (t2 & w2 & Hn2 & Hrun).
  assert (Hl : logs_only anything w w2)
    by (etransitivity; (eapply logs_run; [apply logs_date_now|done])).
  apply bind_ok in Hrun as ([e'|] & w3 & Hc & Hrun).
  - apply (logs_run anything) in Hc; [|log_calls].
    apply bind_ok in Hrun as (t3 & w4 & Hn3 & Hrun). destruct (_ <=? 0)%Z; [done|].
    apply bind_ok in Hrun as (u' & w5 & Hd & Hrun). apply IH in Hrun as (c & Hh & Hf).
    exists c. split; [done|]. eapply fresh_after, Hf. etransitivity; [exact Hl|].
    etransitivity; [exact Hc|]. etransitivity; [eapply logs_run; [apply logs_date_now|done]|].
    eapply logs_run; [|done]. by apply logs_delay.
  - injection Hrun as <- <-. unfold try_catch in Hc. destruct (bind _ _ w2) as [[a|e'] w5] eqn:Hb; [|done].
    injection Hc as -> ->. apply bind_ok in Hb as (u' & w4 & Hh & [= <-]).
    apply hosted_run in Hh as [Hlog _]. eexists (Fetch _ _ (Ok _)). split; [done|].
    eapply fresh_after; [exact Hl|]. by apply fresh_last.
Qed.

Lemma await_health_ok f input w u w' :
  await_health f input w = (Ok u, w') -> exists c, healthy c = true /\ fresh_event w w' (Host c).
Proof.
  unfold await_health. destruct f as [f|]; intros Hrun.
  - apply hosted_run in Hrun as [Hlog _]. eexists (Health _ _ _ (Ok _)). split; [done|]. by apply fresh_last.
  - apply bind_ok in Hrun as (t & w1 & Hn & Hrun). apply http_health_loop_ok in Hrun as (c & Hh & Hf).
    exists c. split; [done|]. eapply fresh_after, Hf. eapply logs_run; [apply (logs_date_now anything)|done].
Qed.

Lemma ownership_loop_ok fuel r verify name input deadline w u w' :
  ownership_loop fuel r verify name input deadline w = (Ok u, w') ->
  fresh_event w w' (Host (VerifyPort (ra_name r) name (hi_port input) (Ok PortOwned))).
Proof.
  revert w. induction fuel as [|fuel IH]; intros w Hrun; [done|]. simpl in Hrun.
  apply bind_ok in Hrun as ([| |holder] & w1 & Hv & Hrun); [| |done].
  - injection Hrun as <- <-. apply hosted_run in Hv as [Hlog _]. by apply fresh_last.
  - apply (logs_run anything) in Hv; [|by apply logs_hosted].
    apply bind_ok in Hrun as (t & w2 & Hn & Hrun). destruct (_ <=? 0)%Z; [done|].
    apply bind_ok in Hrun as (u' & w3 & Hd & Hrun). eapply fresh_after; [|by apply IH].
    etransitivity; [exact Hv|]. etransitivity; [eapply logs_run; [apply logs_date_now|done]|].
    eapply logs_run; [|done]. by apply logs_delay.
Qed.

Lemma waitForOwnedHttpHealth_ok r name f input w u w' :
  waitForOwnedHttpHealth r name f input w = (Ok u, w') -> gate_seen r name (hi_port input) w w'.
Proof.
  intros Hrun. apply bind_ok in Hrun as (t & w1 & Hn & Hrun). apply bind_ok in Hrun as (u1 & w2 & Hown & Hrun).
  apply bind_ok in Hrun as (t2 & w3 & Hn2 & Hrun).
  apply (logs_run anything) in Hn as Hl1; [|apply logs_date_now].
  apply (logs_run anything) in Hn2 as Hl3; [|apply logs_date_now]. split.
  - intros Hv. destruct (ra_verifyPortOwnership r) as [verify|]; [|done]. apply ownership_loop_ok in Hown.
    eapply fresh_after; [exact Hl1|]. eapply fresh_keep; [exact Hown|]. etransitivity; [exact Hl3|].
    eapply logs_run; [|exact Hrun]. apply logs_await_health.
  - apply await_health_ok in Hrun as (c & Hh & Hf). exists c. split; [done|].
    eapply fresh_after; [exact Hl1|]. eapply fresh_after; [|eapply fresh_after; [exact Hl3|exact Hf]].
    destruct (ra_verifyPortOwnership r) as [verify|].
    + eapply logs_run; [|exact Hown]. apply logs_ownership_loop.
    + by injection Hown as <- <-.
Qed.
End Gate.

(** ** Ports *)

Section Ports.
Context `{Platform} `{WorkerHost}.

Lemma steady_reserve id port : steady (reserveRuntimeInstancePort id port).
Proof. unfold reserveRuntimeInstancePort. stroll. Qed.

(** What a reservation that returns did. *)
Lemma reserve_port_run id port w b w' :
  reserve_port id port w = (Ok b, w') ->
  exists d, w_log w' = (w_log w ++ [Stored (ReservePort id port (Ok b)) d (st_db (w_store w'))])%list /\
    (b = true -> exists r, runtimeInstances (st_db (w_store w')) !! id = Some r /\
       RuntimeInstance.endpointPort r = Some port).
Proof.
  intros (s & Hs & <- & Hlog)%stored_run. eexists. split; [exact Hlog|]. intros ->.
  unfold reserveRuntimeInstancePort, try_catch in Hs. destruct (bind _ _ _) as [[b|e] s1] eqn:Hb.
  - injection Hs as -> ->. apply bind_ok in Hb as (o & s2 & Hup & [= Ho ->]).
    apply update_key_ok in Hup as [(-> & _)|(r & _ & _ & -> & _ & Hs)]; [done|]. rewrite Hs.
    simpl. rewrite lookup_insert_eq. by eexists.
  - by destruct (isUniqueConstraint e _).
Qed.

(** A candidate that was not taken. *)
Definition refused (id : string) (input : allocation_input) (log : list work_event) (port : Z) : Prop :=
  (al_preferredPort input <> Some port /\
   (port ∈ al_dbReservedPorts input \/
    (exists before, prefix before log /\ port ∈ in_flight_ports before) \/
    Host (ProbePort "127.0.0.1" port (Ok false)) ∈ log)) \/
  exists d d', Stored (ReservePort id port (Ok false)) d d' ∈ log.

(** A candidate that may be taken. *)
Definition may_take (input : allocation_input) (log : list work_event) (port : Z) : Prop :=
  al_preferredPort input = Some port \/
  ((port ∉ al_dbReservedPorts input) /\
   (exists before, prefix before log /\ port ∉ in_flight_ports before) /\
   Host (ProbePort "127.0.0.1" port (Ok true)) ∈ log).

Lemma candidate_free_run id input port w r w' :
  candidate_free input port w = (r, w') ->
  logs_only anything w w' /\
  match r with
  | Ok true => may_take input (w_log w') port
  | Ok false => refused id input (w_log w') port
  | Err e => Host (ProbePort "127.0.0.1" port (Err e)) ∈ w_log w'
  end.
Proof.
  intros Hrun. assert (Hl : within (logs_only anything) (candidate_free input port))
    by (unfold candidate_free, taken, isTcpPortAvailable; log_calls).
  split; [by eapply logs_run|]. clear Hl. unfold candidate_free in Hrun.
  case_bool_decide as Hp; [injection Hrun as <- <-; by left|].
  unfold taken, bind, gets in Hrun.
  destruct (bool_decide (port ∈ al_dbReservedPorts input) || _) eqn:Hr.
  - injection Hrun as <- <-. left. split; [done|].
    apply orb_true_iff in Hr as [Hr|Hr]; apply bool_decide_eq_true in Hr; [by left|].
    right. left. by exists (w_log w).
  - apply orb_false_iff in Hr as [H1%bool_decide_eq_false H2%bool_decide_eq_false].
    apply hosted_run in Hrun as [Hlog _].
    assert (Hpre : w_log w `prefix_of` w_log w') by (rewrite Hlog; by apply prefix_app_r).
    apply logs_last in Hlog. destruct r as [[]|e]; [right|left|]; eauto 10.
Qed.

Lemma logs_reserve_first id input ports : within (logs_only anything) (reserve_first id input ports).
Proof.
  induction ports as [|port ports IH]; simpl; log_calls.
  unfold candidate_free, taken, isTcpPortAvailable. log_calls.
Qed.

Lemma logs_prefix P w w' before :
  logs_only P w w' -> before `prefix_of` w_log w -> before `prefix_of` w_log w'.
Proof. intros (es & -> & _) Hb. by apply prefix_app_r. Qed.

Lemma refused_keep id input w w' port :
  logs_only anything w w' -> refused id input (w_log w) port -> refused id input (w_log w') port.
Proof.
  intros Hl [[Hp [?|[(b & Hb & ?)|Hh]]]|(d & d' & Hs)].
  - left. auto.
  - left. split; [done|]. right. left. exists b. split; [by eapply logs_prefix|done].
  - left. split; [done|]. do 2 right. by eapply logs_keep.
  - right. exists d, d'. by eapply logs_keep.
Qed.

Lemma may_take_keep input w w' port :
  logs_only anything w w' -> may_take input (w_log w) port -> may_take input (w_log w') port.
Proof.
  intros Hl [Hp|(H1 & (b & Hb & ?) & Hh)]; [by left|right]. split; [done|].
  split; [exists b; split; [by eapply logs_prefix|done]|by eapply logs_keep].
Qed.

(** What an allocation that throws has met. *)
Definition allocation_failed (id : string) (input : allocation_input) (ports : list Z)
    (log : list work_event) (e : error) : Prop :=
  (forall port, port ∈ ports -> refused id input log port) \/
  exists port, Host (ProbePort "127.0.0.1" port (Err e)) ∈ log \/
    exists d d', Stored (ReservePort id port (Err e)) d d' ∈ log.

Lemma allocation_failed_next id input port ports w w' e :
  logs_only anything w w' -> refused id input (w_log w) port ->
  allocation_failed id input ports (w_log w') e -> allocation_failed id input (port :: ports) (w_log w') e.
Proof.
  intros Hl Hr [Hall|Hex]; [left|by right]. intros q [->|Hq]%elem_of_cons; [by eapply refused_keep|auto].
Qed.

Lemma reserve_first_run id input ports w r w' :
  reserve_first id input ports w = (r, w') ->
  match r with
  | Ok port => port ∈ ports /\ may_take input (w_log w') port /\
      (exists d, fresh_event w w' (Stored (ReservePort id port (Ok true)) d (st_db (w_store w')))) /\
      exists row, runtimeInstances (st_db (w_store w')) !! id = Some row /\
        RuntimeInstance.endpointPort row = Some port
  | Err e => allocation_failed id input ports (w_log w') e
  end.
Proof.
  revert w. induction ports as [|port ports IH]; intros w Hrun; simpl in Hrun.
  { injection Hrun as <- <-. left. by intros q ?%elem_of_nil. }
  assert (Hskip : forall w1, logs_only anything w w1 -> refused id input (w_log w1) port ->
    reserve_first id input ports w1 = (r, w') ->
    match r with
    | Ok port' => port' ∈ port :: ports /\ may_take input (w_log w') port' /\
        (exists d, fresh_event w w' (Stored (ReservePort id port' (Ok true)) d (st_db (w_store w')))) /\
        exists row, runtimeInstances (st_db (w_store w')) !! id = Some row /\
          RuntimeInstance.endpointPort row = Some port'
    | Err e => allocation_failed id input (port :: ports) (w_log w') e
    end).
  { intros w1 Hl1 Hr Hrest. pose proof (logs_run _ _ _ _ _ (logs_reserve_first id input ports) Hrest) as Hl.
    specialize (IH w1 Hrest). destruct r as [p|e].
    - destruct IH as (Hin & Hmay & (d & Hf) & Hrow). split; [by right|]. split; [done|].
      split; [|done]. exists d. by eapply fresh_after.
    - by eapply allocation_failed_next. }
  destruct (candidate_free input port w) as [[[]|e] w1] eqn:Hf;
    apply (candidate_free_run id) in Hf as Hf'; destruct Hf' as [Hl1 Hfree].
  - rewrite (bind_step _ _ _ _ _ Hf) in Hrun.
    destruct (reserve_port id port w1) as [[b|e] w2] eqn:Hres.
    + rewrite (bind_step _ _ _ _ _ Hres) in Hrun. apply reserve_port_run in Hres as (d & Hlog & Hrow).
      assert (Hl2 : logs_only anything w1 w2)
        by (eexists; split; [exact Hlog|by apply Forall_singleton]).
      destruct b.
      2: { apply (Hskip w2); [by etransitivity|right; do 2 eexists; by eapply logs_last|done]. }
      injection Hrun as <- <-. split; [by left|]. split; [by eapply may_take_keep|].
      split; [|by apply Hrow]. exists d. eapply fresh_after; [exact Hl1|]. by apply fresh_last.
    + rewrite (bind_err _ _ _ _ _ Hres) in Hrun. injection Hrun as <- <-.
      apply stored_run in Hres as (s & _ & _ & Hlog). right. exists port. right.
      do 2 eexists. by eapply logs_last.
  - rewrite (bind_step _ _ _ _ _ Hf) in Hrun. by eapply Hskip.
  - rewrite (bind_err _ _ _ _ _ Hf) in Hrun. injection Hrun as <- <-. right. eauto.
Qed.

Lemma elem_of_port_candidates input port :
  port ∈ port_candidates input <->
  al_preferredPort input = Some port \/ (al_first input <= port <= al_last input)%Z.
Proof.
  unfold port_candidates, port_range. rewrite elem_of_app, list_elem_of_filter, elem_of_seqZ.
  assert (Ho : port ∈ option_list (al_preferredPort input) <-> al_preferredPort input = Some port).
  { destruct (al_preferredPort input) as [p|]; simpl; [rewrite list_elem_of_singleton|rewrite elem_of_nil];
      naive_solver. }
  rewrite Ho. destruct (decide (al_preferredPort input = Some port)) as [Heq|Hne].
  - split; intros; by left.
  - split; (intros [?|?]; [done|]); right; [lia|]. split; [congruence|lia].
Qed.
End Ports.
