(* ===== verification/Traces.v ===== *)
(** * Runs and the calls they append

    A small program logic for the worker's computations: [ends G K w m Q] says
    that [m], run from [w] with the calls [K] behind it, appends only calls that
    [G] justifies by the calls before them, and ends in [Q], of its result, the
    calls up to then and the world.  One rule for each construct and each kind
    of awaited call; a proof about a handler follows its code. *)

From S2P Require Import Prelude Strings Schema Store Tables Worker.

Open Scope eve_scope.
Open Scope list_scope.

(** Both sides as one list. *)
Ltac flatten := repeat (progress (rewrite <- ?app_assoc; cbn [app])); reflexivity.

(** ** Events justified from a past on

    As [justified], with the past [K] the run starts from. *)
Section From.
Context (G : list work_event -> work_event -> Prop).
Context (Gmore : forall past later e, G past e -> G (past ++ later) e).

Definition justified_from (K es : list work_event) : Prop :=
  forall past e future, es = past ++ e :: future -> G (K ++ past) e.

Lemma justified_from_nil K : justified_from K [].
Proof. by intros [|] e future. Qed.

Lemma justified_from_app K es fs :
  justified_from K es -> justified_from (K ++ es) fs -> justified_from K (es ++ fs).
Proof using G.
  intros He Hf past e future Heq. apply app_eq_inv in Heq as [(k & -> & Hk)|(k & -> & Hk)].
  - destruct k as [|e' k]; simpl in Hk.
    + rewrite app_nil_r in Hf. specialize (Hf [] e future (eq_sym Hk)). by rewrite app_nil_r in Hf.
    + injection Hk as -> ->. by eapply He.
  - rewrite app_assoc. by eapply Hf.
Qed.

Lemma justified_from_all K es : Forall (G K) es -> justified_from K es.
Proof using Gmore. intros Hall past e future ->. apply Gmore. rewrite Forall_app, Forall_cons in Hall. tauto. Qed.

(** The run from [w] to [w'] appends events justified from [K] on, the last past
    being [K']. *)
Definition logs_from (K : list work_event) (w w' : world) (K' : list work_event) : Prop :=
  exists es, w_log w' = w_log w ++ es /\ K' = K ++ es /\ justified_from K es.

Lemma logs_from_refl K w : logs_from K w w K.
Proof. exists []. rewrite !app_nil_r. split; [done|]. split; [done|]. apply justified_from_nil. Qed.

Lemma logs_from_trans K w1 w2 K2 w3 K3 : logs_from K w1 w2 K2 -> logs_from K2 w2 w3 K3 -> logs_from K w1 w3 K3.
Proof using G.
  intros (es & H1 & -> & He) (fs & H2 & -> & Hf). exists (es ++ fs). rewrite H2, H1, !app_assoc.
  split; [done|]. split; [done|]. by apply justified_from_app.
Qed.

Lemma logs_from_only K w w' : logs_only (G K) w w' -> exists K', logs_from K w w' K'.
Proof using Gmore.
  intros (es & Hlog & Hes). exists (K ++ es), es. split; [done|]. split; [done|]. by apply justified_from_all.
Qed.

Lemma logs_from_event K w w' e : w_log w' = w_log w ++ [e] -> G K e -> logs_from K w w' (K ++ [e]).
Proof using Gmore.
  intros Hlog He. exists [e]. split; [done|]. split; [done|]. apply justified_from_all. by apply Forall_singleton.
Qed.

Lemma logs_from_prefix K w w' K' : logs_from K w w' K' -> exists es, K' = K ++ es.
Proof. intros (es & _ & -> & _). by exists es. Qed.
End From.


Section Ends.
Context `{Platform} `{WorkerHost}.
Context (G : list work_event -> work_event -> Prop).
Context (Gmore : forall past later e, G past e -> G (past ++ later) e).

Definition ends {A} (K : list work_event) (w : world) (m : Work A)
    (Q : result A -> list work_event -> world -> Prop) : Prop :=
  let (r, w') := m w in exists K', logs_from G K w w' K' /\ Q r K' w'.

Lemma ends_run {A} K w (m : Work A) Q r w' :
  ends K w m Q -> m w = (r, w') -> exists K', logs_from G K w w' K' /\ Q r K' w'.
Proof. unfold ends. by intros Hm Hrun; rewrite Hrun in Hm. Qed.

Lemma ends_weaken {A} K w (m : Work A) (Q Q' : result A -> list work_event -> world -> Prop) :
  (forall r K' w', Q r K' w' -> Q' r K' w') -> ends K w m Q -> ends K w m Q'.
Proof. unfold ends. destruct (m w) as [r w']. intros HQ (K' & Hl & Hq). exists K'. auto. Qed.

Lemma ends_ret {A} K w (a : A) (Q : result A -> list work_event -> world -> Prop) :
  Q (Ok a) K w -> ends K w (ret a) Q.
Proof. intros Hq. exists K. split; [apply logs_from_refl|done]. Qed.

Lemma ends_throw {A} K w e (Q : result A -> list work_event -> world -> Prop) :
  Q (Err e) K w -> ends K w (throw e) Q.
Proof. intros Hq. exists K. split; [apply logs_from_refl|done]. Qed.

Lemma ends_lift {A} K w (r : result A) Q : Q r K w -> ends K w (lift r) Q.
Proof. intros Hq. exists K. split; [apply logs_from_refl|done]. Qed.

Lemma ends_gets {A} K w (f : world -> A) (Q : result A -> list work_event -> world -> Prop) :
  Q (Ok (f w)) K w -> ends K w (gets f) Q.
Proof. intros Hq. exists K. split; [apply logs_from_refl|done]. Qed.

Lemma ends_throw_if K w b e (Q : result unit -> list work_event -> world -> Prop) :
  (b = true -> Q (Err e) K w) -> (b = false -> Q (Ok tt) K w) -> ends K w (throw_if b e) Q.
Proof. intros Ht Hf. destruct b; [apply ends_throw|apply ends_ret]; auto. Qed.

Lemma ends_some_or {A} K w (o : option A) e (Q : result A -> list work_event -> world -> Prop) :
  (forall a, o = Some a -> Q (Ok a) K w) -> (o = None -> Q (Err e) K w) -> ends K w (some_or o e) Q.
Proof. intros Hs Hn. destruct o; [apply ends_ret|apply ends_throw]; auto. Qed.

Lemma ends_bind {A B} K w (m : Work A) (k : A -> Work B) Q :
  ends K w m (fun r K1 w1 => match r with Ok a => ends K1 w1 (k a) Q | Err e => Q (Err e) K1 w1 end) ->
  ends K w (bind m k) Q.
Proof using G.
  unfold ends, bind. destruct (m w) as [[a|e] w1]; intros (K1 & Hl & Hq); [|by exists K1].
  destruct (k a w1) as [r w']. destruct Hq as (K' & Hl' & Hq). exists K'.
  split; [by eapply logs_from_trans|done].
Qed.

Lemma ends_catch {A} K w (m : Work A) h Q :
  ends K w m (fun r K1 w1 => match r with Ok a => Q (Ok a) K1 w1 | Err e => ends K1 w1 (h e) Q end) ->
  ends K w (try_catch m h) Q.
Proof using G.
  unfold ends, try_catch. destruct (m w) as [[a|e] w1]; intros (K1 & Hl & Hq); [by exists K1|].
  destruct (h e w1) as [r w']. destruct Hq as (K' & Hl' & Hq). exists K'.
  split; [by eapply logs_from_trans|done].
Qed.

Lemma ends_hosted {A} K w (c : result A -> host_call) answer Q :
  (forall r, G K (Host (c r))) -> (forall r w', Q r (K ++ [Host (c r)]) w') -> ends K w (hosted c answer) Q.
Proof using Gmore.
  intros Hg Hq. unfold ends. destruct (hosted c answer w) as [r w'] eqn:Hrun.
  apply hosted_run in Hrun as [Hlog _]. eexists. split; [by eapply logs_from_event|apply Hq].
Qed.

Lemma ends_stored {A} K w (c : result A -> store_call) (m : Tx A) Q :
  (forall r d d', G K (Stored (c r) d d')) ->
  (forall s r w', m s = (r, w_store w') ->
     Q r (K ++ [Stored (c r) (st_db s) (st_db (w_store w'))]) w') ->
  ends K w (stored c m) Q.
Proof using Gmore.
  intros Hg Hq. unfold ends. destruct (stored c m w) as [r w'] eqn:Hrun.
  apply stored_run in Hrun as (s & Hm & <- & Hlog). eexists. split; [by eapply logs_from_event|by apply Hq].
Qed.

Lemma ends_op {A} K w name (m : Tx A) Q :
  (forall d d', G K (Stored (StoreCall name) d d')) ->
  (forall s r w', m s = (r, w_store w') ->
     Q r (K ++ [Stored (StoreCall name) (st_db s) (st_db (w_store w'))]) w') ->
  ends K w (op name m) Q.
Proof using Gmore. intros Hg. by apply ends_stored. Qed.

Lemma ends_read {A} K w name (q : database -> A) Q :
  (forall d, G K (Stored (StoreCall name) d d)) ->
  (forall d w', st_db (w_store w') = d -> Q (Ok (q d)) (K ++ [Stored (StoreCall name) d d]) w') ->
  ends K w (op name (read q)) Q.
Proof using Gmore.
  intros Hg Hq. unfold ends. destruct (op name (read q) w) as [r w'] eqn:Hrun.
  apply read_run in Hrun as (-> & _ & Hlog). eexists. split; [by eapply logs_from_event|by apply Hq].
Qed.

Lemma ends_date_now K w Q : (forall t w', Q (Ok t) K w') -> ends K w date_now Q.
Proof.
  intros Hq. unfold ends. destruct (date_now w) as [r w'] eqn:Hrun. injection Hrun as <- <-. exists K.
  split; [|apply Hq]. exists []. rewrite !app_nil_r. split; [done|]. split; [done|]. apply justified_from_nil.
Qed.

(** Calls that the past justifies one and all. *)
Lemma ends_only {A} K w (m : Work A) (Q : result A -> list work_event -> world -> Prop) :
  within (logs_only (G K)) m -> (forall r es w', Q r (K ++ es) w') -> ends K w m Q.
Proof using Gmore.
  intros Hm Hq. unfold ends. destruct (m w) as [r w'] eqn:Hrun. apply (logs_run _ _ _ _ _ Hm) in Hrun.
  apply (logs_from_only G Gmore) in Hrun as [K' Hl]. exists K'. split; [done|].
  apply logs_from_prefix in Hl as [es ->]. apply Hq.
Qed.

(** A loop, turn by turn. *)
Lemma ends_fold {A B} (I : B -> list work_event -> world -> Prop) (f : B -> A -> Work B) xs K w b
    (Q : result B -> list work_event -> world -> Prop) :
  I b K w ->
  (forall x b K w, x ∈ xs -> I b K w -> ends K w (f b x) (fun r K' w' =>
     match r with Ok b' => I b' K' w' | Err e => Q (Err e) K' w' end)) ->
  (forall b K w, I b K w -> Q (Ok b) K w) ->
  ends K w (fold_m f xs b) Q.
Proof using G.
  revert K w b. induction xs as [|x xs IH]; intros K w b Hi Hf Hq; simpl; [by apply ends_ret, Hq|].
  apply ends_bind. eapply ends_weaken; [|by apply Hf; [left|]].
  intros [b'|e] K' w'; [|done]. intros Hi'. apply IH; [done| |done].
  intros y b0 K0 w0 Hy. apply Hf. by right.
Qed.
(** The calls of a run extend those before it. *)
Lemma ends_prefix {A} K w (m : Work A) (Q : result A -> list work_event -> world -> Prop) :
  ends K w m Q -> ends K w m (fun r K' w' => Q r K' w' /\ exists es, K' = K ++ es).
Proof.
  unfold ends. destruct (m w) as [r w']. intros (K' & Hl & Hq). exists K'. split; [done|].
  split; [done|]. by eapply logs_from_prefix.
Qed.

(** What later calls keep, a run keeps. *)
Lemma ends_keep {A} (B : list work_event -> Prop) K w (m : Work A) Q :
  (forall past later, B past -> B (past ++ later)) -> B K ->
  ends K w m Q -> ends K w m (fun r K' w' => Q r K' w' /\ B K').
Proof.
  intros Hmore Hb Hm. eapply ends_weaken; [|by apply ends_prefix].
  intros r K' w' [Hq [es ->]]. auto.
Qed.

(** A loop each turn of which establishes what later calls keep. *)
Lemma ends_for {A} (P : A -> list work_event -> Prop) (f : A -> Work unit)
    (Q : result unit -> list work_event -> world -> Prop) :
  (forall x past later, P x past -> P x (past ++ later)) ->
  forall xs (I : list work_event -> Prop) K w, I K ->
  (forall x K w, x ∈ xs -> I K -> ends K w (f x) (fun r K' w' =>
     match r with Ok _ => I K' /\ P x K' | Err e => Q (Err e) K' w' end)) ->
  (forall K w, I K -> (forall x, x ∈ xs -> P x K) -> Q (Ok tt) K w) ->
  ends K w (for_m xs f) Q.
Proof using G.
  intros Hmore xs. induction xs as [|x xs IH]; intros I K w Hi Hf Hq.
  { apply ends_ret, Hq; [done|]. intros x Hx. by apply not_elem_of_nil in Hx. }
  unfold for_m. simpl. apply ends_bind. eapply ends_weaken; [|by apply Hf; [left|]].
  intros [[]|e] K' w'; [|done]. intros Hi'. apply (IH (fun K => I K /\ P x K)); [done| |].
  - intros y K0 w0 Hy [Hi0 Hp]. eapply ends_weaken; [|apply ends_prefix, Hf; [by right|done]].
    intros [u|e] K2 w2 [Hu [es ->]]; [|done]. destruct Hu. auto.
  - intros K0 w0 [Hi0 Hp] Hall. apply Hq; [done|]. intros y [->|Hy]%elem_of_cons; auto.
Qed.
End Ends.

(** ** Marks

    The calls of a run that matter to a theorem, in their order: [mark_of] tells
    them, and a clause about a run says which marks it appends. *)

(** [try { m } catch], the answer as a value. *)
Definition attempt {A} (m : Work A) : Work (result A) :=
  try_catch (a <- m ;; ret (Ok a)) (fun e => ret (Err e)).

(** No condition on the calls. *)
Definition any (past : list work_event) (e : work_event) : Prop := True.

Lemma any_more past later e : any past e -> any (past ++ later) e.
Proof. done. Qed.

Section Marks.
Context `{Platform} `{WorkerHost}.
Context {M : Type} (mark_of : work_event -> option M).

Definition marks_by (es : list work_event) : list M := omap mark_of es.

Definition unmarked_by (e : work_event) : Prop := mark_of e = None.

Lemma marks_by_app es fs : marks_by (es ++ fs) = marks_by es ++ marks_by fs.
Proof. apply omap_app. Qed.

Lemma marks_by_unmarked es : Forall unmarked_by es -> marks_by es = [].
Proof. induction 1 as [|e es He _ IH]; [done|]. unfold marks_by. simpl. by rewrite He. Qed.

Abbreviation silent := (within (logs_only unmarked_by)).

Lemma unmarked_stored {A} (c : result A -> store_call) (m : Tx A) :
  (forall r d d', unmarked_by (Stored (c r) d d')) -> silent (stored c m).
Proof. intros Hc. apply logs_stored. auto. Qed.

Lemma unmarked_op {A} name (m : Tx A) : (forall d d', unmarked_by (Stored (StoreCall name) d d')) -> silent (op name m).
Proof. intros Hc. by apply unmarked_stored. Qed.

(** A run that leaves no mark. *)
Lemma ends_silent_run {A} K w (m : Work A) (Q : result A -> list work_event -> world -> Prop) :
  silent m -> (forall r K' w', m w = (r, w') -> marks_by K' = marks_by K -> Q r K' w') -> ends any K w m Q.
Proof.
  intros Hm Hq. unfold ends. destruct (m w) as [r w'] eqn:Hrun.
  apply (logs_run _ _ _ _ _ Hm) in Hrun as Hlogs. destruct Hlogs as (es & Hlog & Hes). exists (K ++ es). split.
  - exists es. split; [done|]. split; [done|]. by intros past e future _.
  - apply Hq; [done|]. by rewrite marks_by_app, (marks_by_unmarked es), app_nil_r.
Qed.

Lemma ends_silent {A} K w (m : Work A) (Q : result A -> list work_event -> world -> Prop) :
  silent m -> (forall r K' w', marks_by K' = marks_by K -> Q r K' w') -> ends any K w m Q.
Proof. intros Hm Hq. apply ends_silent_run; auto. Qed.

(** A call of the host with its mark, if it has one. *)
Lemma ends_call {A} K w (c : result A -> host_call) answer
    (Q : result A -> list work_event -> world -> Prop) :
  (forall r K' w',
     marks_by K' = match mark_of (Host (c r)) with Some m => marks_by K ++ [m] | None => marks_by K end ->
     Host (c r) ∈ K' -> Q r K' w') ->
  ends any K w (hosted c answer) Q.
Proof.
  intros Hq. apply (ends_hosted any any_more); [done|]. intros r w'. apply Hq; [|set_solver].
  rewrite marks_by_app. unfold marks_by at 2. simpl. destruct (mark_of _); [done|apply app_nil_r].
Qed.

(** The same of the store, with the run of the operation. *)
Lemma ends_store {A} K w (c : result A -> store_call) (m : Tx A)
    (Q : result A -> list work_event -> world -> Prop) :
  (forall s r K' w', m s = (r, w_store w') ->
     marks_by K' = marks_by K ++ option_list (mark_of (Stored (c r) (st_db s) (st_db (w_store w')))) -> Q r K' w') ->
  ends any K w (stored c m) Q.
Proof.
  intros Hq. apply (ends_stored any any_more); [done|]. intros s r w' Hm. apply (Hq s); [done|].
  rewrite marks_by_app. unfold marks_by at 2. simpl. by destruct (mark_of _).
Qed.
End Marks.

Section Attempts.
Context `{Platform} `{WorkerHost}.

Lemma ends_attempt {A} G K w (m : Work A) (Q : result (result A) -> list work_event -> world -> Prop) :
  ends G K w m (fun r K' w' => Q (Ok r) K' w') -> ends G K w (attempt m) Q.
Proof.
  intros Hm. unfold attempt. apply ends_catch, ends_bind. eapply ends_weaken; [|exact Hm].
  intros [a|e] K' w' Hq; by apply ends_ret.
Qed.
End Attempts.
