(* ===== verification/Activation.v ===== *)
(** * Activation of a deployment

    [apps/worker/src/runtime/activation-manager.ts]: a deployment becomes
    reachable by acquiring a lease, starting the instance the lease created (or
    waiting for whoever starts it), and keeping the lease only when the instance
    is ready; two sweeps resume the starts a crash interrupted and settle the
    instances whose process is gone.  The [now] and [limit] a caller may pass are
    the ones the worker leaves out, but for the limits. *)

From stdpp Require Import pretty.
From S2P Require Import Prelude Strings Schema Store Tables Sample Jobs Runtime Sessions Schedules Deployments Sources Worker.

Open Scope eve_scope.
Open Scope string_scope.

Section Activation.
Context `{Platform} `{WorkerHost}.

(** [DeploymentActivationInput] and [DeploymentActivationOptions] *)
Record activation_request : Type := mk_activation_request {
  ar_deployment : Deployment.deployment_row; ar_runtime : runtime_adapter;
  ar_startInput : process_start; ar_kind : lease_kind; ar_ownerId : string
}.

Record activation_options : Type := mk_activation_options {
  ao_leaseTtlMs : option Z; ao_readyTimeoutMs : option Z; ao_pollIntervalMs : option Z;
  ao_drainRetryMs : option Z; ao_maxDrainRetryMs : option Z;
  ao_waitForHealth : option wait_for_health
}.

Definition ready_timeout (options : activation_options) : Z :=
  default 30000%Z (ao_readyTimeoutMs options).

(** ** The calls of the store *)

Definition acquire (input : acquire_input) : Work activation :=
  stored (fun r => AcquireLease (match r with
                                 | Ok a => Some (ActivationLease.id (act_lease a))
                                 | Err _ => None
                                 end)) (acquireActivationLease input).

(** [store.releaseActivationLease(id, now())] *)
Definition release_lease (leaseId : string) : Work unit :=
  now <- date_now ;;
  _lease <- stored (fun _ => ReleaseLease leaseId) (releaseActivationLease leaseId (Some now)) ;;
  ret tt.

Definition update_instance (runtimeInstanceId : string) (st : runtime_status)
    (error : option (option string)) (now : time) : Work unit :=
  _row <- op "updateRuntimeInstance"
    (updateRuntimeInstance runtimeInstanceId (mk_runtime_update st None None error) (Some now)) ;;
  ret tt.

(** [store.updateRuntimeInstance(id, { status: "failed", error: message }, now())] *)
Definition fail_instance (runtimeInstanceId message : string) : Work unit :=
  now <- date_now ;;
  update_instance runtimeInstanceId RuntimeStatus.failed (Some (Some message)) now.

Definition transition (deploymentId : string) (to : deployment_status)
    (from : list deployment_status) : Work (option Deployment.deployment_row) :=
  op "transitionDeploymentStatus" (transitionDeploymentStatus deploymentId to from).

(** ** The port of a start *)

(** The endpoint of the newest other instance that has one. *)
Definition prior_port (currentId : string) (instances : list RuntimeInstance.runtime_instance_row)
    : option Z :=
  r ← head (base.filter (fun r => RuntimeInstance.id r <> currentId /\
                                  is_Some (RuntimeInstance.endpointPort r)) (reverse instances));
  RuntimeInstance.endpointPort r.

Definition cannot_rebind (r : runtime_adapter) (preferred : Z) : error :=
  Error ("Deployment port " +:+ pretty preferred +:+ " is reserved by another live RuntimeInstance and the "
         +:+ ra_name r +:+ " runtime cannot rebind a Deployment to a different port.").

(** Whether the preferred port is ours to adopt: our unit holds it, or nobody does. *)
Definition preferred_usable (r : runtime_adapter) (processName : string) (preferred : Z) : Work bool :=
  ownership <- match ra_verifyPortOwnership r with
               | Some verify => verify_port r verify processName preferred
               | None => ret PortUnbound
               end ;;
  match ownership with
  | PortOwned => ret true
  | PortUnbound => isTcpPortAvailable "127.0.0.1" preferred
  | PortForeign _ => ret false
  end.

Definition resolveInstancePort (r : runtime_adapter) (deployment : Deployment.deployment_row)
    (processName : string) (current : RuntimeInstance.runtime_instance_row) : Work Z :=
  match RuntimeInstance.endpointPort current with
  | Some port => ret port
  | None =>
      priorInstances <- op "listDeploymentRuntimeInstances"
        (listDeploymentRuntimeInstances (Deployment.id deployment)) ;;
      let preferred := default (Deployment.hostPort deployment)
                         (prior_port (RuntimeInstance.id current) priorInstances) in
      if negb (bool_decide (ra_name r = "systemd")) then
        reserved <- reserve_port (RuntimeInstance.id current) preferred ;;
        if reserved : bool then ret preferred else throw (cannot_rebind r preferred)
      else
        usable <- preferred_usable r processName preferred ;;
        dbReserved <- op "listReservedDeploymentHostPorts" listReservedDeploymentHostPorts ;;
        allocateReservedInstancePort (RuntimeInstance.id current)
          (mk_allocation (if usable : bool then Some preferred else None) None None dbReserved)
  end.

(** ** The start *)

Definition runtime_status_text (st : runtime_status) : string :=
  match st with
  | RuntimeStatus.starting => "starting"
  | RuntimeStatus.ready => "ready"
  | RuntimeStatus.draining => "draining"
  | RuntimeStatus.stopped => "stopped"
  | RuntimeStatus.failed => "failed"
  end.

(** The input of the start: the resolved port, and the instance's own id. *)
Definition instance_start (startInput : process_start) (runtimeInstanceId : string) (port : Z)
    : process_start :=
  startInput <| ps_port := port |>
    <| ps_env ::= insert "EVELAND_RUNTIME_INSTANCE_ID" runtimeInstanceId |>.

(** The body of the [try] of [startRuntimeInstance]. *)
Definition start_instance (r : runtime_adapter) (deployment : Deployment.deployment_row)
    (startInput : process_start) (options : activation_options)
    (current : RuntimeInstance.runtime_instance_row) : Work RuntimeInstance.runtime_instance_row :=
  let id := RuntimeInstance.id current in
  port <- resolveInstancePort r deployment (ps_processName startInput) current ;;
  ensure_or_start r (instance_start startInput id port) ;;
  waitForOwnedHttpHealth r (ps_processName startInput) (ao_waitForHealth options)
    (mk_health_input "127.0.0.1" port (ready_timeout options)) ;;
  now <- date_now ;;
  ready <- op "updateRuntimeInstance" (updateRuntimeInstance id
             (mk_runtime_update RuntimeStatus.ready (Some (Some "127.0.0.1")) (Some (Some port))
                (Some None)) (Some now)) ;;
  some_or ready (Error "RuntimeInstance disappeared during activation.").

Definition startRuntimeInstance (r : runtime_adapter) (deployment : Deployment.deployment_row)
    (startInput : process_start) (runtimeInstanceId : string) (options : activation_options)
    : Work RuntimeInstance.runtime_instance_row :=
  current <- op "getRuntimeInstance" (getRuntimeInstance runtimeInstanceId) ;;
  match current with
  | Some current =>
      if negb (bool_decide (RuntimeInstance.deploymentId current = Deployment.id deployment))
      then throw (Error "RuntimeInstance does not belong to the requested Deployment.")
      else if has_status RuntimeStatus.ready current then ret current
      else if negb (has_status RuntimeStatus.starting current)
      then throw (Error ("RuntimeInstance cannot start from "
                         +:+ runtime_status_text (RuntimeInstance.status current) +:+ "."))
      else
        try_catch (start_instance r deployment startInput options current)
          (fun e => fail_instance runtimeInstanceId (error_text e) ;; throw e)
  | None => throw (Error "RuntimeInstance does not belong to the requested Deployment.")
  end.

(** ** Activation *)

Definition isRuntimeInstanceDrainingError (e : error) : bool :=
  match e with
  | RuntimeInstanceDrainingError => true
  | Error m => bool_decide (m = "RuntimeInstance is draining; retry activation after it stops.")
  | _ => false
  end.

Definition drain_timeout (readyTimeoutMs : Z) : error :=
  Error ("Runtime activation timed out after " +:+ pretty readyTimeoutMs
         +:+ "ms waiting for draining to finish.").

(** [for (;;)]: the acquisition waits for an instance that drains. *)
Fixpoint acquire_loop (fuel : nat) (request : activation_request) (leaseTtlMs readyTimeoutMs : Z)
    (drainDeadline : time) (drainRetryMs maxDrainRetryMs : Z) : Work activation :=
  match fuel with
  | O => stuck
  | S fuel =>
      attemptNow <- date_now ;;
      claimed <- try_catch
        (a <- acquire (mk_acquire_input (Deployment.id (ar_deployment request)) (ar_kind request)
                         (ar_ownerId request) (attemptNow + leaseTtlMs)%Z (Some attemptNow)) ;;
         ret (Ok a))
        (fun e => ret (Err e)) ;;
      match claimed with
      | Ok a => ret a
      | Err e =>
          if negb (isRuntimeInstanceDrainingError e) then throw e
          else
            now <- date_now ;;
            let remainingMs := (drainDeadline - now)%Z in
            if (remainingMs <=? 0)%Z then throw (drain_timeout readyTimeoutMs)
            else
              delay (Z.min drainRetryMs remainingMs) ;;
              acquire_loop fuel request leaseTtlMs readyTimeoutMs drainDeadline
                (Z.min maxDrainRetryMs (drainRetryMs * 2)) maxDrainRetryMs
      end
  end.

(** A deployment that is gone, or that an archive has claimed. *)
Definition archive_refusal (deploymentId : string) (live : option Deployment.deployment_row)
    : option string :=
  match live with
  | None => Some ("Deployment " +:+ deploymentId +:+ " no longer exists.")
  | Some d =>
      match Deployment.status d with
      | DeploymentStatus.archiving | DeploymentStatus.archived =>
          Some ("Deployment " +:+ deploymentId +:+ " is " +:+ status_text (Deployment.status d)
                +:+ " and cannot be activated.")
      | _ => None
      end
  end.

(** The wait for the instance someone else starts. *)
Fixpoint await_ready (fuel : nat) (claimed : activation) (deadline : time)
    (readyTimeoutMs pollIntervalMs : Z) : Work activation :=
  match fuel with
  | O => stuck
  | S fuel =>
      now <- date_now ;;
      if (now <? deadline)%Z then
        found <- op "getRuntimeInstance"
          (getRuntimeInstance (RuntimeInstance.id (act_runtimeInstance claimed))) ;;
        match found with
        | None => throw (Error "RuntimeInstance disappeared during activation.")
        | Some current =>
            if has_status RuntimeStatus.ready current
            then ret (mk_activation (act_lease claimed) current (act_starter claimed))
            else if has_status RuntimeStatus.failed current || has_status RuntimeStatus.stopped current
            then throw (Error (default ("Runtime activation ended in "
                                          +:+ runtime_status_text (RuntimeInstance.status current) +:+ ".")
                                 (RuntimeInstance.lastError current)))
            else
              delay pollIntervalMs ;;
              await_ready fuel claimed deadline readyTimeoutMs pollIntervalMs
        end
      else throw (Error ("Runtime activation timed out after " +:+ pretty readyTimeoutMs +:+ "ms."))
  end.

(** What follows the acquisition. *)
Definition complete_activation (request : activation_request) (options : activation_options)
    (claimed : activation) : Work activation :=
  let instance := act_runtimeInstance claimed in
  let did := Deployment.id (ar_deployment request) in
  liveDeployment <- op "getDeployment" (getDeployment did) ;;
  match archive_refusal did liveDeployment with
  | Some refusal =>
      (if act_starter claimed then fail_instance (RuntimeInstance.id instance) refusal else ret tt) ;;
      release_lease (ActivationLease.id (act_lease claimed)) ;;
      throw (Error refusal)
  | None =>
      if has_status RuntimeStatus.ready instance then ret claimed
      else if act_starter claimed then
        try_catch
          (ready <- startRuntimeInstance (ar_runtime request) (ar_deployment request)
                      (ar_startInput request) (RuntimeInstance.id instance) options ;;
           ret (mk_activation (act_lease claimed) ready (act_starter claimed)))
          (fun e =>
             fail_instance (RuntimeInstance.id instance) (error_text e) ;;
             release_lease (ActivationLease.id (act_lease claimed)) ;;
             throw e)
      else
        try_catch
          (now <- date_now ;;
           await_ready (wait_fuel (ready_timeout options)) claimed (now + ready_timeout options)%Z
             (ready_timeout options) (default 10%Z (ao_pollIntervalMs options)))
          (fun e => release_lease (ActivationLease.id (act_lease claimed)) ;; throw e)
  end.

Definition ensureDeploymentActive (request : activation_request) (options : activation_options)
    : Work activation :=
  start <- date_now ;;
  claimed <- acquire_loop (wait_fuel (ready_timeout options)) request
               (default 180000%Z (ao_leaseTtlMs options)) (ready_timeout options)
               (start + ready_timeout options)%Z (default 25%Z (ao_drainRetryMs options))
               (default 500%Z (ao_maxDrainRetryMs options)) ;;
  complete_activation request options claimed.

(** ** The sweeps *)

(** The body of the [for] of [recoverStartingRuntimeInstances]. *)
Definition recover_instance (now : time) (staleJobAfterMs : Z) (recovered : nat)
    (instance : RuntimeInstance.runtime_instance_row) : Work nat :=
  found <- op "getDeployment" (getDeployment (RuntimeInstance.deploymentId instance)) ;;
  match found with
  | None =>
      update_instance (RuntimeInstance.id instance) RuntimeStatus.failed
        (Some (Some "Deployment no longer exists.")) now ;;
      ret recovered
  | Some deployment =>
      _job <- op "enqueueDeploymentActivation"
        (enqueueDeploymentActivation (Deployment.projectId deployment) (Deployment.id deployment)
           (RuntimeInstance.id instance) (Some now) staleJobAfterMs) ;;
      ret (S recovered)
  end.

Definition recoverStartingRuntimeInstances (limit staleJobAfterMs : option Z) : Work nat :=
  now <- date_now ;;
  instances <- op "listRuntimeInstances"
    (listRuntimeInstances [RuntimeStatus.starting] (default 25%Z limit)) ;;
  fold_m (recover_instance now (default 300000%Z staleJobAfterMs)) instances 0%nat.

Definition stillReadyRuntimeInstance (runtimeInstanceId : string) : Work bool :=
  current <- op "getRuntimeInstance" (getRuntimeInstance runtimeInstanceId) ;;
  ret (match current with Some r => has_status RuntimeStatus.ready r | None => false end).

(** The executions and sessions an instance leaves behind. *)
Definition fail_interrupted (runtimeInstanceId reason : string) (now : time) : Work (nat * nat) :=
  failedExecutions <- op "failScheduleExecutionsForRuntimeInstance"
    (failScheduleExecutionsForRuntimeInstance runtimeInstanceId reason (Some now)) ;;
  failedSessions <- op "failRunningSessionsForRuntimeInstance"
    (failRunningSessionsForRuntimeInstance runtimeInstanceId reason (Some now)) ;;
  ret (failedExecutions, failedSessions).

(** What a sweeper may write a deployment's status over. *)
Definition sweepable : list deployment_status := [DeploymentStatus.running; DeploymentStatus.draining].

Definition interrupted_reason (id st : string) : string :=
  "RuntimeInstance " +:+ id +:+ " " +:+ st
  +:+ " before its active Sessions reached a terminal boundary.".

Definition reconcile_interrupted (now : time) (reconciled : nat)
    (instance : RuntimeInstance.runtime_instance_row) : Work nat :=
  failed <- fail_interrupted (RuntimeInstance.id instance)
    (interrupted_reason (RuntimeInstance.id instance)
       (runtime_status_text (RuntimeInstance.status instance))) now ;;
  ret (if bool_decide (0 < failed.1)%nat || bool_decide (0 < failed.2)%nat
       then S reconciled else reconciled).

(** The instance, the deployment and what they leave behind, settled as [to]. *)
Definition retire_instance (instance : RuntimeInstance.runtime_instance_row) (deploymentId : string)
    (st : runtime_status) (to : deployment_status) (error : option string) (reason : string)
    (now : time) : Work unit :=
  update_instance (RuntimeInstance.id instance) st (Some error) now ;;
  _moved <- transition deploymentId to sweepable ;;
  _failed <- fail_interrupted (RuntimeInstance.id instance) reason now ;;
  ret tt.

Definition held_by (instance : RuntimeInstance.runtime_instance_row) (port : Z) (holder : string)
    : string :=
  "RuntimeInstance " +:+ RuntimeInstance.id instance +:+ " port " +:+ pretty port
  +:+ " is held by " +:+ holder +:+ "; its traffic was being served by a foreign process.".

(** The body of the second [for] of [reconcileRuntimeInstances]. *)
Definition reconcile_ready (runtimeForKind : string -> result runtime_adapter) (now : time)
    (reconciled : nat) (instance : RuntimeInstance.runtime_instance_row) : Work nat :=
  found <- op "getDeployment" (getDeployment (RuntimeInstance.deploymentId instance)) ;;
  match found with
  | None =>
      update_instance (RuntimeInstance.id instance) RuntimeStatus.failed
        (Some (Some "Deployment no longer exists.")) now ;;
      ret (S reconciled)
  | Some deployment =>
      runtime <- lift (runtimeForKind (Deployment.runtimeKind deployment)) ;;
      let name := Deployment.containerName deployment in
      st <- inspectProcess runtime name ;;
      match st with
      | ProcessReady | ProcessStarting =>
          match ra_verifyPortOwnership runtime with
          | None => ret reconciled
          | Some verify =>
              let port := default (Deployment.hostPort deployment)
                            (RuntimeInstance.endpointPort instance) in
              ownership <- verify_port runtime verify name port ;;
              match ownership with
              | PortForeign holder =>
                  still <- stillReadyRuntimeInstance (RuntimeInstance.id instance) ;;
                  if still : bool then
                    let reason := held_by instance port holder in
                    retire_instance instance (Deployment.id deployment) RuntimeStatus.failed
                      DeploymentStatus.failed (Some reason) reason now ;;
                    ret (S reconciled)
                  else ret reconciled
              | _ => ret reconciled
              end
          end
      | _ =>
          still <- stillReadyRuntimeInstance (RuntimeInstance.id instance) ;;
          if still : bool then
            let failed := match st with ProcessFailed => true | _ => false end in
            retire_instance instance (Deployment.id deployment)
              (if failed then RuntimeStatus.failed else RuntimeStatus.stopped)
              (if failed then DeploymentStatus.failed else DeploymentStatus.stopped)
              (if failed then Some "Runtime process inspection reported failure." else None)
              (interrupted_reason (RuntimeInstance.id instance)
                 (if failed then "failed" else "stopped")) now ;;
            ret (S reconciled)
          else ret reconciled
      end
  end.

Definition reconcileRuntimeInstances (runtimeForKind : string -> result runtime_adapter)
    (limit : option Z) : Work nat :=
  now <- date_now ;;
  let limit := default 100%Z limit in
  interrupted <- op "listRuntimeInstances"
    (listRuntimeInstances [RuntimeStatus.stopped; RuntimeStatus.failed] limit) ;;
  expired <- op "failExpiredScheduleExecutions" (failExpiredScheduleExecutions now (Some limit)) ;;
  reconciled <- fold_m (reconcile_interrupted now) interrupted expired ;;
  instances <- op "listRuntimeInstances" (listRuntimeInstances [RuntimeStatus.ready] limit) ;;
  fold_m (reconcile_ready runtimeForKind now) instances reconciled.
End Activation.

(** ** Facts *)

#[local] Open Scope list_scope.

(** No two rows hold one key of an index: what the updates of the activation
    rely on never to be refused. *)
Definition rows_distinct (d : database) : Prop :=
  unique_ok activation_leases_deployment_kind_owner_idx (activationLeases d) /\
  unique_ok runtime_instances_deployment_generation_idx (runtimeInstances d).

Section Distinct.
Context `{Platform}.

Lemma distinct_instances d r k :
  (forall u, u ∈ tbl_uniques runtime_instances_table -> clashes u (runtimeInstances d) k r = false) ->
  rows_distinct d -> rows_distinct (tbl_set runtime_instances_table (insert k r) d).
Proof.
  intros Hu [Hl Hg]. split; [done|]. simpl. apply unique_insert; [apply index_on_symmetric| |done].
  apply Hu. apply elem_of_cons. by left.
Qed.

Lemma distinct_leases d r k :
  (forall u, u ∈ tbl_uniques activation_leases_table -> clashes u (activationLeases d) k r = false) ->
  rows_distinct d -> rows_distinct (tbl_set activation_leases_table (insert k r) d).
Proof.
  intros Hu [Hl Hg]. split; [|done]. simpl. apply unique_insert; [apply index_on_symmetric| |done].
  apply Hu. by apply list_elem_of_singleton.
Qed.

Lemma moves_distinct_instance_insert r :
  moves (preserves rows_distinct) (insert_row runtime_instances_table r).
Proof. apply moves_insert_row_uniq; [apply _|]. intros d _ Hu. exact (distinct_instances _ _ _ Hu). Qed.

Lemma moves_distinct_instance k p f :
  moves (preserves rows_distinct) (update_key runtime_instances_table k p f).
Proof. apply moves_update_key_uniq; [apply _|]. intros d r _ _ Hu. exact (distinct_instances _ _ _ Hu). Qed.

Lemma moves_distinct_lease_insert r :
  moves (preserves rows_distinct) (insert_row activation_leases_table r).
Proof. apply moves_insert_row_uniq; [apply _|]. intros d _ Hu. exact (distinct_leases _ _ _ Hu). Qed.

Lemma moves_distinct_lease k p f :
  moves (preserves rows_distinct) (update_key activation_leases_table k p f).
Proof. apply moves_update_key_uniq; [apply _|]. intros d r _ _ Hu. exact (distinct_leases _ _ _ Hu). Qed.
#[local] Hint Resolve moves_distinct_instance moves_distinct_lease moves_distinct_instance_insert
  moves_distinct_lease_insert : moves.

Lemma distinct_acquire input : moves (preserves rows_distinct) (acquireActivationLease input).
Proof. unfold acquireActivationLease, upsert_lease, upsert. walk. Qed.

Lemma distinct_update k u now : moves (preserves rows_distinct) (updateRuntimeInstance k u now).
Proof. unfold updateRuntimeInstance. walk. Qed.

Lemma distinct_reserve k port : moves (preserves rows_distinct) (reserveRuntimeInstancePort k port).
Proof. unfold reserveRuntimeInstancePort. walk. Qed.

Lemma distinct_release k now : moves (preserves rows_distinct) (releaseActivationLease k now).
Proof. unfold releaseActivationLease. walk. Qed.

Lemma steady_acquire input : steady (acquireActivationLease input).
Proof. unfold acquireActivationLease, upsert_lease. steadily. Qed.
Lemma steady_update k u now : steady (updateRuntimeInstance k u now).
Proof. unfold updateRuntimeInstance. stroll. Qed.
Lemma steady_release k now : steady (releaseActivationLease k now).
Proof. unfold releaseActivationLease. stroll. Qed.

(** ** Updates that are never refused *)

(** A row that fails or stops leaves the index of live ports and keeps its
    generation. *)
Lemma dead_update_clear d k r st error now :
  rows_distinct d -> runtimeInstances d !! k = Some r -> runtime_live st = false ->
  forall u, u ∈ tbl_uniques runtime_instances_table ->
    clashes u (tbl runtime_instances_table d) k
      (apply_runtime_update (mk_runtime_update st None None error) now r) = false.
Proof.
  intros [_ Hg] Hk Hst u Hu. apply clashes_false. intros k' r' Hk' Hne.
  apply elem_of_cons in Hu as [->| ->%list_elem_of_singleton].
  - exact (Hg k k' r r' Hk Hk' (not_eq_sym Hne)).
  - unfold runtime_instances_live_port_idx, index_on, same_key. simpl. by rewrite Hst.
Qed.

Lemma update_instance_dead k st error now s :
  rows_distinct (st_db s) -> runtime_live st = false ->
  exists o s', updateRuntimeInstance k (mk_runtime_update st None None error) (Some now) s = (Ok o, s') /\
    (forall r, runtimeInstances (st_db s') !! k = Some r -> RuntimeInstance.status r = st) /\
    runtimeInstances (st_db s') !! k
      = apply_runtime_update (mk_runtime_update st None None error) now
          <$> (runtimeInstances (st_db s) !! k).
Proof.
  intros Hd Hst. unfold updateRuntimeInstance. rewrite (bind_step _ _ _ now s eq_refl).
  destruct (runtimeInstances (st_db s) !! k) as [r|] eqn:Hk.
  - rewrite (update_key_succeeds runtime_instances_table _ _ _ s r Hk eq_refl
               (dead_update_clear _ _ _ _ _ _ Hd Hk Hst)).
    do 2 eexists. split; [reflexivity|]. simpl. rewrite lookup_insert_eq. split; [|done].
    by intros r' [= <-].
  - unfold update_key, read, bind, gets. simpl. rewrite Hk. do 2 eexists. split; [reflexivity|].
    simpl. rewrite Hk. by split.
Qed.

(** Releasing a lease leaves it released, whoever released it. *)
Lemma release_lease_ok k now s :
  rows_distinct (st_db s) ->
  exists o s', releaseActivationLease k (Some now) s = (Ok o, s') /\
    forall l, activationLeases (st_db s') !! k = Some l -> ActivationLease.releasedAt l <> None.
Proof.
  intros [Hu _]. unfold releaseActivationLease. rewrite (bind_step _ _ _ now s eq_refl).
  destruct (activationLeases (st_db s) !! k) as [l|] eqn:Hk.
  - destruct (ActivationLease.releasedAt l) as [t|] eqn:Hr.
    + unfold update_key, bind, read, gets. simpl. rewrite Hk, bool_decide_eq_false_2 by by rewrite Hr.
      do 2 eexists. split; [reflexivity|]. simpl. rewrite Hk. intros l' [= <-]. by rewrite Hr.
    + unfold bind at 1. erewrite update_key_succeeds;
        [|exact Hk|by apply bool_decide_eq_true_2|].
      * do 2 eexists. split; [reflexivity|]. simpl. rewrite lookup_insert_eq. by intros l' [= <-].
      * intros u ->%list_elem_of_singleton. apply clashes_false. intros k' r' Hk' Hne.
        exact (Hu k k' l r' Hk Hk' (not_eq_sym Hne)).
  - unfold update_key, bind, read, gets. simpl. rewrite Hk. do 2 eexists. split; [reflexivity|].
    simpl. by rewrite Hk.
Qed.
End Distinct.

(** ** Runs *)

Lemma date_now_ok `{WorkerHost} w r w' : date_now w = (r, w') -> exists t, r = Ok t.
Proof. intros [= <- <-]. eauto. Qed.

(** ** Activation *)

(** Neither the acquisition nor the renewal or release of a lease, nor the claim
    of a run. *)
Definition quiet (e : work_event) : Prop :=
  match e with
  | Stored (AcquireLease (Some _)) _ _ | Stored (ReleaseLease _) _ _ | Stuck => False
  | Stored (RenewLease _ _) _ _ | Stored (ClaimRun _ _) _ _ => False
  | _ => True
  end.

Section ActivationFacts.
Context `{Platform} `{WorkerHost} (Hfair : fair_others rows_distinct).

Abbreviation calm := (sane (I := rows_distinct) quiet).

Lemma quiet_host c : quiet (Host c).
Proof. done. Qed.

Lemma calm_op {A} name (m : Tx A) :
  steady m -> moves (preserves rows_distinct) m -> within calm (op name m).
Proof. intros. by apply sane_stored. Qed.

Lemma calm_read {A} name (q : database -> A) : within calm (op name (read q)).
Proof. apply calm_op; [apply steady_read|apply moves_read; apply _]. Qed.

Lemma calm_reserve k port : within calm (reserve_port k port).
Proof. apply sane_stored; [done|done|apply steady_reserve|apply distinct_reserve]. Qed.

Lemma calm_update_row k u now : within calm (op "updateRuntimeInstance" (updateRuntimeInstance k u now)).
Proof. apply calm_op; [apply steady_update|apply distinct_update]. Qed.

Lemma calm_hosted {A} (c : result A -> host_call) answer : within calm (hosted c answer).
Proof. by apply sane_hosted. Qed.

Lemma calm_date_now : within calm date_now.
Proof. by apply sane_date_now. Qed.

Lemma calm_delay ms : within calm (delay ms).
Proof. by apply sane_delay. Qed.

Lemma calm_health r name f input : within calm (waitForOwnedHttpHealth r name f input).
Proof. by apply waitForOwnedHttpHealth_sane. Qed.
#[local] Hint Resolve calm_read calm_reserve calm_update_row calm_hosted calm_date_now calm_delay
  calm_health : within.

Lemma calm_probe a port : within calm (isTcpPortAvailable a port).
Proof. apply calm_hosted. Qed.
#[local] Hint Resolve calm_probe : within.

Lemma calm_reserve_first id input ports : within calm (reserve_first id input ports).
Proof.
  induction ports as [|port ports IH]; simpl; [apply within_throw; apply _|].
  unfold candidate_free, taken. stroll.
Qed.

Lemma calm_resolve r dep name current : within calm (resolveInstancePort r dep name current).
Proof.
  unfold resolveInstancePort, preferred_usable, verify_port, listDeploymentRuntimeInstances,
    listReservedDeploymentHostPorts, allocateReservedInstancePort.
  stroll; apply calm_reserve_first.
Qed.

Lemma calm_fail_instance id message : within calm (fail_instance id message).
Proof. unfold fail_instance, update_instance. stroll. Qed.

Lemma calm_start_instance r dep si o current : within calm (start_instance r dep si o current).
Proof. unfold start_instance, ensure_or_start. stroll. apply calm_resolve. Qed.

Lemma calm_startRuntimeInstance r dep si id o : within calm (startRuntimeInstance r dep si id o).
Proof.
  unfold startRuntimeInstance, getRuntimeInstance.
  stroll; first [apply calm_start_instance|apply calm_fail_instance].
Qed.

(** *** The acquisition *)

(** The log of an acquisition: quiet but for the call that was granted. *)
Definition acquired (w : world) (r : result activation) (w' : world) : Prop :=
  match r with
  | Ok a => exists w0 d d', calm w w0 /\
      w_log w' = w_log w0 ++ [Stored (AcquireLease (Some (ActivationLease.id (act_lease a)))) d d'] /\
      (rows_distinct (st_db (w_store w)) -> rows_distinct (st_db (w_store w')))
  | Err e => calm w w'
  end.

Lemma acquired_after w w1 r w' : calm w w1 -> acquired w1 r w' -> acquired w r w'.
Proof.
  intros Hc. destruct r as [a|e]; simpl; [|by intros; etransitivity].
  intros (w0 & d & d' & Hw0 & Hlog & Hi). exists w0, d, d'. split; [by etransitivity|]. split; [done|].
  intros Hd. apply Hi. by apply Hc.
Qed.

(** One attempt. *)
Lemma acquire_attempt input w r w' :
  try_catch (a <- acquire input ;; ret (Ok a)) (fun e => ret (Err e)) w = (r, w') ->
  exists x, r = Ok x /\ acquired w x w' /\ later w w'.
Proof.
  intros Hrun.
  assert (Hs : sane (I := rows_distinct) anything w w').
  { eapply within_run; [|exact Hrun]. stroll.
    apply (sane_stored Hfair); [by intros|apply steady_acquire|apply distinct_acquire]. }
  destruct Hs as (_ & Ht & Hi).
  apply try_catch_run in Hrun as [(x & Hrun & ->)|(e & w1 & Hrun & [= <- <-])].
  - apply bind_run in Hrun as [(e & _ & [=])|(a & w1 & Ha & [= <- <-])].
    exists (Ok a). split; [done|]. split; [|done]. apply stored_run in Ha as (s & _ & _ & Hlog).
    eexists w, _, _. split; [reflexivity|]. split; [exact Hlog|done].
  - exists (Err e). split; [done|]. split; [|done].
    apply bind_run in Hrun as [(e' & Ha & [= ->])|(a & w2 & _ & [=])].
    apply stored_run in Ha as (s & _ & _ & Hlog). split; [|done].
    eexists. split; [exact Hlog|]. by apply Forall_singleton.
Qed.

Lemma acquire_loop_run fuel request ttl ready deadline retry maxRetry w r w' :
  (deadline < st_clock (w_store w) + Z.of_nat fuel)%Z -> 0 < fuel ->
  acquire_loop fuel request ttl ready deadline retry maxRetry w = (r, w') -> acquired w r w'.
Proof.
  revert retry w. induction fuel as [|fuel IH]; intros retry w Hd Hf Hrun; [lia|]. clear Hf.
  simpl in Hrun. apply bind_run in Hrun as [(e & [t Hn]%date_now_ok & ->)|(t & w1 & Hn & Hrun)]; [done|].
  pose proof (within_run _ _ _ _ _ calm_date_now Hn) as Hc1.
  apply bind_run in Hrun as [(e & Ha & ->)|(x & w2 & Ha & Hrun)];
    apply acquire_attempt in Ha as (x' & Hx & Hacq & Ht2); [done|]. injection Hx as <-.
  destruct x as [a|e]; [injection Hrun as <- <-; by eapply acquired_after|].
  destruct (negb (isRuntimeInstanceDrainingError e)).
  { injection Hrun as <- <-. by eapply acquired_after. }
  apply bind_run in Hrun as [(e' & [t' Hn']%date_now_ok & ->)|(t3 & w3 & Hn3 & Hrun)]; [done|].
  pose proof (within_run _ _ _ _ _ calm_date_now Hn3) as Hc3.
  apply (date_now_run Hfair) in Hn3 as ([= ->] & _ & Ht3).
  assert (Hcalm : calm w w3) by (do 2 (etransitivity; [done|]); done).
  destruct (Z.leb_spec (deadline - st_clock (w_store w3)) 0) as [Hle|Hgt]; [by injection Hrun as <- <-|].
  apply bind_run in Hrun as [(e' & Hdl & ->)|(u & w4 & Hdl & Hrun)].
  { apply (delay_run Hfair) in Hdl as [[=] _]. }
  pose proof (within_run _ _ _ _ _ (calm_delay _) Hdl) as Hc4.
  apply (delay_run Hfair) in Hdl as [_ Ht4]. eapply acquired_after; [by etransitivity|].
  pose proof (proj1 (proj2 Hc1)) as Ht1. unfold later in *. eapply IH, Hrun; lia.
Qed.

(** *** The completion *)

Lemma wait_fuel_enough t ms : (t + ms < t + Z.of_nat (wait_fuel ms))%Z.
Proof. unfold wait_fuel. lia. Qed.

Lemma wait_fuel_pos ms : 0 < wait_fuel ms.
Proof. unfold wait_fuel. lia. Qed.

Abbreviation distinct w := (rows_distinct (st_db (w_store w))).

Lemma calm_distinct w w' : calm w w' -> distinct w -> distinct w'.
Proof. intros Hc. apply Hc. Qed.

Lemma fail_instance_runs id message w :
  distinct w -> exists w', fail_instance id message w = (Ok tt, w') /\ calm w w' /\
    (exists d, w_log w' = w_log w ++
       [Stored (StoreCall "updateRuntimeInstance") d (st_db (w_store w'))]) /\
    (forall r, runtimeInstances (st_db (w_store w')) !! id = Some r ->
       RuntimeInstance.status r = RuntimeStatus.failed /\
       RuntimeInstance.lastError r = Some (sanitizeStoredErrorText message)).
Proof.
  intros Hd. destruct (fail_instance id message w) as [r w'] eqn:Hrun.
  pose proof (within_run _ _ _ _ _ (calm_fail_instance id message) Hrun) as Hc.
  unfold fail_instance in Hrun. apply bind_run in Hrun as [(e & [t Hn]%date_now_ok & ->)|(t & w1 & Hn & Hrun)]; [done|].
  pose proof (calm_distinct _ _ (within_run _ _ _ _ _ calm_date_now Hn) Hd) as Hd1.
  apply (date_now_run Hfair) in Hn as (_ & Hlog & _).
  destruct (update_instance_dead id RuntimeStatus.failed (Some (Some message)) t
    (others (w_log w1) (w_store w1))) as (o & s & Hup & Hfailed & Hrow); [by apply Hfair|done|].
  unfold update_instance, op in Hrun.
  apply bind_run in Hrun as [(e & Hs & ->)|(x & w2 & Hs & [= <- <-])].
  - apply stored_run in Hs as (s' & Hs & _ & _). congruence.
  - exists w2. split; [done|]. split; [done|]. apply stored_run in Hs as (s' & Hs & -> & Hl).
    assert (s' = s) as -> by congruence. split; [rewrite Hl, Hlog; by eexists|].
    intros r Hr. split; [by apply Hfailed|]. rewrite Hr in Hrow. symmetry in Hrow.
    apply fmap_Some in Hrow as (r0 & _ & ->). reflexivity.
Qed.

Definition released (leaseId : string) (d : database) : Prop :=
  forall l, activationLeases d !! leaseId = Some l -> ActivationLease.releasedAt l <> None.

Lemma release_lease_runs id w :
  distinct w -> exists w' d, release_lease id w = (Ok tt, w') /\
    w_log w' = w_log w ++ [Stored (ReleaseLease id) d (st_db (w_store w'))] /\
    released id (st_db (w_store w')).
Proof.
  intros Hd. destruct (release_lease id w) as [r w'] eqn:Hrun. unfold release_lease in Hrun.
  apply bind_run in Hrun as [(e & [t Hn]%date_now_ok & ->)|(t & w1 & Hn & Hrun)]; [done|].
  pose proof (calm_distinct _ _ (within_run _ _ _ _ _ calm_date_now Hn) Hd) as Hd1.
  apply (date_now_run Hfair) in Hn as (_ & Hlog & _).
  destruct (release_lease_ok id t (others (w_log w1) (w_store w1))) as (o & s & Hup & Hrel); [by apply Hfair|].
  apply bind_run in Hrun as [(e & Hs & ->)|(x & w2 & Hs & [= <- <-])];
    apply stored_run in Hs as (s' & Hs & Hst & Hl); [congruence|].
  assert (s' = s) as -> by congruence. rewrite Hlog, <- Hst in Hl. rewrite <- Hst in Hrel.
  by do 2 eexists.
Qed.

Lemma await_ready_run fuel claimed deadline ready poll w r w' :
  (deadline < st_clock (w_store w) + Z.of_nat fuel)%Z -> 0 < fuel ->
  await_ready fuel claimed deadline ready poll w = (r, w') ->
  calm w w' /\
  forall a, r = Ok a -> act_lease a = act_lease claimed /\
    RuntimeInstance.status (act_runtimeInstance a) = RuntimeStatus.ready.
Proof.
  revert w. induction fuel as [|fuel IH]; intros w Hd Hf Hrun; [lia|]. clear Hf. simpl in Hrun.
  apply bind_run in Hrun as [(e & [t Hn]%date_now_ok & ->)|(t & w1 & Hn & Hrun)]; [done|].
  pose proof (within_run _ _ _ _ _ calm_date_now Hn) as Hc1.
  apply (date_now_run Hfair) in Hn as ([= ->] & _ & Ht1).
  destruct (Z.ltb_spec (st_clock (w_store w1)) deadline) as [Hlt|Hge]; [|by injection Hrun as <- <-].
  apply bind_run in Hrun as [(e & Hg & ->)|(found & w2 & Hg & Hrun)].
  { by apply stored_run in Hg as (s & [=] & _). }
  pose proof (within_run _ _ _ _ _ (calm_read _ _) Hg) as Hc2.
  assert (Hc : calm w w2) by by etransitivity.
  destruct found as [current|]; [|by injection Hrun as <- <-].
  destruct (has_status RuntimeStatus.ready current) eqn:Hr.
  { injection Hrun as <- <-. split; [done|]. intros a [= <-]. split; [done|].
    by apply bool_decide_eq_true in Hr. }
  destruct (_ || _); [by injection Hrun as <- <-|].
  apply bind_run in Hrun as [(e & Hdl & ->)|(u & w3 & Hdl & Hrun)].
  { by apply (delay_run Hfair) in Hdl as [[=] _]. }
  pose proof (within_run _ _ _ _ _ (calm_delay _) Hdl) as Hc3.
  apply (delay_run Hfair) in Hdl as [_ Ht3]. pose proof (proj1 (proj2 Hc2)) as Ht2. unfold later in *.
  apply IH in Hrun as [Hc4 Ha]; [|lia..]. split; [|done]. by do 2 (etransitivity; [done|]).
Qed.

(** What follows an acquisition either returns the instance ready, or throws
    with the release of the lease as its last act. *)
Definition completed (claimed : activation) (w : world) (r : result activation) (w' : world) : Prop :=
  match r with
  | Ok a => calm w w' /\ act_lease a = act_lease claimed /\
      RuntimeInstance.status (act_runtimeInstance a) = RuntimeStatus.ready
  | Err _ => exists w0 d, calm w w0 /\
      w_log w' = w_log w0 ++
        [Stored (ReleaseLease (ActivationLease.id (act_lease claimed))) d (st_db (w_store w'))] /\
      released (ActivationLease.id (act_lease claimed)) (st_db (w_store w'))
  end.

Lemma completed_release claimed e w r w' w1 :
  distinct w -> calm w w1 ->
  (release_lease (ActivationLease.id (act_lease claimed)) ;; throw e) w1 = (r, w') ->
  completed claimed w r w'.
Proof.
  intros Hd Hc Hrun. destruct (release_lease_runs (ActivationLease.id (act_lease claimed)) w1)
    as (w2 & d & Hrel & Hlog & Hdone); [by eapply calm_distinct|].
  rewrite (bind_step _ _ _ _ _ Hrel) in Hrun. injection Hrun as <- <-. by exists w1, d.
Qed.

Lemma startRuntimeInstance_ready r dep si id o w row w' :
  startRuntimeInstance r dep si id o w = (Ok row, w') -> RuntimeInstance.status row = RuntimeStatus.ready.
Proof.
  intros Hrun. apply bind_ok in Hrun as ([current|] & w1 & _ & Hrun); [|done].
  destruct (negb (bool_decide (_ = Deployment.id dep))); [done|].
  destruct (has_status RuntimeStatus.ready current) eqn:Hr.
  { injection Hrun as <- <-. by apply bool_decide_eq_true in Hr. }
  destruct (negb _); [done|].
  apply try_catch_run in Hrun as [(a & Hrun & [= <-])|(e & w2 & _ & Hrun)].
  2: { by apply bind_ok in Hrun as (u & w3 & _ & [=]). }
  unfold start_instance in Hrun. do 4 (apply bind_ok in Hrun as (? & ? & _ & Hrun)).
  apply bind_ok in Hrun as (o' & w3 & Hup & [-> <-]%some_or_ok).
  apply stored_run in Hup as (s & Hup & _ & _). unfold updateRuntimeInstance in Hup.
  apply bind_ok in Hup as (t & s1 & _ & Hup).
  apply update_key_ok in Hup as [([=] & _)|(row0 & _ & _ & [= ->] & _)]. done.
Qed.

Lemma complete_activation_run request options claimed w r w' :
  distinct w -> complete_activation request options claimed w = (r, w') -> completed claimed w r w'.
Proof.
  intros Hd Hrun. unfold complete_activation in Hrun.
  apply bind_run in Hrun as [(e & Hg & ->)|(live & w1 & Hg & Hrun)].
  { by apply stored_run in Hg as (s & [=] & _). }
  pose proof (within_run _ _ _ _ _ (calm_read _ _) Hg) as Hc1.
  destruct (archive_refusal _ live) as [refusal|].
  { destruct (act_starter claimed).
    - destruct (fail_instance_runs (RuntimeInstance.id (act_runtimeInstance claimed)) refusal w1)
        as (w2 & Hf & Hc2 & _); [by eapply calm_distinct|].
      rewrite (bind_step _ _ _ _ _ Hf) in Hrun. eapply completed_release; [done| |exact Hrun].
      by etransitivity.
    - rewrite (bind_step (ret tt) _ w1 tt w1 eq_refl) in Hrun. by eapply completed_release. }
  destruct (has_status RuntimeStatus.ready _) eqn:Hr.
  { injection Hrun as <- <-. split; [done|]. split; [done|]. by apply bool_decide_eq_true in Hr. }
  destruct (act_starter claimed); apply try_catch_run in Hrun as [(a & Hrun & ->)|(e & w2 & Hrun & Hh)].
  - apply bind_run in Hrun as [(e & _ & [=])|(row & w2 & Hs & [= <- <-])].
    pose proof (within_run _ _ _ _ _ (calm_startRuntimeInstance _ _ _ _ _) Hs) as Hc2.
    split; [by etransitivity|]. split; [done|]. by eapply startRuntimeInstance_ready.
  - apply bind_run in Hrun as [(e' & Hs & _)|(row & w3 & _ & [=])].
    pose proof (within_run _ _ _ _ _ (calm_startRuntimeInstance _ _ _ _ _) Hs) as Hc2.
    assert (Hc : calm w w2) by by etransitivity.
    destruct (fail_instance_runs (RuntimeInstance.id (act_runtimeInstance claimed)) (error_text e) w2)
      as (w3 & Hf & Hc3 & _); [by eapply calm_distinct|].
    rewrite (bind_step _ _ _ _ _ Hf) in Hh. eapply completed_release; [done| |exact Hh]. by etransitivity.
  - apply bind_run in Hrun as [(e & _ & [=])|(t & w2 & Hn & Hrun)].
    pose proof (within_run _ _ _ _ _ calm_date_now Hn) as Hc2.
    apply (date_now_run Hfair) in Hn as ([= ->] & _ & _).
    apply await_ready_run in Hrun as [Hc3 Ha]; [|apply wait_fuel_enough|apply wait_fuel_pos].
    split; [by do 2 (etransitivity; [done|])|]. by apply Ha.
  - assert (Hc : calm w w2).
    { apply bind_run in Hrun as [(e' & [t [=]]%date_now_ok & _)|(t & w3 & Hn & Hrun)].
      pose proof (within_run _ _ _ _ _ calm_date_now Hn) as Hc2.
      apply (date_now_run Hfair) in Hn as ([= ->] & _ & _).
      apply await_ready_run in Hrun as [Hc3 _]; [|apply wait_fuel_enough|apply wait_fuel_pos].
      by do 2 (etransitivity; [done|]). }
    by eapply completed_release.
Qed.

(** C20. Activation settles. Whatever the rest of the system and the host do,
    as long as time goes forward and no two rows share a key, an activation
    ends - no loop of it runs out of turns - and either returns an instance that
    is ready with the one lease it acquired, unreleased by it, or throws; if it
    had acquired a lease, the last thing it did was to release it. *)
Theorem ensureDeploymentActive_settles request options w r w' :
  rows_distinct (st_db (w_store w)) ->
  ensureDeploymentActive request options w = (r, w') ->
  exists es, w_log w' = w_log w ++ es /\ (Stuck ∉ es) /\
  match r with
  | Ok a =>
      RuntimeInstance.status (act_runtimeInstance a) = RuntimeStatus.ready /\
      (exists d d', Stored (AcquireLease (Some (ActivationLease.id (act_lease a)))) d d' ∈ es) /\
      (forall id d d', ~ Stored (ReleaseLease id) d d' ∈ es)
  | Err _ =>
      forall id d d', Stored (AcquireLease (Some id)) d d' ∈ es ->
        (exists d, last es = Some (Stored (ReleaseLease id) d (st_db (w_store w')))) /\
        released id (st_db (w_store w'))
  end.
Proof.
  intros Hd Hrun. apply bind_run in Hrun as [(e & [t Hn]%date_now_ok & ->)|(t & w1 & Hn & Hrun)]; [done|].
  pose proof (within_run _ _ _ _ _ calm_date_now Hn) as Hc1.
  apply (date_now_run Hfair) in Hn as ([= ->] & _ & _).
  apply bind_run in Hrun as [(e & Hacq & ->)|(a & w2 & Hacq & Hrun)];
    (apply acquire_loop_run in Hacq; [|apply wait_fuel_enough|apply wait_fuel_pos]).
  - assert (Hc : calm w w') by by etransitivity.
    destruct Hc as ((es & Hlog & Hq) & _). exists es. split; [done|].
    rewrite Forall_forall in Hq. split; [intros He; exact (Hq _ He)|].
    intros id d d' He. exact (False_ind _ (Hq _ He)).
  - destruct Hacq as (w0 & d & d' & Hc0 & Hlog2 & Hd2).
    assert (Hc : calm w w0) by by etransitivity. destruct Hc as ((es & Hlog & Hq) & _).
    apply complete_activation_run in Hrun; [|by apply Hd2, Hc1].
    set (ev := Stored _ _ _) in Hlog2. destruct r as [a'|e].
    + destruct Hrun as (((fs & Hlog' & Hq') & _) & Hl & Hr).
      exists (es ++ ev :: fs). split; [rewrite Hlog', Hlog2, Hlog; by rewrite <- !app_assoc|].
      rewrite Hl. assert (Hq3 : forall e, e ∈ es ++ ev :: fs -> e = ev \/ quiet e).
      { intros e He. rewrite elem_of_app, elem_of_cons in He. rewrite Forall_forall in Hq, Hq'.
        destruct He as [He|[->|He]]; auto. }
      split; [intros He; by destruct (Hq3 _ He) as [[=]|Hf]|]. split; [done|].
      split; [exists d, d'; apply elem_of_app; right; by left|]. intros id x y He. by destruct (Hq3 _ He) as [[=]|Hf].
    + destruct Hrun as (w3 & x & ((fs & Hlog3 & Hq') & _) & Hlog' & Hrel).
      set (rel := Stored _ _ _) in Hlog'. exists (es ++ ev :: fs ++ [rel]).
      split; [rewrite Hlog', Hlog3, Hlog2, Hlog, <- !app_assoc; done|].
      assert (Hq3 : forall e, e ∈ es ++ ev :: fs ++ [rel] -> e = ev \/ e = rel \/ quiet e).
      { intros e0 He. rewrite elem_of_app, elem_of_cons, elem_of_app, list_elem_of_singleton in He.
        rewrite Forall_forall in Hq, Hq'. destruct He as [He|[->|[He| ->]]]; auto. }
      split; [intros He; by destruct (Hq3 _ He) as [[=]|[[=]|Hf]]|]. intros id d1 d2 He.
      destruct (Hq3 _ He) as [Heq|[[=]|[]]]. injection Heq as -> -> ->.
      split; [|done]. exists x. rewrite app_comm_cons, app_assoc, last_snoc. done.
Qed.

(** *** The start *)

Definition not_start (e : work_event) : Prop :=
  match e with Host (StartProcess _ _ _) => False | _ => True end.

Lemma no_start_hosted {A} (c : result A -> host_call) answer :
  (forall r, not_start (Host (c r))) -> within (logs_only not_start) (hosted c answer).
Proof. apply logs_hosted. Qed.

Lemma no_start_stored {A} (c : result A -> store_call) (m : Tx A) :
  within (logs_only not_start) (stored c m).
Proof. by apply logs_stored. Qed.

Lemma no_start_op {A} name (m : Tx A) : within (logs_only not_start) (op name m).
Proof. apply no_start_stored. Qed.

Lemma no_start_delay ms : within (logs_only not_start) (delay ms).
Proof. by apply logs_delay. Qed.
#[local] Hint Resolve no_start_hosted no_start_stored no_start_delay : within.

Lemma no_start_reserve_first id input ports :
  within (logs_only not_start) (reserve_first id input ports).
Proof.
  induction ports as [|port ports IH]; simpl; [apply within_throw; apply _|].
  unfold candidate_free, taken, isTcpPortAvailable, reserve_port. log_calls.
Qed.

Lemma no_start_resolve r dep name current :
  within (logs_only not_start) (resolveInstancePort r dep name current).
Proof.
  unfold resolveInstancePort, preferred_usable, verify_port, op, isTcpPortAvailable, reserve_port,
    allocateReservedInstancePort. log_calls; apply no_start_reserve_first.
Qed.

Lemma no_start_health r name f input :
  within (logs_only not_start) (waitForOwnedHttpHealth r name f input).
Proof.
  assert (Hloop : forall fuel input deadline e,
    within (logs_only not_start) (http_health_loop fuel input deadline e)).
  { induction fuel as [|fuel IH]; intros; simpl; log_calls. }
  assert (Hown : forall fuel r verify name input deadline,
    within (logs_only not_start) (ownership_loop fuel r verify name input deadline)).
  { induction fuel as [|fuel IH]; intros; simpl; unfold verify_port; log_calls. }
  unfold waitForOwnedHttpHealth, await_health, waitForHttpHealth. log_calls; first [apply Hown|apply Hloop].
Qed.

Lemma no_start_fail_instance id message : within (logs_only not_start) (fail_instance id message).
Proof. unfold fail_instance, update_instance, op. log_calls. Qed.

(** The port a start runs on was the instance's already, or has been reserved for it. *)
Lemma resolve_run r dep name current w port w' :
  resolveInstancePort r dep name current w = (Ok port, w') ->
  RuntimeInstance.endpointPort current = Some port \/
  exists d d', fresh_event w w' (Stored (ReservePort (RuntimeInstance.id current) port (Ok true)) d d').
Proof.
  unfold resolveInstancePort. destruct (RuntimeInstance.endpointPort current) as [p|]; intros Hrun.
  { injection Hrun as <- <-. by left. }
  right. apply bind_ok in Hrun as (prior & w1 & Hp & Hrun). set (preferred := default _ _) in Hrun.
  apply (logs_run anything) in Hp; [|by apply logs_stored].
  destruct (negb (bool_decide (ra_name r = "systemd"))).
  - apply bind_ok in Hrun as (b & w2 & Hr & Hrun). destruct b; [|done]. injection Hrun as <- <-.
    apply reserve_port_run in Hr as (d & Hlog & _). do 2 eexists. eapply fresh_after; [exact Hp|].
    by apply fresh_last.
  - apply bind_ok in Hrun as (usable & w2 & Hu & Hrun). apply bind_ok in Hrun as (reserved & w3 & Hd & Hrun).
    apply (logs_run anything) in Hu; [|unfold preferred_usable, verify_port, isTcpPortAvailable; log_calls].
    apply (logs_run anything) in Hd; [|by apply logs_stored].
    apply reserve_first_run in Hrun as (_ & _ & (d & Hf) & _).
    exists d, (st_db (w_store w')). eapply fresh_after; [|exact Hf].
    etransitivity; [exact Hp|]. by etransitivity.
Qed.

(** What a start that returns has done before the process started, and after. *)
Definition started (r : runtime_adapter) (si : process_start) (id : string)
    (w w' : world) (row : RuntimeInstance.runtime_instance_row) : Prop :=
  exists port w1 w2, logs_only not_start w w1 /\
    w_log w2 = w_log w1 ++ [Host (StartProcess (ra_name r) (instance_start si id port) (Ok tt))] /\
    logs_only not_start w2 w' /\
    ((exists w0 current, fresh_event w w0 (Stored (StoreCall "getRuntimeInstance") (st_db (w_store w0))
                                    (st_db (w_store w0))) /\
        runtimeInstances (st_db (w_store w0)) !! id = Some current /\
        RuntimeInstance.endpointPort current = Some port) \/
     exists d d', fresh_event w w1 (Stored (ReservePort id port (Ok true)) d d')) /\
    gate_seen r (ps_processName si) port w2 w' /\
    RuntimeInstance.endpointPort row = Some port /\
    runtimeInstances (st_db (w_store w')) !! id = Some row.

Lemma ready_write_ok id port w row w' :
  op "updateRuntimeInstance" (updateRuntimeInstance id
    (mk_runtime_update RuntimeStatus.ready (Some (Some "127.0.0.1")) (Some (Some port)) (Some None))
    (Some (st_clock (w_store w)))) w = (Ok (Some row), w') ->
  RuntimeInstance.endpointPort row = Some port /\
  runtimeInstances (st_db (w_store w')) !! id = Some row.
Proof.
  intros (s & Hup & -> & _)%stored_run. unfold updateRuntimeInstance in Hup.
  apply bind_ok in Hup as (t & s1 & [= <- <-] & Hup).
  apply update_key_ok in Hup as [([=] & _)|(row0 & _ & _ & [= ->] & _ & ->)].
  split; [done|]. simpl. apply lookup_insert_eq.
Qed.

Lemma start_instance_run r dep si o current w row w' :
  start_instance r dep si o current w = (Ok row, w') ->
  exists port w1 w2, logs_only not_start w w1 /\
    w_log w2 = w_log w1 ++
      [Host (StartProcess (ra_name r) (instance_start si (RuntimeInstance.id current) port) (Ok tt))] /\
    logs_only not_start w2 w' /\
    (RuntimeInstance.endpointPort current = Some port \/
     exists d d', fresh_event w w1 (Stored (ReservePort (RuntimeInstance.id current) port (Ok true)) d d')) /\
    gate_seen r (ps_processName si) port w2 w' /\
    RuntimeInstance.endpointPort row = Some port /\
    runtimeInstances (st_db (w_store w')) !! RuntimeInstance.id current = Some row.
Proof.
  intros Hrun. apply bind_ok in Hrun as (port & w1 & Hp & Hrun).
  pose proof (logs_run _ _ _ _ _ (no_start_resolve _ _ _ _) Hp) as Hl1. apply resolve_run in Hp.
  apply bind_ok in Hrun as ([] & w2 & Hs & Hrun). apply hosted_run in Hs as [Hlog _].
  apply bind_ok in Hrun as (u & w3 & Hh & Hrun).
  pose proof (logs_run _ _ _ _ _ (no_start_health _ _ _ _) Hh) as Hl3.
  apply waitForOwnedHttpHealth_ok in Hh.
  apply bind_ok in Hrun as (t & w4 & Hn & Hrun).
  pose proof (logs_run _ _ _ _ _ (logs_date_now not_start) Hn) as Hl4.
  apply (date_now_run Hfair) in Hn as ([= ->] & _ & _).
  apply bind_ok in Hrun as (x & w5 & Hup & [-> <-]%some_or_ok).
  pose proof (logs_run _ _ _ _ _ (no_start_op _ _) Hup) as Hl5.
  apply ready_write_ok in Hup as [Hport Hrow].
  assert (Hl : logs_only not_start w3 w') by by etransitivity.
  exists port, w1, w2. split; [done|]. split; [exact Hlog|]. split; [by etransitivity|]. split; [done|].
  split; [|done]. destruct Hh as [Hv (c & Hc & Hf)].
  split; [intros Hne; eapply fresh_keep; [by apply Hv|exact Hl]|].
  exists c. split; [done|]. by eapply fresh_keep.
Qed.

(** *** The start that fails *)

Definition not_reserve (e : work_event) : Prop :=
  match e with Stored (ReservePort _ _ _) _ _ => False | _ => True end.

Lemma no_reserve_health r name f input :
  within (logs_only not_reserve) (waitForOwnedHttpHealth r name f input).
Proof.
  eapply within_mono, (waitForOwnedHttpHealth_sane Hfair not_reserve (fun _ => Logic.I)).
  by intros w w' [Hl _].
Qed.

(** Where the runtime cannot rebind, a refused reservation is an error. *)
Lemma resolve_refused r dep name current w x w' port d d' :
  RuntimeInstance.endpointPort current = None -> ra_name r <> "systemd" ->
  resolveInstancePort r dep name current w = (x, w') ->
  fresh_event w w' (Stored (ReservePort (RuntimeInstance.id current) port (Ok false)) d d') ->
  x = Err (cannot_rebind r port).
Proof.
  unfold resolveInstancePort. intros -> Hname Hrun (es & Hes & Hin).
  apply bind_run in Hrun as [(e & Hl & ->)|(prior & w1 & Hl & Hrun)];
    apply read_run in Hl as (_ & _ & Hlog1).
  { rewrite Hlog1 in Hes. apply app_inv_head in Hes as <-.
    by apply list_elem_of_singleton in Hin. }
  rewrite bool_decide_eq_false_2 in Hrun by done. simpl in Hrun.
  assert (Hlog2 : exists b d0 d1, w_log w' = w_log w1 ++
      [Stored (ReservePort (RuntimeInstance.id current) (default (Deployment.hostPort dep)
         (prior_port (RuntimeInstance.id current) prior)) b) d0 d1] /\
      (b = Ok false -> x = Err (cannot_rebind r (default (Deployment.hostPort dep)
         (prior_port (RuntimeInstance.id current) prior))))).
  { apply bind_run in Hrun as [(e & Hr & ->)|(b & w2 & Hr & Hrun)];
      apply stored_run in Hr as (s & _ & _ & Hlog); [by do 3 eexists|].
    destruct b; injection Hrun as <- <-; by do 3 eexists. }
  destruct Hlog2 as (b & d0 & d1 & Hlog2 & Hb). rewrite Hlog2, Hlog1, <- app_assoc in Hes.
  apply app_inv_head in Hes as <-. apply elem_of_cons in Hin as [[=]|Hin].
  apply list_elem_of_singleton in Hin as [= -> Hport <-]. by apply Hb.
Qed.

(** At most one process has been started, on a port that is the instance's. *)
Definition started_once (r : runtime_adapter) (si : process_start)
    (current : RuntimeInstance.runtime_instance_row) (w w' : world) : Prop :=
  logs_only not_start w w' \/
  exists port o w1 w2, logs_only not_start w w1 /\
    (RuntimeInstance.endpointPort current = Some port \/
     exists d d', fresh_event w w1 (Stored (ReservePort (RuntimeInstance.id current) port (Ok true)) d d')) /\
    w_log w2 = w_log w1 ++
      [Host (StartProcess (ra_name r) (instance_start si (RuntimeInstance.id current) port) o)] /\
    logs_only not_start w2 w'.

(** A reservation that a runtime which cannot rebind was refused starts nothing. *)
Definition refusal_is_final (r : runtime_adapter) (current : RuntimeInstance.runtime_instance_row)
    (e : error) (w w' : world) : Prop :=
  RuntimeInstance.endpointPort current = None -> ra_name r <> "systemd" ->
  forall port d d',
    fresh_event w w' (Stored (ReservePort (RuntimeInstance.id current) port (Ok false)) d d') ->
    e = cannot_rebind r port /\ logs_only not_start w w'.

Lemma start_instance_tail r si o current port w1 x w' :
  (ensure_or_start r (instance_start si (RuntimeInstance.id current) port) ;;
   waitForOwnedHttpHealth r (ps_processName si) (ao_waitForHealth o)
     (mk_health_input "127.0.0.1" port (ready_timeout o)) ;;
   now <- date_now ;;
   ready <- op "updateRuntimeInstance" (updateRuntimeInstance (RuntimeInstance.id current)
              (mk_runtime_update RuntimeStatus.ready (Some (Some "127.0.0.1")) (Some (Some port))
                 (Some None)) (Some now)) ;;
   some_or ready (Error "RuntimeInstance disappeared during activation.")) w1 = (x, w') ->
  logs_only not_reserve w1 w' /\
  exists w2 b, w_log w2 = w_log w1 ++
      [Host (StartProcess (ra_name r) (instance_start si (RuntimeInstance.id current) port) b)] /\
    logs_only not_start w2 w'.
Proof.
  intros Hrun. split.
  - eapply logs_run; [|exact Hrun]. unfold ensure_or_start, op.
    log_calls; apply no_reserve_health.
  - apply bind_run in Hrun as [(e & Hs & ->)|(u & w2 & Hs & Hrun)];
      apply hosted_run in Hs as [Hlog _]; [by exists w', (Err e)|].
    exists w2, (Ok u). split; [done|]. eapply logs_run; [|exact Hrun]. unfold op.
    log_calls; apply no_start_health.
Qed.

Lemma start_instance_err r dep si o current w e w' :
  start_instance r dep si o current w = (Err e, w') ->
  started_once r si current w w' /\ refusal_is_final r current e w w'.
Proof.
  intros Hrun. apply bind_run in Hrun as [(e' & Hp & [= <-])|(port & w1 & Hp & Hrun)];
    pose proof (logs_run _ _ _ _ _ (no_start_resolve _ _ _ _) Hp) as Hl1.
  - split; [by left|]. intros Hnone Hname port d d' Hf.
    pose proof (resolve_refused _ _ _ _ _ _ _ _ _ _ Hnone Hname Hp Hf) as [= ->]. done.
  - apply start_instance_tail in Hrun as [Hr (w2 & b & Hlog & Hl2)]. split.
    + right. exists port, b, w1, w2. split; [done|]. split; [by eapply resolve_run|]. done.
    + intros Hnone Hname q d d' (es & Hes & Hin).
      destruct Hr as (fs & Hfs & Hall). pose proof Hl1 as (es1 & Hes1 & _).
      rewrite Hfs, Hes1, <- app_assoc in Hes. apply app_inv_head in Hes as <-.
      apply elem_of_app in Hin as [Hin|Hin].
      * assert (Hf : fresh_event w w1 (Stored (ReservePort (RuntimeInstance.id current) q (Ok false)) d d'))
          by (by exists es1).
        by pose proof (resolve_refused _ _ _ _ _ _ _ _ _ _ Hnone Hname Hp Hf).
      * rewrite Forall_forall in Hall. by apply Hall in Hin.
Qed.

(** Only the instance has been read. *)
Definition only_looked (w w' : world) : Prop :=
  w_store w' = others (w_log w) (w_store w) /\
  w_log w' = w_log w ++ [Stored (StoreCall "getRuntimeInstance") (st_db (w_store w')) (st_db (w_store w'))].

(** A start that has failed: the last thing it did was to write the instance
    failed with the reason. *)
Definition start_failed (r : runtime_adapter) (si : process_start)
    (current : RuntimeInstance.runtime_instance_row) (e : error) (w w' : world) : Prop :=
  (exists d, last (w_log w')
     = Some (Stored (StoreCall "updateRuntimeInstance") d (st_db (w_store w')))) /\
  (forall row, runtimeInstances (st_db (w_store w')) !! RuntimeInstance.id current = Some row ->
     RuntimeInstance.status row = RuntimeStatus.failed /\
     RuntimeInstance.lastError row = Some (sanitizeStoredErrorText (error_text e))) /\
  started_once r si current w w' /\ refusal_is_final r current e w w'.

(** The try block of a start, and its handler. *)
Lemma start_or_fail r dep si options current w w1 x w' :
  distinct w1 ->
  only_looked w w1 ->
  runtimeInstances (st_db (w_store w1)) !! RuntimeInstance.id current = Some current ->
  try_catch (start_instance r dep si options current)
    (fun e => fail_instance (RuntimeInstance.id current) (error_text e) ;; throw e) w1 = (x, w') ->
  match x with
  | Ok row => started r si (RuntimeInstance.id current) w w' row
  | Err e => start_failed r si current e w w'
  end.
Proof.
  intros Hd1 [_ Hlog1] Hcur Hrun.
  assert (Hl1 : logs_only not_start w w1) by (eexists; split; [exact Hlog1|by repeat constructor]).
  apply try_catch_run in Hrun as [(row & Hrun & ->)|(e & w2 & Hrun & Hh)].
  - apply start_instance_run in Hrun as (port & w2 & w3 & Hl2 & Hlog3 & Hl3 & Hheld & Hgate & Hport & Hrow).
    exists port, w2, w3. split; [by etransitivity|]. split; [done|]. split; [done|].
    split; [|done]. destruct Hheld as [Hp|(d & d' & Hf)].
    + left. exists w1, current. split; [|done]. by apply fresh_last.
    + right. exists d, d'. by eapply fresh_after.
  - assert (Hd2 : distinct w2).
    { eapply calm_distinct; [|exact Hd1]. eapply within_run; [apply calm_start_instance|exact Hrun]. }
    pose proof (proj1 (within_run _ _ _ _ _ (calm_start_instance _ _ _ _ _) Hrun)) as (fs & Hfs & _).
    apply start_instance_err in Hrun as [Honce Hfinal].
    destruct (fail_instance_runs (RuntimeInstance.id current) (error_text e) w2 Hd2)
      as (w3 & Hf & _ & [d Hlog3] & Hfailed).
    rewrite (bind_step _ _ _ _ _ Hf) in Hh. injection Hh as <- <-.
    assert (Hl3 : logs_only not_start w2 w3) by (eexists; split; [exact Hlog3|by repeat constructor]).
    split; [exists d; by rewrite Hlog3, last_snoc|]. split; [exact Hfailed|]. split.
    + destruct Honce as [Hl|(port & o & wa & wb & Hla & Hheld & Hlog & Hlb)];
        [left; by do 2 (etransitivity; [done|])|right].
      exists port, o, wa, wb. split; [by etransitivity|]. split; [|split; [done|by etransitivity]].
      destruct Hheld as [Hp|(x & y & Hx)]; [by left|right]. exists x, y. by eapply fresh_after.
    + intros Hnone Hname port x y (es & Hes & Hin).
      assert (Hfresh : fresh_event w1 w2
        (Stored (ReservePort (RuntimeInstance.id current) port (Ok false)) x y)).
      { exists fs. split; [exact Hfs|]. rewrite Hlog3, Hfs, Hlog1, <- !app_assoc in Hes.
        apply app_inv_head in Hes as <-. apply elem_of_cons in Hin as [[=]|Hin].
        by apply elem_of_app in Hin as [Hin|[=]%list_elem_of_singleton]. }
      destruct (Hfinal Hnone Hname _ _ _ Hfresh) as [-> Hl]. split; [done|].
      by do 2 (etransitivity; [done|]).
Qed.

(** C21. What a start of an instance does, by what it reads of it. An instance
    that is not there, is another deployment's, or is neither starting nor ready
    is refused, and a ready one returned as it is, with nothing written and
    nothing asked of the host. A starting one is either returned ready, started
    as exactly one process - on a port that it held or that was reserved for it
    in the store before, with its own id in the environment - and marked ready
    on that port only after the socket was seen to be the process's own (where
    the runtime can tell) and the process had answered; or the start throws, its
    last act being to write the instance failed with the reason, having started
    at most one process, again on a port that was the instance's, and none when a
    runtime other than systemd was refused the reservation of its one port. *)
Theorem startRuntimeInstance_outcome r dep si id options w x w' :
  keyed runtime_instances_table (st_db (others (w_log w) (w_store w))) ->
  rows_distinct (st_db (w_store w)) ->
  startRuntimeInstance r dep si id options w = (x, w') ->
  match runtimeInstances (st_db (others (w_log w) (w_store w))) !! id with
  | None => only_looked w w' /\
      x = Err (Error "RuntimeInstance does not belong to the requested Deployment.")
  | Some current =>
      if decide (RuntimeInstance.deploymentId current = Deployment.id dep) then
        match RuntimeInstance.status current with
        | RuntimeStatus.ready => only_looked w w' /\ x = Ok current
        | RuntimeStatus.starting =>
            match x with
            | Ok row => RuntimeInstance.status row = RuntimeStatus.ready /\ started r si id w w' row
            | Err e => start_failed r si current e w w'
            end
        | st => only_looked w w' /\
            x = Err (Error ("RuntimeInstance cannot start from " +:+ runtime_status_text st +:+ "."))
        end
      else only_looked w w' /\
        x = Err (Error "RuntimeInstance does not belong to the requested Deployment.")
  end.
Proof.
  intros Hkey Hd Hrun.
  assert (Hready : forall row, x = Ok row -> RuntimeInstance.status row = RuntimeStatus.ready)
    by (intros row ->; by eapply startRuntimeInstance_ready).
  unfold startRuntimeInstance in Hrun.
  apply bind_run in Hrun as [(e & Hg & ->)|(found & w1 & Hg & Hrun)].
  { by apply read_run in Hg as ([=] & _). }
  pose proof (calm_distinct _ _ (within_run _ _ _ _ _ (calm_read _ _) Hg) Hd) as Hd1.
  apply read_run in Hg as ([= Hfound] & Hst & Hlog). rewrite Hst in Hfound.
  assert (Hlook : only_looked w w1) by done.
  destruct (runtimeInstances _ !! id) as [current|] eqn:Hcur; subst found;
    [|by injection Hrun as <- <-].
  destruct (decide _) as [Hdep|Hdep];
    [rewrite bool_decide_eq_true_2 in Hrun by done|
     rewrite bool_decide_eq_false_2 in Hrun by done; by injection Hrun as <- <-].
  assert (Hid : RuntimeInstance.id current = id) by (by apply Hkey in Hcur).
  unfold has_status in Hrun. destruct (RuntimeInstance.status current) eqn:Hs; simpl in Hrun;
    try (by injection Hrun as <- <-).
  subst id. apply (start_or_fail _ _ _ _ _ w) in Hrun; [|done..|by rewrite Hst].
  destruct x; [by split; [apply Hready|]|done].
Qed.
End ActivationFacts.

(** ** A host for the witnesses *)

Definition still_host : WorkerHost := {|
  others := fun _ s => s;
  tcp_available := fun _ _ _ => Ok true;
  http_fetch := fun _ _ => Ok tt;
  in_flight_ports := fun _ => [];
  EVELAND_DEPLOYMENT_PORT := None;
  other_error_text := fun _ => "error"
|}.

Lemma still_fair I : @fair_others still_host I.
Proof. split; [intros; simpl; lia|done]. Qed.

(** An adapter every call of which succeeds; its process answers for its port. *)
Definition willing_adapter (kind : string) : runtime_adapter :=
  mk_adapter kind (fun _ _ => Ok tt) None (fun _ _ => Ok tt) (fun _ _ => Ok ProcessReady)
    (Some (fun _ _ log => if existsb (fun e => match e with Host (StartProcess _ _ _) => true | _ => false end) log
                          then Ok PortOwned else Ok PortUnbound))
    (fun _ _ => Ok []) None.

Definition sample_start : process_start :=
  mk_process_start "c" "image" 4000 ∅ None true "/cache" "/memory" "/policy".

Definition sample_world : world := mk_world (sample_store sample_database) [].

Definition sample_request (kind : string) : activation_request :=
  mk_activation_request (sample_deployment "p" "dep_1" DeploymentStatus.running)
    (willing_adapter kind) sample_start LeaseKind.turn "owner".

Definition no_options : activation_options := mk_activation_options None None None None None None.

Definition sample_activation : result activation * world :=
  @ensureDeploymentActive sample_platform still_host (sample_request "systemd") no_options sample_world.

Lemma sample_distinct : rows_distinct (st_db (w_store sample_world)).
Proof. split; intros k1 k2 r1 r2 Hk1; simpl in Hk1; by rewrite lookup_empty in Hk1. Qed.

Lemma ensureDeploymentActive_settles_witness :
  is_ok sample_activation.1 = true /\
  exists es, w_log sample_activation.2 = [] ++ es /\ (Stuck ∉ es).
Proof.
  split; [by vm_compute|].
  destruct (@ensureDeploymentActive_settles sample_platform still_host (still_fair _)
    (sample_request "systemd") no_options sample_world sample_activation.1 sample_activation.2
    sample_distinct (surjective_pairing sample_activation)) as (es & Hlog & Hs & _).
  exists es. split; [exact Hlog|exact Hs].
Defined.

(** The instance that the sample activation has just created. *)
Definition starting_world : world :=
  mk_world (sample_store (sample_database <| runtimeInstances :=
    {[ "rti" := RuntimeInstance.mk "rti" "dep_1" 1 RuntimeStatus.starting None None (Some 1000%Z)
                  None None None ]} |>)) [].

Definition sample_started : result RuntimeInstance.runtime_instance_row * world :=
  @startRuntimeInstance still_host (willing_adapter "systemd")
    (sample_deployment "p" "dep_1" DeploymentStatus.running) sample_start "rti" no_options starting_world.

Lemma starting_keyed : keyed runtime_instances_table (st_db (w_store starting_world)).
Proof. intros k r Hk. simpl in Hk. by apply lookup_singleton_Some in Hk as [<- <-]. Qed.

Lemma starting_distinct : rows_distinct (st_db (w_store starting_world)).
Proof.
  split; intros k1 k2 r1 r2 Hk1 Hk2 Hne; simpl in *; [by rewrite lookup_empty in Hk1|].
  apply lookup_singleton_Some in Hk1 as [<- _], Hk2 as [<- _]. done.
Qed.

(** The port of the deployment is another's: a container cannot start on it. *)
Definition crowded_world : world :=
  mk_world (sample_store (sample_database <| runtimeInstances :=
    {[ "rti" := RuntimeInstance.mk "rti" "dep_1" 1 RuntimeStatus.starting None None (Some 1000%Z)
                  None None None;
       "rti_x" := RuntimeInstance.mk "rti_x" "dep_x" 1 RuntimeStatus.ready (Some "127.0.0.1")
                    (Some (Deployment.hostPort (sample_deployment "p" "dep_1" DeploymentStatus.running)))
                    (Some 1000%Z) None None None ]} |>)) [].

Definition refused_start : result RuntimeInstance.runtime_instance_row * world :=
  @startRuntimeInstance still_host (willing_adapter "docker")
    (sample_deployment "p" "dep_1" DeploymentStatus.running) sample_start "rti" no_options crowded_world.

Lemma crowded_keyed : keyed runtime_instances_table (st_db (w_store crowded_world)).
Proof.
  intros k r Hk. simpl in Hk. apply lookup_insert_Some in Hk as [[<- <-]|[_ Hk]]; [done|].
  by apply lookup_singleton_Some in Hk as [<- <-].
Qed.

Lemma crowded_distinct : rows_distinct (st_db (w_store crowded_world)).
Proof.
  split; intros k1 k2 r1 r2 Hk1 Hk2 Hne; simpl in *; [by rewrite lookup_empty in Hk1|].
  apply lookup_insert_Some in Hk1, Hk2. rewrite lookup_singleton_Some in Hk1, Hk2.
  destruct Hk1 as [[<- <-]|[_ [<- <-]]], Hk2 as [[<- <-]|[_ [<- <-]]]; done.
Qed.

Lemma startRuntimeInstance_outcome_witness :
  (is_ok sample_started.1 = true /\
   match sample_started.1 with
   | Ok row => RuntimeInstance.status row = RuntimeStatus.ready
   | Err _ => False
   end) /\
  exists e row, refused_start.1 = Err e /\
    runtimeInstances (st_db (w_store refused_start.2)) !! "rti" = Some row /\
    RuntimeInstance.status row = RuntimeStatus.failed /\
    RuntimeInstance.lastError row = Some (sanitizeStoredErrorText (@error_text still_host e)).
Proof.
  split.
  - assert (Hok : is_ok sample_started.1 = true) by by vm_compute.
    split; [exact Hok|].
    pose proof (@startRuntimeInstance_outcome still_host (still_fair _)
      (willing_adapter "systemd") (sample_deployment "p" "dep_1" DeploymentStatus.running) sample_start
      "rti" no_options starting_world sample_started.1 sample_started.2 starting_keyed starting_distinct
      (surjective_pairing sample_started)) as Hout.
    destruct sample_started.1 as [row|e]; [exact (proj1 Hout)|discriminate Hok].
  - assert (Hok : is_ok refused_start.1 = false) by by vm_compute.
    pose proof (@startRuntimeInstance_outcome still_host (still_fair _)
      (willing_adapter "docker") (sample_deployment "p" "dep_1" DeploymentStatus.running) sample_start
      "rti" no_options crowded_world refused_start.1 refused_start.2 crowded_keyed crowded_distinct
      (surjective_pairing refused_start)) as Hout.
    destruct refused_start.1 as [row|e]; [discriminate Hok|].
    destruct (runtimeInstances (st_db (w_store refused_start.2)) !! "rti") as [row|] eqn:Hrow;
      [|by vm_compute in Hrow].
    exists e, row. split; [reflexivity|]. split; [reflexivity|].
    exact (proj1 (proj2 Hout) row Hrow).
Defined.
