(* ===== verification/Reapers.v ===== *)
(** * The worker's reapers

    [apps/worker/src/runtime/]: the idle sweep that stops unused processes
    ([idle-reaper.ts]), the sweep that brings the host in line with the control
    plane ([orphan-reaper.ts]), the retention sweep that enqueues archives
    ([release-reaper.ts]) and the one that settles workflow runs nothing can
    resume ([workflow-run-reconciler.ts]).  A runtime adapter is looked up by the
    kind a deployment records, which may throw. *)

From stdpp Require Import pretty.
From S2P Require Import Prelude Strings Schema Store Tables Sample Jobs Runtime Routing Sessions Schedules Deployments Sources EveVersion Worker Activation.

Open Scope eve_scope.
Open Scope string_scope.

Section Reapers.
Context `{Platform} `{WorkerHost}.

Definition runtime_log (projectId deploymentId line : string) : Work unit :=
  _row <- op "appendLog" (appendLog (mk_log_input projectId (Some deploymentId) "runtime" line)) ;;
  ret tt.

(** ** The idle sweep *)

Record idle_options : Type := mk_idle_options {
  io_idleTtlMs : option Z; io_schedulePrewarmMs : option Z; io_limit : option Z
}.

(** The [try] of the loop's body, and its [catch]. *)
Definition stop_idle (runtime : runtime_adapter) (deployment : Deployment.deployment_row)
    (instanceId : string) (now : time) (stopped : nat) : Work nat :=
  let did := Deployment.id deployment in
  let settle_as st to error line :=
    update_instance instanceId st (Some error) now ;;
    _moved <- transition did to sweepable ;;
    runtime_log (Deployment.projectId deployment) did line in
  try_catch
    (stopProcess runtime (Deployment.containerName deployment) ;;
     settle_as RuntimeStatus.stopped DeploymentStatus.stopped None
       ("Stopped idle Deployment " +:+ did
        +:+ " after its activation leases expired or were released.") ;;
     ret (S stopped))
    (fun e =>
       settle_as RuntimeStatus.failed DeploymentStatus.failed (Some (error_text e))
         ("Failed to stop idle Deployment " +:+ did +:+ ": " +:+ error_text e) ;;
       ret stopped).

(** [await store.updateRuntimeInstance(instance.id, { status: "ready" }, now); continue;] *)
Definition revive (instanceId : string) (now : time) (stopped : nat) : Work nat :=
  update_instance instanceId RuntimeStatus.ready None now ;;
  ret stopped.

Definition reap_idle (runtimeForKind : string -> result runtime_adapter) (now : time) (stopped : nat)
    (instance : RuntimeInstance.runtime_instance_row) : Work nat :=
  let id := RuntimeInstance.id instance in
  found <- op "getDeployment" (getDeployment (RuntimeInstance.deploymentId instance)) ;;
  match found with
  | None =>
      update_instance id RuntimeStatus.failed (Some (Some "Deployment no longer exists.")) now ;;
      ret stopped
  | Some deployment =>
      leased <- op "hasActiveActivationLeases"
        (hasActiveActivationLeases (Deployment.id deployment) (Some now)) ;;
      if leased : bool then revive id now stopped
      else
        observed <- op "hasRunningSessionsObservedBy" (hasRunningSessionsObservedBy id) ;;
        if observed : bool then revive id now stopped
        else
          runtime <- lift (runtimeForKind (Deployment.runtimeKind deployment)) ;;
          claimed <- op "getRuntimeInstance" (getRuntimeInstance id) ;;
          if match claimed with Some r => has_status RuntimeStatus.draining r | None => false end
          then stop_idle runtime deployment id now stopped
          else ret stopped
  end.

Definition reapIdleDeployments (runtimeForKind : string -> result runtime_adapter)
    (options : idle_options) : Work nat :=
  now <- date_now ;;
  instances <- op "claimIdleRuntimeInstances" (claimIdleRuntimeInstances
    (mk_idle_input now (default 300000%Z (io_idleTtlMs options))
       (Some (default 0%Z (io_schedulePrewarmMs options))) (default 25%Z (io_limit options)))) ;;
  fold_m (reap_idle runtimeForKind now) instances 0%nat.

(** ** The retention sweep *)

Record release_options : Type := mk_release_options {
  rel_policy : session_binding_idle_policy; rel_keepRecent : option Z; rel_limit : option Z;
  rel_now : option time
}.

(** [Math.max(least, Math.floor(configured))] of an integer. *)
Definition at_least (least configured : Z) : Z := Z.max least configured.

(** A stopped deployment that nothing protects any more. *)
Definition archivable (entry : deployment_retention) : bool :=
  negb (dr_protected entry)
  && bool_decide (Deployment.status (dr_deployment entry) = DeploymentStatus.stopped).

Definition enqueue_archive (projectId : string) (limit : Z) (enqueued : Z)
    (entry : deployment_retention) : Work Z :=
  if (limit <=? enqueued)%Z || negb (archivable entry) then ret enqueued
  else
    result <- op "enqueueDeploymentArchive"
      (enqueueDeploymentArchive projectId (Deployment.id (dr_deployment entry)) true) ;;
    ret (if result.2 : bool then (enqueued + 1)%Z else enqueued).

(** [listDeploymentsWithActiveWorkflowRuns], a query of the workflow world. *)
Definition workflow_runs : Type := string -> list work_event -> result (list string).

(** The body of the [for] over the projects; [true] ends it. *)
Fixpoint sweep_projects (runs : workflow_runs) (options : release_options) (keepRecent limit : Z)
    (projects : list Project.project_row) (enqueued : Z) : Work Z :=
  match projects with
  | [] => ret enqueued
  | project :: projects =>
      if bool_decide (Project.deletionStatus project = Some DeletionStatus.deleting)
      then sweep_projects runs options keepRecent limit projects enqueued
      else
        active <- hosted (ListWorkflowRuns (Some (Project.id project))) (runs (Project.id project)) ;;
        retention <- op "getDeploymentRetention"
          (getDeploymentRetention (Project.id project) (Some (Z.to_nat keepRecent))
             (mk_retention_options (rel_now options) (rel_policy options) (Some active))) ;;
        enqueued <- fold_m (enqueue_archive (Project.id project) limit) retention enqueued ;;
        if (limit <=? enqueued)%Z then ret enqueued
        else sweep_projects runs options keepRecent limit projects enqueued
  end.

(** [listProjects] without the computed [nextScheduleAt]. *)
Definition newest_project (a b : Project.project_row) : bool :=
  then_by (desc_by Project.createdAt)
    (then_by (fun a b => collation_leb (Project.name a) (Project.name b))
       (fun a b => collation_leb (Project.id a) (Project.id b))) a b.

Definition listProjects : Tx (list Project.project_row) :=
  read (fun d => order_by newest_project (rows (projects d))).

Definition sweepReleaseRetention (runs : workflow_runs) (options : release_options) : Work Z :=
  projects <- op "listProjects" listProjects ;;
  sweep_projects runs options (at_least 3 (default 3%Z (rel_keepRecent options)))
    (at_least 1 (default 25%Z (rel_limit options))) projects 0%Z.

(** ** Workflow runs nothing can resume *)

Definition isEveOwnedWorkflow (workflowName : string) : bool :=
  String.prefix "workflow//eve//" workflowName.

(** [ActiveWorkflowRunDeployment] *)
Record run_candidate : Type := mk_run_candidate {
  rc_deploymentId : string; rc_projectId : string; rc_workflowNames : list string
}.

Record runs_result : Type := mk_runs_result {
  rr_examinedDeployments : nat; rr_settledRuns : nat; rr_failures : nat
}.

(** The store, and [retentionByProject]: the one answer a project gets in a sweep. *)
Record runs_state : Type := mk_runs_state {
  rst_world : world; rst_retention : gmap string (result (list deployment_retention))
}.

Definition on_world {A} (m : Work A) : M runs_state A :=
  fun s => let (r, w) := m (rst_world s) in (r, mk_runs_state w (rst_retention s)).

(** [retentionFor]: what would keep a deployment if its runs did not. *)
Definition retentionFor (keepRecent : Z) (policy : session_binding_idle_policy) (now : time)
    (projectId : string) : M runs_state (list deployment_retention) :=
  fun s =>
    match rst_retention s !! projectId with
    | Some answer => (answer, s)
    | None =>
        let (answer, w) := op "getDeploymentRetention"
          (getDeploymentRetention projectId (Some (Z.to_nat keepRecent))
             (mk_retention_options (Some now) policy (Some []))) (rst_world s) in
        (answer, mk_runs_state w (<[projectId := answer]> (rst_retention s)))
    end.

(** [reconcileWorkflowRuns] of the workflow world: how many runs it settled. *)
Definition settle_runs : Type := run_candidate -> string -> list work_event -> result nat.

Definition settle_as (settle : settle_runs) (c : run_candidate) (disposition : string)
    : M runs_state nat :=
  on_world (hosted (SettleRuns (rc_projectId c) (rc_deploymentId c) disposition)
              (settle c disposition)).

(** The [try] of the loop's body: the runs it settled. *)
Definition reconcile_candidate (settle : settle_runs) (keepRecent : Z)
    (policy : session_binding_idle_policy) (now : time) (c : run_candidate) : M runs_state nat :=
  deployment <- on_world (op "getDeployment" (getDeployment (rc_deploymentId c))) ;;
  if match deployment with
     | Some d => negb (bool_decide (Deployment.projectId d = rc_projectId c))
     | None => false
     end then ret 0%nat
  else
    release <- match deployment with
               | Some d => on_world (op "getRelease" (getRelease (Deployment.releaseId d)))
               | None => ret None
               end ;;
    match permanentDeploymentActivationRefusal deployment
            (match release with Some r => Release.summary r | None => None end) with
    | Some _ => settle_as settle c "fail"
    | None =>
        if negb (bool_decide ((Deployment.status <$> deployment) = Some DeploymentStatus.stopped))
        then ret 0%nat
        else if bool_decide (rc_workflowNames c = [])
                || negb (forallb isEveOwnedWorkflow (rc_workflowNames c))
        then ret 0%nat
        else
          retention <- retentionFor keepRecent policy now (rc_projectId c) ;;
          match find (fun entry => bool_decide (Deployment.id (dr_deployment entry)
                                                = rc_deploymentId c)) retention with
          | Some verdict => if dr_protected verdict then ret 0%nat else settle_as settle c "cancel"
          | None => ret 0%nat
          end
    end.

Definition reconcile_step (settle : settle_runs) (keepRecent : Z)
    (policy : session_binding_idle_policy) (now : time) (counts : nat * nat) (c : run_candidate)
    : M runs_state (nat * nat) :=
  try_catch
    (settled <- reconcile_candidate settle keepRecent policy now c ;;
     ret (counts.1 + settled, counts.2)%nat)
    (fun _ => ret (counts.1, S counts.2)).

(** [worldUrl]: whether a platform world is configured. *)
Definition reconcileAbandonedWorkflowRuns (worldUrl : option string)
    (listActive : list work_event -> result (list run_candidate)) (settle : settle_runs)
    (policy : session_binding_idle_policy) (keepRecent : option Z) : Work runs_result :=
  match truthy worldUrl with
  | None => ret (mk_runs_result 0 0 0)
  | Some _ =>
      candidates <- hosted (fun r => ListWorkflowRuns None
          (match r with Ok cs => Ok (rc_deploymentId <$> cs) | Err e => Err e end)) listActive ;;
      if bool_decide (length candidates = 0)%nat then ret (mk_runs_result 0 0 0)
      else
        now <- date_now ;;
        counts <- (fun w =>
          let (r, s) := fold_m (reconcile_step settle (at_least 3 (default 3%Z keepRecent)) policy now)
                          candidates (0, 0)%nat (mk_runs_state w ∅) in
          (r, rst_world s)) ;;
        ret (mk_runs_result (length candidates) counts.1 counts.2)
  end.

End Reapers.

(** ** Processes out of the model *)

Definition DEPLOYMENT_PROCESS_PREFIX : string := "eveland-".

Definition lower_alnum (c : Ascii.ascii) : bool :=
  let n := Ascii.nat_of_ascii c in
  ((97 <=? n) && (n <=? 122) || (48 <=? n) && (n <=? 57))%nat.

Definition line_terminator (c : Ascii.ascii) : bool :=
  let n := Ascii.nat_of_ascii c in ((n =? 10) || (n =? 13))%nat.

Fixpoint all_chars (p : Ascii.ascii -> bool) (s : string) : bool :=
  match s with EmptyString => true | String c s => p c && all_chars p s end.

(** [-dep_[a-z0-9]+$], at the start of the text. *)
Definition deployment_suffix (s : string) : bool :=
  String.prefix "-dep_" s
  && (let rest := String.substring 5 (String.length s - 5) s in
      negb (bool_decide (rest = "")) && all_chars lower_alnum rest).

(** [.*] and then the suffix, one character or more before it when [first]. *)
Fixpoint segment_then_suffix (first : bool) (s : string) : bool :=
  (negb first && deployment_suffix s)
  || match s with
     | EmptyString => false
     | String c s => negb (line_terminator c) && segment_then_suffix false s
     end.

(** [deploymentProcessNamePattern]: [/^eveland-.+-dep_[a-z0-9]+$/] *)
Definition deployment_process_name (name : string) : bool :=
  String.prefix DEPLOYMENT_PROCESS_PREFIX name
  && segment_then_suffix true (String.substring 8 (String.length name - 8) name).

(** The store, [firstSeenAt], and [seenKeys] of the sweep. *)
Record sweep_state : Type := mk_sweep_state {
  ss_world : world; ss_firstSeen : gmap string time; ss_seen : list string
}.
#[export] Instance eta_sweep_state : Eta sweep_state := fun s =>
  mk_sweep_state (ss_world s) (ss_firstSeen s) (ss_seen s).

Abbreviation Sweep := (M sweep_state).

Section OrphanReaper.
Context `{Platform} `{WorkerHost}.

Definition swept {A} (m : Work A) : Sweep A :=
  fun s => let (r, w) := m (ss_world s) in (r, mk_sweep_state w (ss_firstSeen s) (ss_seen s)).

Definition forget (key : string) : Sweep unit :=
  modify (fun s => s <| ss_firstSeen ::= delete key |>).

Definition mark_seen (key : string) : Sweep unit :=
  modify (fun s => s <| ss_seen ::= fun keys => (keys ++ [key])%list |>).

(** [const firstSeen = firstSeenAt.get(key) ?? now; firstSeenAt.set(key, firstSeen)] *)
Definition first_seen (key : string) (now : time) : Sweep time :=
  firstSeen <- gets (fun s => default now (ss_firstSeen s !! key)) ;;
  modify (fun s => s <| ss_firstSeen ::= insert key firstSeen |>) ;;
  ret firstSeen.

Definition adopted_line (name id : string) : string :=
  "Adopted unmanaged process " +:+ name +:+ " as RuntimeInstance " +:+ id
  +:+ "; the idle lifecycle now applies.".

(** Whether the control plane answers for the process: leased, alive, or, when
    its deployment runs, adopted now. *)
Definition managed_process (deployment : Deployment.deployment_row) (name key : string) (now : time)
    : Sweep bool :=
  let did := Deployment.id deployment in
  leased <- swept (op "hasActiveActivationLeases" (hasActiveActivationLeases did (Some now))) ;;
  if leased : bool then forget key ;; ret true
  else
    instances <- swept (op "listDeploymentRuntimeInstances" (listDeploymentRuntimeInstances did)) ;;
    if existsb (fun r => runtime_live (RuntimeInstance.status r)) instances then forget key ;; ret true
    else if bool_decide (Deployment.status deployment ∈ sweepable) then
      adopted <- swept (op "adoptRuntimeInstance"
        (adoptRuntimeInstance did (Some "127.0.0.1") (Some (Deployment.hostPort deployment)) (Some now))) ;;
      match adopted with
      | Some r => swept (runtime_log (Deployment.projectId deployment) did
                           (adopted_line name (RuntimeInstance.id r)))
      | None => ret tt
      end ;;
      forget key ;; ret true
    else ret false.

Definition orphan_line (kind name : string) (deployment : Deployment.deployment_row) : string :=
  if bool_decide (Deployment.runtimeKind deployment = kind)
  then "Stopped orphan process " +:+ name +:+ " left behind by "
       +:+ status_text (Deployment.status deployment) +:+ " Deployment " +:+ Deployment.id deployment +:+ "."
  else "Stopped orphan " +:+ kind +:+ " process " +:+ name +:+ "; Deployment "
       +:+ Deployment.id deployment +:+ " is owned by the " +:+ Deployment.runtimeKind deployment
       +:+ " runtime.".

Definition sweepProcess (graceMs : Z) (adapter : runtime_adapter) (kind name key : string) (now : time)
    : Sweep nat :=
  deployment <- swept (op "getDeploymentByContainerName" (getDeploymentByContainerName name)) ;;
  managed <- match deployment with
             | Some d =>
                 if bool_decide (Deployment.runtimeKind d = kind)
                 then managed_process d name key now else ret false
             | None => ret false
             end ;;
  if managed : bool then ret 0%nat
  else
    firstSeen <- first_seen key now ;;
    if (now - firstSeen <? graceMs)%Z then ret 0%nat
    else
      swept (stopProcess adapter name) ;;
      forget key ;;
      match deployment with
      | Some d => swept (runtime_log (Deployment.projectId d) (Deployment.id d)
                           (orphan_line kind name d))
      | None => ret tt
      end ;;
      ret 1%nat.

(** The body of the [for] over the names of a kind. *)
Definition sweep_name (graceMs : Z) (adapter : runtime_adapter) (kind : string) (now : time)
    (stopped : nat) (name : string) : Sweep nat :=
  if negb (deployment_process_name name) then ret stopped
  else
    let key := kind +:+ ":" +:+ name in
    mark_seen key ;;
    try_catch
      (n <- sweepProcess graceMs adapter kind name key now ;; ret (stopped + n)%nat)
      (fun _ => ret stopped).

Definition sweep_kind (graceMs : Z) (runtimeForKind : string -> result runtime_adapter) (now : time)
    (stopped : nat) (kind : string) : Sweep nat :=
  listed <- try_catch
    (adapter <- lift (runtimeForKind kind) ;;
     names <- swept (listProcesses adapter DEPLOYMENT_PROCESS_PREFIX) ;;
     ret (Some (adapter, names)))
    (fun _ => ret None) ;;
  match listed with
  | Some (adapter, names) => fold_m (sweep_name graceMs adapter kind now) names stopped
  | None => ret stopped
  end.

(** [listOrphanAgentTelemetryNetworks] and [removeOrphanAgentTelemetryNetwork]:
    a network by its name and its process. *)
Record network_directory : Type := mk_networks {
  nd_list : list work_event -> result (list (string * string));
  nd_remove : string * string -> list work_event -> result bool
}.

Definition sweep_network (graceMs : Z) (networks : network_directory) (now : time) (stopped : nat)
    (network : string * string) : Sweep nat :=
  let key := "docker-network:" +:+ network.1 in
  mark_seen key ;;
  firstSeen <- first_seen key now ;;
  if (now - firstSeen <? graceMs)%Z then ret stopped
  else
    try_catch
      (removed <- swept (hosted (RemoveNetwork network.1) (nd_remove networks network)) ;;
       if removed : bool then forget key ;; ret (S stopped) else ret stopped)
      (fun _ => ret stopped).

Definition sweep_networks (graceMs : Z) (networks : network_directory) (now : time) (stopped : nat)
    : Sweep nat :=
  found <- try_catch
    (found <- swept (hosted ListNetworks (nd_list networks)) ;; ret found)
    (fun _ => ret []) ;;
  fold_m (sweep_network graceMs networks now) found stopped.

(** What vanished since the last sweep loses its age. *)
Definition forget_unseen : Sweep unit :=
  modify (fun s => s <| ss_firstSeen ::= base.filter (fun kt => kt.1 ∈ ss_seen s) |>).

(** One sweep, from the ages of the last one. *)
Definition reapOrphanProcesses (graceMs : Z) (kinds : list string)
    (runtimeForKind : string -> result runtime_adapter) (networks : network_directory) (now : time)
    : Sweep nat :=
  modify (fun s => s <| ss_seen := [] |>) ;;
  stopped <- fold_m (sweep_kind graceMs runtimeForKind now) kinds 0%nat ;;
  stopped <- (if bool_decide ("docker" ∈ kinds)
              then sweep_networks graceMs networks now stopped else ret stopped) ;;
  forget_unseen ;;
  ret stopped.
End OrphanReaper.

(** ** Facts *)

#[local] Open Scope list_scope.

(** *** What the sweepers write

    A deployment row changes only from running or draining, and only to stopped
    or failed; none appears and none goes away. *)
Definition sweep_write (d d' : database) : Prop :=
  forall did,
    match deployments d !! did, deployments d' !! did with
    | Some r, Some r' =>
        r' = r \/
        (Deployment.status r ∈ [DeploymentStatus.running; DeploymentStatus.draining] /\
         exists st now, st ∈ [DeploymentStatus.stopped; DeploymentStatus.failed] /\
           r' = set_status st now r)
    | None, None => True
    | _, _ => False
    end.

#[global] Instance sweep_write_preorder : PreOrder sweep_write.
Proof.
  split; [intros d did; destruct (deployments d !! did); by auto|].
  intros d1 d2 d3 H12 H23 did. specialize (H12 did). specialize (H23 did).
  destruct (deployments d1 !! did) as [r1|], (deployments d2 !! did) as [r2|],
    (deployments d3 !! did) as [r3|]; try done.
  destruct H12 as [->|(Hs & st & now & Hst & ->)]; [done|].
  destruct H23 as [->|(Hs' & _)]; [right; eauto|].
  apply elem_of_cons in Hst as [->| ->%list_elem_of_singleton]; by apply (bool_decide_pack _) in Hs'.
Qed.

Lemma sweep_write_same d d' : deployments d' = deployments d -> sweep_write d d'.
Proof. intros Heq did. rewrite Heq. destruct (deployments d !! did); by auto. Qed.

Ltac frame_deployments :=
  first [ apply moves_insert_row; [apply _|] | apply moves_update_key; [apply _|]
        | apply moves_update_where; [apply _|] | apply moves_write ];
  intros; by apply sweep_write_same.

Section SweepWrites.
Context `{Platform} `{WorkerHost}.

Lemma sweeps_append id values : moves sweep_write (appendSessionEventRow id values).
Proof. unfold appendSessionEventRow. walk; frame_deployments. Qed.
Lemma sweeps_insert_job pid ty p c u : moves sweep_write (insertJobRowTx pid ty p c u).
Proof. unfold insertJobRowTx. walk; frame_deployments. Qed.
#[local] Hint Resolve sweeps_append sweeps_insert_job : moves.

Lemma sweeps_lost sid rti reason now node dep :
  moves sweep_write (appendRuntimeLostEventTx sid rti reason now node dep).
Proof. unfold appendRuntimeLostEventTx. walk. Qed.
Lemma sweeps_fail_executions runIds sids reason now :
  moves sweep_write (fail_executions runIds sids reason now).
Proof. unfold fail_executions. walk; frame_deployments. Qed.
Lemma sweeps_fail_sessions sids err now : moves sweep_write (fail_running_sessions sids err now).
Proof. unfold fail_running_sessions. walk; frame_deployments. Qed.
Lemma sweeps_cards pids now : moves sweep_write (fail_project_cards pids now).
Proof. unfold fail_project_cards. walk; frame_deployments. Qed.
Lemma sweeps_release ids now : moves sweep_write (release_run_leases ids now).
Proof. unfold release_run_leases. walk; frame_deployments. Qed.
#[local] Hint Resolve sweeps_cards sweeps_release sweeps_lost sweeps_fail_executions sweeps_fail_sessions : moves.

Lemma sweeps_failSchedule id reason now :
  moves sweep_write (failScheduleExecutionsForRuntimeInstance id reason now).
Proof. unfold failScheduleExecutionsForRuntimeInstance. walk; frame_deployments. Qed.
Lemma sweeps_failSessions id reason now :
  moves sweep_write (failRunningSessionsForRuntimeInstance id reason now).
Proof. unfold failRunningSessionsForRuntimeInstance, lost_tail. walk; frame_deployments. Qed.
Lemma sweeps_failExpired now limit : moves sweep_write (failExpiredScheduleExecutions now limit).
Proof.
  unfold failExpiredScheduleExecutions, fail_expired. walk; frame_deployments.
Qed.
Lemma sweeps_appendLog input : moves sweep_write (appendLog input).
Proof.
  unfold appendLog. walk; first [frame_deployments|by apply moves_pure; [apply _|]].
Qed.
Lemma sweeps_update k u now : moves sweep_write (updateRuntimeInstance k u now).
Proof. unfold updateRuntimeInstance. walk; frame_deployments. Qed.
Lemma sweeps_claimIdle input : moves sweep_write (claimIdleRuntimeInstances input).
Proof. unfold claimIdleRuntimeInstances, claim_idle_candidate. walk; frame_deployments. Qed.
Lemma sweeps_adopt did a p now : moves sweep_write (adoptRuntimeInstance did a p now).
Proof. unfold adoptRuntimeInstance. walk; frame_deployments. Qed.
Lemma sweeps_activation pid did id now stale :
  moves sweep_write (enqueueDeploymentActivation pid did id now stale).
Proof. unfold enqueueDeploymentActivation. walk; frame_deployments. Qed.
Lemma sweeps_archive pid did automatic : moves sweep_write (enqueueDeploymentArchive pid did automatic).
Proof. unfold enqueueDeploymentArchive. walk. Qed.

Lemma sweeps_transition did st :
  st ∈ [DeploymentStatus.stopped; DeploymentStatus.failed] ->
  moves sweep_write (transitionDeploymentStatus did st sweepable).
Proof.
  intros Hst. unfold transitionDeploymentStatus. walk.
  apply moves_update_key; [apply _|]. intros d r Hr Hs%bool_decide_eq_true did'. simpl.
  destruct (decide (did = did')) as [<-|Hne].
  - rewrite lookup_insert_eq. simpl in Hr. rewrite Hr. right. eauto.
  - rewrite lookup_insert_ne by done. destruct (deployments d !! did'); by auto.
Qed.
End SweepWrites.

(** A write of a sweeper. *)
Definition spare (e : work_event) : Prop :=
  match e with
  | Stored _ d d' => sweep_write d d'
  | Stuck => False
  | Host _ => True
  end.

Section Sparing.
Context `{Platform} `{WorkerHost}.

Abbreviation sparing := (within (logs_only spare)).

Lemma sparing_op {A} name (m : Tx A) : moves sweep_write m -> sparing (op name m).
Proof.
  intros Hm. apply logs_stored. intros s r s' Hrun. specialize (Hm s). unfold exec in Hm.
  by rewrite Hrun in Hm.
Qed.

Lemma sparing_read {A} name (q : database -> A) : sparing (op name (read q)).
Proof. apply sparing_op, moves_read. apply _. Qed.

Lemma sparing_hosted {A} (c : result A -> host_call) answer : sparing (hosted c answer).
Proof. by apply logs_hosted. Qed.
#[local] Hint Resolve sparing_read sparing_hosted sweeps_failSchedule sweeps_failSessions
  sweeps_failExpired sweeps_appendLog sweeps_update sweeps_claimIdle sweeps_adopt sweeps_activation
  sweeps_archive : within.

(** The calls of a sweep, each from its [sweeps_] lemma. *)
Ltac spare_calls := stroll; try (apply sparing_op; solve [auto with within]).

Lemma sparing_leased did now : sparing (op "hasActiveActivationLeases" (hasActiveActivationLeases did (Some now))).
Proof. exact (sparing_read _ (has_active_lease did now)). Qed.

Lemma sparing_list sts limit : sparing (op "listRuntimeInstances" (listRuntimeInstances sts limit)).
Proof. apply sparing_op. unfold listRuntimeInstances. walk. Qed.

Lemma sparing_transition did st :
  st ∈ [DeploymentStatus.stopped; DeploymentStatus.failed] -> sparing (transition did st sweepable).
Proof. intros Hst. by apply sparing_op, sweeps_transition. Qed.

Lemma sparing_update_instance id st error now : sparing (update_instance id st error now).
Proof. unfold update_instance. spare_calls. Qed.

Lemma sparing_runtime_log pid did line : sparing (runtime_log pid did line).
Proof. unfold runtime_log. spare_calls. Qed.

Lemma sparing_fail_interrupted id reason now : sparing (fail_interrupted id reason now).
Proof. unfold fail_interrupted. spare_calls. Qed.
#[local] Hint Resolve sparing_leased sparing_list sparing_transition sparing_update_instance sparing_runtime_log
  sparing_fail_interrupted : within.

Lemma sparing_retire instance did st to error reason now :
  to ∈ [DeploymentStatus.stopped; DeploymentStatus.failed] ->
  sparing (retire_instance instance did st to error reason now).
Proof. intros Hto. unfold retire_instance. spare_calls. Qed.

Lemma sparing_reconcile rk limit : sparing (reconcileRuntimeInstances rk limit).
Proof.
  unfold reconcileRuntimeInstances, reconcile_interrupted, reconcile_ready, getDeployment, inspectProcess, verify_port, stillReadyRuntimeInstance, getRuntimeInstance.
  spare_calls; try (apply sparing_retire; set_solver).
Qed.

Lemma sparing_recover limit stale : sparing (recoverStartingRuntimeInstances limit stale).
Proof. unfold recoverStartingRuntimeInstances, recover_instance, getDeployment. spare_calls. Qed.

Lemma sparing_idle rk options : sparing (reapIdleDeployments rk options).
Proof.
  unfold reapIdleDeployments, reap_idle, revive, stop_idle, getDeployment, getRuntimeInstance,
    hasRunningSessionsObservedBy, stopProcess.
  spare_calls; apply sparing_transition; set_solver.
Qed.

Lemma sparing_getRetention pid keep options :
  sparing (op "getDeploymentRetention" (getDeploymentRetention pid keep options)).
Proof. apply sparing_op. unfold getDeploymentRetention, listDeployments. walk. Qed.
#[local] Hint Resolve sparing_getRetention : within.

Lemma sparing_sweep_projects runs options keep limit ps n :
  sparing (sweep_projects runs options keep limit ps n).
Proof.
  revert n. induction ps as [|p ps IH]; intros n; simpl; [apply within_ret; apply _|].
  unfold enqueue_archive. spare_calls.
Qed.

Lemma sparing_retention runs options : sparing (sweepReleaseRetention runs options).
Proof.
  unfold sweepReleaseRetention, listProjects. spare_calls. apply sparing_sweep_projects.
Qed.
End Sparing.

(** *** The orphan sweep's own state *)

Definition of_world (R : relation world) : relation sweep_state :=
  fun s s' => R (ss_world s) (ss_world s').

#[global] Instance of_world_preorder R : PreOrder R -> PreOrder (of_world R).
Proof.
  intros HR. unfold of_world. split; [by intros s|]. intros s1 s2 s3 H1 H2. by etransitivity.
Qed.

(** Keeping an invariant of the state. *)
#[local] Instance keeping_arrow_preorder {A} (P : A -> Prop) : PreOrder (fun s s' => P s -> P s').
Proof. split; [by intros s|]. intros s1 s2 s3 H1 H2 Hp. auto. Qed.

Section Orphans.
Context `{Platform} `{WorkerHost}.

Lemma swept_run {A} (m : Work A) s r s' :
  swept m s = (r, s') ->
  m (ss_world s) = (r, ss_world s') /\ ss_firstSeen s' = ss_firstSeen s /\ ss_seen s' = ss_seen s.
Proof. unfold swept. destruct (m (ss_world s)) as [r0 w] eqn:Hm. by intros [= <- <-]. Qed.

Lemma within_swept {A} R (m : Work A) : within R m -> within (of_world R) (swept m).
Proof.
  intros Hm s. unfold exec, swept, of_world. specialize (Hm (ss_world s)). unfold exec in Hm.
  by destruct (m (ss_world s)).
Qed.

Lemma within_forget R `{!PreOrder R} key : within (of_world R) (forget key).
Proof. intros s. unfold of_world. simpl. reflexivity. Qed.
Lemma within_mark R `{!PreOrder R} key : within (of_world R) (mark_seen key).
Proof. intros s. unfold of_world. simpl. reflexivity. Qed.
Lemma within_first_seen R `{!PreOrder R} key now : within (of_world R) (first_seen key now).
Proof. intros s. unfold of_world. simpl. reflexivity. Qed.
#[local] Hint Resolve within_forget within_mark within_first_seen : within.

Lemma sparing_orphans graceMs kinds rk networks now :
  within (of_world (logs_only spare)) (reapOrphanProcesses graceMs kinds rk networks now).
Proof.
  assert (Hop : forall A name (m : Tx A), moves sweep_write m ->
    within (of_world (logs_only spare)) (swept (op name m)))
    by (intros; by apply within_swept, sparing_op).
  assert (Hhost : forall A (c : result A -> host_call) answer,
    within (of_world (logs_only spare)) (swept (hosted c answer)))
    by (intros; by apply within_swept, sparing_hosted).
  assert (Hlog : forall pid did line, within (of_world (logs_only spare)) (swept (runtime_log pid did line)))
    by (intros; by apply within_swept, sparing_runtime_log).
  assert (Hread : forall A name (q : database -> A),
    within (of_world (logs_only spare)) (swept (op name (read q))))
    by (intros; by apply within_swept, sparing_read).
  unfold reapOrphanProcesses, sweep_kind, sweep_name, sweepProcess, managed_process, sweep_networks,
    sweep_network, forget_unseen, listProcesses, stopProcess, getDeploymentByContainerName,
    listDeploymentRuntimeInstances.
  stroll; first
    [ solve [auto using sweeps_adopt with within]
    | apply Hop; unfold hasActiveActivationLeases; walk
    | intros s; unfold of_world; simpl; reflexivity ].
Qed.

(** Sweepers spare what is settled. Whatever the rest of the system does
    and the host answers, every write of the worker's sweeps - the two of the
    activation manager, the idle sweep, the orphan sweep and the retention
    sweep - leaves each deployment as it was, or takes it from running or
    draining to stopped or failed: none is archived, un-archived or run. *)
Lemma sweepers_spare_settled_deployments rk limit stale options runs policy graceMs kinds networks now :
  within (logs_only spare) (reconcileRuntimeInstances rk limit) /\
  within (logs_only spare) (recoverStartingRuntimeInstances limit stale) /\
  within (logs_only spare) (reapIdleDeployments rk options) /\
  within (logs_only spare) (sweepReleaseRetention runs policy) /\
  within (of_world (logs_only spare)) (reapOrphanProcesses graceMs kinds rk networks now).
Proof.
  split; [apply sparing_reconcile|]. split; [apply sparing_recover|]. split; [apply sparing_idle|].
  split; [apply sparing_retention|apply sparing_orphans].
Qed.
End Orphans.

(** *** The idle sweep stops what it has just seen idle *)

(** The node-observed sessions of an instance that run. *)
Definition observed_running (runtimeInstanceId : string) (d : database) : bool :=
  existsb (fun n => bool_decide (SessionNode.lastObservedRuntimeInstanceId n = Some runtimeInstanceId)
                    && existsb (fun s => bool_decide (Session.id s = SessionNode.rootSessionId n)
                                         && bool_decide (Session.status s = SessionStatus.running))
                         (rows (sessions d)))
    (rows (sessionNodes d)).

Definition reads (name : string) (d : database) : work_event := Stored (StoreCall name) d d.

(** What must directly precede the stop of [processName]: the reads of the
    deployment of a claimed instance, of its leases, of the sessions observed on
    the instance, and of the instance, which is still draining. *)
Definition seen_idle (rk : string -> result runtime_adapter) (now : time)
    (claimed : list RuntimeInstance.runtime_instance_row) (past : list work_event)
    (kind processName : string) : Prop :=
  exists earlier instance deployment adapter row d0 d1 d2 d3,
    past = earlier ++ [reads "getDeployment" d0; reads "hasActiveActivationLeases" d1;
                       reads "hasRunningSessionsObservedBy" d2; reads "getRuntimeInstance" d3] /\
    instance ∈ claimed /\
    deployments d0 !! RuntimeInstance.deploymentId instance = Some deployment /\
    processName = Deployment.containerName deployment /\
    rk (Deployment.runtimeKind deployment) = Ok adapter /\ kind = ra_name adapter /\
    has_active_lease (Deployment.id deployment) now d1 = false /\
    observed_running (RuntimeInstance.id instance) d2 = false /\
    runtimeInstances d3 !! RuntimeInstance.id instance = Some row /\
    RuntimeInstance.status row = RuntimeStatus.draining.

(** A stop needs that past, any other call none. *)
Definition idle_stop rk now claimed (past : list work_event) (e : work_event) : Prop :=
  match e with
  | Host (StopProcess kind name _) => seen_idle rk now claimed past kind name
  | _ => True
  end.

Definition not_stop (e : work_event) : Prop :=
  match e with Host (StopProcess _ _ _) => False | _ => True end.

Section IdleStops.
Context `{Platform} `{WorkerHost}.

Lemma idle_stop_later rk now claimed earlier past e :
  idle_stop rk now claimed past e -> idle_stop rk now claimed (earlier ++ past) e.
Proof.
  destruct e as [[]| |]; try done. intros (past' & rest). destruct rest as (i & dep & a & row & d0 & d1 & d2 & d3 & -> & rest).
  exists (earlier ++ past'), i, dep, a, row, d0, d1, d2, d3. by rewrite app_assoc.
Qed.

Lemma not_stop_free rk now claimed e : not_stop e -> idle_stop rk now claimed [] e.
Proof. by destruct e as [[]| |]. Qed.

Lemma no_stop_op {A} name (m : Tx A) : within (logs_only not_stop) (op name m).
Proof. by apply logs_stored. Qed.
#[local] Hint Resolve no_stop_op : within.

Lemma no_stop_update id st error now : within (logs_only not_stop) (update_instance id st error now).
Proof. unfold update_instance. stroll. Qed.
Lemma no_stop_log pid did line : within (logs_only not_stop) (runtime_log pid did line).
Proof. unfold runtime_log. stroll. Qed.
Lemma no_stop_transition did to from : within (logs_only not_stop) (transition did to from).
Proof. apply no_stop_op. Qed.
#[local] Hint Resolve no_stop_update no_stop_log no_stop_transition : within.

(** A guarded block whose first call is of the host. *)
Lemma hosted_first {A B} P (c : result A -> host_call) answer (k : A -> Work B) h w r w' :
  (forall a, within (logs_only P) (k a)) -> (forall e, within (logs_only P) (h e)) ->
  try_catch (bind (hosted c answer) k) h w = (r, w') ->
  exists a es, w_log w' = w_log w ++ Host (c a) :: es /\ Forall P es.
Proof.
  intros Hk Hh Hrun.
  assert (Hrest : forall a w1, w_log w1 = w_log w ++ [Host (c a)] ->
    logs_only P w1 w' -> exists a es, w_log w' = w_log w ++ Host (c a) :: es /\ Forall P es).
  { intros a w1 Hlog (es & Hes & Hall). exists a, es. split; [|done]. by rewrite Hes, Hlog, <- app_assoc. }
  apply try_catch_run in Hrun as [(n & Hrun & ->)|(e & w1 & Hrun & Hcatch)].
  - apply bind_ok in Hrun as (a & w1 & [Hlog _]%hosted_run & Hrun). eapply Hrest; [exact Hlog|].
    by eapply logs_run.
  - pose proof (logs_run _ _ _ _ _ (Hh e) Hcatch) as Hl.
    apply bind_run in Hrun as [(e' & [Hlog _]%hosted_run & _)|(a & w2 & [Hlog _]%hosted_run & Hrun)];
      [by eapply Hrest|]. eapply Hrest; [exact Hlog|]. etransitivity; [|exact Hl]. by eapply logs_run.
Qed.

(** The stop comes first. *)
Lemma stop_idle_run runtime dep id now stopped w r w' :
  stop_idle runtime dep id now stopped w = (r, w') ->
  exists answer es, w_log w' = w_log w ++
    Host (StopProcess (ra_name runtime) (Deployment.containerName dep) answer) :: es /\
    Forall not_stop es.
Proof.
  intros Hrun. unfold stop_idle, stopProcess in Hrun.
  apply (hosted_first not_stop) in Hrun as (a & Hes); [|intros; stroll..].
  destruct Hes as (es' & Hlog & Hes). eauto.
Qed.

(** A read of a store after [seen], and what it answers. *)
Lemma read_after {A} name (q : database -> A) w seen w1 r w2 :
  w_log w1 = w_log w ++ seen -> op name (read q) w1 = (r, w2) ->
  exists d, r = Ok (q d) /\ w_log w2 = w_log w ++ (seen ++ [reads name d]).
Proof.
  intros Hlog Hrun. apply read_run in Hrun as (-> & _ & Hlog2). exists (st_db (w_store w2)).
  split; [done|]. by rewrite Hlog2, Hlog, <- app_assoc.
Qed.

Lemma reap_idle_justified rk now claimed stopped instance :
  instance ∈ claimed ->
  within (logs_justified (idle_stop rk now claimed)) (reap_idle rk now stopped instance).
Proof.
  intros Hin w. unfold exec. destruct (reap_idle rk now stopped instance w) as [r w'] eqn:Hrun. simpl.
  assert (Hfree : forall seen w1, w_log w1 = w_log w ++ seen -> Forall not_stop seen ->
    logs_only not_stop w1 w' -> logs_justified (idle_stop rk now claimed) w w').
  { intros seen w1 Hseen Hall Hl. apply logs_free; [apply idle_stop_later|].
    eapply logs_weaken; [intros e; apply not_stop_free|].
    etransitivity; [exists seen; split; [exact Hseen|exact Hall]|exact Hl]. }
  assert (Hreads : forall l : list (string * database), Forall not_stop ((fun nd => reads nd.1 nd.2) <$> l))
    by (intros l; apply Forall_fmap, Forall_true; done).
  assert (Hrevive : forall id stopped, within (logs_only not_stop) (revive id now stopped))
    by (intros; unfold revive; stroll).
  unfold reap_idle in Hrun.
  apply bind_run in Hrun as [(e & Hr & _)|(found & w1 & Hr & Hrun)];
    apply (read_after _ _ w []) in Hr as (d0 & Hf & Hl1); try (by rewrite app_nil_r); [done|].
  injection Hf as ->. destruct (deployments d0 !! _) as [dep|] eqn:Hdep.
  2: { eapply Hfree; [exact Hl1|exact (Hreads [(_, _)])|]. eapply logs_run; [|exact Hrun]. stroll. }
  apply bind_run in Hrun as [(e & Hr & _)|(leased & w2 & Hr & Hrun)];
    apply (read_after _ (has_active_lease _ now) w _ _ _ _ Hl1) in Hr as (d1 & Hf & Hl2); [done|].
  injection Hf as ->. destruct (has_active_lease _ now _) eqn:Hleased.
  { eapply Hfree; [exact Hl2|exact (Hreads [(_, _); (_, _)])|]. eapply logs_run; [|exact Hrun]. apply Hrevive. }
  apply bind_run in Hrun as [(e & Hr & _)|(running & w3 & Hr & Hrun)];
    apply (read_after _ (observed_running _) w _ _ _ _ Hl2) in Hr as (d2 & Hf & Hl3); [done|].
  injection Hf as ->. destruct (observed_running _ _) eqn:Hobs.
  { eapply Hfree; [exact Hl3|exact (Hreads [(_, _); (_, _); (_, _)])|].
    eapply logs_run; [|exact Hrun]. apply Hrevive. }
  destruct (rk _) as [adapter|e] eqn:Hrk.
  2: { injection Hrun as <- <-. eapply Hfree; [exact Hl3|exact (Hreads [(_, _); (_, _); (_, _)])|reflexivity]. }
  apply bind_run in Hrun as [(e & [=] & _)|(adapter' & w3' & [= <- <-] & Hrun)].
  apply bind_run in Hrun as [(e & Hr & _)|(row & w4 & Hr & Hrun)];
    apply (read_after _ _ w _ _ _ _ Hl3) in Hr as (d3 & Hf & Hl4); [done|].
  injection Hf as ->.
  destruct (match runtimeInstances d3 !! _ with Some r => _ | None => false end) eqn:Hst.
  2: { injection Hrun as <- <-. eapply Hfree; [exact Hl4|exact (Hreads [(_, _); (_, _); (_, _); (_, _)])|reflexivity]. }
  destruct (runtimeInstances d3 !! _) as [row|] eqn:Hrow; [|done].
  apply stop_idle_run in Hrun as (answer & es & Hlog & Hes).
  eexists. split; [rewrite Hlog, Hl4, <- app_assoc; reflexivity|].
  change (Host ?c :: es) with ([Host c] ++ es). rewrite app_assoc.
  assert (Hquiet : forall es, Forall not_stop es -> justified (idle_stop rk now claimed) es).
  { intros fs Hfs. apply justified_free; [apply idle_stop_later|]. eapply Forall_impl; [exact Hfs|].
    intros e. apply not_stop_free. }
  apply justified_app; [apply idle_stop_later| |by apply Hquiet].
  apply justified_snoc; [exact (Hquiet _ (Hreads [(_, _); (_, _); (_, _); (_, _)]))|].
  exists [], instance, dep, adapter, row, d0, d1, d2, d3. apply bool_decide_eq_true in Hst. naive_solver.
Qed.

(** C23. The idle sweep stops only what it has just seen idle. However the rest
    of the system interleaves, each stop it asks the host for directly follows
    four reads: of the deployment of an instance it has claimed, whose process
    and runtime it is; of its leases, none of which is active; of the sessions
    the instance was observed to run, none of which is running; and of the
    instance, which is still draining. *)
Theorem idle_stops_are_rechecked rk options w r w' :
  reapIdleDeployments rk options w = (r, w') ->
  exists es, w_log w' = w_log w ++ es /\
  forall past kind processName answer future,
    es = past ++ Host (StopProcess kind processName answer) :: future ->
    exists now input claimed s s', claimIdleRuntimeInstances input s = (Ok claimed, s') /\
      idle_now input = now /\ seen_idle rk now claimed past kind processName.
Proof.
  intros Hrun. apply bind_run in Hrun as [(e & [t [=]]%date_now_ok & _)|(now & w1 & Hn & Hrun)].
  pose proof (logs_run _ _ _ _ _ (logs_date_now not_stop) Hn) as Hl1.
  apply bind_run in Hrun as [(e & Hc & _)|(claimed & w2 & Hc & Hrun)];
    pose proof (logs_run _ _ _ _ _ (no_stop_op _ _) Hc) as Hl2.
  - assert (Hl : logs_only not_stop w w') by by etransitivity. destruct Hl as (es & Hlog & Hes).
    exists es. split; [done|]. intros past kind name answer future ->.
    rewrite Forall_app, Forall_cons in Hes. by destruct Hes as (_ & [] & _).
  - apply stored_run in Hc as (s' & Hc & _ & _).
    assert (Hj : logs_justified (idle_stop rk now claimed) w2 w').
    { eapply within_run; [|exact Hrun]. apply within_fold_in; [apply logs_justified_preorder, idle_stop_later|].
      intros n i Hi. by apply reap_idle_justified. }
    assert (Hw : logs_justified (idle_stop rk now claimed) w w2).
    { apply logs_free; [apply idle_stop_later|]. eapply logs_weaken; [intros e; apply not_stop_free|].
      by etransitivity. }
    destruct (logs_justified_preorder _ (idle_stop_later rk now claimed)) as [_ Htrans].
    destruct (Htrans _ _ _ Hw Hj) as (es & Hlog & Hes). exists es. split; [exact Hlog|].
    intros past kind name answer future Heq. exists now. do 4 eexists. split; [exact Hc|]. split; [done|].
    exact (Hes _ _ _ Heq).
Qed.
End IdleStops.

(** *** A sweep never throws *)

Definition total {S A} (m : M S A) : Prop := forall s, exists a s', m s = (Ok a, s').

Section Total.
Context {S : Type}.

Lemma total_ret {A} (a : A) : total (S := S) (ret a).
Proof. intros s. eauto. Qed.

Lemma total_modify (f : S -> S) : total (modify f).
Proof. intros s. unfold modify. eauto. Qed.

Lemma total_gets {A} (f : S -> A) : total (gets f).
Proof. intros s. unfold gets. eauto. Qed.

Lemma total_bind {A B} (m : M S A) (k : A -> M S B) : total m -> (forall a, total (k a)) -> total (bind m k).
Proof. intros Hm Hk s. destruct (Hm s) as (a & s1 & H1). rewrite (bind_step _ _ _ _ _ H1). apply Hk. Qed.

Lemma total_catch {A} (m : M S A) h : (forall e, total (h e)) -> total (try_catch m h).
Proof.
  intros Hh s. unfold try_catch. destruct (m s) as [[a|e] s1]; [eauto|apply Hh].
Qed.

Lemma total_fold {A B} (f : B -> A -> M S B) xs b : (forall b x, total (f b x)) -> total (fold_m f xs b).
Proof.
  intros Hf. revert b. induction xs as [|x xs IH]; intros b; [apply total_ret|]. by apply total_bind.
Qed.
End Total.
#[local] Hint Resolve total_ret total_modify total_gets : within.

Ltac totally :=
  repeat first
    [ progress (intros; cbv beta zeta)
    | match goal with
      | |- total (match ?x with _ => _ end) => destruct x
      | |- total (bind _ _) => apply total_bind
      | |- total (fold_m _ _ _) => apply total_fold
      | |- total (try_catch _ _) => apply total_catch
      end
    | solve [eauto with within] ].

Section SweepTotal.
Context `{Platform} `{WorkerHost}.

Lemma total_sweep_kinds graceMs rk now kinds n : total (fold_m (sweep_kind graceMs rk now) kinds n).
Proof. unfold sweep_kind, sweep_name, mark_seen. totally. Qed.

Lemma total_sweep_networks graceMs networks now n : total (sweep_networks graceMs networks now n).
Proof. unfold sweep_networks, sweep_network, mark_seen, first_seen. totally. Qed.
End SweepTotal.

(** *** The grace of an orphan

    What one sweep at [now] says of the process [name] of the runtime [kind]. *)
Section Grace.
Context `{Platform} `{WorkerHost}.
Context (graceMs : Z) (rk : string -> result runtime_adapter).
Context (Hrk : forall kind adapter, rk kind = Ok adapter -> ra_name adapter = kind).
Context (kind name : string).

(** The host listed it. *)
Definition listed (es : list work_event) : Prop :=
  exists names, Host (ListProcesses kind DEPLOYMENT_PROCESS_PREFIX (Ok names)) ∈ es /\ name ∈ names.

Definition deployment_of_container (name : string) (d : database) : option Deployment.deployment_row :=
  head (order_by newest_deployment
    (select_where (fun r => bool_decide (Deployment.containerName r = name)) (deployments d))).

(** No deployment answers for it: it has none, its deployment belongs to another
    runtime, or the deployment neither runs nor drains, nobody leases it and no
    instance of it is live. *)
Definition disowned (now : time) (es : list work_event) : Prop :=
  exists d, reads "getDeploymentByContainerName" d ∈ es /\
    match deployment_of_container name d with
    | None => True
    | Some dep =>
        Deployment.runtimeKind dep <> kind \/
        ((Deployment.status dep ∉ [DeploymentStatus.running; DeploymentStatus.draining]) /\
         (exists d1, reads "hasActiveActivationLeases" d1 ∈ es /\
            has_active_lease (Deployment.id dep) now d1 = false) /\
         exists d2, reads "listDeploymentRuntimeInstances" d2 ∈ es /\
           forall k r, runtimeInstances d2 !! k = Some r ->
             RuntimeInstance.deploymentId r = Deployment.id dep ->
             runtime_live (RuntimeInstance.status r) = false)
    end.

(** The sweep tried to adopt it. *)
Definition adoption_tried (es : list work_event) : Prop :=
  exists d d', Stored (StoreCall "adoptRuntimeInstance") d d' ∈ es.

Definition stop_asked (es : list work_event) : Prop :=
  exists answer, Host (StopProcess kind name answer) ∈ es.

Definition process_key : string := kind +:+ ":" +:+ name.

Lemma listed_more es fs : listed es -> listed (es ++ fs).
Proof. intros (l & Hl & Hn). exists l. split; [apply elem_of_app; by left|done]. Qed.

Lemma disowned_app now es fs : disowned now es \/ disowned now fs -> disowned now (es ++ fs).
Proof.
  intros Hor. destruct Hor as [(d & Hd & Hm)|(d & Hd & Hm)]; exists d; (split; [apply elem_of_app; tauto|]);
    destruct (deployment_of_container name d) as [dep|]; try done;
    destruct Hm as [?|(Hs & (d1 & ? & ?) & (d2 & ? & ?))]; first
      [ by left
      | right; split; [done|]; split; eexists; (split; [apply elem_of_app; eauto|done]) ].
Qed.

Lemma adoption_app es fs : adoption_tried es \/ adoption_tried fs -> adoption_tried (es ++ fs).
Proof.
  unfold adoption_tried. setoid_rewrite elem_of_app. intros [(d & d' & ?)|(d & d' & ?)]; eauto.
Qed.

Lemma stop_asked_app es fs : stop_asked (es ++ fs) <-> stop_asked es \/ stop_asked fs.
Proof.
  unfold stop_asked. split.
  - intros [a [?|?]%elem_of_app]; eauto.
  - intros [[a ?]|[a ?]]; exists a; apply elem_of_app; auto.
Qed.

Definition age (s : sweep_state) : option time := ss_firstSeen s !! process_key.

(** What a visit of the process does to its age, with the events of the visit. *)
Definition visited (now : time) (s : sweep_state) (es : list work_event) (s' : sweep_state) : Prop :=
  w_log (ss_world s') = w_log (ss_world s) ++ es /\
  (stop_asked es -> disowned now es /\ (graceMs <= now - default now (age s))%Z) /\
  forall t, age s' = Some t ->
    (t = default now (age s) /\ disowned now es) \/ (age s = Some t /\ adoption_tried es).

Lemma swept_read_run {A} n (q : database -> A) s r s' :
  swept (op n (read q)) s = (r, s') ->
  exists d, r = Ok (q d) /\ w_log (ss_world s') = w_log (ss_world s) ++ [reads n d] /\
    ss_firstSeen s' = ss_firstSeen s.
Proof.
  intros (Hrun & Hf & _)%swept_run. apply read_run in Hrun as (-> & _ & Hlog).
  exists (st_db (w_store (ss_world s'))). by split.
Qed.

Lemma quiet_not_asked es : Forall not_stop es -> ~ stop_asked es.
Proof. intros Hall [a Ha]. rewrite Forall_forall in Hall. exact (Hall _ Ha). Qed.

(** The control plane's answer. *)
Lemma managed_run dep now s r s' :
  managed_process dep name process_key now s = (r, s') ->
  exists es, w_log (ss_world s') = w_log (ss_world s) ++ es /\ Forall not_stop es /\
    match r with
    | Ok true => age s' = None
    | Ok false => age s' = age s /\ (Deployment.status dep ∉ sweepable) /\
        (exists d1, reads "hasActiveActivationLeases" d1 ∈ es /\
           has_active_lease (Deployment.id dep) now d1 = false) /\
        exists d2, reads "listDeploymentRuntimeInstances" d2 ∈ es /\
          forall k r, runtimeInstances d2 !! k = Some r ->
            RuntimeInstance.deploymentId r = Deployment.id dep ->
            runtime_live (RuntimeInstance.status r) = false
    | Err _ => age s' = age s /\ adoption_tried es
    end.
Proof.
  intros Hrun. unfold managed_process in Hrun.
  apply bind_run in Hrun as [(e & Hr & _)|(leased & s1 & Hr & Hrun)];
    apply (swept_read_run _ (has_active_lease _ now)) in Hr as (d1 & Hf & Hl1 & Hf1); [done|].
  injection Hf as ->. destruct (has_active_lease _ now d1) eqn:Hleased.
  { injection Hrun as <- <-. eexists. split; [exact Hl1|].
    split; [by apply Forall_singleton|]. apply lookup_delete_eq. }
  apply bind_run in Hrun as [(e & Hr & _)|(rows & s2 & Hr & Hrun)];
    apply swept_read_run in Hr as (d2 & Hf & Hl2 & Hf2); [done|].
  injection Hf as ->.
  assert (Hl : w_log (ss_world s2) = w_log (ss_world s) ++ [reads "hasActiveActivationLeases" d1;
    reads "listDeploymentRuntimeInstances" d2]) by by rewrite Hl2, Hl1, <- app_assoc.
  destruct (existsb _ _) eqn:Hlive.
  { injection Hrun as <- <-. eexists. split; [exact Hl|].
    split; [by repeat constructor|]. apply lookup_delete_eq. }
  case_bool_decide as Hst.
  2: { injection Hrun as <- <-. eexists. split; [exact Hl|].
       split; [by repeat constructor|]. unfold age. rewrite Hf2, Hf1. split; [done|]. split; [done|].
       split; [exists d1; split; [by left|done]|]. exists d2. split; [by right; left|].
       intros k r Hk Hd. destruct (runtime_live _) eqn:Hlr; [|done]. exfalso.
       rewrite <- not_true_iff_false, existsb_exists in Hlive. apply Hlive. exists r. split; [|done].
       apply list_elem_of_In, elem_of_order_by, elem_of_select. split; [by apply bool_decide_eq_true|by exists k]. }
  assert (Hage2 : age s2 = age s) by (unfold age; by rewrite Hf2, Hf1).
  apply bind_run in Hrun as [(e & Hr & ->)|(adopted & s3 & Hr & Hrun)];
    apply swept_run in Hr as ((s0 & _ & _ & Hl3)%stored_run & Hf3 & _).
  { eexists. split; [rewrite Hl3, Hl, <- app_assoc; reflexivity|].
    split; [by repeat constructor|]. split; [unfold age in *; congruence|].
    do 2 eexists. right. right. by left. }
  assert (Hrest : exists es, w_log (ss_world s') = w_log (ss_world s3) ++ es /\
    Forall not_stop es /\ match r with Ok b => b = true /\ age s' = None | Err _ => age s' = age s3 end).
  { assert (Hlog : forall m : Work unit, within (logs_only not_stop) m ->
      forall r0 s4, swept m s3 = (r0, s4) -> exists es, w_log (ss_world s4) = w_log (ss_world s3) ++ es /\
        Forall not_stop es /\ age s4 = age s3).
    { intros m Hm r0 s4 (Hrun4 & Hf4 & _)%swept_run. destruct (logs_run _ _ _ _ _ Hm Hrun4) as (es & Hes & Hq).
      exists es. unfold age. by rewrite Hf4. }
    destruct adopted as [row|].
    - apply bind_run in Hrun as [(e & Hr & ->)|(u & s4 & Hr & Hrun)];
        apply (Hlog _ (no_stop_log _ _ _)) in Hr as (es & Hes & Hq & Ha); exists es; [done|].
      injection Hrun as <- <-. split; [done|]. split; [done|]. split; [done|]. apply lookup_delete_eq.
    - injection Hrun as <- <-. exists []. rewrite app_nil_r. split; [done|]. split; [done|].
      split; [done|]. apply lookup_delete_eq. }
  destruct Hrest as (es & Hl4 & Hes & Hr).
  eexists. split; [rewrite Hl4, Hl3, Hl, <- !app_assoc; reflexivity|].
  split; [by repeat (apply Forall_cons; split; [done|])|].
  destruct r as [b|e]; [by destruct Hr as [-> ?]|].
  split; [unfold age in *; congruence|]. do 2 eexists. apply elem_of_app. right. by left.
Qed.

(** What follows when nobody answers. *)
Definition condemn (adapter : runtime_adapter) (now : time)
    (deployment : option Deployment.deployment_row) : Sweep nat :=
  firstSeen <- first_seen process_key now ;;
  if (now - firstSeen <? graceMs)%Z then ret 0
  else
    swept (stopProcess adapter name) ;;
    forget process_key ;;
    match deployment with
    | Some d => swept (runtime_log (Deployment.projectId d) (Deployment.id d) (orphan_line kind name d))
    | None => ret tt
    end ;;
    ret 1.

Lemma condemn_run adapter now dep s r s' :
  rk kind = Ok adapter -> condemn adapter now dep s = (r, s') ->
  exists es, w_log (ss_world s') = w_log (ss_world s) ++ es /\
    (stop_asked es -> (graceMs <= now - default now (age s))%Z) /\
    forall t, age s' = Some t -> t = default now (age s).
Proof.
  intros Hk Hrun. unfold condemn in Hrun.
  apply bind_run in Hrun as [(e & [=] & _)|(first & s1 & [= <- <-] & Hrun)]. fold (age s) in Hrun.
  set (s1 := (s <| ss_firstSeen ::= _ |>)) in Hrun.
  assert (Hage : age s1 = Some (default now (age s))) by apply lookup_insert_eq.
  destruct (Z.ltb_spec (now - default now (age s)) graceMs) as [Hlt|Hge].
  { injection Hrun as <- <-. exists []. rewrite app_nil_r. split; [done|].
    split; [by intros [a ?%elem_of_nil]|]. rewrite Hage. by intros t [= <-]. }
  apply bind_run in Hrun as [(e & Hr & ->)|(u & s2 & Hr & Hrun)];
    apply swept_run in Hr as ((Hl2 & _)%hosted_run & Hf2 & _).
  { eexists. split; [exact Hl2|]. split; [done|]. unfold age at 1. rewrite Hf2.
    fold (age s1). rewrite Hage. by intros t [= <-]. }
  apply bind_run in Hrun as [(e & [=] & _)|(u' & s3 & [= <- <-] & Hrun)].
  set (s3 := (s2 <| ss_firstSeen ::= _ |>)) in Hrun.
  assert (Hage3 : age s3 = None) by apply lookup_delete_eq.
  assert (Hlast : exists es, w_log (ss_world s') = w_log (ss_world s3) ++ es /\ age s' = None).
  { assert (Hmatch : forall r0 s4, match dep with
        | Some d => swept (runtime_log (Deployment.projectId d) (Deployment.id d) (orphan_line kind name d))
        | None => ret tt end s3 = (r0, s4) ->
      exists es, w_log (ss_world s4) = w_log (ss_world s3) ++ es /\ age s4 = None).
    { intros r0 s4. destruct dep as [d|]; [|intros [= <- <-]; exists []; by rewrite app_nil_r].
      intros (Hr4 & Hf4 & _)%swept_run. destruct (logs_run _ _ _ _ _ (no_stop_log _ _ _) Hr4) as (es & Hes & _).
      exists es. unfold age. by rewrite Hf4. }
    apply bind_run in Hrun as [(e & Hr & ->)|(v & s4 & Hr & [= <- <-])]; by eapply Hmatch. }
  destruct Hlast as (es & Hl4 & Ha). eexists.
  split; [rewrite Hl4; simpl; rewrite Hl2, <- app_assoc; reflexivity|].
  split; [done|]. by rewrite Ha.
Qed.

Lemma visit_run adapter now s r s' :
  rk kind = Ok adapter -> sweepProcess graceMs adapter kind name process_key now s = (r, s') ->
  exists es, visited now s es s'.
Proof.
  intros Hk Hrun. unfold sweepProcess in Hrun.
  apply bind_run in Hrun as [(e & Hr & _)|(dep & s1 & Hr & Hrun)];
    apply (swept_read_run _ (deployment_of_container name)) in Hr as (d & Hf & Hl1 & Hf1); [done|].
  injection Hf as ->.
  assert (Hage1 : age s1 = age s) by (unfold age; by rewrite Hf1).
  assert (Hcondemned : forall es s2, w_log (ss_world s2) = w_log (ss_world s) ++ es ->
    age s2 = age s -> Forall not_stop es -> disowned now es ->
    condemn adapter now (deployment_of_container name d) s2 = (r, s') -> exists es, visited now s es s').
  { intros es s2 Hl2 Ha2 Hq Hd Hc. apply (condemn_run _ _ _ _ _ _ Hk) in Hc as (fs & Hl3 & Hstop & Ha3).
    rewrite Ha2 in *. exists (es ++ fs). split; [by rewrite Hl3, Hl2, app_assoc|]. split.
    - intros [Hq'|Ha]%stop_asked_app; [by apply quiet_not_asked in Hq|]. split; [|auto].
      apply disowned_app. by left.
    - intros t ?. left. split; [auto|]. apply disowned_app. by left. }
  assert (Hd : reads "getDeploymentByContainerName" d ∈ [reads "getDeploymentByContainerName" d]) by by left.
  assert (Helse : match deployment_of_container name d with
                  | Some dep => Deployment.runtimeKind dep <> kind | None => True end ->
    condemn adapter now (deployment_of_container name d) s1 = (r, s') -> exists es, visited now s es s').
  { intros Hno. apply (Hcondemned [_] s1 Hl1 Hage1); [by repeat constructor|].
    exists d. split; [done|]. destruct (deployment_of_container name d); [by left|done]. }
  destruct (deployment_of_container name d) as [dep|] eqn:Hdep.
  2: { apply bind_run in Hrun as [(e & [=] & _)|(m & s2 & [= <- <-] & Hrun)]. by apply Helse. }
  case_bool_decide as Hkind.
  2: { apply bind_run in Hrun as [(e & [=] & _)|(m & s2 & [= <- <-] & Hrun)]. by apply Helse. }
  apply bind_run in Hrun as [(e & Hm & ->)|(m & s2 & Hm & Hrun)];
    apply managed_run in Hm as (es & Hl2 & Hq & Hm); rewrite Hl1, <- app_assoc in Hl2;
    assert (Hquiet : Forall not_stop ([reads "getDeploymentByContainerName" d] ++ es)) by by constructor.
  - eexists. split; [exact Hl2|].
    split; [intros Ha; by apply quiet_not_asked in Hquiet|]. destruct Hm as [Ha Htried]. intros t Ht. right.
    split; [congruence|]. apply adoption_app. by right.
  - destruct m.
    + injection Hrun as <- <-. eexists. split; [exact Hl2|].
      split; [intros Ha; by apply quiet_not_asked in Hquiet|]. by rewrite Hm.
    + destruct Hm as (Ha & Hst & (d1 & Hd1 & Hlease) & (d2 & Hd2 & Hlive)).
      eapply Hcondemned; [exact Hl2|congruence|exact Hquiet| |exact Hrun].
      exists d. split; [by left|]. rewrite Hdep. right. split; [done|].
      split; [exists d1|exists d2]; (split; [by right|done]).
Qed.

(** *** One sweep *)

(** The events of a sweep that stands at [s] and started at [s0]. *)
Definition turn_log (s0 s : sweep_state) : list work_event :=
  drop (length (w_log (ss_world s0))) (w_log (ss_world s)).

Lemma turn_log_app s0 s s' es :
  w_log (ss_world s0) `prefix_of` w_log (ss_world s) ->
  w_log (ss_world s') = w_log (ss_world s) ++ es -> turn_log s0 s' = turn_log s0 s ++ es.
Proof.
  intros [k Hk] Hs. unfold turn_log. rewrite Hs, Hk, <- app_assoc, !drop_app_length. done.
Qed.

(** Why the age is what it is, and why a stop was asked for. *)
Definition sweep_inv (now : time) (s0 s : sweep_state) : Prop :=
  w_log (ss_world s0) `prefix_of` w_log (ss_world s) /\
  (forall t, age s = Some t ->
     ((process_key ∉ ss_seen s) /\ age s0 = Some t) \/
     (listed (turn_log s0 s) /\
      ((t = now /\ disowned now (turn_log s0 s)) \/
       (age s0 = Some t /\ (disowned now (turn_log s0 s) \/ adoption_tried (turn_log s0 s)))))) /\
  (stop_asked (turn_log s0 s) ->
     listed (turn_log s0 s) /\ disowned now (turn_log s0 s) /\
     exists t, (t = now \/ age s0 = Some t) /\ (graceMs <= now - t)%Z).

(** A step that is not about the process. *)
Definition elsewhere (s s' : sweep_state) : Prop :=
  exists es, w_log (ss_world s') = w_log (ss_world s) ++ es /\ ~ stop_asked es /\ age s' = age s /\
    (process_key ∈ ss_seen s' <-> process_key ∈ ss_seen s).

#[local] Instance elsewhere_preorder : PreOrder elsewhere.
Proof.
  split.
  - intros s. exists []. rewrite app_nil_r. split; [done|]. split; [by intros [a ?%elem_of_nil]|]. done.
  - intros s1 s2 s3 (es & Hl1 & Hn1 & Ha1 & Hs1) (fs & Hl2 & Hn2 & Ha2 & Hs2). exists (es ++ fs).
    split; [by rewrite Hl2, Hl1, app_assoc|]. rewrite stop_asked_app. split; [tauto|].
    split; [congruence|tauto].
Qed.

Lemma elsewhere_inv now s0 s s' : elsewhere s s' -> sweep_inv now s0 s -> sweep_inv now s0 s'.
Proof.
  intros (es & Hl & Hn & Ha & Hseen) (Hpre & Hage & Hstop).
  assert (Htl : turn_log s0 s' = turn_log s0 s ++ es) by by apply turn_log_app.
  split; [rewrite Hl; by apply prefix_app_r|]. rewrite Htl, Ha. split.
  - intros t Ht. destruct (Hage t Ht) as [[? ?]|(Hlist & Hwhy)]; [left; split; [tauto|done]|right].
    split; [by apply listed_more|]. destruct Hwhy as [[-> ?]|[? [?|?]]].
    + left. split; [done|]. apply disowned_app. by left.
    + right. split; [done|]. left. apply disowned_app. by left.
    + right. split; [done|]. right. apply adoption_app. by left.
  - intros [Hs|Hs]%stop_asked_app; [|done]. destruct (Hstop Hs) as (Hlist & Hd & Hg).
    split; [by apply listed_more|]. split; [apply disowned_app; by left|done].
Qed.

Lemma visited_inv now s0 s es s' :
  listed (turn_log s0 s) -> visited now s es s' -> sweep_inv now s0 s -> sweep_inv now s0 s'.
Proof.
  intros Hlist (Hl & Hs & Ha) (Hpre & Hage & Hstop).
  assert (Htl : turn_log s0 s' = turn_log s0 s ++ es) by by apply turn_log_app.
  assert (Horigin : forall t, age s = Some t -> t = now /\ disowned now (turn_log s0 s) \/ age s0 = Some t).
  { intros t Ht. destruct (Hage t Ht) as [[_ ?]|(_ & [?|[? _]])]; auto. }
  split; [rewrite Hl; by apply prefix_app_r|]. rewrite Htl. split.
  - intros t Ht. right. split; [by apply listed_more|].
    destruct (Ha t Ht) as [[-> Hd]|[Ht0 Htry]].
    + destruct (age s) as [t|]; simpl; [destruct (Horigin t eq_refl) as [[-> _]|?]|]; [left|right|left];
        (split; [done|]); [| left|]; apply disowned_app; by right.
    + destruct (Horigin t Ht0) as [[-> ?]|?]; [left; split; [done|]; apply disowned_app; by left|].
      right. split; [done|]. right. apply adoption_app. by right.
  - intros [Hp|Hp]%stop_asked_app.
    + destruct (Hstop Hp) as (_ & Hd & Hg). split; [by apply listed_more|]. split; [apply disowned_app; by left|done].
    + destruct (Hs Hp) as [Hd Hg]. split; [by apply listed_more|]. split; [apply disowned_app; by right|].
      exists (default now (age s)). split; [|done]. destruct (age s) as [t|]; simpl; [|by left].
      destruct (Horigin t eq_refl) as [[-> _]|?]; auto.
Qed.

(** *** The other processes, and the networks *)

Context (Hkind : kind ∈ ["systemd"; "docker"]).

Lemma process_key_of kind' name' :
  kind' ∈ ["systemd"; "docker"] -> kind' +:+ ":" +:+ name' = process_key -> kind' = kind /\ name' = name.
Proof.
  unfold process_key. intros Hk. apply elem_of_cons in Hk as [->| ->%list_elem_of_singleton];
    apply elem_of_cons in Hkind as [->| ->%list_elem_of_singleton]; simpl; intros Heq; by simplify_eq.
Qed.

Lemma network_key network : "docker-network:" +:+ network <> process_key.
Proof.
  unfold process_key. apply elem_of_cons in Hkind as [->| ->%list_elem_of_singleton]; by simpl.
Qed.

(** Events that ask for no stop of the process. *)
Definition not_this_stop (e : work_event) : Prop := forall answer, e <> Host (StopProcess kind name answer).

Lemma elsewhere_swept {A} (m : Work A) : within (logs_only not_this_stop) m -> within elsewhere (swept m).
Proof.
  intros Hm s. unfold exec. destruct (swept m s) as [r s'] eqn:Hrun. simpl.
  apply swept_run in Hrun as (Hrun & Hf & Hs). destruct (logs_run _ _ _ _ _ Hm Hrun) as (es & Hl & Hes).
  exists es. split; [exact Hl|]. split; [|unfold age; by rewrite Hf, Hs].
  intros [a Ha]. rewrite Forall_forall in Hes. exact (Hes _ Ha a eq_refl).
Qed.

Lemma elsewhere_op {A} n (m : Tx A) : within elsewhere (swept (op n m)).
Proof. by apply elsewhere_swept, logs_stored. Qed.

Lemma elsewhere_log pid did line : within elsewhere (swept (runtime_log pid did line)).
Proof. apply elsewhere_swept. unfold runtime_log, op. log_calls. Qed.

Lemma elsewhere_age f key :
  (forall m : gmap string time, (f m) !! process_key = m !! process_key) ->
  within elsewhere (modify (fun s => s <| ss_firstSeen ::= f |>) : Sweep unit) /\
  (key <> process_key -> within elsewhere (mark_seen key)).
Proof.
  intros Hf. split; [intros s|intros Hk s]; exists []; simpl; rewrite app_nil_r; (split; [done|]);
    (split; [by intros [a ?%elem_of_nil]|]); unfold age; simpl; [by rewrite Hf|].
  split; [done|]. rewrite elem_of_app, list_elem_of_singleton. split; [intros [?|?]; [done|congruence]|auto].
Qed.

Lemma elsewhere_forget key : key <> process_key -> within elsewhere (forget key).
Proof. intros Hk. apply (elsewhere_age (delete key) key). intros m. by apply lookup_delete_ne. Qed.

Lemma elsewhere_mark key : key <> process_key -> within elsewhere (mark_seen key).
Proof. by apply (elsewhere_age id key). Qed.

Lemma elsewhere_first_seen key now : key <> process_key -> within elsewhere (first_seen key now).
Proof.
  intros Hk. unfold first_seen. stroll. apply (elsewhere_age (insert key a) key).
  intros m. by apply lookup_insert_ne.
Qed.
#[local] Hint Resolve elsewhere_op elsewhere_log elsewhere_forget elsewhere_mark elsewhere_first_seen : within.

Lemma elsewhere_network networks now stopped network :
  within elsewhere (sweep_network graceMs networks now stopped network).
Proof.
  assert (Hk := network_key network.1). unfold sweep_network. stroll.
  apply elsewhere_swept. by apply logs_hosted.
Qed.

Lemma elsewhere_networks networks now stopped : within elsewhere (sweep_networks graceMs networks now stopped).
Proof.
  unfold sweep_networks. stroll; [|apply elsewhere_network].
  apply elsewhere_swept. by apply logs_hosted.
Qed.

Lemma elsewhere_process kind' name' adapter now stopped :
  kind' ∈ ["systemd"; "docker"] -> rk kind' = Ok adapter -> (kind', name') <> (kind, name) ->
  within elsewhere (sweep_name graceMs adapter kind' now stopped name').
Proof.
  intros Hk' Hrk' Hne.
  assert (Hkey : kind' +:+ ":" +:+ name' <> process_key)
    by (intros Heq; apply process_key_of in Heq as [-> ->]; done).
  assert (Hstop : within elsewhere (swept (stopProcess adapter name'))).
  { apply elsewhere_swept, logs_hosted. intros r a [= Hra Hn _]. apply Hne. by rewrite <- Hra, (Hrk _ _ Hrk'), Hn. }
  unfold sweep_name, sweepProcess, managed_process. stroll.
Qed.

(** *** The sweep *)

(** The invariant, with the listing of the process in the sweep. *)
Definition listed_inv now s0 s : Prop := sweep_inv now s0 s /\ listed (turn_log s0 s).

Lemma own_process adapter now stopped s0 :
  rk kind = Ok adapter ->
  within (fun s s' => listed_inv now s0 s -> listed_inv now s0 s')
    (sweep_name graceMs adapter kind now stopped name).
Proof.
  intros Hrk' s. unfold exec. destruct (sweep_name _ _ _ _ _ _ s) as [r s'] eqn:Hrun. simpl.
  intros [Hinv Hlist]. unfold sweep_name in Hrun. destruct (negb _); [by injection Hrun as <- <-|].
  apply bind_run in Hrun as [(e & [=] & _)|(u & s1' & [= <- <-] & Hrun)].
  set (s1 := (s <| ss_seen ::= _ |>)) in Hrun.
  assert (Hvisit : exists es, visited now s es s').
  { apply try_catch_run in Hrun as [(n & Hrun & ->)|(e & s2 & Hrun & [= <- <-])];
      apply bind_run in Hrun as [(e' & Hv & Heq)|(n' & s3 & Hv & Heq)]; try done;
      [injection Heq as <- <-|]; by apply (visit_run _ _ s1 _ _ Hrk') in Hv. }
  destruct Hvisit as (es & Hv). split; [by eapply visited_inv|].
  destruct Hv as (Hl & _). rewrite (turn_log_app _ _ _ _ (proj1 Hinv) Hl). by apply listed_more.
Qed.

Lemma elsewhere_listed now s0 s s' : elsewhere s s' -> listed_inv now s0 s -> listed_inv now s0 s'.
Proof.
  intros He [Hinv Hlist]. split; [by eapply elsewhere_inv|].
  destruct He as (es & Hl & _). rewrite (turn_log_app _ _ _ _ (proj1 Hinv) Hl). by apply listed_more.
Qed.

(** A whole kind: only the runtime of the process lists it. *)
Lemma kind_inv now s0 stopped kind' :
  kind' ∈ ["systemd"; "docker"] ->
  within (fun s s' => sweep_inv now s0 s -> sweep_inv now s0 s') (sweep_kind graceMs rk now stopped kind').
Proof.
  intros Hk' s. unfold exec. destruct (sweep_kind _ _ _ _ _ s) as [r s'] eqn:Hrun. simpl. intros Hinv.
  unfold sweep_kind in Hrun. destruct (rk kind') as [adapter|e] eqn:Hrk'; [|by injection Hrun as <- <-].
  apply bind_run in Hrun as [(e & Hl & _)|(found & s1 & Hl & Hrun)];
    apply try_catch_run in Hl as [(a & Hl & Ha)|(e' & s2 & Hl & [= <- <-])]; try done.
  - injection Ha as <-. rewrite (bind_step (lift (Ok adapter)) _ s adapter s eq_refl) in Hl.
    apply bind_ok in Hl as (names & s2 & Hl & [= <- <-]).
    apply swept_run in Hl as ((Hlog & _)%hosted_run & Hf & Hs). rewrite (Hrk _ _ Hrk') in Hlog.
    assert (He : elsewhere s s2).
    { eexists. split; [exact Hlog|]. split; [by intros [a [=]%list_elem_of_singleton]|]. unfold age. by rewrite Hf, Hs. }
    destruct (decide (kind' = kind)) as [->|Hne].
    + destruct (decide (name ∈ names)) as [Hin|Hout].
      * assert (Hli : listed_inv now s0 s2).
        { split; [by eapply elsewhere_inv|]. rewrite (turn_log_app _ _ _ _ (proj1 Hinv) Hlog).
          exists names. split; [|done]. apply elem_of_app. right. by left. }
        eapply (within_run (fun s s' => listed_inv now s0 s -> listed_inv now s0 s')); [|exact Hrun|exact Hli].
        apply within_fold_in; [apply _|]. intros n x Hx.
        destruct (decide (x = name)) as [->|Hx']; [by apply own_process|].
        eapply within_mono; [intros ? ?; apply elsewhere_listed|].
        apply elsewhere_process; [done|done|congruence].
      * eapply elsewhere_inv; [|exact Hinv]. etransitivity; [exact He|]. eapply within_run; [|exact Hrun].
        apply within_fold_in; [apply _|]. intros n x Hx. apply elsewhere_process; [done|done|]. intros [= ->]. done.
    + eapply elsewhere_inv; [|exact Hinv]. etransitivity; [exact He|]. eapply within_run; [|exact Hrun].
      apply within_fold_in; [apply _|]. intros n x Hx. apply elsewhere_process; [done|done|congruence].
  - rewrite (bind_step (lift (Ok adapter)) _ s adapter s eq_refl) in Hl. injection Hrun as <- <-.
    apply bind_run in Hl as [(e & Hl & _)|(names & s3 & Hl & [=])].
    apply swept_run in Hl as ((Hlog & _)%hosted_run & Hf & Hs). eapply elsewhere_inv; [|exact Hinv].
    eexists. split; [exact Hlog|]. split; [by intros [a [=]%list_elem_of_singleton]|]. unfold age. by rewrite Hf, Hs.
Qed.

Context (kinds : list string) (Hkinds : forall k, k ∈ kinds -> k ∈ ["systemd"; "docker"]).

(** What a whole sweep leaves, and why it asked for a stop. *)
Lemma sweep_run networks now s0 r s' :
  reapOrphanProcesses graceMs kinds rk networks now s0 = (r, s') ->
  (forall t, age s' = Some t -> listed (turn_log s0 s') /\
     ((t = now /\ disowned now (turn_log s0 s')) \/
      (age s0 = Some t /\ (disowned now (turn_log s0 s') \/ adoption_tried (turn_log s0 s'))))) /\
  (stop_asked (turn_log s0 s') ->
     listed (turn_log s0 s') /\ disowned now (turn_log s0 s') /\
     exists t, (t = now \/ age s0 = Some t) /\ (graceMs <= now - t)%Z).
Proof.
  intros Hrun. unfold reapOrphanProcesses in Hrun.
  apply bind_run in Hrun as [(e & [=] & _)|(u & s1' & [= <- <-] & Hrun)].
  set (s1 := (s0 <| ss_seen := [] |>)) in Hrun.
  assert (Hstart : sweep_inv now s0 s1).
  { split; [reflexivity|]. assert (Hnil : turn_log s0 s1 = []) by (unfold turn_log; apply drop_all).
    rewrite Hnil. split; [intros t Ht; left; split; [by apply not_elem_of_nil|exact Ht]|].
    by intros [a ?%elem_of_nil]. }
  destruct (total_sweep_kinds graceMs rk now kinds 0 s1) as (n & s2 & Hrun2).
  rewrite (bind_step _ _ _ _ _ Hrun2) in Hrun.
  assert (Hi2 : sweep_inv now s0 s2).
  { eapply (within_run (fun s s' => sweep_inv now s0 s -> sweep_inv now s0 s')); [|exact Hrun2|exact Hstart].
    apply within_fold_in; [apply _|]. intros m k Hk. by apply kind_inv, Hkinds. }
  assert (Hnets : exists m s3, (if bool_decide ("docker" ∈ kinds)
      then sweep_networks graceMs networks now n else ret n) s2 = (Ok m, s3) /\ elsewhere s2 s3).
  { case_bool_decide; [|exists n, s2; split; [done|reflexivity]].
    destruct (total_sweep_networks graceMs networks now n s2) as (m & s3 & Hrun3). exists m, s3. split; [done|].
    eapply within_run; [apply elsewhere_networks|exact Hrun3]. }
  destruct Hnets as (m & s3 & Hrun3 & He). rewrite (bind_step _ _ _ _ _ Hrun3) in Hrun.
  injection Hrun as <- <-. set (s' := (s3 <| ss_firstSeen ::= _ |>)).
  pose proof (elsewhere_inv _ _ _ _ He Hi2) as (_ & Hage & Hstop). split; [|exact Hstop].
  intros t Ht. unfold age, s' in Ht. simpl in Ht. apply map_lookup_filter_Some in Ht as [Ht Hin]. simpl in Hin.
  destruct (Hage t Ht) as [[Hno _]|?]; [by destruct Hno|done].
Qed.

(** *** Sweep after sweep

    The reaper keeps the ages from one sweep to the next; between two sweeps the
    store and the host are anything. *)
Record turn : Type := mk_turn { tn_now : time; tn_before : sweep_state; tn_after : sweep_state }.

Fixpoint turns_from (ages : gmap string time) (turns : list turn) : Prop :=
  match turns with
  | [] => True
  | t :: turns =>
      ss_firstSeen (tn_before t) = ages /\
      (exists networks r,
         reapOrphanProcesses graceMs kinds rk networks (tn_now t) (tn_before t) = (r, tn_after t)) /\
      turns_from (ss_firstSeen (tn_after t)) turns
  end.

Definition turn_events (t : turn) : list work_event := turn_log (tn_before t) (tn_after t).

(** A sweep that saw the process, and left it out of the model. *)
Definition unheld (t : turn) : Prop :=
  listed (turn_events t) /\
  (disowned (tn_now t) (turn_events t) \/ adoption_tried (turn_events t)).

Definition ages_after (ages : gmap string time) (turns : list turn) : gmap string time :=
  match last turns with Some t => ss_firstSeen (tn_after t) | None => ages end.

Lemma turns_from_snoc ages turns t :
  turns_from ages (turns ++ [t]) ->
  turns_from ages turns /\ ss_firstSeen (tn_before t) = ages_after ages turns /\
  exists networks r,
    reapOrphanProcesses graceMs kinds rk networks (tn_now t) (tn_before t) = (r, tn_after t).
Proof.
  revert ages. induction turns as [|t' turns IH]; intros ages; simpl; [tauto|].
  intros (Hb & Hr & Hrest). apply IH in Hrest as (Hts & Ht & Hrun). split; [done|]. split; [|done].
  rewrite Ht. unfold ages_after. rewrite last_cons. by destruct (last turns).
Qed.

Lemma age_has_history turns t :
  turns_from ∅ turns -> ages_after ∅ turns !! process_key = Some t ->
  exists earlier first later, turns = earlier ++ first :: later /\ tn_now first = t /\
    disowned t (turn_events first) /\ Forall unheld (first :: later).
Proof.
  induction turns as [|x turns IH] using rev_ind; [intros _ Ht; unfold ages_after in Ht; simpl in Ht; by rewrite lookup_empty in Ht|].
  intros (Hts & Hb & networks & r & Hrun)%turns_from_snoc Ht. unfold ages_after in Ht.
  rewrite last_snoc in Ht. apply sweep_run in Hrun as [Hage _].
  destruct (Hage t Ht) as (Hlist & [[-> Hd]|[Ht0 Hwhy]]).
  - exists turns, x, []. split; [done|]. split; [done|]. split; [done|]. apply Forall_singleton. split; [done|]. by left.
  - unfold age in Ht0. rewrite Hb in Ht0. apply (IH Hts) in Ht0 as (earlier & first & later & -> & Hnow & Hd & Hall).
    exists earlier, first, (later ++ [x]). split; [by rewrite <- app_assoc|]. split; [done|]. split; [done|].
    rewrite app_comm_cons. apply Forall_app. split; [done|]. apply Forall_singleton. by split.
Qed.
End Grace.

Section OrphanTheorem.
Context `{Platform} `{WorkerHost}.

Definition named_stop (e : work_event) : Prop :=
  match e with Host (StopProcess _ name _) => deployment_process_name name = true | _ => True end.

Lemma sweep_stops_deployments graceMs kinds rk networks now :
  within (of_world (logs_only named_stop)) (reapOrphanProcesses graceMs kinds rk networks now).
Proof.
  assert (Hop : forall A n (m : Tx A), within (of_world (logs_only named_stop)) (swept (op n m)))
    by (intros; by apply within_swept, logs_stored).
  assert (Hlog : forall pid did line, within (of_world (logs_only named_stop)) (swept (runtime_log pid did line)))
    by (intros; apply within_swept; unfold runtime_log, op; log_calls).
  assert (Hstay : forall (f : sweep_state -> sweep_state), (forall s, ss_world (f s) = ss_world s) ->
    within (of_world (logs_only named_stop)) (modify f : Sweep unit))
    by (intros f Hf s; unfold of_world; simpl; by rewrite Hf).
  assert (Hname : forall adapter kind stopped name,
    within (of_world (logs_only named_stop)) (sweep_name graceMs adapter kind now stopped name)).
  { intros adapter kind stopped name. unfold sweep_name.
    destruct (deployment_process_name name) eqn:Hn; simpl; [|apply within_ret, _].
    unfold sweepProcess, managed_process, mark_seen, forget, first_seen.
    stroll; first [ solve [auto] | by apply within_swept, logs_hosted ]. }
  unfold reapOrphanProcesses, sweep_kind, sweep_networks, sweep_network, forget_unseen, mark_seen, forget,
    first_seen.
  stroll; first [ solve [auto] | by apply within_swept, logs_hosted ].
Qed.

(** C22. An orphan waits out its grace. The sweep stops only processes named
    like a deployment's. And when, of any sequence of sweeps from the start of
    the worker, with any changes to the store and the host during and between
    them, the last one asks the host to stop a process, then that sweep and one
    at least the grace period before it saw the process listed and no deployment
    answering for it; and in every sweep between the two the host listed it, and
    either no deployment answered for it or the sweep tried to adopt it. *)
Theorem orphans_wait_out_their_grace graceMs rk kinds kind name turns t :
  (0 < graceMs)%Z ->
  (forall k adapter, rk k = Ok adapter -> ra_name adapter = k) ->
  kind ∈ ["systemd"; "docker"] ->
  (forall k, k ∈ kinds -> k ∈ ["systemd"; "docker"]) ->
  turns_from graceMs rk kinds ∅ (turns ++ [t]) ->
  stop_asked kind name (turn_events t) ->
  deployment_process_name name = true /\
  listed kind name (turn_events t) /\ disowned kind name (tn_now t) (turn_events t) /\
  exists earlier first later, turns = earlier ++ first :: later /\
    (tn_now first + graceMs <= tn_now t)%Z /\
    disowned kind name (tn_now first) (turn_events first) /\
    Forall (unheld kind name) (first :: later).
Proof.
  intros Hg Hrk Hkind Hkinds (Hts & Hb & networks & r & Hrun)%turns_from_snoc Hstop.
  split.
  { pose proof (within_run _ _ _ _ _ (sweep_stops_deployments _ _ _ _ _) Hrun) as (es & Hlog & Hall).
    destruct Hstop as [a Ha]. unfold turn_events, turn_log in Ha. rewrite Hlog, drop_app_length in Ha.
    rewrite Forall_forall in Hall. exact (Hall _ Ha). }
  pose proof (sweep_run graceMs rk Hrk kind name Hkind kinds Hkinds _ _ _ _ _ Hrun) as [_ Hwhy].
  destruct (Hwhy Hstop) as (Hlist & Hd & age0 & [->|Hage] & Hle); [lia|]. split; [done|]. split; [done|].
  unfold age in Hage. rewrite Hb in Hage.
  apply (age_has_history graceMs rk Hrk kind name Hkind kinds Hkinds) in Hage as
    (earlier & first & later & -> & <- & Hd0 & Hall); [|done].
  exists earlier, first, later. split; [done|]. split; [lia|]. by split.
Qed.
End OrphanTheorem.

(** *** A revival that the invariant of the instances forbids

    While the sweep works off its list, a restart retires an instance it has
    claimed ([restart-deployment.ts]) and a new activation starts another; the
    sweep then finds a lease and writes the retired instance ready. *)
Section Revival.
#[local] Existing Instance sample_platform.

(** What a restart does to a live instance of its deployment. *)
Definition retire : Tx (option RuntimeInstance.runtime_instance_row) :=
  updateRuntimeInstance "rti_a"
    (mk_runtime_update RuntimeStatus.stopped (Some None) (Some None) None) None.

(** Between the claim of the instance and the look at its leases. *)
Definition restart_and_activate (log : list work_event) (s : store) : store :=
  match last log with
  | Some (Stored (StoreCall name) _ _) =>
      if bool_decide (name = "getDeployment") then
        exec (acquireActivationLease (mk_acquire_input "dep_1" LeaseKind.turn "owner" 9000000 None))
          (exec retire s)
      else s
  | _ => s
  end.

Definition racing_host : WorkerHost := {|
  others := restart_and_activate;
  tcp_available := fun _ _ _ => Ok true;
  http_fetch := fun _ _ => Ok tt;
  in_flight_ports := fun _ => [];
  EVELAND_DEPLOYMENT_PORT := None;
  other_error_text := fun _ => "error"
|}.

Definition idle_instance : RuntimeInstance.runtime_instance_row :=
  RuntimeInstance.mk "rti_a" "dep_1" 1 RuntimeStatus.ready (Some "127.0.0.1") (Some 4000%Z) (Some 0%Z)
    (Some 0%Z) None None.

Definition idle_world : world :=
  mk_world (mk_store (sample_database <| runtimeInstances := {[ "rti_a" := idle_instance ]} |>)
              0 1 1 1000000) [].

Definition default_idle : idle_options := mk_idle_options None None None.

Definition after_revival : world :=
  exec (@reapIdleDeployments sample_platform racing_host (fun kind => Ok (willing_adapter kind)) default_idle)
    idle_world.

Lemma restart_and_activate_steps log s : runtime_run [] s (restart_and_activate log s).
Proof.
  unfold restart_and_activate. destruct (last log) as [[|[] d d'|]|]; try apply run_none.
  case_bool_decide; [|apply run_none].
  apply (run_calm _ _ (exec retire s)); [exact (step_update "rti_a" (mk_runtime_update RuntimeStatus.stopped (Some None) (Some None) None) None s)|].
  eapply run_calm; [apply step_acquire|apply run_none].
Qed.

Definition live_of (deploymentId : string) (d : database) : list string :=
  RuntimeInstance.id <$> base.filter (fun r => RuntimeInstance.deploymentId r = deploymentId /\ live r = true)
    (rows (runtimeInstances d)).

(** The idle sweep can revive what a restart retired. With nothing but
    operations of the runtime store around it, none of which revives an
    instance, so that they keep at most one live to a deployment, a sweep of the worker ends with two: it has
    written an instance ready that was stopped while it worked, next to the one
    a new activation started. *)
Lemma idle_sweep_revives_retired_instance :
  exists (host : WorkerHost) (adapters : string -> result runtime_adapter) (w w' : world),
    (forall log s, runtime_run [] s (others log s)) /\
    runtime_and_leases_ok (st_db (w_store w)) /\
    reapIdleDeployments adapters default_idle w = (Ok 0, w') /\
    live_of "dep_1" (st_db (w_store w)) = ["rti_a"] /\
    live_of "dep_1" (st_db (w_store w')) = ["rti_a"; "rti_0"].
Proof.
  exists racing_host, (fun kind => Ok (willing_adapter kind)), idle_world, after_revival.
  split; [apply restart_and_activate_steps|]. split.
  - split; [split|intros k r Hk; simpl in Hk; by rewrite lookup_empty in Hk].
    + intros k r Hk. simpl in Hk. by apply lookup_singleton_Some in Hk as [<- <-].
    + intros k1 k2 r1 r2 Hk1 Hk2 Hne. simpl in Hk1, Hk2.
      apply lookup_singleton_Some in Hk1 as [<- _], Hk2 as [<- _]. done.
  - split; [|split; by vm_compute].
    assert (Hcount : match (@reapIdleDeployments sample_platform racing_host
      (fun kind => Ok (willing_adapter kind)) default_idle idle_world).1 with Ok n => n | Err _ => 1 end = 0)
      by by vm_compute.
    unfold after_revival, exec. destruct (reapIdleDeployments _ _ _) as [[n|e] w'] eqn:Heq; [|done].
    simpl in Hcount. by subst n.
Qed.
End Revival.

(** *** Runs are settled only where nothing can resume them *)
Section Reconciler.
Context `{Platform} `{WorkerHost}.
Context (settle : settle_runs) (keep : Z) (policy : session_binding_idle_policy) (now : time).
Context (candidates : list run_candidate).

Definition retention_of (projectId : string) : Tx (list deployment_retention) :=
  getDeploymentRetention projectId (Some (Z.to_nat keep)) (mk_retention_options (Some now) policy (Some [])).

(** The retention policy, asked in this sweep without the runs, keeps [entry] for no other reason. *)
Definition unkept (past : list work_event) (projectId deploymentId : string) : Prop :=
  exists s s' entries entry, retention_of projectId s = (Ok entries, s') /\
    Stored (StoreCall "getDeploymentRetention") (st_db s) (st_db s') ∈ past /\
    entry ∈ entries /\ Deployment.id (dr_deployment entry) = deploymentId /\ dr_protected entry = false.

Definition refusal_of (dep : Deployment.deployment_row) (d : database) : option string :=
  permanentDeploymentActivationRefusal (Some dep)
    match releases d !! Deployment.releaseId dep with Some r => Release.summary r | None => None end.

(** What a sweep has read before it settles the runs of a candidate: that the
    deployment is gone, or that it is of the same project and either can never
    start again, or is stopped, runs Eve's own workflows only and is kept by
    nothing. *)
Definition judged (past : list work_event) (projectId deploymentId disposition : string) : Prop :=
  exists c d0, c ∈ candidates /\ rc_projectId c = projectId /\ rc_deploymentId c = deploymentId /\
    reads "getDeployment" d0 ∈ past /\
    match deployments d0 !! deploymentId with
    | None => disposition = "fail"
    | Some dep => Deployment.projectId dep = projectId /\
        exists d1, reads "getRelease" d1 ∈ past /\
          ((disposition = "fail" /\ refusal_of dep d1 <> None) \/
           (disposition = "cancel" /\ refusal_of dep d1 = None /\
            Deployment.status dep = DeploymentStatus.stopped /\
            rc_workflowNames c <> [] /\ forallb isEveOwnedWorkflow (rc_workflowNames c) = true /\
            unkept past projectId deploymentId))
    end.

Definition settlement (past : list work_event) (e : work_event) : Prop :=
  match e with
  | Host (SettleRuns projectId deploymentId disposition _) => judged past projectId deploymentId disposition
  | _ => True
  end.

(** The sweep so far, since the log was [log0]: every settlement judged, and the
    answers it remembers given in it. *)
Definition judging (log0 : list work_event) (s : runs_state) : Prop :=
  exists es, w_log (rst_world s) = log0 ++ es /\ justified settlement es /\
    forall pid entries, rst_retention s !! pid = Some (Ok entries) ->
      exists s1 s2, retention_of pid s1 = (Ok entries, s2) /\
        Stored (StoreCall "getDeploymentRetention") (st_db s1) (st_db s2) ∈ es.

Definition has_read (log0 : list work_event) (s : runs_state) (e : work_event) : Prop :=
  exists es, w_log (rst_world s) = log0 ++ es /\ e ∈ es.

(** An event that is no settlement. *)
Lemma judging_event log0 s s' e :
  judging log0 s ->
  w_log (rst_world s') = w_log (rst_world s) ++ [e] -> rst_retention s' = rst_retention s ->
  (forall past, settlement past e) -> judging log0 s'.
Proof.
  intros (es & Hlog & Hj & Hret) Hl Hr Hall. exists (es ++ [e]).
  split; [by rewrite Hl, Hlog, app_assoc|]. split; [by apply justified_snoc|]. rewrite Hr.
  intros pid entries Hp. destruct (Hret pid entries Hp) as (s1 & s2 & ? & ?). exists s1, s2.
  split; [done|]. apply elem_of_app. by left.
Qed.

Lemma has_read_more log0 s s' e f :
  has_read log0 s e -> w_log (rst_world s') = w_log (rst_world s) ++ [f] -> has_read log0 s' e.
Proof.
  intros (es & Hlog & He) Hl. exists (es ++ [f]). split; [by rewrite Hl, Hlog, app_assoc|].
  apply elem_of_app. by left.
Qed.

Lemma judging_read {A} log0 name (q : database -> A) s r s' :
  judging log0 s -> on_world (op name (read q)) s = (r, s') ->
  judging log0 s' /\
  exists d, r = Ok (q d) /\ has_read log0 s' (reads name d) /\ rst_retention s' = rst_retention s /\
    w_log (rst_world s') = w_log (rst_world s) ++ [reads name d].
Proof.
  intros Hj Hrun. unfold on_world in Hrun. destruct (op name (read q) (rst_world s)) as [r0 w] eqn:Hop.
  injection Hrun as <- <-. apply read_run in Hop as (-> & _ & Hlog).
  split; [eapply judging_event; [exact Hj|exact Hlog|done|done]|]. eexists. split; [reflexivity|]. split; [|done].
  destruct Hj as (es & Hes & _). eexists. split; [simpl; rewrite Hlog, Hes, <- app_assoc; reflexivity|].
  apply elem_of_app. right. by left.
Qed.

Lemma judging_settle log0 c disposition s r s' :
  judging log0 s -> settle_as settle c disposition s = (r, s') ->
  (forall es, w_log (rst_world s) = log0 ++ es ->
     judged es (rc_projectId c) (rc_deploymentId c) disposition) ->
  judging log0 s'.
Proof.
  intros (es & Hlog & Hj & Hret) Hrun Hall. unfold settle_as, on_world in Hrun.
  destruct (hosted _ _ (rst_world s)) as [r0 w] eqn:Hop. injection Hrun as <- <-.
  apply hosted_run in Hop as [Hl _]. eexists. split; [simpl; rewrite Hl, Hlog, <- app_assoc; reflexivity|].
  split; [by apply justified_snoc, Hall|]. intros pid entries Hp.
  destruct (Hret pid entries Hp) as (s1 & s2 & ? & ?). exists s1, s2. split; [done|]. apply elem_of_app. by left.
Qed.

(** The retention, asked once per project. *)
Lemma judging_retention log0 pid s r s' :
  judging log0 s -> retentionFor keep policy now pid s = (r, s') ->
  judging log0 s' /\ (forall e, has_read log0 s e -> has_read log0 s' e) /\
  forall entries, r = Ok entries -> exists s1 s2, retention_of pid s1 = (Ok entries, s2) /\
    has_read log0 s' (Stored (StoreCall "getDeploymentRetention") (st_db s1) (st_db s2)).
Proof.
  intros Hj Hrun. unfold retentionFor in Hrun. destruct (rst_retention s !! pid) as [answer|] eqn:Hc.
  - injection Hrun as <- <-. split; [done|]. split; [done|]. intros entries ->.
    destruct Hj as (es & Hlog & _ & Hret). destruct (Hret pid entries Hc) as (s1 & s2 & ? & ?).
    exists s1, s2. split; [done|]. by exists es.
  - fold (retention_of pid) in Hrun.
    destruct (op "getDeploymentRetention" (retention_of pid) (rst_world s)) as [answer w] eqn:Hop.
    injection Hrun as <- <-. apply stored_run in Hop as (s2 & Hop & <- & Hl).
    set (s0 := others _ _) in *.
    destruct Hj as (es & Hlog & Hj & Hret).
    assert (Hin : forall (e f : work_event), e ∈ es -> e ∈ es ++ [f]) by (intros; apply elem_of_app; by left).
    split.
    { eexists. split; [simpl; rewrite Hl, Hlog, <- app_assoc; reflexivity|].
      split; [by apply justified_snoc|]. simpl. intros pid' entries Hp.
      destruct (decide (pid = pid')) as [<-|Hne].
      - rewrite lookup_insert_eq in Hp. injection Hp as ->. do 2 eexists. split; [exact Hop|].
        apply elem_of_app. right. by left.
      - rewrite lookup_insert_ne in Hp by done. destruct (Hret pid' entries Hp) as (s1 & s2 & ? & ?). eauto. }
    split.
    { intros e (fs & Hfs & He). eexists. split; [simpl; rewrite Hl, Hfs, <- app_assoc; reflexivity|].
      apply elem_of_app. by left. }
    intros entries ->. do 2 eexists. split; [exact Hop|].
    eexists. split; [simpl; rewrite Hl, Hlog, <- app_assoc; reflexivity|]. apply elem_of_app. right. by left.
Qed.

(** One candidate. *)
Lemma judging_candidate log0 c s r s' :
  c ∈ candidates -> judging log0 s -> reconcile_candidate settle keep policy now c s = (r, s') ->
  judging log0 s'.
Proof.
  intros Hc Hj Hrun. unfold reconcile_candidate in Hrun.
  apply bind_run in Hrun as [(e & Hr & ->)|(found & s1 & Hr & Hrun)];
    apply (judging_read _ _ _ _ _ _ Hj) in Hr as [Hj1 (d0 & Hf & Hd0 & Hc1 & Hl1)]; [done|].
  injection Hf as ->. destruct (deployments d0 !! rc_deploymentId c) as [dep|] eqn:Hdep.
  2: { rewrite (bind_step (ret None) _ s1 None s1 eq_refl) in Hrun.
       eapply judging_settle; [exact Hj1|exact Hrun|]. intros es Hes. exists c, d0.
       split; [done|]. split; [done|]. split; [done|]. destruct Hd0 as (es' & Hes' & Hin).
       rewrite Hes' in Hes. apply app_inv_head in Hes as <-. by rewrite Hdep. }
  destruct (bool_decide (Deployment.projectId dep = _)) eqn:Hpid; [|by injection Hrun as <- <-].
  apply bool_decide_eq_true in Hpid. cbn match beta in Hrun.
  apply bind_run in Hrun as [(e & Hr & ->)|(release & s2 & Hr & Hrun)];
    apply (judging_read _ _ _ _ _ _ Hj1) in Hr as [Hj2 (d1 & Hf & Hd1 & Hc2 & Hl2)]; [done|].
  injection Hf as ->. apply (has_read_more _ _ s2 _ _ Hd0) in Hl2 as Hd0'.
  fold (refusal_of dep d1) in Hrun.
  destruct (refusal_of dep d1) as [refusal|] eqn:Href.
  { eapply judging_settle; [exact Hj2|exact Hrun|]. intros es Hes. exists c, d0.
    destruct Hd0' as (e1 & He1 & Hin1), Hd1 as (e2 & He2 & Hin2).
    rewrite He1 in Hes, He2. apply app_inv_head in Hes as <-. apply app_inv_head in He2 as <-.
    split; [done|]. split; [done|]. split; [done|]. split; [done|]. rewrite Hdep. split; [done|].
    exists d1. split; [done|]. left. by rewrite Href. }
  destruct (negb (bool_decide (_ = Some DeploymentStatus.stopped))) eqn:Hst; [by injection Hrun as <- <-|].
  apply negb_false_iff, bool_decide_eq_true in Hst. simpl in Hst. injection Hst as Hst.
  destruct (bool_decide (rc_workflowNames c = []) || _) eqn:Hnames; [by injection Hrun as <- <-|].
  apply orb_false_iff in Hnames as [Hne%bool_decide_eq_false Heve%negb_false_iff].
  apply bind_run in Hrun as [(e & Hr & ->)|(retention & s3 & Hr & Hrun)];
    apply (judging_retention _ _ _ _ _ Hj2) in Hr as (Hj3 & Hkeep & Hret); [done|].
  destruct (Hret _ eq_refl) as (st1 & st2 & Hrun3 & Hin3).
  destruct (find _ retention) as [verdict|] eqn:Hfind; [|by injection Hrun as <- <-].
  destruct (dr_protected verdict) eqn:Hp; [by injection Hrun as <- <-|].
  apply find_some in Hfind as [Hv Hid%bool_decide_eq_true].
  eapply judging_settle; [exact Hj3|exact Hrun|]. intros es Hes. exists c, d0.
  apply Hkeep in Hd0' as (e1 & He1 & Hin1). apply Hkeep in Hd1 as (e2 & He2 & Hin2).
  destruct Hin3 as (e3 & He3 & Hin3). rewrite He1 in Hes, He2, He3.
  apply app_inv_head in Hes as <-. apply app_inv_head in He2 as <-. apply app_inv_head in He3 as <-.
  split; [done|]. split; [done|]. split; [done|]. split; [done|]. rewrite Hdep. split; [done|].
  exists d1. split; [done|]. right. split; [done|]. split; [done|]. split; [done|]. split; [done|].
  split; [done|]. exists st1, st2, retention, verdict. split; [done|]. split; [done|].
  split; [by apply list_elem_of_In|done].
Qed.
End Reconciler.

(** C24. Workflow runs are settled only where nothing can resume them. In every
    interleaving, when a sweep settles the runs of a deployment, it has found
    them through a candidate of the same project and read, in this sweep, that
    the deployment is gone, or that it can never be activated again and its runs
    fail, or that it is stopped, runs only Eve's own session workflows and is
    kept by no other reason of the retention policy; only then they are
    cancelled. *)
Theorem runs_settled_only_when_unresumable `{Platform} `{WorkerHost} worldUrl listActive settle policy
    keepRecent w r w' :
  reconcileAbandonedWorkflowRuns worldUrl listActive settle policy keepRecent w = (r, w') ->
  exists es, w_log w' = w_log w ++ es /\
  forall past projectId deploymentId disposition answer future,
    es = past ++ Host (SettleRuns projectId deploymentId disposition answer) :: future ->
    exists now candidates log, listActive log = Ok candidates /\
      judged (at_least 3 (default 3%Z keepRecent)) policy now candidates past projectId deploymentId disposition.
Proof.
  intros Hrun. unfold reconcileAbandonedWorkflowRuns in Hrun.
  assert (Hnone : forall es, w_log w' = w_log w ++ es ->
    Forall (fun e => match e with Host (SettleRuns _ _ _ _) => False | _ => True end) es ->
    exists es, w_log w' = w_log w ++ es /\
    forall past projectId deploymentId disposition answer future,
      es = past ++ Host (SettleRuns projectId deploymentId disposition answer) :: future ->
      exists now candidates log, listActive log = Ok candidates /\
        judged (at_least 3 (default 3%Z keepRecent)) policy now candidates past projectId deploymentId disposition).
  { intros es Hes Hall. exists es. split; [done|]. intros past pid did disp a future ->.
    rewrite Forall_app, Forall_cons in Hall. by destruct Hall as (_ & [] & _). }
  destruct (truthy worldUrl); [|injection Hrun as <- <-; apply (Hnone []); by rewrite ?app_nil_r].
  apply bind_run in Hrun as [(e & Hl & _)|(candidates & w1 & Hl & Hrun)];
    pose proof Hl as Hlist; apply hosted_run in Hl as [Hlog _].
  { eapply Hnone; [exact Hlog|]. by apply Forall_singleton. }
  case_bool_decide; [injection Hrun as <- <-; eapply Hnone; [exact Hlog|]; by apply Forall_singleton|].
  apply bind_run in Hrun as [(e & [t [=]]%date_now_ok & _)|(now & w2 & Hn & Hrun)].
  injection Hn as _ Hn. 
  set (keep := at_least 3 _) in *.
  destruct (fold_m (reconcile_step settle keep policy now) candidates (0, 0) (mk_runs_state w2 ∅))
    as [counts s'] eqn:Hfold.
  assert (Hj : judging keep policy now candidates (w_log w) s').
  { eapply (within_run (fun s s' => judging keep policy now candidates (w_log w) s ->
                                   judging keep policy now candidates (w_log w) s')); [|exact Hfold|].
    - apply within_fold_in; [apply _|]. intros n c Hc st Hst. unfold exec.
      destruct (reconcile_step settle keep policy now n c st) as [x st'] eqn:Hstep. simpl.
      apply try_catch_run in Hstep as [(a & Hstep & _)|(e & st1 & Hstep & [= _ <-])];
        apply bind_run in Hstep as [(e' & Hstep & Heq)|(k & st2 & Hstep & Heq)]; try done;
        [injection Heq as _ <-|]; by eapply judging_candidate.
    - eexists. split; [simpl; rewrite <- Hn; exact Hlog|]. split; [apply (justified_snoc _ []); [apply justified_nil|done]|].
      intros pid entries Hp. simpl in Hp. by rewrite lookup_empty in Hp. }
  assert (Hw : w' = rst_world s').
  { apply bind_run in Hrun as [(e & Hr & _)|(c & w3 & Hr & [= _ <-])]; rewrite Hfold in Hr; by injection Hr. }
  subst w'. destruct Hj as (es & Hes & Hjust & _). exists es. split; [done|].
  intros past pid did disp a future Heq. exists now, candidates.
  apply (f_equal fst) in Hlist. exists (w_log w). split; [exact Hlist|]. exact (Hjust _ _ _ Heq).
Qed.

(** ** Witnesses *)

Definition sample_sweep : result nat * world :=
  @reapIdleDeployments sample_platform still_host (fun kind => Ok (willing_adapter kind)) default_idle
    idle_world.

Lemma idle_stops_are_rechecked_witness :
  sample_sweep.1 = Ok 1 /\
  exists past kind processName answer future,
    w_log sample_sweep.2 = past ++ Host (StopProcess kind processName answer) :: future /\
    exists now claimed,
      seen_idle (fun kind => Ok (willing_adapter kind)) now claimed past kind processName.
Proof.
  split; [vm_compute; reflexivity|].
  destruct (@idle_stops_are_rechecked sample_platform still_host (fun kind => Ok (willing_adapter kind))
    default_idle idle_world sample_sweep.1 sample_sweep.2 (surjective_pairing sample_sweep)) as (es & Hlog & Hall).
  assert (Hstop : es !! 5 = Some (Host (StopProcess "docker" "c" (Ok tt)))).
  { change (w_log idle_world ++ es) with es in Hlog. rewrite <- Hlog. vm_compute. reflexivity. }
  pose proof (eq_sym (take_drop_middle _ _ _ Hstop)) as Heq.
  exists (take 5 es), "docker", "c", (Ok tt), (drop 6 es). split; [rewrite Hlog; exact Heq|].
  destruct (Hall _ _ _ _ _ Heq) as (now & input & claimed & s & s' & _ & _ & Hseen).
  exists now, claimed. exact Hseen.
Defined.

(** A host with one process no deployment answers for. *)
Definition lone_adapter (kind : string) : runtime_adapter :=
  mk_adapter kind (fun _ _ => Ok tt) None (fun _ _ => Ok tt) (fun _ _ => Ok ProcessReady) None
    (fun _ _ => Ok ["eveland-p-dep_9"; "eveland-postgres-1"]) None.

Definition no_networks : network_directory := mk_networks (fun _ => Ok []) (fun _ _ => Ok false).

Definition lone_sweep (now : time) (s : sweep_state) : result nat * sweep_state :=
  @reapOrphanProcesses sample_platform still_host 300000 ["docker"] (fun kind => Ok (lone_adapter kind))
    no_networks now s.

Definition lone_before : sweep_state := mk_sweep_state sample_world ∅ [].
Definition lone_first : sweep_state := (lone_sweep 0 lone_before).2.
Definition lone_second : sweep_state := (lone_sweep 300000 lone_first).2.

Lemma orphans_wait_out_their_grace_witness :
  (lone_sweep 0 lone_before).1 = Ok 0 /\ (lone_sweep 300000 lone_first).1 = Ok 1 /\
  @disowned sample_platform "docker" "eveland-p-dep_9" 0 (turn_events (mk_turn 0 lone_before lone_first)).
Proof.
  split; [vm_compute; reflexivity|]. split; [vm_compute; reflexivity|].
  destruct (@orphans_wait_out_their_grace sample_platform still_host 300000
    (fun kind => Ok (lone_adapter kind)) ["docker"] "docker" "eveland-p-dep_9"
    [mk_turn 0 lone_before lone_first] (mk_turn 300000 lone_first lone_second)) as (_ & _ & _ & Hhist).
  - lia.
  - intros k adapter [= <-]. reflexivity.
  - right. left.
  - intros k Hk. right. exact Hk.
  - split; [reflexivity|]. split; [exists no_networks, (lone_sweep 0 lone_before).1; apply surjective_pairing|].
    split; [reflexivity|]. split; [|exact I].
    exists no_networks, (lone_sweep 300000 lone_first).1. apply surjective_pairing.
  - exists (Ok tt). apply (list_elem_of_lookup_2 _ 2). vm_compute. reflexivity.
  - destruct Hhist as (earlier & first & later & Heq & _ & Hd & _).
    destruct earlier as [|t earlier]; [|apply (f_equal length) in Heq; simpl in Heq; rewrite length_app in Heq; simpl in Heq; lia].
    injection Heq as <- _. exact Hd.
Defined.

Definition stray_runs : result runs_result * world :=
  @reconcileAbandonedWorkflowRuns sample_platform still_host (Some "postgres://world")
    (fun _ => Ok [mk_run_candidate "dep_9" "p" ["workflow//eve//session"]]) (fun _ _ _ => Ok 2)
    (mk_idle_policy None None) None sample_world.

Lemma runs_settled_only_when_unresumable_witness :
  stray_runs.1 = Ok (mk_runs_result 1 2 0) /\
  exists past, w_log stray_runs.2 = past ++ [Host (SettleRuns "p" "dep_9" "fail" (Ok 2))] /\
    exists now candidates,
      @judged sample_platform 3 (mk_idle_policy None None) now candidates past "p" "dep_9" "fail".
Proof.
  split; [vm_compute; reflexivity|].
  destruct (@runs_settled_only_when_unresumable sample_platform still_host (Some "postgres://world")
    (fun _ => Ok [mk_run_candidate "dep_9" "p" ["workflow//eve//session"]]) (fun _ _ _ => Ok 2)
    (mk_idle_policy None None) None sample_world stray_runs.1 stray_runs.2 (surjective_pairing stray_runs))
    as (es & Hlog & Hall).
  assert (Hlast : es !! 2 = Some (Host (SettleRuns "p" "dep_9" "fail" (Ok 2))) /\ drop 3 es = []).
  { change (w_log sample_world ++ es) with es in Hlog. rewrite <- Hlog. split; vm_compute; reflexivity. }
  destruct Hlast as [Hlast Hend]. pose proof (eq_sym (take_drop_middle _ _ _ Hlast)) as Heq. rewrite Hend in Heq.
  exists (take 2 es). split; [rewrite Hlog; exact Heq|].
  destruct (Hall _ _ _ _ _ _ Heq) as (now & candidates & log & _ & Hj). exists now, candidates. exact Hj.
Defined.
