(* ===== verification/Launch.v ===== *)
(** * Launch of a deployment

    What the runtime jobs do before a process starts:
    [apps/worker/src/jobs/deployment-launch-context.ts] and
    [workflow-topology-gate.ts].  The environment of a deployment
    ([composeDeploymentEnv]), the reading of its package file and lockfiles, the
    observer's policy files and the layout of the data directories are answered
    by a host, [LaunchHost]. *)

From stdpp Require Import pretty.
From S2P Require Import Prelude Strings Schema Store Tables Sample Jobs Runtime Sessions Schedules Deployments Sources Dispatcher Worker Activation Reapers.

Open Scope eve_scope.
Open Scope string_scope.

(** ** The launch context *)

(** [RuntimeCommandContext] *)
Record command_context : Type := mk_command_context {
  cc_packageManager : option string; cc_hasLockfile : bool
}.

(** [AdapterVisibleDirectories] *)
Record directories : Type := mk_directories { dir_workerDir : string; dir_hostDir : string }.

(** [DeploymentLaunchPrerequisites] *)
Record launch_prerequisites : Type := mk_prerequisites {
  lp_projectId : string; lp_deploymentId : string; lp_runtimeKind : string;
  lp_env : gmap string string; lp_secretValues : list string; lp_commandContext : command_context;
  lp_sandboxCacheDirs : directories; lp_memoryRootDirs : directories;
  lp_observabilityPolicyDirs : directories
}.

(** [DeploymentLaunchContext] *)
Record launch_context : Type := mk_launch_context {
  lx_deploymentId : string; lx_runtimeKind : string; lx_env : gmap string string;
  lx_secretValues : list string; lx_commandContext : command_context;
  lx_sandboxCacheDirs : directories; lx_memoryRootDirs : directories;
  lx_observabilityPolicyDirs : directories
}.

(** A source file that is kept in the store: its path and its content. *)
Definition persisted_file : Type := string * string.

(** What the launch asks of the rest of the worker and of the file system. *)
Class LaunchHost := {
  memory_root_dirs : string -> directories;
  sandbox_cache_dirs : string -> directories;
  agent_observability_dirs : string -> string -> directories;
  DOCKER_MEMORY_ROOT_MOUNT_DIR : string;
  OBSERVER_RUNTIME_CONTRACT : Z;
  compose_env : string -> string -> list work_event -> result (gmap string string * list string);
  runtime_command_context : string -> list persisted_file -> option command_context ->
    list work_event -> result command_context;
  accessible : string -> list work_event -> result unit;
  make_directory : string -> list work_event -> result unit;
  prepare_observability : launch_prerequisites -> string -> list work_event -> result directories
}.

(** ** The workflow gate *)

(** [WorkflowLaunchDecision] *)
Inductive launch_decision :=
  | LaunchAllowed
  | LaunchRefused (code reason : string).

Definition assessWorkflowLaunch (release : Release.release_row) : launch_decision :=
  let worldKind := Release.workflowWorldKind release in
  if bool_decide (worldKind = "shared") then LaunchAllowed
  else if bool_decide (worldKind = "legacy_project") then
    LaunchRefused WORKFLOW_UNAVAILABLE
      (WORKFLOW_UNAVAILABLE +:+ ": Release " +:+ Release.id release
       +:+ " was built against the legacy per-project workflow world; it can never be launched again.")
  else
    LaunchRefused WORKFLOW_MIGRATION_REQUIRED
      (WORKFLOW_MIGRATION_REQUIRED +:+ ": Release " +:+ Release.id release
       +:+ " has no workflow attestation; only a shared-World build may start.").

Section Launch.
Context `{Platform} `{WorkerHost} `{LaunchHost}.

Definition createDeploymentStartInput (processName releaseRef : string) (port : Z)
    (cx : launch_context) : process_start :=
  let visible (d : directories) :=
    if bool_decide (lx_runtimeKind cx = "docker") then dir_hostDir d else dir_workerDir d in
  mk_process_start processName releaseRef port
    (<["EVELAND_DEPLOYMENT_ID" := lx_deploymentId cx]> (lx_env cx))
    (cc_packageManager (lx_commandContext cx)) (cc_hasLockfile (lx_commandContext cx))
    (visible (lx_sandboxCacheDirs cx)) (visible (lx_memoryRootDirs cx))
    (visible (lx_observabilityPolicyDirs cx)).

(** [persistedSourceFiles] and [persistedCommandContext] of a recoverable source. *)
Definition resolveDeploymentLaunchPrerequisites (projectId deploymentId runtimeKind sourcePath : string)
    (files : list persisted_file) (persisted : option command_context) : Work launch_prerequisites :=
  let memory := memory_root_dirs projectId in
  environment <- hosted (fun _ => HostCall "composeDeploymentEnv")
    (compose_env projectId
       (if bool_decide (runtimeKind = "docker") then DOCKER_MEMORY_ROOT_MOUNT_DIR
        else dir_workerDir memory)) ;;
  commandContext <- hosted (fun _ => HostCall "resolveRuntimeCommandContext")
    (runtime_command_context sourcePath files persisted) ;;
  ret (mk_prerequisites projectId deploymentId runtimeKind environment.1 environment.2 commandContext
         (sandbox_cache_dirs projectId) memory (agent_observability_dirs projectId deploymentId)).

Definition ensureDeploymentLaunchSandbox (p : launch_prerequisites) : Work unit :=
  hosted (fun _ => HostCall "mkdir") (make_directory (dir_workerDir (lp_sandboxCacheDirs p))) ;;
  hosted (fun _ => HostCall "mkdir") (make_directory (dir_workerDir (lp_memoryRootDirs p))).

Definition observer_line (release : Release.release_row) (contract : Z) : string :=
  "Release " +:+ Release.id release +:+ " embeds an Eveland observer older than this platform (contract "
  +:+ (if bool_decide (contract = 0%Z) then "unrecorded" else pretty contract) +:+ " < "
  +:+ pretty OBSERVER_RUNTIME_CONTRACT +:+ "); session transcripts and usage may not be captured. "
  +:+ "Rebuild the release (redeploy the project) to refresh it.".

Definition warnStaleObserverRelease (projectId deploymentId : string) (release : Release.release_row)
    : Work unit :=
  let contract := default 0%Z (Release.observerContract release) in
  if (OBSERVER_RUNTIME_CONTRACT <=? contract)%Z then ret tt
  else runtime_log projectId deploymentId (observer_line release contract).

Definition materializeDeploymentLaunchContext (releaseId : string) (p : launch_prerequisites)
    (staleRelease : option Release.release_row) : Work launch_context :=
  observability <- hosted (fun _ => HostCall "prepareDeploymentObservability")
    (prepare_observability p releaseId) ;;
  match staleRelease with
  | Some release => warnStaleObserverRelease (lp_projectId p) (lp_deploymentId p) release
  | None => ret tt
  end ;;
  ret (mk_launch_context (lp_deploymentId p) (lp_runtimeKind p) (lp_env p) (lp_secretValues p)
         (lp_commandContext p) (lp_sandboxCacheDirs p) (lp_memoryRootDirs p) observability).

(** ** A source whose directory is gone *)

Definition parseRuntimeCommandContext (value : option json) : option command_context :=
  value ← value;
  match json_get "packageManager" value, json_get "hasLockfile" value with
  | Some (JStr manager), Some (JBool hasLockfile) =>
      if bool_decide (manager = "pnpm") then
        if hasLockfile then Some (mk_command_context (Some "pnpm") true) else None
      else if bool_decide (manager = "npm") then Some (mk_command_context (Some "npm") hasLockfile)
      else None
  | _, _ => None
  end.

Definition source_missing (revision : SourceRevision.source_revision_row) : error :=
  Error ("Source directory for revision " +:+ SourceRevision.id revision +:+ " is missing: "
         +:+ SourceRevision.sourcePath revision +:+ ". Re-import the source and deploy instead.").

(** [try { await access(path); ... } catch { ... }] *)
Definition source_accessible (path : string) : Work bool :=
  try_catch
    (_u <- hosted (fun _ => HostCall "access") (accessible path) ;; ret true)
    (fun _ => ret false).

Definition resolveRecoverableRuntimeSource (revision : SourceRevision.source_revision_row)
    : Work (list persisted_file * option command_context) :=
  there <- source_accessible (SourceRevision.sourcePath revision) ;;
  if there : bool then ret ([], None)
  else
    files <- op "listSourceRevisionFiles" (listSourceRevisionFiles (SourceRevision.id revision)) ;;
    if existsb (fun f => bool_decide (SourceFile.path f = "package.json")) files then
      ret ((fun f => (SourceFile.path f, SourceFile.content f)) <$> files,
           parseRuntimeCommandContext (json_get "runtimeCommandContext" (SourceRevision.summary revision)))
    else throw (source_missing revision).
End Launch.
