(* ===== verification/RuntimeJobs.v ===== *)
(** * The runtime jobs

    The handlers of [apps/worker/src/jobs/runtime-jobs] that restart, activate,
    archive and delete: what each asks of the host and of the store, in its
    order, on every branch.  The handler of a schedule's run is in
    [ScheduleJob].  A job's payload has passed the schema of its type when the
    job was enqueued, so a required key that is missing reads as the empty
    string here. *)

From stdpp Require Import pretty.
From S2P Require Import Prelude Strings Encoding Schema Store Tables Sample Jobs Runtime Routing Slugs Projects Deletion Sessions Schedules Deployments Sources EveVersion Worker Traces Activation Reapers Launch.

Open Scope eve_scope.
Open Scope string_scope.

(** ** What the jobs are given *)

(** [ProcessJobOptions], as far as these handlers read it, with the numbers and
    strings of the environment they fall back to: [jo_dataDir] is resolved, and
    [jo_workflowWorldUrl] tells that the platform has a workflow world. *)
Record job_options : Type := mk_job_options {
  jo_runtime : option runtime_adapter;
  jo_runtimeForKind : string -> result runtime_adapter;
  jo_waitForDeployment : option wait_for_health;
  jo_healthTimeoutMs : Z;
  jo_dataDir : string;
  jo_retention : Z;
  jo_policy : session_binding_idle_policy;
  jo_workflowWorldUrl : option string
}.

(** What the jobs ask of the host beyond the adapters: the diagnostics of an
    adapter, by its name, when it has any; the removal of files; the workflow
    world; the absolute path and the real path of a path. *)
Class JobHost := {
  process_diagnostics : string -> option (string -> list work_event -> result (string * string));
  remove_files : string -> list work_event -> result unit;
  active_workflow_runs : workflow_runs;
  drop_workflow_world : string -> list work_event -> result unit;
  drop_workflow_tenant : string -> list work_event -> result unit;
  resolve_path : string -> string;
  real_path : string -> list work_event -> option string
}.

Definition payload_field (job : job_view) (key : string) : option json := json_get key (JobView.payload job).
Definition payload_string (job : job_view) (key : string) : option string :=
  json_string (payload_field job key).
Definition payload_true (job : job_view) (key : string) : bool :=
  match payload_field job key with Some (JBool b) => b | _ => false end.

(** [path.join(...)] of segments that are neither empty nor dots. *)
Definition path_join (segments : list string) : string := String.concat "/" segments.

(** [options.runtime ?? (options.runtimeForKind ?? ...)(kind)] *)
Definition job_adapter (options : job_options) (kind : string) : result runtime_adapter :=
  match jo_runtime options with Some r => Ok r | None => jo_runtimeForKind options kind end.

(** [options.runtime?.name === kind ? options.runtime : (...)(kind)] *)
Definition owning_adapter (options : job_options) (kind : string) : result runtime_adapter :=
  match jo_runtime options with
  | Some r => if bool_decide (ra_name r = kind) then Ok r else jo_runtimeForKind options kind
  | None => jo_runtimeForKind options kind
  end.

(** ** Text *)

(** [maskKnownSecrets]: every occurrence of a value of eight characters or more. *)
Fixpoint replace_from (fuel : nat) (old new s : string) : string :=
  match fuel with
  | O => s
  | S fuel =>
      match s with
      | "" => ""
      | String c rest =>
          if String.prefix old s
          then new +:+ replace_from fuel old new
                 (String.substring (String.length old) (String.length s - String.length old) s)
          else String c (replace_from fuel old new rest)
      end
  end.

(** [s.split(old).join(new)] for an [old] that is not empty. *)
Definition replace_all (old new s : string) : string := replace_from (S (String.length s)) old new s.

Definition maskKnownSecrets (input : string) (values : list string) : string :=
  foldl (fun output value => replace_all value "***" output) input
    (distinct_values [] (base.filter (fun v => (8 <= String.length v)%nat) values)).

Definition newline : string := String (Ascii.ascii_of_nat 10) "".

Definition runtimeDiagnosticMaxCharacters : nat := N.to_nat 32000.

Definition truncation_marker : string := newline +:+ "… runtime diagnostics truncated …" +:+ newline.

(** Its length in UTF-16 units; the input's is that of ASCII text. *)
Definition truncation_marker_length : nat := 35.

Definition limitRuntimeDiagnostic (input : string) : string :=
  if (String.length input <=? runtimeDiagnosticMaxCharacters)%nat then input
  else
    let prefixLength := N.to_nat 2000 in
    let suffixLength := (runtimeDiagnosticMaxCharacters - prefixLength - truncation_marker_length)%nat in
    String.substring 0 prefixLength input +:+ truncation_marker
    +:+ String.substring (String.length input - suffixLength) suffixLength input.

Section RuntimeJobs.
Context `{Platform} `{WorkerHost} `{LaunchHost} `{JobHost}.

Definition job_log (projectId : string) (deploymentId : option string) (type line : string) : Work unit :=
  _row <- op "appendLog" (appendLog (mk_log_input projectId deploymentId type line)) ;;
  ret tt.

Definition project_state_is (projectId : string) (status : option project_status)
    (deploymentStatus : option deployment_status) : Work unit :=
  _row <- op "updateProjectState" (updateProjectState projectId (mk_project_state status deploymentStatus)) ;;
  ret tt.

(** ** The status of a deployment *)

Definition RUNTIME_JOB_OWNED_DEPLOYMENT_STATUSES : list deployment_status :=
  [DeploymentStatus.running; DeploymentStatus.stopped; DeploymentStatus.failed].

Definition settleDeploymentStatus (deploymentId : string) (status : deployment_status) : Work unit :=
  _moved <- transition deploymentId status RUNTIME_JOB_OWNED_DEPLOYMENT_STATUSES ;;
  ret tt.

(** ** A process that never became healthy *)

Definition or_text (s fallback : string) : string := if bool_decide (s = "") then fallback else s.

Definition diagnostics_text (adapter : runtime_adapter) (diagnostics : string * string) : string :=
  "Runtime startup diagnostics (" +:+ ra_name adapter +:+ ") before cleanup:" +:+ newline
  +:+ "State: " +:+ or_text (js_trim diagnostics.1) "unavailable" +:+ newline
  +:+ "Recent logs:" +:+ newline +:+ or_text (js_trim diagnostics.2) "(none captured)".

Definition log_diagnostics (projectId : string) (adapter : runtime_adapter) (processName : string)
    (secretValues : list string) : Work unit :=
  match process_diagnostics (ra_name adapter) with
  | None => ret tt
  | Some getProcessDiagnostics =>
      try_catch
        (diagnostics <- hosted (Diagnostics (ra_name adapter) processName)
                          (getProcessDiagnostics processName) ;;
         job_log projectId None "runtime"
           (limitRuntimeDiagnostic (maskKnownSecrets (diagnostics_text adapter diagnostics) secretValues)))
        (fun e =>
           job_log projectId None "runtime"
             (maskKnownSecrets ("Runtime startup diagnostics (" +:+ ra_name adapter
                +:+ ") unavailable before cleanup: " +:+ error_text e) secretValues))
  end.

Definition stopStartedProcessOnFailure (projectId : string) (adapter : runtime_adapter)
    (processName phase : string) (secretValues : list string) : Work unit :=
  log_diagnostics projectId adapter processName secretValues ;;
  try_catch (stopProcess adapter processName)
    (fun e => job_log projectId None "runtime"
                ("Cleanup after failed " +:+ phase +:+ " also failed: " +:+ error_text e)).

(** ** [restart_deployment] *)

Definition live_status (st : runtime_status) : bool :=
  match st with
  | RuntimeStatus.starting | RuntimeStatus.ready | RuntimeStatus.draining => true
  | RuntimeStatus.stopped | RuntimeStatus.failed => false
  end.

(** The deployment that is asked for, or the current one. *)
Definition restart_target (job : job_view) : Work Deployment.deployment_row :=
  match truthy (payload_string job "deploymentId") with
  | Some requested =>
      found <- op "getDeployment" (getDeployment requested) ;;
      some_or found (Error ("Deployment " +:+ requested +:+ " not found."))
  | None =>
      found <- op "getCurrentDeployment" (getCurrentDeployment (JobView.projectId job)) ;;
      some_or found (Error "No deployment to restart.")
  end.

(** A restart that lost the race to an archive. *)
Definition skip_restart (job : job_view) (deployment : Deployment.deployment_row) : Work unit :=
  production <- op "getCurrentDeployment" (getCurrentDeployment (JobView.projectId job)) ;;
  project_state_is (JobView.projectId job) None
    (Some (from_option Deployment.status DeploymentStatus.not_deployed production)) ;;
  job_log (JobView.projectId job) (Some (Deployment.id deployment)) "deploy"
    ("Restart skipped: deployment " +:+ Deployment.deploymentKey deployment +:+ " is "
     +:+ status_text (Deployment.status deployment) +:+ ".").

Definition retire_live_instance (instance : RuntimeInstance.runtime_instance_row) : Work unit :=
  if live_status (RuntimeInstance.status instance) then
    _row <- op "updateRuntimeInstance" (updateRuntimeInstance (RuntimeInstance.id instance)
              (mk_runtime_update RuntimeStatus.stopped (Some None) (Some None) None) None) ;;
    ret tt
  else ret tt.

(** The start, up to the moment the process may be running. *)
Definition restart_start (adapter : runtime_adapter) (deployment : Deployment.deployment_row)
    (release : Release.release_row) (prerequisites : launch_prerequisites) : Work unit :=
  instances <- op "listDeploymentRuntimeInstances" (listDeploymentRuntimeInstances (Deployment.id deployment)) ;;
  for_m instances retire_live_instance ;;
  ensureDeploymentLaunchSandbox prerequisites ;;
  launchContext <- materializeDeploymentLaunchContext (Release.id release) prerequisites (Some release) ;;
  startProcess adapter (createDeploymentStartInput (Deployment.containerName deployment)
    (Release.imageTag release) (Deployment.hostPort deployment) launchContext).

Definition await_restart (options : job_options) (adapter : runtime_adapter)
    (deployment : Deployment.deployment_row) : Work unit :=
  waitForOwnedHttpHealth adapter (Deployment.containerName deployment) (jo_waitForDeployment options)
    (mk_health_input "127.0.0.1" (Deployment.hostPort deployment) (jo_healthTimeoutMs options)).

(** [settleDeploymentStatus(...).catch(() => undefined)], then the error. *)
Definition abandon_restart (deployment : Deployment.deployment_row) (e : error) : Work unit :=
  try_catch (settleDeploymentStatus (Deployment.id deployment) DeploymentStatus.stopped) (fun _ => ret tt) ;;
  throw e.

Definition replace_process (options : job_options) (projectId : string) (adapter : runtime_adapter)
    (deployment : Deployment.deployment_row) (release : Release.release_row)
    (prerequisites : launch_prerequisites) : Work unit :=
  stopProcess adapter (Deployment.containerName deployment) ;;
  try_catch (restart_start adapter deployment release prerequisites)
    (fun e => abandon_restart deployment e) ;;
  try_catch (await_restart options adapter deployment)
    (fun e =>
       stopStartedProcessOnFailure projectId adapter (Deployment.containerName deployment) "restart"
         (lp_secretValues prerequisites) ;;
       abandon_restart deployment e).

(** What a restart needs, checked before anything is stopped. *)
Definition restart_release (job : job_view) (deployment : Deployment.deployment_row)
    : Work Release.release_row :=
  found <- op "getRelease" (getRelease (Deployment.releaseId deployment)) ;;
  release <- some_or found (Error ("Release " +:+ Deployment.releaseId deployment
               +:+ " not found for deployment " +:+ Deployment.id deployment +:+ ".")) ;;
  match assessWorkflowLaunch release with
  | LaunchAllowed => ret release
  | LaunchRefused _ reason =>
      job_log (JobView.projectId job) (Some (Deployment.id deployment)) "deploy"
        ("Restart blocked: " +:+ reason) ;;
      throw (Error reason)
  end.

Definition restart_revision (release : Release.release_row) : Work SourceRevision.source_revision_row :=
  found <- op "getSourceRevision" (getSourceRevision (Release.sourceRevisionId release)) ;;
  revision <- some_or found (Error ("Source revision " +:+ Release.sourceRevisionId release
                +:+ " not found for release " +:+ Release.id release +:+ ".")) ;;
  there <- source_accessible (SourceRevision.sourcePath revision) ;;
  if there : bool then ret revision else throw (source_missing revision).

Definition restart_deployment (job : job_view) (options : job_options)
    (deployment : Deployment.deployment_row) : Work unit :=
  let pid := JobView.projectId job in
  release <- restart_release job deployment ;;
  revision <- restart_revision release ;;
  adapter <- lift (job_adapter options (Deployment.runtimeKind deployment)) ;;
  prerequisites <- resolveDeploymentLaunchPrerequisites pid (Deployment.id deployment) (ra_name adapter)
                     (SourceRevision.sourcePath revision) [] None ;;
  replace_process options pid adapter deployment release prerequisites ;;
  settleDeploymentStatus (Deployment.id deployment) DeploymentStatus.running ;;
  project_state_is pid None (Some DeploymentStatus.running) ;;
  job_log pid (Some (Deployment.id deployment)) "deploy"
    ("Deployment running on 127.0.0.1:" +:+ pretty (Deployment.hostPort deployment) +:+ ".").

Definition restart_line (job : job_view) : string :=
  match truthy (payload_string job "reason") with
  | Some reason => "Restart requested (" +:+ reason +:+ ")."
  | None => "Restart requested."
  end.

Definition archive_status (st : deployment_status) : bool :=
  bool_decide (st = DeploymentStatus.archived) || bool_decide (st = DeploymentStatus.archiving).

Definition handleRestartDeploymentJob (job : job_view) (options : job_options) : Work unit :=
  let pid := JobView.projectId job in
  project_state_is pid None (Some DeploymentStatus.starting) ;;
  job_log pid None "deploy" (restart_line job) ;;
  project <- op "getProject" (getProject pid) ;;
  _project <- some_or project (Error ("Project " +:+ pid +:+ " not found.")) ;;
  deployment <- restart_target job ;;
  throw_if (negb (bool_decide (Deployment.projectId deployment = pid)))
    (Error ("Deployment " +:+ Deployment.id deployment +:+ " does not belong to project " +:+ pid +:+ ".")) ;;
  if archive_status (Deployment.status deployment) then skip_restart job deployment
  else restart_deployment job options deployment.

(** ** [ensure_deployment_running] *)

(** An activation that is refused leaves its instance failed, with the reason. *)
Definition refuse_activation (runtimeInstanceId message : string) : Work unit :=
  _row <- op "updateRuntimeInstance" (updateRuntimeInstance runtimeInstanceId
            (mk_runtime_update RuntimeStatus.failed None None (Some (Some message))) None) ;;
  ret tt.

Definition block_activation (projectId deploymentId runtimeInstanceId reason : string) : Work unit :=
  refuse_activation runtimeInstanceId reason ;;
  runtime_log projectId deploymentId ("Activation blocked: " +:+ reason).

(** The start of a deployment whose release may be launched. *)
Definition ensure_release_running (job : job_view) (options : job_options)
    (deployment : Deployment.deployment_row) (instance : RuntimeInstance.runtime_instance_row)
    (release : Release.release_row) : Work unit :=
  let pid := JobView.projectId job in
  found <- op "getSourceRevision" (getSourceRevision (Release.sourceRevisionId release)) ;;
  revision <- some_or found (Error "Deployment activation SourceRevision is missing.") ;;
  source <- resolveRecoverableRuntimeSource revision ;;
  runtime <- lift (job_adapter options (Deployment.runtimeKind deployment)) ;;
  prerequisites <- resolveDeploymentLaunchPrerequisites pid (Deployment.id deployment) (ra_name runtime)
                     (SourceRevision.sourcePath revision) source.1 source.2 ;;
  ensureDeploymentLaunchSandbox prerequisites ;;
  launchContext <- materializeDeploymentLaunchContext (Release.id release) prerequisites (Some release) ;;
  _ready <- startRuntimeInstance runtime deployment
    (createDeploymentStartInput (Deployment.containerName deployment) (Release.imageTag release)
       (Deployment.hostPort deployment) launchContext)
    (RuntimeInstance.id instance)
    (mk_activation_options None (Some (jo_healthTimeoutMs options)) None None None
       (jo_waitForDeployment options)) ;;
  settleDeploymentStatus (Deployment.id deployment) DeploymentStatus.running ;;
  runtime_log pid (Deployment.id deployment)
    ("Deployment " +:+ Deployment.id deployment +:+ " is ready for RuntimeInstance "
     +:+ RuntimeInstance.id instance +:+ ".").

Definition ensure_deployment_running (job : job_view) (options : job_options)
    (deployment : Deployment.deployment_row) (instance : RuntimeInstance.runtime_instance_row)
    : Work unit :=
  let pid := JobView.projectId job in
  let instanceId := default "" (payload_string job "runtimeInstanceId") in
  found <- op "getRelease" (getRelease (Deployment.releaseId deployment)) ;;
  release <- some_or found (Error "Deployment activation Release is missing.") ;;
  match unsupportedReleaseEveVersionMessage (Release.summary release) with
  | Some refusal => block_activation pid (Deployment.id deployment) instanceId refusal
  | None =>
      match assessWorkflowLaunch release with
      | LaunchRefused _ reason => block_activation pid (Deployment.id deployment) instanceId reason
      | LaunchAllowed => ensure_release_running job options deployment instance release
      end
  end.

Definition handleEnsureDeploymentRunningJob (job : job_view) (options : job_options) : Work unit :=
  let instanceId := default "" (payload_string job "runtimeInstanceId") in
  deployment <- op "getDeployment" (getDeployment (default "" (payload_string job "deploymentId"))) ;;
  instance <- op "getRuntimeInstance" (getRuntimeInstance instanceId) ;;
  deployment <- some_or deployment (Error "Deployment activation target is invalid.") ;;
  throw_if (negb (bool_decide (Deployment.projectId deployment = JobView.projectId job)))
    (Error "Deployment activation target is invalid.") ;;
  instance <- some_or instance (Error "RuntimeInstance activation target is invalid.") ;;
  throw_if (negb (bool_decide (RuntimeInstance.deploymentId instance = Deployment.id deployment)))
    (Error "RuntimeInstance activation target is invalid.") ;;
  if archive_status (Deployment.status deployment) then
    refuse_activation instanceId
      ("Deployment is " +:+ status_text (Deployment.status deployment) +:+ " and cannot be activated.")
  else ensure_deployment_running job options deployment instance.

(** ** [archive_deployment] *)

Definition AUTOMATIC_CLAIMABLE : list deployment_status :=
  [DeploymentStatus.stopped; DeploymentStatus.archiving].
Definition MANUAL_CLAIMABLE : list deployment_status :=
  [DeploymentStatus.running; DeploymentStatus.draining; DeploymentStatus.stopped;
   DeploymentStatus.failed; DeploymentStatus.archiving].

(** The status the claim is handed back to. *)
Definition prior_status (st : deployment_status) : deployment_status :=
  if bool_decide (st = DeploymentStatus.archiving) then DeploymentStatus.stopped else st.

Definition reason_text (r : RetentionReason.retention_reason) : string :=
  match r with
  | RetentionReason.route_target => "route_target"
  | RetentionReason.active_session => "active_session"
  | RetentionReason.active_operation => "active_operation"
  | RetentionReason.active_request => "active_request"
  | RetentionReason.recent_artifact => "recent_artifact"
  | RetentionReason.active_workflow_run => "active_workflow_run"
  end.

Definition protected_error (policy : option deployment_retention) : error :=
  Error ("Deployment is protected from archive"
         +:+ match policy with
             | Some entry =>
                 match dr_reasons entry with
                 | [] => "."
                 | reasons => ": " +:+ String.concat ", " (reason_text <$> reasons)
                 end
             | None => "."
             end).

(** [adapter.removeRelease] of a release that is still there. *)
Definition remove_release (adapter : runtime_adapter) (release : option Release.release_row) : Work unit :=
  match release, ra_removeRelease adapter with
  | Some release, Some removeRelease =>
      hosted (RemoveRelease (ra_name adapter) (Release.imageTag release))
        (removeRelease (Release.imageTag release))
  | _, _ => ret tt
  end.

(** The [rm] of a path, recursive and forced. *)
Definition rm (path : string) : Work unit := hosted (RemoveFiles path) (remove_files path).

Definition retained (options : job_options) (projectId : string) : Work (list deployment_retention) :=
  active <- hosted (ListWorkflowRuns (Some projectId)) (active_workflow_runs projectId) ;;
  op "getDeploymentRetention"
    (getDeploymentRetention projectId (Some (Z.to_nat (at_least 3 (jo_retention options))))
       (mk_retention_options None (jo_policy options) (Some active))).

Definition retention_entry (deploymentId : string) (entries : list deployment_retention)
    : option deployment_retention :=
  List.find (fun e => bool_decide (Deployment.id (dr_deployment e) = deploymentId)) entries.

(** The body of the [try]: with the claim held, the artifacts go. *)
Definition archive_claimed (job : job_view) (options : job_options) (did : string)
    (deployment : Deployment.deployment_row) : Work unit :=
  let pid := JobView.projectId job in
  retention <- retained options pid ;;
  let policy := retention_entry (Deployment.id deployment) retention in
  throw_if (match policy with Some entry => dr_protected entry | None => true end) (protected_error policy) ;;
  adapter <- lift (owning_adapter options (Deployment.runtimeKind deployment)) ;;
  (if bool_decide (prior_status (Deployment.status deployment) = DeploymentStatus.running)
      || bool_decide (prior_status (Deployment.status deployment) = DeploymentStatus.draining)
   then stopProcess adapter (Deployment.containerName deployment) else ret tt) ;;
  release <- op "getRelease" (getRelease (Deployment.releaseId deployment)) ;;
  remove_release adapter release ;;
  rm (path_join [jo_dataDir options; "builds"; pid; Deployment.releaseId deployment]) ;;
  archived <- transition did DeploymentStatus.archived [DeploymentStatus.archiving] ;;
  throw_if (bool_decide (archived = None))
    (Error "Deployment lost the archiving claim before completion.").

(** The [catch]: the claim is handed back, as far as it goes. *)
Definition hand_back (did : string) (deployment : Deployment.deployment_row) (e : error) : Work unit :=
  try_catch
    (_moved <- transition did (prior_status (Deployment.status deployment))
                 [DeploymentStatus.archiving] ;;
     ret tt)
    (fun _ => ret tt) ;;
  throw e.

Definition archive_deployment (job : job_view) (options : job_options) (automatic : bool) (did : string)
    (deployment : Deployment.deployment_row) : Work unit :=
  claimed <- transition did DeploymentStatus.archiving [Deployment.status deployment] ;;
  match claimed with
  | None =>
      if automatic then ret tt
      else throw (Error "Deployment changed state before archive could claim it.")
  | Some _ =>
      try_catch (archive_claimed job options did deployment) (hand_back did deployment) ;;
      job_log (JobView.projectId job) (Some did) "deploy"
        ("Deployment " +:+ Deployment.deploymentKey deployment
         +:+ (if automatic then " automatically archived by retention policy." else " archived."))
  end.

Definition handleArchiveDeploymentJob (job : job_view) (options : job_options) : Work unit :=
  let did := default "" (payload_string job "deploymentId") in
  found <- op "getDeployment" (getDeployment did) ;;
  deployment <- some_or found (Error "Deployment not found for archive.") ;;
  throw_if (negb (bool_decide (Deployment.projectId deployment = JobView.projectId job)))
    (Error "Deployment not found for archive.") ;;
  if bool_decide (Deployment.status deployment = DeploymentStatus.archived) then ret tt
  else
    let automatic := payload_true job "automatic" in
    if bool_decide (Deployment.status deployment
                    ∈ if automatic then AUTOMATIC_CLAIMABLE else MANUAL_CLAIMABLE)
    then archive_deployment job options automatic did deployment
    else if automatic then ret tt
    else throw (Error ("Deployment cannot be archived while "
                       +:+ status_text (Deployment.status deployment) +:+ ".")).

(** ** The files of a project

    Paths are absolute and normalised here: [resolve_path] is [path.resolve]. *)

(** [path.relative(root, candidate)] is neither empty nor leads out of [root]. *)
Definition isStrictlyWithin (candidate root : string) : bool :=
  String.prefix (root +:+ "/") candidate && negb (bool_decide (candidate = root +:+ "/")).

Fixpoint first_segment (s : string) : string :=
  match s with
  | "" => ""
  | String c rest => if ascii_is 47 c then "" else String c (first_segment rest)
  end.

(** [processSafeName] *)
Definition safe_char (c : Ascii.ascii) : Ascii.ascii :=
  if slug_char c || ascii_is 95 c || ascii_is 46 c || ascii_is 45 c then c else hyphen.

Fixpoint map_chars (f : Ascii.ascii -> Ascii.ascii) (s : string) : string :=
  match s with "" => "" | String c rest => String (f c) (map_chars f rest) end.

Definition processSafeName (value : string) : string :=
  let sanitized := map_chars safe_char (to_lower value) in
  if bool_decide (sanitized <> "") && all_chars (ascii_is 46) sanitized
  then map_chars (fun _ => hyphen) sanitized else sanitized.

Definition managed_paths (root projectId : string) (processNames : list string) : list string :=
  ([path_join [root; "sources"; projectId]; path_join [root; "builds"; projectId];
   path_join [root; "observability"; processSafeName projectId];
   path_join [root; "sandbox"; processSafeName projectId];
   path_join [root; "memory"; processSafeName projectId]]
  ++ ((fun name => path_join [root; "deployment-env"; processSafeName name +:+ ".env"]) <$> processNames))%list.

(** The directory of a source that the project owns: an uploaded archive is
    unpacked below a directory of its own. *)
Definition owned_candidate (root candidate allowedRoot : string) : string :=
  let relative := String.substring (String.length allowedRoot + 1) (String.length candidate) candidate in
  if bool_decide (allowedRoot = path_join [root; "uploads"]) && String.prefix "zip-" (first_segment relative)
  then path_join [allowedRoot; first_segment relative] else candidate.

(** A source path, when it and what it really is are below a directory of sources. *)
Definition owned_source (root : string) (owned : list string) (sourcePath : string) : Work (list string) :=
  let candidate := resolve_path sourcePath in
  match List.find (isStrictlyWithin candidate) [path_join [root; "sources"]; path_join [root; "uploads"]] with
  | None => ret owned
  | Some allowedRoot =>
      let ownedCandidate := owned_candidate root candidate allowedRoot in
      realCandidate <- hosted (fun r => RealPath ownedCandidate (match r with Ok p => p | Err _ => None end))
                         (fun log => Ok (real_path ownedCandidate log)) ;;
      realAllowedRoot <- hosted (fun r => RealPath allowedRoot (match r with Ok p => p | Err _ => None end))
                           (fun log => Ok (real_path allowedRoot log)) ;;
      match truthy realCandidate, truthy realAllowedRoot with
      | Some real, Some realRoot =>
          ret (if isStrictlyWithin real realRoot then (owned ++ [ownedCandidate])%list else owned)
      | _, _ => ret owned
      end
  end.

(** [Promise.all]: every removal is started, and the first failure is thrown. *)
Definition rm_all (paths : list string) : Work unit :=
  failed <- fold_m (fun failed path =>
      try_catch (rm path ;; ret failed) (fun e => ret (or_else failed (Some e)))) paths None ;;
  match failed with Some e => throw e | None => ret tt end.

Definition removeManagedProjectFiles (projectId : string) (root : string)
    (sourcePaths processNames : list string) : Work unit :=
  owned <- fold_m (owned_source root) sourcePaths (managed_paths root projectId processNames) ;;
  rm_all (distinct_values [] owned).

(** ** [delete_project] *)

Definition live_deployment (deployment : Deployment.deployment_row) : bool :=
  bool_decide (Deployment.status deployment = DeploymentStatus.running)
  || bool_decide (Deployment.status deployment = DeploymentStatus.draining).

Definition stop_deployment (options : job_options) (deployment : Deployment.deployment_row) : Work unit :=
  adapter <- lift (owning_adapter options (Deployment.runtimeKind deployment)) ;;
  stopProcess adapter (Deployment.containerName deployment).

Definition stop_live (options : job_options) (projectId : string) (live : list Deployment.deployment_row)
    : Work unit :=
  match live with
  | [] => ret tt
  | _ =>
      job_log projectId None "deploy"
        ("Stopping " +:+ pretty (length live) +:+ " deployment(s) before deleting project.") ;;
      for_m live (stop_deployment options)
  end.

(** One release is removed once for each kind of runtime it ran on. *)
Definition remove_deployment_release (options : job_options) (removed : list string)
    (deployment : Deployment.deployment_row) : Work (list string) :=
  let key := Deployment.runtimeKind deployment +:+ ":" +:+ Deployment.releaseId deployment in
  if bool_decide (key ∈ removed) then ret removed
  else
    release <- op "getRelease" (getRelease (Deployment.releaseId deployment)) ;;
    adapter <- lift (owning_adapter options (Deployment.runtimeKind deployment)) ;;
    remove_release adapter release ;;
    ret (key :: removed).

Definition payload_strings (job : job_view) (key : string) : list string :=
  match payload_field job key with
  | Some (JArr l) => omap (fun j => json_string (Some j)) l
  | _ => []
  end.

Definition delete_artifacts (job : job_view) (options : job_options)
    (deployments : list Deployment.deployment_row) : Work unit :=
  let pid := JobView.projectId job in
  stop_live options pid (base.filter live_deployment deployments) ;;
  _removed <- fold_m (remove_deployment_release options) deployments [] ;;
  hosted (fun _ => HostCall "dropProjectWorkflowWorld") (drop_workflow_world pid) ;;
  match jo_workflowWorldUrl options with
  | Some _ => hosted (fun _ => HostCall "dropEvelandWorkflowTenant") (drop_workflow_tenant pid)
  | None => ret tt
  end ;;
  revisions <- op "listSourceRevisions" (listSourceRevisions pid) ;;
  removeManagedProjectFiles pid (resolve_path (jo_dataDir options))
    ((SourceRevision.sourcePath <$> revisions) ++ payload_strings job "sourcePaths")%list
    (Deployment.containerName <$> deployments).

Definition handleDeleteProjectJob (job : job_view) (options : job_options) : Work unit :=
  let pid := JobView.projectId job in
  project <- op "getProject" (getProject pid) ;;
  match project with
  | None => ret tt
  | Some _ =>
      deployments <- op "listDeployments" (listDeployments pid None None) ;;
      delete_artifacts job options deployments ;;
      _deleted <- op "deleteProject" (deleteProject pid) ;;
      ret tt
  end.
End RuntimeJobs.
