(* ===== verification/JobRuns.v ===== *)
(** * What the runtime jobs may do

    Safety of the archive and of the deletion of a project: each stop, removal and
    deletion is justified by calls of the same run before it. *)

From stdpp Require Import pretty.
From S2P Require Import Prelude Strings Encoding Schema Store Tables Sample Jobs Runtime Routing Slugs Projects Deletion Sessions Schedules Deployments Sources EveVersion Worker Traces Activation Reapers Launch RuntimeJobs.

Open Scope eve_scope.
Open Scope string_scope.
Open Scope list_scope.

(** ** Archiving *)

Section Archiving.
Context `{Platform} `{WorkerHost} `{LaunchHost} `{JobHost}.
Context (job : job_view) (options : job_options).
Let pid : string := JobView.projectId job.
Let did : string := default "" (payload_string job "deploymentId").

Definition status_in (deploymentId : string) (d : database) : option deployment_status :=
  Deployment.status <$> deployments d !! deploymentId.

Definition transition_event (d d' : database) : work_event :=
  Stored (StoreCall "transitionDeploymentStatus") d d'.

(** What the retention policy said of a project when it was asked. *)
Definition retention_was (projectId : string) (s : store) (entries : list deployment_retention) : Prop :=
  exists active, getDeploymentRetention projectId
    (Some (Z.to_nat (at_least 3 (jo_retention options))))
    (mk_retention_options None (jo_policy options) (Some active)) s = (Ok entries, s).

(** A past in which the deployment was read, then claimed from the status it was
    read in, and only then found unprotected. *)
Definition claimed_unprotected (past : list work_event) (dep : Deployment.deployment_row) : Prop :=
  exists p0 p1 p2 p3 d0 d1 d1' s entries entry,
    past = p0 ++ reads "getDeployment" d0 :: p1 ++ transition_event d1 d1' :: p2 ++
           reads "getDeploymentRetention" (st_db s) :: p3 /\
    deployments d0 !! did = Some dep /\ Deployment.projectId dep = pid /\
    status_in did d1 = Some (Deployment.status dep) /\
    status_in did d1' = Some DeploymentStatus.archiving /\
    retention_was pid s entries /\ entry ∈ entries /\
    Deployment.id (dr_deployment entry) = Deployment.id dep /\ dr_protected entry = false.

(** The only process, release and files that an archive may take away. *)
Definition archive_call (past : list work_event) (e : work_event) : Prop :=
  match e with
  | Host (StopProcess _ name _) =>
      exists dep, claimed_unprotected past dep /\ name = Deployment.containerName dep /\
        (Deployment.status dep = DeploymentStatus.running \/ Deployment.status dep = DeploymentStatus.draining)
  | Host (RemoveRelease _ ref _) =>
      exists dep d release, claimed_unprotected past dep /\ reads "getRelease" d ∈ past /\
        releases d !! Deployment.releaseId dep = Some release /\ ref = Release.imageTag release
  | Host (RemoveFiles path _) =>
      exists dep, claimed_unprotected past dep /\
        path = path_join [jo_dataDir options; "builds"; pid; Deployment.releaseId dep]
  | Host (StartProcess _ _ _) => False
  | _ => True
  end.

Lemma claimed_unprotected_more earlier past later dep :
  claimed_unprotected past dep -> claimed_unprotected (earlier ++ past ++ later) dep.
Proof.
  intros (p0 & p1 & p2 & p3 & d0 & d1 & d1' & s & entries & entry & -> & Hrest).
  exists (earlier ++ p0), p1, p2, (p3 ++ later), d0, d1, d1', s, entries, entry.
  split; [by flatten|exact Hrest].
Qed.

Lemma archive_call_more earlier past later e : archive_call past e -> archive_call (earlier ++ past ++ later) e.
Proof.
  destruct e as [[]| |]; simpl; try done.
  - intros (dep & Hc & Hrest). exists dep. split; [by apply claimed_unprotected_more|done].
  - intros (dep & d & release & Hc & Hr & Hrest). exists dep, d, release.
    split; [by apply claimed_unprotected_more|]. split; [|done]. set_solver.
  - intros (dep & Hc & Hrest). exists dep. split; [by apply claimed_unprotected_more|done].
Qed.
End Archiving.

Section ArchivingRuns.
Context `{Platform} `{WorkerHost} `{LaunchHost} `{JobHost}.

(** What a transition did, by its answer. *)
Definition moved (did : string) (to : deployment_status) (from : list deployment_status)
    (r : result (option Deployment.deployment_row)) (d d' : database) : Prop :=
  match r with
  | Ok (Some row) => (exists st, status_in did d = Some st /\ st ∈ from) /\ status_in did d' = Some to
  | Ok None => d' = d /\ forall st, status_in did d = Some st -> st ∉ from
  | Err _ => d' = d /\ ~ unique_ok deployments_project_key_idx (deployments d)
  end.

Lemma transition_run did to from w r w' :
  transition did to from w = (r, w') ->
  exists d, w_log w' = w_log w ++ [transition_event d (st_db (w_store w'))] /\
    moved did to from r d (st_db (w_store w')).
Proof.
  intros (s & Hrun & <- & Hlog)%stored_run. eexists. split; [exact Hlog|]. clear Hlog.
  unfold transitionDeploymentStatus in Hrun. case_bool_decide as Hnil.
  { injection Hrun as <- <-. split; [done|]. intros st _. rewrite Hnil. apply not_elem_of_nil. }
  unfold bind at 1, clock, gets in Hrun. cbn beta match in Hrun. destruct r as [[row|]|e].
  - apply update_key_ok in Hrun as [(? & _)|(row' & Hrow & Hst%bool_decide_eq_true & [= ->] & _ & ->)]; [done|].
    unfold moved, status_in. simpl. rewrite lookup_insert_eq. simpl in Hrow. rewrite Hrow. simpl. eauto.
  - apply update_key_ok in Hrun as [(_ & -> & Hno)|(? & _ & _ & [=] & _)]. split; [done|].
    intros st Hst. unfold status_in in Hst. destruct (deployments _ !! did) as [row|] eqn:Hrow; [|done].
    injection Hst as <-. by apply (bool_decide_eq_false_1 _), (Hno row).
  - pose proof (update_key_err _ _ _ _ _ _ _ Hrun) as ->. split; [done|]. intros Hu.
    destruct (deployments (st_db (others (w_log w) (w_store w))) !! did) as [row|] eqn:Hrow;
      [|unfold update_key, read, bind, gets in Hrun; simpl in Hrun; by rewrite Hrow in Hrun].
    destruct (bool_decide (Deployment.status row ∈ from)) eqn:Hst;
      [|unfold update_key, read, bind, gets in Hrun; simpl in Hrun; by rewrite Hrow, Hst in Hrun].
    erewrite (update_key_succeeds deployments_table) in Hrun; [done|exact Hrow|exact Hst|].
    intros u ->%list_elem_of_singleton. apply clashes_false. intros k' r' Hk' Hne. exact (Hu _ _ _ _ Hrow Hk' (not_eq_sym Hne)).
Qed.

Lemma ends_transition G (Gmore : forall past later e, G past e -> G (past ++ later) e) K w did to from
    (Q : _ -> list work_event -> world -> Prop) :
  (forall d d', G K (transition_event d d')) ->
  (forall d r w', moved did to from r d (st_db (w_store w')) ->
     Q r (K ++ [transition_event d (st_db (w_store w'))]) w') ->
  ends G K w (transition did to from) Q.
Proof.
  intros Hg Hq. unfold ends. destruct (transition did to from w) as [r w'] eqn:Hrun.
  apply transition_run in Hrun as (d & Hlog & Hm). eexists.
  split; [by eapply (logs_from_event G Gmore)|by apply Hq].
Qed.

(** The claim, as the past the body starts from. *)
Definition claim_held (job : job_view) (dep : Deployment.deployment_row) (K : list work_event) : Prop :=
  let did := default "" (payload_string job "deploymentId") in
  exists p0 p1 p2 d0 d1 d1', K = p0 ++ reads "getDeployment" d0 :: p1 ++ transition_event d1 d1' :: p2 /\
    deployments d0 !! did = Some dep /\ Deployment.projectId dep = JobView.projectId job /\
    status_in did d1 = Some (Deployment.status dep) /\
    status_in did d1' = Some DeploymentStatus.archiving.

(** A log of a read and one transition holds a claim only if that is it. *)
Lemma claim_held_pair job dep d0 d d' :
  let did := default "" (payload_string job "deploymentId") in
  claim_held job dep [reads "getDeployment" d0; transition_event d d'] ->
  deployments d0 !! did = Some dep /\ status_in did d = Some (Deployment.status dep).
Proof.
  intros did (p0 & p1 & p2 & e0 & e1 & e1' & Heq & Hrow & _ & Hst & _).
  destruct p0 as [|x [|y p0]]; simpl in Heq; [| |by destruct p0].
  - injection Heq as -> _ Heq. destruct p1 as [|x p1]; cbn [app] in Heq.
    + by injection Heq as -> _ _.
    + injection Heq as _ Heq. by destruct p1.
  - injection Heq as _ Heq. by destruct p1.
Qed.

(** *** The body of the archive, with the claim held *)

Section Body.
Context (job : job_view) (options : job_options) (dep : Deployment.deployment_row).
Let pid : string := JobView.projectId job.
Let did : string := default "" (payload_string job "deploymentId").
Abbreviation call := (archive_call job options).
Abbreviation held := (claim_held job dep).

Lemma call_later past later e : call past e -> call (past ++ later) e.
Proof. apply (archive_call_more job options []). Qed.

Lemma claim_then_unprotected K es s entries entry :
  held K -> retention_was options pid s entries -> entry ∈ entries ->
  Deployment.id (dr_deployment entry) = Deployment.id dep -> dr_protected entry = false ->
  claimed_unprotected job options (K ++ es ++ [reads "getDeploymentRetention" (st_db s)]) dep.
Proof.
  intros (p0 & p1 & p2 & d0 & d1 & d1' & -> & Hrow & Hp & Hst & Hst') Hs He Hid Hu.
  exists p0, p1, (p2 ++ es), [], d0, d1, d1', s, entries, entry.
  split; [by flatten|]. tauto.
Qed.

(** The policy only reads. *)
Lemma retention_reads projectId keep o s r s' : getDeploymentRetention projectId keep o s = (r, s') -> s' = s.
Proof.
  intros Hrun. symmetry. revert Hrun. apply (within_run eq). unfold getDeploymentRetention, listDeployments.
  stroll; intros x; try done; by destruct (ro_now o).
Qed.

Lemma retained_ends K w Q :
  (forall e K' w', Q (Err e) K' w') ->
  (forall s es entries w', retention_was options pid s entries ->
     Q (Ok entries) (K ++ es ++ [reads "getDeploymentRetention" (st_db s)]) w') ->
  ends call K w (retained options pid) Q.
Proof.
  intros Herr Hok. apply ends_bind, (ends_hosted _ call_later); [done|]. intros [active|e] w1; [|apply Herr].
  apply (ends_op _ call_later); [done|]. intros s r w2 Hs.
  pose proof (retention_reads _ _ _ _ _ _ Hs) as Heq. rewrite Heq in Hs |- *. destruct r as [entries|e]; [|apply Herr].
  rewrite <- app_assoc. apply Hok. by exists active.
Qed.


(** Once the claim and the policy are seen, everything that is removed is the
    deployment's. *)
Lemma archive_claimed_ends K w :
  held K ->
  ends call K w (archive_claimed job options did dep) (fun r K' _ =>
    forall u, r = Ok u -> exists d d', transition_event d d' ∈ K' /\
      status_in did d' = Some DeploymentStatus.archived).
Proof.
  intros Hheld. unfold archive_claimed. apply ends_bind, retained_ends; [done|].
  intros s es entries w1 Hs. set (K1 := K ++ _).
  apply ends_bind, ends_throw_if; [done|]. intros Hprot.
  destruct (retention_entry (Deployment.id dep) entries) as [entry|] eqn:Hentry; [|done].
  apply find_some in Hentry as [Hin%list_elem_of_In Hid%bool_decide_eq_true].
  pose proof (claim_then_unprotected K es s entries entry Hheld Hs Hin Hid Hprot) as Hcu. fold K1 in Hcu.
  apply ends_bind, ends_lift. destruct (owning_adapter _ _) as [adapter|e]; [|done].
  apply ends_bind, (ends_only _ call_later).
  { destruct (_ || _) eqn:Hlive; [|by intros w'; apply reflexivity]. apply logs_hosted. intros r. exists dep.
    split; [done|]. split; [done|].
    apply orb_true_iff in Hlive. revert Hlive. unfold prior_status. by repeat case_bool_decide; naive_solver. }
  intros [[]|e] es1 w2; [|done].
  apply ends_bind, (ends_read _ call_later); [done|]. intros d w3 _. set (K3 := (K1 ++ es1) ++ _).
  assert (Hcu3 : claimed_unprotected job options K3 dep).
  { unfold K3. rewrite <- app_assoc. exact (claimed_unprotected_more job options [] K1 _ dep Hcu). }
  apply ends_bind, (ends_only _ call_later).
  { unfold remove_release. destruct (releases d !! _) as [release|] eqn:Hrel; [|by intros w'].
    destruct (ra_removeRelease adapter) as [remove|]; [|by intros w']. apply logs_hosted. intros r.
    exists dep, d, release. split; [done|]. split; [|done]. unfold K3. set_solver. }
  intros [[]|e] es3 w4; [|done].
  apply ends_bind, (ends_hosted _ call_later).
  { intros r. exists dep. split; [|done]. exact (claimed_unprotected_more job options [] K3 _ dep Hcu3). }
  intros [[]|e] w5; [|done].
  apply ends_bind, (ends_transition _ call_later); [done|]. intros d1 [[row|]|e] w6 Hmoved; [..|done];
    apply ends_throw_if; try done.
  intros _ [] _. exists d1, (st_db (w_store w6)). split; [|apply Hmoved]. set_solver.
Qed.
Lemma prior_status_settled st : prior_status st <> DeploymentStatus.archiving.
Proof. unfold prior_status. by case_bool_decide. Qed.

(** The claim ends: the deployment is archived, or the job throws and the last it
    does is to hand the claim back. *)
Definition archive_settled (r : result unit) (es : list work_event) : Prop :=
  (exists d d', transition_event d d' ∈ es /\ status_in did d' = Some DeploymentStatus.archived) \/
  (exists e d d', r = Err e /\ last es = Some (transition_event d d') /\
     (unique_ok deployments_project_key_idx (deployments d) ->
      status_in did d' <> Some DeploymentStatus.archiving)).

Lemma hand_back_ends K w e :
  ends call K w (hand_back did dep e) (fun r K' _ => r = Err e /\ archive_settled r K').
Proof.
  unfold hand_back. apply ends_bind, ends_catch, ends_bind, (ends_transition _ call_later); [done|].
  intros d r w1 Hm. assert (Hset : forall x : unit, archive_settled (Err e) (K ++ [transition_event d (st_db (w_store w1))])).
  { intros _. right. exists e, d, (st_db (w_store w1)). split; [done|]. split; [by rewrite last_snoc|]. intros Hu Hbad.
    destruct r as [[row|]|e']; simpl in Hm.
    - destruct Hm as [_ Hst]. rewrite Hbad in Hst. injection Hst as Hst. by apply (prior_status_settled (Deployment.status dep)).
    - destruct Hm as [Heq Hno]. rewrite Heq in Hbad. apply (Hno _ Hbad). by left.
    - by destruct Hm as [_ []]. }
  destruct r as [o|e']; [apply ends_ret|apply ends_ret]; apply ends_throw; (split; [done|exact (Hset tt)]).
Qed.

Lemma archive_deployment_ends K w automatic :
  (exists d0, K = [reads "getDeployment" d0] /\ deployments d0 !! did = Some dep) ->
  Deployment.projectId dep = pid ->
  ends call K w (archive_deployment job options automatic did dep) (fun r K' _ =>
    (exists dep', claim_held job dep' K') -> archive_settled r K').
Proof.
  intros (d0 & -> & Hrow) Hp. unfold archive_deployment.
  apply ends_bind, (ends_transition _ call_later); [done|]. intros d [[row|]|e] w1 Hm.
  - destruct Hm as [(st & Hst & ->%list_elem_of_singleton) Hst'].
    apply ends_bind, ends_catch. eapply ends_weaken; [|apply archive_claimed_ends].
    2: { exists [], [], [], d0, d, (st_db (w_store w1)). naive_solver. }
    intros [u|e] K' w' Hdone.
    + destruct (Hdone u eq_refl) as (d1 & d1' & Hin & Ha). unfold job_log.
      apply ends_bind, (ends_op _ call_later); [done|]. intros s [x|e] w2 _; [apply ends_ret|];
        intros _; left; exists d1, d1'; (split; [set_solver|done]).
    + eapply ends_weaken; [|apply hand_back_ends]. intros r K2 w2 [-> Hs]. by intros _.
  - destruct Hm as [_ Hno].
    destruct automatic; [apply ends_ret|apply ends_throw];
      intros (dep' & [Hrow' Hst]%claim_held_pair); injection (eq_trans (eq_sym Hrow) Hrow') as <-;
      destruct (Hno _ Hst); by left.
  - intros _. right. exists e, d, (st_db (w_store w1)). split; [done|]. split; [done|].
    intros Hu. by destruct Hm as [_ []].
Qed.
End Body.

(** C28. An archive job claims the deployment before it judges it and judges it
    before it removes anything: whatever the job stops, removes or deletes is
    what the deployment it read names, after it moved that deployment to
    archiving from the status it had read and then found it unprotected.  And
    once it holds the claim it does not leave it behind: either the deployment is
    archived, or the job throws and its last call hands the claim back, which
    only a clash of keys can refuse. *)
Theorem archive_claims_before_it_removes job options w r w' :
  handleArchiveDeploymentJob job options w = (r, w') ->
  exists es, w_log w' = w_log w ++ es /\
    (forall past e future, es = past ++ e :: future -> archive_call job options past e) /\
    ((exists dep, claim_held job dep es) -> archive_settled job r es).
Proof.
  set (pid := JobView.projectId job). set (did := default "" (payload_string job "deploymentId")).
  pose proof (call_later job options) as Hlater. intros Hrun.
  assert (Hends : ends (archive_call job options) [] w (handleArchiveDeploymentJob job options) (fun r K _ =>
    (exists dep, claim_held job dep K) -> archive_settled job r K)).
  2: { destruct (ends_run _ _ _ _ _ _ _ Hends Hrun) as (K & (es & Hlog & -> & Hes) & Hq). by exists es. }
  unfold handleArchiveDeploymentJob. fold did.
  apply ends_bind, (ends_read _ Hlater); [done|]. intros d0 w1 _. cbn [app].
  assert (Hshort : forall r, (exists dep, claim_held job dep [reads "getDeployment" d0]) -> archive_settled job r [reads "getDeployment" d0]).
  { intros r0 (dep & p0 & p1 & p2 & e0 & e1 & e1' & Heq & _). apply (f_equal length) in Heq.
    rewrite length_app in Heq. simpl in Heq. rewrite length_app in Heq. simpl in Heq. lia. }
  apply ends_bind, ends_some_or; [|by intros; apply Hshort]. intros dep Hrow.
  apply ends_bind, ends_throw_if; [by intros; apply Hshort|]. intros Hp%negb_false_iff%bool_decide_eq_true.
  case_bool_decide; [by apply ends_ret, Hshort|].
  destruct (bool_decide (_ ∈ _)).
  - apply archive_deployment_ends; [by exists d0|done].
  - destruct (payload_true job "automatic"); [apply ends_ret|apply ends_throw]; apply Hshort.
Qed.
End ArchivingRuns.

(** ** A project with more deployments than it keeps *)

Definition sample_job_host : JobHost := {|
  process_diagnostics := fun _ => None;
  remove_files := fun _ _ => Ok tt;
  active_workflow_runs := fun _ _ => Ok [];
  drop_workflow_world := fun _ _ => Ok tt;
  drop_workflow_tenant := fun _ _ => Ok tt;
  resolve_path := fun path => path;
  real_path := fun path _ => Some path
|}.

Definition sample_job_options : job_options :=
  mk_job_options (Some (willing_adapter "docker")) (fun kind => Ok (willing_adapter kind)) None 1000 "/data" 3
    (mk_idle_policy None None) None.

Definition newer (did : string) : Deployment.deployment_row :=
  Deployment.mk did did "p" "rel_1" "c" 3000 4000 DeploymentStatus.stopped "docker" 1 1.

Definition crowded_world : world :=
  mk_world (sample_store (empty_database
    <| projects := {[ "p" := sample_project "p" ]}%string |>
    <| deployments := {[ "dep_1" := sample_deployment "p" "dep_1" DeploymentStatus.running;
                         "dep_2" := newer "dep_2"; "dep_3" := newer "dep_3"; "dep_4" := newer "dep_4" ]}%string |>)) [].

Definition archive_job : job_view :=
  JobView.mk "job_1" "p" "archive_deployment" "running" (JObj [("deploymentId", JStr "dep_1")]) 1 None 0 0.

Definition archive_run : result unit * world :=
  @handleArchiveDeploymentJob sample_platform still_host sample_job_host archive_job sample_job_options crowded_world.

Lemma archive_claims_before_it_removes_witness :
  archive_run.1 = Ok tt /\
  exists past future, w_log archive_run.2 = past ++ Host (RemoveFiles "/data/builds/p/rel_1" (Ok tt)) :: future /\
    @archive_call sample_platform archive_job sample_job_options past
      (Host (RemoveFiles "/data/builds/p/rel_1" (Ok tt))).
Proof.
  split; [vm_compute; reflexivity|].
  destruct (@archive_claims_before_it_removes sample_platform still_host sample_job_host archive_job
    sample_job_options crowded_world archive_run.1 archive_run.2 (surjective_pairing archive_run))
    as (es & Hlog & Hall & _).
  assert (Hsixth : es !! 6 = Some (Host (RemoveFiles "/data/builds/p/rel_1" (Ok tt)))).
  { change (w_log crowded_world ++ es) with es in Hlog. rewrite <- Hlog. vm_compute. reflexivity. }
  pose proof (eq_sym (take_drop_middle _ _ _ Hsixth)) as Heq.
  exists (take 6 es), (drop 7 es). split; [rewrite Hlog; exact Heq|]. exact (Hall _ _ _ Heq).
Defined.

(** ** Deletion of a project *)

Section Deleting.
Context `{Platform} `{WorkerHost} `{LaunchHost} `{JobHost}.
Context (job : job_view) (options : job_options).
Let pid : string := JobView.projectId job.
Let root : string := resolve_path (jo_dataDir options).

(** The deployments of the project as the job has listed them. *)
Definition listed (past : list work_event) (ds : list Deployment.deployment_row) : Prop :=
  exists d, reads "listDeployments" d ∈ past /\ ds = project_deployments pid true d.

(** A source of the project: of a revision it has been seen to have, or named by
    the job. *)
Definition project_source (past : list work_event) (sourcePath : string) : Prop :=
  sourcePath ∈ payload_strings job "sourcePaths" \/
  exists d k revision, reads "listSourceRevisions" d ∈ past /\ sourceRevisions d !! k = Some revision /\
    SourceRevision.projectId revision = pid /\ SourceRevision.sourcePath revision = sourcePath.

(** What a source of the project occupies below a directory of sources, by its
    name and by its real path: the source itself, or the directory that was made
    for its upload. *)
Definition owned_path (past : list work_event) (path : string) : Prop :=
  exists sourcePath allowed real realRoot, project_source past sourcePath /\
    allowed ∈ [path_join [root; "sources"]; path_join [root; "uploads"]] /\
    isStrictlyWithin (resolve_path sourcePath) allowed = true /\
    path = owned_candidate root (resolve_path sourcePath) allowed /\
    isStrictlyWithin path allowed = true /\
    Host (RealPath path (Some real)) ∈ past /\ Host (RealPath allowed (Some realRoot)) ∈ past /\
    isStrictlyWithin real realRoot = true.

Definition stopped_in (past : list work_event) (dep : Deployment.deployment_row) : Prop :=
  exists kind, Host (StopProcess kind (Deployment.containerName dep) (Ok tt)) ∈ past.

(** What the job may take away, and when it may forget the project. *)
Definition deletion_call (past : list work_event) (e : work_event) : Prop :=
  match e with
  | Host (StartProcess _ _ _) => False
  | Host (StopProcess _ name _) =>
      exists ds dep, listed past ds /\ dep ∈ ds /\ live_deployment dep = true /\
        name = Deployment.containerName dep
  | Host (RemoveRelease _ ref _) =>
      exists ds dep d release, listed past ds /\ dep ∈ ds /\ reads "getRelease" d ∈ past /\
        releases d !! Deployment.releaseId dep = Some release /\ ref = Release.imageTag release
  | Host (RemoveFiles path _) =>
      exists ds, listed past ds /\
        (path ∈ managed_paths root pid (Deployment.containerName <$> ds) \/ owned_path past path)
  | Stored (StoreCall name) _ _ => name = "deleteProject" ->
      exists ds, listed past ds /\
        (forall dep, dep ∈ ds -> live_deployment dep = true -> stopped_in past dep) /\
        (forall path, path ∈ managed_paths root pid (Deployment.containerName <$> ds) ->
           Host (RemoveFiles path (Ok tt)) ∈ past)
  | _ => True
  end.

Lemma deployments_listed_more past later ds : listed past ds -> listed (past ++ later) ds.
Proof. intros (d & Hd & ->). exists d. split; [set_solver|done]. Qed.

Lemma project_source_more past later sourcePath :
  project_source past sourcePath -> project_source (past ++ later) sourcePath.
Proof.
  intros [Hp|(d & k & revision & Hd & Hrest)]; [by left|right]. exists d, k, revision. set_solver.
Qed.

Lemma owned_path_more past later path : owned_path past path -> owned_path (past ++ later) path.
Proof.
  intros (sourcePath & allowed & real & realRoot & Hs & Ha & Hw & Hp & Hp' & Hr & Hr' & Hreal).
  exists sourcePath, allowed, real, realRoot. split; [by apply project_source_more|].
  do 4 (split; [done|]). set_solver.
Qed.

Lemma stopped_more past later dep : stopped_in past dep -> stopped_in (past ++ later) dep.
Proof. intros (kind & Hk). exists kind. set_solver. Qed.

Lemma deletion_later past later e : deletion_call past e -> deletion_call (past ++ later) e.
Proof.
  destruct e as [[]|[]|]; simpl; try done.
  - intros (ds & dep & Hl & Hrest). exists ds, dep. split; [by apply deployments_listed_more|done].
  - intros (ds & dep & d & release & Hl & Hdep & Hr & Hrest). exists ds, dep, d, release.
    split; [by apply deployments_listed_more|]. set_solver.
  - intros (ds & Hl & [Hp|Hp]); exists ds; (split; [by apply deployments_listed_more|]); [by left|right].
    by apply owned_path_more.
  - intros Hcall Hname. destruct (Hcall Hname) as (ds & Hl & Hs & Hp). exists ds.
    split; [by apply deployments_listed_more|]. split; [|set_solver]. intros dep Hdep Hlive. by apply stopped_more, Hs.
Qed.

Abbreviation call := deletion_call.

(** *** The files *)

Lemma truthy_some s t : truthy s = Some t -> s = Some t.
Proof. by destruct s as [[]|]. Qed.

Lemma owned_candidate_within candidate allowed :
  isStrictlyWithin candidate allowed = true ->
  isStrictlyWithin (owned_candidate root candidate allowed) allowed = true.
Proof.
  intros Hc. unfold owned_candidate. destruct (_ && _) eqn:Hzip; [|done].
  apply andb_true_iff in Hzip as [_ Hzip]. set (segment := first_segment _) in *.
  unfold isStrictlyWithin, path_join. apply andb_true_iff. change (String.concat "/" [allowed; segment])%string
    with (allowed +:+ "/" +:+ segment). split.
  - rewrite <- string_app_assoc. apply prefix_app.
  - apply negb_true_iff, bool_decide_eq_false. intros Heq. apply (inj (String.append allowed)) in Heq.
    injection Heq as Heq. change (segment = "")%string in Heq. by rewrite Heq in Hzip.
Qed.

Lemma owned_source_ends owned sourcePath K w (Q : result (list string) -> list work_event -> world -> Prop) :
  project_source K sourcePath ->
  (forall e K' w', Q (Err e) K' w') ->
  (forall es owned' w', (forall p, p ∈ owned' -> p ∈ owned \/ owned_path (K ++ es) p) ->
     (forall p, p ∈ owned -> p ∈ owned') -> Q (Ok owned') (K ++ es) w') ->
  ends call K w (owned_source root owned sourcePath) Q.
Proof.
  intros Hsource Herr Hok. unfold owned_source. destruct (List.find _ _) as [allowed|] eqn:Hfind.
  2: { apply ends_ret. rewrite <- (app_nil_r K). apply Hok; auto. }
  apply find_some in Hfind as [Hin%list_elem_of_In Hwithin]. set (path := owned_candidate root _ allowed).
  apply ends_bind, (ends_hosted _ deletion_later); [done|]. intros [candidate|e] w1; [|apply Herr].
  apply ends_bind, (ends_hosted _ deletion_later); [done|]. intros [realRoot|e] w2; [|apply Herr].
  rewrite <- app_assoc. destruct (truthy candidate) as [real|] eqn:Hreal; [|apply ends_ret, Hok; auto].
  destruct (truthy realRoot) as [rroot|] eqn:Hroot; [|apply ends_ret, Hok; auto].
  apply truthy_some in Hreal as ->. apply truthy_some in Hroot as ->. apply ends_ret, Hok;
    destruct (isStrictlyWithin real rroot) eqn:Hr; auto; intros p; rewrite elem_of_app; [|auto].
  intros [Hp| ->%list_elem_of_singleton]; [by left|right].
  exists sourcePath, allowed, real, rroot. split; [by apply project_source_more|]. do 3 (split; [done|]).
  split; [by apply owned_candidate_within|]. set_solver.
Qed.

(** Each removal is started; when none has failed, each succeeded. *)
Lemma removals_end ps failed K w :
  (forall p, p ∈ ps -> forall r, call K (Host (RemoveFiles p r))) ->
  ends call K w (fold_m (fun failed path =>
      try_catch (rm path ;; ret failed) (fun e => ret (or_else failed (Some e)))) ps failed)
    (fun r K' _ => exists es, K' = K ++ es /\
       forall p, r = Ok None -> failed = None /\ (p ∈ ps -> Host (RemoveFiles p (Ok tt)) ∈ K')).
Proof.
  revert K w failed. induction ps as [|p ps IH]; intros K w failed Hcall; simpl.
  { apply ends_ret. exists []. rewrite app_nil_r. split; [done|]. intros p [= ->]. split; [done|].
    intros Hp. by apply not_elem_of_nil in Hp. }
  apply ends_bind, ends_catch, ends_bind, (ends_hosted _ deletion_later); [intros r; apply Hcall; by left|].
  assert (Hrest : forall e, forall p', p' ∈ ps -> forall r, call (K ++ [e]) (Host (RemoveFiles p' r))).
  { intros e p' Hp' r. apply deletion_later, Hcall. by right. }
  intros [[]|e] w1; apply ends_ret; (eapply ends_weaken; [|apply IH, Hrest]); intros r K' w' (es & -> & Hall);
    rewrite <- app_assoc in *; (eexists; split; [reflexivity|]); intros q Hr;
    destruct (Hall q Hr) as [Hf Hq].
  - split; [done|]. rewrite elem_of_cons. intros [->|Hin]; [set_solver|auto].
  - by destruct failed.
Qed.

Lemma rm_all_ends ps K w (Q : result unit -> list work_event -> world -> Prop) :
  (forall p, p ∈ ps -> forall r, call K (Host (RemoveFiles p r))) ->
  (forall e K' w', Q (Err e) K' w') ->
  (forall es w', (forall p, p ∈ ps -> Host (RemoveFiles p (Ok tt)) ∈ K ++ es) -> Q (Ok tt) (K ++ es) w') ->
  ends call K w (rm_all ps) Q.
Proof.
  intros Hcall Herr Hok. unfold rm_all. apply ends_bind.
  eapply ends_weaken; [|by apply removals_end].
  intros [[e|]|e] K' w' (es & -> & Hall); [apply ends_throw, Herr| |apply Herr].
  apply ends_ret, Hok. intros p. by apply Hall.
Qed.

(** What the files of the project are, from its list of deployments. *)
Lemma removeManagedProjectFiles_ends ds sourcePaths K w (Q : result unit -> list work_event -> world -> Prop) :
  let managed := managed_paths root pid (Deployment.containerName <$> ds) in
  listed K ds -> (forall sourcePath, sourcePath ∈ sourcePaths -> project_source K sourcePath) ->
  (forall e K' w', Q (Err e) K' w') ->
  (forall es w', (forall p, p ∈ managed -> Host (RemoveFiles p (Ok tt)) ∈ K ++ es) -> Q (Ok tt) (K ++ es) w') ->
  ends call K w (removeManagedProjectFiles pid root sourcePaths (Deployment.containerName <$> ds)) Q.
Proof.
  intros managed Hl Hsources Herr Hok. unfold removeManagedProjectFiles. fold managed. apply ends_bind.
  apply (ends_fold _ (fun owned K' _ => exists es, K' = K ++ es /\
    (forall p, p ∈ owned -> p ∈ managed \/ owned_path K' p) /\ (forall p, p ∈ managed -> p ∈ owned))).
  - exists []. rewrite app_nil_r. auto.
  - intros sourcePath owned K1 w1 Hin (es & -> & Hown & Hman).
    apply owned_source_ends; [by apply project_source_more, Hsources|done|].
    intros es' owned' w' Hown' Hkept. rewrite <- app_assoc. eexists. split; [reflexivity|]. split; [|auto].
    rewrite app_assoc. intros p [Hp|Hp]%Hown'; [|by right].
    destruct (Hown p Hp) as [?|?]; [by left|right]. by apply owned_path_more.
  - intros owned K1 w1 (es & -> & Hown & Hman). apply rm_all_ends; [|done|].
    + intros p Hp r. rewrite distinct_values_in in Hp. exists ds. split; [by apply deployments_listed_more|].
      exact (Hown p Hp).
    + intros es' w' Hall. rewrite <- app_assoc in *. apply Hok. intros p Hp. apply Hall. rewrite distinct_values_in. auto.
Qed.
(** *** The processes and the releases *)

Definition all_stopped (ds : list Deployment.deployment_row) (past : list work_event) : Prop :=
  forall dep, dep ∈ ds -> live_deployment dep = true -> stopped_in past dep.

Lemma all_stopped_more ds past later : all_stopped ds past -> all_stopped ds (past ++ later).
Proof. intros Hall dep Hdep Hlive. by apply stopped_more, Hall. Qed.

Lemma stop_live_ends ds K w (Q : result unit -> list work_event -> world -> Prop) :
  listed K ds ->
  (forall e K' w', Q (Err e) K' w') ->
  (forall K' w', listed K' ds -> all_stopped ds K' -> Q (Ok tt) K' w') ->
  ends call K w (stop_live options pid (base.filter live_deployment ds)) Q.
Proof.
  intros Hl Herr Hok. unfold stop_live.
  assert (Hlive : forall dep, dep ∈ base.filter live_deployment ds <-> live_deployment dep = true /\ dep ∈ ds).
  { intros dep. rewrite list_elem_of_filter. by rewrite Is_true_true. }
  destruct (base.filter live_deployment ds) as [|dep0 live] eqn:Hds.
  { apply ends_ret, Hok; [done|]. intros dep Hdep Hl'. exfalso. apply (not_elem_of_nil dep), Hlive. auto. }
  unfold job_log. apply ends_bind, ends_bind, (ends_op _ deletion_later); [by intros|].
  intros s [row|e] w1 _; [|apply Herr]. apply ends_ret.
  apply (ends_for call (fun dep past => stopped_in past dep) _ _ (fun dep past later => stopped_more past later dep) _
           (fun past => listed past ds)).
  - by apply deployments_listed_more.
  - intros dep K1 w2 Hdep Hl1. unfold stop_deployment. apply ends_bind, ends_lift.
    destruct (owning_adapter _ _) as [adapter|e]; [|apply Herr]. apply Hlive in Hdep as [Hdl Hdep].
    apply (ends_hosted _ deletion_later).
    + intros r. exists ds, dep. auto.
    + intros [[]|e] w3; [|apply Herr]. split; [by apply deployments_listed_more|]. exists (ra_name adapter). set_solver.
  - intros K1 w2 Hl1 Hall. apply Hok; [done|]. intros dep Hdep Hl'. apply Hall, Hlive. auto.
Qed.

Lemma releases_end ds K w (Q : result (list string) -> list work_event -> world -> Prop) :
  listed K ds -> all_stopped ds K ->
  (forall e K' w', Q (Err e) K' w') ->
  (forall removed K' w', listed K' ds -> all_stopped ds K' -> Q (Ok removed) K' w') ->
  ends call K w (fold_m (remove_deployment_release options) ds []) Q.
Proof.
  intros Hl Hs Herr Hok. apply (ends_fold _ (fun _ K' _ => listed K' ds /\ all_stopped ds K')); [done| |naive_solver].
  intros dep removed K1 w1 Hdep Hb. unfold remove_deployment_release. case_bool_decide; [by apply ends_ret|].
  assert (Hmore : forall past later, listed past ds /\ all_stopped ds past ->
    listed (past ++ later) ds /\ all_stopped ds (past ++ later)).
  { intros past later []. split; [by apply deployments_listed_more|by apply all_stopped_more]. }
  apply ends_bind, (ends_read _ deletion_later); [done|]. intros d w2 _. apply (Hmore _ [reads "getRelease" d]) in Hb.
  apply ends_bind, ends_lift. destruct (owning_adapter _ _) as [adapter|e]; [|apply Herr]. apply ends_bind.
  apply (ends_only _ deletion_later).
  - unfold remove_release. destruct (releases d !! _) as [release|] eqn:Hrel; [|by intros w'].
    destruct (ra_removeRelease adapter) as [remove|]; [|by intros w']. apply logs_hosted. intros r.
    exists ds, dep, d, release. split; [apply Hb|]. set_solver.
  - intros [[]|e] es w3; [|apply Herr]. by apply ends_ret, Hmore.
Qed.

Lemma delete_artifacts_end ds K w (Q : result unit -> list work_event -> world -> Prop) :
  listed K ds ->
  (forall e K' w', Q (Err e) K' w') ->
  (forall K' w', listed K' ds -> all_stopped ds K' ->
     (forall path, path ∈ managed_paths root pid (Deployment.containerName <$> ds) ->
        Host (RemoveFiles path (Ok tt)) ∈ K') -> Q (Ok tt) K' w') ->
  ends call K w (delete_artifacts job options ds) Q.
Proof.
  intros Hl Herr Hok. unfold delete_artifacts. fold pid root.
  apply ends_bind, stop_live_ends; [done|done|]. intros K1 w1 Hl1 Hs1.
  apply ends_bind, (releases_end ds); [done..|]. intros _ K2 w2 Hl2 Hs2.
  set (B past := listed past ds /\ all_stopped ds past).
  assert (Hmore : forall past later, B past -> B (past ++ later)).
  { intros past later []. split; [by apply deployments_listed_more|by apply all_stopped_more]. }
  assert (Hend : forall K3 w3, B K3 -> ends call K3 w3
    (revisions <- op "listSourceRevisions" (listSourceRevisions pid) ;;
     removeManagedProjectFiles pid root
       ((SourceRevision.sourcePath <$> revisions) ++ payload_strings job "sourcePaths")
       (Deployment.containerName <$> ds)) Q).
  { intros K3 w3 Hb3. apply ends_bind, (ends_read _ deletion_later); [done|].
    intros d w4 _. apply removeManagedProjectFiles_ends; [by apply Hmore| |done|].
    { intros sourcePath [Hin|Hin]%elem_of_app; [right|by left].
      apply list_elem_of_fmap in Hin as (revision & -> & (Hp & k & Hk)%elem_of_select).
      exists d, k, revision. apply bool_decide_eq_true in Hp. set_solver. }
    intros es w5 Hall. eapply Hmore, Hmore in Hb3 as []. by apply Hok. }
  apply ends_bind, (ends_hosted _ deletion_later); [done|]. intros [[]|e] w3; [|apply Herr].
  apply ends_bind. destruct (jo_workflowWorldUrl options); [|by apply ends_ret, Hend, Hmore].
  apply (ends_hosted _ deletion_later); [done|]. intros [[]|e] w4; [|apply Herr]. by apply Hend, Hmore, Hmore.
Qed.

End Deleting.

(** C29. Whatever a job that deletes a project stops or removes is the project's: a
    process of a deployment it has listed as live, the release of a listed
    deployment, a directory the platform keeps for the project, or what a source
    path of the project's own revisions, as read before, or of the job's payload
    occupies below a directory of sources, by its name and by its real path.  The
    rows go last: only after each of those processes has stopped and each of those
    directories is gone. *)
Theorem project_forgotten_after_its_artifacts `{Platform} `{WorkerHost} `{JobHost} job options w r w' :
  handleDeleteProjectJob job options w = (r, w') ->
  exists es, w_log w' = w_log w ++ es /\
    forall past e future, es = past ++ e :: future -> deletion_call job options past e.
Proof.
  set (pid := JobView.projectId job). pose proof (deletion_later job options) as Hlater. intros Hrun.
  assert (Hends : ends (deletion_call job options) [] w (handleDeleteProjectJob job options) (fun _ _ _ => True)).
  2: { destruct (ends_run _ _ _ _ _ _ _ Hends Hrun) as (K & (es & Hlog & -> & Hes) & Hq). by exists es. }
  unfold handleDeleteProjectJob. fold pid. apply ends_bind, (ends_op _ Hlater); [by intros|].
  intros s [[project|]|e] w1 _; [|by apply ends_ret|done].
  apply ends_bind, (ends_read _ Hlater); [by intros|]. intros d w2 _. set (ds := project_deployments pid true d).
  apply ends_bind, (delete_artifacts_end _ _ ds).
  - exists d. split; [set_solver|done].
  - done.
  - intros K' w3 Hl Hs Hp. apply ends_bind, (ends_op _ Hlater).
    + intros d1 d1' _. by exists ds.
    + intros s1 [deleted|e] w4 _; [|done]. by apply ends_ret.
Qed.

Definition delete_job : job_view :=
  JobView.mk "job_2" "p" "delete_project" "running" (JObj []) 1 None 0 0.

Definition delete_run : result unit * world :=
  @handleDeleteProjectJob sample_platform still_host sample_job_host delete_job sample_job_options sample_world.

Lemma project_forgotten_after_its_artifacts_witness :
  delete_run.1 = Ok tt /\
  exists past d d', w_log delete_run.2 = past ++ [Stored (StoreCall "deleteProject") d d'] /\
    @deletion_call sample_platform sample_job_host delete_job sample_job_options past (Stored (StoreCall "deleteProject") d d').
Proof.
  split; [vm_compute; reflexivity|].
  destruct (@project_forgotten_after_its_artifacts sample_platform still_host sample_job_host delete_job
    sample_job_options sample_world delete_run.1 delete_run.2 (surjective_pairing delete_run)) as (es & Hlog & Hall).
  change (w_log sample_world ++ es) with es in Hlog.
  assert (Hlast : match last es with Some (Stored (StoreCall "deleteProject") d d') => True | _ => False end).
  { rewrite <- Hlog. vm_compute. exact I. }
  destruct (last es) as [[|c d d'|]|] eqn:Hes; try contradiction. destruct c as [| | | | | | | | | | | |name]; try contradiction.
  apply last_Some in Hes as (past & Hes).
  assert (name = "deleteProject") as -> by (repeat (destruct name as [|[[] [] [] [] [] [] [] []] name]; try contradiction); reflexivity).
  exists past, d, d'. split; [rewrite Hlog; exact Hes|]. exact (Hall past _ [] Hes).
Defined.
