(* ===== verification/DispatchCredential.v ===== *)
(** * Dispatch credentials

    The credential a schedule's run is dispatched with
    ([packages/core/src/server/scheduler-dispatch.ts]): its payload as JSON in
    base64url, and the HMAC of that text.  The runtime hands it back to the API,
    which redeems the run.  Text is UTF-8 bytes, so the length of a string is its
    byte length. *)

From S2P Require Import Prelude Strings Encoding Schema GatewayText.

Open Scope eve_scope.
Open Scope string_scope.

(** [toISOString] and [new Date(text).getTime()], [None] for [NaN]. *)
Class Dates := {
  iso_string : time -> string;
  date_value : string -> option time
}.

(** [ScheduleDispatchCredential] *)
Record dispatch_credential : Type := mk_credential {
  dc_scheduleRunId : string; dc_deploymentId : string; dc_scheduleKey : string; dc_expiresAt : string
}.

(** [JSON.stringify(payload)] *)
Definition dispatch_json (p : dispatch_credential) : string :=
  "{" +:+ json_quote "scheduleRunId" +:+ ":" +:+ json_quote (dc_scheduleRunId p)
  +:+ "," +:+ json_quote "deploymentId" +:+ ":" +:+ json_quote (dc_deploymentId p)
  +:+ "," +:+ json_quote "scheduleKey" +:+ ":" +:+ json_quote (dc_scheduleKey p)
  +:+ "," +:+ json_quote "expiresAt" +:+ ":" +:+ json_quote (dc_expiresAt p) +:+ "}".

(** The object that text spells. *)
Definition dispatch_object (p : dispatch_credential) : json :=
  JObj [("scheduleRunId", JStr (dc_scheduleRunId p)); ("deploymentId", JStr (dc_deploymentId p));
        ("scheduleKey", JStr (dc_scheduleKey p)); ("expiresAt", JStr (dc_expiresAt p))].

Definition secret_too_short : error :=
  Error "EVELAND_SCHEDULER_DISPATCH_SECRET must be at least 32 bytes.".
Definition invalid_payload : error := Error "Invalid schedule dispatch credential payload.".

Definition assertDispatchSecret (secret : string) : result unit :=
  if (String.length secret <? 32)%nat then Err secret_too_short else Ok tt.

Section DispatchCredential.
Context `{NodePlatform} `{Dates}.

(** [assertPayload], which narrows the value to a credential. *)
Definition assertPayload (value : json) : option dispatch_credential :=
  scheduleRunId ← json_string (json_get "scheduleRunId" value);
  deploymentId ← json_string (json_get "deploymentId" value);
  scheduleKey ← json_string (json_get "scheduleKey" value);
  expiresAt ← json_string (json_get "expiresAt" value);
  _ ← date_value expiresAt;
  Some (mk_credential scheduleRunId deploymentId scheduleKey expiresAt).

Definition sign (encoded secret : string) : string := base64url (hmac_sha256 secret encoded).

Definition createScheduleDispatchCredential (payload : dispatch_credential) (secret : string)
    : result string :=
  match assertDispatchSecret secret with
  | Err e => Err e
  | Ok _ =>
      match assertPayload (dispatch_object payload) with
      | None => Err invalid_payload
      | Some _ =>
          let encoded := base64url (dispatch_json payload) in
          Ok (encoded +:+ "." +:+ sign encoded secret)
      end
  end.

(** The two groups of the expression that a credential matches. *)
Definition token_text (s : string) : bool := bool_decide (s <> "") && all_chars base64_char s.

Definition credential_parts (credential : string) : option (string * string) :=
  match split_at (chr 46) credential with
  | [encoded; signature] =>
      if token_text encoded && token_text signature then Some (encoded, signature) else None
  | _ => None
  end.

Definition read_credential (encoded : string) (now : time) (allowExpired : bool)
    : option dispatch_credential :=
  value ← json_parse (from_base64url encoded);
  payload ← assertPayload value;
  expiresAt ← date_value (dc_expiresAt payload);
  if allowExpired || (now <? expiresAt)%Z then Some payload else None.

Definition verifyScheduleDispatchCredential (credential secret : string) (now : time)
    (allowExpired : bool) : result (option dispatch_credential) :=
  match assertDispatchSecret secret with
  | Err e => Err e
  | Ok _ =>
      match credential_parts credential with
      | None => Ok None
      | Some (encoded, suppliedSignature) =>
          if bool_decide (from_base64url suppliedSignature = from_base64url (sign encoded secret))
          then Ok (read_credential encoded now allowExpired)
          else Ok None
      end
  end.

(** ** What a credential proves *)

Lemma split_at_plain sep s t :
  forallb (fun c => negb (bool_decide (c = sep))) (String.list_ascii_of_string s) = true ->
  split_at sep (s +:+ String sep t) = s :: split_at sep t.
Proof.
  induction s as [|c s IH]; simpl; [by rewrite bool_decide_eq_true_2|].
  intros [Hc%negb_true_iff Hs]%andb_true_iff. by rewrite Hc, IH.
Qed.

Lemma split_at_whole sep s :
  forallb (fun c => negb (bool_decide (c = sep))) (String.list_ascii_of_string s) = true ->
  split_at sep s = [s].
Proof.
  induction s as [|c s IH]; simpl; [done|]. intros [Hc%negb_true_iff Hs]%andb_true_iff. by rewrite Hc, IH.
Qed.

Lemma token_undotted s :
  all_chars base64_char s = true ->
  forallb (fun c => negb (bool_decide (c = chr 46))) (String.list_ascii_of_string s) = true.
Proof.
  unfold all_chars. rewrite !forallb_forall. intros Hall c Hc. specialize (Hall c Hc).
  apply negb_true_iff, bool_decide_eq_false. by intros ->.
Qed.

Lemma credential_parts_of encoded signature :
  token_text encoded = true -> token_text signature = true ->
  credential_parts (encoded +:+ "." +:+ signature) = Some (encoded, signature).
Proof.
  intros He Hs. pose proof He as [_ Hec%token_undotted]%andb_true_iff.
  pose proof Hs as [_ Hsc%token_undotted]%andb_true_iff.
  unfold credential_parts. change ("." +:+ signature) with (String (chr 46) signature).
  by rewrite split_at_plain, split_at_whole, He, Hs.
Qed.

Lemma base64url_nonempty s : s <> "" -> base64url s <> "".
Proof. destruct s as [|a [|b [|c s]]]; simpl; done. Qed.

Lemma token_base64url s : s <> "" -> token_text (base64url s) = true.
Proof.
  intros Hs. apply andb_true_iff. split; [|apply base64url_chars].
  by apply bool_decide_eq_true, base64url_nonempty.
Qed.

(** C30. A credential is accepted until it expires and proves who made it. The text
    made for a payload with a secret of 32 bytes is read back, with that secret,
    as that payload as long as it has not expired, and as nothing afterwards
    unless expiry is waived. Whatever text is accepted carries the HMAC, under
    the secret, of the very text its payload is read from. *)
Theorem credential_roundtrip secret payload expiresAt now allowExpired :
  (forall text, hmac_sha256 secret text <> "") ->
  json_parse (dispatch_json payload) = Some (dispatch_object payload) ->
  date_value (dc_expiresAt payload) = Some expiresAt ->
  32 <= String.length secret ->
  (exists credential, createScheduleDispatchCredential payload secret = Ok credential /\
     verifyScheduleDispatchCredential credential secret now allowExpired
     = Ok (if allowExpired || (now <? expiresAt)%Z then Some payload else None)) /\
  (forall credential p, verifyScheduleDispatchCredential credential secret now allowExpired = Ok (Some p) ->
     exists encoded signature, credential_parts credential = Some (encoded, signature) /\
       from_base64url signature = hmac_sha256 secret encoded /\
       (json_parse (from_base64url encoded) ≫= assertPayload) = Some p).
Proof.
  intros Hmac Hjson Hdate Hlen. unfold createScheduleDispatchCredential, verifyScheduleDispatchCredential.
  assert (assertDispatchSecret secret = Ok tt) as -> by (unfold assertDispatchSecret; by apply Nat.ltb_ge in Hlen as ->).
  assert (Hpayload : assertPayload (dispatch_object payload) = Some payload)
    by (unfold assertPayload; simpl; rewrite Hdate; by destruct payload).
  rewrite Hpayload. split.
  - eexists. split; [reflexivity|]. rewrite credential_parts_of, bool_decide_eq_true_2;
      [|done|by apply token_base64url|by apply token_base64url].
    unfold read_credential. rewrite from_base64url_encode, Hjson. simpl. rewrite Hpayload. simpl. by rewrite Hdate.
  - intros credential p Hv. destruct (credential_parts credential) as [[encoded signature]|]; [|done].
    case_bool_decide as Hsig; [|done]. exists encoded, signature. split; [done|].
    unfold sign in Hsig. rewrite from_base64url_encode in Hsig. split; [done|].
    injection Hv as Hv. unfold read_credential in Hv.
    destruct (json_parse (from_base64url encoded)) as [value|]; [|done]. simpl in *.
    destruct (assertPayload value) as [q|]; [|done]. simpl in *. destruct (date_value (dc_expiresAt q)); [|done]. simpl in Hv.
    by destruct (_ || _).
Qed.
End DispatchCredential.

(** ** A sample *)

Definition sample_credential : dispatch_credential :=
  mk_credential "run_1" "dep_1" "daily" "1970-01-01T00:02:00.000Z".

Definition sample_secret : string := "0123456789abcdef0123456789abcdef".

Definition sample_crypto : NodePlatform := {|
  hmac_sha256 secret data := "mac:" +:+ secret +:+ data;
  sha256 data := data;
  json_parse text := if bool_decide (text = dispatch_json sample_credential)
                     then Some (dispatch_object sample_credential) else None;
  js_number _ := js_zero;
  number_string _ := "0"
|}.

Definition sample_dates : Dates := {|
  iso_string _ := "1970-01-01T00:02:00.000Z";
  date_value text := if bool_decide (text = "1970-01-01T00:02:00.000Z") then Some 120000%Z else None
|}.

#[local] Existing Instance sample_crypto.
#[local] Existing Instance sample_dates.

Lemma credential_roundtrip_witness :
  exists credential, createScheduleDispatchCredential sample_credential sample_secret = Ok credential /\
    verifyScheduleDispatchCredential credential sample_secret 0 false = Ok (Some sample_credential) /\
    verifyScheduleDispatchCredential credential sample_secret 120000 false = Ok None.
Proof.
  assert (Hmac : forall text, hmac_sha256 sample_secret text <> "") by (intros text; discriminate).
  assert (Hlen : 32 <= String.length sample_secret) by (vm_compute; lia).
  destruct (credential_roundtrip sample_secret sample_credential 120000 0 false) as [(c & Hc & Hv) _];
    [exact Hmac|vm_compute; reflexivity|reflexivity|exact Hlen|].
  destruct (credential_roundtrip sample_secret sample_credential 120000 120000 false) as [(c' & Hc' & Hv') _];
    [exact Hmac|vm_compute; reflexivity|reflexivity|exact Hlen|].
  exists c. split; [exact Hc|]. split; [exact Hv|]. rewrite Hc in Hc'. injection Hc' as <-. exact Hv'.
Defined.
