(* ===== verification/ScheduleJob.v ===== *)
(** * The job of a schedule's run

    [apps/worker/src/jobs/runtime-jobs/trigger-schedule.ts] and
    [dispatchScheduleToRuntime] of [process-support.ts]: the run is claimed, its
    deployment activated under a lease, and the run handed to the deployment's
    Scheduler Channel.  What the [catch] and the [finally] read of the mutable
    variables is passed to them: the run, the lease, whether the lease was handed
    off, and the phase. *)

From stdpp Require Import pretty.
From S2P Require Import Prelude Strings Encoding Schema Store Tables Sample Jobs Runtime Sessions Schedules Deployments Sources GatewayText DispatchCredential Worker Traces Activation Reapers Launch RuntimeJobs JobRuns.

Open Scope eve_scope.
Open Scope string_scope.

(** ** The Scheduler Channel *)

(** [ScheduleDispatchInput] *)
Record dispatch_input : Type := mk_dispatch_input {
  di_scheduleRunId : string; di_scheduleKey : string; di_deploymentId : string; di_hostPort : Z;
  di_credential : string; di_runtimeSecret : string
}.

(** What a POST ends in: an answer with its status and its body, when that is
    JSON; a timeout; another failure. *)
Inductive channel_answer :=
  | Answered (status : Z) (body : option json)
  | TimedOut
  | Unreachable (e : error).

Class SchedulerChannel := {
  scheduler_post : dispatch_input -> list work_event -> channel_answer;
  EVELAND_SCHEDULER_DISPATCH_TIMEOUT_MS : Z
}.

Fixpoint all_strings (l : list json) : option (list string) :=
  match l with
  | [] => Some []
  | j :: l => s ← json_string (Some j); rest ← all_strings l; Some (s :: rest)
  end.

Definition dispatched_sessions (body : option json) : option (list string) :=
  body ← body;
  match json_get "sessionIds" body with Some (JArr l) => all_strings l | _ => None end.

Definition dispatchScheduleToRuntime `{SchedulerChannel} (input : dispatch_input)
    (log : list work_event) : result (list string) :=
  match scheduler_post input log with
  | TimedOut => Err (Error ("Scheduler Channel timed out after "
      +:+ pretty EVELAND_SCHEDULER_DISPATCH_TIMEOUT_MS +:+ "ms for ScheduleRun "
      +:+ di_scheduleRunId input +:+ " on Deployment " +:+ di_deploymentId input +:+ "."))
  | Unreachable e => Err e
  | Answered status body =>
      if (200 <=? status)%Z && (status <=? 299)%Z then
        match dispatched_sessions body with
        | Some sessionIds => Ok sessionIds
        | None => Err (Error "Scheduler Channel returned an invalid dispatch result.")
        end
      else Err (Error ("Scheduler Channel rejected dispatch with HTTP " +:+ pretty status +:+ "."))
  end.

(** ** What the job is given *)

(** The options of a schedule's job: the two secrets, with their fallbacks
    resolved, and the longest a run may take, as a number that is an integer. *)
Record schedule_options : Type := mk_schedule_options {
  so_job : job_options;
  so_dispatchSecret : option string;
  so_runtimeSecret : option string;
  so_maxRuntimeMs : Z
}.

Definition scheduleRunMaxRuntimeMs (options : schedule_options) : result Z :=
  let value := so_maxRuntimeMs options in
  if (9007199254740991 <? value)%Z || (value <=? 0)%Z
  then Err (Error "EVELAND_SCHEDULE_RUN_MAX_RUNTIME_MS must be a positive integer.")
  else Ok value.

Definition run_status_text (st : schedule_run_status) : string :=
  match st with
  | RunStatus.queued => "queued" | RunStatus.activating => "activating"
  | RunStatus.dispatching => "dispatching" | RunStatus.running => "running"
  | RunStatus.succeeded => "succeeded" | RunStatus.failed => "failed"
  | RunStatus.dispatch_unknown => "dispatch_unknown" | RunStatus.skipped => "skipped"
  end.

Abbreviation schedule_run := ScheduleRun.schedule_run_row.

Section ScheduleJob.
Context `{Platform} `{NodePlatform} `{Dates} `{WorkerHost} `{LaunchHost} `{JobHost} `{SchedulerChannel}.

(** [let run], [activationLeaseId], [activationLeaseHandedOff], [failurePhase] *)
Record trigger_vars : Type := mk_trigger_vars {
  tv_run : option schedule_run; tv_lease : option string; tv_handedOff : bool; tv_phase : string
}.

(** ** The calls of the store *)

Definition claim_run (scheduleRunId : string) : Work (option schedule_run) :=
  stored (fun r => ClaimRun scheduleRunId (match r with Ok (Some _) => true | _ => false end))
    (claimScheduleRunActivation scheduleRunId None None).

Definition renew_lease (leaseId : string) (expiresAt : time) : Work bool :=
  row <- stored (fun r => RenewLease leaseId (match r with Ok (Some _) => true | _ => false end))
           (renewActivationLease leaseId expiresAt None) ;;
  ret (bool_decide (row <> None)).

(** [store.releaseActivationLease(id)] *)
Definition give_back (leaseId : string) : Work unit :=
  _lease <- stored (fun _ => ReleaseLease leaseId) (releaseActivationLease leaseId None) ;;
  ret tt.

Definition complete_run (scheduleRunId : string) (input : complete_run_input)
    : Work (option schedule_run) :=
  op "completeScheduleRun" (completeScheduleRun scheduleRunId input).

(** ** The [catch] *)

Definition run_finished (st : schedule_run_status) : bool :=
  bool_decide (st ∈ [RunStatus.succeeded; RunStatus.failed; RunStatus.dispatch_unknown; RunStatus.skipped]).

(** The run's row after the failure: a run whose session was recorded keeps its
    lease; one that is not finished is completed.  Whether the lease was handed
    off by now, and whether the execution continues. *)
Definition settle_run (options : schedule_options) (vars : trigger_vars) (message : string)
    : Work (bool * bool) :=
  match tv_run vars with
  | None => ret (tv_handedOff vars, false)
  | Some run =>
      current <- op "getScheduleRun" (getScheduleRun (ScheduleRun.id run)) ;;
      match current, tv_lease vars with
      | None, _ => ret (tv_handedOff vars, false)
      | Some row, lease =>
          match bool_decide (ScheduleRun.status row = RunStatus.running), lease with
          | true, Some leaseId =>
              now <- date_now ;;
              maxRuntimeMs <- lift (scheduleRunMaxRuntimeMs options) ;;
              renewed <- renew_lease leaseId (now + maxRuntimeMs)%Z ;;
              ret (if renewed : bool then (true, true) else (tv_handedOff vars, false))
          | _, _ =>
              if run_finished (ScheduleRun.status row) then ret (tv_handedOff vars, false)
              else
                _done <- complete_run (ScheduleRun.id run) (mk_complete_run_input
                  (if bool_decide (ScheduleRun.status row = RunStatus.dispatching)
                   then RunOutcome.dispatch_unknown else RunOutcome.failed)
                  (Some message) None) ;;
                ret (tv_handedOff vars, false)
          end
      end
  end.

Definition failure_line (scheduleRunId phase rawMessage : string) (elapsedMs : Z) (continues : bool) : string :=
  if continues
  then "ScheduleRun " +:+ scheduleRunId
       +:+ " continued after its durable Session result was recorded but the Scheduler Channel response failed after "
       +:+ pretty elapsedMs +:+ "ms: " +:+ rawMessage
  else "ScheduleRun " +:+ scheduleRunId +:+ " failed during " +:+ phase +:+ " after "
       +:+ pretty elapsedMs +:+ "ms: " +:+ rawMessage.

(** Whether the lease was handed off, and what the clause itself ends in. *)
Definition trigger_failed (job : job_view) (options : schedule_options) (startedAtMs : time)
    (vars : trigger_vars) (e : error) : Work (bool * result unit) :=
  let rawMessage := error_text e in
  settled <- attempt (settle_run options vars (tv_phase vars +:+ " failed: " +:+ rawMessage)) ;;
  match settled with
  | Err e' => ret (tv_handedOff vars, Err e')
  | Ok (handedOff, continues) =>
      logged <- attempt (now <- date_now ;;
        job_log (JobView.projectId job) (ScheduleRun.deploymentId <$> tv_run vars) "runtime"
          (failure_line (default "" (payload_string job "scheduleRunId")) (tv_phase vars) rawMessage
             (now - startedAtMs)%Z continues)) ;;
      ret (handedOff, logged)
  end.

(** The [finally], and what the job ends in. *)
Definition finish_trigger (lease : option string) (ended : bool * result unit) : Work unit :=
  match lease with
  | Some leaseId => if ended.1 : bool then ret tt else give_back leaseId
  | None => ret tt
  end ;;
  lift ended.2.


(** The [try] up to a point, with the variables the clause would read there, and
    what follows. *)
Definition guarded {A} (job : job_view) (options : schedule_options) (startedAtMs : time)
    (vars : trigger_vars) (m : Work A) (k : A -> Work unit) : Work unit :=
  done <- attempt m ;;
  match done with
  | Ok a => k a
  | Err e =>
      ended <- trigger_failed job options startedAtMs vars e ;;
      finish_trigger (tv_lease vars) ended
  end.

(** ** Validation and claim *)

(** A duplicate job is ignored; otherwise the run is claimed with what it runs. *)
Inductive trigger_claim :=
  | Duplicate
  | Claimed (schedule : ProjectSchedule.project_schedule_row) (deployment : Deployment.deployment_row)
      (release : Release.release_row) (run : schedule_run).

(** Another job has the run, or it may not be activated. *)
Definition unclaimed_run (job : job_view) (run : schedule_run) : Work unit :=
  current <- op "getScheduleRun" (getScheduleRun (ScheduleRun.id run)) ;;
  match current with
  | Some current =>
      if negb (run_has RunStatus.queued current) then
        job_log (JobView.projectId job) (Some (ScheduleRun.deploymentId current)) "runtime"
          ("Duplicate ScheduleRun job ignored for " +:+ ScheduleRun.id current +:+ " in "
           +:+ run_status_text (ScheduleRun.status current) +:+ ".")
      else throw (Error "ScheduleRun is not eligible for activation.")
  | None => throw (Error "ScheduleRun is not eligible for activation.")
  end.

(** The run's provenance: its schedule, deployment and release are the project's and
    its own. *)
Definition check_run (job : job_view) (found : option schedule_run)
    : Work (schedule_run * ProjectSchedule.project_schedule_row * Deployment.deployment_row
            * Release.release_row) :=
  let pid := JobView.projectId job in
  run <- some_or found (Error "Schedule trigger is missing a valid ScheduleRun.") ;;
  schedule <- op "getProjectSchedule" (getProjectSchedule (ScheduleRun.scheduleId run)) ;;
  deployment <- op "getDeployment" (getDeployment (ScheduleRun.deploymentId run)) ;;
  release <- op "getRelease" (getRelease (ScheduleRun.releaseId run)) ;;
  schedule <- some_or schedule (Error "ScheduleRun does not belong to this project.") ;;
  throw_if (negb (bool_decide (ProjectSchedule.projectId schedule = pid)))
    (Error "ScheduleRun does not belong to this project.") ;;
  throw_if (negb (ProjectSchedule.enabled schedule)) (Error "Schedule is disabled.") ;;
  deployment <- some_or deployment (Error "ScheduleRun Deployment provenance is invalid.") ;;
  throw_if (negb (bool_decide (Deployment.projectId deployment = pid)
                  && bool_decide (Deployment.releaseId deployment = ScheduleRun.releaseId run)))
    (Error "ScheduleRun Deployment provenance is invalid.") ;;
  release <- some_or release (Error "ScheduleRun Release provenance is invalid.") ;;
  throw_if (negb (bool_decide (Release.id release = Deployment.releaseId deployment)))
    (Error "ScheduleRun Release provenance is invalid.") ;;
  versions <- op "listProjectScheduleVersions"
                (listProjectScheduleVersions pid (Release.sourceRevisionId release)) ;;
  throw_if (negb (existsb (fun entry =>
      bool_decide (ScheduleVersion.id entry.2 = ScheduleRun.scheduleVersionId run)
      && bool_decide (ProjectSchedule.id entry.1 = ProjectSchedule.id schedule)) versions))
    (Error "ScheduleRun version does not belong to its pinned Release.") ;;
  ret (run, schedule, deployment, release).

Definition validate_run (job : job_view) (found : option schedule_run) : Work trigger_claim :=
  checked <- check_run job found ;;
  let '(run, schedule, deployment, release) := checked in
  claimed <- claim_run (ScheduleRun.id run) ;;
  match claimed with
  | Some claimed => ret (Claimed schedule deployment release claimed)
  | None => unclaimed_run job run ;; ret Duplicate
  end.

(** ** Activation *)

Record trigger_launch : Type := mk_trigger_launch {
  tl_dispatchSecret : string; tl_runtimeSecret : string; tl_runtime : runtime_adapter;
  tl_prerequisites : launch_prerequisites; tl_maxRuntimeMs : Z
}.

Definition prepare_launch (job : job_view) (options : schedule_options)
    (deployment : Deployment.deployment_row) (release : Release.release_row) : Work trigger_launch :=
  match truthy (so_dispatchSecret options), truthy (so_runtimeSecret options) with
  | Some dispatchSecret, Some runtimeSecret =>
      found <- op "getSourceRevision" (getSourceRevision (Release.sourceRevisionId release)) ;;
      revision <- some_or found (Error "ScheduleRun Release has no SourceRevision.") ;;
      source <- resolveRecoverableRuntimeSource revision ;;
      runtime <- lift (job_adapter (so_job options) (Deployment.runtimeKind deployment)) ;;
      prerequisites <- resolveDeploymentLaunchPrerequisites (JobView.projectId job)
        (Deployment.id deployment) (ra_name runtime) (SourceRevision.sourcePath revision) source.1 source.2 ;;
      ensureDeploymentLaunchSandbox prerequisites ;;
      maxRuntimeMs <- lift (scheduleRunMaxRuntimeMs options) ;;
      ret (mk_trigger_launch dispatchSecret runtimeSecret runtime prerequisites maxRuntimeMs)
  | _, _ => throw (Error "Scheduler dispatch credentials are not configured.")
  end.

Definition activate_run (job : job_view) (options : schedule_options)
    (schedule : ProjectSchedule.project_schedule_row) (deployment : Deployment.deployment_row)
    (release : Release.release_row) (run : schedule_run) (launch : trigger_launch) : Work activation :=
  job_log (JobView.projectId job) (Some (Deployment.id deployment)) "runtime"
    ("ScheduleRun " +:+ ScheduleRun.id run +:+ " activating " +:+ ProjectSchedule.key schedule
     +:+ " on Deployment " +:+ Deployment.id deployment +:+ " (Release " +:+ Release.id release
     +:+ ", runtime=" +:+ Deployment.runtimeKind deployment +:+ ").") ;;
  launchContext <- materializeDeploymentLaunchContext (Release.id release) (tl_prerequisites launch)
                     (Some release) ;;
  ensureDeploymentActive
    (mk_activation_request deployment (tl_runtime launch)
       (createDeploymentStartInput (Deployment.containerName deployment) (Release.imageTag release)
          (Deployment.hostPort deployment) launchContext)
       LeaseKind.schedule_run (ScheduleRun.id run))
    (mk_activation_options (Some (tl_maxRuntimeMs launch)) (Some (jo_healthTimeoutMs (so_job options)))
       None None None (jo_waitForDeployment (so_job options))).

(** ** Dispatch *)

Definition mark_running (deployment : Deployment.deployment_row) : Work unit :=
  _row <- op "updateDeploymentStatus"
            (updateDeploymentStatus (Deployment.id deployment) DeploymentStatus.running) ;;
  ret tt.

(** The run as the channel's answer leaves it. *)
Definition reported_run (run : schedule_run) (sessionIds : list string) : Work (option schedule_run) :=
  reported <- op "getScheduleRun" (getScheduleRun (ScheduleRun.id run)) ;;
  match reported with
  | Some row =>
      if run_has RunStatus.dispatching row then
        complete_run (ScheduleRun.id run) (mk_complete_run_input RunOutcome.succeeded None (Some sessionIds))
      else if bool_decide (ScheduleRun.status row ∈ [RunStatus.running; RunStatus.succeeded; RunStatus.failed])
      then ret reported
      else throw (Error "Scheduler Channel returned without a durable dispatch result.")
  | None => throw (Error "Scheduler Channel returned without a durable dispatch result.")
  end.

(** A run that goes on keeps the lease: whether it does. *)
Definition hand_off (leaseId : string) (maxRuntimeMs : Z) (reported : option schedule_run) : Work bool :=
  if from_option (run_has RunStatus.running) false reported then
    now <- date_now ;;
    renewed <- renew_lease leaseId (now + maxRuntimeMs)%Z ;;
    throw_if (negb renewed) (Error "ScheduleRun activation lease could not be extended.") ;;
    ret true
  else ret false.

Definition dispatch_run (job : job_view) (schedule : ProjectSchedule.project_schedule_row)
    (deployment : Deployment.deployment_row) (run : schedule_run) (launch : trigger_launch)
    (leaseId : string) : Work (list string * bool) :=
  job_log (JobView.projectId job) (Some (Deployment.id deployment)) "runtime"
    ("ScheduleRun " +:+ ScheduleRun.id run +:+ " dispatching " +:+ ProjectSchedule.key schedule
     +:+ " to the Scheduler Channel on Deployment " +:+ Deployment.id deployment +:+ ".") ;;
  now <- date_now ;;
  credential <- lift (createScheduleDispatchCredential
    (mk_credential (ScheduleRun.id run) (Deployment.id deployment) (ProjectSchedule.key schedule)
       (iso_string (now + 120000)%Z)) (tl_dispatchSecret launch)) ;;
  sessionIds <- hosted (Dispatch (Deployment.hostPort deployment) (ScheduleRun.id run))
    (dispatchScheduleToRuntime (mk_dispatch_input (ScheduleRun.id run) (ProjectSchedule.key schedule)
       (Deployment.id deployment) (Deployment.hostPort deployment) credential (tl_runtimeSecret launch))) ;;
  reported <- reported_run run sessionIds ;;
  handedOff <- hand_off leaseId (tl_maxRuntimeMs launch) reported ;;
  ret (sessionIds, handedOff).

Definition success_line (run : schedule_run) (schedule : ProjectSchedule.project_schedule_row)
    (sessionIds : list string) (handedOff : bool) (elapsedMs : Z) : string :=
  "ScheduleRun " +:+ ScheduleRun.id run +:+ " " +:+ (if handedOff then "started" else "succeeded for")
  +:+ " " +:+ ProjectSchedule.key schedule +:+ " with " +:+ pretty (length sessionIds) +:+ " "
  +:+ (if (length sessionIds =? 1)%nat then "Session" else "Sessions") +:+ " after "
  +:+ pretty elapsedMs +:+ "ms.".

(** With the lease held: the status, the dispatch, the last line. *)
Definition with_lease (job : job_view) (options : schedule_options) (startedAtMs : time)
    (schedule : ProjectSchedule.project_schedule_row) (deployment : Deployment.deployment_row)
    (run : schedule_run) (launch : trigger_launch) (leaseId : string) : Work unit :=
  guarded job options startedAtMs (mk_trigger_vars (Some run) (Some leaseId) false "Deployment activation")
    (mark_running deployment) (fun _ =>
  guarded job options startedAtMs (mk_trigger_vars (Some run) (Some leaseId) false "Scheduler Channel dispatch")
    (dispatch_run job schedule deployment run launch leaseId) (fun dispatched =>
  guarded job options startedAtMs
    (mk_trigger_vars (Some run) (Some leaseId) dispatched.2 "Scheduler Channel dispatch")
    (now <- date_now ;;
     job_log (JobView.projectId job) (Some (Deployment.id deployment)) "runtime"
       (success_line run schedule dispatched.1 dispatched.2 (now - startedAtMs)%Z)) (fun _ =>
  finish_trigger (Some leaseId) (dispatched.2, Ok tt)))).

Definition run_claimed (job : job_view) (options : schedule_options) (startedAtMs : time)
    (schedule : ProjectSchedule.project_schedule_row) (deployment : Deployment.deployment_row)
    (release : Release.release_row) (run : schedule_run) : Work unit :=
  guarded job options startedAtMs (mk_trigger_vars (Some run) None false "ScheduleRun validation")
    (prepare_launch job options deployment release) (fun launch =>
  guarded job options startedAtMs (mk_trigger_vars (Some run) None false "Deployment activation")
    (activate_run job options schedule deployment release run launch) (fun activation =>
  with_lease job options startedAtMs schedule deployment run launch
    (ActivationLease.id (act_lease activation)))).

Definition handleTriggerScheduleJob (job : job_view) (options : schedule_options) : Work unit :=
  run <- op "getScheduleRun" (getScheduleRun (default "" (payload_string job "scheduleRunId"))) ;;
  startedAtMs <- date_now ;;
  guarded job options startedAtMs (mk_trigger_vars run None false "ScheduleRun validation")
    (validate_run job run) (fun claim =>
  match claim with
  | Duplicate => ret tt
  | Claimed schedule deployment release run =>
      run_claimed job options startedAtMs schedule deployment release run
  end).
End ScheduleJob.

(** ** What a run's job does, in its order *)

Open Scope list_scope.

(** The calls that matter: the claim that was won, with the id of the claimed row;
    a lease that was granted; the dispatch; a renewal, with whether it was
    granted; a release. *)
Inductive mark :=
  | ClaimWon (scheduleRunId : option string)
  | LeaseGranted (leaseId : string)
  | Dispatched (scheduleRunId : string)
  | LeaseRenewed (leaseId : string) (renewed : bool)
  | LeaseReleased (leaseId : string).

Definition mark_of (e : work_event) : option mark :=
  match e with
  | Stored (ClaimRun id true) _ d => Some (ClaimWon (ScheduleRun.id <$> scheduleRuns d !! id))
  | Stored (AcquireLease (Some id)) _ _ => Some (LeaseGranted id)
  | Stored (RenewLease id renewed) _ _ => Some (LeaseRenewed id renewed)
  | Stored (ReleaseLease id) _ _ => Some (LeaseReleased id)
  | Host (Dispatch _ id _) => Some (Dispatched id)
  | _ => None
  end.

Abbreviation marks := (marks_by mark_of).

Definition renewal_of (leaseId : string) (m : mark) : Prop := exists b, m = LeaseRenewed leaseId b.
Definition renewal_granted (m : mark) : bool := match m with LeaseRenewed _ b => b | _ => false end.

(** A lease is renewed, or in the end released. *)
Definition lease_settled (leaseId : string) (ms : list mark) : Prop :=
  exists renewals, Forall (renewal_of leaseId) renewals /\
    ms = renewals ++ (if existsb renewal_granted renewals then [] else [LeaseReleased leaseId]).

(** Nothing; the claim alone; or the claim, one lease, at most one dispatch, and
    the lease settled. *)
Inductive trigger_trace : list mark -> Prop :=
  | trace_unclaimed : trigger_trace []
  | trace_claimed id : trigger_trace [ClaimWon (Some id)]
  | trace_held id leaseId dispatch rest :
      dispatch = [] \/ dispatch = [Dispatched id] ->
      lease_settled leaseId rest ->
      trigger_trace (ClaimWon (Some id) :: LeaseGranted leaseId :: dispatch ++ rest).

Section TriggerTrace.
Context `{Platform} `{NodePlatform} `{Dates} `{WorkerHost} `{LaunchHost} `{JobHost} `{SchedulerChannel}.

(** *** Calls that leave no mark *)

Abbreviation unmarked := (unmarked_by mark_of).

Abbreviation silent := (within (logs_only unmarked)).

Abbreviation ends_silent := (Traces.ends_silent mark_of).

Lemma silent_hosted {A} (c : result A -> host_call) answer :
  (forall r, unmarked (Host (c r))) -> silent (hosted c answer).
Proof. apply logs_hosted. Qed.

Lemma silent_op {A} name (m : Tx A) : silent (op name m).
Proof. by apply unmarked_op. Qed.

Lemma silent_reserve id port : silent (reserve_port id port).
Proof. by apply logs_stored. Qed.

Lemma silent_delay ms : silent (delay ms).
Proof. by apply logs_delay. Qed.

Lemma silent_date_now : silent date_now.
Proof. apply logs_date_now. Qed.

Lemma silent_stuck {A} : silent (stuck (A := A)).
Proof. by apply logs_stuck. Qed.
#[local] Hint Resolve silent_op silent_reserve silent_delay silent_date_now silent_stuck : within.
#[local] Hint Extern 2 (within (logs_only unmarked) (hosted _ _)) => apply silent_hosted; done : within.

Lemma silent_resolve r dep name current : silent (resolveInstancePort r dep name current).
Proof.
  assert (Hfirst : forall id input ports, silent (reserve_first id input ports)).
  { intros id input ports. induction ports as [|port ports IH]; simpl;
      unfold candidate_free, taken, isTcpPortAvailable; stroll. }
  unfold resolveInstancePort, preferred_usable, verify_port, isTcpPortAvailable, allocateReservedInstancePort.
  stroll; apply Hfirst.
Qed.

Lemma silent_health r name f input : silent (waitForOwnedHttpHealth r name f input).
Proof.
  assert (Hloop : forall fuel input deadline e, silent (http_health_loop fuel input deadline e)).
  { induction fuel as [|fuel IH]; intros; simpl; stroll. }
  assert (Hown : forall fuel r verify name input deadline, silent (ownership_loop fuel r verify name input deadline)).
  { induction fuel as [|fuel IH]; intros; simpl; unfold verify_port; stroll. }
  unfold waitForOwnedHttpHealth, await_health, waitForHttpHealth. stroll; first [apply Hown|apply Hloop].
Qed.

Lemma silent_fail_instance id message : silent (fail_instance id message).
Proof. unfold fail_instance, update_instance. stroll. Qed.
#[local] Hint Resolve silent_resolve silent_health silent_fail_instance : within.

Lemma silent_startRuntimeInstance r dep si id o : silent (startRuntimeInstance r dep si id o).
Proof. unfold startRuntimeInstance, start_instance, ensure_or_start, startProcess, stopProcess. stroll. Qed.

Lemma silent_await_ready fuel claimed deadline ready poll : silent (await_ready fuel claimed deadline ready poll).
Proof. revert claimed. induction fuel as [|fuel IH]; intros claimed; simpl; stroll. Qed.

Lemma silent_job_log pid did type line : silent (job_log pid did type line).
Proof. unfold job_log. stroll. Qed.

Lemma silent_source revision : silent (resolveRecoverableRuntimeSource revision).
Proof. unfold resolveRecoverableRuntimeSource, source_accessible. stroll. Qed.

Lemma silent_prerequisites pid did kind path files persisted :
  silent (resolveDeploymentLaunchPrerequisites pid did kind path files persisted).
Proof. unfold resolveDeploymentLaunchPrerequisites. stroll. Qed.

Lemma silent_sandbox p : silent (ensureDeploymentLaunchSandbox p).
Proof. unfold ensureDeploymentLaunchSandbox. stroll. Qed.

Lemma silent_materialize rid p stale : silent (materializeDeploymentLaunchContext rid p stale).
Proof. unfold materializeDeploymentLaunchContext, warnStaleObserverRelease, runtime_log. stroll. Qed.
#[local] Hint Resolve silent_startRuntimeInstance silent_await_ready silent_job_log silent_source
  silent_prerequisites silent_sandbox silent_materialize : within.

Lemma silent_prepare job options deployment release : silent (prepare_launch job options deployment release).
Proof. unfold prepare_launch. stroll. Qed.

Lemma silent_unclaimed job run : silent (unclaimed_run job run).
Proof. unfold unclaimed_run. stroll. Qed.

(** *** The activation *)

Context (Hfair : fair_others rows_distinct).

Abbreviation distinct w := (rows_distinct (st_db (w_store w))).

Definition undispatched (e : work_event) : Prop :=
  match e with Host (Dispatch _ _ _) => False | _ => True end.

Lemma undispatched_activation request options : within (logs_only undispatched) (ensureDeploymentActive request options).
Proof.
  assert (Hquiet : forall A (m : Work A), silent m -> within (logs_only undispatched) m).
  { intros A m Hm w. eapply logs_weaken; [|apply Hm]. by intros [[]| |]. }
  assert (Hdelay : forall ms, within (logs_only undispatched) (delay ms)) by (intros; by apply logs_delay).
  assert (Hstuck : forall A, within (logs_only undispatched) (stuck (A := A))) by (intros; by apply logs_stuck).
  assert (Hstored : forall A (c : result A -> store_call) m, within (logs_only undispatched) (stored c m))
    by (intros; by apply logs_stored).
  assert (Hloop : forall fuel ttl ready deadline retry most,
    within (logs_only undispatched) (acquire_loop fuel request ttl ready deadline retry most)).
  { induction fuel as [|fuel IH]; intros; simpl; unfold acquire; stroll. }
  unfold ensureDeploymentActive, complete_activation, release_lease.
  stroll; first [apply Hloop|apply Hquiet; auto with within].
Qed.

Lemma marks_quiet es : Forall quiet es -> Forall undispatched es -> marks es = [].
Proof.
  intros Hq Hu. induction es as [|e es IH]; [done|]. apply Forall_cons in Hq as [Hq Hqs], Hu as [Hu Hus].
  unfold marks_by. simpl. destruct (mark_of e) eqn:He; [|by apply IH].
  by destruct e as [[]|[[]| | | |? []| | | | | | | |]|].
Qed.

(** An activation that returns has been granted the lease it returns; one that
    throws has given back what it was granted. *)
Lemma activation_marks request options w r w' :
  distinct w -> ensureDeploymentActive request options w = (r, w') ->
  exists es, w_log w' = w_log w ++ es /\
    match r with
    | Ok a => marks es = [LeaseGranted (ActivationLease.id (act_lease a))]
    | Err _ => marks es = [] \/ exists l, marks es = [LeaseGranted l; LeaseReleased l]
    end.
Proof.
  intros Hd Hrun. pose proof (logs_run _ _ _ _ _ (undispatched_activation request options) Hrun) as (all & Hall & Hund).
  unfold ensureDeploymentActive in Hrun.
  apply bind_run in Hrun as [(e & [t Hn]%date_now_ok & ->)|(t & w1 & Hn & Hrun)]; [done|].
  pose proof (within_run _ _ _ _ _ (calm_date_now Hfair) Hn) as Hc1.
  apply (date_now_run Hfair) in Hn as ([= ->] & _ & _).
  apply bind_run in Hrun as [(e & Hacq & ->)|(a & w2 & Hacq & Hrun)];
    (apply (acquire_loop_run Hfair) in Hacq; [|apply wait_fuel_enough|apply wait_fuel_pos]).
  - assert (Hc : sane (I := rows_distinct) quiet w w') by by etransitivity. destruct Hc as ((es & Hlog & Hq) & _).
    exists es. split; [done|]. left. apply marks_quiet; [done|].
    rewrite Hall in Hlog. by apply app_inv_head in Hlog as <-.
  - destruct Hacq as (w0 & d & d' & Hc0 & Hlog2 & Hd2).
    assert (Hc : sane (I := rows_distinct) quiet w w0) by by etransitivity. destruct Hc as ((es & Hlog & Hq) & _).
    apply (complete_activation_run Hfair) in Hrun; [|by apply Hd2, Hc1]. exists all. split; [done|].
    destruct r as [a'|e].
    + destruct Hrun as (((fs & Hlog' & Hq') & _) & -> & _).
      rewrite Hlog', Hlog2, Hlog, <- !app_assoc in Hall. apply app_inv_head in Hall as <-.
      rewrite !Forall_app in Hund. rewrite !marks_by_app, (marks_quiet es), (marks_quiet fs) by tauto. reflexivity.
    + destruct Hrun as (w3 & x & ((fs & Hlog3 & Hq') & _) & Hlog' & _).
      rewrite Hlog', Hlog3, Hlog2, Hlog, <- !app_assoc in Hall. apply app_inv_head in Hall as <-.
      rewrite !Forall_app in Hund. right. eexists. rewrite !marks_by_app, (marks_quiet es), (marks_quiet fs) by tauto.
      reflexivity.
Qed.

(** *** The clauses *)

Lemma ends_renew leaseId t K w (Q : result bool -> list work_event -> world -> Prop) :
  (forall r b K' w', marks K' = marks K ++ [LeaseRenewed leaseId b] ->
     (forall b', r = Ok b' -> b' = b) -> (forall e, r = Err e -> b = false) -> Q r K' w') ->
  ends any K w (renew_lease leaseId t) Q.
Proof.
  intros Hq. unfold renew_lease. apply ends_bind, (ends_stored any any_more); [done|].
  intros s [[row|]|e] w' _; [apply ends_ret, (Hq _ true)|apply ends_ret, (Hq _ false)|apply (Hq _ false)];
    try (by rewrite marks_by_app); try done; try (by intros b' [= <-]); done.
Qed.

(** The renewals that are still to come, when the lease was handed off or not. *)
Definition settled_after (handedOff : bool) (leaseId : string) (ms : list mark) : Prop :=
  exists renewals, Forall (renewal_of leaseId) renewals /\
    ms = renewals ++ (if handedOff || existsb renewal_granted renewals then [] else [LeaseReleased leaseId]).

Lemma settled_more renewals leaseId ms :
  Forall (renewal_of leaseId) renewals ->
  settled_after (existsb renewal_granted renewals) leaseId ms -> lease_settled leaseId (renewals ++ ms).
Proof.
  intros Hr (more & Hm & ->). exists (renewals ++ more). rewrite Forall_app, existsb_app, <- app_assoc. auto.
Qed.

Lemma settle_run_end options vars message K w :
  ends any K w (settle_run options vars message) (fun r K' _ =>
    match tv_lease vars with
    | None => marks K' = marks K
    | Some leaseId => exists renewals, Forall (renewal_of leaseId) renewals /\ marks K' = marks K ++ renewals /\
        match r with
        | Ok (handedOff, _) => handedOff = tv_handedOff vars || existsb renewal_granted renewals
        | Err _ => existsb renewal_granted renewals = false
        end
    end).
Proof.
  assert (Hnone : forall handedOff K', marks K' = marks K -> handedOff = tv_handedOff vars ->
    match tv_lease vars with
    | None => marks K' = marks K
    | Some leaseId => exists renewals, Forall (renewal_of leaseId) renewals /\ marks K' = marks K ++ renewals /\
        handedOff = tv_handedOff vars || existsb renewal_granted renewals
    end).
  { intros h K' HK ->. destruct (tv_lease vars); [|done]. exists []. rewrite app_nil_r, orb_false_r. auto. }
  assert (Herr : forall K', marks K' = marks K ->
    match tv_lease vars with
    | None => marks K' = marks K
    | Some leaseId => exists renewals, Forall (renewal_of leaseId) renewals /\ marks K' = marks K ++ renewals /\
        existsb renewal_granted renewals = false
    end).
  { intros K' HK. destruct (tv_lease vars); [|done]. exists []. rewrite app_nil_r. auto. }
  unfold settle_run. destruct (tv_run vars) as [run|]; [|by apply ends_ret, (Hnone (tv_handedOff vars))].
  apply ends_bind, ends_silent; [auto with within|]. intros [[row|]|e] K1 w1 HK; [..|by apply Herr].
  2: by apply ends_ret, (Hnone (tv_handedOff vars)).
  assert (Hcomplete : forall Q, (forall K', marks K' = marks K -> Q K') -> ends any K1 w1
    (if run_finished (ScheduleRun.status row) then ret (tv_handedOff vars, false)
     else _done <- complete_run (ScheduleRun.id run) (mk_complete_run_input
            (if bool_decide (ScheduleRun.status row = RunStatus.dispatching)
             then RunOutcome.dispatch_unknown else RunOutcome.failed) (Some message) None) ;;
          ret (tv_handedOff vars, false))
    (fun r K' _ => Q K' /\ forall x, r = Ok x -> x.1 = tv_handedOff vars)).
  { intros Q Hq. destruct (run_finished _); [by apply ends_ret; split; [auto|intros x [= <-]]|].
    apply ends_bind, ends_silent; [unfold complete_run; auto with within|].
    intros [o|e] K2 w2 HK2; [apply ends_ret|]; (split; [apply Hq; congruence|]); [by intros x [= <-]|done]. }
  destruct (bool_decide (ScheduleRun.status row = RunStatus.running)); [destruct (tv_lease vars) as [leaseId|] eqn:Hlease|].
  - apply ends_bind, ends_silent; [auto with within|]. intros [t|e] K2 w2 HK2; [|apply Herr; congruence].
    apply ends_bind, ends_lift. destruct (scheduleRunMaxRuntimeMs options) as [ms|e]; [|apply Herr; congruence].
    apply ends_bind, ends_renew. intros r b K3 w3 HK3 Hb He. rewrite HK2, HK in HK3.
    assert (Hone : Forall (renewal_of leaseId) [LeaseRenewed leaseId b]) by (apply Forall_singleton; by exists b).
    destruct r as [b'|e].
    + rewrite (Hb b' eq_refl). apply ends_ret. exists [LeaseRenewed leaseId b]. split; [done|]. split; [done|].
      simpl. destruct b; [by rewrite orb_true_r|by rewrite orb_false_r].
    + exists [LeaseRenewed leaseId b]. rewrite (He e eq_refl). rewrite (He e eq_refl) in HK3, Hone. auto.
  - eapply ends_weaken; [|apply (Hcomplete (fun K' => marks K' = marks K)); done].
    by intros r K' w' [HK' _].
  - eapply ends_weaken; [|apply (Hcomplete (fun K' => marks K' = marks K)); done].
    intros [[h b]|e] K' w' [HK' Hh]; [|by apply Herr]. by apply Hnone, (Hh _ eq_refl).
Qed.

Lemma trigger_failed_end job options startedAtMs vars e K w :
  ends any K w (ended <- trigger_failed job options startedAtMs vars e ;; finish_trigger (tv_lease vars) ended)
    (fun _ K' _ => match tv_lease vars with
                   | None => marks K' = marks K
                   | Some leaseId => exists rest, settled_after (tv_handedOff vars) leaseId rest /\
                       marks K' = marks K ++ rest
                   end).
Proof.
  apply ends_bind. unfold trigger_failed. apply ends_bind, ends_attempt.
  eapply ends_weaken; [|apply settle_run_end]. intros r K1 w1 Hr.
  assert (Hfinish : forall K2 w2 ended, marks K2 = marks K1 ->
    (forall h x, r = Ok (h, x) -> ended.1 = h) -> (forall e', r = Err e' -> ended.1 = tv_handedOff vars) ->
    ends any K2 w2 (finish_trigger (tv_lease vars) ended)
      (fun _ K' _ => match tv_lease vars with
                     | None => marks K' = marks K
                     | Some leaseId => exists rest, settled_after (tv_handedOff vars) leaseId rest /\
                         marks K' = marks K ++ rest
                     end)).
  { intros K2 w2 [h res] HK2 Hok Herr. simpl in Hok, Herr. unfold finish_trigger. simpl.
    destruct (tv_lease vars) as [leaseId|].
    2: { apply ends_bind, ends_ret, ends_lift. congruence. }
    destruct Hr as (renewals & Hall & HK1 & Hh).
    assert (Hhd : h = tv_handedOff vars || existsb renewal_granted renewals).
    { destruct r as [[h' x]|e']; [by rewrite (Hok h' x eq_refl)|]. by rewrite (Herr e' eq_refl), Hh, orb_false_r. }
    set (fin := if h then [] else [LeaseReleased leaseId]).
    assert (Hs : settled_after (tv_handedOff vars) leaseId (renewals ++ fin)).
    { exists renewals. split; [done|]. unfold fin. by rewrite Hhd. }
    apply ends_bind. unfold fin in Hs. destruct h.
    - apply ends_ret, ends_lift. eexists. split; [exact Hs|]. by rewrite app_nil_r, HK2.
    - unfold give_back. apply ends_bind, (ends_stored any any_more); [done|]. intros s r' w3 _.
      assert (HK3 : forall d d', marks (K2 ++ [Stored (ReleaseLease leaseId) d d'])
        = marks K ++ renewals ++ [LeaseReleased leaseId]) by (intros; by rewrite marks_by_app, HK2, HK1, <- app_assoc).
      destruct r' as [row|e']; [apply ends_ret, ends_lift|]; (eexists; split; [exact Hs|apply HK3]). }
  destruct r as [[h x]|e'].
  - apply ends_bind, ends_attempt, ends_silent; [stroll|]. intros r2 K2 w2 HK2. apply ends_ret, Hfinish; [done| |done].
    by intros h' x' [= -> ->].
  - apply ends_ret, Hfinish; [done|done|]. by intros e'' _.
Qed.

(** *** The dispatch *)

Lemma ends_dispatch port id answer K w (Q : result (list string) -> list work_event -> world -> Prop) :
  (forall r K' w', marks K' = marks K ++ [Dispatched id] -> Q r K' w') ->
  ends any K w (hosted (Dispatch port id) answer) Q.
Proof.
  intros Hq. apply (ends_hosted any any_more); [done|]. intros r w'. apply Hq. by rewrite marks_by_app.
Qed.

Lemma hand_off_end leaseId ms reported K w (Q : result bool -> list work_event -> world -> Prop) :
  (forall r renewals K' w', Forall (renewal_of leaseId) renewals -> marks K' = marks K ++ renewals ->
     existsb renewal_granted renewals = match r with Ok h => h | Err _ => false end -> Q r K' w') ->
  ends any K w (hand_off leaseId ms reported) Q.
Proof.
  intros Hq. unfold hand_off. destruct (from_option _ _ reported).
  2: { apply ends_ret, (Hq _ []); [done|by rewrite app_nil_r|done]. }
  apply ends_bind, ends_silent; [auto with within|]. intros [t|e] K1 w1 HK1.
  2: { apply (Hq _ []); [done|by rewrite app_nil_r|done]. }
  apply ends_bind, ends_renew. intros r b K2 w2 HK2 Hb He. rewrite HK1 in HK2.
  assert (Hone : Forall (renewal_of leaseId) [LeaseRenewed leaseId b]) by (apply Forall_singleton; by exists b).
  destruct r as [b'|e]; [|by apply (Hq _ [LeaseRenewed leaseId b]); [..|rewrite (He e eq_refl)]].
  rewrite (Hb b' eq_refl). apply ends_bind, ends_throw_if; intros Hn.
  - apply (Hq _ [LeaseRenewed leaseId b]); [done|done|]. by destruct b.
  - apply ends_ret, (Hq _ [LeaseRenewed leaseId b]); [done|done|]. by destruct b.
Qed.

Lemma dispatch_run_end job schedule deployment run launch leaseId K w :
  ends any K w (dispatch_run job schedule deployment run launch leaseId) (fun r K' _ =>
    exists dispatch renewals, (dispatch = [] \/ dispatch = [Dispatched (ScheduleRun.id run)]) /\
      Forall (renewal_of leaseId) renewals /\ marks K' = marks K ++ dispatch ++ renewals /\
      existsb renewal_granted renewals = match r with Ok (_, h) => h | Err _ => false end).
Proof.
  assert (Herr : forall dispatch K', (dispatch = [] \/ dispatch = [Dispatched (ScheduleRun.id run)]) ->
    marks K' = marks K ++ dispatch -> exists dispatch renewals,
      (dispatch = [] \/ dispatch = [Dispatched (ScheduleRun.id run)]) /\
      Forall (renewal_of leaseId) renewals /\ marks K' = marks K ++ dispatch ++ renewals /\
      existsb renewal_granted renewals = false).
  { intros dispatch K' Hd HK. exists dispatch, []. by rewrite app_nil_r. }
  unfold dispatch_run. apply ends_bind, ends_silent; [auto with within|].
  intros [[]|e] K1 w1 HK1; [|apply (Herr []); [by left|by rewrite app_nil_r]].
  apply ends_bind, ends_silent; [auto with within|].
  intros [now|e] K2 w2 HK2; [|apply (Herr []); [by left|by rewrite app_nil_r; congruence]].
  apply ends_bind, ends_lift. destruct (createScheduleDispatchCredential _ _) as [credential|e];
    [|apply (Herr []); [by left|by rewrite app_nil_r; congruence]].
  apply ends_bind, ends_dispatch. intros r K3 w3 HK3. rewrite HK2, HK1 in HK3.
  destruct r as [sessionIds|e]; [|by apply (Herr [Dispatched (ScheduleRun.id run)]); [right|]].
  apply ends_bind, ends_silent; [unfold reported_run, complete_run; stroll|].
  intros [reported|e] K4 w4 HK4; [|by apply (Herr [Dispatched (ScheduleRun.id run)]); [right|congruence]].
  apply ends_bind, hand_off_end. intros h renewals K5 w5 Hr HK5 Hh. rewrite HK4, HK3, <- app_assoc in HK5.
  destruct h as [h|e]; [apply ends_ret|]; exists [Dispatched (ScheduleRun.id run)], renewals; auto.
Qed.

(** *** The job *)

Lemma ends_guarded {A} job options startedAtMs vars (m : Work A) k K w (Q : result unit -> list work_event -> world -> Prop) :
  ends any K w m (fun r K1 w1 =>
    match r with
    | Ok a => ends any K1 w1 (k a) Q
    | Err e => forall r' K' w',
        match tv_lease vars with
        | None => marks K' = marks K1
        | Some leaseId => exists rest, settled_after (tv_handedOff vars) leaseId rest /\ marks K' = marks K1 ++ rest
        end -> Q r' K' w'
    end) ->
  ends any K w (guarded job options startedAtMs vars m k) Q.
Proof.
  intros Hm. unfold guarded. apply ends_bind, ends_attempt. eapply ends_weaken; [|exact Hm].
  intros [a|e] K1 w1 Hq; [done|]. eapply ends_weaken; [|apply trigger_failed_end].
  intros r' K' w' Hr. by apply (Hq r' K' w').
Qed.

Lemma with_lease_end job options startedAtMs schedule deployment run launch leaseId K w :
  ends any K w (with_lease job options startedAtMs schedule deployment run launch leaseId) (fun _ K' _ =>
    exists dispatch rest, (dispatch = [] \/ dispatch = [Dispatched (ScheduleRun.id run)]) /\
      lease_settled leaseId rest /\ marks K' = marks K ++ dispatch ++ rest).
Proof.
  unfold with_lease. apply ends_guarded, ends_silent; [unfold mark_running; stroll|].
  intros [[]|e] K1 w1 HK1.
  2: { intros _ K' _ (rest & Hs & HK'). exists [], rest. rewrite HK', HK1. auto. }
  apply ends_guarded. eapply ends_weaken; [|apply dispatch_run_end].
  intros r K2 w2 (dispatch & renewals & Hd & Hr & HK2 & Hh). rewrite HK1 in HK2.
  assert (Hend : forall h K' rest, existsb renewal_granted renewals = h -> settled_after h leaseId rest ->
    marks K' = marks K2 ++ rest -> exists dispatch rest,
      (dispatch = [] \/ dispatch = [Dispatched (ScheduleRun.id run)]) /\
      lease_settled leaseId rest /\ marks K' = marks K ++ dispatch ++ rest).
  { intros h K' rest <- Hs HK'. exists dispatch, (renewals ++ rest). split; [done|].
    split; [by apply settled_more|]. by rewrite HK', HK2, <- !app_assoc. }
  destruct r as [[sessionIds h]|e].
  2: { intros _ K' _ (rest & Hs & HK'). by eapply Hend. }
  apply ends_guarded, ends_silent; [stroll|]. intros [[]|e] K3 w3 HK3.
  2: { intros _ K' _ (rest & Hs & HK'). rewrite HK3 in HK'. by eapply Hend. }
  unfold finish_trigger. simpl. apply ends_bind. destruct h.
  - apply ends_ret, ends_lift, (Hend true K3 []); [done|by exists []|by rewrite app_nil_r].
  - unfold give_back. apply ends_bind, (ends_stored any any_more); [done|]. intros s r w4 _.
    assert (HK4 : forall d d', marks (K3 ++ [Stored (ReleaseLease leaseId) d d']) = marks K2 ++ [LeaseReleased leaseId])
      by (intros; by rewrite marks_by_app, HK3).
    destruct r as [row|e]; [apply ends_ret, ends_lift|]; (eapply (Hend false); [done|by exists []|apply HK4]).
Qed.

(** What leaves no mark and keeps rows distinct. *)
Definition tidy (w w' : world) : Prop := logs_only unmarked w w' /\ (distinct w -> distinct w').

#[export] Instance tidy_preorder : PreOrder tidy.
Proof.
  split; [by intros w|]. intros w1 w2 w3 [Hl Hd] [Hl' Hd']. split; [by etransitivity|auto].
Qed.

Lemma tidy_hosted {A} (c : result A -> host_call) answer :
  (forall r, unmarked (Host (c r))) -> within tidy (hosted c answer).
Proof. intros Hc w. split; [by apply silent_hosted|]. apply Hfair. Qed.

Lemma tidy_op {A} name (m : Tx A) : moves (preserves rows_distinct) m -> within tidy (op name m).
Proof.
  intros Hm w. split; [apply silent_op|]. intros Hw. unfold exec. destruct (op name m w) as [r w'] eqn:Hrun.
  simpl. apply stored_run in Hrun as (s & Hs & -> & _). specialize (Hm (others (w_log w) (w_store w))).
  unfold exec in Hm. rewrite Hs in Hm. by apply Hm, Hfair.
Qed.

Lemma tidy_read {A} name (q : database -> A) : within tidy (op name (read q)).
Proof. apply tidy_op, moves_read. apply _. Qed.

Lemma tidy_date_now : within tidy date_now.
Proof. intros w. split; [apply silent_date_now|]. apply Hfair. Qed.

Lemma tidy_log input : within tidy (op "appendLog" (appendLog input)).
Proof. apply tidy_op. unfold appendLog. walk. apply moves_insert_row; [apply _|]. by intros d _ Hd. Qed.
#[local] Hint Resolve tidy_read tidy_date_now tidy_log : within.
#[local] Hint Extern 2 (within tidy (hosted _ _)) => apply tidy_hosted; done : within.

Lemma ends_tidy {A} K w (m : Work A) (Q : result A -> list work_event -> world -> Prop) :
  within tidy m -> (forall r K' w', marks K' = marks K -> (distinct w -> distinct w') -> Q r K' w') ->
  ends any K w m Q.
Proof.
  intros Hm Hq. pose proof (Hm w) as Hw. unfold ends, exec in *. destruct (m w) as [r w'].
  destruct Hw as [(es & Hlog & Hes) Hd]. exists (K ++ es). split.
  - exists es. split; [done|]. split; [done|]. by intros past e future _.
  - apply Hq; [|done]. rewrite marks_by_app. replace (marks es) with (@nil mark); [by rewrite app_nil_r|].
    clear Hlog. induction Hes as [|e es He _ IH]; [done|]. unfold marks_by. simpl. by rewrite He.
Qed.

Lemma tidy_check job found : within tidy (check_run job found).
Proof. unfold check_run, getProjectSchedule, getDeployment, getRelease, listProjectScheduleVersions. stroll. Qed.

Lemma tidy_prepare job options deployment release : within tidy (prepare_launch job options deployment release).
Proof.
  unfold prepare_launch, getSourceRevision, resolveRecoverableRuntimeSource, source_accessible,
    listSourceRevisionFiles, resolveDeploymentLaunchPrerequisites, ensureDeploymentLaunchSandbox.
  stroll.
Qed.

Lemma tidy_materialize rid p stale : within tidy (materializeDeploymentLaunchContext rid p stale).
Proof. unfold materializeDeploymentLaunchContext, warnStaleObserverRelease, runtime_log. stroll. Qed.

Lemma tidy_job_log pid did type line : within tidy (job_log pid did type line).
Proof. unfold job_log. stroll. Qed.

(** The claim leaves the row claimed, under its own id. *)
Lemma claim_run_end id K w (Q : result (option schedule_run) -> list work_event -> world -> Prop) :
  (forall r K' w', match r with
     | Ok (Some run) => marks K' = marks K ++ [ClaimWon (Some (ScheduleRun.id run))]
     | _ => marks K' = marks K
     end -> (distinct w -> distinct w') -> Q r K' w') ->
  ends any K w (claim_run id) Q.
Proof.
  intros Hq. unfold claim_run. set (m := claimScheduleRunActivation id None None).
  assert (Hm : moves (preserves rows_distinct) m).
  { unfold m, claimScheduleRunActivation. walk. apply moves_update_key; [apply _|]. by intros d r _ _ Hd. }
  unfold ends. destruct (stored _ m w) as [r w'] eqn:Hrun. apply stored_run in Hrun as (s & Hs & Hst & Hlog).
  eexists. split; [by eapply (logs_from_event any any_more)|]. apply Hq.
  - destruct r as [[run|]|e]; rewrite marks_by_app; [|by rewrite app_nil_r..]. f_equal.
    unfold m, claimScheduleRunActivation in Hs. apply bind_ok in Hs as (t & s1 & _ & Hs).
    apply update_key_ok in Hs as [([=] & _)|(row & _ & _ & [= ->] & _ & ->)].
    unfold marks_by. simpl. by rewrite lookup_insert_eq.
  - intros Hw. specialize (Hm (others (w_log w) (w_store w))). unfold exec in Hm. rewrite Hs in Hm.
    rewrite Hst. by apply Hm, Hfair.
Qed.

Lemma validate_run_end job found K w :
  ends any K w (validate_run job found) (fun r K' w' =>
    match r with
    | Ok (Claimed _ _ _ run) =>
        marks K' = marks K ++ [ClaimWon (Some (ScheduleRun.id run))] /\ (distinct w -> distinct w')
    | _ => marks K' = marks K
    end).
Proof.
  unfold validate_run. apply ends_bind, ends_tidy; [apply tidy_check|].
  intros [[[[run schedule] deployment] release]|e] K1 w1 HK1 Hd1; [|done].
  apply ends_bind, claim_run_end. intros [[claimed|]|e] K2 w2 HK2 Hd2; [|..|by rewrite HK2].
  - apply ends_ret. rewrite HK2, HK1. auto.
  - apply ends_bind, ends_silent; [apply silent_unclaimed|].
    intros [[]|e] K3 w3 HK3; [apply ends_ret|]; congruence.
Qed.

Lemma ends_activation request options K w (Q : result activation -> list work_event -> world -> Prop) :
  distinct w ->
  (forall a K' w', marks K' = marks K ++ [LeaseGranted (ActivationLease.id (act_lease a))] -> Q (Ok a) K' w') ->
  (forall e K' w', marks K' = marks K \/
     (exists l, marks K' = marks K ++ [LeaseGranted l; LeaseReleased l]) -> Q (Err e) K' w') ->
  ends any K w (ensureDeploymentActive request options) Q.
Proof.
  intros Hd Hok Herr. unfold ends. destruct (ensureDeploymentActive request options w) as [r w'] eqn:Hrun.
  apply activation_marks in Hrun as (es & Hlog & Hm); [|done]. exists (K ++ es). split.
  - exists es. split; [done|]. split; [done|]. by intros past e future _.
  - destruct r as [a|e]; [apply Hok; by rewrite marks_by_app, Hm|apply Herr].
    destruct Hm as [Hm|[l Hm]]; rewrite marks_by_app, Hm; [left; by rewrite app_nil_r|right; by exists l].
Qed.

(** What follows the claim. *)
Definition held_trace (id : string) (ms : list mark) : Prop :=
  ms = [] \/ exists leaseId dispatch rest, (dispatch = [] \/ dispatch = [Dispatched id]) /\
    lease_settled leaseId rest /\ ms = LeaseGranted leaseId :: dispatch ++ rest.

Lemma run_claimed_end job options startedAtMs schedule deployment release run K w :
  distinct w ->
  ends any K w (run_claimed job options startedAtMs schedule deployment release run) (fun _ K' _ =>
    exists ms, held_trace (ScheduleRun.id run) ms /\ marks K' = marks K ++ ms).
Proof.
  assert (Hnone : forall K', marks K' = marks K ->
    exists ms, held_trace (ScheduleRun.id run) ms /\ marks K' = marks K ++ ms).
  { intros K' HK. exists []. split; [by left|]. by rewrite app_nil_r. }
  intros Hd. unfold run_claimed. apply ends_guarded, ends_tidy; [apply tidy_prepare|].
  intros [launch|e] K1 w1 HK1 Hd1; [|intros _ K' _ HK'; apply Hnone; congruence]. apply ends_guarded.
  unfold activate_run. apply ends_bind, ends_tidy; [apply tidy_job_log|].
  intros [[]|e] K2 w2 HK2 Hd2; [|intros _ K' _ HK'; apply Hnone; congruence].
  apply ends_bind, ends_tidy; [apply tidy_materialize|].
  intros [context|e] K3 w3 HK3 Hd3; [|intros _ K' _ HK'; apply Hnone; congruence].
  assert (HK : marks K3 = marks K) by congruence.
  apply ends_activation; [by auto|..].
  - intros a K4 w4 HK4. eapply ends_weaken; [|apply with_lease_end].
    intros _ K' _ (dispatch & rest & Hdis & Hs & HK'). eexists. split.
    + right. do 3 eexists. split; [exact Hdis|]. split; [exact Hs|]. reflexivity.
    + by rewrite HK', HK4, HK, <- app_assoc.
  - intros e K4 w4 Hm _ K' _ HK'. simpl in HK'. destruct Hm as [Hm|[l Hm]]; [apply Hnone; congruence|].
    exists [LeaseGranted l; LeaseReleased l]. split; [|congruence]. right. exists l, [], [LeaseReleased l].
    split; [by left|]. split; [by exists []|done].
Qed.

(** C31. A schedule's job runs its run once and keeps no lease. As long as time goes
    forward and no two rows share a key, the calls of a run of the job that
    matter are none; or the claim of the run alone; or the claim, then one lease
    of its deployment, then at most one dispatch, of the claimed run, and last
    the lease either renewed - handed to the run that goes on - or released,
    never both and never neither, whatever fails on the way. *)
Theorem schedule_job_settles_its_lease job options w r w' :
  rows_distinct (st_db (w_store w)) ->
  handleTriggerScheduleJob job options w = (r, w') ->
  exists es, w_log w' = w_log w ++ es /\ trigger_trace (marks es).
Proof.
  intros Hd Hrun.
  assert (Hends : ends any [] w (handleTriggerScheduleJob job options) (fun _ K _ => trigger_trace (marks K))).
  2: { destruct (ends_run _ _ _ _ _ _ _ Hends Hrun) as (K & (es & Hlog & -> & _) & Hq). by exists es. }
  unfold handleTriggerScheduleJob, getScheduleRun. apply ends_bind, ends_tidy; [apply tidy_read|].
  intros [run|e] K1 w1 HK1 Hd1; [|rewrite HK1; apply trace_unclaimed].
  apply ends_bind, ends_tidy; [apply tidy_date_now|].
  intros [now|e] K2 w2 HK2 Hd2; [|rewrite HK2, HK1; apply trace_unclaimed].
  assert (HK : marks K2 = []) by by rewrite HK2, HK1.
  apply ends_guarded. eapply ends_weaken; [|apply validate_run_end].
  intros [[|schedule deployment release claimed]|e] K3 w3 Hv.
  - apply ends_ret. rewrite Hv, HK. apply trace_unclaimed.
  - destruct Hv as [HK3 Hd3]. rewrite HK in HK3. eapply ends_weaken; [|apply run_claimed_end; by auto].
    intros _ K' _ (ms & Hms & ->). rewrite HK3. destruct Hms as [->|(l & dispatch & rest & Hdis & Hs & ->)].
    + apply trace_claimed.
    + by apply trace_held.
  - intros _ K' _ HK'. simpl in HK'. rewrite HK', Hv, HK. apply trace_unclaimed.
Qed.
End TriggerTrace.

(** ** A run *)

Definition sample_launch_host : LaunchHost := {|
  memory_root_dirs := fun p => mk_directories ("/memory/" +:+ p) ("/memory/" +:+ p);
  sandbox_cache_dirs := fun p => mk_directories ("/cache/" +:+ p) ("/cache/" +:+ p);
  agent_observability_dirs := fun p d => mk_directories ("/policy/" +:+ d) ("/policy/" +:+ d);
  DOCKER_MEMORY_ROOT_MOUNT_DIR := "/memory";
  OBSERVER_RUNTIME_CONTRACT := 1;
  compose_env := fun _ _ _ => Ok (∅, []);
  runtime_command_context := fun _ _ _ _ => Ok (mk_command_context (Some "pnpm") true);
  accessible := fun _ _ => Ok tt;
  make_directory := fun _ _ => Ok tt;
  prepare_observability := fun p _ _ => Ok (lp_observabilityPolicyDirs p)
|}.

(** A channel that answers every dispatch with one session. *)
Definition sample_channel : SchedulerChannel := {|
  scheduler_post := fun _ _ => Answered 200 (Some (JObj [("sessionIds", JArr [JStr "ses_1"])]));
  EVELAND_SCHEDULER_DISPATCH_TIMEOUT_MS := 120000
|}.

Definition sample_schedule_options : schedule_options :=
  mk_schedule_options sample_job_options (Some sample_secret) (Some "runtime secret") 60000.

Definition schedule_job : job_view :=
  JobView.mk "job_3" "p" "trigger_schedule" "running" (JObj [("scheduleRunId", JStr "run_1")]) 1 None 0 0.

Definition schedule_tables : database :=
  let d := empty_database
    <| projects := {[ "p" := sample_project "p" ]} |>
    <| deployments := {[ "dep_1" := sample_deployment "p" "dep_1" DeploymentStatus.running ]} |>
    <| releases := {[ "rel_1" := Release.mk "rel_1" "p" "src_1" "image" (Some 1%Z) None "shared" None None
                                   None None "full" false 0 ]} |> in
  d <| sourceRevisions := {[ "src_1" := SourceRevision.mk "src_1" "p" "git" None None None None None "/src"
                                          JNull JNull 0 ]} |>
    <| projectSchedules := {[ "sch_1" := ProjectSchedule.mk "sch_1" "p" "daily" true None 0 0 ]} |>
    <| scheduleVersions := {[ "ver_1" := ScheduleVersion.mk "ver_1" "sch_1" "src_1" "cron" "0 0 * * *" "a.ts" "h" 0 ]} |>.

Definition schedule_world : world :=
  mk_world (sample_store (schedule_tables
    <| scheduleRuns := {[ "run_1" := ScheduleRun.mk "run_1" "sch_1" "ver_1" "rel_1" "dep_1" 0
         RunTrigger.cron RunStatus.queued 1 0 None None None None 0 0 ]} |>)) [].

Definition schedule_job_run : result unit * world :=
  @handleTriggerScheduleJob sample_platform sample_crypto sample_dates still_host sample_launch_host
    sample_channel schedule_job sample_schedule_options schedule_world.

Lemma schedule_world_distinct : rows_distinct (st_db (w_store schedule_world)).
Proof.
  assert (Hi : runtimeInstances (st_db (w_store schedule_world)) = ∅) by (vm_compute; reflexivity).
  assert (Hl : activationLeases (st_db (w_store schedule_world)) = ∅) by (vm_compute; reflexivity).
  unfold rows_distinct. rewrite Hi, Hl. split; intros k1 k2 r1 r2 Hk1; by rewrite lookup_empty in Hk1.
Qed.

Lemma schedule_job_settles_its_lease_witness :
  schedule_job_run.1 = Ok tt /\
  marks (w_log schedule_job_run.2) =
    [ClaimWon (Some "run_1"); LeaseGranted "lease_2"; Dispatched "run_1"; LeaseReleased "lease_2"] /\
  trigger_trace (marks (w_log schedule_job_run.2)).
Proof.
  split; [vm_compute; reflexivity|]. split; [vm_compute; reflexivity|].
  destruct (@schedule_job_settles_its_lease sample_platform sample_crypto sample_dates still_host sample_launch_host
    sample_channel (still_fair _) schedule_job sample_schedule_options schedule_world schedule_job_run.1
    schedule_job_run.2 schedule_world_distinct (surjective_pairing schedule_job_run)) as (es & Hlog & Ht).
  change (w_log schedule_world ++ es) with es in Hlog. rewrite Hlog. exact Ht.
Defined.
