(* ===== verification/SourceScan.v ===== *)
(** * Reading a source

    [packages/core/src/source.ts] and [apps/worker/src/source/scan.ts]: the files of
    a source that are kept, and what they say of the Eve project they are.  The
    directory is a tree the host answers with; a file's text is decoded UTF-8, and
    JavaScript's order of strings is the order of their bytes. *)

From stdpp Require Import pretty.
From S2P Require Import Prelude Strings Encoding Schema Store Sample Jobs Cron Sources EveVersion Discovery DispatchCredential Worker Traces Activation Launch RuntimeJobs JobRuns GitImport.

Open Scope eve_scope.
Open Scope string_scope.

(** ** Paths *)

(** [filePath.slice(filePath.lastIndexOf("/") + 1)] *)
Definition posixBasename (filePath : string) : string :=
  match lastIndexOf slash filePath with Some n => slice_from (S n) filePath | None => filePath end.

(** [replace(/^(\.\/)+/, "")] *)
Fixpoint strip_here (s : string) : string :=
  match s with
  | String c1 (String c2 rest) => if ascii_is 46 c1 && ascii_is 47 c2 then strip_here rest else s
  | _ => s
  end.

Definition normalizeSourcePath (input : string) : string := strip_here (replaceAll backslash slash input).

(** A path that one of these ends. *)
Definition ends_in (suffixes : list string) (s : string) : bool := existsb (fun suffix => ends_with suffix s) suffixes.

(** [/\.(ts|tsx)$/] and [/\.d\.[cm]?ts$/]. *)
Definition typescript_suffixes : list string := [".ts"; ".tsx"].
Definition declaration_suffixes : list string := [".d.ts"; ".d.cts"; ".d.mts"].

Definition isInstructionPath (filePath root : string) : bool :=
  bool_decide (filePath = root +:+ "instructions.md") || bool_decide (filePath = root +:+ "instructions.ts")
  || String.prefix (root +:+ "instructions/") filePath.

Definition isUnder (filePath directory : string) : bool :=
  negb (bool_decide (directory = "")) && String.prefix directory filePath.

Definition isSkillPath (filePath root : string) : bool :=
  match strip_prefix (root +:+ "skills/") filePath with
  | None => false
  | Some relativePath =>
      if includes slash relativePath then
        match split_at slash relativePath with
        | [directory; file] => negb (bool_decide (directory = "")) && bool_decide (file = "SKILL.md")
        | _ => false
        end
      else negb (ends_in declaration_suffixes relativePath) && ends_in schedule_suffixes relativePath
  end.

Definition getSubagentId (filePath root : string) : option string :=
  let prefix := root +:+ "subagents/" in
  relativePath ← strip_prefix prefix filePath;
  id ← truthy (head (split_at slash relativePath));
  Some (prefix +:+ id).

(** [EveProjectLayout], [None] when it is unknown. *)
Definition detectLayout (paths : list string) : option layout :=
  if existsb (fun filePath => isInstructionPath filePath "agent/") paths then Some Nested
  else if existsb (fun filePath => isInstructionPath filePath "") paths then Some Flat
  else None.

(** ** Contents *)

(** Does the text, or what follows some character of it, satisfy [p]? *)
Fixpoint somewhere (p : string -> bool) (s : string) : bool :=
  p s || match s with "" => false | String _ rest => somewhere p rest end.

(** [\s+], [None] when there is no white space. *)
Definition skip_space (s : string) : option string :=
  let rest := trim_start s in if bool_decide (rest = s) then None else Some rest.

Definition quote_mark (c : Ascii.ascii) : bool := ascii_is 34 c || ascii_is 39 c.

(** [/\beveChannel\b/] in the names between the braces. *)
Fixpoint names_channel (inWord : bool) (names : string) : bool :=
  (negb inWord && match strip_prefix "eveChannel" names with Some rest => word_ends rest | None => false end)
  || match names with "" => false | String c rest => names_channel (word_char c) rest end.

(** [/import\s*\{[^}]*\beveChannel\b[^}]*\}\s*from\s*["']eve\/channels\/eve["']/] at the start. *)
Definition imports_channel (s : string) : bool :=
  match
    (rest ← strip_prefix "import" s;
     rest ← strip_prefix "{" (trim_start rest);
     let (names, rest) := span_chars (fun c => negb (ascii_is 125 c)) rest in
     rest ← strip_prefix "}" rest;
     rest ← strip_prefix "from" (trim_start rest);
     Some (names, trim_start rest))
  with
  | Some (names, String c rest) =>
      names_channel false names && quote_mark c &&
      match strip_prefix "eve/channels/eve" rest with Some (String c _) => quote_mark c | _ => false end
  | _ => false
  end.

(** [/export\s+default\s+eveChannel\s*\(/] at the start. *)
Definition exports_channel (s : string) : bool :=
  match
    (rest ← strip_prefix "export" s;
     rest ← skip_space rest;
     rest ← strip_prefix "default" rest;
     rest ← skip_space rest;
     rest ← strip_prefix "eveChannel" rest;
     strip_prefix "(" (trim_start rest))
  with
  | Some _ => true
  | None => false
  end.

(** The paths of [^channels/eve\.(?:[cm]?[jt]s)$], below the root. *)
Definition channel_path (root filePath : string) : bool :=
  existsb (fun extension => bool_decide (filePath = root +:+ "channels/eve" +:+ extension))
    [".js"; ".ts"; ".cjs"; ".mjs"; ".cts"; ".mts"].

Definition detectsEveChatCapability (files : list (string * string)) (root : string) : bool :=
  match List.find (fun file => channel_path root file.1) files with
  | None => false
  | Some channel => somewhere imports_channel channel.2 && somewhere exports_channel channel.2
  end.

(** A capital and the capitals, digits and underscores that follow it, at the start;
    and what follows the name. *)
Definition variable_name (s : string) : option (string * string) :=
  match s with
  | String c _ =>
      if upper_letter c then Some (span_chars (fun c => upper_letter c || digit c || ascii_is 95 c) s) else None
  | "" => None
  end.

(** A variable that a line of an environment file sets. *)
Definition assigned_variable (line : string) : option string :=
  found ← variable_name (trim_start line);
  _rest ← strip_prefix "=" (trim_start found.2);
  Some found.1.

(** The names after [process.env.], of all matches: no two overlap. *)
Fixpoint read_variables (content : string) : list string :=
  (option_list (rest ← strip_prefix "process.env." content; fst <$> variable_name rest)
   ++ match content with "" => [] | String _ rest => read_variables rest end)%list.

Definition collectEnvVars (filePath content : string) : list string :=
  ((if String.prefix ".env" (posixBasename filePath) then omap assigned_variable (split_lines content) else [])
   ++ read_variables content)%list.

Section Inspection.
Context `{Platform} `{NodePlatform}.

Definition readProjectName (files : list (string * string)) : option string :=
  packageJson ← List.find (fun file => bool_decide (file.1 = "package.json")) files;
  parsed ← json_parse packageJson.2;
  truthy (json_string (json_get "name" parsed)).

(** ** The inspection of a project *)

(** [EveProjectSummary] *)
Record project_summary : Type := mk_summary {
  su_agents : list string; su_instructions : list string; su_tools : list string; su_skills : list string;
  su_subagents : list string; su_connections : list string; su_schedules : list string; su_sandbox : list string
}.

Definition emptySummary : project_summary := mk_summary [] [] [] [] [] [] [] [].

(** [[...new Set(list)].sort()] *)
Definition dedupe (l : list string) : list string := order_by String.leb (js_set l).

Definition dedupeSummary (s : project_summary) : project_summary :=
  mk_summary (dedupe (su_agents s)) (dedupe (su_instructions s)) (dedupe (su_tools s)) (dedupe (su_skills s))
    (dedupe (su_subagents s)) (dedupe (su_connections s)) (dedupe (su_schedules s)) (dedupe (su_sandbox s)).

(** What the loop over the files gathers. *)
Record gathered : Type := mk_gathered {
  ga_summary : project_summary; ga_schedules : list DiscoveredSchedule; ga_envVars : list string
}.

(** [if (cond) list.push(path)] *)
Definition pushed (cond : bool) (filePath : string) (l : list string) : list string :=
  if cond then (l ++ [filePath])%list else l.

Definition is_schedule_file (root filePath : string) : bool :=
  bool_decide (root = "agent/") && isUnder filePath (root +:+ "schedules/") && ends_in schedule_suffixes filePath.

Definition gather_file (root : string) (g : gathered) (file : string * string) : gathered :=
  let (filePath, content) := file in
  let s := ga_summary g in
  mk_gathered
    (mk_summary
       (pushed (bool_decide (filePath = root +:+ "agent.ts")) filePath (su_agents s))
       (pushed (isInstructionPath filePath root) filePath (su_instructions s))
       (pushed (isUnder filePath (root +:+ "tools/") && ends_in typescript_suffixes filePath) filePath (su_tools s))
       (pushed (isSkillPath filePath root) filePath (su_skills s))
       (match getSubagentId filePath root with
        | Some subagent => (su_subagents s ++ [subagent])%list
        | None => su_subagents s
        end)
       (pushed (isUnder filePath (root +:+ "connections/") && ends_in typescript_suffixes filePath) filePath
          (su_connections s))
       (pushed (is_schedule_file root filePath) filePath (su_schedules s))
       (pushed (isUnder filePath (root +:+ "sandbox/") || bool_decide (filePath = root +:+ "sandbox.ts")) filePath
          (su_sandbox s)))
    (if is_schedule_file root filePath then
       match parseScheduleSource filePath content with
       | Ok schedule => (ga_schedules g ++ [schedule])%list
       | Err _ => ga_schedules g
       end
     else ga_schedules g)
    (ga_envVars g ++ collectEnvVars filePath content)%list.

(** [EveProjectInspection]; its [valid] is that there is no error. *)
Record project_inspection : Type := mk_inspection {
  in_layout : option layout; in_projectName : option string; in_eveVersion : option string;
  in_eveChat : bool; in_summary : project_summary; in_envVars : list string;
  in_schedules : list DiscoveredSchedule; in_errors : list string
}.

Definition layout_root (l : option layout) : string := match l with Some Nested => "agent/" | _ => "" end.

Definition inspectEveProject (files : list (string * string)) : project_inspection :=
  let normalized := (fun file => (normalizeSourcePath file.1, file.2)) <$> files in
  let layout := detectLayout (fst <$> normalized) in
  let root := layout_root layout in
  let g := fold_left (gather_file root) normalized (mk_gathered emptySummary [] []) in
  let summary := dedupeSummary (ga_summary g) in
  let eveVersion := readDeclaredEveVersion normalized in
  mk_inspection layout (readProjectName normalized) eveVersion (detectsEveChatCapability normalized root) summary
    (dedupe (ga_envVars g)) (ga_schedules g)
    ((if bool_decide (layout = None) || bool_decide (su_instructions summary = [])
      then ["Missing root instructions.md, instructions.ts, or instructions/."] else [])
     ++ (if isSupportedEveDependency eveVersion then [] else [unsupportedEveVersionMessage eveVersion]))%list.
End Inspection.

(** ** Scanning a directory *)

(** A file with its size and its text, [None] when it cannot be read. *)
Inductive tree_entry :=
  | TextFile (size : Z) (text : option string)
  | Folder (entries : list (string * tree_entry))
  | OtherEntry.

Definition ignoredDirectories : list string :=
  [".git"; "node_modules"; ".next"; "dist"; "build"; "coverage"; ".turbo"; ".eve"].

Definition maxTextFileBytes : Z := 256 * 1024.

Definition nul : Ascii.ascii := chr 0.

Definition skipped (name : string) : bool :=
  String.prefix "." name && negb (bool_decide (name = ".env.example")).

Section Collect.
Context `{Locale}.

Definition by_path (a b : string * string) : bool := locale_leb a.1 b.1.

(** One entry of a directory that is reached by [relativeDir]. *)
Fixpoint collect_entry (relativeDir : list string) (name : string) (entry : tree_entry) : list (string * string) :=
  if skipped name then [] else
  match entry with
  | Folder entries =>
      if bool_decide (name ∈ ignoredDirectories) then []
      else order_by by_path (flat_map (fun e => collect_entry (relativeDir ++ [name])%list e.1 e.2) entries)
  | OtherEntry => []
  | TextFile size text =>
      if (maxTextFileBytes <? size)%Z then []
      else match text with
           | Some content => if includes nul content then [] else [(path_join (relativeDir ++ [name])%list, content)]
           | None => []
           end
  end.

Definition collectSourceFiles (entries : list (string * tree_entry)) : list (string * string) :=
  order_by by_path (flat_map (fun e => collect_entry [] e.1 e.2) entries).
End Collect.

(** [SourceScanResult] *)
Record scan_result : Type := mk_scan {
  sr_kind : string; sr_sourcePath : string; sr_commitSha : option string; sr_summary : json;
  sr_envVars : list string; sr_files : list (string * string); sr_schedules : list declared_schedule
}.

(** The first field that holds a NUL, with [fieldPath] before it. *)
Fixpoint nul_field (fieldPath : string) (j : json) : option string :=
  match j with
  | JStr s => if includes nul s then Some fieldPath else None
  | JArr l =>
      (fix entries (index : nat) (l : list json) : option string :=
         match l with
         | [] => None
         | entry :: l => or_else (nul_field (fieldPath +:+ "[" +:+ pretty index +:+ "]") entry) (entries (S index) l)
         end) 0%nat l
  | JObj fields =>
      (fix entries (fields : list (string * json)) : option string :=
         match fields with
         | [] => None
         | (key, entry) :: fields =>
             or_else (nul_field (if bool_decide (fieldPath = "") then key else fieldPath +:+ "." +:+ key) entry)
               (entries fields)
         end) fields
  | _ => None
  end.

Definition text_or_null (s : option string) : json := from_option JStr JNull s.
Definition texts (l : list string) : json := JArr (JStr <$> l).

(** A schedule as [JSON]; its instant is ISO text, which holds no NUL. *)
Definition schedule_json (s : declared_schedule) : json :=
  JObj [("name", JStr (dsc_name s)); ("kind", JStr (dsc_kind s)); ("cron", text_or_null (dsc_cron s));
        ("timezone", text_or_null (dsc_timezone s)); ("enabled", JBool (dsc_enabled s));
        ("executable", JBool (dsc_executable s)); ("sourcePath", JStr (dsc_sourcePath s)); ("nextRunAt", JNull)].

Definition scan_json (r : scan_result) : json :=
  JObj [("kind", JStr (sr_kind r)); ("sourcePath", JStr (sr_sourcePath r)); ("commitSha", text_or_null (sr_commitSha r));
        ("summary", sr_summary r); ("envVars", texts (sr_envVars r));
        ("files", JArr ((fun file => JObj [("path", JStr file.1); ("content", JStr file.2)]) <$> sr_files r));
        ("schedules", JArr (schedule_json <$> sr_schedules r))].

Definition layout_text (l : option layout) : string :=
  match l with Some Nested => "nested" | Some Flat => "flat" | None => "unknown" end.

(** What the result's [summary] holds. *)
Definition summary_json (inspection : project_inspection) (context : command_context) : json :=
  let s := in_summary inspection in
  JObj [("layout", JStr (layout_text (in_layout inspection)));
        ("projectName", text_or_null (in_projectName inspection));
        ("eveVersion", text_or_null (in_eveVersion inspection));
        ("capabilities", JObj [("eveChat", JBool (in_eveChat inspection))]);
        ("runtimeCommandContext",
         JObj [("packageManager", text_or_null (cc_packageManager context));
               ("hasLockfile", JBool (cc_hasLockfile context))]);
        ("agents", texts (su_agents s)); ("instructions", texts (su_instructions s)); ("tools", texts (su_tools s));
        ("skills", texts (su_skills s)); ("subagents", texts (su_subagents s));
        ("connections", texts (su_connections s)); ("schedules", texts (su_schedules s));
        ("sandbox", texts (su_sandbox s))].

(** The tree below a directory, when it can be listed; whether a file is at its
    root. *)
Class SourceHost := {
  source_tree : string -> list work_event -> result (list (string * tree_entry));
  root_file : string -> string -> list work_event -> bool
}.

Section Scan.
Context `{Platform} `{NodePlatform} `{Locale} `{WorkerHost} `{SourceHost}.

Definition declared (now : time) (schedule : DiscoveredSchedule) : result declared_schedule :=
  match schedule with
  | MarkdownSchedule key cron sourcePath _ =>
      match getNextRunAt cron now with
      | Ok next => Ok (mk_declared_schedule key "markdown" (Some cron) (Some "UTC") true true sourcePath (Some next))
      | Err e => Err e
      end
  | ModuleSchedule key sourcePath =>
      Ok (mk_declared_schedule key "typescript" None None true true sourcePath None)
  end.

Definition rootFileExists (rootDir fileName : string) : Work bool :=
  hosted (fun _ => HostCall "stat") (fun log => Ok (root_file rootDir fileName log)).

Definition inspectRuntimeCommandContext (rootDir : string) : Work command_context :=
  hasPnpmLockfile <- rootFileExists rootDir "pnpm-lock.yaml" ;;
  hasNpmLockfile <- rootFileExists rootDir "package-lock.json" ;;
  ret (if hasPnpmLockfile then mk_command_context (Some "pnpm") true
       else mk_command_context (Some "npm") hasNpmLockfile).

Definition scanEveSource (kind sourcePath : string) (commitSha : option string) : Work scan_result :=
  entries <- hosted (fun _ => HostCall "readdir") (source_tree sourcePath) ;;
  let files := collectSourceFiles entries in
  let inspection := inspectEveProject files in
  context <- inspectRuntimeCommandContext sourcePath ;;
  throw_if (negb (bool_decide (in_errors inspection = [])))
    (Error ("Invalid eve project: " +:+ String.concat " " (in_errors inspection))) ;;
  now <- date_now ;;
  schedules <- lift (map_result (declared now) (in_schedules inspection)) ;;
  let result := mk_scan kind sourcePath commitSha (summary_json inspection context) (in_envVars inspection)
                  files schedules in
  match nul_field "" (scan_json result) with
  | Some fieldPath => throw (Error ("Source scan result contains a NUL character at " +:+ fieldPath +:+ "."))
  | None => ret result
  end.
End Scan.

(** ** What is kept of a directory *)

Open Scope list_scope.

Lemma tree_entry_induction (P : tree_entry -> Prop) :
  (forall size text, P (TextFile size text)) ->
  (forall entries, Forall (fun e => P e.2) entries -> P (Folder entries)) ->
  P OtherEntry -> forall e, P e.
Proof.
  intros Hfile Hfolder Hother. fix IH 1. intros [size text|entries|]; [apply Hfile| |apply Hother].
  apply Hfolder. induction entries as [|[name e] entries IHe]; constructor; [apply IH|exact IHe].
Qed.

Lemma json_induction (P : json -> Prop) :
  P JNull -> (forall b, P (JBool b)) -> (forall n, P (JNum n)) -> (forall s, P (JStr s)) ->
  (forall l, Forall P l -> P (JArr l)) -> (forall fields, Forall (fun kv => P kv.2) fields -> P (JObj fields)) ->
  forall j, P j.
Proof.
  intros Hnull Hbool Hnum Hstr Harr Hobj. fix IH 1. intros [|b|n|s|l|fields]; [apply Hnull|apply Hbool|apply Hnum|apply Hstr| |].
  - apply Harr. induction l as [|x l IHl]; constructor; [apply IH|exact IHl].
  - apply Hobj. induction fields as [|[k v] fields IHf]; constructor; [apply IH|exact IHf].
Qed.

(** The file at these segments below an entry, and its text: not hidden, in no
    ignored directory, not large, readable and text. *)
Inductive kept : string -> tree_entry -> list string -> string -> Prop :=
  | kept_file name size text :
      skipped name = false -> (size <= maxTextFileBytes)%Z -> includes nul text = false ->
      kept name (TextFile size (Some text)) [name] text
  | kept_inside name entries inner e segments text :
      skipped name = false -> name ∉ ignoredDirectories -> (inner, e) ∈ entries ->
      kept inner e segments text -> kept name (Folder entries) (name :: segments) text.

Section Kept.
Context `{Locale}.

Lemma collect_entry_kept dir name e p c :
  (p, c) ∈ collect_entry dir name e <-> exists segments, kept name e segments c /\ p = path_join (dir ++ segments).
Proof.
  revert dir name p c. induction e as [size text|entries IH|] using tree_entry_induction; intros dir name p c;
    cbn [collect_entry]; destruct (skipped name) eqn:Hskip.
  - split; [by intros ?%not_elem_of_nil|]. intros (segs & Hk & _). inversion Hk; congruence.
  - split.
    + destruct (maxTextFileBytes <? size)%Z eqn:Hsize; [by intros ?%not_elem_of_nil|]. apply Z.ltb_ge in Hsize.
      destruct text as [text|]; [|by intros ?%not_elem_of_nil].
      destruct (includes nul text) eqn:Hnul; [by intros ?%not_elem_of_nil|].
      intros [= -> ->]%list_elem_of_singleton. exists [name]. split; [by constructor|done].
    + intros (segs & Hk & ->). inversion Hk as [? ? ? ? Hsize Hnul|]; subst. apply Z.ltb_ge in Hsize.
      rewrite Hsize, Hnul. by apply list_elem_of_singleton.
  - split; [by intros ?%not_elem_of_nil|]. intros (segs & Hk & _). inversion Hk; congruence.
  - case_bool_decide as Hignored.
    { split; [by intros ?%not_elem_of_nil|]. intros (segs & Hk & _). inversion Hk; tauto. }
    rewrite elem_of_order_by, list_elem_of_In, in_flat_map. rewrite Forall_forall in IH. split.
    + intros ([inner e] & Hin%list_elem_of_In & Hc%list_elem_of_In). simpl in Hc.
      apply (IH _ Hin) in Hc as (segs & Hk & ->). exists (name :: segs).
      split; [by eapply kept_inside|]. by rewrite <- app_assoc.
    + intros (segs & Hk & ->). inversion Hk as [|? ? inner e segments ? ? ? Hin Hinner]; subst.
      exists (inner, e). split; [by apply list_elem_of_In|]. apply list_elem_of_In. simpl.
      apply (IH _ Hin). exists segments. split; [done|]. by rewrite <- app_assoc.
  - split; [by intros ?%not_elem_of_nil|]. intros (segs & Hk & _). inversion Hk; congruence.
  - split; [by intros ?%not_elem_of_nil|]. intros (segs & Hk & _). inversion Hk; congruence.
Qed.

Lemma collectSourceFiles_kept entries p c :
  (p, c) ∈ collectSourceFiles entries <->
  exists name e segments, (name, e) ∈ entries /\ kept name e segments c /\ p = path_join segments.
Proof.
  unfold collectSourceFiles. rewrite elem_of_order_by, list_elem_of_In, in_flat_map. split.
  - intros ([name e] & Hin%list_elem_of_In & Hc%list_elem_of_In). apply collect_entry_kept in Hc as (segs & Hk & ->). eauto 6.
  - intros (name & e & segs & Hin & Hk & ->). exists (name, e). split; [by apply list_elem_of_In|].
    apply list_elem_of_In, collect_entry_kept. eauto.
Qed.
End Kept.

(** ** A result without NUL *)

(** A text within a value. *)
Inductive json_text (s : string) : json -> Prop :=
  | text_here : json_text s (JStr s)
  | text_in_array l x : x ∈ l -> json_text s x -> json_text s (JArr l)
  | text_in_object fields key x : (key, x) ∈ fields -> json_text s x -> json_text s (JObj fields).

Lemma nul_field_none s j fieldPath : json_text s j -> nul_field fieldPath j = None -> includes nul s = false.
Proof.
  intros Ht. revert fieldPath. induction Ht as [|l x Hin Ht IH|fields key x Hin Ht IH]; intros fieldPath; cbn [nul_field].
  - by destruct (includes nul s).
  - generalize 0. revert Hin. induction l as [|y l IHl]; intros Hin n; [by apply not_elem_of_nil in Hin|].
    apply elem_of_cons in Hin as [<-|Hin].
    + destruct (nul_field _ x) eqn:Hx; [done|]. intros _. by apply (IH _ Hx).
    + destruct (nul_field _ y); [done|]. simpl. by apply IHl.
  - revert Hin. induction fields as [|[k y] fields IHf]; intros Hin; [by apply not_elem_of_nil in Hin|].
    apply elem_of_cons in Hin as [[= <- <-]|Hin].
    + destruct (nul_field _ x) eqn:Hx; [done|]. intros _. by apply (IH _ Hx).
    + destruct (nul_field _ y); [done|]. simpl. by apply IHf.
Qed.

Lemma nul_field_some j fieldPath found :
  nul_field fieldPath j = Some found -> exists s, json_text s j /\ includes nul s = true.
Proof.
  revert fieldPath found. induction j as [| | |s|l IH|fields IH] using json_induction; intros fieldPath found; cbn [nul_field];
    try done.
  - destruct (includes nul s) eqn:Hs; [|done]. intros _. exists s. split; [constructor|done].
  - generalize 0. induction IH as [|x l Hx _ IHl]; [done|]. intros n.
    destruct (nul_field _ x) as [p|] eqn:Hp; simpl.
    + intros _. destruct (Hx _ _ Hp) as (s & Hs & Hnul). exists s. split; [|done]. by eapply text_in_array; [left|].
    + intros Hrest. destruct (IHl _ Hrest) as (s & Hs & Hnul). exists s. split; [|done].
      inversion Hs as [|? y Hin Hy|]; subst. by eapply text_in_array; [right|].
  - induction IH as [|[k x] fields Hx _ IHf]; [done|].
    destruct (nul_field _ x) as [p|] eqn:Hp; simpl.
    + intros _. destruct (Hx _ _ Hp) as (s & Hs & Hnul). exists s. split; [|done]. by eapply text_in_object; [left|].
    + intros Hrest. destruct (IHf Hrest) as (s & Hs & Hnul). exists s. split; [|done].
      inversion Hs as [| |? key y Hin Hy]; subst. by eapply text_in_object; [right|].
Qed.

(** ** What a scan accepts *)

Section Gathered.
Context `{Platform} `{NodePlatform}.

(** A field of what is gathered, to which each file adds what [f] says. *)
Lemma gather_field {A} (root : string) (field : gathered -> list A) (f : string * string -> list A) :
  (forall g file, field (gather_file root g file) = field g ++ f file) ->
  forall files g, field (fold_left (gather_file root) files g) = field g ++ flat_map f files.
Proof.
  intros Hf files. induction files as [|file files IH]; intros g; simpl; [by rewrite app_nil_r|].
  by rewrite IH, Hf, <- app_assoc.
Qed.

Lemma gathered_instructions root files :
  su_instructions (ga_summary (fold_left (gather_file root) files (mk_gathered emptySummary [] []))) = [] <->
  Forall (fun file => isInstructionPath file.1 root = false) files.
Proof.
  rewrite (gather_field root (fun g => su_instructions (ga_summary g))
             (fun file => if isInstructionPath file.1 root then [file.1] else [])).
  2: { intros g [p c]. simpl. unfold pushed. destruct (isInstructionPath p root); [done|by rewrite app_nil_r]. }
  simpl. induction files as [|[p c] files IH]; simpl; [by split|]. rewrite Forall_cons, <- IH. simpl.
  destruct (isInstructionPath p root); simpl; [|tauto]. split; [done|by intros [? _]].
Qed.

Lemma gathered_schedules root files d :
  d ∈ ga_schedules (fold_left (gather_file root) files (mk_gathered emptySummary [] [])) <->
  exists file, file ∈ files /\ is_schedule_file root file.1 = true /\ parseScheduleSource file.1 file.2 = Ok d.
Proof.
  rewrite (gather_field root ga_schedules (fun file => if is_schedule_file root file.1 then
             match parseScheduleSource file.1 file.2 with Ok d => [d] | Err _ => [] end else [])).
  2: { intros g [p c]. simpl. destruct (is_schedule_file root p), (parseScheduleSource p c);
         [done|by rewrite app_nil_r..]. }
  simpl. rewrite list_elem_of_In, in_flat_map. split.
  - intros (file & Hin%list_elem_of_In & Hd%list_elem_of_In). exists file. split; [done|].
    destruct (is_schedule_file root file.1); [|by apply not_elem_of_nil in Hd].
    destruct (parseScheduleSource file.1 file.2); [|by apply not_elem_of_nil in Hd].
    apply list_elem_of_singleton in Hd as ->. done.
  - intros (file & Hin & Hs & Hp). exists file. split; [by apply list_elem_of_In|].
    rewrite Hs, Hp. by left.
Qed.

Lemma dedupe_nil l : dedupe l = [] <-> l = [].
Proof.
  split; [|by intros ->]. intros Hl. destruct l as [|x l]; [done|]. exfalso.
  apply (not_elem_of_nil x). rewrite <- Hl. apply elem_of_order_by, elem_of_js_set. left.
Qed.

(** The files as the inspection names them. *)
Definition named (files : list (string * string)) : list (string * string) :=
  (fun file => (normalizeSourcePath file.1, file.2)) <$> files.

(** An Eve project: it has instructions, in the [agent] directory or at its root,
    and declares a version of Eve that is supported. *)
Definition eve_project (files : list (string * string)) : Prop :=
  (exists root file, root ∈ ["agent/"; ""] /\ file ∈ named files /\ isInstructionPath file.1 root = true) /\
  isSupportedEveDependency (readDeclaredEveVersion (named files)) = true.

Lemma detectLayout_known paths :
  detectLayout paths <> None <->
  exists root p, root ∈ ["agent/"; ""] /\ p ∈ paths /\ isInstructionPath p root = true.
Proof.
  unfold detectLayout. destruct (existsb _ paths) eqn:Hnested.
  { apply existsb_exists in Hnested as (p & Hin%list_elem_of_In & Hp). split; [|done]. intros _.
    exists "agent/"%string, p. split; [left|done]. }
  destruct (existsb (fun p => isInstructionPath p "") paths) eqn:Hflat.
  { apply existsb_exists in Hflat as (p & Hin%list_elem_of_In & Hp). split; [|done]. intros _.
    exists ""%string, p. split; [right; left|done]. }
  split; [done|]. intros (root & p & Hroot & Hin%list_elem_of_In & Hp).
  apply elem_of_cons in Hroot as [->|Hroot%list_elem_of_singleton]; [|subst].
  - assert (existsb (fun p => isInstructionPath p "agent/") paths = true) by (apply existsb_exists; eauto). congruence.
  - assert (existsb (fun p => isInstructionPath p "") paths = true) by (apply existsb_exists; eauto). congruence.
Qed.

Lemma layout_instructions (files : list (string * string)) l :
  detectLayout (fst <$> files) = Some l ->
  ~ Forall (fun file => isInstructionPath file.1 (layout_root (Some l)) = false) files.
Proof.
  rewrite Forall_forall. unfold detectLayout. intros Hl Hnone.
  assert (Hfound : existsb (fun p => isInstructionPath p (layout_root (Some l))) (fst <$> files) = true).
  { destruct (existsb _ _) eqn:Hnested in Hl; [by injection Hl as <-|].
    destruct (existsb _ _) eqn:Hflat in Hl; [|done]. by injection Hl as <-. }
  apply existsb_exists in Hfound as (p & Hin & Hp). apply list_elem_of_In, list_elem_of_fmap in Hin as ([q c] & -> & Hin).
  specialize (Hnone _ Hin). simpl in *. congruence.
Qed.

Lemma inspection_valid files : in_errors (inspectEveProject files) = [] <-> eve_project files.
Proof.
  unfold inspectEveProject, eve_project, in_errors. fold (named files). cbv zeta.
  set (g := fold_left _ _ _). cbn [dedupeSummary su_instructions].
  assert (Hfound : (detectLayout (fst <$> named files) <> None /\ dedupe (su_instructions (ga_summary g)) <> []) <->
    exists root file, root ∈ ["agent/"; ""]%string /\ file ∈ named files /\ isInstructionPath file.1 root = true).
  { transitivity (detectLayout (fst <$> named files) <> None).
    - split; [tauto|]. intros Hl. split; [done|]. rewrite dedupe_nil. unfold g. rewrite gathered_instructions.
      destruct (detectLayout (fst <$> named files)) as [l|] eqn:Hd; [|done]. by apply layout_instructions.
    - rewrite detectLayout_known. split.
      + intros (root & p & Hroot & Hin & Hp). apply list_elem_of_fmap in Hin as (file & -> & Hin). eauto.
      + intros (root & file & Hroot & Hin & Hp). exists root, file.1.
        split; [done|]. split; [by apply list_elem_of_fmap_2|done]. }
  destruct (isSupportedEveDependency _).
  - rewrite app_nil_r. case_bool_decide as Hl; [|case_bool_decide as Hi]; simpl; (split; [|tauto]); intros ?; [done..|tauto].
  - split; [|by intros [_ ?]]. by intros [_ ?]%app_eq_nil.
Qed.
End Gathered.

Lemma map_result_ok {A B} (f : A -> result B) l l' :
  map_result f l = Ok l' -> forall b, b ∈ l' <-> exists a, a ∈ l /\ f a = Ok b.
Proof.
  revert l'. induction l as [|a l IH]; intros l' Hl b; simpl in Hl.
  - injection Hl as <-. split; [by intros ?%not_elem_of_nil|]. by intros (a & ?%not_elem_of_nil & _).
  - destruct (f a) as [x|] eqn:Hx; [|done]. destruct (map_result f l) as [xs|]; [|done]. injection Hl as <-.
    rewrite elem_of_cons, (IH xs eq_refl). split.
    + intros [->|(c & Hc & Hf)]; [exists a; split; [left|done]|exists c; split; [by right|done]].
    + intros (c & [->|Hc]%elem_of_cons & Hf); [left; congruence|eauto].
Qed.

Lemma map_result_err {A B} (f : A -> result B) l e : map_result f l = Err e -> exists a, a ∈ l /\ f a = Err e.
Proof.
  induction l as [|a l IH]; simpl; [done|]. destruct (f a) as [x|e'] eqn:Hx.
  - destruct (map_result f l); [done|]. intros [= ->]. destruct IH as (c & Hc & Hf); [done|].
    exists c. split; [by right|done].
  - intros [= ->]. exists a. split; [left|done].
Qed.

Section Scanned.
Context `{Platform} `{NodePlatform} `{Locale} `{WorkerHost} `{SourceHost}.

(** A schedule that a file of the project declares: its root is the [agent]
    directory. *)
Definition declares (files : list (string * string)) (d : DiscoveredSchedule) : Prop :=
  exists file, file ∈ named files /\
    is_schedule_file (layout_root (detectLayout (fst <$> named files))) file.1 = true /\
    parseScheduleSource file.1 file.2 = Ok d.

Lemma inspected_schedules files d : d ∈ in_schedules (inspectEveProject files) <-> declares files d.
Proof. apply gathered_schedules. Qed.

(** The package manager that the lockfiles at the root tell, as of the log before
    the scan. *)
Definition found_context (rootDir : string) (log : list work_event) : command_context :=
  let listed := log ++ [Host (HostCall "readdir")] in
  if root_file rootDir "pnpm-lock.yaml" listed then mk_command_context (Some "pnpm") true
  else mk_command_context (Some "npm")
         (root_file rootDir "package-lock.json" (listed ++ [Host (HostCall "stat")])).

Lemma context_run rootDir w r w' :
  inspectRuntimeCommandContext rootDir w = (r, w') ->
  r = Ok (if root_file rootDir "pnpm-lock.yaml" (w_log w) then mk_command_context (Some "pnpm") true
          else mk_command_context (Some "npm")
                 (root_file rootDir "package-lock.json" (w_log w ++ [Host (HostCall "stat")]))).
Proof.
  unfold inspectRuntimeCommandContext, rootFileExists, hosted, settle, bind, ret. simpl. by intros [= <- _].
Qed.

(** A launch reads the command context back from the summary. *)
Lemma context_read_back rootDir log inspection :
  parseRuntimeCommandContext
    (json_get "runtimeCommandContext" (summary_json inspection (found_context rootDir log)))
  = Some (found_context rootDir log).
Proof. unfold found_context. by destruct (root_file rootDir "pnpm-lock.yaml" _). Qed.

(** What a scan answers, of these files at this time. *)
Definition scan_of (kind sourcePath : string) (commitSha : option string) (log : list work_event)
    (files : list (string * string)) (schedules : list declared_schedule) : scan_result :=
  mk_scan kind sourcePath commitSha (summary_json (inspectEveProject files) (found_context sourcePath log))
    (in_envVars (inspectEveProject files)) files schedules.

(** The scan up to its files, and after. *)
Lemma scan_run_from kind sourcePath commitSha w r w' :
  scanEveSource kind sourcePath commitSha w = (r, w') ->
  match source_tree sourcePath (w_log w) with
  | Err e => r = Err e
  | Ok tree =>
      let files := collectSourceFiles tree in
      let inspection := inspectEveProject files in
      (in_errors inspection <> [] /\
       r = Err (Error ("Invalid eve project: " +:+ String.concat " " (in_errors inspection)))) \/
      (in_errors inspection = [] /\
       match map_result (declared (st_clock (w_store w'))) (in_schedules inspection) with
       | Err e => r = Err e
       | Ok schedules =>
           let scan := scan_of kind sourcePath commitSha (w_log w) files schedules in
           match nul_field "" (scan_json scan) with
           | Some fieldPath =>
               r = Err (Error ("Source scan result contains a NUL character at " +:+ fieldPath +:+ "."))
           | None => r = Ok scan
           end
       end)
  end.
Proof.
  intros Hrun. unfold scanEveSource in Hrun.
  apply bind_run in Hrun as [(e' & Hh & ->)|(tree & w1 & Hh & Hrun)].
  { injection Hh as He _. simpl in He. by rewrite He. }
  injection Hh as He Hw1. simpl in He. rewrite He. cbv zeta in *.
  apply bind_run in Hrun as [(e' & Hc & _)|(context & w2 & Hc & Hrun)]; [by apply context_run in Hc|].
  apply context_run in Hc as [= Hctx]. subst w1. cbn [w_log] in Hctx.
  fold (found_context sourcePath (w_log w)) in Hctx. subst context.
  apply bind_run in Hrun as [(e' & Hv & ->)|([] & w3 & Hv & Hrun)].
  { left. case_bool_decide as Hv'; [done|]. split; [done|]. by injection Hv as <-. }
  right. case_bool_decide as Hv'; [|done]. split; [done|].
  apply bind_run in Hrun as [(e' & Hn & _)|(now & w4 & Hn & Hrun)]; [done|].
  injection Hn as Hnow Hw4.
  assert (Hclock : now = st_clock (w_store w4)) by (by subst). clear Hnow Hw4. subst now.
  apply bind_run in Hrun as [(e' & Hl & ->)|(schedules & w5 & Hl & Hrun)];
    pose proof (f_equal snd Hl) as Hw; apply (f_equal fst) in Hl; cbn [lift fst snd] in Hl, Hw; subst.
  - by rewrite Hl.
  - assert (Hend : w' = w5) by (destruct (nul_field _ _); by injection Hrun). subst w'.
    rewrite Hl. unfold scan_of. cbv zeta. by destruct (nul_field _ _); injection Hrun.
Qed.

(** A scan that returns. *)
Lemma scan_ok kind sourcePath commitSha w scan w' :
  scanEveSource kind sourcePath commitSha w = (Ok scan, w') ->
  exists tree schedules,
    source_tree sourcePath (w_log w) = Ok tree /\
    scan = scan_of kind sourcePath commitSha (w_log w) (collectSourceFiles tree) schedules /\
    eve_project (collectSourceFiles tree) /\
    map_result (declared (st_clock (w_store w'))) (in_schedules (inspectEveProject (collectSourceFiles tree)))
    = Ok schedules /\
    (forall s, json_text s (scan_json scan) -> includes nul s = false).
Proof.
  intros Hrun%scan_run_from. destruct (source_tree _ _) as [tree|]; [|done].
  destruct Hrun as [[_ [=]]|[Hv Hrun]]. destruct (map_result _ _) as [schedules|] eqn:Hs; [|done].
  cbv zeta in Hrun. destruct (nul_field _ _) as [p|] eqn:Hnul; [done|]. injection Hrun as ->.
  exists tree, schedules. split; [done|]. split; [done|]. split; [by apply inspection_valid|].
  split; [done|]. intros s Ht. by eapply nul_field_none.
Qed.

(** C36. A scan keeps exactly the files of the directory that are not hidden, in no
    ignored directory, not large and text.  It accepts them only if they are an Eve
    project, and then answers with them, with the version of Eve they declare and
    with the schedules they declare, each with its next run; no text of what it
    answers holds a NUL, and a launch reads from it the package manager of its
    lockfiles.  It refuses only a directory that cannot be listed, with that error;
    files that are no Eve project, naming what they lack; an Eve project that
    declares a schedule with no next run, with that error; or one for which the
    very answer it would have given, of these files and their schedules, has a NUL
    in it. *)
Theorem scanEveSource_mirrors_the_source kind sourcePath commitSha w r w' :
  scanEveSource kind sourcePath commitSha w = (r, w') ->
  match source_tree sourcePath (w_log w) with
  | Err e => r = Err e
  | Ok tree =>
      let files := collectSourceFiles tree in
      let now := st_clock (w_store w') in
      let scheduled schedules :=
        forall s, s ∈ schedules <-> exists d, declares files d /\ declared now d = Ok s in
      (forall p c, (p, c) ∈ files <->
         exists name e segments, (name, e) ∈ tree /\ kept name e segments c /\ p = path_join segments) /\
      match r with
      | Ok scan =>
          eve_project files /\
          (exists schedules, scan = scan_of kind sourcePath commitSha (w_log w) files schedules /\
             scheduled schedules) /\
          json_string (json_get "eveVersion" (sr_summary scan)) = readDeclaredEveVersion (named files) /\
          parseRuntimeCommandContext (json_get "runtimeCommandContext" (sr_summary scan))
          = Some (found_context sourcePath (w_log w)) /\
          (forall s, json_text s (scan_json scan) -> includes nul s = false)
      | Err e =>
          (~ eve_project files /\
             e = Error ("Invalid eve project: " +:+ String.concat " " (in_errors (inspectEveProject files)))) \/
          (eve_project files /\ exists d, declares files d /\ declared now d = Err e) \/
          (eve_project files /\ exists schedules s, scheduled schedules /\
             json_text s (scan_json (scan_of kind sourcePath commitSha (w_log w) files schedules)) /\
             includes nul s = true)
      end
  end.
Proof.
  intros Hrun%scan_run_from. destruct (source_tree sourcePath (w_log w)) as [tree|e']; [|done]. cbv zeta in *.
  split; [intros p c; apply collectSourceFiles_kept|]. set (files := collectSourceFiles tree) in *.
  destruct Hrun as [[Hv ->]|[Hv Hrun]]; rewrite inspection_valid in Hv; [by left|].
  destruct (map_result _ _) as [schedules|e] eqn:Hs.
  2: { subst r. right. left. split; [done|]. apply map_result_err in Hs as (d & Hd%inspected_schedules & He'). eauto. }
  assert (Hscheduled : forall s, s ∈ schedules <->
    exists d, declares files d /\ declared (st_clock (w_store w')) d = Ok s).
  { intros s. rewrite (map_result_ok _ _ _ Hs). by setoid_rewrite inspected_schedules. }
  destruct (nul_field _ _) as [p|] eqn:Hnul; subst r.
  - right. right. split; [done|]. apply nul_field_some in Hnul as (s & Ht & Hn). by exists schedules, s.
  - split; [done|]. split; [by exists schedules|]. split.
    { change (json_string (Some (text_or_null (readDeclaredEveVersion (named files)))) = readDeclaredEveVersion (named files)).
      by destruct (readDeclaredEveVersion (named files)). }
    split; [apply context_read_back|]. intros s Ht. by eapply nul_field_none.
Qed.
End Scanned.

(** ** A project with one schedule *)

Definition package_text : string := "{}".

Definition package_node : NodePlatform := {|
  hmac_sha256 secret data := secret;
  sha256 data := data;
  json_parse text := Some (JObj [("name", JStr "agent"); ("dependencies", JObj [("eve", JStr "~1.0.0")])])%string;
  js_number _ := js_zero;
  number_string _ := "0"
|}.

Definition line (s : string) : string := (s +:+ newline)%string.

Definition sample_tree : list (string * tree_entry) :=
  [("package.json", TextFile 2 (Some package_text)); (".git", Folder [("config", TextFile 1 (Some "x"))]);
   ("agent", Folder
      [("instructions.md", TextFile 9 (Some "Be brief."));
       ("schedules", Folder [("weekly.md",
          TextFile 30 (Some (line "---" +:+ line "cron: 0 9 * * 1" +:+ line "---" +:+ "Report.")))]);
       ("tools", Folder [("logo.png", TextFile 4 (Some (String nul ""))); ("search.ts", TextFile 8 (Some "process.env.API_KEY"));
                         ("dist", Folder [("search.ts", TextFile 1 (Some "x"))])])])]%string.

Definition sample_source_host : SourceHost := {|
  source_tree := fun _ _ => Ok sample_tree;
  root_file := fun _ name _ => bool_decide (name = "package-lock.json"%string)
|}.

Abbreviation scan_run :=
  (@scanEveSource sample_platform package_node sample_locale still_host sample_source_host "git" "/src" None sample_world).

Definition scanned : scan_result :=
  match scan_run.1 with Ok scan => scan | Err _ => mk_scan "" "" None JNull [] [] [] end.

(** A directory with no instructions. *)
Abbreviation bare_run :=
  (@scanEveSource sample_platform package_node sample_locale still_host
     {| source_tree := fun _ _ => Ok (take 1 sample_tree); root_file := fun _ _ _ => false |}
     "git" "/src" None sample_world).

Lemma scanEveSource_mirrors_the_source_witness :
  (scan_run.1 = Ok scanned /\
   fst <$> sr_files scanned = ["agent/instructions.md"; "agent/schedules/weekly.md"; "agent/tools/search.ts"; "package.json"]%string /\
   sr_envVars scanned = ["API_KEY"]%string /\ dsc_name <$> sr_schedules scanned = ["weekly"]%string /\
   @eve_project package_node (@collectSourceFiles sample_locale sample_tree)) /\
  bare_run.1 = Err (Error ("Invalid eve project: " +:+ String.concat " "
    (in_errors (@inspectEveProject sample_platform package_node (@collectSourceFiles sample_locale (take 1 sample_tree)))))).
Proof.
  split.
  - assert (Hok : scan_run.1 = Ok scanned) by (vm_compute; reflexivity).
    split; [exact Hok|]. split; [vm_compute; reflexivity|]. split; [vm_compute; reflexivity|].
    split; [vm_compute; reflexivity|].
    assert (Hproject : forall scan w', scan_run = (Ok scan, w') ->
      @eve_project package_node (@collectSourceFiles sample_locale sample_tree)).
    { intros scan w' Hrun. apply scanEveSource_mirrors_the_source in Hrun as [_ [Hproject _]]. exact Hproject. }
    apply (Hproject scanned scan_run.2). rewrite <- Hok. apply surjective_pairing.
  - assert (Herr : is_ok bare_run.1 = false) by (vm_compute; reflexivity).
    assert (Hno : ~ @eve_project package_node (@collectSourceFiles sample_locale (take 1 sample_tree)))
      by (rewrite <- (@inspection_valid sample_platform package_node); vm_compute; discriminate).
    assert (Hbare : forall r w', bare_run = (r, w') -> is_ok r = false ->
      r = Err (Error ("Invalid eve project: " +:+ String.concat " "
        (in_errors (@inspectEveProject sample_platform package_node (@collectSourceFiles sample_locale (take 1 sample_tree))))))).
    { intros r w' Hrun Hr. apply scanEveSource_mirrors_the_source in Hrun as [_ Hcases].
      destruct r as [scan|e]; [discriminate Hr|].
      destruct Hcases as [[_ He]|[[Hyes _]|[Hyes _]]]; [exact (f_equal Err He)|contradiction..]. }
    exact (Hbare bare_run.1 bare_run.2 (surjective_pairing _) Herr).
Defined.

Example chat_channel_found :
  detectsEveChatCapability
    [("agent/channels/eve.ts"%string,
      (line "import { eveChannel } from 'eve/channels/eve';" +:+ "export default eveChannel({});")%string)] "agent/" = true.
Proof. vm_compute. reflexivity. Qed.
