(* ===== verification/ImportJob.v ===== *)
(** * Importing a source

    [apps/worker/src/jobs/process-import-source.ts] and
    [process-source-preflight.ts]: the job that imports a project's source, the
    inspection of a source before there is a project, and what expires with it. *)

From stdpp Require Import pretty.
From S2P Require Import Prelude Strings Encoding Schema Store Tables Sample Jobs Cron Projects Sources Discovery Worker Traces Activation Launch RuntimeJobs JobRuns ScheduleJob GitImport SourceScan.

Open Scope eve_scope.
Open Scope string_scope.

(** The directory of the worker's data, the options of a clone. *)
Record import_options : Type := mk_import_options { io_dataDir : string; io_git : git_options }.

(** [attempt-${attempts}] *)
Definition attempt_dir (attempts : Z) : string := "attempt-" +:+ pretty attempts.

(** A boolean of a payload, [None] when it has none. *)
Definition payload_bool (job : job_view) (key : string) : option bool :=
  match payload_field job key with Some (JBool b) => Some b | _ => None end.

(** [job.payload.gitCredential ?? null] *)
Definition payload_credential (job : job_view) : option job_git_credential :=
  c ← payload_field job "gitCredential";
  userId ← json_string (json_get "userId" c);
  host ← json_string (json_get "host" c);
  token ← json_string (json_get "encryptedToken" c);
  Some (mk_job_credential userId host token
          (match json_get "persistAfterImport" c with Some (JBool b) => b | _ => false end)).

Definition credential_of (c : option job_git_credential) : option (string * string) :=
  (fun c => (jg_host c, jg_encryptedToken c)) <$> c.

Section ImportJob.
Context `{Platform} `{NodePlatform} `{Locale} `{UrlPlatform} `{WorkerHost} `{LaunchHost} `{JobHost}
  `{AbortSignal} `{GitHost} `{SourceHost}.

(** ** [import_source] *)

Definition import_kind_of (job : job_view) (project : Project.project_row) : string :=
  default (kind_text (Project.importKind project)) (payload_string job "importKind").

Definition clone_dir (job : job_view) (options : import_options) : string :=
  path_join [io_dataDir options; "sources"; JobView.projectId job; JobView.id job; attempt_dir (JobView.attempts job)].

Definition on_retry (job : job_view) (attempt : Z) (detail : string) : Work unit :=
  throw_if_aborted ;;
  job_log (JobView.projectId job) None "build"
    ("Retrying repository fetch (attempt " +:+ pretty attempt +:+ "): " +:+ detail) ;;
  throw_if_aborted.

(** Where the source is, and its commit when it was cloned. *)
Definition obtain_source (job : job_view) (options : import_options) (project : Project.project_row)
    : Work (option string * option string) :=
  match truthy (payload_string job "sourcePath") with
  | Some sourcePath => ret (Some sourcePath, None)
  | None =>
      if bool_decide (import_kind_of job project = "git") then
        match truthy (or_else (payload_string job "gitUrl") (Project.gitUrl project)) with
        | None => throw (Error "Git import missing gitUrl.")
        | Some gitUrl =>
            commitSha <- materializeGitSource (io_git options) gitUrl (clone_dir job options)
                           (credential_of (payload_credential job)) (Some (on_retry job)) ;;
            ret (Some (clone_dir job options), commitSha)
        end
      else ret (None, None)
  end.

(** The input of [recordSourceRevision]. *)
Definition revision_of (job : job_view) (commitSha : option string) (scan : scan_result) : revision_input :=
  mk_revision_input (JobView.projectId job) (sr_kind scan) (sr_commitSha scan)
    (or_else (payload_string job "origin") (match commitSha with Some _ => Some "git-sync" | None => None end))
    (payload_string job "baseCommitSha") (payload_bool job "dirty") (payload_string job "uploadedBy")
    (sr_sourcePath scan) (sr_summary scan) (texts (sr_envVars scan)) (sr_files scan) (sr_schedules scan).

Definition record_revision (input : revision_input) : Work SourceRevision.source_revision_row :=
  stored (fun r => RecordRevision input (is_ok r)) (recordSourceRevision input).

Definition save_credential (job : job_view) : Work unit :=
  match payload_credential job with
  | Some c =>
      if jg_persistAfterImport c then
        _row <- op "upsertGitCredential" (upsertGitCredential (jg_userId c) (jg_host c) (jg_encryptedToken c)) ;;
        throw_if_aborted
      else ret tt
  | None => ret tt
  end.

Definition deploy_payload (job : job_view) : json :=
  JObj [("promoteAfterDeploy", JBool (payload_true job "promoteAfterDeploy")); ("parentJobId", JStr (JobView.id job))].

Definition deploy_after_import (job : job_view) (project : Project.project_row) : Work unit :=
  if payload_true job "deployAfterImport" then
    _job <- stored (fun _ => EnqueueJob "build_deploy" (deploy_payload job))
              (enqueueJob (JobView.projectId job) "build_deploy" (Some (deploy_payload job))) ;;
    throw_if_aborted ;;
    job_log (JobView.projectId job) None "build"
      ("Queued deploy of the latest source for " +:+ Project.name project +:+ ".") ;;
    throw_if_aborted
  else ret tt.

Definition handleImportSourceJob (job : job_view) (options : import_options) : Work unit :=
  throw_if_aborted ;;
  found <- op "getProject" (getProject (JobView.projectId job)) ;;
  throw_if_aborted ;;
  project <- some_or found (Error ("Project " +:+ JobView.projectId job +:+ " not found.")) ;;
  obtained <- obtain_source job options project ;;
  throw_if_aborted ;;
  sourcePath <- some_or obtained.1 (Error "Source import missing sourcePath.") ;;
  scan <- scanEveSource (import_kind_of job project) sourcePath obtained.2 ;;
  throw_if_aborted ;;
  _row <- record_revision (revision_of job obtained.2 scan) ;;
  throw_if_aborted ;;
  save_credential job ;;
  job_log (JobView.projectId job) None "build" ("Source import completed for " +:+ Project.name project +:+ ".") ;;
  throw_if_aborted ;;
  deploy_after_import job project.

(** ** Preflights

    A heartbeat renews the claim while the work runs, and a heartbeat that the row
    refuses aborts the signal: the others may write the row between any two calls,
    and [signal_aborted] may abort after any. *)

(** The directory an attempt clones into, when it clones. *)
Definition managed_attempt_dir (preflight : preflight_record) (options : import_options) : option string :=
  match truthy (pf_sourcePath preflight), truthy (pf_gitUrl preflight) with
  | None, Some _ =>
      if bool_decide (pf_kind preflight = ImportKind.git)
      then Some (path_join [io_dataDir options; "preflights"; pf_id preflight; attempt_dir (pf_attempts preflight)])
      else None
  | _, _ => None
  end.

(** The source of a preflight and its commit. *)
Definition preflight_source (preflight : preflight_record) (options : import_options)
    : Work (option string * option string) :=
  match truthy (pf_sourcePath preflight) with
  | Some sourcePath => ret (Some sourcePath, pf_commitSha preflight)
  | None =>
      if bool_decide (pf_kind preflight = ImportKind.git) then
        match truthy (pf_gitUrl preflight), managed_attempt_dir preflight options with
        | Some gitUrl, Some managedAttemptDir =>
            let sourcePath := path_join [managedAttemptDir; "source"] in
            commitSha <- materializeGitSource (io_git options) gitUrl sourcePath
                           (credential_of (pf_gitCredential preflight)) None ;;
            ret (Some sourcePath, commitSha)
        | _, _ => throw (Error "Git preflight missing gitUrl.")
        end
      else ret (None, pf_commitSha preflight)
  end.

Definition complete_preflight (preflight : preflight_record) (result : preflight_result) : Work bool :=
  stored (fun r => SettlePreflight (pf_id preflight) true (match r with Ok held => held | Err _ => false end))
    (completeSourcePreflight (pf_id preflight) (pf_attempts preflight) result).

Definition fail_preflight (preflight : preflight_record) (message : string) : Work bool :=
  stored (fun r => SettlePreflight (pf_id preflight) false (match r with Ok held => held | Err _ => false end))
    (failSourcePreflight (pf_id preflight) (pf_attempts preflight) message).

(** The [work] of the heartbeat. *)
Definition inspect_preflight (preflight : preflight_record) (options : import_options) : Work unit :=
  obtained <- preflight_source preflight options ;;
  sourcePath <- some_or obtained.1 (Error "Source preflight missing sourcePath.") ;;
  throw_if_aborted ;;
  scan <- scanEveSource (kind_text (pf_kind preflight)) sourcePath obtained.2 ;;
  throw_if_aborted ;;
  completed <- complete_preflight preflight (mk_preflight_result sourcePath obtained.2 (sr_summary scan)) ;;
  throw_if (negb completed) (Error ("Source preflight " +:+ pf_id preflight +:+ " lost its worker lease.")).

Definition runClaimedSourcePreflight (preflight : preflight_record) (options : import_options) : Work unit :=
  try_catch (inspect_preflight preflight options) (fun e =>
    match managed_attempt_dir preflight options with Some dir => rm dir | None => ret tt end ;;
    _held <- fail_preflight preflight (error_text e) ;;
    ret tt).

Definition processNextSourcePreflight (options : import_options) : Work bool :=
  preflight <- op "claimNextSourcePreflight" (claimNextSourcePreflight None) ;;
  match preflight with
  | None => ret false
  | Some preflight => runClaimedSourcePreflight preflight options ;; ret true
  end.

(** ** Expired preflights *)

(** The loop over [cursor], from the path to the root. *)
Fixpoint cleanup_cursor (fuel : nat) (root resolved cursor : string) : string :=
  match fuel with
  | O => resolved
  | S fuel =>
      if bool_decide (cursor = root) then resolved
      else
        let name := posixBasename cursor in
        if String.prefix "zip-" name || String.prefix "pre_" name then cursor
        else if bool_decide (dirname cursor = cursor) then resolved
        else cleanup_cursor fuel root resolved (dirname cursor)
  end.

(** What is removed for an expired path, if it is below the root. *)
Definition cleanup_target (root sourcePath : string) : option string :=
  let resolved := resolve_path sourcePath in
  if bool_decide (resolved = root) || negb (String.prefix (root +:+ "/") resolved) then None
  else Some (cleanup_cursor (S (String.length resolved)) root resolved resolved).

Definition cleanupExpiredSourcePreflights (dataDir : string) (now : option time) : Work Z :=
  paths <- op "expireSourcePreflights" (expireSourcePreflights now (Some (N.to_nat 25))) ;;
  fold_m (fun removed sourcePath =>
    match cleanup_target (resolve_path dataDir) sourcePath with
    | None => ret removed
    | Some target => rm target ;; ret (removed + 1)%Z
    end) paths 0%Z.
End ImportJob.

(** ** What an import records *)

Open Scope list_scope.

Inductive import_mark :=
  | Recorded (input : revision_input) (ok : bool)
  | CredentialSaved
  | DeployEnqueued (payload : json).

Definition import_mark_of (e : work_event) : option import_mark :=
  match e with
  | Stored (RecordRevision input ok) _ _ => Some (Recorded input ok)
  | Stored (StoreCall "upsertGitCredential") _ _ => Some CredentialSaved
  | Stored (EnqueueJob _ payload) _ _ => Some (DeployEnqueued payload)
  | _ => None
  end.

Section ImportRuns.
Context `{Platform} `{NodePlatform} `{Locale} `{UrlPlatform} `{WorkerHost} `{LaunchHost} `{JobHost}
  `{AbortSignal} `{GitHost} `{SourceHost}.

(** An Eve project without NULs, of the directory the payload names, or of the one
    the repository was cloned into. *)
Definition imports (job : job_view) (options : import_options) (input : revision_input) : Prop :=
  ri_projectId input = JobView.projectId job /\ eve_project (ri_files input) /\
  (forall file, file ∈ ri_files input -> includes nul file.1 = false /\ includes nul file.2 = false) /\
  match truthy (payload_string job "sourcePath") with
  | Some sourcePath => ri_sourcePath input = sourcePath /\ ri_commitSha input = None
  | None => ri_kind input = "git"%string /\ ri_sourcePath input = clone_dir job options
  end.

(** What the payload asks for beyond the revision. *)
Definition saved_marks (job : job_view) : list import_mark :=
  match payload_credential job with
  | Some c => if jg_persistAfterImport c then [CredentialSaved] else []
  | None => []
  end.

Definition deploy_marks (job : job_view) : list import_mark :=
  if payload_true job "deployAfterImport" then [DeployEnqueued (deploy_payload job)] else [].

(** The marks of a run: nothing before the revision is recorded, and a deploy only
    after it, if the payload asks for one. *)
Definition import_trace (job : job_view) (options : import_options) (r : result unit) (ms : list import_mark) : Prop :=
  match r with
  | Ok _ => exists input, imports job options input /\ ms = Recorded input true :: saved_marks job ++ deploy_marks job
  | Err _ =>
      ms = [] \/
      exists input ok more, imports job options input /\ ms = Recorded input ok :: more /\
        (more = [] \/ ok = true /\ (more = saved_marks job \/ more = saved_marks job ++ deploy_marks job))
  end.

Abbreviation marks := (marks_by import_mark_of).
Abbreviation silent := (within (logs_only (unmarked_by import_mark_of))).
Abbreviation ends_silent := (Traces.ends_silent import_mark_of).

Lemma unmarked_throwing : silent throw_if_aborted.
Proof. by apply logs_aborted. Qed.

Lemma unmarked_log pid did ty line : silent (job_log pid did ty line).
Proof. unfold job_log. pose proof (fun m => unmarked_op (A := Log.log_row) import_mark_of "appendLog" m (fun _ _ => eq_refl)). stroll. Qed.
#[local] Hint Resolve unmarked_throwing unmarked_log : within.

Lemma unmarked_retry job attempt detail : silent (on_retry job attempt detail).
Proof. unfold on_retry. stroll. Qed.

Lemma unmarked_obtain job options project : silent (obtain_source job options project).
Proof.
  unfold obtain_source. assert (Hclone : forall gitUrl credential,
    silent (materializeGitSource (io_git options) gitUrl (clone_dir job options) credential (Some (on_retry job)))).
  { intros. apply logs_materialize; [by intros []|]. intros f attempt detail [= <-]. apply unmarked_retry. }
  stroll.
Qed.

Lemma unmarked_scan kind path sha : silent (scanEveSource kind path sha).
Proof.
  unfold scanEveSource, inspectRuntimeCommandContext, rootFileExists.
  assert (Hcall : forall A c (f : list work_event -> result A), silent (hosted c f)) by (intros; by apply logs_hosted).
  pose proof (logs_date_now (unmarked_by import_mark_of)). stroll.
Qed.
#[local] Hint Resolve unmarked_obtain unmarked_scan : within.

Lemma file_texts kind path sha summary vars files schedules file :
  file ∈ files ->
  json_text file.1 (scan_json (mk_scan kind path sha summary vars files schedules)) /\
  json_text file.2 (scan_json (mk_scan kind path sha summary vars files schedules)).
Proof.
  intros Hin. assert (Hfiles : forall key text, (key, JStr text) ∈ [("path", JStr file.1); ("content", JStr file.2)]%string ->
    json_text text (scan_json (mk_scan kind path sha summary vars files schedules))).
  { intros key text Ht. eapply (text_in_object _ _ "files"); [simpl; do 5 right; left|].
    eapply text_in_array; [by apply list_elem_of_fmap_2, Hin|]. eapply text_in_object; [exact Ht|constructor]. }
  split; [by apply (Hfiles "path"%string); left|by apply (Hfiles "content"%string); right; left].
Qed.

Lemma obtained_source job options project w path sha w' :
  obtain_source job options project w = (Ok (Some path, sha), w') ->
  match truthy (payload_string job "sourcePath") with
  | Some sourcePath => path = sourcePath /\ sha = None
  | None => import_kind_of job project = "git"%string /\ path = clone_dir job options
  end.
Proof.
  unfold obtain_source. destruct (truthy (payload_string job "sourcePath")) as [p|]; [by intros [= <- <-]|].
  case_bool_decide as Hkind; [|done]. destruct (truthy _); [|done].
  intros (commitSha & w1 & _ & [= <- <-])%bind_ok. done.
Qed.

Lemma scanned_imports job options project w0 path sha w1 w2 scan w3 :
  obtain_source job options project w0 = (Ok (Some path, sha), w1) ->
  scanEveSource (import_kind_of job project) path sha w2 = (Ok scan, w3) ->
  imports job options (revision_of job sha scan).
Proof.
  intros Hobtain%obtained_source (tree & schedules & _ & -> & Hproject & _ & Hnul)%scan_ok.
  split; [done|]. split; [done|]. split.
  { intros file Hin. split; apply Hnul; by apply (file_texts _ _ _ _ _ _ _ _ Hin). }
  cbn [revision_of ri_sourcePath ri_commitSha ri_kind sr_sourcePath sr_commitSha sr_kind]. by destruct (truthy _).
Qed.

Lemma ends_save_credential job K w (Q : result unit -> list work_event -> world -> Prop) :
  (forall r K' w', marks K' = marks K ++ saved_marks job -> Q r K' w') -> ends any K w (save_credential job) Q.
Proof.
  unfold saved_marks. intros Hq. unfold save_credential.
  destruct (payload_credential job) as [c|]; [|by apply ends_ret, Hq; rewrite app_nil_r].
  destruct (jg_persistAfterImport c); [|by apply ends_ret, Hq; rewrite app_nil_r].
  apply ends_bind, (ends_store import_mark_of). intros s [row|e] K1 w1 _ HK1; cbn in HK1; [|by apply Hq].
  apply ends_silent; [auto with within|]. intros r K2 w2 HK2. apply Hq. congruence.
Qed.

Lemma ends_enqueue job project K w (Q : result unit -> list work_event -> world -> Prop) :
  (forall r K' w', marks K' = marks K ++ deploy_marks job -> Q r K' w') -> ends any K w (deploy_after_import job project) Q.
Proof.
  unfold deploy_marks. intros Hq. unfold deploy_after_import.
  destruct (payload_true job "deployAfterImport"); [|by apply ends_ret, Hq; rewrite app_nil_r].
  apply ends_bind, (ends_store import_mark_of). intros s [row|e] K1 w1 _ HK1; cbn in HK1; [|by apply Hq].
  apply ends_silent; [stroll|]. intros r K2 w2 HK2. apply Hq. congruence.
Qed.

(** C37. An import records at most one revision, of an Eve project without NULs, read
    from the directory the payload names or from the one it cloned the repository
    into; the credential is kept and a deploy is enqueued only after the revision
    is recorded and only if the payload asks for it, and a run that returns has done
    all that the payload asks. *)
Theorem import_job_records_then_deploys job options w r w' :
  handleImportSourceJob job options w = (r, w') ->
  exists es, w_log w' = w_log w ++ es /\ import_trace job options r (marks_by import_mark_of es).
Proof.
  intros Hrun. assert (Hends : ends any [] w (handleImportSourceJob job options) (fun r K _ =>
    import_trace job options r (marks K))).
  2: { destruct (ends_run _ _ _ _ _ _ _ Hends Hrun) as (K & (es & Hlog & -> & _) & Hq). by exists es. }
  assert (Hnone : forall e K', marks K' = [] -> import_trace job options (Err e) (marks K')) by (intros; by left).
  pose proof (eq_refl : marks [] = []) as Hempty.
  unfold handleImportSourceJob.
  apply ends_bind, ends_silent; [auto with within|]. intros [u|e] K1 w1 HK1; [|by apply Hnone].
  apply ends_bind, ends_silent; [by apply unmarked_op|]. intros [found|e] K2 w2 HK2; [|apply Hnone; congruence].
  apply ends_bind, ends_silent; [auto with within|]. intros [u'|e] K3 w3 HK3; [|apply Hnone; congruence].
  apply ends_bind, ends_some_or; [|intros _; apply Hnone; congruence]. intros project _.
  apply ends_bind, (ends_silent_run import_mark_of); [auto with within|].
  intros [[path sha]|e] K4 w4 Hobtain HK4; [|apply Hnone; congruence].
  apply ends_bind, ends_silent; [auto with within|]. intros [u5|e] K5 w5 HK5; [|apply Hnone; congruence].
  apply ends_bind, ends_some_or; [|intros _; apply Hnone; congruence]. simpl. intros path' ->.
  apply ends_bind, (ends_silent_run import_mark_of); [auto with within|].
  intros [scan|e] K6 w6 Hscan HK6; [|apply Hnone; congruence].
  pose proof (scanned_imports _ _ _ _ _ _ _ _ _ _ Hobtain Hscan) as Himports.
  set (input := revision_of job sha scan) in *.
  assert (Hcut : forall e K' ok more, marks K' = Recorded input ok :: more ->
    more = [] \/ ok = true /\ (more = saved_marks job \/ more = saved_marks job ++ deploy_marks job) ->
    import_trace job options (Err e) (marks K')) by (intros e K' ok more -> Hmore; right; by exists input, ok, more).
  apply ends_bind, ends_silent; [auto with within|]. intros [u7|e] K7 w7 HK7; [|apply Hnone; congruence].
  apply ends_bind, (ends_store import_mark_of). intros s r8 K8 w8 _ HK8. cbn in HK8.
  replace (marks K7) with (@nil import_mark) in HK8 by congruence.
  destruct r8 as [row|e]; [|by apply (Hcut e _ _ [] HK8); left].
  apply ends_bind, ends_silent; [auto with within|]. intros [u9|e] K9 w9 HK9; rewrite HK8 in HK9;
    [|by apply (Hcut e _ _ [] HK9); left].
  apply ends_bind, ends_save_credential. intros [u10|e] K10 w10 HK10; rewrite HK9 in HK10; [|apply (Hcut e _ _ _ HK10); auto].
  apply ends_bind, ends_silent; [auto with within|]. intros [u11|e] K11 w11 HK11; rewrite HK10 in HK11;
    [|apply (Hcut e _ _ _ HK11); auto].
  apply ends_bind, ends_silent; [auto with within|]. intros [u12|e] K12 w12 HK12; rewrite HK11 in HK12;
    [|apply (Hcut e _ _ _ HK12); auto].
  apply ends_enqueue. intros [u13|e] K13 w13 HK13; rewrite HK12, <- app_assoc in HK13; [|apply (Hcut e _ _ _ HK13); auto].
  by exists input.
Qed.
End ImportRuns.

(** ** What a preflight leaves *)

(** A settled claim, with the row it leaves, and the removal of a directory. *)
Inductive preflight_mark :=
  | Settled (completed held : bool) (row : option SourcePreflight.source_preflight_row)
  | AttemptRemoved.

Definition preflight_mark_of (preflightId : string) (dir : option string) (e : work_event) : option preflight_mark :=
  match e with
  | Stored (SettlePreflight _ completed held) _ after => Some (Settled completed held (sourcePreflights after !! preflightId))
  | Host (RemoveFiles path _) => if bool_decide (Some path = dir) then Some AttemptRemoved else None
  | _ => None
  end.

Section PreflightRuns.
Context `{Platform} `{NodePlatform} `{Locale} `{UrlPlatform} `{WorkerHost} `{LaunchHost} `{JobHost}
  `{AbortSignal} `{GitHost} `{SourceHost}.
Context (preflight : preflight_record) (options : import_options).

Let dir : option string := managed_attempt_dir preflight options.

Definition removal_marks : list preflight_mark := match dir with Some _ => [AttemptRemoved] | None => [] end.

(** The row of a preflight that is completed: its source is the one it was given, or
    is below the directory of this attempt. *)
Definition completed_row (row : option SourcePreflight.source_preflight_row) : Prop :=
  exists r path, row = Some r /\ SourcePreflight.status r = PreflightStatus.completed /\
    SourcePreflight.sourcePath r = Some path /\ SourcePreflight.attempts r = pf_attempts preflight /\
    (truthy (pf_sourcePath preflight) = Some path \/ exists d, dir = Some d /\ path = path_join [d; "source"%string]).

(** A preflight is completed and its checkout stays; or the directory of the attempt
    is removed, if it made one, and the preflight is failed, unless the removal
    fails. *)
Definition preflight_trace (r : result unit) (ms : list preflight_mark) : Prop :=
  (r = Ok tt /\ exists row, ms = [Settled true true row] /\ completed_row row) \/
  exists refused, (refused = [] \/ exists row, refused = [Settled true false row]) /\
    ((exists held row, ms = refused ++ removal_marks ++ [Settled false held row]) \/
     (exists e, r = Err e /\ dir <> None /\ ms = refused ++ [AttemptRemoved])).

Abbreviation mark_of := (preflight_mark_of (pf_id preflight) dir).
Abbreviation marks := (marks_by mark_of).
Abbreviation silent := (within (logs_only (unmarked_by mark_of))).

Lemma join_longer d : path_join [d; "source"%string] <> d.
Proof.
  change (path_join [d; "source"%string]) with (d +:+ ("/" +:+ "source"))%string. intros Heq.
  apply (f_equal String.length) in Heq. rewrite string_length_app in Heq. simpl in Heq. lia.
Qed.

Lemma unmarked_abort : silent throw_if_aborted.
Proof. apply logs_aborted. Qed.
#[local] Hint Resolve unmarked_abort : within.

Lemma unmarked_source : silent (preflight_source preflight options).
Proof.
  unfold preflight_source. fold dir. assert (Hclone : forall gitUrl d, dir = Some d ->
    silent (materializeGitSource (io_git options) gitUrl (path_join [d; "source"%string])
              (credential_of (pf_gitCredential preflight)) None)).
  { intros gitUrl d Hd. apply logs_materialize; [|done]. intros c Hc. unfold unmarked_by. destruct c; try done.
    subst. simpl. rewrite bool_decide_eq_false_2; [done|]. rewrite Hd. intros [= Heq]. by apply (join_longer d). }
  destruct (truthy (pf_sourcePath preflight)); [by intros w|]. case_bool_decide; [|by intros w].
  destruct (truthy (pf_gitUrl preflight)); [|by intros w]. destruct dir as [d|] eqn:Hd; [|by intros w].
  specialize (Hclone s d eq_refl). stroll.
Qed.

Lemma unmarked_scanning kind path sha : silent (scanEveSource kind path sha).
Proof.
  unfold scanEveSource, inspectRuntimeCommandContext, rootFileExists.
  assert (Hcall : forall A name (f : list work_event -> result A), silent (hosted (fun _ => HostCall name) f))
    by (intros; by apply logs_hosted).
  pose proof (logs_date_now (unmarked_by mark_of)). stroll.
Qed.
#[local] Hint Resolve unmarked_source unmarked_scanning : within.

Lemma source_of_preflight w path sha w' :
  preflight_source preflight options w = (Ok (Some path, sha), w') ->
  truthy (pf_sourcePath preflight) = Some path \/ exists d, dir = Some d /\ path = path_join [d; "source"%string].
Proof.
  unfold preflight_source. fold dir. destruct (truthy (pf_sourcePath preflight)) as [p|]; [by intros [= <- <-]; left|].
  case_bool_decide; [|done]. destruct (truthy (pf_gitUrl preflight)); [|done]. destruct dir as [d|]; [|done].
  intros (commitSha & w1 & _ & [= <- <-])%bind_ok. right. eauto.
Qed.

Lemma completed_claim result s s' :
  completeSourcePreflight (pf_id preflight) (pf_attempts preflight) result s = (Ok true, s') ->
  exists r, sourcePreflights (st_db s') !! pf_id preflight = Some r /\ SourcePreflight.status r = PreflightStatus.completed /\
    SourcePreflight.sourcePath r = Some (pr_sourcePath result) /\ SourcePreflight.attempts r = pf_attempts preflight.
Proof.
  intros (now & s1 & _ & Hrun)%bind_ok. apply bind_ok in Hrun as (row & s2 & Hupdate & [= Hrow <-]).
  apply update_key_ok in Hupdate as [(-> & _)|(r & _ & Hp & -> & _ & ->)]; [done|].
  apply andb_true_iff in Hp as [_ Hattempt%bool_decide_eq_true].
  eexists. split; [apply lookup_insert_eq|]. done.
Qed.

(** The inspection of a preflight: completed by its last call, or not at all. *)
Lemma ends_inspect K w (Q : result unit -> list work_event -> world -> Prop) :
  (forall row K' w', completed_row row -> marks K' = marks K ++ [Settled true true row] -> Q (Ok tt) K' w') ->
  (forall e refused K' w', refused = [] \/ (exists row, refused = [Settled true false row]) ->
     marks K' = marks K ++ refused -> Q (Err e) K' w') ->
  ends any K w (inspect_preflight preflight options) Q.
Proof.
  intros Hok Herr. assert (Hnone : forall e K' w', marks K' = marks K -> Q (Err e) K' w').
  { intros e K' w' HK. apply (Herr e []); [by left|]. by rewrite app_nil_r. }
  unfold inspect_preflight. apply ends_bind, (ends_silent_run mark_of); [auto with within|].
  intros [[path sha]|e] K1 w1 Hsource HK1; [|by apply Hnone].
  apply ends_bind, ends_some_or; [|intros _; by apply Hnone]. simpl. intros path' ->.
  apply source_of_preflight in Hsource.
  apply ends_bind, (ends_silent mark_of); [auto with within|]. intros [u|e] K2 w2 HK2; [|apply Hnone; congruence].
  apply ends_bind, (ends_silent mark_of); [auto with within|]. intros [scan|e] K3 w3 HK3; [|apply Hnone; congruence].
  apply ends_bind, (ends_silent mark_of); [auto with within|]. intros [u4|e] K4 w4 HK4; [|apply Hnone; congruence].
  apply ends_bind, (ends_store mark_of). intros s r K5 w5 Hrun HK5. simpl in HK5.
  replace (marks K4) with (marks K) in HK5 by congruence. destruct r as [[|]|e].
  - apply ends_throw_if; [done|]. intros _. apply completed_claim in Hrun as (row & Hrow & Hstatus & Hpath & Hattempt).
    apply (Hok (Some row)); [by exists row, path'|]. by rewrite <- Hrow.
  - apply ends_throw_if; [|done]. intros _. eapply Herr; [|exact HK5]; eauto.
  - eapply Herr; [|exact HK5]; eauto.
Qed.

(** C38. A claimed preflight either is completed, as its last call, with a source that
    was given or is its own checkout, and then nothing is removed; or the directory
    of the attempt is removed, if it made one, and then the preflight is failed.
    A run throws only if the removal or that last call does. *)
Theorem preflight_keeps_what_it_completes w r w' :
  runClaimedSourcePreflight preflight options w = (r, w') ->
  exists es, w_log w' = w_log w ++ es /\
    preflight_trace r (marks_by (preflight_mark_of (pf_id preflight) (managed_attempt_dir preflight options)) es).
Proof.
  intros Hrun. assert (Hends : ends any [] w (runClaimedSourcePreflight preflight options) (fun r K _ =>
    preflight_trace r (marks K))).
  2: { destruct (ends_run _ _ _ _ _ _ _ Hends Hrun) as (K & (es & Hlog & -> & _) & Hq). by exists es. }
  unfold runClaimedSourcePreflight. fold dir. apply ends_catch, ends_inspect.
  { intros row K1 w1 Hrow HK1. left. split; [done|]. by exists row. }
  intros e refused K1 w1 Hrefused HK1. cbn in HK1. apply ends_bind.
  assert (Hfail : forall K2 w2, marks K2 = refused ++ removal_marks -> ends any K2 w2
    (_held <- fail_preflight preflight (error_text e) ;; ret tt) (fun r K _ => preflight_trace r (marks K))).
  { intros K2 w2 HK2. apply ends_bind, (ends_store mark_of). intros s held K3 w3 _ HK3. simpl in HK3.
    rewrite HK2, <- app_assoc in HK3.
    destruct held; [apply ends_ret|]; right; exists refused; split; [done|left; eauto|done|left; eauto]. }
  unfold removal_marks in Hfail. destruct dir as [d|] eqn:Hd.
  - apply (ends_call (preflight_mark_of (pf_id preflight) (Some d))). intros held K2 w2 HK2 _. simpl in HK2. rewrite bool_decide_eq_true_2, HK1 in HK2 by congruence.
    destruct held as [u|e']; [by apply Hfail|]. right. exists refused. split; [done|]. right. exists e'. by rewrite Hd.
  - apply ends_ret, Hfail. by rewrite app_nil_r.
Qed.
End PreflightRuns.

(** ** What expires *)

Section Paths.
Open Scope string_scope.

(** A path below a directory; a path and the directories it is in. *)
Definition below (root path : string) : Prop := exists rest, path = root +:+ String slash rest.
Definition above (directory path : string) : Prop := directory = path \/ below directory path.

(** A name like those of the directories made for uploads and preflights; any
    directory may bear one. *)
Definition managed_name (path : string) : bool :=
  String.prefix "zip-" (posixBasename path) || String.prefix "pre_" (posixBasename path).

Lemma last_segment path :
  includes slash path = true ->
  exists d b, path = d +:+ String slash b /\ includes slash b = false /\ dirname path = d.
Proof.
  intros Hs. assert (Hsplit : exists d b, path = d +:+ String slash b /\ includes slash b = false).
  { induction path as [|c path IH]; [done|]. rewrite includes_cons in Hs. destruct (includes slash path) eqn:Hp.
    - destruct (IH eq_refl) as (d & b & -> & Hb). by exists (String c d), b.
    - rewrite orb_false_r in Hs. apply bool_decide_eq_true in Hs as ->. by exists "", path. }
  destruct Hsplit as (d & b & -> & Hb). exists d, b. split; [done|]. split; [done|].
  unfold dirname. rewrite (lastIndexOf_last _ _ _ Hb). apply substring_app.
Qed.

Lemma segment_unique d1 b1 d2 b2 :
  includes slash b1 = false -> includes slash b2 = false ->
  d1 +:+ String slash b1 = d2 +:+ String slash b2 -> d1 = d2 /\ b1 = b2.
Proof.
  intros H1 H2 Heq. pose proof (f_equal (lastIndexOf slash) Heq) as Hlen. rewrite !lastIndexOf_last in Hlen by done.
  injection Hlen as Hlen. pose proof (f_equal (String.substring 0 (String.length d1)) Heq) as Hd.
  rewrite substring_app, Hlen, substring_app in Hd. split; [done|]. subst d2.
  pose proof (f_equal (slice_from (String.length d1)) Heq) as Hb. rewrite !slice_from_split in Hb. congruence.
Qed.

Lemma below_slash root path : below root path -> includes slash path = true.
Proof. intros [rest ->]. rewrite includes_app, includes_cons, bool_decide_eq_true_2 by done. by rewrite orb_true_r. Qed.

(** What is above a path is it, or is above the directory it is in. *)
Lemma above_dirname directory path :
  below directory path -> above directory (dirname path).
Proof.
  intros Hbelow. destruct (last_segment path) as (d & b & Hpath & Hb & ->); [by eapply below_slash|].
  destruct Hbelow as [rest Hrest]. rewrite Hpath in Hrest. destruct (includes slash rest) eqn:Hslash.
  - destruct (last_segment rest Hslash) as (r1 & r2 & -> & Hr2 & _). right. exists r1.
    replace (directory +:+ String slash (r1 +:+ String slash r2)) with ((directory +:+ String slash r1) +:+ String slash r2) in Hrest
      by apply string_app_assoc. by apply segment_unique in Hrest as [-> _].
  - left. by apply segment_unique in Hrest as [-> _].
Qed.

Lemma below_dirname path : includes slash path = true -> below (dirname path) path.
Proof. intros (d & b & -> & _ & ->)%last_segment. by exists b. Qed.

Lemma below_trans a b c : below a b -> below b c -> below a c.
Proof. intros [r1 ->] [r2 ->]. exists (r1 +:+ String slash r2). apply string_app_assoc. Qed.

Lemma below_shorter a b : below a b -> (String.length a < String.length b)%nat.
Proof. intros [r ->]. rewrite string_length_app. simpl. lia. Qed.

Lemma below_either a b path : below a path -> below b path -> a = b \/ below a b \/ below b a.
Proof.
  intros [x ->] [y Heq]. revert b Heq. induction a as [|c a IH]; intros [|c' b] Heq.
  - by left.
  - injection Heq as <- _. right. left. by exists b.
  - injection Heq as -> _. right. right. by exists a.
  - injection Heq as <- Heq. destruct (IH b Heq) as [->|[[r ->]|[r ->]]]; [by left|right; left|right; right]; by exists r.
Qed.

(** The nearest managed directory between the root and a path, or the path. *)
Definition cleanup_spec (root resolved target : string) : Prop :=
  below root target /\ above target resolved /\
  (managed_name target = true /\ (forall p, below target p -> above p resolved -> managed_name p = false) \/
   target = resolved /\ forall p, below root p -> above p resolved -> managed_name p = false).

Lemma cleanup_cursor_spec fuel root resolved cursor :
  below root resolved -> above root cursor -> above cursor resolved -> (String.length cursor < fuel)%nat ->
  (forall p, below cursor p -> above p resolved -> managed_name p = false) ->
  cleanup_spec root resolved (cleanup_cursor fuel root resolved cursor).
Proof.
  intros Hroot. revert cursor. induction fuel as [|fuel IH]; intros cursor Habove Hcursor Hfuel Hno; [lia|].
  cbn [cleanup_cursor]. case_bool_decide as Hend.
  { subst cursor. split; [done|]. split; [by left|]. right. auto. }
  destruct Habove as [Heq|Hbelow]; [congruence|]. fold (managed_name cursor). cbv zeta.
  destruct (managed_name cursor) eqn:Hname; [split; [done|]; split; [done|]; left; auto|].
  pose proof (below_slash _ _ Hbelow) as Hslash. pose proof (below_dirname _ Hslash) as Hdir.
  pose proof (below_shorter _ _ Hdir) as Hshort.
  rewrite bool_decide_eq_false_2 by (intros Heq; rewrite Heq in Hshort; lia).
  apply IH; [by apply above_dirname| |lia|].
  - right. destruct Hcursor as [->|Hcursor]; [done|by eapply below_trans].
  - intros p Hp Hresolved. destruct (decide (p = cursor)) as [->|Hne]; [done|]. apply Hno; [|done].
    assert (Hdown : ~ above p cursor).
    { intros [->|Hup%above_dirname]; [done|]. apply below_shorter in Hp.
      destruct Hup as [->|Hup%below_shorter]; lia. }
    destruct Hcursor as [->|Hcursor]; [done|]. destruct Hresolved as [->|Hresolved]; [done|].
    destruct (below_either _ _ _ Hresolved Hcursor) as [->|[Hup|Hdone]]; [done| |done].
    destruct Hdown. by right.
Qed.
End Paths.

Section CleanupRuns.
Context `{Platform} `{WorkerHost} `{LaunchHost} `{JobHost}.

Definition removal_of (e : work_event) : option string :=
  match e with Host (RemoveFiles path _) => Some path | _ => None end.

Lemma prefix_below root path : String.prefix (root +:+ "/") path = true <-> below root path.
Proof.
  split.
  - intros Hp. destruct (strip_prefix (root +:+ "/") path) as [rest|] eqn:Hs; [|unfold strip_prefix in Hs; by rewrite Hp in Hs].
    apply strip_prefix_ok in Hs as ->. exists rest. by rewrite string_app_assoc.
  - intros [rest ->]. change (String slash rest) with ("/" +:+ rest)%string.
    rewrite <- string_app_assoc. apply prefix_app.
Qed.

Lemma cleanup_target_spec root sourcePath :
  match cleanup_target root sourcePath with
  | Some target => cleanup_spec root (resolve_path sourcePath) target
  | None => ~ below root (resolve_path sourcePath)
  end.
Proof.
  unfold cleanup_target. case_bool_decide as Heq; cbn [orb].
  { rewrite Heq. intros Hb%below_shorter. lia. }
  destruct (String.prefix (root +:+ "/") (resolve_path sourcePath)) eqn:Hp; cbn [negb].
  - apply prefix_below in Hp. apply cleanup_cursor_spec; [done|by right|by left|lia|].
    intros p Hb [->|Hb']; [by apply below_shorter in Hb; lia|].
    apply below_shorter in Hb, Hb'. lia.
  - intros Hb%prefix_below. congruence.
Qed.

Abbreviation marks := (marks_by removal_of).

(** The loop over the paths that expired. *)
Lemma ends_cleanup root paths removed K w :
  marks K = removed ->
  ends any K w (fold_m (fun n sourcePath => match cleanup_target root sourcePath with
                                            | None => ret n
                                            | Some target => rm target ;; ret (n + 1)%Z
                                            end) paths (Z.of_nat (length removed)))
    (fun r K _ => match r with
       | Ok n => marks K = removed ++ omap (cleanup_target root) paths /\
                 n = Z.of_nat (length (removed ++ omap (cleanup_target root) paths))
       | Err _ => marks K `prefix_of` removed ++ omap (cleanup_target root) paths
       end).
Proof.
  revert removed K w. induction paths as [|path paths IH]; intros removed K w HK.
  { apply ends_ret. by rewrite app_nil_r. }
  cbn [fold_m omap list_omap]. apply ends_bind. destruct (cleanup_target root path) as [target|]; [|by apply ends_ret, IH].
  apply ends_bind, (ends_call removal_of). intros [u|e] K2 w2 HK2 _; cbn in HK2; rewrite HK in HK2.
  - apply ends_ret. replace (Z.of_nat (length removed) + 1)%Z with (Z.of_nat (length (removed ++ [target])))
      by (rewrite length_app; simpl; lia).
    eapply ends_weaken; [|by apply IH]. intros r3 K3 w3. by rewrite <- (app_assoc removed).
  - rewrite HK2. exists (omap (cleanup_target root) paths). by rewrite <- app_assoc.
Qed.

(** What a cleanup does once the store has answered it. *)
Lemma cleanup_run_from dataDir now w r w' :
  cleanupExpiredSourcePreflights dataDir now w = (r, w') ->
  let root := resolve_path dataDir in
  let s := others (w_log w) (w_store w) in
  exists x s' es, expireSourcePreflights now (Some (N.to_nat 25)) s = (x, s') /\
    w_log w' = w_log w ++ Stored (StoreCall "expireSourcePreflights") (st_db s) (st_db s') :: es /\
    match x, r with
    | Err e, _ => r = Err e /\ es = []
    | Ok paths, Ok n => marks es = omap (cleanup_target root) paths /\
        n = Z.of_nat (length (omap (cleanup_target root) paths))
    | Ok paths, Err _ => marks es `prefix_of` omap (cleanup_target root) paths
    end.
Proof.
  intros Hrun root s. unfold cleanupExpiredSourcePreflights in Hrun. fold root in Hrun.
  apply bind_run in Hrun as [(e & Hs & ->)|(paths & w1 & Hs & Hrun)];
    apply stored_run in Hs as (s' & Hexpire & <- & Hlog); fold s in Hexpire, Hlog.
  - exists (Err e), (w_store w'), []. by split.
  - destruct (ends_run _ _ _ _ _ _ _ (ends_cleanup root paths [] [] w1 eq_refl) Hrun) as (K & (es & Hes & -> & _) & Hq).
    exists (Ok paths), (w_store w1), es. split; [done|].
    split; [by rewrite Hes, Hlog, <- app_assoc|]. by destruct r.
Qed.

Lemma targets_below root paths : Forall (below root) (omap (cleanup_target root) paths).
Proof.
  apply Forall_forall. intros target (path & _ & Ht)%list_elem_of_omap.
  pose proof (cleanup_target_spec root path) as Hspec. rewrite Ht in Hspec. apply Hspec.
Qed.

(** C39. A cleanup first has the store forget the preflights that are due, and is
    handed the checkouts of those that were neither running nor consumed: of no
    other, and of all that were due when they were no more than 25.  For each of
    them that lies below the data directory, and for no other, it removes the
    nearest directory at or above it whose name starts with [zip-] or [pre_], or
    the checkout itself where there is none: so nothing that is not below the data
    directory, each of them once it returns, and their number is its answer.  That
    directory need not be the one that was made for the upload or the preflight. *)
Theorem cleanup_removes_what_expired dataDir now w r w' :
  let root := resolve_path dataDir in
  let s := others (w_log w) (w_store w) in
  let due row := expirable (now_of now s) row = true /\
    SourcePreflight.status row <> PreflightStatus.consumed in
  keyed source_preflights_table (st_db s) ->
  cleanupExpiredSourcePreflights dataDir now w = (r, w') ->
  exists paths s' es,
    w_log w' = w_log w ++ Stored (StoreCall "expireSourcePreflights") (st_db s) (st_db s') :: es /\
    (forall path, path ∈ paths -> exists k row, sourcePreflights (st_db s) !! k = Some row /\ due row /\
       SourcePreflight.sourcePath row = Some path /\ sourcePreflights (st_db s') !! k = None) /\
    (length (select_where (expirable (now_of now s)) (sourcePreflights (st_db s))) <= 25 ->
     forall k row path, sourcePreflights (st_db s) !! k = Some row -> due row ->
       truthy (SourcePreflight.sourcePath row) = Some path -> path ∈ paths) /\
    (forall path, match cleanup_target root path with
                  | Some target => cleanup_spec root (resolve_path path) target
                  | None => ~ below root (resolve_path path)
                  end) /\
    Forall (below root) (marks_by removal_of es) /\
    match r with
    | Ok n => marks_by removal_of es = omap (cleanup_target root) paths /\
              n = Z.of_nat (length (omap (cleanup_target root) paths))
    | Err _ => marks_by removal_of es `prefix_of` omap (cleanup_target root) paths
    end.
Proof.
  intros root s due Hkey (x & s' & es & Hexpire & Hlog & Hend)%cleanup_run_from. fold root s in Hexpire, Hlog, Hend.
  pose proof (expireSourcePreflights_spec _ _ _ _ _ Hkey Hexpire) as (paths & -> & Hin & Hall).
  exists paths, s', es. split; [done|]. split; [exact Hin|]. split; [exact Hall|].
  split; [intros path; apply cleanup_target_spec|]. pose proof (targets_below root paths) as Hbelow.
  destruct r as [n|e]; [by destruct Hend as [-> ->]|]. split; [|done].
  destruct Hend as [rest Hrest]. rewrite Hrest in Hbelow. by apply Forall_app in Hbelow as [? _].
Qed.
End CleanupRuns.

(** ** An upload that is deployed, a preflight that is lost, an upload that expires *)

Definition sample_import_options : import_options := mk_import_options "/data" sample_git_options.

Definition import_job : job_view :=
  JobView.mk "job_4" "p" "import_source" "running"
    (JObj [("importKind", JStr "zip"); ("sourcePath", JStr "/src"); ("deployAfterImport", JBool true)]) 1 None 0 0.

Definition import_world : world :=
  mk_world (sample_store (empty_database <| projects := {[ "p" := sample_project "p" ]}%string |>)) [].

Abbreviation import_run :=
  (@handleImportSourceJob sample_platform package_node sample_locale sample_urls still_host sample_launch_host
    sample_job_host never_aborted flaky_git sample_source_host import_job sample_import_options import_world).

Lemma import_job_records_then_deploys_witness :
  import_run.1 = Ok tt /\
  exists input, @imports package_node import_job sample_import_options input /\
    marks_by import_mark_of (w_log import_run.2) = [Recorded input true; DeployEnqueued (deploy_payload import_job)].
Proof.
  assert (Hok : import_run.1 = Ok tt) by (vm_compute; reflexivity). split; [exact Hok|].
  destruct (import_job_records_then_deploys _ _ _ _ _ (surjective_pairing import_run)) as (es & Hlog & Ht).
  rewrite Hok in Ht. change (w_log import_world ++ es) with es in Hlog. rewrite Hlog. exact Ht.
Defined.

(** A clone that is fenced away before the preflight is completed. *)
Definition sample_preflight : preflight_record :=
  mk_preflight_record "pre_1" "u" ImportKind.git (Some "https://git.example/agent.git"%string) None None
    PreflightStatus.running None None 1 (Some 0%Z) None 1000 0 0.

Definition preflight_row (attempts : Z) (status : preflight_status) (path : option string) : SourcePreflight.source_preflight_row :=
  SourcePreflight.mk "pre_1" "u" ImportKind.git (Some "https://git.example/agent.git"%string) path None
    status None None attempts (Some 0%Z) None None false 500 0 0.

Definition preflight_world (row : SourcePreflight.source_preflight_row) : world :=
  mk_world (sample_store (empty_database <| sourcePreflights := {[ "pre_1"%string := row ]} |>)) [].

Abbreviation preflight_run attempts :=
  (@runClaimedSourcePreflight sample_platform package_node sample_locale sample_urls still_host sample_launch_host
    sample_job_host never_aborted flaky_git sample_source_host sample_preflight sample_import_options
    (preflight_world (preflight_row attempts PreflightStatus.running None))).

Definition settled_marks (es : list work_event) : list (option (bool * bool)) :=
  (fun m => match m with Settled completed held _ => Some (completed, held) | AttemptRemoved => None end) <$>
  marks_by (preflight_mark_of "pre_1" (Some "/data/preflights/pre_1/attempt-1"%string)) es.

Lemma preflight_keeps_what_it_completes_witness :
  settled_marks (w_log (preflight_run 1%Z).2) = [Some (true, true)] /\
  settled_marks (w_log (preflight_run 2%Z).2) = [Some (true, false); None; Some (false, false)] /\
  preflight_trace sample_preflight sample_import_options (preflight_run 1%Z).1
    (marks_by (preflight_mark_of "pre_1" (Some "/data/preflights/pre_1/attempt-1"%string)) (w_log (preflight_run 1%Z).2)).
Proof.
  split; [vm_compute; reflexivity|]. split; [vm_compute; reflexivity|].
  destruct (preflight_keeps_what_it_completes _ _ _ _ _ (surjective_pairing (preflight_run 1%Z))) as (es & Hlog & Ht).
  change (w_log (preflight_world (preflight_row 1 PreflightStatus.running None)) ++ es) with es in Hlog.
  rewrite Hlog. exact Ht.
Defined.

Definition expired_world (path : string) : world :=
  preflight_world (preflight_row 1 PreflightStatus.completed (Some path)).

Abbreviation cleanup_run path :=
  (@cleanupExpiredSourcePreflights still_host sample_job_host "/data" (Some 1000%Z) (expired_world path)).

Lemma expired_keyed path : keyed source_preflights_table (st_db (w_store (expired_world path))).
Proof. intros k r Hk. simpl in Hk. by apply lookup_singleton_Some in Hk as [<- <-]. Qed.

Lemma cleanup_removes_what_expired_witness :
  let checkout := "/data/preflights/pre_1/attempt-1/source"%string in
  (cleanup_run checkout).1 = Ok 1%Z /\
  marks_by removal_of (w_log (cleanup_run checkout).2) = ["/data/preflights/pre_1"%string] /\
  exists paths, checkout ∈ paths /\
    marks_by removal_of (w_log (cleanup_run checkout).2) = omap (@cleanup_target sample_job_host "/data") paths.
Proof.
  set (checkout := "/data/preflights/pre_1/attempt-1/source"%string). cbv zeta.
  assert (Hok : (cleanup_run checkout).1 = Ok 1%Z) by (vm_compute; reflexivity).
  split; [exact Hok|]. split; [vm_compute; reflexivity|].
  destruct (@cleanup_removes_what_expired still_host sample_job_host "/data" (Some 1000%Z)
    (expired_world checkout) _ _ (expired_keyed checkout) (surjective_pairing (cleanup_run checkout)))
    as (paths & s' & es & Hlog & _ & Hall & _ & _ & Hend).
  rewrite Hok in Hend. exists paths. split.
  - refine (Hall _ "pre_1"%string (preflight_row 1 PreflightStatus.completed (Some checkout)) checkout _ _ _);
      [|reflexivity|split; [reflexivity|discriminate]|reflexivity].
    apply Nat.leb_le. vm_compute. reflexivity.
  - rewrite Hlog. exact (proj1 Hend).
Defined.

(** An archive whose only directory is named like an upload: that directory is
    removed and the rest of the upload stays. *)
Example upload_left_behind :
  marks_by removal_of (w_log (cleanup_run "/data/uploads/zip-a1/source/pre_release").2)
  = ["/data/uploads/zip-a1/source/pre_release"%string].
Proof. vm_compute. reflexivity. Qed.
