(* ===== verification/BuildDeploy.v ===== *)
(** * The build and deploy job

    [apps/worker/src/jobs/process-build-deploy.ts]: a source revision is built into
    a release, its models are checked, the release is started on a port of its own,
    recorded once it answers, routed and, when the job asks for it, promoted; every
    branch, what is cleaned up after a failure included.  With it the wording of
    hotfix drift ([packages/core/src/hotfix-drift.ts]). *)

From stdpp Require Import pretty.
From S2P Require Import Prelude Strings Encoding DispatchCredential Schema Store Tables Sample ModelValidation Jobs Runtime Routing Slugs Projects Sessions Cron Schedules Deployments Sources EveVersion Discovery Dispatcher Worker Traces Activation Reapers Launch RuntimeJobs.

Open Scope eve_scope.
Open Scope string_scope.

(** ** Hotfix drift *)

(** [ReleaseSourceProvenance], as far as it is read. *)
Record release_source : Type := mk_source {
  rs_revisionId : string; rs_kind : string; rs_origin : option string; rs_commitSha : option string;
  rs_baseCommitSha : option string; rs_dirty : option bool;
  rs_uploadedBy : option (string * string * string); rs_recordedAt : time
}.

(** [HotfixDrift] *)
Record hotfix_drift : Type := mk_drift {
  hd_deploymentId : string; hd_deploymentKey : string; hd_releaseId : string; hd_source : release_source
}.

(** [releaseSourceFromRow] of a revision, with its uploader when there is one. *)
Definition release_source_of (d : database) (revision : SourceRevision.source_revision_row) : release_source :=
  mk_source (SourceRevision.id revision) (SourceRevision.kind revision) (SourceRevision.origin revision)
    (SourceRevision.commitSha revision) (SourceRevision.baseCommitSha revision) (SourceRevision.dirty revision)
    (id ← truthy (SourceRevision.uploadedBy revision);
     user ← users d !! id;
     Some (User.id user, User.email user, User.name user))
    (SourceRevision.createdAt revision).

(** Only a git project drifts, and only to a revision that was uploaded. *)
Definition getProjectHotfixDrift (projectId : string) : Tx (option hotfix_drift) :=
  read (fun d =>
    project ← projects d !! projectId;
    did ← Project.deploymentId project;
    deployment ← deployments d !! did;
    release ← releases d !! Deployment.releaseId deployment;
    revision ← sourceRevisions d !! Release.sourceRevisionId release;
    origin ← SourceRevision.origin revision;
    if bool_decide (Project.importKind project = ImportKind.git)
       && negb (bool_decide (origin = "git-sync"))
    then Some (mk_drift (Deployment.id deployment) (Deployment.deploymentKey deployment)
                 (Release.id release) (release_source_of d revision))
    else None).

(** [formatUtcMinute] *)
Definition formatUtcMinute (iso : string) : string :=
  String.substring 0 10 iso +:+ " " +:+ String.substring 11 5 iso +:+ " UTC".

Definition hotfixDriftFacts (drift : hotfix_drift) : list string :=
  let source := hd_source drift in
  ([match truthy (rs_baseCommitSha source) with
    | Some sha => "based on " +:+ String.substring 0 12 sha
    | None => "not based on any known commit"
    end]
   ++ match rs_dirty source with
      | Some true => ["uncommitted changes"]
      | Some false => ["clean tree"]
      | None => []
      end
   ++ match rs_uploadedBy source with
      | Some (_, email, name) => ["by " +:+ or_text name email]
      | None => []
      end)%list.

Definition describeHotfixDrift `{Dates} (drift : hotfix_drift) : string :=
  "an uploaded hotfix (" +:+ String.concat ", " (hotfixDriftFacts drift) +:+ " at "
  +:+ formatUtcMinute (iso_string (rs_recordedAt (hd_source drift))) +:+ ")".

Definition hotfixDriftWarning `{Dates} (drift : hotfix_drift) : string :=
  "Production runs " +:+ describeHotfixDrift drift
  +:+ "; the repository does not contain it. Commit it before the next production sync.".

(** ** What a build is given, and what it answers *)

(** [ReleaseBuildInput] *)
Record build_input : Type := mk_build_input {
  bi_projectId : string; bi_releaseId : string; bi_sourcePath : string; bi_buildDir : string;
  bi_commandContext : command_context; bi_buildVariables : gmap string string;
  bi_workflowWorld : world_config; bi_modelCatalogCacheFile : string
}.

(** [ReleaseBuildResult]; [rb_discovery] is the manifest and the Eve version that
    was installed. *)
Record release_build : Type := mk_build {
  rb_releaseRef : string; rb_log : string;
  rb_schedulerDefinitions : option (list schedule_definition);
  rb_workflowWorld : option world_config;
  rb_discovery : option (json * option string);
  rb_modelGatewayProvider : option bool; rb_staticModelIds : option (list string)
}.

(** [ProcessJobOptions] and the environment, as far as this handler reads them:
    [bo_adapter] is [options.runtime ?? createRuntimeAdapterFromEnv()],
    [bo_worldUrl] the resolved URL of the workflow world. *)
Record build_options : Type := mk_build_options {
  bo_isProduction : bool;
  bo_worldUrl : option string;
  bo_worldClusterIdentity : option string;
  bo_dispatcherTtl : option string;
  bo_adapter : result runtime_adapter;
  bo_dataDir : string;
  bo_allocateHostPort : option (list work_event -> result Z);
  bo_waitForDeployment : option wait_for_health;
  bo_healthTimeoutMs : Z;
  bo_listGatewayModels : string -> string -> list work_event -> model_listing;
  bo_agentBaseDomains : option string;
  bo_gatewayInternalUrl : option string;
  bo_gatewayServiceToken : option string
}.

(** What the job asks of the host beyond the runtime jobs: the identity of the world's cluster; the
    registration of the dispatcher; a build; the variables of a build; the port a
    started process has inside; the status of a POST to the gateway. *)
Class BuildHost := {
  resolveWorldClusterIdentity : list work_event -> result string;
  dispatcher_row : list work_event -> result (option dispatcher_registration);
  build_release : string -> build_input -> list work_event -> result release_build;
  compose_build_variables : string -> list work_event -> result (gmap string string);
  internal_port : string -> process_start -> list work_event -> Z;
  post_invalidate : string -> string -> string -> list work_event -> result Z
}.

Definition MODEL_CATALOG_CACHE_RELATIVE_PATH : string := "cache/model-catalog.json".

(** [{ ...payload, [key]: value }] *)
Definition spread (payload : json) (key : string) (value : json) : json :=
  match payload with
  | JObj fields => JObj (base.filter (fun kv => kv.1 <> key) fields ++ [(key, value)])%list
  | _ => JObj [(key, value)]
  end.

(** [JSON] of a projection, as it is stored with the release. *)
Definition strings_json (l : list string) : json := JArr (JStr <$> l).

Definition projection_json (p : summary_projection) (eveVersion : option string) : json :=
  JObj ([("summarySource", JStr "build-manifest"); ("manifestVersion", JNum (json_number (pr_manifestVersion p)));
         ("agentId", from_option JStr JNull (pr_agentId p));
         ("layout", JStr (match pr_layout p with Flat => "flat" | Nested => "nested" end));
         ("diagnostics", match pr_diagnostics p with
                         | Some (errors, warnings) => JObj [("errors", JNum errors); ("warnings", JNum warnings)]
                         | None => JNull
                         end);
         ("instructions", strings_json (pr_instructions p)); ("tools", strings_json (pr_tools p));
         ("skills", strings_json (pr_skills p)); ("subagents", strings_json (pr_subagents p));
         ("connections", strings_json (pr_connections p)); ("schedules", strings_json (pr_schedules p));
         ("sandbox", strings_json (pr_sandbox p)); ("hooks", strings_json (pr_hooks p));
         ("channels", strings_json (pr_channels p)); ("subagentIds", strings_json (pr_subagentIds p))]
        ++ match eveVersion with Some v => [("eveVersionResolved", JStr v)] | None => [] end)%list.

(** [build.discovery?.resolvedEveVersion], when it is truthy. *)
Definition resolved_eve_version (build : release_build) : option string := truthy (rb_discovery build ≫= snd).

Definition discovery_projection `{Locale} (build : release_build) : option summary_projection :=
  rb_discovery build ≫= fun found => projectDiscoveryManifest found.1.

Definition release_summary `{Locale} (build : release_build) : option json :=
  (fun p => projection_json p (resolved_eve_version build)) <$> discovery_projection build.

Section BuildDeploy.
Context `{Platform} `{Dates} `{Locale} `{WorkerHost} `{LaunchHost} `{JobHost} `{AbortSignal} `{BuildHost}.

(** [createId(prefix)], in the worker. *)
Definition draw_id (prefix : string) : Work string :=
  fun w => let (r, s) := createId prefix (w_store w) in (r, mk_world s (w_log w)).

(** A change of the ports in flight, which is not awaited. *)
Definition note_call (c : host_call) : Work unit :=
  fun w => (Ok tt, mk_world (w_store w) (w_log w ++ [Host c])%list).

(** [try { m } finally { f }] *)
Definition finally {A} (m : Work A) (f : Work unit) : Work A :=
  r <- attempt m ;;
  f ;;
  lift r.

(** ** Before the build *)

Definition world_missing : string :=
  "No EVELAND_WORKFLOW_WORLD_URL is configured for the shared durable workflow world every new build uses.".

Definition deploy_blocked (projectId detail : string) : Work unit :=
  job_log projectId None "deploy" ("Deploy blocked: " +:+ detail) ;;
  throw (Error detail).

Definition expected_identity (options : build_options) : Work string :=
  match bo_worldClusterIdentity options with
  | Some identity => ret identity
  | None => hosted (fun _ => HostCall "resolveWorldClusterIdentity") resolveWorldClusterIdentity
  end.

(** A production build needs a world, and a dispatcher that is proven to claim
    from it. *)
Definition production_gate (projectId : string) (options : build_options) : Work unit :=
  if bo_isProduction options then
    match truthy (bo_worldUrl options) with
    | None => deploy_blocked projectId world_missing
    | Some _ =>
        expected <- expected_identity options ;;
        registration <- hosted ReadDispatcher dispatcher_row ;;
        now <- date_now ;;
        match assessDispatcherReadiness registration now
                (resolveDispatcherHeartbeatTtlMs (bo_dispatcherTtl options)) (Some expected) with
        | DispatcherReady => ret tt
        | NotReady reason => deploy_blocked projectId reason
        end
    end
  else ret tt.

(** What is fixed before the build: the previous deployment, the names the job
    draws, what a launch needs and the variables of the build. *)
Record build_plan : Type := mk_plan {
  bp_revision : SourceRevision.source_revision_row;
  bp_runtime : runtime_adapter;
  bp_previous : option Deployment.deployment_row;
  bp_releaseId : string; bp_deploymentId : string; bp_processName : string; bp_buildDir : string;
  bp_prerequisites : launch_prerequisites;
  bp_variables : gmap string string
}.

Definition plan_build (projectId : string) (options : build_options)
    (revision : SourceRevision.source_revision_row) : Work build_plan :=
  runtime <- lift (bo_adapter options) ;;
  previous <- op "getCurrentDeployment" (getCurrentDeployment projectId) ;;
  releaseId <- draw_id "rel" ;;
  deploymentId <- draw_id "dep" ;;
  prerequisites <- resolveDeploymentLaunchPrerequisites projectId deploymentId (ra_name runtime)
                     (SourceRevision.sourcePath revision) [] None ;;
  variables <- hosted (fun _ => HostCall "composeBuildVariables") (compose_build_variables projectId) ;;
  ret (mk_plan revision runtime previous releaseId deploymentId
         ("eveland-" +:+ processSafeName projectId +:+ "-" +:+ processSafeName deploymentId)
         (path_join [bo_dataDir options; "builds"; projectId; releaseId]) prerequisites variables).

(** ** The build *)

Definition build_input_of (projectId : string) (options : build_options) (plan : build_plan) : build_input :=
  mk_build_input projectId (bp_releaseId plan) (SourceRevision.sourcePath (bp_revision plan)) (bp_buildDir plan)
    (lp_commandContext (bp_prerequisites plan)) (bp_variables plan) EVELAND_WORKFLOW_WORLD
    (path_join [bo_dataDir options; MODEL_CATALOG_CACHE_RELATIVE_PATH]).

Definition built (r : result release_build) : result string :=
  match r with Ok build => Ok (rb_releaseRef build) | Err e => Err e end.

Definition run_build (projectId : string) (options : build_options) (plan : build_plan) : Work release_build :=
  try_catch
    (throw_if_aborted ;;
     hosted (fun r => BuildRelease (ra_name (bp_runtime plan)) (bp_releaseId plan) (built r))
       (build_release (ra_name (bp_runtime plan)) (build_input_of projectId options plan)))
    (fun e => rm (bp_buildDir plan) ;; throw e).

(** [runtime.removeRelease] of a release, when the adapter has it. *)
Definition remove_built (runtime : runtime_adapter) (releaseRef : string) : Work unit :=
  match ra_removeRelease runtime with
  | Some removeRelease => hosted (RemoveRelease (ra_name runtime) releaseRef) (removeRelease releaseRef)
  | None => ret tt
  end.

Definition ignoring (m : Work unit) : Work unit := try_catch m (fun _ => ret tt).

(** [validateModelGatewayModels]: what the gateway lists, as of the log. *)
Definition validate_models (options : build_options) (plan : build_plan) (build : release_build)
    : Work validation_result :=
  settle ;;
  gets (fun w => validateModelGatewayModels (lp_env (bp_prerequisites plan))
    (if default false (rb_modelGatewayProvider build) then default [] (rb_staticModelIds build) else [])
    (fun baseUrl apiKey => bo_listGatewayModels options baseUrl apiKey (w_log w))).

Definition check_models (projectId : string) (options : build_options) (plan : build_plan)
    (build : release_build) : Work unit :=
  validation <- validate_models options plan build ;;
  for_m (modelGatewayValidationLog validation) (job_log projectId None "build") ;;
  if modelGatewayValidationFails validation then
    ignoring (remove_built (bp_runtime plan) (rb_releaseRef build)) ;;
    ignoring (rm (bp_buildDir plan)) ;;
    throw (modelGatewayValidationError validation)
  else ret tt.

Definition record_definitions (projectId : string) (plan : build_plan) (build : release_build) : Work unit :=
  match rb_schedulerDefinitions build with
  | Some definitions =>
      _rows <- op "recordScheduleVersions"
        (recordScheduleVersions projectId (SourceRevision.id (bp_revision plan)) definitions) ;;
      ret tt
  | None => ret tt
  end.

Definition unrecognized_manifest : string :=
  "WARNING: the release's eve discovery manifest was not recognized; recording the release without a build summary.".

Definition warn_unrecognized (projectId : string) (build : release_build) : Work unit :=
  match rb_discovery build, discovery_projection build with
  | Some _, None => job_log projectId None "build" unrecognized_manifest
  | _, _ => ret tt
  end.

Definition allocate_port (options : build_options) : Work Z :=
  match bo_allocateHostPort options with
  | Some allocate => hosted (fun _ => HostCall "allocateHostPort") allocate
  | None =>
      reserved <- op "listReservedDeploymentHostPorts" listReservedDeploymentHostPorts ;;
      allocateAvailableHostPort None None reserved
  end.

(** From the build to the claim of the port. *)
Definition prepare_release (projectId : string) (options : build_options) (plan : build_plan)
    (build : release_build) : Work (launch_context * Z) :=
  (if bool_decide (js_trim (rb_log build) = "") then ret tt
   else job_log projectId None "build"
          (maskKnownSecrets (js_trim (rb_log build)) (lp_secretValues (bp_prerequisites plan)))) ;;
  check_models projectId options plan build ;;
  record_definitions projectId plan build ;;
  warn_unrecognized projectId build ;;
  ensureDeploymentLaunchSandbox (bp_prerequisites plan) ;;
  launchContext <- materializeDeploymentLaunchContext (bp_releaseId plan) (bp_prerequisites plan) None ;;
  hostPort <- allocate_port options ;;
  ret (launchContext, hostPort).

(** ** The deployment *)

Definition start_input (plan : build_plan) (build : release_build) (launchContext : launch_context)
    (hostPort : Z) : process_start :=
  createDeploymentStartInput (bp_processName plan) (rb_releaseRef build) hostPort launchContext.

(** The port inside of the process that was started. *)
Definition start_release (plan : build_plan) (build : release_build) (launchContext : launch_context)
    (hostPort : Z) : Work Z :=
  throw_if_aborted ;;
  startProcess (bp_runtime plan) (start_input plan build launchContext hostPort) ;;
  gets (fun w => internal_port (ra_name (bp_runtime plan)) (start_input plan build launchContext hostPort) (w_log w)).

Definition deployment_record (projectId : string) (plan : build_plan) (build : release_build)
    (hostPort internalPort : Z) : deployment_input :=
  mk_deployment_input (Some (bp_releaseId plan)) (Some (bp_deploymentId plan)) projectId
    (SourceRevision.id (bp_revision plan)) (rb_releaseRef build) (Some OBSERVER_RUNTIME_CONTRACT)
    (release_summary build) (bp_processName plan) internalPort hostPort (ra_name (bp_runtime plan))
    (deriveWorkflowWorldAttestation <$> rb_workflowWorld build)
    (Some (default false (rb_modelGatewayProvider build))).

Definition succeeded {A} (r : result A) : bool := match r with Ok _ => true | Err _ => false end.

(** The release must answer before it is recorded. *)
Definition record_release (projectId : string) (options : build_options) (plan : build_plan)
    (build : release_build) (hostPort internalPort : Z) : Work Deployment.deployment_row :=
  waitForOwnedHttpHealth (bp_runtime plan) (bp_processName plan) (bo_waitForDeployment options)
    (mk_health_input "127.0.0.1" hostPort (bo_healthTimeoutMs options)) ;;
  throw_if_aborted ;;
  stored (fun r => RecordDeployment (bp_deploymentId plan) (succeeded r))
    (recordDeployment (deployment_record projectId plan build hostPort internalPort)).

Definition summary_line (p : summary_projection) (build : release_build) : string :=
  "Recorded the release summary from eve's discovery manifest (v" +:+ pretty (pr_manifestVersion p)
  +:+ (match resolved_eve_version build with Some v => ", eve " +:+ v | None => "" end) +:+ ").".

Definition log_summary (projectId : string) (build : release_build) : Work unit :=
  match discovery_projection build with
  | Some p => job_log projectId None "build" (summary_line p build)
  | None => ret tt
  end.

(** The first deployment of a project takes its schedules. *)
Definition target_schedules (projectId : string) (plan : build_plan) (build : release_build)
    (deployment : Deployment.deployment_row) : Work unit :=
  match bp_previous plan, rb_schedulerDefinitions build with
  | None, Some (_ :: _) =>
      _row <- op "setProjectSchedulerTarget" (setProjectSchedulerTarget projectId (Deployment.id deployment) None) ;;
      ret tt
  | _, _ => ret tt
  end.

Definition base_domain (options : build_options) : string :=
  js_trim (default "" (head (split_at (Ascii.ascii_of_nat 44)
    (default "agent.localhost" (bo_agentBaseDomains options))))).

Definition warn_drift (projectId : string) (deployment : Deployment.deployment_row) : Work unit :=
  drift <- op "getProjectHotfixDrift" (getProjectHotfixDrift projectId) ;;
  match drift with
  | Some drift =>
      if bool_decide (hd_deploymentId drift = Deployment.id deployment)
      then job_log projectId (Some (Deployment.id deployment)) "deploy" (hotfixDriftWarning drift)
      else ret tt
  | None => ret tt
  end.

Definition promote_release (job : job_view) (deployment : Deployment.deployment_row) : Work unit :=
  let pid := JobView.projectId job in
  if payload_true job "promoteAfterDeploy" then
    throw_if_aborted ;;
    _route <- stored (fun _ => PromoteDeployment (Deployment.id deployment))
                (promoteDeployment pid (Deployment.id deployment)) ;;
    job_log pid (Some (Deployment.id deployment)) "deploy"
      ("Promoted deployment " +:+ Deployment.deploymentKey deployment +:+ " to the stable route.") ;;
    warn_drift pid deployment
  else ret tt.

(** [value?.replace(/\/$/, "")] *)
Definition without_slash (url : string) : string :=
  if ends_with "/" url then String.substring 0 (String.length url - 1) url else url.

Definition invalidate_one (url token hostname : string) : Work unit :=
  status <- hosted (fun _ => HostCall "invalidate") (post_invalidate url token hostname) ;;
  throw_if (negb ((200 <=? status) && (status <=? 299))%Z)
    (Error ("Agent Gateway returned " +:+ pretty status +:+ " while invalidating " +:+ hostname +:+ ".")).

Definition invalidateGatewayRouteCache (options : build_options) (routes : list AgentRoute.agent_route_row)
    : Work unit :=
  match truthy (without_slash <$> bo_gatewayInternalUrl options), truthy (bo_gatewayServiceToken options) with
  | Some url, Some token => for_m routes (fun route => invalidate_one url token (AgentRoute.hostname route))
  | _, _ => ret tt
  end.

(** What follows the record: the routes, the promotion, the project's state. *)
Definition publish_release (job : job_view) (options : build_options) (plan : build_plan)
    (build : release_build) (hostPort : Z) (deployment : Deployment.deployment_row) : Work unit :=
  let pid := JobView.projectId job in
  let did := Deployment.id deployment in
  _replaced <- op "replaceJobPayload" (replaceJobPayload (JobView.id job) "build_deploy"
    (spread (JobView.payload job) "deploymentId" (JStr did)) (JobView.attempts job)) ;;
  throw_if_aborted ;;
  log_summary pid build ;;
  target_schedules pid plan build deployment ;;
  routes <- op "ensureDeploymentRoutes" (ensureDeploymentRoutes pid did (base_domain options)) ;;
  promote_release job deployment ;;
  try_catch (invalidateGatewayRouteCache options routes)
    (fun e => job_log pid (Some did) "deploy"
                ("Agent Gateway cache invalidation deferred to TTL: " +:+ error_text e)) ;;
  project_state_is pid (Some ProjectStatus.deployed) (Some DeploymentStatus.running) ;;
  job_log pid (Some did) "deploy" ("Deployment running on 127.0.0.1:" +:+ pretty hostPort +:+ ".").

(** ** After a failure *)

(** [cleanupErrors] *)
Definition collect (errors : list string) (m : Work unit) : Work (list string) :=
  try_catch (m ;; ret errors) (fun e => ret (errors ++ [error_text e])%list).

Definition discard_release (projectId : string) (plan : build_plan) (build : release_build)
    (launchContext : launch_context) : Work unit :=
  errors <- collect [] (remove_built (bp_runtime plan) (rb_releaseRef build)) ;;
  errors <- collect errors (rm (bp_buildDir plan)) ;;
  match errors with
  | [] => ret tt
  | _ => job_log projectId None "deploy"
           (maskKnownSecrets ("Cleanup after failed deploy also failed: " +:+ String.concat "; " errors)
              (lx_secretValues launchContext))
  end.

(** The [catch]: [started] and [recorded] tell how far the deployment came. *)
Definition deploy_failed (projectId : string) (plan : build_plan) (build : release_build)
    (launchContext : launch_context) (started recorded : bool) : Work unit :=
  (if started
   then stopStartedProcessOnFailure projectId (bp_runtime plan) (bp_processName plan) "deploy"
          (lx_secretValues launchContext)
   else ret tt) ;;
  (if recorded then ret tt else discard_release projectId plan build launchContext).

(** The part of the [try] up to the next assignment of [startedProcess] or
    [deploymentRecorded], with the [catch]. *)
Definition phase {A} (projectId : string) (plan : build_plan) (build : release_build)
    (launchContext : launch_context) (started recorded : bool) (m : Work A) : Work A :=
  try_catch m (fun e => deploy_failed projectId plan build launchContext started recorded ;; throw e).

Definition deploy_release (job : job_view) (options : build_options) (plan : build_plan)
    (build : release_build) (launchContext : launch_context) (hostPort : Z) : Work unit :=
  let pid := JobView.projectId job in
  internalPort <- phase pid plan build launchContext false false
                    (start_release plan build launchContext hostPort) ;;
  deployment <- phase pid plan build launchContext true false
                  (record_release pid options plan build hostPort internalPort) ;;
  phase pid plan build launchContext true true
    (publish_release job options plan build hostPort deployment).

(** From the build on. *)
Definition build_and_deploy (job : job_view) (options : build_options) (plan : build_plan) : Work unit :=
  let pid := JobView.projectId job in
  project_state_is pid (Some ProjectStatus.build_pending) (Some DeploymentStatus.building) ;;
  job_log pid None "build"
    ("Building release " +:+ bp_releaseId plan +:+ " from " +:+ SourceRevision.sourcePath (bp_revision plan) +:+ ".") ;;
  build <- run_build pid options plan ;;
  prepared <- prepare_release pid options plan build ;;
  note_call (ClaimPort prepared.2) ;;
  finally (deploy_release job options plan build prepared.1 prepared.2) (note_call (FreePort prepared.2)).

Definition handleBuildDeployJob (job : job_view) (options : build_options) : Work unit :=
  let pid := JobView.projectId job in
  project <- op "getProject" (getProject pid) ;;
  _project <- some_or project (Error ("Project " +:+ pid +:+ " not found.")) ;;
  revision <- op "getCurrentSourceRevision" (getCurrentSourceRevision pid) ;;
  revision <- some_or revision (Error ("Project " +:+ pid +:+ " has no source revision to deploy.")) ;;
  production_gate pid options ;;
  plan <- plan_build pid options revision ;;
  build_and_deploy job options plan.
End BuildDeploy.
