(* ===== verification/BuildRuns.v ===== *)
(** * What the build job does

    The calls of a build and deploy job that matter, in their order, on every
    branch: what is started, recorded, promoted, stopped and taken away. *)

From stdpp Require Import pretty.
From S2P Require Import Prelude Strings Encoding DispatchCredential JobRuns ScheduleJob GitImport Schema Store Tables Sample ModelValidation Jobs Runtime Routing Slugs Projects Sessions Cron Schedules Deployments Sources EveVersion Discovery Dispatcher Worker Traces Activation Reapers Launch RuntimeJobs BuildDeploy.

Open Scope eve_scope.
Open Scope string_scope.

(** ** What a deploy does, in its order *)

Open Scope list_scope.

(** The calls that matter, each with what its answer was; a stop and a removal
    are marked as asked for, whatever they answered. *)
Inductive build_mark :=
  | Built (releaseId : string) (releaseRef : option string)
  | PortClaimed (port : Z)
  | Started (input : process_start) (ok : bool)
  | PortProven (processName : string) (port : Z)
  | Answered
  | Recorded (deploymentId : string) (ok : bool)
  | Promoted (deploymentId : string)
  | Stopped (processName : string)
  | ReleaseRemoved (releaseRef : string)
  | FilesRemoved (path : string)
  | PortFreed (port : Z).

Definition build_mark_of (e : work_event) : option build_mark :=
  match e with
  | Host (BuildRelease _ releaseId (Ok ref)) => Some (Built releaseId (Some ref))
  | Host (BuildRelease _ releaseId (Err _)) => Some (Built releaseId None)
  | Host (ClaimPort port) => Some (PortClaimed port)
  | Host (StartProcess _ input answer) => Some (Started input (succeeded answer))
  | Host (VerifyPort _ name port (Ok PortOwned)) => Some (PortProven name port)
  | Host (Fetch _ _ (Ok _)) | Host (Health _ _ _ (Ok _)) => Some Answered
  | Stored (RecordDeployment id recorded) _ _ => Some (Recorded id recorded)
  | Stored (PromoteDeployment id) _ _ => Some (Promoted id)
  | Host (StopProcess _ name _) => Some (Stopped name)
  | Host (RemoveRelease _ ref _) => Some (ReleaseRemoved ref)
  | Host (RemoveFiles path _) => Some (FilesRemoved path)
  | Host (FreePort port) => Some (PortFreed port)
  | _ => None
  end.

Abbreviation marks := (marks_by build_mark_of).

(** A line of the log that was not written. *)
Definition line_lost (es : list work_event) : Prop := exists d, Stored (StoreCall "appendLog") d d ∈ es.

(** All of it, or its beginning when a line of the log was lost. *)
Definition unless (lost : Prop) (whole ms : list build_mark) : Prop :=
  ms = whole \/ (lost /\ ms `prefix_of` whole).

Section DeployTrace.
Context (job : job_view) (plan : build_plan) (lost : Prop) (chosen : Z -> Prop).
Context (validated : string -> validation_result -> Prop).

(** The process holds its port, where the runtime can tell, and has answered. *)
Definition proofs (port : Z) : list build_mark :=
  match ra_verifyPortOwnership (bp_runtime plan) with
  | Some _ => [PortProven (bp_processName plan) port; Answered]
  | None => [Answered]
  end.

(** What is taken away of a release that is not recorded. *)
Definition discarded (ref : string) : list build_mark :=
  match ra_removeRelease (bp_runtime plan) with
  | Some _ => [ReleaseRemoved ref; FilesRemoved (bp_buildDir plan)]
  | None => [FilesRemoved (bp_buildDir plan)]
  end.

(** With the port claimed: the start fails, and the release goes; or it is not
    proven, or not recorded, and the process is stopped and the release goes; or it
    is recorded, and stays, promoted only if the job says so: a failure after that
    stops the process. *)
Inductive deploy_trace (ref : string) (input : process_start) : result unit -> list build_mark -> Prop :=
  | trace_unstarted e start :
      start = [] \/ start = [Started input false] ->
      deploy_trace ref input (Err e) (start ++ discarded ref)
  | trace_unrecorded e proven ending :
      proven `prefix_of` (proofs (ps_port input) ++ [Recorded (bp_deploymentId plan) false]) ->
      unless lost (Stopped (bp_processName plan) :: discarded ref) ending ->
      deploy_trace ref input (Err e) (Started input true :: proven ++ ending)
  | trace_recorded r promotion ending :
      promotion = [] \/
        (payload_true job "promoteAfterDeploy" = true /\ promotion = [Promoted (bp_deploymentId plan)]) ->
      match r with
      | Ok _ => ending = []
      | Err _ => unless lost [Stopped (bp_processName plan)] ending
      end ->
      deploy_trace ref input r
        (Started input true :: proofs (ps_port input) ++ Recorded (bp_deploymentId plan) true :: promotion ++ ending).

(** A build that fails leaves no files. A release whose models the gateway refuses
    is discarded, with that as the error; one whose models pass is left as it is
    when the launch cannot be prepared, and otherwise starts on a port that is
    chosen, claimed and given back at the end. *)
Inductive build_trace : result unit -> list build_mark -> Prop :=
  | trace_unbuilt e failed :
      failed = [] \/ failed = [Built (bp_releaseId plan) None] ->
      build_trace (Err e) (failed ++ [FilesRemoved (bp_buildDir plan)])
  | trace_refused v ref :
      validated ref v -> modelGatewayValidationFails v = true ->
      build_trace (Err (modelGatewayValidationError v))
        (Built (bp_releaseId plan) (Some ref) :: discarded ref)
  | trace_unprepared e ref :
      lost \/ (exists v, validated ref v /\ modelGatewayValidationFails v = false) ->
      build_trace (Err e) [Built (bp_releaseId plan) (Some ref)]
  | trace_deployed r v ref input ms :
      validated ref v -> modelGatewayValidationFails v = false ->
      ps_releaseRef input = ref -> ps_processName input = bp_processName plan -> chosen (ps_port input) ->
      deploy_trace ref input r ms ->
      build_trace r (Built (bp_releaseId plan) (Some ref) :: PortClaimed (ps_port input)
                     :: ms ++ [PortFreed (ps_port input)]).
End DeployTrace.

Section BuildRuns.
Context `{Platform} `{Dates} `{Locale} `{WorkerHost} `{LaunchHost} `{JobHost} `{AbortSignal} `{BuildHost}.

(** The plan's names: an identifier of its own for the release and for the
    deployment, the process and the directory that carry them. *)
Definition planned (projectId : string) (options : build_options) (plan : build_plan) : Prop :=
  bo_adapter options = Ok (bp_runtime plan) /\
  (exists n m, bp_releaseId plan = "rel_" +:+ nanoid n /\ bp_deploymentId plan = "dep_" +:+ nanoid m) /\
  bp_processName plan = "eveland-" +:+ processSafeName projectId +:+ "-" +:+ processSafeName (bp_deploymentId plan) /\
  bp_buildDir plan = path_join [bo_dataDir options; "builds"; projectId; bp_releaseId plan].

(** The dispatcher was asked and found ready for the world that is expected. *)
Definition dispatcher_proven (options : build_options) (es : list work_event) : Prop :=
  truthy (bo_worldUrl options) <> None /\
  exists registration now expected, Host (ReadDispatcher (Ok registration)) ∈ es /\
    assessDispatcherReadiness registration now (resolveDispatcherHeartbeatTtlMs (bo_dispatcherTtl options))
      (Some expected) = DispatcherReady.

(** A port that no deployment was reserving when the job asked. *)
Definition port_unreserved (es : list work_event) (port : Z) : Prop :=
  exists d reserved, reads "listReservedDeploymentHostPorts" d ∈ es /\
    (forall s, st_db s = d -> listReservedDeploymentHostPorts s = (Ok reserved, s)) /\ port ∉ reserved.

(** The verdict of the gateway on the models of a release, as of a log. *)
Definition model_verdict (options : build_options) (plan : build_plan) (build : release_build)
    (log : list work_event) : validation_result :=
  validateModelGatewayModels (lp_env (bp_prerequisites plan))
    (if default false (rb_modelGatewayProvider build) then default [] (rb_staticModelIds build) else [])
    (fun baseUrl apiKey => bo_listGatewayModels options baseUrl apiKey log).

Definition built_event (plan : build_plan) (ref : string) : work_event :=
  Host (BuildRelease (ra_name (bp_runtime plan)) (bp_releaseId plan) (Ok ref)).

(** The line of the build's own log, when it has one. *)
Definition build_noted (build : release_build) (note : list work_event) : Prop :=
  if bool_decide (js_trim (rb_log build) = "") then note = []
  else exists d d', note = [Stored (StoreCall "appendLog") d d'].

(** The verdict that the job acts on: of the release that its adapter built, on
    what the gateway lists right after the build and its line of the log.  [base]
    is the log before the job. *)
Definition validated (projectId : string) (options : build_options) (plan : build_plan)
    (base es : list work_event) (ref : string) (v : validation_result) : Prop :=
  exists build past note future,
    es = past ++ [built_event plan ref] ++ note ++ future /\
    build_release (ra_name (bp_runtime plan)) (build_input_of projectId options plan) (base ++ past) = Ok build /\
    rb_releaseRef build = ref /\ build_noted build note /\
    v = model_verdict options plan build (base ++ past ++ [built_event plan ref] ++ note).

(** *** Calls that leave no mark *)

Abbreviation unmarked := (unmarked_by build_mark_of).
Abbreviation silent := (within (logs_only unmarked)).
Abbreviation ends_silent := (Traces.ends_silent build_mark_of).
Abbreviation ends_call := (Traces.ends_call build_mark_of).

Lemma mute_hosted {A} (c : result A -> host_call) answer :
  (forall r, unmarked (Host (c r))) -> silent (hosted c answer).
Proof. apply logs_hosted. Qed.

Lemma mute_op {A} name (m : Tx A) : silent (op name m).
Proof. by apply unmarked_op. Qed.

Lemma mute_gets {A} (f : world -> A) : silent (gets f).
Proof. by intros w. Qed.

Lemma mute_settle : silent settle.
Proof. apply logs_settle. Qed.

Lemma mute_date_now : silent date_now.
Proof. apply logs_date_now. Qed.

Lemma mute_draw prefix : silent (draw_id prefix).
Proof. intros w. unfold exec, draw_id. simpl. exists []. by rewrite app_nil_r. Qed.
#[local] Hint Resolve mute_op mute_gets mute_settle mute_date_now mute_draw : within.
#[local] Hint Extern 2 (within (logs_only unmarked) (hosted _ _)) => apply mute_hosted; done : within.

Lemma mute_job_log pid did type line : silent (job_log pid did type line).
Proof. unfold job_log. stroll. Qed.

Lemma mute_aborted : silent throw_if_aborted.
Proof. unfold throw_if_aborted. stroll. Qed.

Lemma mute_project_state pid status deployment : silent (project_state_is pid status deployment).
Proof. unfold project_state_is. stroll. Qed.
#[local] Hint Resolve mute_job_log mute_aborted mute_project_state : within.

Lemma mute_probe address port : silent (isTcpPortAvailable address port).
Proof. unfold isTcpPortAvailable. stroll. Qed.
#[local] Hint Resolve mute_probe : within.

Lemma mute_first reserved ports e : silent (first_available reserved ports e).
Proof. induction ports as [|port ports IH]; simpl; unfold taken; stroll. Qed.
#[local] Hint Resolve mute_first : within.

Lemma mute_record_definitions pid plan build : silent (record_definitions pid plan build).
Proof. unfold record_definitions. stroll. Qed.

Lemma mute_warn pid build : silent (warn_unrecognized pid build).
Proof. unfold warn_unrecognized. stroll. Qed.

Lemma mute_sandbox p : silent (ensureDeploymentLaunchSandbox p).
Proof. unfold ensureDeploymentLaunchSandbox. stroll. Qed.

Lemma mute_materialize rid p stale : silent (materializeDeploymentLaunchContext rid p stale).
Proof. unfold materializeDeploymentLaunchContext, warnStaleObserverRelease, runtime_log. stroll. Qed.

Lemma mute_prerequisites pid did kind path files persisted :
  silent (resolveDeploymentLaunchPrerequisites pid did kind path files persisted).
Proof. unfold resolveDeploymentLaunchPrerequisites. stroll. Qed.
#[local] Hint Resolve mute_record_definitions mute_warn mute_sandbox mute_materialize mute_prerequisites : within.

(** *** Clauses *)

Lemma line_lost_more K K' : line_lost K -> line_lost (K ++ K').
Proof. intros (d & Hd). exists d. set_solver. Qed.

Lemma appendLog_error input s e s' : appendLog input s = (Err e, s') -> st_db s' = st_db s.
Proof.
  unfold appendLog, transaction. destruct (bind _ _ s) as [[row|e'] s1]; [done|]. by intros [= _ <-].
Qed.

Lemma ends_job_log pid did type line K w (Q : result unit -> list work_event -> world -> Prop) :
  (forall K' w', marks K' = marks K -> Q (Ok tt) K' w') ->
  (forall e K' w', marks K' = marks K -> line_lost K' -> Q (Err e) K' w') ->
  ends any K w (job_log pid did type line) Q.
Proof.
  intros Hok Herr. unfold job_log. apply ends_bind, (ends_op any any_more); [done|].
  intros s [row|e] w' Hrun.
  - apply ends_ret, Hok. by rewrite marks_by_app, app_nil_r.
  - apply Herr; [by rewrite marks_by_app, app_nil_r|]. apply appendLog_error in Hrun as ->.
    exists (st_db s). set_solver.
Qed.

(** The diagnostics of a process. *)
Lemma ends_diagnostics pid adapter name secrets K w (Q : result unit -> list work_event -> world -> Prop) :
  (forall K' w', marks K' = marks K -> Q (Ok tt) K' w') ->
  (forall e K' w', marks K' = marks K -> line_lost K' -> Q (Err e) K' w') ->
  ends any K w (log_diagnostics pid adapter name secrets) Q.
Proof.
  intros Hok Herr. unfold log_diagnostics. destruct (process_diagnostics _) as [diagnostics|]; [|by apply ends_ret, Hok].
  apply ends_catch, ends_bind, ends_call. intros r K1 w1 HK1 _. cbn [build_mark_of] in HK1.
  assert (Hlog : forall line K2 w2, marks K2 = marks K -> ends any K2 w2 (job_log pid None "runtime" line) Q).
  { intros line K2 w2 HK2. apply ends_job_log; [intros; apply Hok; congruence|intros; apply Herr; [congruence|done]]. }
  destruct r as [answer|e]; [|by apply Hlog].
  apply ends_job_log; [intros; apply Hok|intros; apply Hlog]; congruence.
Qed.

Definition stop_ends (pid : string) (K : list work_event) (name : string)
    (r : result unit) (K' : list work_event) : Prop :=
  exists ms, marks K' = marks K ++ ms /\
    ((r = Ok tt /\ ms = [Stopped name]) \/ ((exists e, r = Err e) /\ ms `prefix_of` [Stopped name] /\ line_lost K')).

Lemma ends_stop pid adapter name which secrets K w (Q : result unit -> list work_event -> world -> Prop) :
  (forall K' w', marks K' = marks K ++ [Stopped name] -> Q (Ok tt) K' w') ->
  (forall e ms K' w', marks K' = marks K ++ ms -> ms `prefix_of` [Stopped name] -> line_lost K' -> Q (Err e) K' w') ->
  ends any K w (stopStartedProcessOnFailure pid adapter name which secrets) Q.
Proof.
  intros Hok Herr. unfold stopStartedProcessOnFailure. apply ends_bind, ends_diagnostics.
  2: { intros e K1 w1 HK1 Hl. apply (Herr e []); [by rewrite app_nil_r|by exists [Stopped name]|done]. }
  intros K1 w1 HK1. apply ends_catch, ends_call. intros r K2 w2 HK2 _. cbn [build_mark_of] in HK2.
  rewrite HK1 in HK2. destruct r as [[]|e]; [by apply Hok|]. apply ends_job_log.
  - intros K3 w3 HK3. apply Hok. congruence.
  - intros e' K3 w3 HK3 Hl. apply (Herr e' [Stopped name]); [congruence|done|done].
Qed.

(** The release and its files, as far as the runtime removes releases. *)
Lemma ends_collect errors (m : Work unit) K w (Q : result (list string) -> list work_event -> world -> Prop) :
  ends any K w m (fun _ K' w' => forall errors', Q (Ok errors') K' w') -> ends any K w (collect errors m) Q.
Proof.
  intros Hm. unfold collect. apply ends_catch, ends_bind. eapply ends_weaken; [|exact Hm].
  intros [[]|e] K' w' Hq; apply ends_ret, Hq.
Qed.

Lemma ends_discard pid plan build launchContext K w (Q : result unit -> list work_event -> world -> Prop) :
  (forall r K' w', marks K' = marks K ++ discarded plan (rb_releaseRef build) ->
     (forall e, r = Err e -> line_lost K') -> Q r K' w') ->
  ends any K w (discard_release pid plan build launchContext) Q.
Proof.
  intros Hq. unfold discard_release. apply ends_bind, ends_collect.
  set (removed := match ra_removeRelease (bp_runtime plan) with Some _ => [ReleaseRemoved (rb_releaseRef build)] | None => [] end).
  assert (Hrest : forall K1 w1, marks K1 = marks K ++ removed -> forall errors, ends any K1 w1
    (errors <- collect errors (rm (bp_buildDir plan)) ;;
     match errors with
     | [] => ret tt
     | _ => job_log pid None "deploy"
              (maskKnownSecrets ("Cleanup after failed deploy also failed: " +:+ String.concat "; " errors)
                 (lx_secretValues launchContext))
     end) Q).
  { intros K1 w1 HK1 errors. apply ends_bind, ends_collect, ends_call. intros r K2 w2 HK2 _ errors'.
    cbn [build_mark_of] in HK2.
    assert (HK : marks K2 = marks K ++ discarded plan (rb_releaseRef build)).
    { rewrite HK2, HK1, <- app_assoc. f_equal. unfold removed, discarded. by destruct (ra_removeRelease _). }
    destruct errors' as [|x xs]; [by apply ends_ret, Hq|].
    apply ends_job_log; [intros K3 w3 HK3; apply Hq; [congruence|done]|].
    intros e K3 w3 HK3 Hl. apply Hq; [congruence|done]. }
  unfold remove_built. destruct (ra_removeRelease (bp_runtime plan)) as [remove|].
  - apply ends_call. intros r K1 w1 HK1 _. by apply Hrest.
  - apply ends_ret, Hrest. by rewrite app_nil_r.
Qed.

(** *** The health of the process *)

Lemma ends_http_health fuel input deadline le K w (Q : result unit -> list work_event -> world -> Prop) :
  (forall K' w', marks K' = marks K ++ [Answered] -> Q (Ok tt) K' w') ->
  (forall e K' w', marks K' = marks K -> Q (Err e) K' w') ->
  ends any K w (http_health_loop fuel input deadline le) Q.
Proof.
  intros Hok Herr. revert le K w Hok Herr. induction fuel as [|fuel IH]; intros le K w Hok Herr.
  { unfold ends, stuck. simpl. exists (K ++ [Stuck]). split; [|apply Herr; by rewrite marks_by_app, app_nil_r].
    exists [Stuck]. split; [done|]. split; [done|]. by intros past e future _. }
  simpl. apply ends_bind, ends_date_now. intros t w1. destruct (t <? deadline)%Z; [|by apply ends_throw, Herr].
  apply ends_bind, ends_date_now. intros t2 w2. apply ends_bind, ends_catch, ends_bind, ends_call.
  intros [u|e] K3 w3 HK3 _; cbn [build_mark_of] in HK3;
    apply ends_ret; [by apply ends_ret, Hok|].
  apply ends_bind, ends_date_now. intros t4 w4. destruct (_ <=? 0)%Z; [by apply ends_throw, Herr|].
  apply ends_bind, ends_silent; [by apply logs_delay|]. intros [u|e'] K5 w5 HK5; [|apply Herr; congruence].
  apply IH; rewrite HK5, HK3; done.
Qed.

Lemma ends_await_health f input K w (Q : result unit -> list work_event -> world -> Prop) :
  (forall K' w', marks K' = marks K ++ [Answered] -> Q (Ok tt) K' w') ->
  (forall e K' w', marks K' = marks K -> Q (Err e) K' w') ->
  ends any K w (await_health f input) Q.
Proof.
  intros Hok Herr. unfold await_health, waitForHttpHealth. destruct f as [f|].
  - apply ends_call. intros [[]|e] K' w' HK _; cbn [build_mark_of] in HK;
      [by apply Hok|by apply Herr].
  - apply ends_bind, ends_date_now. intros t w1. by apply ends_http_health.
Qed.

Lemma ends_ownership fuel r verify name input deadline K w (Q : result unit -> list work_event -> world -> Prop) :
  (forall K' w', marks K' = marks K ++ [PortProven name (hi_port input)] -> Q (Ok tt) K' w') ->
  (forall e K' w', marks K' = marks K -> Q (Err e) K' w') ->
  ends any K w (ownership_loop fuel r verify name input deadline) Q.
Proof.
  intros Hok Herr. revert K w Hok Herr. induction fuel as [|fuel IH]; intros K w Hok Herr.
  { unfold ends, stuck. simpl. exists (K ++ [Stuck]). split; [|apply Herr; by rewrite marks_by_app, app_nil_r].
    exists [Stuck]. split; [done|]. split; [done|]. by intros past e future _. }
  simpl. apply ends_bind. unfold verify_port. apply ends_call.
  intros [[| |holder]|e] K1 w1 HK1 _; cbn [build_mark_of] in HK1.
  - by apply ends_ret, Hok.
  - apply ends_bind, ends_date_now. intros t w2. destruct (_ <=? 0)%Z; [by apply ends_throw, Herr|].
    apply ends_bind, ends_silent; [by apply logs_delay|]. intros [u|e] K3 w3 HK3; [|apply Herr; congruence].
    apply IH; rewrite HK3, HK1; done.
  - by apply ends_throw, Herr.
  - by apply Herr.
Qed.

Lemma ends_proofs plan f port timeoutMs K w (Q : result unit -> list work_event -> world -> Prop) :
  (forall K' w', marks K' = marks K ++ proofs plan port -> Q (Ok tt) K' w') ->
  (forall e ms K' w', marks K' = marks K ++ ms -> ms `prefix_of` proofs plan port -> Q (Err e) K' w') ->
  ends any K w (waitForOwnedHttpHealth (bp_runtime plan) (bp_processName plan) f
                  (mk_health_input "127.0.0.1" port timeoutMs)) Q.
Proof.
  intros Hok Herr. unfold waitForOwnedHttpHealth, proofs in *. apply ends_bind, ends_date_now. intros t w1.
  destruct (ra_verifyPortOwnership (bp_runtime plan)) as [verify|].
  - apply ends_bind, ends_ownership.
    + intros K2 w2 HK2. apply ends_bind, ends_date_now. intros t3 w3. apply ends_await_health.
      * intros K4 w4 HK4. apply Hok. by rewrite HK4, HK2, <- app_assoc.
      * intros e K4 w4 HK4. eapply Herr; [by rewrite HK4, HK2|]. by exists [Answered].
    + intros e K2 w2 HK2. apply (Herr e []); [by rewrite app_nil_r|]. by eexists.
  - apply ends_bind, ends_ret, ends_bind, ends_date_now. intros t2 w2. apply ends_await_health; [done|].
    intros e K3 w3 HK3. apply (Herr e []); [by rewrite app_nil_r|]. by eexists.
Qed.

(** *** The deployment *)

Section Deployment.
Context (job : job_view) (options : build_options) (plan : build_plan) (build : release_build)
  (launchContext : launch_context) (hostPort : Z).
Let pid : string := JobView.projectId job.
Let ref : string := rb_releaseRef build.
Let input : process_start := start_input plan build launchContext hostPort.

(** What the [catch] takes away. *)
Definition cleanup (started recorded : bool) : list build_mark :=
  (if started then [Stopped (bp_processName plan)] else []) ++ (if recorded then [] else discarded plan ref).

Lemma ends_failed started recorded K w (Q : result unit -> list work_event -> world -> Prop) :
  (forall r ms K' w', marks K' = marks K ++ ms -> unless (line_lost K') (cleanup started recorded) ms ->
     (started = false -> ms = cleanup started recorded) -> Q r K' w') ->
  ends any K w (deploy_failed pid plan build launchContext started recorded) Q.
Proof.
  intros Hq. unfold deploy_failed. apply ends_bind.
  assert (Hrest : forall K1 w1, marks K1 = marks K ++ (if started then [Stopped (bp_processName plan)] else []) ->
    ends any K1 w1 (if recorded then ret tt else discard_release pid plan build launchContext) Q).
  { intros K1 w1 HK1. assert (Hall : forall r K2 w2, marks K2 = marks K ++ cleanup started recorded -> Q r K2 w2).
    { intros r K2 w2 HK2. apply (Hq r (cleanup started recorded)); [done|by left|done]. }
    destruct recorded.
    - apply ends_ret, Hall. by rewrite HK1, <- (app_nil_r (if started then _ else _)).
    - apply ends_discard. intros r K2 w2 HK2 _. apply Hall. by rewrite HK2, HK1, <- app_assoc. }
  destruct started; [|apply ends_ret, Hrest; by rewrite app_nil_r].
  apply ends_stop; [done|]. intros e ms K1 w1 HK1 Hms Hl. apply (Hq _ ms); [done| |done].
  right. split; [done|]. unfold cleanup. by apply prefix_app_r.
Qed.

Lemma ends_phase {A} started recorded (m : Work A) K w (Q : result A -> list work_event -> world -> Prop) :
  ends any K w m (fun r K1 w1 =>
    match r with
    | Ok a => Q (Ok a) K1 w1
    | Err _ => forall e ending K' w', marks K' = marks K1 ++ ending ->
        unless (line_lost K') (cleanup started recorded) ending ->
        (started = false -> ending = cleanup started recorded) -> Q (Err e) K' w'
    end) ->
  ends any K w (phase pid plan build launchContext started recorded m) Q.
Proof.
  intros Hm. unfold phase. apply ends_catch. eapply ends_weaken; [|exact Hm].
  intros [a|e] K1 w1 Hq; [done|]. apply ends_bind, ends_failed. intros [u|e'] ms K2 w2 HK2 Hms Hs.
  - apply ends_throw. by apply (Hq e ms).
  - by apply (Hq e' ms).
Qed.

Lemma ends_start K w (Q : result Z -> list work_event -> world -> Prop) :
  (forall p K' w', marks K' = marks K ++ [Started input true] -> Q (Ok p) K' w') ->
  (forall e start K' w', marks K' = marks K ++ start -> start = [] \/ start = [Started input false] ->
     Q (Err e) K' w') ->
  ends any K w (start_release plan build launchContext hostPort) Q.
Proof.
  intros Hok Herr. unfold start_release. apply ends_bind, ends_silent; [auto with within|].
  intros [u|e] K1 w1 HK1; [|apply (Herr e []); [by rewrite app_nil_r|by left]].
  apply ends_bind, ends_call. fold input. intros [u'|e] K2 w2 HK2 _; cbn [build_mark_of succeeded] in HK2; rewrite HK1 in HK2.
  - by apply ends_gets, Hok.
  - apply (Herr e [Started input false]); [done|by right].
Qed.

Lemma claim_key_id {A} (claim : string -> Tx (option A)) (P : A -> Prop) :
  (forall key s a s', claim key s = (Ok (Some a), s') -> P a) ->
  forall most left s a s', claim_key_loop claim most left s = (Ok a, s') -> P a.
Proof.
  intros Hc most left. induction left as [|left IH]; intros s a s' Hrun; [done|]. simpl in Hrun.
  apply bind_ok in Hrun as (key & s1 & _ & Hrun). apply bind_ok in Hrun as ([a'|] & s2 & Hclaim & Hrun).
  - injection Hrun as <- <-. by eapply Hc.
  - by eapply IH.
Qed.

(** The row has the identifier it was to have. *)
Lemma recordDeployment_id record did s row s' :
  di_deploymentId record = Some did -> recordDeployment record s = (Ok row, s') -> Deployment.id row = did.
Proof.
  intros Hdid Hrun. unfold recordDeployment in Hrun. rewrite transaction_ok in Hrun.
  apply bind_ok in Hrun as (id & s1 & _ & Hrun). apply bind_ok in Hrun as (now & s2 & _ & Hrun).
  apply bind_ok in Hrun as (release & s3 & _ & Hrun). apply bind_ok in Hrun as (row' & s4 & Hkey & Hrun).
  apply bind_ok in Hrun as (p & s5 & _ & [= <- _]). revert Hkey. unfold claimDeploymentKey.
  apply (claim_key_id _ (fun row => Deployment.id row = did)). clear -Hdid.
  intros key s row s' Hrun. unfold claim_deployment in Hrun. rewrite Hdid in Hrun. unfold try_catch in Hrun.
  destruct (transaction _ s) as [[o|e] s1] eqn:Htx.
  - injection Hrun as -> ->. rewrite transaction_ok in Htx.
    apply bind_ok in Htx as (id & s2 & [= <- <-] & Htx). apply bind_ok in Htx as (now & s3 & _ & Htx).
    apply bind_ok in Htx as (claimed & s4 & (-> & _)%insert_row_ok & [= <- _]). done.
  - destruct (isUniqueConstraint _ _); [by injection Hrun|done].
Qed.

Lemma ends_record internalPort K w (Q : result Deployment.deployment_row -> list work_event -> world -> Prop) :
  (forall row K' w', marks K' = marks K ++ proofs plan hostPort ++ [Recorded (bp_deploymentId plan) true] ->
     Deployment.id row = bp_deploymentId plan -> Q (Ok row) K' w') ->
  (forall e proven K' w', marks K' = marks K ++ proven ->
     proven `prefix_of` (proofs plan hostPort ++ [Recorded (bp_deploymentId plan) false]) -> Q (Err e) K' w') ->
  ends any K w (record_release pid options plan build hostPort internalPort) Q.
Proof.
  intros Hok Herr. unfold record_release. apply ends_bind, ends_proofs.
  2: { intros e ms K1 w1 HK1 Hms. apply (Herr e ms); [done|by apply prefix_app_r]. }
  intros K1 w1 HK1. apply ends_bind, ends_silent; [auto with within|].
  intros [u|e] K2 w2 HK2; [|apply (Herr e (proofs plan hostPort)); [congruence|by apply prefix_app_r]].
  apply (ends_stored any any_more); [done|]. intros s r w3 Hrun.
  assert (HK3 : forall d d', marks (K2 ++ [Stored (RecordDeployment (bp_deploymentId plan) (succeeded r)) d d'])
    = marks K ++ proofs plan hostPort ++ [Recorded (bp_deploymentId plan) (succeeded r)]).
  { intros d d'. by rewrite marks_by_app, HK2, HK1, <- app_assoc. }
  destruct r as [row|e].
  - apply Hok; [apply HK3|]. refine (recordDeployment_id _ _ _ _ _ _ Hrun). reflexivity.
  - eapply Herr; [apply HK3|done].
Qed.

Lemma ends_promote (deployment : Deployment.deployment_row) K w (Q : result unit -> list work_event -> world -> Prop) :
  Deployment.id deployment = bp_deploymentId plan ->
  (forall r promotion K' w', marks K' = marks K ++ promotion ->
     promotion = [] \/ (payload_true job "promoteAfterDeploy" = true /\ promotion = [Promoted (bp_deploymentId plan)]) ->
     Q r K' w') ->
  ends any K w (promote_release job deployment) Q.
Proof.
  intros Hid Hq. unfold promote_release. destruct (payload_true job "promoteAfterDeploy") eqn:Hp.
  2: { apply ends_ret, (Hq _ []); [by rewrite app_nil_r|by left]. }
  apply ends_bind, ends_silent; [auto with within|]. intros [u|e] K1 w1 HK1.
  2: { apply (Hq _ []); [by rewrite app_nil_r|by left]. }
  apply ends_bind, (ends_stored any any_more); [done|]. intros s r w2 _. rewrite Hid.
  assert (HK2 : forall d d', marks (K1 ++ [Stored (PromoteDeployment (bp_deploymentId plan)) d d'])
    = marks K ++ [Promoted (bp_deploymentId plan)]) by (intros; by rewrite marks_by_app, HK1).
  assert (Hend : forall r K3 w3, marks K3 = marks K ++ [Promoted (bp_deploymentId plan)] -> Q r K3 w3)
    by (intros; eapply Hq; [done|by right]).
  destruct r as [route|e]; [|apply Hend, HK2]. apply ends_silent; [unfold warn_drift, getProjectHotfixDrift; stroll|].
  intros r K3 w3 HK3. apply Hend. rewrite HK3. apply HK2.
Qed.

Lemma ends_publish (deployment : Deployment.deployment_row) K w (Q : result unit -> list work_event -> world -> Prop) :
  Deployment.id deployment = bp_deploymentId plan ->
  (forall r promotion K' w', marks K' = marks K ++ promotion ->
     promotion = [] \/ (payload_true job "promoteAfterDeploy" = true /\ promotion = [Promoted (bp_deploymentId plan)]) ->
     Q r K' w') ->
  ends any K w (publish_release job options plan build hostPort deployment) Q.
Proof.
  intros Hid Hq. assert (Hnone : forall r K' w', marks K' = marks K -> Q r K' w')
    by (intros; apply (Hq _ []); [by rewrite app_nil_r|by left]).
  unfold publish_release. apply ends_bind, ends_silent; [auto with within|]. intros [b|e] K1 w1 HK1; [|by apply Hnone].
  apply ends_bind, ends_silent; [auto with within|]. intros [u|e] K2 w2 HK2; [|apply Hnone; congruence].
  apply ends_bind, ends_silent; [unfold log_summary; stroll|]. intros [u'|e] K3 w3 HK3; [|apply Hnone; congruence].
  apply ends_bind, ends_silent; [unfold target_schedules; stroll|]. intros [u2|e] K4 w4 HK4; [|apply Hnone; congruence].
  apply ends_bind, ends_silent; [auto with within|]. intros [routes|e] K5 w5 HK5; [|apply Hnone; congruence].
  apply ends_bind, ends_promote; [done|]. intros r promotion K6 w6 HK6 Hpromo.
  assert (Hend : forall r K7 w7, marks K7 = marks K6 -> Q r K7 w7) by (intros; eapply Hq; [|exact Hpromo]; congruence).
  destruct r as [u3|e]; [|by apply Hend].
  apply ends_silent; [unfold invalidateGatewayRouteCache, invalidate_one; stroll|]. exact Hend.
Qed.

Lemma ends_deploy K w :
  ends any K w (deploy_release job options plan build launchContext hostPort) (fun r K' _ =>
    exists ms, marks K' = marks K ++ ms /\ deploy_trace job plan (line_lost K') ref input r ms).
Proof.
  unfold deploy_release. fold pid. apply ends_bind, ends_phase, ends_start.
  2: { intros e start K1 w1 HK1 Hs e' ending K2 w2 HK2 _ Hall. rewrite (Hall eq_refl) in HK2.
    eexists. split; [by rewrite HK2, HK1, <- app_assoc|]. by apply trace_unstarted. }
  intros internalPort K1 w1 HK1. apply ends_bind, ends_phase, ends_record.
  2: { intros e proven K2 w2 HK2 Hp e' ending K3 w3 HK3 Hend _.
    exists (Started input true :: proven ++ ending).
    split; [rewrite HK3, HK2, HK1; flatten|]. by apply trace_unrecorded. }
  intros deployment K2 w2 HK2 Hid. apply ends_phase, ends_publish; [done|].
  intros r promotion K3 w3 HK3 Hp.
  assert (HK : marks K3 = marks K ++ Started input true :: proofs plan (ps_port input) ++
      Recorded (bp_deploymentId plan) true :: promotion).
  { rewrite HK3, HK2, HK1. flatten. }
  destruct r as [[]|e].
  - exists (Started input true :: proofs plan (ps_port input) ++ Recorded (bp_deploymentId plan) true :: promotion ++ []).
    split; [by rewrite app_nil_r|]. by apply trace_recorded.
  - intros e' ending K4 w4 HK4 Hend _.
    exists (Started input true :: proofs plan (ps_port input) ++ Recorded (bp_deploymentId plan) true :: promotion ++ ending).
    split; [rewrite HK4, HK; flatten|]. by apply trace_recorded.
Qed.
End Deployment.

(** *** The build *)

(** The log of the world goes along with the calls. *)
Lemma ends_based {A} base K w (m : Work A) (Q : result A -> list work_event -> world -> Prop) :
  w_log w = base ++ K ->
  ends any K w m (fun r K' w' => w_log w' = base ++ K' -> Q r K' w') -> ends any K w m Q.
Proof.
  unfold ends. destruct (m w) as [r w']. intros Hbase (K' & Hl & Hq). exists K'. split; [done|].
  apply Hq. destruct Hl as (es & Hlog & -> & _). by rewrite Hlog, Hbase, app_assoc.
Qed.

Lemma ends_asked {A} K w (c : result A -> host_call) answer (Q : result A -> list work_event -> world -> Prop) :
  (forall w', Q (answer (w_log w)) (K ++ [Host (c (answer (w_log w)))]) w') ->
  ends any K w (hosted c answer) Q.
Proof.
  intros Hq. unfold ends, hosted, bind, settle. simpl. eexists. split; [|apply Hq].
  eexists. split; [done|]. split; [done|]. by intros past e future _.
Qed.

Lemma ends_run_build base pid options plan K w (Q : result release_build -> list work_event -> world -> Prop) :
  w_log w = base ++ K ->
  (forall build past w', marks past = marks K ->
     build_release (ra_name (bp_runtime plan)) (build_input_of pid options plan) (base ++ past) = Ok build ->
     w_log w' = base ++ past ++ [built_event plan (rb_releaseRef build)] ->
     Q (Ok build) (past ++ [built_event plan (rb_releaseRef build)]) w') ->
  (forall e failed K' w', marks K' = marks K ++ failed ++ [FilesRemoved (bp_buildDir plan)] ->
     failed = [] \/ failed = [Built (bp_releaseId plan) None] -> Q (Err e) K' w') ->
  ends any K w (run_build pid options plan) Q.
Proof.
  intros Hbase Hok Herr. unfold run_build.
  assert (Hrm : forall e failed K1 w1, marks K1 = marks K ++ failed ->
    failed = [] \/ failed = [Built (bp_releaseId plan) None] ->
    ends any K1 w1 (rm (bp_buildDir plan) ;; throw e) Q).
  { intros e failed K1 w1 HK1 Hf. apply ends_bind, ends_call. intros r K2 w2 HK2 _. cbn [build_mark_of] in HK2.
    rewrite HK1, <- app_assoc in HK2. destruct r as [u|e']; [apply ends_throw|]; by eapply Herr. }
  apply ends_catch, ends_bind, (ends_based base); [done|]. apply ends_silent; [auto with within|].
  intros [u|e] K1 w1 HK1 Hb1; [|apply (Hrm e []); [by rewrite app_nil_r|by left]].
  apply (ends_based base); [done|]. apply ends_asked. intros w2. rewrite Hb1.
  destruct (build_release _ _ (base ++ K1)) as [build|e] eqn:Hbuild; intros Hb2; [by apply Hok|].
  apply (Hrm e [Built (bp_releaseId plan) None]); [|by right].
  by rewrite marks_by_app, HK1.
Qed.

Lemma ends_remove_built plan ref K w (Q : result unit -> list work_event -> world -> Prop) :
  (forall r K' w', marks K' = marks K ++ match ra_removeRelease (bp_runtime plan) with Some _ => [ReleaseRemoved ref] | None => [] end ->
     Q r K' w') ->
  ends any K w (remove_built (bp_runtime plan) ref) Q.
Proof.
  intros Hq. unfold remove_built. destruct (ra_removeRelease (bp_runtime plan)) as [remove|].
  - apply ends_call. intros r K1 w1 HK1 _. by apply Hq.
  - apply ends_ret, Hq. by rewrite app_nil_r.
Qed.

Lemma ends_ignoring (m : Work unit) K w (Q : result unit -> list work_event -> world -> Prop) :
  ends any K w m (fun _ K' w' => Q (Ok tt) K' w') -> ends any K w (ignoring m) Q.
Proof.
  intros Hm. apply ends_catch. eapply ends_weaken; [|exact Hm]. intros [[]|e] K' w' Hq; [done|by apply ends_ret].
Qed.

Lemma ends_job_logs pid did type lines K w (Q : result unit -> list work_event -> world -> Prop) :
  (forall K' w', marks K' = marks K -> Q (Ok tt) K' w') ->
  (forall e K' w', marks K' = marks K -> line_lost K' -> Q (Err e) K' w') ->
  ends any K w (for_m lines (job_log pid did type)) Q.
Proof.
  intros Hok Herr. unfold for_m.
  apply (ends_fold _ (fun _ K' _ => marks K' = marks K)); [done| |by intros []; auto].
  intros line [] K1 w1 _ HK1. apply ends_job_log; intros; [congruence|]. apply Herr; [congruence|done].
Qed.

Lemma ends_check_models pid options plan build K w (Q : result unit -> list work_event -> world -> Prop) :
  let v := model_verdict options plan build (w_log w) in
  (forall K' w', marks K' = marks K -> modelGatewayValidationFails v = false -> Q (Ok tt) K' w') ->
  (forall e K' w', marks K' = marks K -> line_lost K' -> Q (Err e) K' w') ->
  (forall K' w', marks K' = marks K ++ discarded plan (rb_releaseRef build) ->
     modelGatewayValidationFails v = true -> Q (Err (modelGatewayValidationError v)) K' w') ->
  ends any K w (check_models pid options plan build) Q.
Proof.
  intros v Hok Hlost Hrefused. unfold check_models, validate_models.
  apply ends_bind, ends_bind, (ends_silent_run build_mark_of); [auto with within|].
  intros r K1 w1 [= <- <-] HK1. apply ends_gets. cbn [w_log]. fold (model_verdict options plan build (w_log w)). fold v.
  apply ends_bind, ends_job_logs; [|intros; apply Hlost; congruence || done]. intros K2 w2 HK2.
  destruct (modelGatewayValidationFails v) eqn:Hfails; [|apply ends_ret, Hok; congruence].
  apply ends_bind, ends_ignoring, ends_remove_built. intros r1 K3 w3 HK3.
  apply ends_bind, ends_ignoring, ends_call. intros r2 K4 w4 HK4 _. cbn [build_mark_of] in HK4.
  apply ends_throw, Hrefused; [|done].
  rewrite HK4, HK3, HK2, HK1, <- app_assoc. f_equal. unfold discarded. by destruct (ra_removeRelease _).
Qed.

Lemma first_available_unreserved reserved ports failure w p w' :
  first_available reserved ports failure w = (Ok p, w') -> p ∉ reserved.
Proof.
  revert w. induction ports as [|port ports IH]; intros w Hrun; [done|]. simpl in Hrun.
  apply bind_ok in Hrun as (skip & w1 & [= <- _] & Hrun).
  destruct (bool_decide (port ∈ reserved) || _) eqn:Hskip; [by eapply IH|].
  apply bind_ok in Hrun as (available & w2 & _ & Hrun). destruct available; [|by eapply IH].
  injection Hrun as <- _. apply orb_false_iff in Hskip as [Hr%bool_decide_eq_false _]. done.
Qed.

Definition port_chosen (options : build_options) (es : list work_event) (port : Z) : Prop :=
  bo_allocateHostPort options = None -> port_unreserved es port.

Lemma ends_allocate options K w (Q : result Z -> list work_event -> world -> Prop) :
  (forall port K' w', marks K' = marks K -> port_chosen options K' port -> Q (Ok port) K' w') ->
  (forall e K' w', marks K' = marks K -> Q (Err e) K' w') ->
  ends any K w (allocate_port options) Q.
Proof.
  intros Hok Herr. unfold allocate_port. destruct (bo_allocateHostPort options) as [allocate|] eqn:Ha.
  - apply ends_silent; [auto with within|]. intros [port|e] K1 w1 HK1; [|by apply Herr].
    apply Hok; [done|]. unfold port_chosen. by rewrite Ha.
  - apply ends_bind, (ends_read any any_more); [done|]. intros d w1 _. set (reserved := js_set _).
    set (K1 := K ++ _). assert (HK1 : marks K1 = marks K) by (unfold K1; by rewrite marks_by_app, app_nil_r).
    unfold ends, allocateAvailableHostPort. destruct (first_available _ _ _ w1) as [r w2] eqn:Hrun.
    pose proof (logs_run _ _ _ _ _ (mute_first _ _ _) Hrun) as (es & Hlog & Hes).
    assert (HK2 : marks (K1 ++ es) = marks K) by (rewrite marks_by_app, HK1, (marks_by_unmarked _ _ Hes); apply app_nil_r).
    exists (K1 ++ es). split; [exists es; split; [done|]; split; [done|]; by intros past e future _|].
    destruct r as [port|e]; [|by apply Herr]. apply Hok; [done|]. intros _. exists d, reserved.
    split; [unfold K1; set_solver|]. split; [by intros s <-|]. by eapply first_available_unreserved.
Qed.

Lemma validated_more pid options plan base es later ref v :
  validated pid options plan base es ref v -> validated pid options plan base (es ++ later) ref v.
Proof.
  intros (build & past & note & future & -> & Hrest). exists build, past, note, (future ++ later).
  split; [by rewrite <- !app_assoc|done].
Qed.

(** The launch, once the models have passed. *)
Abbreviation prepare_launch pid options plan build :=
  (record_definitions pid plan build ;;
   warn_unrecognized pid build ;;
   ensureDeploymentLaunchSandbox (bp_prerequisites plan) ;;
   launchContext <- materializeDeploymentLaunchContext (bp_releaseId plan) (bp_prerequisites plan) None ;;
   hostPort <- allocate_port options ;;
   ret (launchContext, hostPort)).

Lemma ends_launch pid options plan build K w :
  ends any K w (prepare_launch pid options plan build)
    (fun r K' _ => marks K' = marks K /\
       match r with Ok prepared => port_chosen options K' prepared.2 | Err _ => True end).
Proof.
  apply ends_bind, ends_silent; [auto with within|]. intros [u2|e] K3 w3 HK3; [|done].
  apply ends_bind, ends_silent; [auto with within|]. intros [u3|e] K4 w4 HK4; [|by split; [congruence|]].
  apply ends_bind, ends_silent; [auto with within|]. intros [u4|e] K5 w5 HK5; [|by split; [congruence|]].
  apply ends_bind, ends_silent; [auto with within|]. intros [lx|e] K6 w6 HK6; [|by split; [congruence|]].
  apply ends_bind, ends_allocate; [|intros; by split; [congruence|]]. intros port K7 w7 HK7 Hport.
  apply ends_ret. by split; [congruence|].
Qed.

Lemma ends_prepare base pid options plan build past w
    (Q : result (launch_context * Z) -> list work_event -> world -> Prop) :
  let ref := rb_releaseRef build in
  let K := past ++ [built_event plan ref] in
  let verdict := validated pid options plan base in
  build_release (ra_name (bp_runtime plan)) (build_input_of pid options plan) (base ++ past) = Ok build ->
  w_log w = base ++ K ->
  (forall prepared v K' w', marks K' = marks K -> port_chosen options K' prepared.2 ->
     verdict K' ref v -> modelGatewayValidationFails v = false -> Q (Ok prepared) K' w') ->
  (forall e K' w', marks K' = marks K ->
     line_lost K' \/ (exists v, verdict K' ref v /\ modelGatewayValidationFails v = false) -> Q (Err e) K' w') ->
  (forall v K' w', marks K' = marks K ++ discarded plan ref -> verdict K' ref v ->
     modelGatewayValidationFails v = true -> Q (Err (modelGatewayValidationError v)) K' w') ->
  ends any K w (prepare_release pid options plan build) Q.
Proof.
  intros ref K verdict Hbuild Hbase Hok Hleft Hrefused. unfold prepare_release.
  assert (Hmain : forall note w1, marks note = [] -> build_noted build note -> w_log w1 = base ++ K ++ note ->
    ends any (K ++ note) w1 (check_models pid options plan build ;; prepare_launch pid options plan build) Q).
  2: { apply ends_bind. case_bool_decide as Hlog.
    - apply ends_ret. rewrite <- (app_nil_r K). apply Hmain; [done| |by rewrite app_nil_r].
      unfold build_noted. by rewrite bool_decide_eq_true_2.
    - unfold job_log. apply ends_bind, (ends_based base); [done|]. apply (ends_op any any_more); [done|].
      intros s [row|e] w1 Hrun Hb1.
      + apply ends_ret, Hmain; [done| |done]. unfold build_noted. rewrite bool_decide_eq_false_2 by done. eauto.
      + apply Hleft; [by rewrite marks_by_app, app_nil_r|left]. apply appendLog_error in Hrun as ->.
        exists (st_db s). set_solver. }
  intros note w1 Hnote Hnoted Hb1. set (v := model_verdict options plan build (w_log w1)).
  assert (HK : marks (K ++ note) = marks K) by (by rewrite marks_by_app, Hnote, app_nil_r).
  assert (Hv : verdict (K ++ note) ref v).
  { exists build, past, note, []. unfold K. rewrite <- !app_assoc, app_nil_r. do 4 (split; [done|]).
    unfold v. rewrite Hb1. unfold K. by rewrite <- !app_assoc. }
  assert (Hmore : forall es later, verdict es ref v -> verdict (es ++ later) ref v) by (intros; by apply validated_more).
  apply ends_bind. eapply ends_weaken; [|apply (ends_keep any (fun es => verdict es ref v)); [done|done|]].
  2: { apply (ends_check_models pid options plan build (K ++ note) w1 (fun r K' _ =>
         match r with
         | Ok _ => marks K' = marks K /\ modelGatewayValidationFails v = false
         | Err e => (marks K' = marks K /\ line_lost K') \/
             (marks K' = marks K ++ discarded plan ref /\ modelGatewayValidationFails v = true /\
              e = modelGatewayValidationError v)
         end)); [intros; split; congruence || done|intros; left; split; congruence || done|].
       intros K2 w2 HK2 Hf. right. split; [by rewrite HK2, HK|done]. }
  intros [u|e] K2 w2 [Hcheck Hv2].
  2: { destruct Hcheck as [[HK2 Hl]|(HK2 & Hf & ->)]; [by apply Hleft; [|left]|by apply Hrefused]. }
  destruct Hcheck as [HK2 Hf].
  eapply ends_weaken; [|apply (ends_keep any (fun es => verdict es ref v)); [done|done|apply ends_launch]].
  intros [prepared|e] K3 w3 [[HK3 Hp] Hv3].
  - eapply Hok; [congruence|done..].
  - apply Hleft; [congruence|right]. by exists v.
Qed.

Lemma port_chosen_more options K K' port : port_chosen options K port -> port_chosen options (K ++ K') port.
Proof. intros Hp Ha. destruct (Hp Ha) as (d & reserved & Hin & Hrest). exists d, reserved. split; [set_solver|done]. Qed.

Lemma unless_more (lost lost' : Prop) whole ms : (lost -> lost') -> unless lost whole ms -> unless lost' whole ms.
Proof. intros Hl [->|[H' Hp]]; [by left|right; auto]. Qed.

Lemma deploy_trace_more job plan (lost lost' : Prop) ref input r ms :
  (lost -> lost') -> deploy_trace job plan lost ref input r ms -> deploy_trace job plan lost' ref input r ms.
Proof.
  intros Hl Ht. destruct Ht as [e start Hs|e proven ending Hp He|r promotion ending Hp He].
  - by apply trace_unstarted.
  - apply trace_unrecorded; [done|by eapply unless_more].
  - apply trace_recorded; [done|]. destruct r; [done|by eapply unless_more].
Qed.

Lemma ends_note c K w (Q : result unit -> list work_event -> world -> Prop) :
  (forall w', Q (Ok tt) (K ++ [Host c]) w') -> ends any K w (note_call c) Q.
Proof.
  intros Hq. eexists. split; [|apply Hq]. exists [Host c]. split; [done|]. split; [done|]. by intros past e future _.
Qed.

(** What is planned. *)
Lemma ends_plan pid options revision K w (Q : result build_plan -> list work_event -> world -> Prop) :
  (forall plan K' w', marks K' = marks K -> planned pid options plan -> Q (Ok plan) K' w') ->
  (forall e K' w', marks K' = marks K -> Q (Err e) K' w') ->
  ends any K w (plan_build pid options revision) Q.
Proof.
  intros Hok Herr. unfold plan_build. apply ends_bind, ends_lift.
  destruct (bo_adapter options) as [runtime|e] eqn:Hadapter; [|by apply Herr].
  apply ends_bind, ends_silent; [auto with within|]. intros [previous|e] K1 w1 HK1; [|by apply Herr].
  assert (Hdraw : forall prefix K0 w0 (Q0 : result string -> list work_event -> world -> Prop),
    (forall n w', Q0 (Ok (prefix +:+ "_" +:+ nanoid n)) K0 w') -> ends any K0 w0 (draw_id prefix) Q0).
  { intros prefix K0 w0 Q0 Hq. exists K0. split; [|apply Hq]. exists []. rewrite !app_nil_r.
    split; [done|]. split; [done|]. by intros [|x past] e future. }
  apply ends_bind, Hdraw. intros n w2. apply ends_bind, Hdraw. intros m w3.
  apply ends_bind, ends_silent; [auto with within|]. intros [prerequisites|e] K4 w4 HK4; [|apply Herr; congruence].
  apply ends_bind, ends_silent; [auto with within|]. intros [variables|e] K5 w5 HK5; [|apply Herr; congruence].
  apply ends_ret, Hok; [congruence|]. unfold planned. simpl. split; [done|]. split; [by exists n, m|done].
Qed.

Lemma ends_gate pid options K w (Q : result unit -> list work_event -> world -> Prop) :
  (forall K' w', marks K' = marks K -> (bo_isProduction options = true -> dispatcher_proven options K') -> Q (Ok tt) K' w') ->
  (forall e K' w', marks K' = marks K -> Q (Err e) K' w') ->
  ends any K w (production_gate pid options) Q.
Proof.
  intros Hok Herr. unfold production_gate. destruct (bo_isProduction options) eqn:Hprod; [|by apply ends_ret, Hok].
  assert (Hblocked : forall detail K1 w1, marks K1 = marks K -> ends any K1 w1 (deploy_blocked pid detail) Q).
  { intros detail K1 w1 HK1. unfold deploy_blocked. apply ends_bind, ends_job_log.
    - intros K2 w2 HK2. apply ends_throw, Herr. congruence.
    - intros e K2 w2 HK2 _. apply Herr. congruence. }
  destruct (truthy (bo_worldUrl options)) as [url|] eqn:Hurl; [|by apply Hblocked].
  apply ends_bind, ends_silent; [unfold expected_identity; stroll|]. intros [expected|e] K1 w1 HK1; [|by apply Herr].
  apply ends_bind, ends_call. intros [registration|e] K2 w2 HK2 Hin; cbn [build_mark_of] in HK2; [|apply Herr; congruence].
  apply ends_bind, ends_date_now. intros now w3.
  destruct (assessDispatcherReadiness _ _ _ _) as [|reason] eqn:Hready; [|apply Hblocked; congruence].
  apply ends_ret, Hok; [congruence|]. intros _. split; [by rewrite Hurl|]. by exists registration, now, expected.
Qed.

Lemma dispatcher_proven_more options K K' : dispatcher_proven options K -> dispatcher_proven options (K ++ K').
Proof.
  intros (Hurl & registration & now & expected & Hin & Hready). split; [done|].
  exists registration, now, expected. split; [set_solver|done].
Qed.

(** What becomes of the job from the build on. *)
Definition build_ends (job : job_view) (options : build_options) (plan : build_plan)
    (base : list work_event) (r : result unit) (es : list work_event) : Prop :=
  (marks es = [] /\ exists e, r = Err e) \/
  build_trace job plan (line_lost es) (port_chosen options es)
    (validated (JobView.projectId job) options plan base es) r (marks es).

Lemma ends_build base job options plan K w :
  marks K = [] -> w_log w = base ++ K ->
  ends any K w (build_and_deploy job options plan) (fun r K' _ => build_ends job options plan base r K').
Proof.
  intros HK Hbase. unfold build_and_deploy.
  assert (Hnone : forall e K' (w' : world), marks K' = marks K -> build_ends job options plan base (Err e) K')
    by (intros; left; split; [congruence|by eexists]).
  apply ends_bind, (ends_based base); [done|]. apply ends_silent; [auto with within|].
  intros [u|e] K1 w1 HK1 Hb1; [|by apply Hnone].
  apply ends_bind, (ends_based base); [done|]. apply ends_silent; [auto with within|].
  intros [u2|e] K2 w2 HK2 Hb2; [|apply Hnone; congruence].
  apply ends_bind, (ends_run_build base); [done| |].
  2: { intros e failed K3 w3 HK3 Hf. right. rewrite HK3, HK2, HK1, HK. by apply trace_unbuilt. }
  intros build past w3 Hpast Hbuild Hb3.
  assert (HK3 : marks (past ++ [built_event plan (rb_releaseRef build)])
    = [Built (bp_releaseId plan) (Some (rb_releaseRef build))])
    by (rewrite marks_by_app, Hpast, HK2, HK1, HK; done).
  apply ends_bind, (ends_prepare base); [done|done| | |].
  2: { intros e K4 w4 HK4 Hl. right. rewrite HK4, HK3. by apply trace_unprepared. }
  2: { intros v K4 w4 HK4 Hv Hf. right. rewrite HK4, HK3. by apply trace_refused. }
  intros [launchContext hostPort] v K4 w4 HK4 Hport Hv Hf. simpl in Hport. simpl.
  apply ends_bind, ends_note. intros w5. unfold finally. apply ends_bind, ends_attempt.
  eapply ends_weaken; [|apply ends_prefix, ends_deploy]. intros r K6 w6 [(ms & HK6 & Ht) [es Hes]].
  apply ends_bind, ends_note. intros w7. apply ends_lift. right.
  rewrite marks_by_app, HK6, marks_by_app, HK4, HK3. rewrite Hes in *. clear Hes.
  apply (trace_deployed job plan _ _ _ r v (rb_releaseRef build) (start_input plan build launchContext hostPort) ms);
    [by rewrite <- !app_assoc; apply validated_more|done|reflexivity|reflexivity| |].
  - simpl. rewrite <- !app_assoc. by apply port_chosen_more.
  - eapply deploy_trace_more; [|exact Ht]. apply line_lost_more.
Qed.

(** C34. What a build job does, whatever the host answers and the others do: nothing
    that matters; or a build for names of its own, in production only after the
    dispatcher was found ready.  The files of a failed build are removed.  A built
    release whose models the gateway refuses is discarded, never started, with
    that as the error.  One whose models pass is left where it is if the launch
    cannot be prepared, and else starts, under its own name, only on a port that
    nobody reserved and that the job has claimed; it is recorded only after the
    process proved to hold the port and answered; it is promoted only when it is
    recorded and the job says so.  If the run fails with the port claimed, a
    process that was started is stopped, and the release is discarded when it was
    not recorded, kept when it was.  The claim of the port is given back last.
    Only a line of the log that cannot be written cuts this short.  A removal and
    a stop are as asked for, whatever they answered. *)
Theorem build_job_follows_its_trace job options w r w' :
  handleBuildDeployJob job options w = (r, w') ->
  exists es, w_log w' = w_log w ++ es /\
    ((marks es = [] /\ exists e, r = Err e) \/
     exists plan, planned (JobView.projectId job) options plan /\
       (bo_isProduction options = true -> dispatcher_proven options es) /\
       build_trace job plan (line_lost es) (port_chosen options es)
         (validated (JobView.projectId job) options plan (w_log w) es) r (marks es)).
Proof.
  set (pid := JobView.projectId job). intros Hrun.
  set (Q := fun (r : result unit) (es : list work_event) (_ : world) =>
    (marks es = [] /\ exists e, r = Err e) \/
    exists plan, planned pid options plan /\ (bo_isProduction options = true -> dispatcher_proven options es) /\
      build_trace job plan (line_lost es) (port_chosen options es)
        (validated pid options plan (w_log w) es) r (marks es)).
  assert (Hends : ends any [] w (handleBuildDeployJob job options) Q).
  2: { destruct (ends_run _ _ _ _ _ _ _ Hends Hrun) as (K & (es & Hlog & -> & _) & Hq). by exists es. }
  assert (Hnone : forall e K' w', marks K' = [] -> Q (Err e) K' w') by (intros; left; eauto).
  pose proof (eq_refl : marks [] = []) as HK0.
  assert (Hb0 : w_log w = w_log w ++ []) by (by rewrite app_nil_r).
  unfold handleBuildDeployJob. fold pid.
  apply ends_bind, (ends_based (w_log w)); [done|]. apply ends_silent; [auto with within|].
  intros [project|e] K1 w1 HK1 Hb1; [|apply Hnone; congruence].
  apply ends_bind, ends_some_or; [intros p _|intros _; apply Hnone; congruence].
  apply ends_bind, (ends_based (w_log w)); [done|]. apply ends_silent; [auto with within|].
  intros [found|e] K2 w2 HK2 Hb2; [|apply Hnone; congruence].
  apply ends_bind, ends_some_or; [intros revision _|intros _; apply Hnone; congruence].
  apply ends_bind, (ends_based (w_log w)); [done|].
  apply ends_gate; [|intros; apply Hnone; congruence]. intros K3 w3 HK3 Hready Hb3.
  apply ends_bind, (ends_based (w_log w)); [done|].
  eapply ends_weaken; [|apply ends_prefix, (ends_plan _ _ _ _ _ (fun r K' _ =>
    marks K' = [] /\ forall plan, r = Ok plan -> planned pid options plan))].
  2: { intros plan K4 w4 HK4 Hplan. split; [congruence|]. by intros plan' [= <-]. }
  2: { intros e K4 w4 HK4. split; [congruence|done]. }
  intros [plan|e] K4 w4 [[HK4 Hplan] [es4 ->]] Hb4; [|by apply Hnone].
  eapply ends_weaken; [|by apply ends_prefix, (ends_build (w_log w))].
  intros r5 K5 w5 [[Hnothing|Ht] [es5 ->]]; [by left|right]. exists plan. split; [by apply Hplan|]. split; [|done].
  intros Hprod. by apply dispatcher_proven_more, dispatcher_proven_more, Hready.
Qed.
End BuildRuns.

(** ** A production deploy that is promoted, and one whose sandbox fails *)

Definition attesting_adapter : runtime_adapter :=
  mk_adapter "systemd" (fun _ _ => Ok tt) None (fun _ _ => Ok tt) (fun _ _ => Ok ProcessReady)
    (Some (fun _ _ _ => Ok PortOwned)) (fun _ _ => Ok []) (Some (fun _ _ => Ok tt)).

Definition sample_build : release_build :=
  mk_build "/releases/rel_0" "built" None (Some EVELAND_WORKFLOW_WORLD)
    (Some (sample_manifest, Some "1.0.0")) None None.

Definition sample_build_host : BuildHost := {|
  resolveWorldClusterIdentity := fun _ => Ok (clusterWorldIdentity "7" "wf");
  dispatcher_row := fun _ => Ok (Some (mk_registration "ready" true true (clusterWorldIdentity "7" "wf") 0));
  build_release := fun _ _ _ => Ok sample_build;
  compose_build_variables := fun _ _ => Ok ∅;
  internal_port := fun _ input _ => ps_port input;
  post_invalidate := fun _ _ _ _ => Ok 503%Z
|}.

Definition sample_build_options : build_options :=
  mk_build_options true (Some "postgres://world") None None (Ok attesting_adapter) "/data" None None 1000
    (fun _ _ _ => ModelsOffered []) (Some "agents.example") (Some "http://gateway/") (Some "token").

Definition build_job : job_view :=
  JobView.mk "job_3" "p" "build_deploy" "running" (JObj [("promoteAfterDeploy", JBool true)]) 1 None 0 0.

Definition build_world : world :=
  mk_world (sample_store (empty_database
    <| projects := {[ "p" := sample_project "p" ]}%string |>
    <| sourceRevisions := {[ "srev_1" := SourceRevision.mk "srev_1" "p" "git" None None None None None "/src" JNull JNull 0 ]}%string |>)) [].

Definition build_run : result unit * world :=
  @handleBuildDeployJob sample_platform sample_dates sample_locale still_host sample_launch_host sample_job_host
    never_aborted sample_build_host build_job sample_build_options build_world.

Definition mark_name (m : build_mark) : string :=
  match m with
  | Built _ (Some ref) => "built " +:+ ref
  | Built _ None => "not built"
  | PortClaimed port => "claimed " +:+ pretty port
  | Started input ok => (if ok then "started " else "not started ") +:+ ps_processName input
  | PortProven name port => "proven " +:+ name
  | Answered => "answered"
  | Recorded did ok => (if ok then "recorded " else "not recorded ") +:+ did
  | Promoted did => "promoted " +:+ did
  | Stopped name => "stopped " +:+ name
  | ReleaseRemoved ref => "removed " +:+ ref
  | FilesRemoved path => "removed " +:+ path
  | PortFreed port => "freed " +:+ pretty port
  end%string.

Lemma build_job_follows_its_trace_witness :
  build_run.1 = Ok tt /\
  mark_name <$> marks (w_log build_run.2)
  = ["built /releases/rel_0"; "claimed 18000"; "started eveland-p-dep_1"; "proven eveland-p-dep_1"; "answered";
     "recorded dep_1"; "promoted dep_1"; "freed 18000"] /\
  exists plan, @planned sample_platform "p" sample_build_options plan /\
    dispatcher_proven sample_build_options (w_log build_run.2) /\
    build_trace build_job plan (line_lost (w_log build_run.2))
      (port_chosen sample_build_options (w_log build_run.2))
      (@validated sample_build_host "p" sample_build_options plan [] (w_log build_run.2))
      (Ok tt) (marks (w_log build_run.2)).
Proof.
  assert (Hok : build_run.1 = Ok tt) by (vm_compute; reflexivity).
  split; [exact Hok|]. split; [vm_compute; reflexivity|].
  destruct (@build_job_follows_its_trace sample_platform sample_dates sample_locale still_host sample_launch_host
    sample_job_host never_aborted sample_build_host build_job sample_build_options build_world build_run.1 build_run.2
    (surjective_pairing build_run)) as (es & Hlog & Hends).
  change (w_log build_world ++ es) with es in Hlog. rewrite Hlog. rewrite Hok in Hends.
  destruct Hends as [[_ [e He]]|(plan & Hplan & Hready & Htrace)]; [discriminate He|].
  exists plan. split; [exact Hplan|]. split; [exact (Hready eq_refl)|exact Htrace].
Defined.

(** A sandbox that cannot be made: the release that was built stays. *)
Definition full_disk : LaunchHost := {|
  memory_root_dirs := @memory_root_dirs sample_launch_host;
  sandbox_cache_dirs := @sandbox_cache_dirs sample_launch_host;
  agent_observability_dirs := @agent_observability_dirs sample_launch_host;
  DOCKER_MEMORY_ROOT_MOUNT_DIR := "/memory";
  OBSERVER_RUNTIME_CONTRACT := 1;
  compose_env := fun _ _ _ => Ok (∅, []);
  runtime_command_context := fun _ _ _ _ => Ok (mk_command_context (Some "pnpm") true);
  accessible := fun _ _ => Ok tt;
  make_directory := fun _ _ => Err (Error "ENOSPC");
  prepare_observability := fun p _ _ => Ok (lp_observabilityPolicyDirs p)
|}.

Example built_release_left_behind :
  let run := @handleBuildDeployJob sample_platform sample_dates sample_locale still_host full_disk sample_job_host
    never_aborted sample_build_host build_job sample_build_options build_world in
  run.1 = Err (Error "ENOSPC") /\ mark_name <$> marks (w_log run.2) = ["built /releases/rel_0"].
Proof. split; vm_compute; reflexivity. Qed.

(** A gateway that does not offer the model of the agent: the release goes. *)
Definition gateway_env : LaunchHost := {|
  memory_root_dirs := @memory_root_dirs sample_launch_host;
  sandbox_cache_dirs := @sandbox_cache_dirs sample_launch_host;
  agent_observability_dirs := @agent_observability_dirs sample_launch_host;
  DOCKER_MEMORY_ROOT_MOUNT_DIR := "/memory";
  OBSERVER_RUNTIME_CONTRACT := 1;
  compose_env := fun _ _ _ =>
    Ok ({[ gateway_env_kind := "vercel"; gateway_env_key := "key" ]}%string, []);
  runtime_command_context := fun _ _ _ _ => Ok (mk_command_context (Some "pnpm") true);
  accessible := fun _ _ => Ok tt;
  make_directory := fun _ _ => Ok tt;
  prepare_observability := fun p _ _ => Ok (lp_observabilityPolicyDirs p)
|}.

Definition modelled_build_host : BuildHost := {|
  resolveWorldClusterIdentity := @resolveWorldClusterIdentity sample_build_host;
  dispatcher_row := @dispatcher_row sample_build_host;
  build_release := fun _ _ _ => Ok (mk_build "/releases/rel_0" "built" None (Some EVELAND_WORKFLOW_WORLD)
    (Some (sample_manifest, Some "1.0.0")) (Some true) (Some ["gpt-5"]));
  compose_build_variables := @compose_build_variables sample_build_host;
  internal_port := @internal_port sample_build_host;
  post_invalidate := @post_invalidate sample_build_host
|}.

Example refused_release_discarded :
  let run := @handleBuildDeployJob sample_platform sample_dates sample_locale still_host gateway_env sample_job_host
    never_aborted modelled_build_host build_job sample_build_options build_world in
  run.1 = Err (modelGatewayValidationError (ValidationMissing VERCEL_AI_GATEWAY_BASE_URL [("gpt-5", [])])) /\
  mark_name <$> marks (w_log run.2)
  = ["built /releases/rel_0"; "removed /releases/rel_0"; "removed /data/builds/p/rel_0"].
Proof. split; vm_compute; reflexivity. Qed.

(** A job fenced away once the deployment is recorded: the process is stopped, and
    the deployment is left running. *)
Definition fencing : AbortSignal := {|
  signal_aborted := fun log =>
    if existsb (fun e => match e with Stored (RecordDeployment _ _) _ _ => true | _ => false end) log
    then Some (Error "Job lease lost; another execution owns this job now.") else None
|}.

Example stopped_deployment_left_running :
  let run := @handleBuildDeployJob sample_platform sample_dates sample_locale still_host sample_launch_host
    sample_job_host fencing sample_build_host build_job sample_build_options build_world in
  run.1 = Err (Error "Job lease lost; another execution owns this job now.") /\
  last (mark_name <$> marks (w_log run.2)) = Some "freed 18000" /\
  "stopped eveland-p-dep_1" ∈ mark_name <$> marks (w_log run.2) /\
  Deployment.status <$> deployments (st_db (w_store run.2)) !! "dep_1" = Some DeploymentStatus.running.
Proof.
  split; [vm_compute; reflexivity|]. split; [vm_compute; reflexivity|]. split; [|vm_compute; reflexivity].
  apply list_elem_of_In. vm_compute. tauto.
Qed.
