(* ===== verification/JobRun.v ===== *)
(** * Running a job

    [apps/worker/src/jobs/process.ts] and [job-registry.ts]: a claimed job is handed
    to the handler of its type, and its row is settled either way.  While it runs a
    timer renews the claim: its writes are among those of the others, and a renewal
    that the row refuses aborts the signal, which [signal_aborted] may do after any
    call.  Spans and their attributes are left out. *)

From stdpp Require Import pretty.
From S2P Require Import Prelude Strings Encoding DispatchCredential Schema Store Tables Sample Projects Jobs Runtime ScheduleJob Deployments Sources Cron EveVersion Discovery Worker Traces Activation Launch RuntimeJobs JobRuns GitImport SourceScan ImportJob BuildDeploy BuildRuns.

Open Scope eve_scope.
Open Scope string_scope.

(** [ProcessJobOptions], by the handlers that read them. *)
Record process_options : Type := mk_process_options {
  po_import : import_options; po_build : build_options; po_job : job_options; po_schedule : schedule_options;
  po_maxConcurrentHeavyJobs : option Z
}.

(** [const { [key]: _, ...rest } = fields] *)
Definition without (key : string) (payload : json) : json :=
  match payload with
  | JObj fields => JObj (base.filter (fun kv => kv.1 <> key) fields)
  | payload => payload
  end.

(** A value that is an object, the only truthy one a decoded credential can be. *)
Definition truthy_object (j : option json) : bool := match j with Some (JObj _) => true | _ => false end.

Section JobRun.
Context `{Platform} `{NodePlatform} `{Dates} `{Locale} `{UrlPlatform} `{SchedulerChannel} `{WorkerHost} `{LaunchHost}
  `{JobHost} `{AbortSignal} `{GitHost} `{SourceHost} `{BuildHost}.

(** ** The registry *)

(** [jobRegistry[job.type].handle] *)
Definition dispatchJob (job : job_view) (options : process_options) : Work unit :=
  let type := JobView.type job in
  if bool_decide (type = "import_source") then handleImportSourceJob job (po_import options)
  else if bool_decide (type = "build_deploy") then handleBuildDeployJob job (po_build options)
  else if bool_decide (type = "restart_deployment") then handleRestartDeploymentJob job (po_job options)
  else if bool_decide (type = "trigger_schedule") then handleTriggerScheduleJob job (po_schedule options)
  else if bool_decide (type = "ensure_deployment_running") then handleEnsureDeploymentRunningJob job (po_job options)
  else if bool_decide (type = "archive_deployment") then handleArchiveDeploymentJob job (po_job options)
  else if bool_decide (type = "delete_project") then handleDeleteProjectJob job (po_job options)
  else throw (Error "Cannot read properties of undefined (reading 'handle')").

(** [build_deploy]: the production deployment may still serve. *)
Definition build_failed (job : job_view) : Work unit :=
  production <- op "getCurrentDeployment" (getCurrentDeployment (JobView.projectId job)) ;;
  let serving st := bool_decide (st = DeploymentStatus.running) || bool_decide (st = DeploymentStatus.draining) in
  project_state_is (JobView.projectId job) (Some ProjectStatus.failed)
    (Some match production with
          | Some d => if serving (Deployment.status d) then Deployment.status d else DeploymentStatus.failed
          | None => DeploymentStatus.failed
          end).

(** [ensure_deployment_running]: only the production deployment fails its project. *)
Definition activation_failed (job : job_view) (message : string) : Work unit :=
  _row <- op "updateRuntimeInstance"
    (updateRuntimeInstance (default "" (payload_string job "runtimeInstanceId"))
       (mk_runtime_update RuntimeStatus.failed None None (Some (Some message))) None) ;;
  production <- op "getCurrentDeployment" (getCurrentDeployment (JobView.projectId job)) ;;
  if bool_decide (Deployment.id <$> production = payload_string job "deploymentId")
  then project_state_is (JobView.projectId job) (Some ProjectStatus.failed) None
  else ret tt.

(** [jobRegistry[job.type].onFailure?.()] *)
Definition settleJobFailure (job : job_view) (message : string) : Work unit :=
  let type := JobView.type job in
  let pid := JobView.projectId job in
  if bool_decide (type ∈ ["import_source"; "trigger_schedule"])
  then project_state_is pid (Some ProjectStatus.failed) None
  else if bool_decide (type = "build_deploy") then build_failed job
  else if bool_decide (type = "restart_deployment")
  then project_state_is pid (Some ProjectStatus.failed) (Some DeploymentStatus.failed)
  else if bool_decide (type = "ensure_deployment_running") then activation_failed job message
  else if bool_decide (type = "archive_deployment") then ret tt
  else if bool_decide (type = "delete_project") then
    _row <- op "setProjectDeletionFailed" (setProjectDeletionFailed pid message) ;; ret tt
  else throw (Error "Cannot read properties of undefined (reading 'onFailure')").

(** ** Running a claimed job *)

Definition clearTemporaryGitCredential (job : job_view) : Work unit :=
  if bool_decide (JobView.type job = "import_source") && truthy_object (payload_field job "gitCredential") then
    _held <- op "replaceJobPayload"
      (replaceJobPayload (JobView.id job) "import_source" (without "gitCredential" (JobView.payload job))
         (JobView.attempts job)) ;;
    ret tt
  else ret tt.

Definition complete_job (job : job_view) : Work unit :=
  _held <- stored (fun _ => CompleteJob (JobView.id job)) (completeJob (JobView.id job) (Some (JobView.attempts job))) ;;
  ret tt.

Definition fail_job (job : job_view) (message : string) : Work bool :=
  stored (fun r => FailJob (JobView.id job) (match r with Ok held => held | Err _ => false end))
    (failJob (JobView.id job) message (Some (JobView.attempts job))).

(** The [catch]. *)
Definition job_failed (job : job_view) (e : error) : Work unit :=
  let message := error_text e in
  clearTemporaryGitCredential job ;;
  failed <- fail_job job message ;;
  if negb failed then ret tt
  else
    settleJobFailure job message ;;
    job_log (JobView.projectId job) None "runtime" ("Job " +:+ JobView.id job +:+ " failed: " +:+ message).

Definition runClaimedJob (job : job_view) (options : process_options) : Work unit :=
  try_catch
    (dispatchJob job options ;;
     clearTemporaryGitCredential job ;;
     complete_job job)
    (job_failed job).

Definition processNextJob (options : process_options) : Work bool :=
  job <- op "claimNextJob" (claimNextJob None (mk_claim_options (po_maxConcurrentHeavyJobs options) None)) ;;
  match job with
  | None => ret false
  | Some job => runClaimedJob job options ;; ret true
  end.
End JobRun.

(** ** How a job is settled *)

Open Scope list_scope.

(** The row of the job before and after a call that writes it; any other call of the
    store, by its name. *)
Inductive settle_mark :=
  | CredentialCleared (before after : option Job.job_row)
  | JobCompleted (before after : option Job.job_row)
  | JobFailed (held : bool) (before after : option Job.job_row)
  | FailureReported (name : string).

Definition settle_mark_of (jobId : string) (e : work_event) : option settle_mark :=
  match e with
  | Stored (CompleteJob _) d d' => Some (JobCompleted (jobs d !! jobId) (jobs d' !! jobId))
  | Stored (FailJob _ held) d d' => Some (JobFailed held (jobs d !! jobId) (jobs d' !! jobId))
  | Stored (StoreCall name) d d' =>
      if bool_decide (name = "replaceJobPayload"%string)
      then Some (CredentialCleared (jobs d !! jobId) (jobs d' !! jobId)) else Some (FailureReported name)
  | _ => None
  end.

(** A write of a row that changes it as [f] does if the attempt still holds it, and
    leaves it alone if it does not. *)
Definition fenced (attempt : Z) (f : Job.job_row -> Job.job_row -> Prop) (before after : option Job.job_row) : Prop :=
  match before with
  | Some j => if Jobs.holds_claim (Some attempt) j then exists j', after = Some j' /\ f j j' else after = Some j
  | None => after = None
  end.

(** What a completion, a failure and a cleared credential make of the row. *)
Definition completed (j j' : Job.job_row) : Prop :=
  Job.status j' = "completed"%string /\ Job.lockedAt j' = None /\ Job.payload j' = Job.payload j.

Definition failed_with (message : string) (j j' : Job.job_row) : Prop :=
  Job.status j' = "failed"%string /\ Job.lockedAt j' = None /\ Job.payload j' = Job.payload j /\
  Job.lastError j' = Some (sanitizeStoredErrorText message).

Definition cleared `{Platform} (job : job_view) (j j' : Job.job_row) : Prop :=
  Job.status j' = Job.status j /\
  (Job.type j = "import_source"%string ->
   decodeJobPayload "import_source" (without "gitCredential" (JobView.payload job)) = Ok (Job.payload j')).

Section JobSettled.
Context `{Platform} `{NodePlatform} `{Dates} `{Locale} `{UrlPlatform} `{SchedulerChannel} `{WorkerHost} `{LaunchHost}
  `{JobHost} `{AbortSignal} `{GitHost} `{SourceHost} `{BuildHost}.
Context (job : job_view).

Abbreviation mark_of := (settle_mark_of (JobView.id job)).
Abbreviation marks := (marks_by mark_of).
Abbreviation attempt := (JobView.attempts job).

Definition report (m : settle_mark) : Prop := match m with FailureReported _ => True | _ => False end.

(** The temporary credential goes before the row is settled: a write that the attempt
    no longer holds changes nothing. *)
Definition clears (r : result unit) (ms : list settle_mark) : Prop :=
  if bool_decide (JobView.type job = "import_source"%string) && truthy_object (payload_field job "gitCredential")
  then exists before after, ms = [CredentialCleared before after] /\
    match r with Ok _ => fenced attempt (cleared job) before after | Err _ => after = before end
  else r = Ok tt /\ ms = [].

(** A failure is written once, and reported to the project only if the attempt still
    held the row. *)
Definition fails (message : string) (r : result unit) (ms : list settle_mark) : Prop :=
  exists c cs, clears c cs /\
  match c with
  | Err e => r = Err e /\ ms = cs
  | Ok _ => exists held before after reports, ms = cs ++ JobFailed held before after :: reports /\ Forall report reports /\
      if (held : bool)
      then exists j j', before = Some j /\ Jobs.holds_claim (Some attempt) j = true /\ after = Some j' /\ failed_with message j j'
      else after = before /\ reports = []
  end.

Definition settles (outcome r : result unit) (ms : list settle_mark) : Prop :=
  match outcome with
  | Err e => fails (error_text e) r ms
  | Ok _ => exists c cs, clears c cs /\
      match c with
      | Err e => exists fs, ms = cs ++ fs /\ fails (error_text e) r fs
      | Ok _ => exists before after rest, ms = cs ++ JobCompleted before after :: rest /\
          ((r = Ok tt /\ rest = [] /\ fenced attempt completed before after) \/
           (exists e, after = before /\ fails (error_text e) r rest))
      end
  end.

(** An update of the row under the attempt's claim. *)
Lemma claimed_update p f (g : Job.job_row -> Job.job_row -> Prop) s o s' :
  update_key jobs_table (JobView.id job) (fun j => p j && Jobs.holds_claim (Some attempt) j) f s = (Ok o, s') ->
  (forall j, g j (f j)) -> (forall j, p j = false -> g j j) ->
  fenced attempt g (jobs (st_db s) !! JobView.id job) (jobs (st_db s') !! JobView.id job) /\
  (is_Some o -> exists j, jobs (st_db s) !! JobView.id job = Some j /\ Jobs.holds_claim (Some attempt) j = true /\
     jobs (st_db s') !! JobView.id job = Some (f j)).
Proof.
  intros Hrun Hg Hskip. apply update_key_ok in Hrun as [(-> & -> & Hno)|(j & Hj & Hp & -> & _ & ->)].
  - split; [|by intros [? ?]]. unfold fenced. destruct (jobs (st_db s) !! JobView.id job) as [j|] eqn:Hj; [|done].
    specialize (Hno j Hj). destruct (Jobs.holds_claim (Some attempt) j) eqn:Hh; [|done].
    rewrite andb_true_r in Hno. exists j. split; [done|by apply Hskip].
  - apply andb_true_iff in Hp as [_ Hh]. change (jobs (st_db s) !! JobView.id job = Some j) in Hj.
    assert (Hafter : jobs (st_db (s <| st_db ::= tbl_set jobs_table (insert (JobView.id job) (f j)) |>)) !! JobView.id job
      = Some (f j)) by apply lookup_insert_eq.
    split; [|intros _; by exists j]. unfold fenced. rewrite Hj, Hh, Hafter. eauto.
Qed.

Lemma clear_run s r s' :
  replaceJobPayload (JobView.id job) "import_source" (without "gitCredential" (JobView.payload job)) attempt s = (r, s') ->
  match r with
  | Ok _ => fenced attempt (cleared job) (jobs (st_db s) !! JobView.id job) (jobs (st_db s') !! JobView.id job)
  | Err _ => jobs (st_db s') !! JobView.id job = jobs (st_db s) !! JobView.id job
  end.
Proof.
  intros Hrun. unfold replaceJobPayload in Hrun.
  destruct (decodeJobPayload _ _) as [decoded|e] eqn:Hd; [|by injection Hrun as <- <-].
  apply bind_run in Hrun as [(e & [=] & _)|(payload & s0 & [= <- <-] & Hrun)].
  apply bind_run in Hrun as [(e & Hc & _)|(now & s1 & Hc & Hrun)]; [done|injection Hc as <- <-].
  apply bind_run in Hrun as [(e & Herr%update_key_err & ->)|(o & s2 & Hrun & [= <- <-])]; [by subst|].
  eapply (claimed_update _ _ (cleared job)) in Hrun as [Hf _]; [done|by split|].
  intros j Htype%bool_decide_eq_false. by split.
Qed.

Lemma complete_run s r s' :
  completeJob (JobView.id job) (Some attempt) s = (r, s') ->
  match r with
  | Ok _ => fenced attempt completed (jobs (st_db s) !! JobView.id job) (jobs (st_db s') !! JobView.id job)
  | Err _ => jobs (st_db s') !! JobView.id job = jobs (st_db s) !! JobView.id job
  end.
Proof.
  intros Hrun. unfold completeJob in Hrun.
  apply bind_run in Hrun as [(e & Hc & _)|(now & s1 & Hc & Hrun)]; [done|injection Hc as <- <-].
  apply bind_run in Hrun as [(e & Herr%update_key_err & ->)|(o & s2 & Hrun & [= <- <-])]; [by subst|].
  by apply (claimed_update (fun _ => true) _ completed) in Hrun as [Hf _].
Qed.

Lemma fail_run message s r s' :
  failJob (JobView.id job) message (Some attempt) s = (r, s') ->
  match r with
  | Ok true => exists j j', jobs (st_db s) !! JobView.id job = Some j /\ Jobs.holds_claim (Some attempt) j = true /\
      jobs (st_db s') !! JobView.id job = Some j' /\ failed_with message j j'
  | _ => jobs (st_db s') !! JobView.id job = jobs (st_db s) !! JobView.id job
  end.
Proof.
  intros Hrun. unfold failJob in Hrun.
  apply bind_run in Hrun as [(e & Hc & _)|(now & s1 & Hc & Hrun)]; [done|injection Hc as <- <-].
  apply bind_run in Hrun as [(e & Herr%update_key_err & ->)|(o & s2 & Hrun & [= <- <-])]; [by subst|].
  destruct o as [row|].
  - apply (claimed_update (fun _ => true) _ (failed_with message)) in Hrun as [_ Hheld]; [|done|done].
    destruct Hheld as (j & Hj & Hh & Hj'); [done|]. by eexists j, _.
  - by apply update_key_ok in Hrun as [(_ & -> & _)|(j & _ & _ & ? & _)].
Qed.

Lemma ends_clear K w (Q : result unit -> list work_event -> world -> Prop) :
  (forall c cs K' w', clears c cs -> marks K' = marks K ++ cs -> Q c K' w') ->
  ends any K w (clearTemporaryGitCredential job) Q.
Proof.
  intros Hq. unfold clearTemporaryGitCredential. unfold clears in Hq. destruct (_ && _).
  - apply ends_bind, (ends_store mark_of). intros s r K1 w1 Hrun%clear_run HK1. cbn in HK1.
    destruct r as [held|e]; [apply ends_ret|]; eapply Hq; eauto.
  - apply ends_ret, (Hq (Ok tt) []); [done|]. by rewrite app_nil_r.
Qed.

Definition reportable (e : work_event) : Prop :=
  match mark_of e with Some m => report m | None => True end.

Lemma marks_reported es : Forall reportable es -> Forall report (marks es).
Proof.
  induction 1 as [|e es He _ IH]; [constructor|]. unfold marks_by. simpl. unfold reportable in He.
  destruct (mark_of e); [by constructor|done].
Qed.

Lemma ends_reports {A} K w (m : Work A) (Q : result A -> list work_event -> world -> Prop) :
  within (logs_only reportable) m ->
  (forall r reports K' w', Forall report reports -> marks K' = marks K ++ reports -> Q r K' w') -> ends any K w m Q.
Proof.
  intros Hm Hq. unfold ends. destruct (m w) as [r w'] eqn:Hrun.
  apply (logs_run _ _ _ _ _ Hm) in Hrun as (es & Hlog & Hes). exists (K ++ es). split.
  - exists es. split; [done|]. split; [done|]. by intros past e future _.
  - eapply Hq; [by apply marks_reported, Hes|]. apply marks_by_app.
Qed.

Lemma reportable_op {A} name (m : Tx A) : name <> "replaceJobPayload"%string -> within (logs_only reportable) (op name m).
Proof.
  intros Hname. apply logs_stored. intros r d d'. unfold reportable. cbn. by rewrite bool_decide_eq_false_2.
Qed.

Lemma reportable_failure message : within (logs_only reportable)
  (settleJobFailure job message ;;
   job_log (JobView.projectId job) None "runtime" ("Job " +:+ JobView.id job +:+ " failed: " +:+ message)).
Proof.
  assert (Hop : forall A name (m : Tx A), name <> "replaceJobPayload"%string -> within (logs_only reportable) (op name m))
    by (intros; by apply reportable_op).
  unfold settleJobFailure, build_failed, activation_failed, project_state_is, job_log.
  repeat case_bool_decide; stroll; by apply Hop.
Qed.

Lemma ends_job_failed e K w (Q : result unit -> list work_event -> world -> Prop) :
  (forall r fs K' w', fails (error_text e) r fs -> marks K' = marks K ++ fs -> Q r K' w') ->
  ends any K w (job_failed job e) Q.
Proof.
  intros Hq. unfold job_failed. cbv zeta. apply ends_bind, ends_clear. intros [u|e'] cs K1 w1 Hclear HK1.
  2: { apply (Hq _ cs); [|done]. by exists (Err e'), cs. }
  apply ends_bind, (ends_store mark_of). intros s held K2 w2 Hrun%fail_run HK2. cbn in HK2. rewrite HK1, <- app_assoc in HK2.
  destruct held as [[|]|e'].
  - cbn [negb]. apply ends_reports; [apply reportable_failure|]. intros r reports K3 w3 Hreports HK3.
    rewrite HK2, <- app_assoc in HK3. eapply Hq; [|exact HK3]. exists (Ok u), cs. split; [done|].
    eexists true, _, _, reports. split; [by rewrite <- app_assoc|]. done.
  - apply ends_ret. eapply Hq; [|exact HK2]. exists (Ok u), cs. split; [done|]. by eexists false, _, _, [].
  - eapply Hq; [|exact HK2]. exists (Ok u), cs. split; [done|]. by eexists false, _, _, [].
Qed.

(** C40. A claimed job is settled exactly as its handler ended.  A handler that returns
    has its job completed, one that throws has it failed with the error's text, and
    a completion that throws is a failure too; the temporary credential is cleared
    before; each of these writes changes the row only if this attempt still holds it;
    and a failure is reported to the project only if it was written. *)
Theorem job_settled_as_it_ended options w r w' :
  runClaimedJob job options w = (r, w') ->
  exists outcome w1 es, dispatchJob job options w = (outcome, w1) /\ w_log w' = w_log w1 ++ es /\
    settles outcome r (marks_by (settle_mark_of (JobView.id job)) es).
Proof.
  intros Hrun. destruct (dispatchJob job options w) as [outcome w1] eqn:Hdispatch. exists outcome, w1.
  assert (Hends : ends any [] w1 (match outcome with
    | Ok _ => try_catch (clearTemporaryGitCredential job ;; complete_job job) (job_failed job)
    | Err e => job_failed job e
    end) (fun r K _ => settles outcome r (marks K))).
  2: { assert (Hrest : (match outcome with
         | Ok _ => try_catch (clearTemporaryGitCredential job ;; complete_job job) (job_failed job)
         | Err e => job_failed job e
         end) w1 = (r, w')).
       { rewrite <- Hrun. unfold runClaimedJob, try_catch, bind. rewrite Hdispatch. by destruct outcome. }
       destruct (ends_run _ _ _ _ _ _ _ Hends Hrest) as (K & (es & Hlog & -> & _) & Hq). by exists es. }
  destruct outcome as [u|e]; [|by apply ends_job_failed; intros r0 fs K' w0 Hf ->].
  apply ends_catch, ends_bind, ends_clear. intros c cs K1 w2 Hclear HK1. cbn in HK1. destruct c as [v|e].
  - apply ends_bind, (ends_store mark_of). intros s held K2 w3 Hc%complete_run HK2. cbn in HK2. rewrite HK1 in HK2.
    destruct held as [b|e].
    + apply ends_ret. rewrite HK2. exists (Ok v), cs. split; [done|]. eexists _, _, []. split; [done|]. by left.
    + apply ends_job_failed. intros r4 fs K4 w4 Hf HK4. rewrite HK2, <- app_assoc in HK4. rewrite HK4.
      exists (Ok v), cs. split; [done|]. eexists _, _, fs. split; [done|]. right. by exists e.
  - apply ends_job_failed. intros r4 fs K4 w4 Hf HK4. rewrite HK1 in HK4. rewrite HK4.
    exists (Err e), cs. split; [done|]. by exists fs.
Qed.
End JobSettled.

(** ** A clone that fails for good, and a job that another attempt has taken *)

Definition broken_git : GitHost := {|
  git_clone := fun _ _ _ _ => Some (mk_clone_failure false (Some "fatal: repository not found"));
  git_rev_parse := fun _ _ => None;
  decrypt_token := fun token => Ok token
|}.

Definition clone_payload : json :=
  JObj [("importKind", JStr "git"); ("gitUrl", JStr "https://git.example/agent.git");
        ("gitCredential", credential_json (mk_job_credential "u" "git.example" "glpat-0123456789" false))]%string.

Definition clone_job : job_view := JobView.mk "job_4" "p" "import_source" "running" clone_payload 1 None 0 0.

Definition clone_world (attempts : Z) : world :=
  mk_world (sample_store (empty_database
    <| projects := {[ "p" := sample_project "p" ]}%string |>
    <| jobs := {[ "job_4" := Job.mk "job_4" "p" "import_source" "running" clone_payload attempts None (Some 0%Z) 0 0 0 ]}%string |>)) [].

Definition sample_process_options : process_options :=
  mk_process_options sample_import_options sample_build_options sample_job_options sample_schedule_options (Some 2%Z).

Abbreviation job_run attempts :=
  (@runClaimedJob sample_platform package_node sample_dates sample_locale sample_urls sample_channel still_host
    sample_launch_host sample_job_host never_aborted broken_git sample_source_host sample_build_host clone_job
    sample_process_options (clone_world attempts)).

Definition job_marks (es : list work_event) : list string :=
  (fun m => match m with
            | CredentialCleared _ _ => "cleared"
            | JobCompleted _ _ => "completed"
            | JobFailed held _ _ => if held then "failed" else "lost"
            | FailureReported name => name
            end%string) <$> marks_by (settle_mark_of "job_4") es.

Lemma job_settled_as_it_ended_witness :
  job_marks (w_log (job_run 1%Z).2) = ["getProject"; "cleared"; "failed"; "updateProjectState"; "appendLog"]%string /\
  job_marks (w_log (job_run 2%Z).2) = ["getProject"; "cleared"; "lost"]%string /\
  (jobs (st_db (w_store (job_run 1%Z).2)) !! "job_4"%string ≫= fun j => Job.lastError j)
  = Some "Repository fetch failed: fatal: repository not found"%string /\
  exists outcome w1 es, w_log (job_run 1%Z).2 = w_log w1 ++ es /\
    @settles sample_platform still_host clone_job outcome (job_run 1%Z).1 (marks_by (settle_mark_of "job_4") es).
Proof.
  split; [vm_compute; reflexivity|]. split; [vm_compute; reflexivity|]. split; [vm_compute; reflexivity|].
  destruct (job_settled_as_it_ended _ _ _ _ _ (surjective_pairing (job_run 1%Z))) as (outcome & w1 & es & _ & Hlog & Hs).
  exists outcome, w1, es. exact (conj Hlog Hs).
Defined.
